(* ===== verification/_CoqProject ===== *)
-Q . S2P
Prelude.v
PyStr.v
PyText.v
Sha256.v
Domain.v
DateTime.v
PyNum.v
Sql.v
Store.v
Transactions.v
Port.v
StoreProps.v
SearchProps.v
Embedding.v
EmbeddingProps.v
Backfill.v
Search.v
Retrieval.v
SearchWitness.v
UseCases.v
UseCaseProps.v
Envelope.v
EnvelopeProps.v
Maintenance.v
MaintenanceProps.v
MaintenanceRuns.v
PyRepr.v
Config.v
Urls.v
Redaction.v
GitLog.v
GitCluster.v
TextProps.v
GitClusterProps.v
GitLogProps.v
LogFormat.v
GitOnboard.v
GitOnboardProps.v
FileSystem.v
Backups.v
BackupProps.v
RestoreProps.v
Snapshots.v
SnapshotProps.v
Jobs.v
JobProps.v
BackupWitness.v
ConfigProps.v
Http.v
HttpProps.v
Serializers.v
Surfaces.v
SurfaceProps.v
Migrator.v
MigratorProps.v
OfflineRestore.v
OfflineFrames.v
ActivateProps.v
RollbackProps.v
OfflineProps.v
OfflineWitness.v
Vectors.v
Adapters.v
AdapterProps.v
AdapterRuns.v
Background.v
BackgroundProps.v
Health.v
HealthProps.v
Metrics.v
MetricsProps.v
Exposition.v
MetricsWitness.v
RedactionProps.v
Container.v
ContainerProps.v
Argparse.v
Cli.v
CliProps.v
Locking.v
