(* ===== verification/Prelude.v ===== *)
(** * OpenChronicle: a verification development

    OpenChronicle ([src/src/openchronicle]) is a memory database for language
    model agents: projects and memories in SQLite, keyword search through FTS5,
    semantic search through stored embeddings, served over REST and MCP, with a
    maintenance loop, backups, and an importer of git histories.  This library
    models its core in Rocq, operation by operation, and proves what makes each
    part correct.  A comment [[file.py:first-last symbol]] before a definition
    names the lines it translates.

    ** How the parts interact

    The surfaces (REST routes, MCP tools) check their parameters and call the
    use cases; the use cases call the storage port and, where they embed, the
    embedding service; the service calls the port again and a provider behind
    the embedding port.  The SQLite store implements the storage port.  The
    maintenance loop runs jobs on a clock (backfill, backups and their retention,
    off-site copies), and a refresher asks the provider for its revision and
    starts a background backfill when the stored vectors are of another one;
    health reads all of them; the backup catalog works on files.  The HTTP middleware
    stands before the routes, the migrator before the store.  The command line
    parses what is typed, builds the container and calls the same use cases.

    ** Files

    - [Prelude] state-and-exception monad ([SE]), invariants over it, slices,
      stable sorting, tactics and hint databases shared by all.
    - [PyStr], [PyText], [PyNum], [PyRepr], [Sha256], [DateTime]: the Python the
      program uses: strings, searches and splits, [int] and [float], [repr],
      SHA-256 and UTF-8, ISO 8601 text and the calendar with its round trip.
    - [Domain]: errors, timestamps, memories, projects, revisions, JSON values.
    - [Sql]: rows, constraints, FTS triggers, transactions and savepoints of
      SQLite as far as the store uses them, and the well-formedness [wf] of a
      database.  [Store]: [sqlite_store.py], statement by statement, over a
      connection with scripts of the errors [BEGIN] and [COMMIT] meet.
      [Transactions]: [runs_as], which turns a computation over the connection
      into a plain function of the database.  [Port]: the storage port as a
      class ([MemoryStorePort]) whose laws are those plain functions, and its
      instance, the refinement of the port by the store.  [StoreProps],
      [SearchProps]: transactions, retries, paging, scope, LIKE escaping.
      [Locking]: the store's re-entrant lock, its reports to the metrics, and threads
      interleaved between statements, as a machine with an executable schedule.
    - [Embedding]: the embedding port and [embedding_service.py]: generation,
      backfill, tombstones, status, over a state that holds the store, the
      provider and a queue of the other threads' writes.  [EmbeddingProps],
      [Backfill]: every stored vector belongs to the text
      and revision it is filed under, a backfill converges; what is proved of
      any provider is proved from the laws of a class, [ProviderLaws].
    - [Vectors], [Adapters], [AdapterProps], [AdapterRuns]:
      the Ollama, OpenAI and stub adapters: requests, error classification,
      response checks, binary64 normalisation, revision probes and their
      cooldown.  The Ollama adapter discharges [ProviderLaws].
    - [Background], [BackgroundProps]: the background
      backfill, its outcome record, the refresher and [memory_embed].
    - [Search], [Retrieval], [SearchWitness]: hybrid, keyword and semantic search
      with rank fusion and the pinned float; what a hit satisfies, and that a
      failing provider degrades to keyword search.
    - [UseCases], [UseCaseProps]; [Envelope], [EnvelopeProps]: the use cases; export and import.
    - [Maintenance], [MaintenanceProps], [MaintenanceRuns]:
      [maintenance_loop.py] as a step relation ([step]) over tasks, two locks and
      a schedule file; which job holds the lock among waiters is left open.
    - [GitLog], [GitCluster], [GitOnboard] with [TextProps], [LogFormat],
      [GitClusterProps], [GitLogProps], [GitOnboardProps]:
      [git_onboard.py] and its tool: the log format and its parser, clustering,
      URL and environment policy, redaction, watermarks.
    - [FileSystem], [Backups], [BackupProps], [RestoreProps], [Snapshots],
      [SnapshotProps], [Jobs], [JobProps], [BackupWitness]: a file system whose
      writes may fail, [backup.py], [backup_catalog.py], and the handlers of
      [maintenance/jobs.py] with retention and the encrypted off-site copy.
    - [OfflineRestore], [OfflineFrames], [ActivateProps], [RollbackProps],
      [OfflineProps], [OfflineWitness], and the second half of [FileSystem]: a
      program logic over that file system ([triple]: what holds in every state a
      run passes, and at its end) and [scripts/offline_restore.py]: staging,
      activation, rollback, write probe, retirement and the command's checks.
    - [Config], [ConfigProps]: environment, sections, listeners, paths.
    - [Http], [HttpProps]: host allowlist, keys, rate limiter, their order, the
      responses to exceptions.  [Serializers], [Surfaces], [SurfaceProps]: the
      routes and tools.  [Migrator], [MigratorProps]: schema migrations.
    - [Health], [HealthProps]: the diagnosis, the health payload and its route.
    - [Metrics], [MetricsProps], [Exposition], [MetricsWitness]: the metrics port as a class ([MetricsRecorder]), the
      recorder with its caches of children and its scrape slot, the middleware and
      the wrapper of the tools, the text exposition with its cache of prefixes.
    - [Urls]: [urlsplit], [urlunsplit] and [ipaddress].  [Redaction],
      [RedactionProps]: credentials in URLs, the log formatters, the root logger.
      [Container], [ContainerProps]: core.json, the container's
      construction, the embedding endpoint, the lifespan of the application.
    - [Argparse]: what [argparse] makes of a line (options, abbreviations, groups,
      sub-commands) and the parser of [cli/main.py].  [Cli]: the commands of
      [cli/commands], what they print, [main].  [CliProps]: what they guarantee.

    ** What is shown

    Storage: an operation in a transaction has all its effects or none; every
    store call keeps [wf]; [BEGIN] retries on its schedule and stops; a vector is
    saved only if the text is still the one embedded; a call and a whole transaction
    is one atomic step of threads that share the store, which never deadlock and never
    run for ever.  Embedding: attribution
    under interference, and convergence of a backfill; a revision is only
    learned from a listing of the provider, vectors carry a listed one, probes
    keep their distance, and a re-pulled model is re-embedded; a background run
    records how it ended and leaves the lock free.  Search: hits are
    rows of the caller's scope; pages tile one stream; a hybrid search floats the
    matching pins over the fusion of its two channels, or over the keyword channel
    alone when the provider gives no stable embedding.  Export and import: round
    trip, and import as a union.
    Git: clusters partition the commits within bounds; the parser inverts the
    format; the URL policy is equivalent to its grammar; no secret survives
    redaction nor reaches the child's environment.  Maintenance: one job at a
    time, tasks finish, success is only recorded when earned, the schedule
    survives a restart.  Backups: a manifest is published only after its
    verified snapshot, a staged restore is the verified artifact, retention
    never drops what it must keep, nothing leaves unencrypted.  Offline restore:
    wherever an activation stops, the old files are in place or archived byte
    for byte; a rollback can be resumed until it is done; only verified bytes are
    staged; dry runs change nothing.  Boundary: no
    request reaches a handler without an allowed host and, where one is configured,
    the key (public paths need none; CORS, if it is on, answers preflights itself), at
    most the configured number of requests in any minute, ports in range; a REST route
    within its declared parameters does what its MCP tool does, with the differences
    listed at [surfaces_agree]; and health hides paths from those without the key and
    still tells of a failed job after a restart.  Metrics: they never change what the program
    does (but for a tool result whose status cannot be looked up), label values are
    from fixed sets, the caches of the recorder and of the exporter change nothing that
    is recorded or exposed, one scrape runs at a time.  Logs: what the formatters render
    holds no URL credentials, lists and objects among the extras of a JSON record
    excepted.  Construction: whether the embedding endpoint counts as remote is decided
    by the provider and the host of its endpoint; the container starts without its embedding provider;
    the lifespan stops what it started.  Migrations: whole, ascending, resumable.
    Command line: every line typed is refused, answered with the help, or runs a
    command whose values the parser has made and typed; it ends with status 0, 1 or 2
    or an exception, the store closed; previews change nothing; an export leaves the
    old file or the whole new one.

    ** Bounds and fuel

    Recursion is structural but for [cap_groups], with the number of groups as
    fuel (each iteration merges two), [split_upto], with the length of the text
    (each step consumes a character of it), the digits of a number, with its
    binary logarithm, and [begin_loop], with the number of attempts.  Integers
    are unbounded as in Python; floats are the binary64 operations of Rocq's
    [SpecFloat].  SHA-256 words and SQLite's limits are written out.

    ** Modelling choices

    Text is Latin-1 ([ascii] read as U+0000 to U+00FF); the one wider character
    the code prints, the dash of a cluster label, is a parameter.  FTS5 ranking,
    NumPy's top-k, set iteration order, the git, rclone and age programs, SQLite's
    execution of migration statements and CORS are arguments, with the few laws
    the code relies on as named hypotheses or class fields, each instantiated in
    a witness.  What an adapter's HTTP or SDK calls answer, and what other
    threads do to its revision state meanwhile, are the classes [Outside] and
    [Client]; [sum] over floats compensates as CPython has done since 3.12.  A
    background run of [generate_missing] is one step of the event loop, with the
    other threads' writes between its store calls.  Files: a list of faults says which writes fail; reading does not
    fail by itself; modification times, directory scans and the opening of a
    database file are arguments; a calendar day is its number, not its text.
    The offline helper's SQLite and its answers from the operating system are
    records of arguments; file modes and SQLite's own temporary files are left
    out; its refusals keep their words.  Clocks are arguments; the limiter's
    clock is in whole nanoseconds.  The prometheus client and its laws are the
    classes [Prometheus] and [PrometheusLaws]; what [json.loads] makes of a text
    is an argument.  A run of the command line is told by a record of arguments what
    surrounds it: clocks, fresh ids, the text of exceptions, git, the environment.  The metrics and the log formatters have files of their own;
    the calls to them inside the other components, run durations and the wording
    of log lines are left out there.

    ** Not modelled

    The registration of routes and tools with FastAPI and FastMCP, uvicorn, the text
    of the help and usage messages, the probe and benchmark scripts
    under [src/scripts] and [src/tools] (programs that time or exercise a running
    server), and pragmas, VACUUM and integrity checks, which are calls into
    SQLite. *)

From stdpp Require Export base tactics list gmap fin_map_dom strings option sorting.
From Stdlib Require Export ZArith Lia.

(** ** Results and the state-and-exception monad

    A Python call either returns a value or raises; in both cases the mutations
    done so far persist.  [SE S E A] is therefore a state transformer that
    always yields the final state. *)

Inductive result (E A : Type) : Type :=
| Ok (a : A)
| Raise (e : E).
Arguments Ok {E A} a.
Arguments Raise {E A} e.

Definition SE (S E A : Type) : Type := S → S * result E A.

Definition ret {S E A} (a : A) : SE S E A := λ s, (s, Ok a).
Definition raise {S E A} (e : E) : SE S E A := λ s, (s, Raise e).
Definition bind {S E A B} (m : SE S E A) (k : A → SE S E B) : SE S E B := λ s,
  match m s with
  | (s', Ok a) => k a s'
  | (s', Raise e) => (s', Raise e)
  end.
Definition get_st {S E} : SE S E S := λ s, (s, Ok s).
Definition gets {S E A} (f : S → A) : SE S E A := λ s, (s, Ok (f s)).
Definition put_st {S E} (s : S) : SE S E unit := λ _, (s, Ok tt).
Definition modify {S E} (f : S → S) : SE S E unit := λ s, (f s, Ok tt).
Definition lift_result {S E A} (r : result E A) : SE S E A := λ s, (s, r).
(** [try: m  except e: h e] *)
Definition try_catch {S E A} (m : SE S E A) (h : E → SE S E A) : SE S E A := λ s,
  match m s with
  | (s', Ok a) => (s', Ok a)
  | (s', Raise e) => h e s'
  end.

(** [try: m  finally: fin]: an exception of [fin] replaces the outcome. *)
Definition try_finally {S E A} (m : SE S E A) (fin : SE S E unit) : SE S E A := λ s,
  let (s1, r) := m s in
  match fin s1 with
  | (s2, Ok _) => (s2, r)
  | (s2, Raise e) => (s2, Raise e)
  end.

Fixpoint map_m {S E A B} (f : A → SE S E B) (l : list A) : SE S E (list B) :=
  match l with
  | [] => ret []
  | x :: l => bind (f x) (λ y, bind (map_m f l) (λ ys, ret (y :: ys)))
  end.

Definition result_bind {E A B} (r : result E A) (k : A → result E B) : result E B :=
  match r with Ok a => k a | Raise e => Raise e end.

Declare Scope prog_scope.
Delimit Scope prog_scope with prog.
Notation "'let*' x ':=' c1 'in' c2" := (bind c1 (λ x, c2))
  (at level 10, x pattern, c1 at level 100, c2 at level 200) : prog_scope.
Notation "c1 ';;' c2" := (bind c1 (λ _, c2))
  (at level 100, c2 at level 200, right associativity) : prog_scope.
Notation "'let?' x ':=' c1 'in' c2" := (result_bind c1 (λ x, c2))
  (at level 10, x pattern, c1 at level 100, c2 at level 200) : prog_scope.

(** Split a hypothesis or goal on every [match] it is stuck on. *)
Ltac case_all :=
  repeat (case_match; simplify_eq/=; try done).

Lemma bind_ok {S E A B} (m : SE S E A) (k : A → SE S E B) s s' b :
  bind m k s = (s', Ok b) ↔ ∃ a s1, m s = (s1, Ok a) ∧ k a s1 = (s', Ok b).
Proof.
  unfold bind. destruct (m s) as [s1 [a|e]]; split; naive_solver.
Qed.

Lemma bind_raise {S E A B} (m : SE S E A) (k : A → SE S E B) s s' e :
  bind m k s = (s', Raise e) ↔
  m s = (s', Raise e) ∨ ∃ a s1, m s = (s1, Ok a) ∧ k a s1 = (s', Raise e).
Proof.
  unfold bind. destruct (m s) as [s1 [a|e']]; split; naive_solver.
Qed.

(** Invariants: [Inv] holds after [m] whatever its outcome. *)
Definition preserves {S E A} (Inv : S → Prop) (m : SE S E A) : Prop :=
  ∀ s, Inv s → Inv (m s).1.

Lemma preserves_ret {S E A} (Inv : S → Prop) (a : A) : preserves Inv (@ret S E A a).
Proof. by intros s. Qed.
Lemma preserves_raise {S E A} (Inv : S → Prop) (e : E) : preserves Inv (@raise S E A e).
Proof. by intros s. Qed.
Lemma preserves_gets {S E A} (Inv : S → Prop) (f : S → A) : preserves Inv (@gets S E A f).
Proof. by intros s. Qed.
Lemma preserves_lift {S E A} (Inv : S → Prop) (r : result E A) :
  preserves Inv (@lift_result S E A r).
Proof. by intros s. Qed.
Lemma preserves_modify {S E} (Inv : S → Prop) (f : S → S) :
  (∀ s, Inv s → Inv (f s)) → preserves Inv (@modify S E f).
Proof. intros H s Hs. by apply H. Qed.
Lemma preserves_bind {S E A B} (Inv : S → Prop) (m : SE S E A) (k : A → SE S E B) :
  preserves Inv m → (∀ a, preserves Inv (k a)) → preserves Inv (bind m k).
Proof.
  intros Hm Hk s Hs. specialize (Hm s Hs). unfold bind.
  destruct (m s) as [s1 [a|e]]; [by apply Hk | done].
Qed.
Lemma preserves_try {S E A} (Inv : S → Prop) (m : SE S E A) (h : E → SE S E A) :
  preserves Inv m → (∀ e, preserves Inv (h e)) → preserves Inv (try_catch m h).
Proof.
  intros Hm Hh s Hs. specialize (Hm s Hs). unfold try_catch.
  destruct (m s) as [s1 [a|e]]; [done | by apply Hh].
Qed.
Lemma preserves_map_m {S E A B} (Inv : S → Prop) (f : A → SE S E B) l :
  (∀ a, preserves Inv (f a)) → preserves Inv (map_m f l).
Proof.
  intros Hf. induction l as [|x l IH]; [apply preserves_ret|].
  apply preserves_bind; [done|]. intros y. apply preserves_bind; [done|].
  intros ys. apply preserves_ret.
Qed.

Create HintDb preserves.
#[export] Hint Resolve preserves_ret preserves_raise preserves_gets preserves_lift
  preserves_bind preserves_try preserves_map_m : preserves.

(** An invariant kept whatever the outcome, with a fact about a normal result. *)
Definition ensures {S E A} (Inv : S → Prop) (m : SE S E A) (Q : A → Prop) : Prop :=
  ∀ s, Inv s → Inv (m s).1 ∧ ∀ a, (m s).2 = Ok a → Q a.

Section ensures.
Context {S E : Type} (Inv : S → Prop).

Lemma ensures_weaken {A} (m : SE S E A) (Q R : A → Prop) :
  ensures Inv m Q → (∀ a, Q a → R a) → ensures Inv m R.
Proof. intros H HQR s Hs. destruct (H s Hs) as [? HQ]. eauto. Qed.
Lemma ensures_ret {A} (a : A) (Q : A → Prop) : Q a → ensures Inv (@ret S E A a) Q.
Proof. intros HQ s Hs. simpl. naive_solver. Qed.
Lemma ensures_raise {A} (e : E) (Q : A → Prop) : ensures Inv (@raise S E A e) Q.
Proof. intros s Hs. simpl. naive_solver. Qed.
Lemma ensures_gets {A} (f : S → A) : ensures Inv (@gets S E A f) (λ _, True).
Proof. by intros s Hs. Qed.
Lemma ensures_modify (f : S → S) :
  (∀ s, Inv s → Inv (f s)) → ensures Inv (@modify S E f) (λ _, True).
Proof. intros Hf s Hs. split; [by apply Hf|done]. Qed.
Lemma ensures_bind {A B} (m : SE S E A) (k : A → SE S E B) (Q : A → Prop) (R : B → Prop) :
  ensures Inv m Q → (∀ a, Q a → ensures Inv (k a) R) → ensures Inv (bind m k) R.
Proof.
  intros Hm Hk s Hs. specialize (Hm s Hs) as [Hs1 HQ]. unfold bind.
  destruct (m s) as [s1 [a|e]]; [by apply Hk; [apply HQ|]|naive_solver].
Qed.
Lemma ensures_try {A} (m : SE S E A) (h : E → SE S E A) (Q : A → Prop) :
  ensures Inv m Q → (∀ e, ensures Inv (h e) Q) → ensures Inv (try_catch m h) Q.
Proof.
  intros Hm Hh s Hs. specialize (Hm s Hs) as [Hs1 HQ]. unfold try_catch.
  destruct (m s) as [s1 [a|e]]; [naive_solver|by apply Hh].
Qed.
Lemma ensures_finally {A} (m : SE S E A) (fin : SE S E unit) (Q : A → Prop) :
  ensures Inv m Q → ensures Inv fin (λ _, True) → ensures Inv (try_finally m fin) Q.
Proof.
  intros Hm Hf s Hs. specialize (Hm s Hs) as [Hs1 HQ]. unfold try_finally.
  destruct (m s) as [s1 r]. specialize (Hf s1 Hs1) as [Hs2 _].
  destruct (fin s1) as [s2 [?|?]]; naive_solver.
Qed.
Lemma ensures_if {A} (b : bool) (m1 m2 : SE S E A) (Q : A → Prop) :
  (b = true → ensures Inv m1 Q) → (b = false → ensures Inv m2 Q) →
  ensures Inv (if b then m1 else m2) Q.
Proof. destruct b; auto. Qed.
End ensures.

(** ** Python slices and SQL limits *)

Lemma elem_of_rev {A} (x : A) l : x ∈ rev l ↔ x ∈ l.
Proof. by rewrite !list_elem_of_In, <- in_rev. Qed.

(** A slice bound: negative indices count from the end, both clip. *)
Definition py_index (n i : Z) : nat :=
  Z.to_nat (if bool_decide (i < 0)%Z then Z.max 0 (i + n) else Z.min i n).

(** [l[lo:hi]] *)
Definition py_slice {A} (lo hi : Z) (l : list A) : list A :=
  let n := Z.of_nat (length l) in
  take (py_index n hi - py_index n lo) (drop (py_index n lo) l).

(** [LIMIT n]: a negative limit is no limit. *)
Definition sql_limit {A} (n : Z) (l : list A) : list A :=
  if bool_decide (n < 0)%Z then l else take (Z.to_nat n) l.

Lemma py_slice_nonneg {A} (lo hi : Z) (l : list A) :
  (0 ≤ lo)%Z → (lo ≤ hi)%Z →
  py_slice lo hi l = take (Z.to_nat (hi - lo)) (drop (Z.to_nat lo) l).
Proof.
  intros Hlo Hhi. unfold py_slice, py_index. rewrite !bool_decide_eq_false_2 by lia.
  destruct (decide (lo ≤ Z.of_nat (length l))%Z).
  - rewrite (Z.min_l lo) by lia.
    destruct (decide (hi ≤ Z.of_nat (length l))%Z).
    + rewrite Z.min_l by lia. f_equal. lia.
    + rewrite Z.min_r by lia. rewrite !take_ge; [done|rewrite length_drop; lia..].
  - rewrite !drop_ge by lia. by rewrite !take_nil.
Qed.

Lemma py_slice_subseteq {A} lo hi (l : list A) x : x ∈ py_slice lo hi l → x ∈ l.
Proof. unfold py_slice. intros H%elem_of_take. destruct H as (i&H&_).
  rewrite lookup_drop in H. by eapply list_elem_of_lookup_2. Qed.

Lemma sublist_slice {A} n m (l : list A) : take n (drop m l) `sublist_of` l.
Proof. etrans; [apply sublist_take|apply sublist_drop]. Qed.

Lemma py_slice_sublist {A} lo hi (l : list A) : py_slice lo hi l `sublist_of` l.
Proof. apply sublist_slice. Qed.

Lemma py_slice_take {A} hi (l : list A) : ∃ n, py_slice 0 hi l = take n l.
Proof. unfold py_slice. eexists. f_equal. unfold py_index. by rewrite Z.min_l by lia. Qed.

Lemma py_slice_length {A} (lo hi : Z) (l : list A) :
  (0 ≤ lo)%Z → (lo ≤ hi)%Z → (Z.of_nat (length (py_slice lo hi l)) ≤ hi - lo)%Z.
Proof. intros ??. rewrite py_slice_nonneg by done. rewrite length_take. lia. Qed.

(** ** Stable sorting

    Python's [sorted] is stable and only ever asks whether one key is less
    than another; [sort_by leb] is the stable insertion sort for
    [leb x y := not (key y < key x)]. *)
Section sort.
Context {A : Type} (leb : A → A → bool).

Fixpoint insert_by (x : A) (l : list A) : list A :=
  match l with
  | [] => [x]
  | y :: l' => if leb x y then x :: y :: l' else y :: insert_by x l'
  end.

Definition sort_by (l : list A) : list A := foldr insert_by [] l.

Lemma insert_by_perm x l : insert_by x l ≡ₚ x :: l.
Proof.
  induction l as [|y l IH]; simpl; [done|].
  case_match; [done|]. rewrite IH. apply Permutation_swap.
Qed.

Lemma sort_by_perm l : sort_by l ≡ₚ l.
Proof. induction l as [|x l IH]; simpl; [done|]. by rewrite insert_by_perm, IH. Qed.

Lemma sort_by_length l : length (sort_by l) = length l.
Proof. by rewrite sort_by_perm. Qed.

Lemma elem_of_sort_by x l : x ∈ sort_by l ↔ x ∈ l.
Proof. by rewrite sort_by_perm. Qed.

Lemma sort_by_nil_inv l : sort_by l = [] → l = [].
Proof. intros H. apply Permutation_nil_r. by rewrite <- H, sort_by_perm. Qed.

(** Adjacent elements are in order as soon as the comparison is total; no
    transitivity is needed, so this also covers float keys. *)
Lemma insert_by_sorted x l :
  (∀ x y, leb x y = false → leb y x = true) →
  Sorted (λ a b, leb a b = true) l → Sorted (λ a b, leb a b = true) (insert_by x l).
Proof.
  intros Htot. induction 1 as [|y l Hl IH Hhd]; simpl; [by repeat constructor|].
  destruct (leb x y) eqn:E; [by repeat constructor|].
  constructor; [done|]. destruct Hhd as [|z l Hyz]; simpl.
  - constructor. by apply Htot.
  - destruct (leb x z); constructor; [by apply Htot|done].
Qed.

Lemma sort_by_sorted l :
  (∀ x y, leb x y = false → leb y x = true) →
  Sorted (λ a b, leb a b = true) (sort_by l).
Proof.
  intros Htot. induction l as [|x l IH]; simpl; [constructor|].
  by apply insert_by_sorted.
Qed.

Lemma sort_by_strongly_sorted l :
  (∀ x y, leb x y = false → leb y x = true) →
  (∀ x y z, leb x y = true → leb y z = true → leb x z = true) →
  StronglySorted (λ a b, leb a b = true) (sort_by l).
Proof.
  intros Htot Htrans. apply Sorted_StronglySorted; [|by apply sort_by_sorted].
  intros x y z. apply Htrans.
Qed.

(** Stability: a class of mutually related elements keeps its order. *)
Lemma insert_by_filter_out (P : A → Prop) `{!∀ x, Decision (P x)} x l :
  ¬ P x → filter P (insert_by x l) = filter P l.
Proof.
  intros Hx. induction l as [|y l IH]; simpl.
  - by rewrite filter_cons_False.
  - case_match; [by rewrite filter_cons_False|].
    rewrite !filter_cons. by case_decide; rewrite IH.
Qed.

Lemma insert_by_filter_in (P : A → Prop) `{!∀ x, Decision (P x)} x l :
  (∀ y, P x → P y → leb x y = true) →
  P x → filter P (insert_by x l) = x :: filter P l.
Proof.
  intros Hall Hx. induction l as [|y l IH]; simpl.
  - by rewrite filter_cons_True.
  - destruct (leb x y) eqn:E; [by rewrite filter_cons_True|].
    rewrite !filter_cons. case_decide as Hy; [|done].
    specialize (Hall y Hx Hy). congruence.
Qed.

Lemma sort_by_stable (P : A → Prop) `{!∀ x, Decision (P x)} l :
  (∀ x y, P x → P y → leb x y = true) → filter P (sort_by l) = filter P l.
Proof.
  intros HP. induction l as [|x l IH]; simpl; [done|].
  destruct (decide (P x)).
  - rewrite insert_by_filter_in, filter_cons_True by naive_solver. by rewrite IH.
  - by rewrite insert_by_filter_out, filter_cons_False.
Qed.

Lemma sort_by_id l : StronglySorted (λ a b, leb a b = true) l → sort_by l = l.
Proof.
  induction 1 as [|x l Hl IH Hx]; simpl; [done|]. rewrite IH.
  destruct l as [|y l]; simpl; [done|].
  apply Forall_cons in Hx as [-> _]. done.
Qed.
End sort.

(** Two strongly sorted permutations of one another agree when the order is
    antisymmetric on their elements. *)
Lemma StronglySorted_unique_on {A} (R : relation A) (l1 l2 : list A) :
  (∀ x y, x ∈ l1 → y ∈ l1 → R x y → R y x → x = y) →
  StronglySorted R l1 → StronglySorted R l2 → l1 ≡ₚ l2 → l1 = l2.
Proof.
  intros Hanti Hs1. revert l2. induction Hs1 as [|x1 l1 Hl1 IH Hx1]; intros l2 Hs2 Hperm.
  - by apply Permutation_nil_l in Hperm.
  - destruct Hs2 as [|x2 l2 Hl2 Hx2].
    { by apply Permutation_nil_r in Hperm. }
    rewrite Forall_forall in Hx1, Hx2.
    assert (x1 = x2) as ->.
    { assert (x2 ∈ x1 :: l1) as H2 by (rewrite Hperm; constructor).
      assert (x1 ∈ x2 :: l2) as H1 by (rewrite <- Hperm; constructor).
      apply elem_of_cons in H1 as [->|H1]; [done|].
      pose proof H2 as H2'. apply elem_of_cons in H2 as [->|H2]; [done|].
      apply Hanti; [constructor|done|by apply Hx1|by apply Hx2]. }
    f_equal. apply Permutation_cons_inv in Hperm.
    apply IH; [|done..]. intros x y ??. apply Hanti; by right.
Qed.

(** ** Counting the entries of a map *)
Definition map_count {K A} `{Countable K} (p : K → A → bool) (m : gmap K A) : nat :=
  size (filter (λ kv : K * A, p kv.1 kv.2 = true) m).

Lemma map_count_ext {K A} `{Countable K} (p q : K → A → bool) (m : gmap K A) :
  (∀ k x, m !! k = Some x → p k x = q k x) → map_count p m = map_count q m.
Proof.
  intros Hpq. unfold map_count. f_equal. apply map_filter_ext. intros k x Hk. simpl. by rewrite Hpq.
Qed.

Lemma map_count_add {K A} `{Countable K} (p q r : K → A → bool) (m : gmap K A) :
  (∀ k x, m !! k = Some x → r k x = p k x || q k x) →
  (∀ k x, m !! k = Some x → p k x && q k x = false) →
  (map_count p m + map_count q m = map_count r m)%nat.
Proof.
  intros Hr Hdisj. rewrite (map_count_ext r (λ k x, p k x || q k x) m Hr).
  unfold map_count. rewrite <- map_size_disj_union.
  - f_equal. rewrite <- map_filter_or. apply map_filter_ext. intros k x _. simpl.
    by rewrite orb_true_iff.
  - apply map_disjoint_spec. intros j x y. rewrite !map_lookup_filter_Some. simpl.
    intros [Hj Hp] [Hj' Hq]. specialize (Hdisj j x Hj). simplify_eq. by rewrite Hp, Hq in Hdisj.
Qed.

Lemma map_count_le {K A} `{Countable K} (p : K → A → bool) (m : gmap K A) :
  (map_count p m ≤ size m)%nat.
Proof. apply map_size_filter. Qed.

Lemma map_count_true {K A} `{Countable K} (m : gmap K A) : map_count (λ _ _, true) m = size m.
Proof. unfold map_count. f_equal. by apply map_filter_id. Qed.

Lemma map_count_list {K A} `{Countable K} (p : K → A → bool) (m : gmap K A) :
  length (filter (λ kv : K * A, p kv.1 kv.2 = true) (map_to_list m)) = map_count p m.
Proof.
  unfold map_count. rewrite <- length_map_to_list. apply Permutation_length, NoDup_Permutation.
  - apply NoDup_filter, NoDup_map_to_list.
  - apply NoDup_map_to_list.
  - intros [k x]. rewrite list_elem_of_filter, !elem_of_map_to_list, map_lookup_filter_Some. naive_solver.
Qed.

(** Counting the entries of one map through another that covers its keys. *)
Lemma map_count_join {K A B} `{Countable K} (p : K → A → bool) (m : gmap K A) (n : gmap K B) :
  (∀ k, is_Some (m !! k) → is_Some (n !! k)) →
  map_count (λ k _, match m !! k with Some x => p k x | None => false end) n = map_count p m.
Proof.
  intros Hsub. unfold map_count. rewrite <- !size_dom. f_equal. apply set_eq. intros k.
  rewrite !elem_of_dom. split.
  - intros [y Hy]. apply map_lookup_filter_Some in Hy as [_ Hp]. simpl in Hp.
    destruct (m !! k) as [x|] eqn:Hx; [|done]. exists x. by apply map_lookup_filter_Some.
  - intros [x Hx]. apply map_lookup_filter_Some in Hx as [Hx Hp]. simpl in Hp.
    destruct (Hsub k ltac:(by eexists)) as [y Hy]. exists y. apply map_lookup_filter_Some.
    split; [done|]. simpl. by rewrite Hx.
Qed.

(** A filtered map and the filtered list of its entries. *)
Lemma size_filter_list {K A} `{Countable K} (P : K * A → Prop) `{!∀ x, Decision (P x)} (m : gmap K A) :
  size (filter P m) = length (filter P (map_to_list m)).
Proof.
  rewrite map_filter_alt, <- length_map_to_list, map_to_list_to_map; [done|].
  eapply sublist_NoDup; [apply (NoDup_fst_map_to_list m)|]. apply (fmap_sublist fst), sublist_filter.
Qed.

Lemma filter_keeps {A} (P : A → Prop) `{!∀ x, Decision (P x)} (l : list A) :
  (∀ x, x ∈ l → P x) → filter P l = l.
Proof.
  induction l as [|x l IH]; intros Hl; [done|]. rewrite filter_cons_True by (apply Hl; left).
  f_equal. apply IH. intros y Hy. apply Hl. by right.
Qed.

Lemma filter_of_map {A B} (P : B → Prop) `{!∀ x, Decision (P x)} (f : A → B) (l : list A) :
  filter P (map f l) = map f (filter (λ x, P (f x)) l).
Proof.
  induction l as [|x l IH]; [done|]. simpl. rewrite !filter_cons. destruct (decide (P (f x))); simpl; by rewrite IH.
Qed.

Lemma filter_drops {A} (P : A → Prop) `{!∀ x, Decision (P x)} (l : list A) :
  (∀ x, x ∈ l → ¬ P x) → filter P l = [].
Proof.
  induction l as [|x l IH]; intros Hl; [done|]. rewrite filter_cons_False by (apply Hl; left).
  apply IH. intros y Hy. apply Hl. by right.
Qed.
