(* ===== verification/PyStr.v ===== *)
(** * Python strings

    The [str] operations the program uses, on Latin-1 text: a character is a
    code point U+0000 to U+00FF, held in an [ascii].  Whitespace, [lower] and
    [casefold] follow the Unicode tables on that range; a wider code point is
    outside the model. *)

From S2P Require Import Prelude.
From Stdlib Require Export Ascii String.
From stdpp Require Export strings.
#[local] Set Warnings "-notation-overridden".

Abbreviation chars := list_ascii_of_string.
Abbreviation of_chars := string_of_list_ascii.

Definition code (c : ascii) : N := N_of_ascii c.
Definition chr (n : N) : ascii := ascii_of_N n.

(** [str.isspace] on one character. *)
Definition py_is_space (c : ascii) : bool :=
  let n := code c in
  ((9 <=? n) && (n <=? 13) || (28 <=? n) && (n <=? 32) || (n =? 133) || (n =? 160))%N.

Definition is_digit (c : ascii) : bool := ((48 <=? code c) && (code c <=? 57))%N.
Definition is_upper_ascii (c : ascii) : bool := ((65 <=? code c) && (code c <=? 90))%N.
Definition is_lower_ascii (c : ascii) : bool := ((97 <=? code c) && (code c <=? 122))%N.
Definition is_alnum_ascii (c : ascii) : bool :=
  is_digit c || is_upper_ascii c || is_lower_ascii c.
(** [string.punctuation] *)
Definition is_punctuation (c : ascii) : bool :=
  ((33 <=? code c) && (code c <=? 126))%N && negb (is_alnum_ascii c).

(** [str.lower] on one character: A-Z and the Latin-1 capitals. *)
Definition py_lower (c : ascii) : ascii :=
  let n := code c in
  if ((65 <=? n) && (n <=? 90) || (192 <=? n) && (n <=? 222) && negb (n =? 215))%N
  then chr (n + 32) else c.

(** [str.upper] on one character; the sharp s and y with diaeresis, whose
    capitals lie outside Latin-1, are left alone. *)
Definition py_upper (c : ascii) : ascii :=
  let n := code c in
  if ((97 <=? n) && (n <=? 122) || (224 <=? n) && (n <=? 254) && negb (n =? 247))%N
  then chr (n - 32) else c.

(** [str.casefold] on one character: sharp s folds to two letters, the micro
    sign (U+00B5) to Greek mu, which the model leaves as it is. *)
Definition py_casefold (c : ascii) : list ascii :=
  if (code c =? 223)%N then ["s"; "s"]%char else [py_lower c].

Definition str_lower (s : string) : string := of_chars (map py_lower (chars s)).
Definition str_upper (s : string) : string := of_chars (map py_upper (chars s)).
Definition str_casefold (s : string) : string := of_chars (concat (map py_casefold (chars s))).

(** [s.strip()], on character lists *)
Fixpoint lstrip_chars (p : ascii → bool) (l : list ascii) : list ascii :=
  match l with
  | c :: l' => if p c then lstrip_chars p l' else l
  | [] => []
  end.
Definition strip_chars (p : ascii → bool) (l : list ascii) : list ascii :=
  rev (lstrip_chars p (rev (lstrip_chars p l))).
Definition py_strip (s : string) : string := of_chars (strip_chars py_is_space (chars s)).

(** [s.split()]: maximal runs of non-whitespace. *)
Fixpoint words_go (cur l : list ascii) : list (list ascii) :=
  match l with
  | [] => match cur with [] => [] | _ => [rev cur] end
  | c :: l' =>
      if py_is_space c
      then match cur with [] => words_go [] l' | _ => rev cur :: words_go [] l' end
      else words_go (c :: cur) l'
  end.
Definition split_words (l : list ascii) : list (list ascii) := words_go [] l.
Definition py_split (s : string) : list string := map of_chars (split_words (chars s)).

(** [sep.join(l)] *)
Fixpoint py_join (sep : string) (l : list string) : string :=
  match l with
  | [] => ""
  | [x] => x
  | x :: l' => (x +:+ sep +:+ py_join sep l')%string
  end.

(** [s.split(sep)] for a one-character separator: always at least one piece. *)
Fixpoint split_at (sep : ascii) (cur l : list ascii) : list (list ascii) :=
  match l with
  | [] => [rev cur]
  | c :: l' =>
      if bool_decide (c = sep) then rev cur :: split_at sep [] l' else split_at sep (c :: cur) l'
  end.
Definition py_split_on (sep : ascii) (s : string) : list string :=
  map of_chars (split_at sep [] (chars s)).

(** [p] is a prefix of [l] *)
Fixpoint is_prefix (p l : list ascii) : bool :=
  match p, l with
  | [], _ => true
  | c :: p', d :: l' => bool_decide (c = d) && is_prefix p' l'
  | _ :: _, [] => false
  end.
Definition starts_with (p s : string) : bool := is_prefix (chars p) (chars s).
Definition ends_with (p s : string) : bool := is_prefix (rev (chars p)) (rev (chars s)).
(** [s.removeprefix(p)] *)
Definition removeprefix (p s : string) : string :=
  if starts_with p s then of_chars (drop (String.length p) (chars s)) else s.

(** [needle in hay] *)
Fixpoint contains_chars (needle hay : list ascii) : bool :=
  is_prefix needle hay ||
  match hay with [] => false | _ :: hay' => contains_chars needle hay' end.
Definition contains (needle hay : string) : bool := contains_chars (chars needle) (chars hay).

(** [s.replace(c, r)] for a one-character pattern *)
Definition replace_char (c : ascii) (r : list ascii) (l : list ascii) : list ascii :=
  concat (map (λ d, if bool_decide (d = c) then r else [d]) l).

(** [f"{n}"] for an integer *)
Fixpoint digits_go (fuel : nat) (n : N) (acc : list ascii) : list ascii :=
  let acc' := chr (48 + n mod 10) :: acc in
  match fuel with
  | O => acc'
  | S f => if (n / 10 =? 0)%N then acc' else digits_go f (n / 10) acc'
  end.
Definition digits_of_N (n : N) : list ascii := digits_go (N.to_nat (N.log2 n)) n [].
Definition str_of_Z (z : Z) : string :=
  of_chars (if (z <? 0)%Z then "-"%char :: digits_of_N (Z.abs_N z) else digits_of_N (Z.abs_N z)).

(** The value of a non-empty run of ASCII digits. *)
Definition digits_value (l : list ascii) : Z :=
  foldl (λ acc c, acc * 10 + Z.of_N (code c - 48))%Z 0%Z l.

(** [s.lower()] and containment relate to the character-level functions. *)
Lemma chars_of_chars l : chars (of_chars l) = l.
Proof. apply list_ascii_of_string_of_list_ascii. Qed.
Lemma of_chars_chars s : of_chars (chars s) = s.
Proof. apply string_of_list_ascii_of_string. Qed.
Create HintDb chars.
#[export] Hint Rewrite chars_of_chars of_chars_chars : chars.

Lemma chars_inj s t : chars s = chars t → s = t.
Proof. intros H. by rewrite <- (of_chars_chars s), H, of_chars_chars. Qed.

Lemma length_chars s : length (chars s) = String.length s.
Proof. induction s; simpl; [done|by f_equal]. Qed.
Lemma replace_char_app c r l1 l2 : replace_char c r (l1 ++ l2) = replace_char c r l1 ++ replace_char c r l2.
Proof. unfold replace_char. by rewrite map_app, concat_app. Qed.
Lemma lstrip_none p l : match l with [] => True | c :: _ => p c = false end → lstrip_chars p l = l.
Proof. destruct l as [|c l]; simpl; [done|]. by intros ->. Qed.
Lemma chars_app s t : chars (s +:+ t) = chars s ++ chars t.
Proof. induction s as [|c s IH]; [done|]. simpl. by rewrite <- IH. Qed.

Lemma is_prefix_spec p l : is_prefix p l = true ↔ ∃ k, l = p ++ k.
Proof.
  revert l. induction p as [|c p IH]; intros l; simpl; [naive_solver|].
  destruct l as [|d l]; [naive_solver|].
  rewrite andb_true_iff, bool_decide_eq_true, IH. naive_solver.
Qed.

Lemma contains_chars_spec p l :
  contains_chars p l = true ↔ ∃ k1 k2, l = k1 ++ p ++ k2.
Proof.
  induction l as [|d l IH]; simpl; rewrite orb_true_iff, is_prefix_spec.
  - split.
    + intros [[k Hk]|]; [|done]. by exists [], k.
    + intros (k1&k2&Hk). left. exists k2. destruct k1; [done|done].
  - rewrite IH. split.
    + intros [[k Hk]|(k1&k2&->)]; [by exists [], k|]. by exists (d :: k1), k2.
    + intros ([|d' k1]&k2&Hk); [left; by exists k2|]. simplify_eq/=. right. by exists k1, k2.
Qed.

Lemma contains_spec needle hay :
  contains needle hay = true ↔ ∃ a b, hay = (a +:+ needle +:+ b)%string.
Proof.
  unfold contains. rewrite contains_chars_spec. split.
  - intros (k1&k2&Hk). exists (of_chars k1), (of_chars k2). apply chars_inj.
    by rewrite !chars_app, !chars_of_chars.
  - intros (a&b&->). exists (chars a), (chars b). by rewrite !chars_app.
Qed.

(** String order: Python compares code points, SQLite's binary collation the
    UTF-8 bytes; both are [String.leb] on Latin-1. *)
Definition str_leb (s t : string) : bool := String.leb s t.
Definition str_ltb (s t : string) : bool := negb (String.leb t s).

Lemma str_leb_total s t : str_leb s t = true ∨ str_leb t s = true.
Proof. apply String.leb_total. Qed.
Lemma str_leb_refl s : str_leb s s = true.
Proof. destruct (str_leb_total s s); done. Qed.
Lemma str_leb_antisym s t : str_leb s t = true → str_leb t s = true → s = t.
Proof. apply String.leb_antisym. Qed.
Lemma str_leb_trans s t u : str_leb s t = true → str_leb t u = true → str_leb s u = true.
Proof.
  intros H1 H2. pose proof (transitivity (R:=String.le) (x:=s) (y:=t) (z:=u)) as H.
  unfold String.le, str_leb in *. destruct (String.leb s u); [done|].
  exfalso. rewrite H1, H2 in H. by apply H.
Qed.

(** Splitting text into words never yields an empty word. *)
Lemma words_go_nonempty cur l w : w ∈ words_go cur l → w ≠ [].
Proof.
  revert cur. induction l as [|c l IH]; intros cur; simpl.
  - destruct cur as [|d cur]; [by intros ?%elem_of_nil|].
    intros ->%list_elem_of_singleton. by intros []%app_nil.
  - destruct (py_is_space c); [|apply IH].
    destruct cur as [|d cur]; [apply IH|].
    intros [->|]%elem_of_cons; [by intros []%app_nil|by eapply IH].
Qed.
