(* ===== verification/PyText.v ===== *)
(** * Searching and splitting text

    [str.find]-based operations with a separator of any length ([partition],
    [split], [replace]), runs of characters, and the pieces of the regular
    expressions the program uses. *)

From S2P Require Import Prelude PyStr.
Local Open Scope Z_scope.

(** The longest prefix of characters that satisfy [p], and the rest. *)
Fixpoint span_chars (p : ascii → bool) (l : list ascii) : list ascii * list ascii :=
  match l with
  | c :: l' => if p c then let (a, b) := span_chars p l' in (c :: a, b) else ([], l)
  | [] => ([], [])
  end.


(** [l.partition(sep)]: the text before and after the leftmost [sep]. *)
Fixpoint partition_chars (sep l : list ascii) : option (list ascii * list ascii) :=
  if is_prefix sep l then Some ([], drop (length sep) l)
  else match l with
  | [] => None
  | c :: l' => '(a, b) ← partition_chars sep l'; Some (c :: a, b)
  end.

(** [l.split(sep, n)] *)
Fixpoint split_upto (n : nat) (sep l : list ascii) : list (list ascii) :=
  match n with
  | O => [l]
  | S n' =>
      match partition_chars sep l with
      | None => [l]
      | Some (a, b) => a :: split_upto n' sep b
      end
  end.
(** [l.split(sep)] for a separator that is not empty: a piece takes at least
    one character. *)
Definition split_text (sep l : list ascii) : list (list ascii) := split_upto (length l) sep l.

Fixpoint join_chars (sep : list ascii) (ls : list (list ascii)) : list ascii :=
  match ls with
  | [] => []
  | [x] => x
  | x :: ls' => x ++ sep ++ join_chars sep ls'
  end.
(** [l.replace(old, new)] for an [old] that is not empty. *)
Definition replace_text (old new l : list ascii) : list ascii := join_chars new (split_text old l).

(** ** Pieces of regular expressions *)

(** A literal under [re.IGNORECASE], given in lower case: the rest after it. *)
Fixpoint eat_ci (p l : list ascii) : option (list ascii) :=
  match p, l with
  | [], _ => Some l
  | c :: p', d :: l' => if bool_decide (py_lower d = c) then eat_ci p' l' else None
  | _ :: _, [] => None
  end.
(** A literal. *)
Definition eat (p l : list ascii) : option (list ascii) :=
  if is_prefix p l then Some (drop (length p) l) else None.
(** [$] without [re.MULTILINE]: the end, or just before a final newline. *)
Definition NEWLINE : ascii := chr 10.
Definition TAB : ascii := chr 9.
Definition at_end (l : list ascii) : bool := bool_decide (l = [] ∨ l = [NEWLINE]).
(** [\w] *)
Definition is_word (c : ascii) : bool :=
  let n := code c in
  is_alnum_ascii c || bool_decide (c = "_"%char)
  || ((n =? 170) || (n =? 178) || (n =? 179) || (n =? 181) || (n =? 185) || (n =? 186)
      || (188 <=? n) && (n <=? 190) || (192 <=? n) && negb (n =? 215) && negb (n =? 247))%N.
Definition some_b {A} (o : option A) : bool := match o with Some _ => true | None => false end.

(** ** Counters *)

(** A dict of counters, in insertion order: [d[k] = d.get(k, 0) + 1]. *)
Fixpoint count_in (k : string) (l : list (string * Z)) : list (string * Z) :=
  match l with
  | [] => [(k, 1)]
  | (k', n) :: l' => if bool_decide (k' = k) then (k', n + 1) :: l' else (k', n) :: count_in k l'
  end.
Definition count_all (ks : list string) : list (string * Z) := foldl (λ d k, count_in k d) [] ks.
