(* ===== verification/Sha256.v ===== *)
(** * SHA-256 and the content hash

    [hash_content] is the SHA-256 hex digest of the UTF-8 bytes of the text, as
    [hashlib] computes it: FIPS 180-4 written out on 32-bit words in [N], so
    every freshness check of the model evaluates to the digest the program
    stores. *)

From S2P Require Import Prelude PyStr.
Local Open Scope N_scope.

(** ** 32-bit words *)
Definition w32 (n : N) : N := N.land n 0xFFFFFFFF.
Definition add32 (a b : N) : N := w32 (a + b).
Definition rotr (k x : N) : N := N.lor (N.shiftr x k) (w32 (N.shiftl x (32 - k))).
Definition not32 (x : N) : N := N.lxor x 0xFFFFFFFF.

Definition Ch (x y z : N) : N := N.lxor (N.land x y) (N.land (not32 x) z).
Definition Maj (x y z : N) : N := N.lxor (N.lxor (N.land x y) (N.land x z)) (N.land y z).
Definition Sigma0 (x : N) : N := N.lxor (N.lxor (rotr 2 x) (rotr 13 x)) (rotr 22 x).
Definition Sigma1 (x : N) : N := N.lxor (N.lxor (rotr 6 x) (rotr 11 x)) (rotr 25 x).
Definition sigma0 (x : N) : N := N.lxor (N.lxor (rotr 7 x) (rotr 18 x)) (N.shiftr x 3).
Definition sigma1 (x : N) : N := N.lxor (N.lxor (rotr 17 x) (rotr 19 x)) (N.shiftr x 10).

(** The constants of the standard: the first 32 bits of the fractional parts of
    the cube roots of the first 64 primes, and of the square roots of the first
    eight. *)
Definition is_prime (n : nat) : bool :=
  forallb (λ k, negb (Nat.eqb (Nat.modulo n k) 0)) (seq 2 (n - 2)).
Definition primes : list N := map N.of_nat (List.filter is_prime (seq 2 310)).

(** The largest [r] with [r ^ 3 <= n], one bit at a time from bit [k - 1]. *)
Fixpoint cbrt_bits (k : nat) (n r : N) : N :=
  match k with
  | O => r
  | S k =>
      let r' := r + N.shiftl 1 (N.of_nat k) in
      cbrt_bits k n (if r' * r' * r' <=? n then r' else r)
  end.

Definition round_constants : list N :=
  Eval vm_compute in map (λ p, w32 (cbrt_bits 36 (N.shiftl p 96) 0)) primes.
Definition initial_hash : list N :=
  Eval vm_compute in map (λ p, w32 (N.sqrt (N.shiftl p 64))) (take 8 primes).

(** The message schedule, kept newest first: the next word is made from the
    words 2, 7, 15 and 16 positions back. *)
Definition next_word (w : list N) : N :=
  match w with
  | _ :: w2 :: _ :: _ :: _ :: _ :: w7 :: _ :: _ :: _ :: _ :: _ :: _ :: _ :: w15 :: w16 :: _ =>
      add32 (add32 (sigma1 w2) w7) (add32 (sigma0 w15) w16)
  | _ => 0
  end.
Fixpoint schedule (n : nat) (w : list N) : list N :=
  match n with
  | O => w
  | S n => schedule n (next_word w :: w)
  end.

Definition sha_round (st : list N) (kw : N * N) : list N :=
  match st with
  | [a; b; c; d; e; f; g; h] =>
      let t1 := add32 (add32 h (Sigma1 e)) (add32 (Ch e f g) (add32 kw.1 kw.2)) in
      let t2 := add32 (Sigma0 a) (Maj a b c) in
      [add32 t1 t2; a; b; c; add32 d t1; e; f; g]
  | _ => st
  end.

Definition compress (h : list N) (block : list N) : list N :=
  let w := rev (schedule 48 (rev block)) in
  zip_with add32 h (foldl sha_round h (zip round_constants w)).

(** ** Padding and words *)
Definition be32 (b : list N) : N := foldl (λ acc x, N.lor (N.shiftl acc 8) x) 0 b.
Definition bytes_of_word (n : nat) (x : N) : list N :=
  map (λ i, N.land (N.shiftr x (8 * N.of_nat i)) 0xFF) (rev (seq 0 n)).
Definition pad (msg : list N) : list N :=
  let len := N.of_nat (length msg) in
  let zeros := N.to_nat ((119 - len mod 64) mod 64) in
  msg ++ [0x80] ++ replicate zeros 0 ++ bytes_of_word 8 (8 * len).

Fixpoint words_of (l : list N) : list N :=
  match l with
  | a :: b :: c :: d :: l' => be32 [a; b; c; d] :: words_of l'
  | _ => []
  end.
Fixpoint blocks_of (fuel : nat) (w : list N) : list (list N) :=
  match fuel, w with
  | S f, _ :: _ => take 16 w :: blocks_of f (drop 16 w)
  | _, _ => []
  end.

Definition sha256 (msg : list N) : list N :=
  let w := words_of (pad msg) in
  concat (map (bytes_of_word 4) (foldl compress initial_hash (blocks_of (length w) w))).

(** ** The hex digest of a text *)
Definition utf8 (c : ascii) : list N :=
  let n := code c in
  if n <? 128 then [n] else [N.lor 0xC0 (N.shiftr n 6); N.lor 0x80 (N.land n 0x3F)].
Definition hex_digit (n : N) : ascii := chr (if n <? 10 then 48 + n else 87 + n).
Definition hex (l : list N) : string :=
  of_chars (concat (map (λ b, [hex_digit (N.shiftr b 4); hex_digit (N.land b 15)]) l)).

(** [content_hash.py:19-21 hash_content] *)
Definition hash_content (content : string) : string :=
  hex (sha256 (concat (map utf8 (chars content)))).
Arguments hash_content : simpl never.

(** The FIPS 180-4 vectors: one block, two blocks, the empty message, and a
    non-ASCII text. *)
Example sha256_abc :
  hash_content "abc" = "ba7816bf8f01cfea414140de5dae2223b00361a396177a9cb410ff61f20015ad"%string.
Proof. vm_compute. reflexivity. Qed.
Example sha256_empty :
  hash_content "" = "e3b0c44298fc1c149afbf4c8996fb92427ae41e4649b934ca495991b7852b855"%string.
Proof. vm_compute. reflexivity. Qed.
Example sha256_two_blocks :
  hash_content "abcdbcdecdefdefgefghfghighijhijkijkljklmklmnlmnomnopnopq" =
  "248d6a61d20638b8e5c026930c3e6039a33ce45964ff2167f6ecedd419db06c1"%string.
Proof. vm_compute. reflexivity. Qed.
