(* ===== verification/Domain.v ===== *)
(** * Domain types

    The values of [core/domain]: errors, timestamps, memories, projects, model
    revisions and scored search hits. *)

From S2P Require Import Prelude PyStr.
Local Open Scope Z_scope.

(** ** Errors *)

(** [error_codes.py:14-38 error_codes] *)
Inductive error_code :=
| INVALID_ARGUMENT | INVALID_HOST
| NOT_FOUND | PROJECT_NOT_FOUND | MEMORY_NOT_FOUND | FILE_NOT_FOUND
| INTERNAL_ERROR | CONFIG_ERROR
| PROVIDER_ERROR | MODEL_REVISION_CHANGED | MISSING_PACKAGE | TIMEOUT | CONNECTION_ERROR
| CONTENT_TOO_LONG.
#[global] Instance error_code_eq_dec : EqDecision error_code.
Proof. solve_decision. Defined.

(** [exceptions.py:19-95 domain exceptions] The domain exceptions with the
    fields the code reads, and the built-in and [sqlite3] exceptions the core
    raises or catches.  A message is kept only where code inspects it. *)
Inductive exn :=
| NotFoundError (code : error_code)
| ValidationError (code : error_code)
| ConfigError (code : error_code)
| ProviderError (code : error_code)
| RevisionUnknownError
| RevisionChangedError
| ValueError
| TypeError
| KeyError
| IndexError
| AssertionError
| RuntimeError (msg : string)
| OverflowError
| UnicodeError
| FileNotFoundError
| OSError
| TimeoutError
| TimeoutExpired
| PermissionError
| AttributeError
| BackupValidationError
| BackupCatalogError
| IntegrityError (msg : string)
| OperationalError (msg : string)
| SqliteError (code : option Z) (name text : string)
| RestoreError (msg : string).
#[global] Instance exn_eq_dec : EqDecision exn.
Proof. solve_decision. Defined.

(** [isinstance(exc, ProviderError)]: the two revision errors are subclasses. *)
Definition is_provider_error (e : exn) : bool :=
  match e with ProviderError _ | RevisionUnknownError | RevisionChangedError => true | _ => false end.

(** [exc.error_code] of a [ProviderError]; the subclasses fix theirs. *)
Definition provider_error_code (e : exn) : option error_code :=
  match e with
  | ProviderError c => Some c
  | RevisionUnknownError => Some PROVIDER_ERROR
  | RevisionChangedError => Some MODEL_REVISION_CHANGED
  | _ => None
  end.

(** ** Timestamps

    A [datetime] is its wall clock in microseconds since 0001-01-01T00:00 and
    its UTC offset in microseconds, [None] for a naive value. *)
Record datetime := Datetime { wall : Z; utcoff : option Z }.
#[global] Instance datetime_eq_dec : EqDecision datetime.
Proof. solve_decision. Defined.

(** The first instant after [datetime.max]. *)
Definition datetime_end : Z := 3652059 * 86400000000.

Definition utc (t : Z) : datetime := Datetime t (Some 0).

(** The instant of an aware timestamp, by which such values compare. *)
Definition instant (d : datetime) : Z := wall d - default 0 (utcoff d).

(** [max(a, b)] of two aware timestamps. *)
Definition later (a b : datetime) : datetime := if instant a <? instant b then b else a.

(** [time_utils.py:15-22 require_utc] An aware value keeps its instant and
    moves to UTC; a naive one, or one whose UTC wall clock leaves the years
    1 to 9999, is refused. *)
Definition require_utc (value : datetime) : result exn datetime :=
  match utcoff value with
  | None => Raise (ValidationError INVALID_ARGUMENT)
  | Some off =>
      let t := wall value - off in
      if bool_decide (0 ≤ t < datetime_end) then Ok (utc t)
      else Raise (ValidationError INVALID_ARGUMENT)
  end.

(** [datetime.isoformat()] of a UTC value, as the column stores it: the text
    is a bijective, order-preserving encoding of the instant, so the column is
    modelled by the instant. *)
Definition iso_column (value : datetime) : result exn Z :=
  result_bind (require_utc value) (λ d, Ok (wall d)).

Lemma iso_column_ok d t :
  iso_column d = Ok t ↔ ∃ off, utcoff d = Some off ∧ t = wall d - off ∧ 0 ≤ t < datetime_end.
Proof.
  unfold iso_column, require_utc. destruct (utcoff d) as [off|]; simpl; [|naive_solver].
  case_bool_decide; simpl; naive_solver.
Qed.

Lemma iso_column_utc t : 0 ≤ t < datetime_end → iso_column (utc t) = Ok t.
Proof. intros H. apply iso_column_ok. exists 0. simpl. repeat split; lia. Qed.

(** ** JSON values *)
Inductive json :=
| JNull
| JBool (b : bool)
| JInt (z : Z)
| JFloat (s : string)
| JStr (s : string)
| JArr (l : list json)
| JObj (l : list (string * json)).

(** [obj.get(key)] of a decoded object *)
Fixpoint jget (key : string) (l : list (string * json)) : option json :=
  match l with
  | [] => None
  | (k, v) :: l' => if bool_decide (k = key) then Some v else jget key l'
  end.

(** ** Memories and projects *)

(** [memory_item.py:9-9 MAX_CONTENT_CHARS] *)
Definition MAX_CONTENT_CHARS : Z := 100000.

(** [memory_item.py:22-31 MemoryItem] *)
Record MemoryItem := mkMemoryItem {
  id : string;
  content : string;
  tags : list string;
  created_at : datetime;
  pinned : bool;
  project_id : option string;
  source : string;
  updated_at : option datetime;
}.
#[global] Instance MemoryItem_eq_dec : EqDecision MemoryItem.
Proof. solve_decision. Defined.

(** [models/project.py:11-16 Project] *)
Record Project := mkProject {
  project_key : string;
  name : string;
  metadata : list (string * json);
  project_created_at : datetime;
}.

(** [revision_snapshot.py:15-43 RevisionSnapshot] *)
Record RevisionSnapshot := mkSnapshot {
  known : bool;
  value : option string;
  verified_at : option Z;
}.

Definition UNKNOWN_REVISION : RevisionSnapshot := mkSnapshot false None None.

(** [revision_snapshot.py:35-40 RevisionSnapshot.state] *)
Definition snapshot_state (s : RevisionSnapshot) : string :=
  if negb (known s) then "unknown"
  else match value s with Some _ => "known" | None => "none" end.

(** [len(s)] of a string *)
Definition str_len (s : string) : Z := Z.of_nat (String.length s).
