(* ===== verification/DateTime.v ===== *)
(** * ISO-8601 timestamps

    [datetime.isoformat] and [datetime.fromisoformat] of the standard library:
    the proleptic Gregorian calendar, the text a timestamp is written as, the
    parser with the basic, extended and week forms it accepts, and the proof
    that the parser inverts the printer on UTC timestamps. *)

From S2P Require Import Prelude PyStr Domain.
Local Open Scope Z_scope.

(** ** The calendar *)

Definition is_leap (y : Z) : bool := (y mod 4 =? 0) && (negb (y mod 100 =? 0) || (y mod 400 =? 0)).
Definition days_before_year (y : Z) : Z := (y - 1) * 365 + (y - 1) / 4 - (y - 1) / 100 + (y - 1) / 400.
Definition month_days (leap : bool) (m : Z) : Z :=
  match m with
  | 2 => if leap then 29 else 28
  | 4 | 6 | 9 | 11 => 30
  | _ => 31
  end.
Definition month_start (leap : bool) (m : Z) : Z :=
  nth (Z.to_nat (m - 1)) [0; 31; 59; 90; 120; 151; 181; 212; 243; 273; 304; 334] 0
  + if (2 <? m) && leap then 1 else 0.
Definition days_in_month (y m : Z) : Z := month_days (is_leap y) m.
Definition days_before_month (y m : Z) : Z := month_start (is_leap y) m.
(** Days since 0001-01-01, which is day 0. *)
Definition day_number (y m d : Z) : Z := days_before_year y + days_before_month y m + d - 1.

Definition valid_date (y m d : Z) : bool :=
  (1 <=? y) && (y <=? 9999) && (1 <=? m) && (m <=? 12) && (1 <=? d) && (d <=? days_in_month y m).

(** The month and day of the [n]-th day of a year, from 0. *)
Definition month_day (leap : bool) (n : Z) : Z * Z :=
  let month := Z.shiftr (n + 50) 5 in
  let preceding := month_start leap month in
  if n <? preceding then (month - 1, n - month_start leap (month - 1) + 1) else (month, n - preceding + 1).

(** The date of a day number. *)
Definition date_of (n : Z) : Z * Z * Z :=
  let n400 := n / 146097 in
  let n := n mod 146097 in
  let n100 := n / 36524 in
  let n := n mod 36524 in
  let n4 := n / 1461 in
  let n := n mod 1461 in
  let n1 := n / 365 in
  let n := n mod 365 in
  let year := n400 * 400 + 1 + n100 * 100 + n4 * 4 + n1 in
  if (n1 =? 4) || (n100 =? 4) then (year - 1, 12, 31)
  else let (month, day) := month_day (is_leap year) n in (year, month, day).

(** ** Printing *)

Definition digit (n : Z) : ascii := chr (48 + Z.to_N (n mod 10)).
Definition two (n : Z) : list ascii := [digit (n / 10); digit n].
Definition four (n : Z) : list ascii := [digit (n / 1000); digit (n / 100); digit (n / 10); digit n].
Definition six (n : Z) : list ascii :=
  [digit (n / 100000); digit (n / 10000); digit (n / 1000); digit (n / 100); digit (n / 10); digit n].

Definition SECOND : Z := 1000000.
Definition MINUTE : Z := 60 * SECOND.
Definition HOUR : Z := 60 * MINUTE.
Definition DAY : Z := 24 * HOUR.

Definition iso_time (u : Z) : list ascii :=
  two (u / HOUR) ++ [":"%char] ++ two (u / MINUTE mod 60) ++ [":"%char] ++ two (u / SECOND mod 60)
  ++ if u mod SECOND =? 0 then [] else "."%char :: six (u mod SECOND).

Definition iso_offset (off : Z) : list ascii :=
  let a := Z.abs off in
  (if off <? 0 then "-"%char else "+"%char) :: two (a / HOUR) ++ [":"%char] ++ two (a / MINUTE mod 60)
  ++ (if a mod MINUTE =? 0 then []
      else ":"%char :: two (a / SECOND mod 60)
           ++ if a mod SECOND =? 0 then [] else "."%char :: six (a mod SECOND)).

(** [d.isoformat()] *)
Definition isoformat (d : datetime) : string :=
  let '(y, m, dd) := date_of (wall d / DAY) in
  of_chars (four y ++ ["-"%char] ++ two m ++ ["-"%char] ++ two dd ++ ["T"%char] ++ iso_time (wall d mod DAY)
    ++ match utcoff d with None => [] | Some off => iso_offset off end).

(** ** Parsing *)

Definition number (l : list ascii) : option Z :=
  if forallb is_digit l && negb (bool_decide (l = [])) then Some (digits_value l) else None.
Definition is_char (c : ascii) (o : option ascii) : bool := bool_decide (o = Some c).

(** [HH[:?MM[:?SS[{.,}f+]]]] *)
Definition parse_fraction (l : list ascii) : option Z :=
  match l with
  | [] => Some 0
  | c :: rem =>
      if negb (is_char "."%char (Some c) || is_char ","%char (Some c)) then None
      else
        let to_parse := Nat.min 6 (length rem) in
        us ← number (take to_parse rem);
        if forallb is_digit (drop to_parse rem) then Some (us * 10 ^ Z.of_nat (6 - to_parse)) else None
  end.

Definition parse_clock (l : list ascii) : option (Z * Z * Z * Z) :=
  if (length l <? 2)%nat then None else
  h ← number (take 2 l);
  match drop 2 l with
  | [] => Some (h, 0, 0, 0)
  | (c :: _) as r0 =>
      let sep := is_char ":"%char (Some c) in
      let r0 := if sep then tail r0 else r0 in
      if (length r0 <? 2)%nat then None else
      m ← number (take 2 r0);
      match drop 2 r0 with
      | [] => Some (h, m, 0, 0)
      | (c :: _) as r1 =>
          if sep && negb (is_char ":"%char (Some c)) then None else
          let r1 := if sep then tail r1 else r1 in
          if (length r1 <? 2)%nat then None else
          s ← number (take 2 r1);
          us ← parse_fraction (drop 2 r1);
          Some (h, m, s, us)
      end
  end.

Definition valid_clock (c : Z * Z * Z * Z) : bool :=
  let '(h, m, s, us) := c in (h <? 24) && (m <? 60) && (s <? 60).
Definition clock_micros (c : Z * Z * Z * Z) : Z :=
  let '(h, m, s, us) := c in h * HOUR + m * MINUTE + s * SECOND + us.

Definition is_zone_char (c : ascii) : bool := bool_decide (c ∈ ["+"; "-"; "Z"]%char).
Fixpoint split_zone (l : list ascii) : list ascii * list ascii :=
  match l with
  | [] => ([], [])
  | c :: l' => if is_zone_char c then ([], l) else let (a, b) := split_zone l' in (c :: a, b)
  end.

(** The microseconds of the day, whether midnight of the next day was written
    as 24:00, and the offset. *)
Definition parse_zone (l : list ascii) : option (option Z) :=
  match l with
  | [] => Some None
  | c :: z =>
      if is_char "Z"%char (Some c) then (if bool_decide (z = []) then Some (Some 0) else None)
      else
        off ← parse_clock z;
        if valid_clock off
        then Some (Some (if is_char "-"%char (Some c) then - clock_micros off else clock_micros off))
        else None
  end.

Definition parse_time (l : list ascii) : option (Z * bool * option Z) :=
  let (time, zone) := split_zone l in
  c ← parse_clock time;
  z ← parse_zone zone;
  if bool_decide (c = (24, 0, 0, 0)) then Some (0, true, z)
  else if valid_clock c then Some (clock_micros c, false, z) else None.

(** ISO week dates. *)
Definition week1_monday (y : Z) : Z :=
  let first := day_number y 1 1 in
  let weekday := first mod 7 in
  first - weekday + (if 3 <? weekday then 7 else 0).
Definition week_date (y w d : Z) : option Z :=
  let first := (day_number y 1 1 + 1) mod 7 in
  let long := (first =? 4) || (first =? 3) && is_leap y in
  if (1 <=? y) && (y <=? 9999) && (1 <=? w) && ((w <? 53) || (w =? 53) && long) && (1 <=? d) && (d <=? 7)
  then Some (week1_monday y + (w - 1) * 7 + (d - 1)) else None.

(** A date of 7, 8 or 10 characters, as a day number. *)
Definition parse_date (l : list ascii) : option Z :=
  y ← number (take 4 l);
  if (length (take 4 l) <? 4)%nat then None else
  let sep := is_char "-"%char (l !! 4%nat) in
  let r := drop (if sep then 5 else 4)%nat l in
  if is_char "W"%char (head r) then
    let r := tail r in
    w ← (if (length (take 2 r) <? 2)%nat then None else number (take 2 r));
    match drop 2 r with
    | [] => week_date y w 1
    | (c :: _) as r' =>
        if negb (eqb (is_char "-"%char (Some c)) sep) then None else
        d ← number (take 1 (if sep then tail r' else r'));
        week_date y w d
    end
  else
    m ← (if (length (take 2 r) <? 2)%nat then None else number (take 2 r));
    let r' := drop 2 r in
    if negb (eqb (is_char "-"%char (head r')) sep) then None else
    let r' := if sep then tail r' else r' in
    d ← (if (length (take 2 r') <? 2)%nat then None else number (take 2 r'));
    if valid_date y m d then Some (day_number y m d) else None.

Fixpoint digit_run (l : list ascii) : nat :=
  match l with c :: l' => if is_digit c then S (digit_run l') else O | [] => O end.

(** Where the date ends: one character separates it from the time. *)
Definition date_end (l : list ascii) : option nat :=
  let n := length l in
  let is_at := λ i c, is_char c (l !! i) in
  if (n =? 7)%nat then Some 7%nat
  else if is_at 4%nat "-"%char then
    if is_at 5%nat "W"%char then
      if (8 <? n)%nat && is_at 8%nat "-"%char then
        if (n =? 9)%nat then None
        else if (10 <? n)%nat && match l !! 10%nat with Some c => is_digit c | None => false end
        then Some 8%nat else Some 10%nat
      else Some 8%nat
    else Some 10%nat
  else if is_at 4%nat "W"%char then
    let idx := (7 + digit_run (drop 7 l))%nat in
    Some (if (idx <? 9)%nat then idx else if Nat.even idx then 7%nat else 8%nat)
  else Some 8%nat.

(** [datetime.fromisoformat(s)]; [None] is its [ValueError]. *)
Definition fromisoformat (s : string) : option datetime :=
  let l := chars s in
  if (length l <? 7)%nat then None else
  e ← date_end l;
  day ← parse_date (take e l);
  match drop (S e) l with
  | [] => Some (Datetime (day * DAY) None)
  | time =>
      '(u, next, off) ← parse_time time;
      let t := (if next : bool then day + 1 else day) * DAY + u in
      if t <? datetime_end then Some (Datetime t off) else None
  end.

Example parse_extended : fromisoformat "2024-02-29T12:30:45.5+01:00" =
  Some (Datetime (day_number 2024 2 29 * DAY + 45045500000) (Some 3600000000)).
Proof. vm_compute. reflexivity. Qed.
Example parse_basic_week : fromisoformat "2020W537T2400Z" = Some (Datetime (day_number 2021 1 4 * DAY) (Some 0)).
Proof. vm_compute. reflexivity. Qed.
Example print_max : isoformat (Datetime (datetime_end - 1) (Some (-19800000000))) =
  "9999-12-31T23:59:59.999999-05:30"%string.
Proof. vm_compute. reflexivity. Qed.

(** ** The calendar is consistent *)

Definition month_day_ok (leap : bool) (n : Z) : bool :=
  let (m, d) := month_day leap n in
  (1 <=? m) && (m <=? 12) && (1 <=? d) && (d <=? month_days leap m) && (month_start leap m + d - 1 =? n).

Lemma month_day_spec leap n : 0 ≤ n < 365 → month_day_ok leap n = true.
Proof.
  intros Hn. assert (forallb (month_day_ok leap) (map Z.of_nat (seq 0 365)) = true) as H
    by (destruct leap; vm_compute; reflexivity).
  rewrite forallb_forall in H. apply H, in_map_iff. exists (Z.to_nat n). split; [lia|]. apply in_seq. lia.
Qed.

(** A year of a 400-year cycle, by century, group of four and year in it. *)
Lemma year_start q a b c :
  0 ≤ a < 4 → 0 ≤ b < 25 → 0 ≤ c < 4 →
  days_before_year (q * 400 + 1 + a * 100 + b * 4 + c) = q * 146097 + a * 36524 + b * 1461 + c * 365.
Proof.
  intros Ha Hb Hc. unfold days_before_year. set (y := _ - 1). assert (y = q * 400 + a * 100 + b * 4 + c) by lia.
  rewrite <- (Z.div_unique y 4 (q * 100 + a * 25 + b) c) by lia.
  rewrite <- (Z.div_unique y 100 (q * 4 + a) (b * 4 + c)) by lia.
  rewrite <- (Z.div_unique y 400 q (a * 100 + b * 4 + c)) by lia. lia.
Qed.

Lemma leap_fourth q a b : 0 ≤ a < 4 → 0 ≤ b < 24 → is_leap (q * 400 + 1 + a * 100 + b * 4 + 3) = true.
Proof.
  intros Ha Hb. unfold is_leap. replace (q * 400 + 1 + a * 100 + b * 4 + 3) with ((b + 1) * 4 + (q * 4 + a) * 100) by lia.
  rewrite Z.mod_add, (Z.mod_small _ 100) by lia.
  replace ((b + 1) * 4 + (q * 4 + a) * 100) with ((b + 1 + (q * 4 + a) * 25) * 4) by lia.
  rewrite Z.mod_mul by lia. assert ((b + 1) * 4 ≠ 0) as Hne by lia. apply Z.eqb_neq in Hne. by rewrite Hne.
Qed.

(** Every day has a valid date, and its number is the day. *)
Lemma date_of_spec n :
  0 ≤ n < 3652059 →
  let '(y, m, d) := date_of n in valid_date y m d = true ∧ day_number y m d = n.
Proof.
  intros Hn. unfold date_of.
  pose proof (Z.div_mod n 146097 ltac:(lia)) as E0. pose proof (Z.mod_pos_bound n 146097 ltac:(lia)) as B0.
  set (q := n / 146097) in *. set (r := n mod 146097) in *. clearbody q r.
  pose proof (Z.div_mod r 36524 ltac:(lia)) as E1. pose proof (Z.mod_pos_bound r 36524 ltac:(lia)) as B1.
  set (a := r / 36524) in *. set (r1 := r mod 36524) in *. clearbody a r1.
  pose proof (Z.div_mod r1 1461 ltac:(lia)) as E2. pose proof (Z.mod_pos_bound r1 1461 ltac:(lia)) as B2.
  set (b := r1 / 1461) in *. set (r2 := r1 mod 1461) in *. clearbody b r2.
  pose proof (Z.div_mod r2 365 ltac:(lia)) as E3. pose proof (Z.mod_pos_bound r2 365 ltac:(lia)) as He.
  set (c := r2 / 365) in *. set (e := r2 mod 365) in *. clearbody c e.
  assert (0 ≤ q ≤ 24) as Hq by lia. assert (0 ≤ a ≤ 4) as Ha by lia.
  assert (0 ≤ b ≤ 24) as Hb by lia. assert (0 ≤ c ≤ 4) as Hc by lia.
  destruct (Z.eqb_spec c 4) as [->|Hc4]; [|destruct (Z.eqb_spec a 4) as [->|Ha4]]; simpl.
  - replace (q * 400 + 1 + a * 100 + b * 4 + 4 - 1) with (q * 400 + 1 + a * 100 + b * 4 + 3) by lia.
    unfold valid_date, day_number, days_in_month, days_before_month. rewrite year_start, leap_fourth by lia.
    change (month_start true 12) with 335. change (month_days true 12) with 31. lia.
  - replace (q * 400 + 1 + 4 * 100 + b * 4 + c - 1) with (q * 400 + 1 + 3 * 100 + 24 * 4 + 3) by lia.
    assert (is_leap (q * 400 + 1 + 3 * 100 + 24 * 4 + 3) = true) as Hl.
    { unfold is_leap. replace (q * 400 + 1 + 3 * 100 + 24 * 4 + 3) with ((q + 1) * 400) by lia.
      rewrite Z.mod_mul by lia. replace ((q + 1) * 400) with ((q + 1) * 100 * 4) by lia.
      rewrite Z.mod_mul by lia. by rewrite orb_true_r. }
    unfold valid_date, day_number, days_in_month, days_before_month. rewrite year_start, Hl by lia.
    change (month_start true 12) with 335. change (month_days true 12) with 31. lia.
  - pose proof (month_day_spec (is_leap (q * 400 + 1 + a * 100 + b * 4 + c)) e He) as Hmd.
    unfold month_day_ok in Hmd. destruct (month_day _ e) as [m d].
    unfold valid_date, day_number, days_in_month, days_before_month. rewrite year_start by lia. lia.
Qed.

(** ** The parser inverts the printer *)

#[local] Arguments digit : simpl never.
#[local] Arguments is_char : simpl never.

Lemma digit_code n : Z.of_N (code (digit n)) = 48 + n mod 10.
Proof.
  pose proof (Z.mod_pos_bound n 10 ltac:(lia)). unfold digit, code, chr.
  rewrite N_ascii_embedding by lia. lia.
Qed.

Lemma digit_is_digit n : is_digit (digit n) = true.
Proof.
  pose proof (digit_code n). pose proof (Z.mod_pos_bound n 10 ltac:(lia)).
  unfold is_digit. rewrite andb_true_iff, !N.leb_le. lia.
Qed.

Lemma digit_not c n : is_digit c = false → is_char c (Some (digit n)) = false.
Proof.
  intros Hc. unfold is_char. apply bool_decide_eq_false. intros [= <-]. by rewrite digit_is_digit in Hc.
Qed.

Lemma digit_no_zone n : is_zone_char (digit n) = false.
Proof.
  unfold is_zone_char. apply bool_decide_eq_false. rewrite !elem_of_cons.
  intros [H|[H|[H|H%elem_of_nil]]]; [..|done]; pose proof (digit_is_digit n) as Hd; by rewrite H in Hd.
Qed.

Lemma digit_value n : Z.of_N (code (digit n) - 48) = n mod 10.
Proof. pose proof (digit_code n). pose proof (Z.mod_pos_bound n 10 ltac:(lia)). lia. Qed.

Lemma number_digits (l : list Z) :
  l ≠ [] → number (map digit l) = Some (foldl (λ acc n, acc * 10 + n mod 10) 0 l).
Proof.
  intros Hl. unfold number. rewrite bool_decide_eq_false_2 by (by destruct l).
  assert (forallb is_digit (map digit l) = true) as ->.
  { clear. induction l as [|n l IH]; simpl; [done|]. by rewrite digit_is_digit. }
  simpl. f_equal. unfold digits_value. generalize 0. clear. induction l as [|n l IH]; intros a; simpl; [done|].
  by rewrite digit_value, IH.
Qed.

Lemma number_two n : 0 ≤ n < 100 → number (two n) = Some n.
Proof.
  intros Hn. change (two n) with (map digit [n / 10; n]). rewrite number_digits by done. simpl. f_equal.
  rewrite (Z.mod_small (n / 10)) by (split; [apply Z.div_pos; lia|apply Z.div_lt_upper_bound; lia]).
  pose proof (Z.div_mod n 10). lia.
Qed.

Lemma split_digit n : n = n / 10 * 10 + n mod 10.
Proof. pose proof (Z.div_mod n 10). lia. Qed.

Lemma number_four n : 0 ≤ n < 10000 → number (four n) = Some n.
Proof.
  intros Hn. change (four n) with (map digit [n / 1000; n / 100; n / 10; n]).
  rewrite number_digits by done. simpl. f_equal.
  rewrite (Z.mod_small (n / 1000)) by (split; [apply Z.div_pos; lia|apply Z.div_lt_upper_bound; lia]).
  replace 1000 with (10 * 10 * 10) by lia. replace 100 with (10 * 10) by lia. rewrite <- !Z.div_div by lia.
  pose proof (split_digit n). pose proof (split_digit (n / 10)). pose proof (split_digit (n / 10 / 10)). lia.
Qed.

Lemma number_six n : 0 ≤ n < 1000000 → number (six n) = Some n.
Proof.
  intros Hn. change (six n) with (map digit [n / 100000; n / 10000; n / 1000; n / 100; n / 10; n]).
  rewrite number_digits by done. simpl. f_equal.
  rewrite (Z.mod_small (n / 100000)) by (split; [apply Z.div_pos; lia|apply Z.div_lt_upper_bound; lia]).
  replace 100000 with (10 * 10 * 10 * 10 * 10) by lia. replace 10000 with (10 * 10 * 10 * 10) by lia.
  replace 1000 with (10 * 10 * 10) by lia. replace 100 with (10 * 10) by lia. rewrite <- !Z.div_div by lia.
  pose proof (split_digit n). pose proof (split_digit (n / 10)). pose proof (split_digit (n / 10 / 10)).
  pose proof (split_digit (n / 10 / 10 / 10)). pose proof (split_digit (n / 10 / 10 / 10 / 10)). lia.
Qed.

Lemma split_zone_app a c z :
  forallb (λ x, negb (is_zone_char x)) a = true → is_zone_char c = true →
  split_zone (a ++ c :: z) = (a, c :: z).
Proof.
  intros Ha Hc. induction a as [|x a IH]; simpl in *; [by rewrite Hc|].
  apply andb_true_iff in Ha as [Hx Ha]. apply negb_true_iff in Hx. rewrite Hx. by rewrite IH.
Qed.

Lemma iso_time_no_zone u : forallb (λ x, negb (is_zone_char x)) (iso_time u) = true.
Proof.
  unfold iso_time, two, six. destruct (u mod SECOND =? 0); simpl; by rewrite !digit_no_zone.
Qed.

Lemma parse_fraction_six u : 0 < u < SECOND → parse_fraction ("."%char :: six u) = Some u.
Proof.
  intros Hu. unfold parse_fraction. simpl orb. cbn [negb].
  change (Nat.min 6 (length (six u))) with 6%nat. change (take 6 (six u)) with (six u).
  change (drop 6 (six u)) with (@nil ascii). rewrite number_six by (unfold SECOND in *; lia).
  simpl. f_equal. lia.
Qed.

Lemma is_char_same c : is_char c (Some c) = true.
Proof. unfold is_char. by rewrite bool_decide_eq_true_2. Qed.

Lemma parse_clock_parts h m s f :
  0 ≤ h < 100 → 0 ≤ m < 100 → 0 ≤ s < 100 →
  parse_clock (two h ++ [":"%char] ++ two m ++ [":"%char] ++ two s ++ f) =
  us ← parse_fraction f; Some (h, m, s, us).
Proof.
  intros Hh Hm Hs. unfold parse_clock. cbn [two app length Nat.ltb Nat.leb firstn skipn].
  change [digit (h / 10); digit h] with (two h). rewrite number_two, !is_char_same by done.
  cbn [mbind option_bind tl length Nat.ltb Nat.leb firstn skipn].
  change [digit (m / 10); digit m] with (two m). rewrite number_two by done.
  cbn [mbind option_bind]. rewrite is_char_same. cbn [negb andb tl length Nat.ltb Nat.leb firstn skipn].
  rewrite take_0, drop_0. change [digit (s / 10); digit s] with (two s). by rewrite number_two.
Qed.

Lemma parse_iso_time u :
  0 ≤ u < DAY → parse_clock (iso_time u) = Some (u / HOUR, u / MINUTE mod 60, u / SECOND mod 60, u mod SECOND).
Proof.
  intros Hu. unfold iso_time. rewrite parse_clock_parts.
  - destruct (Z.eqb_spec (u mod SECOND) 0) as [->|Hne]; [done|].
    rewrite parse_fraction_six; [done|]. pose proof (Z.mod_pos_bound u SECOND eq_refl). lia.
  - split; [apply Z.div_pos; unfold HOUR, MINUTE, SECOND in *; lia|apply Z.div_lt_upper_bound; unfold DAY, HOUR in *; lia].
  - pose proof (Z.mod_pos_bound (u / MINUTE) 60 eq_refl). lia.
  - pose proof (Z.mod_pos_bound (u / SECOND) 60 eq_refl). lia.
Qed.

Lemma clock_of_micros u :
  u / HOUR * HOUR + u / MINUTE mod 60 * MINUTE + u / SECOND mod 60 * SECOND + u mod SECOND = u.
Proof.
  unfold HOUR, MINUTE. replace (60 * (60 * SECOND)) with (SECOND * 60 * 60) by lia.
  replace (60 * SECOND) with (SECOND * 60) by lia. rewrite <- !Z.div_div by (unfold SECOND; lia).
  pose proof (Z.div_mod u SECOND). pose proof (Z.div_mod (u / SECOND) 60).
  pose proof (Z.div_mod (u / SECOND / 60) 60). unfold SECOND in *. lia.
Qed.

Lemma parse_time_iso u :
  0 ≤ u < DAY → parse_time (iso_time u ++ iso_offset 0) = Some (u, false, Some 0).
Proof.
  intros Hu. unfold parse_time. change (iso_offset 0) with (chars "+00:00").
  cbn [list_ascii_of_string]. rewrite split_zone_app by (first [apply iso_time_no_zone|done]).
  rewrite parse_iso_time by done. cbn [mbind option_bind].
  change (parse_zone _) with (Some (Some 0)). cbn [mbind option_bind].
  assert (u / HOUR < 24) as Hh by (apply Z.div_lt_upper_bound; unfold DAY, HOUR, MINUTE, SECOND in *; lia).
  rewrite bool_decide_eq_false_2 by (intros [= H _ _ _]; lia).
  assert (valid_clock (u / HOUR, u / MINUTE mod 60, u / SECOND mod 60, u mod SECOND) = true) as ->.
  { simpl. rewrite !andb_true_iff, !Z.ltb_lt. pose proof (Z.mod_pos_bound (u / MINUTE) 60 eq_refl).
    pose proof (Z.mod_pos_bound (u / SECOND) 60 eq_refl). lia. }
  simpl. by rewrite clock_of_micros.
Qed.

Lemma parse_date_iso y m d :
  valid_date y m d = true →
  parse_date (four y ++ ["-"%char] ++ two m ++ ["-"%char] ++ two d) = Some (day_number y m d).
Proof.
  intros Hv. pose proof Hv as Hb. unfold valid_date in Hb. rewrite !andb_true_iff, !Z.leb_le in Hb.
  assert (days_in_month y m ≤ 31) as Hd by (unfold days_in_month, month_days; repeat case_match; lia).
  unfold parse_date. cbn [four two app length Nat.ltb Nat.leb firstn skipn tl hd_error lookup list_lookup].
  change [digit (y / 1000); digit (y / 100); digit (y / 10); digit y] with (four y).
  change [digit (m / 10); digit m] with (two m). change [digit (d / 10); digit d] with (two d).
  rewrite number_four by lia. cbn [mbind option_bind].
  rewrite is_char_same. cbn [firstn skipn hd_error]. rewrite digit_not by done.
  change [digit (m / 10); digit m] with (two m). rewrite number_two by lia.
  cbn [mbind option_bind skipn hd_error tl eqb negb length Nat.ltb Nat.leb firstn]. rewrite is_char_same. cbn [eqb negb tl firstn length Nat.ltb Nat.leb].
  change (take 2 (two d)) with (two d). rewrite number_two by lia.
  change (length (two m) <=? 1)%nat with false. change (length (two d) <=? 1)%nat with false. cbn [mbind option_bind].
  by rewrite Hv.
Qed.

(** What [isoformat] writes for a UTC timestamp, [fromisoformat] reads back. *)
Lemma fromisoformat_isoformat t :
  0 ≤ t < datetime_end → fromisoformat (isoformat (utc t)) = Some (utc t).
Proof.
  intros Ht. unfold isoformat, utc. cbn [wall utcoff].
  assert (0 ≤ t / DAY < 3652059) as Hday.
  { split; [apply Z.div_pos; unfold DAY, HOUR, MINUTE, SECOND; lia|].
    apply Z.div_lt_upper_bound; unfold datetime_end, DAY, HOUR, MINUTE, SECOND in *; lia. }
  pose proof (date_of_spec _ Hday) as Hspec. destruct (date_of (t / DAY)) as [[y m] d]. destruct Hspec as [Hv Hn].
  pose proof (Z.mod_pos_bound t DAY eq_refl) as Hu.
  unfold fromisoformat. rewrite chars_of_chars. set (tm := iso_time _ ++ iso_offset 0).
  set (date := four y ++ ["-"%char] ++ two m ++ ["-"%char] ++ two d).
  replace (four y ++ ["-"%char] ++ two m ++ ["-"%char] ++ two d ++ ["T"%char] ++ tm) with (date ++ "T"%char :: tm)
    by (unfold date; by rewrite <- !app_assoc).
  assert (date_end (date ++ "T"%char :: tm) = Some 10%nat) as ->.
  { unfold date_end. rewrite length_app. change (length date) with 10%nat. simpl.
    by rewrite digit_not. }
  rewrite length_app. change (length date) with 10%nat. cbn [mbind option_bind Nat.add Nat.ltb Nat.leb].
  rewrite take_app_length' by done. pose proof (parse_date_iso y m d Hv) as Hp.
  fold date in Hp. rewrite Hp. cbn [mbind option_bind].
  change (drop 11 (date ++ "T"%char :: tm)) with tm.
  assert (∃ c tl, tm = c :: tl) as (c&tl&Htm) by (unfold tm, iso_time, two; simpl; eauto). rewrite Htm, <- Htm.
  unfold tm. rewrite parse_time_iso by done. cbn [mbind option_bind]. rewrite Hn.
  pose proof (Z.div_mod t DAY ltac:(done)). replace (t / DAY * DAY + t mod DAY) with t by lia.
  destruct (Z.ltb_spec t datetime_end); [done|lia].
Qed.
