(* ===== verification/PyNum.v ===== *)
(** * Numbers from text and from decoded JSON

    [int(x)] on the values a JSON document or an environment variable holds,
    [bool(v)], and [timedelta(seconds=n)] with its range. *)

From S2P Require Import Prelude PyStr PyText Domain.
From Stdlib Require Export SpecFloat.
Local Open Scope Z_scope.
Local Open Scope prog_scope.

(** ** [int(text)] *)

(** The digits of a run that may hold single underscores between digits;
    [prev] is false right after a digit. *)
Fixpoint digit_group (prev : bool) (l : list ascii) : option (list ascii) :=
  match l with
  | [] => if prev then None else Some []
  | c :: l' =>
      if is_digit c then cons c <$> digit_group false l'
      else if bool_decide (c = "_"%char) then (if prev then None else digit_group true l')
      else None
  end.

(** [sys.get_int_max_str_digits()] *)
Definition INT_MAX_STR_DIGITS : nat := 4300.

Definition split_sign (l : list ascii) : bool * list ascii :=
  match l with
  | c :: l' =>
      if bool_decide (c = "-"%char) then (true, l')
      else if bool_decide (c = "+"%char) then (false, l') else (false, l)
  | [] => (false, [])
  end.
Definition signed (negative : bool) (n : Z) : Z := if negative then - n else n.

(** [None] is its [ValueError]. *)
Definition py_int (s : string) : option Z :=
  let (negative, l) := split_sign (strip_chars py_is_space (chars s)) in
  ds ← digit_group true l;
  if (INT_MAX_STR_DIGITS <? length ds)%nat then None else Some (signed negative (digits_value ds)).

(** ** [int(number)] *)

(** The nearest integer with a 53-bit significand, ties to even. *)
Definition round53 (t : Z) : Z :=
  let k := Z.log2 t - 52 in
  if k <=? 0 then t
  else
    let q := t / 2 ^ k in
    let r := t mod 2 ^ k in
    let half := 2 ^ (k - 1) in
    (if (half <? r) || (r =? half) && Z.odd q then q + 1 else q) * 2 ^ k.

Definition is_exp (c : ascii) : bool := bool_decide (c = "e"%char).
(** [int(x)] of a float held as its [repr].  Below 2^53 the shortest repr has
    the integer part of the float; from there on the float is the integer
    nearest to it with 53 significant bits. *)
Definition int_of_float (repr : string) : result exn Z :=
  if bool_decide (repr ∈ ["inf"; "-inf"]%string) then Raise OverflowError
  else
    let (negative, l) := split_sign (chars repr) in
    let (ip, l) := span_chars is_digit l in
    let (fp, l) := match l with
      | c :: l' => if bool_decide (c = "."%char) then span_chars is_digit l' else ([], l)
      | [] => ([], l) end in
    let e := match l with
      | c :: l' => if is_exp c then (let (neg, ds) := split_sign l' in signed neg (digits_value ds)) else 0
      | [] => 0 end in
    if bool_decide (ip = []) then Raise ValueError
    else
      let d := digits_value (ip ++ fp) in
      let x := e - Z.of_nat (length fp) in
      let t := if 0 <=? x then d * 10 ^ x else d / 10 ^ (- x) in
      Ok (signed negative (if t <? 2 ^ 53 then t else round53 t)).

(** [int(v)] of a decoded JSON value. *)
Definition int_of_json (v : json) : result exn Z :=
  match v with
  | JBool b => Ok (if b then 1 else 0)
  | JInt z => Ok z
  | JFloat s => int_of_float s
  | JStr s => match py_int s with Some z => Ok z | None => Raise ValueError end
  | _ => Raise TypeError
  end.

(** [bool(v)]; a decoded float is held as its [repr]. *)
Definition truthy (v : json) : bool :=
  match v with
  | JNull => false
  | JBool b => b
  | JInt z => negb (z =? 0)
  | JFloat s => negb (bool_decide (s = "0.0"%string) || bool_decide (s = "-0.0"%string))
  | JStr s => negb (bool_decide (s = ""%string))
  | JArr l => match l with [] => false | _ => true end
  | JObj l => match l with [] => false | _ => true end
  end.

Example py_int_forms : map py_int [" +1_000 "; "-42"; "1__0"; "_1"; "1_"; ""; "- 1"; "1.0"]%string =
  [Some 1000; Some (-42); None; None; None; None; None; None].
Proof. vm_compute. reflexivity. Qed.
Example int_of_float_forms : map int_of_float ["12.9"; "-0.5"; "1e+23"; "2.5e-05"; "inf"; "nan"]%string =
  [Ok 12; Ok 0; Ok 99999999999999991611392; Ok 0; Raise OverflowError; Raise ValueError].
Proof. vm_compute. reflexivity. Qed.

(** ** [timedelta] *)

(** [timedelta(seconds=n)] in microseconds: at most 999999999 days. *)
Definition MAX_DELTA_DAYS : Z := 999999999.
Definition timedelta_seconds (n : Z) : result exn Z :=
  if MAX_DELTA_DAYS <? Z.abs (n / 86400) then Raise OverflowError else Ok (n * 1000000).

Lemma timedelta_seconds_ok n : 0 ≤ n → n / 86400 ≤ MAX_DELTA_DAYS → timedelta_seconds n = Ok (n * 1000000).
Proof.
  intros Hn Hd. unfold timedelta_seconds. rewrite Z.abs_eq by (apply Z.div_pos; lia).
  by rewrite (proj2 (Z.ltb_ge _ _)).
Qed.

(** ** Floats *)

Definition f64_of_Z (z : Z) : spec_float := binary_normalize 53 1024 z 0 false.
Definition fadd (x y : spec_float) : spec_float := SFadd 53 1024 x y.
Definition fdiv (x y : spec_float) : spec_float := SFdiv 53 1024 x y.
(** [a / b] of two integers, correctly rounded, for a positive [b]. *)
Definition fratio (a b : Z) : spec_float :=
  match a, b with
  | Zpos p, Zpos q => fdiv (S754_finite false p 0) (S754_finite false q 0)
  | Zneg p, Zpos q => fdiv (S754_finite true p 0) (S754_finite false q 0)
  | _, _ => S754_zero false
  end.
