(* ===== verification/Sql.v ===== *)
(** * The database

    The tables of [migrations/*.sql] as one connection sees them, the
    statements the store issues, and the transaction commands of SQLite.  A
    statement that fails changes nothing; outside a transaction each statement
    commits at once. *)

From S2P Require Import Prelude PyStr Domain.
From Stdlib Require Export SpecFloat.
Local Open Scope Z_scope.

(** ** Tables *)

Record project_row := ProjectRow {
  p_name : string;
  p_metadata : list (string * json);
  p_created_at : Z;
}.

Record memory_row := MemoryRow {
  r_content : string;
  r_tags : list string;
  r_created_at : Z;
  r_pinned : bool;
  r_project_id : option string;
  r_source : string;
  r_updated_at : option Z;
}.

(** The vector is the float32 blob; [generated_at] is the only timestamp. *)
Record embedding_row := EmbeddingRow {
  e_embedding : list spec_float;
  e_model : string;
  e_dimensions : Z;
  e_generated_at : Z;
  e_provider : string;
  e_content_hash : string;
  e_model_revision : option string;
  e_settings_fingerprint : string;
  e_status : string;
}.

(** The indexed text of a row: its content and its tags. *)
Definition fts_doc : Type := string * list string.
Definition doc_of (r : memory_row) : fts_doc := (r_content r, r_tags r).

(** [fts] is [None] until the FTS5 table and its triggers exist.  The index is
    keyed by the row it belongs to (the table's implicit rowid). *)
Record db := Db {
  projects : gmap string project_row;
  memories : gmap string memory_row;
  embeddings : gmap string embedding_row;
  fts : option (gmap string fts_doc);
}.

Definition empty_db : db := Db ∅ ∅ ∅ None.

Definition set_projects (x : gmap string project_row) (d : db) : db :=
  Db x (memories d) (embeddings d) (fts d).
Definition set_memories (x : gmap string memory_row) (d : db) : db :=
  Db (projects d) x (embeddings d) (fts d).
Definition set_embeddings (x : gmap string embedding_row) (d : db) : db :=
  Db (projects d) (memories d) x (fts d).
Definition set_fts (x : option (gmap string fts_doc)) (d : db) : db :=
  Db (projects d) (memories d) (embeddings d) x.

(** ** FTS5 triggers *)

(** [sqlite_store.py:141-143 memory_fts_ai] *)
Definition fts_ai (k : string) (new : memory_row) (ix : gmap string fts_doc) : gmap string fts_doc :=
  <[k := doc_of new]> ix.
(** [sqlite_store.py:144-147 memory_fts_ad] *)
Definition fts_ad (k : string) (ix : gmap string fts_doc) : gmap string fts_doc := delete k ix.
(** [sqlite_store.py:148-152 memory_fts_au] *)
Definition fts_au (k : string) (new : memory_row) (ix : gmap string fts_doc) : gmap string fts_doc :=
  <[k := doc_of new]> (delete k ix).

(** ** Statements *)

Definition unique_failed (c : string) : exn := IntegrityError ("UNIQUE constraint failed: " +:+ c).
Definition fk_failed : exn := IntegrityError "FOREIGN KEY constraint failed".

Definition insert_project (k : string) (r : project_row) (d : db) : result exn db :=
  match projects d !! k with
  | Some _ => Raise (unique_failed "projects.id")
  | None => Ok (set_projects (<[k := r]> (projects d)) d)
  end.

Definition fk_project_ok (p : option string) (d : db) : bool :=
  match p with
  | None => true
  | Some p => bool_decide (is_Some (projects d !! p))
  end.

Definition insert_memory (k : string) (r : memory_row) (d : db) : result exn db :=
  match memories d !! k with
  | Some _ => Raise (unique_failed "memory_items.id")
  | None =>
      if fk_project_ok (r_project_id r) d
      then Ok (set_memories (<[k := r]> (memories d)) (set_fts (fts_ai k r <$> fts d) d))
      else Raise fk_failed
  end.

(** [UPDATE memory_items SET ... WHERE id = ?]; the result is the row count. *)
Definition update_memory_row (k : string) (f : memory_row → memory_row) (d : db) : db * nat :=
  match memories d !! k with
  | None => (d, 0%nat)
  | Some r => (set_memories (<[k := f r]> (memories d)) (set_fts (fts_au k (f r) <$> fts d) d), 1%nat)
  end.

Definition update_project_row (k : string) (f : project_row → project_row) (d : db) : db * nat :=
  match projects d !! k with
  | None => (d, 0%nat)
  | Some r => (set_projects (<[k := f r]> (projects d)) d, 1%nat)
  end.

Definition fts_delete_rows (gone : gmap string memory_row) (ix : gmap string fts_doc) : gmap string fts_doc :=
  map_fold (λ k _ ix, fts_ad k ix) ix gone.

(** [DELETE FROM memory_items WHERE ...]: the delete trigger runs for every
    deleted row and its embedding goes with it ([ON DELETE CASCADE]). *)
Definition delete_memories (p : string → memory_row → bool) (d : db) : db * nat :=
  let gone := filter (λ kr, p kr.1 kr.2 = true) (memories d) in
  (Db (projects d)
      (filter (λ kr, p kr.1 kr.2 = false) (memories d))
      (filter (λ kr, gone !! kr.1 = None) (embeddings d))
      (fts_delete_rows gone <$> fts d),
   size gone).

(** [DELETE FROM projects WHERE id = ?]: refused while a memory refers to it. *)
Definition delete_project_row (k : string) (d : db) : result exn db :=
  if bool_decide (map_Forall (λ _ r, r_project_id r ≠ Some k) (memories d))
  then Ok (set_projects (delete k (projects d)) d)
  else Raise fk_failed.

(** The upsert of [save_embedding]. *)
Definition upsert_embedding (k : string) (r : embedding_row) (d : db) : result exn db :=
  match memories d !! k with
  | None => Raise fk_failed
  | Some _ => Ok (set_embeddings (<[k := r]> (embeddings d)) d)
  end.

Definition delete_embedding_row (k : string) (d : db) : db :=
  set_embeddings (delete k (embeddings d)) d.

(** Creating the FTS5 table and triggers: [IF NOT EXISTS], and the new index
    starts empty whatever the content table holds. *)
Definition create_fts (d : db) : db :=
  match fts d with Some _ => d | None => set_fts (Some ∅) d end.
(** [SELECT COUNT( * ) FROM memory_fts] scans the external content table. *)
Definition count_fts (d : db) : nat := size (memories d).
(** [INSERT INTO memory_fts(memory_fts) VALUES('rebuild')] *)
Definition rebuild_fts (d : db) : db :=
  set_fts ((λ _, doc_of <$> memories d) <$> fts d) d.

(** ** Predicates of a query *)

(** [LIKE] with an escape character, case-insensitive for ASCII letters. *)
Definition like_fold (c : ascii) : ascii :=
  if is_upper_ascii c then chr (code c + 32) else c.

Fixpoint like_match (esc : ascii) (pat s : list ascii) {struct pat} : bool :=
  match pat with
  | [] => match s with [] => true | _ => false end
  | c :: pat' =>
      if bool_decide (c = esc) then
        match pat', s with
        | c' :: pat'', d :: s' => bool_decide (like_fold c' = like_fold d) && like_match esc pat'' s'
        | _, _ => false
        end
      else if bool_decide (c = "%"%char) then
        (fix any (s : list ascii) : bool :=
           like_match esc pat' s || match s with [] => false | _ :: s' => any s' end) s
      else
        match s with
        | d :: s' =>
            (bool_decide (c = "_"%char) || bool_decide (like_fold c = like_fold d)) && like_match esc pat' s'
        | [] => false
        end
  end.

(** ** Rows in order *)

(** Newest first, ties broken by descending id. *)
Definition newest_leb (x y : string * memory_row) : bool :=
  (r_created_at y.2 <? r_created_at x.2)
  || (r_created_at y.2 =? r_created_at x.2) && str_leb y.1 x.1.

(** Pinned rows before unpinned ones, each group newest first. *)
Definition pinned_first_leb (x y : string * memory_row) : bool :=
  (r_pinned x.2 && negb (r_pinned y.2)) || eqb (r_pinned x.2) (r_pinned y.2) && newest_leb x y.

Definition select_memories (p : string → memory_row → bool) (leb : string * memory_row → string * memory_row → bool)
    (d : db) : list (string * memory_row) :=
  sort_by leb (filter (λ kr, p kr.1 kr.2 = true) (map_to_list (memories d))).

(** ** The connection

    [committed] is what other connections see.  [txn] is the open transaction:
    its working copy and its savepoints, innermost first.  The outcome of each
    [BEGIN IMMEDIATE] and [COMMIT] is the environment's: the scripts list the
    error messages to come ([None] is success; an exhausted script succeeds). *)
Record conn := Conn {
  committed : db;
  txn : option (db * list (string * db));
  begin_script : list (option string);
  commit_script : list (option string);
}.

Definition current (c : conn) : db :=
  match txn c with Some (w, _) => w | None => committed c end.
Definition set_current (d : db) (c : conn) : conn :=
  match txn c with
  | Some (_, sp) => Conn (committed c) (Some (d, sp)) (begin_script c) (commit_script c)
  | None => Conn d None (begin_script c) (commit_script c)
  end.
Definition set_txn (t : option (db * list (string * db))) (c : conn) : conn :=
  Conn (committed c) t (begin_script c) (commit_script c).

Definition begin_immediate (c : conn) : conn * result exn unit :=
  match txn c with
  | Some _ => (c, Raise (OperationalError "cannot start a transaction within a transaction"))
  | None =>
      let c' := Conn (committed c) None (tail (begin_script c)) (commit_script c) in
      match head (begin_script c) with
      | Some (Some msg) => (c', Raise (OperationalError msg))
      | _ => (set_txn (Some (committed c, [])) c', Ok tt)
      end
  end.

Definition commit_txn (c : conn) : conn * result exn unit :=
  match txn c with
  | None => (c, Raise (OperationalError "cannot commit - no transaction is active"))
  | Some (w, sp) =>
      let c' := Conn (committed c) (txn c) (begin_script c) (tail (commit_script c)) in
      match head (commit_script c) with
      | Some (Some msg) => (c', Raise (OperationalError msg))
      | _ => (Conn w None (begin_script c) (tail (commit_script c)), Ok tt)
      end
  end.

Definition rollback_txn (c : conn) : conn * result exn unit :=
  match txn c with
  | None => (c, Raise (OperationalError "cannot rollback - no transaction is active"))
  | Some _ => (set_txn None c, Ok tt)
  end.

Definition no_savepoint (n : string) : exn := OperationalError ("no such savepoint: " +:+ n).

(** [SAVEPOINT] inside a transaction; the program never issues one outside. *)
Definition savepoint (n : string) (c : conn) : conn * result exn unit :=
  match txn c with
  | None => (c, Raise (no_savepoint n))
  | Some (w, sp) => (set_txn (Some (w, (n, w) :: sp)) c, Ok tt)
  end.

(** The savepoints from the most recent one named [n] outwards. *)
Fixpoint find_savepoint (n : string) (sp : list (string * db)) : option (db * list (string * db)) :=
  match sp with
  | [] => None
  | (m, d) :: sp' => if bool_decide (m = n) then Some (d, sp') else find_savepoint n sp'
  end.

Definition release_savepoint (n : string) (c : conn) : conn * result exn unit :=
  match txn c with
  | Some (w, sp) =>
      match find_savepoint n sp with
      | Some (_, sp') => (set_txn (Some (w, sp')) c, Ok tt)
      | None => (c, Raise (no_savepoint n))
      end
  | None => (c, Raise (no_savepoint n))
  end.

Definition rollback_to_savepoint (n : string) (c : conn) : conn * result exn unit :=
  match txn c with
  | Some (w, sp) =>
      match find_savepoint n sp with
      | Some (d, sp') => (set_txn (Some (d, (n, d) :: sp')) c, Ok tt)
      | None => (c, Raise (no_savepoint n))
      end
  | None => (c, Raise (no_savepoint n))
  end.

(** ** Well-formed databases

    The constraints SQLite enforces, what the store's writes guarantee on top
    of them, and an index that holds exactly the current text of every row. *)
Record wf (d : db) : Prop := {
  wf_project : map_Forall (λ _ r, fk_project_ok (r_project_id r) d = true) (memories d);
  wf_memory : ∀ k, is_Some (embeddings d !! k) → is_Some (memories d !! k);
  wf_dimensions : map_Forall (λ _ e, e_dimensions e = Z.of_nat (length (e_embedding e))) (embeddings d);
  wf_time : map_Forall (λ _ r, 0 ≤ r_created_at r < datetime_end) (memories d);
  wf_index : match fts d with Some ix => ix = doc_of <$> memories d | None => True end;
}.

Lemma wf_empty : wf empty_db.
Proof. split; try done. by intros k [? ?]. Qed.

Lemma fts_delete_rows_lookup gone ix k :
  fts_delete_rows gone ix !! k = match gone !! k with Some _ => None | None => ix !! k end.
Proof.
  unfold fts_delete_rows.
  apply (map_fold_weak_ind (λ acc m, acc !! k = match m !! k with Some _ => None | None => ix !! k end)).
  - by rewrite lookup_empty.
  - intros i x m acc Hi IH. unfold fts_ad. destruct (decide (i = k)) as [->|Hne].
    + by rewrite lookup_delete_eq, lookup_insert_eq.
    + by rewrite lookup_delete_ne, lookup_insert_ne.
Qed.

Lemma delete_memories_lookup p d k :
  memories (delete_memories p d).1 !! k =
  match memories d !! k with Some r => if p k r then None else Some r | None => None end.
Proof.
  simpl. destruct (memories d !! k) as [r|] eqn:Hk.
  - destruct (p k r) eqn:Hp.
    + apply map_lookup_filter_None. right. intros r' ?. simpl. congruence.
    + by apply map_lookup_filter_Some.
  - apply map_lookup_filter_None. by left.
Qed.

Lemma delete_memories_gone p (m : gmap string memory_row) k :
  filter (λ kr, p kr.1 kr.2 = true) m !! k = None ↔
  match m !! k with Some r => p k r = false | None => True end.
Proof.
  rewrite map_lookup_filter_None. destruct (m !! k) as [r|]; [|naive_solver].
  destruct (p k r) eqn:Hp; split; intros H.
  - destruct H as [?|H]; [done|]. by specialize (H r eq_refl).
  - done.
  - done.
  - right. intros r' ?. simpl. congruence.
Qed.

Lemma delete_memories_embedding p d k :
  embeddings (delete_memories p d).1 !! k =
  match memories d !! k with
  | Some r => if p k r then None else embeddings d !! k
  | None => embeddings d !! k
  end.
Proof.
  simpl. destruct (embeddings d !! k) as [e|] eqn:He.
  - destruct (memories d !! k) as [r|] eqn:Hk; [destruct (p k r) eqn:Hp|].
    + apply map_lookup_filter_None. right. intros e' _. simpl.
      rewrite delete_memories_gone, Hk. congruence.
    + apply map_lookup_filter_Some. split; [done|]. simpl. by rewrite delete_memories_gone, Hk.
    + apply map_lookup_filter_Some. split; [done|]. simpl. by rewrite delete_memories_gone, Hk.
  - assert (filter (λ kr : string * embedding_row,
      filter (λ kr, p kr.1 kr.2 = true) (memories d) !! kr.1 = None) (embeddings d) !! k = None) as ->
      by (apply map_lookup_filter_None; by left).
    by repeat case_match.
Qed.

(** Every statement of the store keeps the database well-formed. *)
Lemma wf_insert_project k r d d' : insert_project k r d = Ok d' → wf d → wf d'.
Proof.
  unfold insert_project. intros H [H1 H2 H3 H4 H5].
  destruct (projects d !! k) eqn:Hk; [done|]. simplify_eq. split; try done.
  intros k' r' Hr. specialize (H1 k' r' Hr). unfold fk_project_ok in *. simpl in *.
  destruct (r_project_id r') as [p|]; [|done].
  rewrite bool_decide_eq_true in *. rewrite lookup_insert_is_Some'. by right.
Qed.

Lemma wf_insert_memory k r d d' :
  insert_memory k r d = Ok d' → 0 ≤ r_created_at r < datetime_end → wf d → wf d'.
Proof.
  unfold insert_memory. intros H Ht [H1 H2 H3 H4 H5].
  destruct (memories d !! k) eqn:Hk; [done|].
  destruct (fk_project_ok (r_project_id r) d) eqn:Hfk; [|done]. simplify_eq. split; simpl; try done.
  - by apply map_Forall_insert_2.
  - intros k' Hk'. apply lookup_insert_is_Some'. right. by apply H2.
  - by apply map_Forall_insert_2.
  - destruct (fts d) as [ix|]; [|done]. simpl. unfold fts_ai. by rewrite fmap_insert, H5.
Qed.

Lemma wf_update_memory k f d :
  (∀ r, r_project_id (f r) = r_project_id r ∧ r_created_at (f r) = r_created_at r) →
  wf d → wf (update_memory_row k f d).1.
Proof.
  unfold update_memory_row. intros Hf [H1 H2 H3 H4 H5].
  destruct (memories d !! k) as [r|] eqn:Hk; [|by split]. destruct (Hf r) as [Hp Hc].
  split; simpl; try done.
  - apply map_Forall_insert_2; [|done]. rewrite Hp. by eapply (H1 k).
  - intros k' Hk'. apply lookup_insert_is_Some'. right. by apply H2.
  - apply map_Forall_insert_2; [|done]. rewrite Hc. by eapply (H4 k).
  - destruct (fts d) as [ix|]; [|done]. simpl. unfold fts_au.
    by rewrite fmap_insert, H5, insert_delete_eq.
Qed.

Lemma wf_update_project k f d : wf d → wf (update_project_row k f d).1.
Proof.
  unfold update_project_row. intros [H1 H2 H3 H4 H5].
  destruct (projects d !! k) as [r|] eqn:Hk; [|by split]. split; simpl; try done.
  intros k' r' Hr. specialize (H1 k' r' Hr). unfold fk_project_ok in *. simpl in *.
  destruct (r_project_id r') as [p|]; [|done].
  rewrite bool_decide_eq_true in *. rewrite lookup_insert_is_Some'. by right.
Qed.

Lemma wf_delete_memories p d : wf d → wf (delete_memories p d).1.
Proof.
  intros [H1 H2 H3 H4 H5]. split.
  - intros k r. rewrite delete_memories_lookup. intros Hr. apply (H1 k). case_all.
  - intros k. rewrite delete_memories_lookup, delete_memories_embedding.
    destruct (memories d !! k) as [r|] eqn:Hk.
    + destruct (p k r); [by intros [? [=]]|]. intros _. by eexists.
    + intros Hk'. apply H2 in Hk' as [? ?]. congruence.
  - intros k e. rewrite delete_memories_embedding. intros He. apply (H3 k). case_all.
  - intros k r. rewrite delete_memories_lookup. intros Hr. apply (H4 k). case_all.
  - simpl. destruct (fts d) as [ix|] eqn:Hfts; [|done]. simpl. subst ix.
    apply map_eq. intros k. rewrite fts_delete_rows_lookup, !lookup_fmap.
    pose proof (delete_memories_lookup p d k) as Hl. simpl in Hl. rewrite Hl.
    pose proof (delete_memories_gone p (memories d) k) as Hg.
    revert Hg. destruct (memories d !! k) as [r|]; simpl; [|by case_match].
    case_match; case_match; intros Hg; try done; exfalso.
    + discriminate (proj1 Hg eq_refl).
    + discriminate (proj2 Hg eq_refl).
Qed.

Lemma wf_delete_project k d d' : delete_project_row k d = Ok d' → wf d → wf d'.
Proof.
  unfold delete_project_row. case_bool_decide as Hno; [|done].
  intros ? [H1 H2 H3 H4 H5]. simplify_eq.
  split; try done. intros k' r Hr. specialize (H1 k' r Hr). specialize (Hno k' r Hr).
  unfold fk_project_ok in *. simpl in *. destruct (r_project_id r) as [p|]; [|done].
  rewrite bool_decide_eq_true in *. rewrite lookup_delete_ne by congruence. done.
Qed.

Lemma wf_upsert_embedding k e d d' :
  upsert_embedding k e d = Ok d' → e_dimensions e = Z.of_nat (length (e_embedding e)) → wf d → wf d'.
Proof.
  unfold upsert_embedding. intros H He [H1 H2 H3 H4 H5].
  destruct (memories d !! k) eqn:Hk; [|done]. simplify_eq. split; try done.
  - intros k'. simpl. rewrite lookup_insert_is_Some'. intros [<-|?]; [by eexists|by apply H2].
  - by apply map_Forall_insert_2.
Qed.

Lemma wf_delete_embedding k d : wf d → wf (delete_embedding_row k d).
Proof.
  intros [H1 H2 H3 H4 H5]. split; try done.
  - intros k'. simpl. rewrite lookup_delete_is_Some. intros [_ ?]. by apply H2.
  - by apply map_Forall_delete.
Qed.

Create HintDb wf.
#[export] Hint Resolve wf_insert_project wf_insert_memory wf_update_memory wf_update_project
  wf_delete_memories wf_delete_project wf_upsert_embedding wf_delete_embedding : wf.
