(* ===== verification/Store.v ===== *)
(** * The SQLite store

    [sqlite_store.py] and [row_mappers.py]: every method of [SqliteStore] as a
    computation over the connection, composed of the statements of [Sql].  The
    re-entrant lock makes a method call one uninterrupted step ([Locking] proves it
    of threads that share the store), so a program run is a sequence of these
    computations. *)

From S2P Require Import Prelude PyStr Sha256 Domain Sql.
Local Open Scope Z_scope.
Local Open Scope prog_scope.

(** ** State *)

(** [slept] records the base delay, in milliseconds, of every retry of
    [BEGIN IMMEDIATE] (the random jitter adds at most a quarter). *)
Record store := Store {
  conn_of : conn;
  depth : Z;
  fts5_active : bool;
  slept : list Z;
}.

Notation St A := (SE store exn A).

Definition set_conn (c : conn) (s : store) : store := Store c (depth s) (fts5_active s) (slept s).
Definition set_depth (n : Z) (s : store) : store := Store (conn_of s) n (fts5_active s) (slept s).
Definition set_active (b : bool) (s : store) : store := Store (conn_of s) (depth s) b (slept s).
Definition add_sleep (n : Z) (s : store) : store :=
  Store (conn_of s) (depth s) (fts5_active s) (slept s ++ [n]).

(** The database this connection sees. *)
Definition view (s : store) : db := current (conn_of s).

(** ** Statements on the connection *)

Definition query {A} (f : db → A) : St A := gets (λ s, f (view s)).
(** A statement that may fail, and one that reports a row count. *)
Definition execute (f : db → result exn db) : St unit := λ s,
  match f (view s) with
  | Ok d => (set_conn (set_current d (conn_of s)) s, Ok tt)
  | Raise e => (s, Raise e)
  end.
Definition execute_count (f : db → db * nat) : St nat := λ s,
  (set_conn (set_current (f (view s)).1 (conn_of s)) s, Ok (f (view s)).2).
Definition on_conn (f : conn → conn * result exn unit) : St unit := λ s,
  (set_conn (f (conn_of s)).1 s, (f (conn_of s)).2).

(** ** Transactions *)

Definition BEGIN_MAX_RETRIES : nat := 3.
Definition BEGIN_BASE_DELAY_MS : Z := 500.

(** [for attempt in range(_BEGIN_MAX_RETRIES + 1)], from [attempt] on with
    [left] attempts to go. *)
Fixpoint begin_loop (attempt left : nat) : St unit :=
  match left with
  | O => ret tt
  | S left' =>
      try_catch (on_conn begin_immediate) (λ e,
        match e with
        | OperationalError msg =>
            if negb (contains "locked" (str_lower msg)) || (BEGIN_MAX_RETRIES <=? attempt)%nat
            then raise e
            else modify (add_sleep (BEGIN_BASE_DELAY_MS * 2 ^ Z.of_nat attempt)) ;;
                 begin_loop (S attempt) left'
        | _ => raise e
        end)
  end.

(** [sqlite_store.py:289-307 SqliteStore._begin_immediate_with_retry] *)
Definition begin_immediate_with_retry : St unit := begin_loop 0 (BEGIN_MAX_RETRIES + 1).

(** [sqlite_store.py:309-338 SqliteStore.transaction] *)
Definition transaction {A} (body : St A) : St A :=
  let* d := gets depth in
  let is_outer := bool_decide (d = 0) in
  let savepoint_name := ("sp_" +:+ str_of_Z (d + 1))%string in
  (if is_outer then begin_immediate_with_retry else on_conn (savepoint savepoint_name)) ;;
  modify (λ s, set_depth (depth s + 1) s) ;;
  try_finally
    (try_catch
       (let* a := body in
        (if is_outer then on_conn commit_txn else on_conn (release_savepoint savepoint_name)) ;;
        ret a)
       (λ e,
        (if is_outer then on_conn rollback_txn
         else on_conn (rollback_to_savepoint savepoint_name) ;;
              on_conn (release_savepoint savepoint_name)) ;;
        raise e))
    (modify (λ s, set_depth (depth s - 1) s)).

(** [sqlite_store.py:1192-1194 SqliteStore._commit_if_needed] [conn.commit()]
    commits an open transaction and does nothing without one. *)
Definition commit_if_needed : St unit :=
  let* d := gets depth in
  if bool_decide (d = 0) then
    let* c := gets conn_of in
    match txn c with Some _ => on_conn commit_txn | None => ret tt end
  else ret tt.

(** ** Rows and domain values *)

(** [row_mappers.py:17-23 row_to_project] *)
Definition row_to_project (kr : string * project_row) : Project :=
  mkProject kr.1 (p_name kr.2) (p_metadata kr.2) (utc (p_created_at kr.2)).

(** [row_mappers.py:26-38 row_to_memory_item] *)
Definition row_to_memory_item (kr : string * memory_row) : MemoryItem :=
  mkMemoryItem kr.1 (r_content kr.2) (r_tags kr.2) (utc (r_created_at kr.2)) (r_pinned kr.2)
    (r_project_id kr.2) (r_source kr.2) (utc <$> r_updated_at kr.2).

(** ** Query clauses *)

Inductive PinnedMode := exclude | include | only.

(** A predicate on rows: the clauses the code assembles as text. *)
Definition clause : Type := memory_row → bool.

Definition no_clause : clause := λ _, true.

Definition in_project (p : string) : clause := λ r, bool_decide (r_project_id r = Some p).
Definition global_row : clause := λ r, bool_decide (r_project_id r = None).

(** [sqlite_store.py:55-81 _pinned_clauses] The pinned clause and the scope
    clause of a search query. *)
Definition pinned_clauses (mode : PinnedMode) (project_id : option string) : clause * clause :=
  match mode with
  | exclude =>
      (λ r, negb (r_pinned r),
       match project_id with Some p => in_project p | None => no_clause end)
  | include =>
      (no_clause,
       match project_id with
       | Some p => λ r, in_project p r || r_pinned r && global_row r
       | None => no_clause
       end)
  | only =>
      (r_pinned,
       match project_id with Some p => λ r, in_project p r || global_row r | None => no_clause end)
  end.

Definition str_mem (t : string) (l : list string) : bool := bool_decide (t ∈ l).

(** [sqlite_store.py:84-97 _exclude_tags_clause] *)
Definition exclude_tags_clause (exclude_tags : option (list string)) : clause :=
  match exclude_tags with
  | None | Some [] => no_clause
  | Some ts => λ r, negb (existsb (λ own, str_mem own ts) (r_tags r))
  end.

(** [sqlite_store.py:100-118 _tags_clause] *)
Definition tags_clause (tags : option (list string)) : clause :=
  match tags with
  | None | Some [] => no_clause
  | Some ts => λ r, negb (existsb (λ req, negb (str_mem req (r_tags r))) ts)
  end.

Definition LIKE_ESCAPE : ascii := "\"%char.

(** [sqlite_store.py:121-130 _escape_like] The escape character first, then
    the two wildcards. *)
Definition escape_like (value : string) : string :=
  of_chars (foldl (λ v ch, replace_char ch [LIKE_ESCAPE; ch] v) (chars value)
    [LIKE_ESCAPE; "%"%char; "_"%char]).

(** ** Projects *)

(** [sqlite_store.py:342-354 SqliteStore.add_project] *)
Definition add_project (project : Project) : St unit :=
  let* created := lift_result (iso_column (project_created_at project)) in
  execute (insert_project (project_key project)
    (ProjectRow (name project) (metadata project) created)) ;;
  commit_if_needed.

(** Projects newest first, ties by descending id. *)
Definition project_leb (x y : string * project_row) : bool :=
  (p_created_at y.2 <? p_created_at x.2)
  || (p_created_at y.2 =? p_created_at x.2) && str_leb y.1 x.1.

Definition select_projects (p : project_row → bool) (d : db) : list (string * project_row) :=
  sort_by project_leb (filter (λ kr, p kr.2 = true) (map_to_list (projects d))).

(** [sqlite_store.py:356-366 SqliteStore.list_projects] *)
Definition list_projects (name_contains : option string) : St (list Project) :=
  let* rows := query (select_projects (λ r,
    match name_contains with
    | Some n =>
        like_match LIKE_ESCAPE (chars ("%" +:+ escape_like n +:+ "%")%string) (chars (p_name r))
    | None => true
    end)) in
  ret (map row_to_project rows).

(** [sqlite_store.py:368-372 SqliteStore.get_project] *)
Definition get_project (project_id : string) : St (option Project) :=
  query (λ d, (λ r, row_to_project (project_id, r)) <$> projects d !! project_id).

(** [sqlite_store.py:374-388 SqliteStore.delete_project] *)
Definition delete_project (project_id : string) : St nat :=
  transaction (
    let* proj_row := query (λ d, projects d !! project_id) in
    match proj_row with
    | None => raise (NotFoundError PROJECT_NOT_FOUND)
    | Some _ =>
        let* deleted_memories := query (λ d,
          size (filter (λ kr, in_project project_id kr.2 = true) (memories d))) in
        let* _ := execute_count (delete_memories (λ _ r, in_project project_id r)) in
        execute (delete_project_row project_id) ;;
        ret deleted_memories
    end).

(** [sqlite_store.py:390-416 SqliteStore.update_project] *)
Definition update_project (project_id : string) (name : option string)
    (metadata : option (list (string * json))) : St Project :=
  match name, metadata with
  | None, None => raise ValueError
  | _, _ =>
      let* rowcount := execute_count (update_project_row project_id (λ r,
        ProjectRow (default (p_name r) name) (default (p_metadata r) metadata) (p_created_at r))) in
      if (rowcount =? 0)%nat then raise (NotFoundError PROJECT_NOT_FOUND)
      else
        commit_if_needed ;;
        let* updated := get_project project_id in
        match updated with Some p => ret p | None => raise AssertionError end
  end.

(** ** Memories *)

(** [sqlite_store.py:420-453 SqliteStore.add_memory] *)
Definition add_memory (item : MemoryItem) : St unit :=
  try_catch
    (let* created := lift_result (iso_column (created_at item)) in
     let* updated := match updated_at item with
       | Some u => let* t := lift_result (iso_column u) in ret (Some t)
       | None => ret None
       end in
     execute (insert_memory (id item)
       (MemoryRow (content item) (tags item) created (pinned item) (project_id item)
          (source item) updated)))
    (λ e, match e with
      | IntegrityError msg =>
          if contains "FOREIGN KEY" (str_upper msg) then raise (NotFoundError PROJECT_NOT_FOUND) else raise e
      | _ => raise e
      end) ;;
  commit_if_needed.

(** [sqlite_store.py:455-459 SqliteStore.get_memory] *)
Definition get_memory (memory_id : string) : St (option MemoryItem) :=
  query (λ d, (λ r, row_to_memory_item (memory_id, r)) <$> memories d !! memory_id).

(** The [ORDER BY] of [list_memory]. *)
Inductive OrderBy := pinned_first | by_created_at | order_by_other (s : string).

(** [sqlite_store.py:461-512 SqliteStore.list_memory] *)
Definition list_memory (limit : option Z) (pinned_only : bool) (offset : Z)
    (project_id : option string) (tags exclude_tags : option (list string)) (order_by : OrderBy)
    : St (list MemoryItem) :=
  match order_by with
  | order_by_other _ => raise ValueError
  | _ =>
      let where_ := λ (_ : string) (r : memory_row),
        (negb pinned_only || r_pinned r)
        && match project_id with Some p => in_project p r | None => true end
        && tags_clause tags r && exclude_tags_clause exclude_tags r in
      let leb := match order_by with by_created_at => newest_leb | _ => pinned_first_leb end in
      let* rows := query (λ d,
        let sorted := select_memories where_ leb d in
        let skipped := if 0 <? offset then drop (Z.to_nat offset) sorted else sorted in
        match limit with Some n => sql_limit n skipped | None => skipped end) in
      ret (map row_to_memory_item rows)
  end.

(** [sqlite_store.py:514-524 SqliteStore.count_memory] *)
Definition count_memory (project_id : option string) : St Z :=
  query (λ d, Z.of_nat (size (filter (λ kr : string * memory_row,
    match project_id with Some p => in_project p kr.2 | None => true end = true) (memories d)))).

(** [sqlite_store.py:526-535 SqliteStore.list_memory_by_source] *)
Definition list_memory_by_source (src : string) (project_id : option string) : St (list MemoryItem) :=
  let* rows := query (select_memories (λ _ r,
    bool_decide (r_source r = src)
    && match project_id with Some p => in_project p r | None => true end) newest_leb) in
  ret (map row_to_memory_item rows).

Definition with_pinned (b : bool) (r : memory_row) : memory_row :=
  MemoryRow (r_content r) (r_tags r) (r_created_at r) b (r_project_id r) (r_source r) (r_updated_at r).

(** [sqlite_store.py:537-546 SqliteStore.set_pinned] *)
Definition set_pinned (memory_id : string) (pinned : bool) : St unit :=
  let* rowcount := execute_count (update_memory_row memory_id (with_pinned pinned)) in
  if (rowcount =? 0)%nat then raise (NotFoundError MEMORY_NOT_FOUND) else commit_if_needed.

Definition with_update (now : Z) (content : option string) (tags : option (list string))
    (r : memory_row) : memory_row :=
  MemoryRow (default (r_content r) content) (default (r_tags r) tags) (r_created_at r) (r_pinned r)
    (r_project_id r) (r_source r) (Some now).

(** [sqlite_store.py:548-571 SqliteStore.update_memory] *)
Definition update_memory (now : Z) (memory_id : string) (content : option string)
    (tags : option (list string)) : St (option MemoryItem) :=
  let* rowcount := execute_count (update_memory_row memory_id (with_update now content tags)) in
  if (rowcount =? 0)%nat then raise (NotFoundError MEMORY_NOT_FOUND)
  else commit_if_needed ;; get_memory memory_id.

(** [sqlite_store.py:573-579 SqliteStore.delete_memory] *)
Definition delete_memory (memory_id : string) : St unit :=
  transaction (
    let* rowcount := execute_count (delete_memories (λ k _, bool_decide (k = memory_id))) in
    if (rowcount =? 0)%nat then raise (NotFoundError MEMORY_NOT_FOUND) else ret tt).

(** ** Embeddings *)

(** [struct.pack("f", x)]: round to binary32; a finite value that overflows is
    refused, an infinity or a NaN is kept. *)
Definition round_f32 (x : spec_float) : result exn spec_float :=
  match x with
  | S754_finite s m e =>
      match binary_round 24 128 s m e with
      | S754_infinity _ => Raise OverflowError
      | y => Ok y
      end
  | _ => Ok x
  end.
(** [struct.unpack("f", b)]: every binary32 value is a binary64 value. *)
Definition widen_f32 (x : spec_float) : spec_float :=
  match x with S754_finite s m e => binary_round 53 1024 s m e | _ => x end.

Fixpoint pack_floats (l : list spec_float) : result exn (list spec_float) :=
  match l with
  | [] => Ok []
  | x :: l' => let? y := round_f32 x in let? ys := pack_floats l' in Ok (y :: ys)
  end.

(** [sqlite_store.py:583-586 SqliteStore._unpack_embedding] *)
Definition unpack_embedding (blob : list spec_float) : list spec_float := map widen_f32 blob.

(** [sqlite_store.py:588-662 SqliteStore.save_embedding] *)
Definition save_embedding (now : Z) (memory_id : string) (embedding : list spec_float)
    (model provider content_hash : string) (model_revision : option string)
    (settings_fingerprint status : string) : St bool :=
  let* row := query (λ d, r_content <$> memories d !! memory_id) in
  match row with
  | None => ret false
  | Some c =>
      if bool_decide (hash_content c ≠ content_hash) then ret false
      else
        let* blob := lift_result (pack_floats embedding) in
        execute (upsert_embedding memory_id
          (EmbeddingRow blob model (Z.of_nat (length embedding)) now provider content_hash
             model_revision settings_fingerprint status)) ;;
        commit_if_needed ;;
        ret true
  end.

(** [sqlite_store.py:664-675 SqliteStore.get_embedding] *)
Definition get_embedding (memory_id : string) : St (option (list spec_float)) :=
  query (λ d, (λ r, unpack_embedding (e_embedding r)) <$> embeddings d !! memory_id).

(** [sqlite_store.py:677-736 SqliteStore.list_embeddings] The result dict, as
    the list of its entries in the order of the rows. *)
Definition list_embeddings (memory_ids : option (list string)) (model provider : option string)
    (dimensions : option Z) (settings_fingerprint model_revision : option string)
    (match_revision : bool) : St (list (string * list spec_float)) :=
  let where_ := λ (k : string) (r : embedding_row),
    bool_decide (e_status r = "ok")
    && match memory_ids with Some l => bool_decide (k ∈ l) | None => true end
    && match model with Some m => bool_decide (e_model r = m) | None => true end
    && match provider with Some p => bool_decide (e_provider r = p) | None => true end
    && match dimensions with Some n => e_dimensions r =? n | None => true end
    && match settings_fingerprint with
       | Some f => bool_decide (e_settings_fingerprint r = f) | None => true end
    && (negb match_revision || bool_decide (e_model_revision r = model_revision)) in
  let* rows := query (λ d, filter (λ kr, where_ kr.1 kr.2 = true) (map_to_list (embeddings d))) in
  ret (map (λ kr, (kr.1, unpack_embedding (e_embedding kr.2))) rows).

(** Counting rows of the embedding table, alone or joined to its memories. *)
Definition count_where (p : embedding_row → bool) (d : db) : Z :=
  Z.of_nat (size (filter (λ kr : string * embedding_row, p kr.2 = true) (embeddings d))).
Definition joined (d : db) (kr : string * embedding_row) : option memory_row := memories d !! kr.1.
Definition count_joined (p : memory_row → embedding_row → bool) (d : db) : Z :=
  Z.of_nat (size (filter (λ kr : string * embedding_row,
    match joined d kr with Some m => p m kr.2 | None => false end = true) (embeddings d))).

(** [sqlite_store.py:738-751 SqliteStore.count_embeddings] *)
Definition count_embeddings (status : option string) : St Z :=
  query (count_where (λ r, match status with Some s => bool_decide (e_status r = s) | None => true end)).

(** The space predicate of the staleness queries. *)
Definition in_space (provider model settings_fingerprint : string) (model_revision : option string)
    (match_revision : bool) (r : embedding_row) : bool :=
  bool_decide (e_provider r = provider) && bool_decide (e_model r = model)
  && bool_decide (e_settings_fingerprint r = settings_fingerprint)
  && (negb match_revision || bool_decide (e_model_revision r = model_revision)).

(** [sqlite_store.py:753-788 SqliteStore.count_unembeddable_embeddings] *)
Definition count_unembeddable_embeddings (provider model settings_fingerprint : string)
    (model_revision : option string) (match_revision : bool) : St Z :=
  query (count_joined (λ m r,
    bool_decide (e_status r = "content_too_long")
    && in_space provider model settings_fingerprint model_revision match_revision r
    && bool_decide (hash_content (r_content m) = e_content_hash r))).

(** [sqlite_store.py:790-835 SqliteStore.stale_embedding_counts] The buckets
    ["space_mismatch"] and ["content_mismatch"]. *)
Definition stale_embedding_counts (provider model settings_fingerprint : string)
    (model_revision : option string) (match_revision : bool) : St (Z * Z) :=
  let* space_mismatch := query (count_where (λ r,
    bool_decide (e_provider r ≠ provider) || bool_decide (e_model r ≠ model)
    || bool_decide (e_settings_fingerprint r ≠ settings_fingerprint)
    || (match_revision && bool_decide (e_model_revision r ≠ model_revision)))) in
  let* content_mismatch := query (count_joined (λ m r,
    in_space provider model settings_fingerprint model_revision match_revision r
    && bool_decide (hash_content (r_content m) ≠ e_content_hash r))) in
  ret (space_mismatch, content_mismatch).

(** [sqlite_store.py:837-851 SqliteStore.stored_embedding_dimensions] *)
Definition stored_embedding_dimensions : St (list Z) :=
  query (λ d, sort_by Z.leb (remove_dups (map (λ kr, e_dimensions kr.2)
    (filter (λ kr : string * embedding_row, e_status kr.2 = "ok"%string)
      (map_to_list (embeddings d)))))).

(** [sqlite_store.py:853-857 SqliteStore.delete_embedding] *)
Definition delete_embedding (memory_id : string) : St unit :=
  execute (λ d, Ok (delete_embedding_row memory_id d)) ;; commit_if_needed.

(** [sqlite_store.py:859-866 SqliteStore.get_embedding_model] *)
Definition get_embedding_model (memory_id : string) : St (option string) :=
  query (λ d, e_model <$> embeddings d !! memory_id).

(** The dict of [get_embedding_identity]. *)
Record Identity := mkIdentity {
  i_provider : string; i_model : string; i_dimensions : Z; i_content_hash : string;
  i_model_revision : option string; i_settings_fingerprint : string; i_status : string;
}.

(** [sqlite_store.py:868-897 SqliteStore.get_embedding_identity] *)
Definition get_embedding_identity (memory_id : string) : St (option Identity) :=
  query (λ d, (λ r, mkIdentity (e_provider r) (e_model r) (e_dimensions r) (e_content_hash r)
    (e_model_revision r) (e_settings_fingerprint r) (e_status r)) <$> embeddings d !! memory_id).

(** ** Search *)

(** [sqlite_store.py:901-921 SqliteStore.pinned_items] *)
Definition pinned_items (project_id : option string) : St (list MemoryItem) :=
  let* rows := query (select_memories (λ _ r,
    r_pinned r
    && match project_id with Some p => in_project p r || global_row r | None => true end) newest_leb) in
  ret (map row_to_memory_item rows).

(** FTS5 is a library of SQLite: which indexed documents match an escaped
    query, and the [bm25] rank of a match in the whole index (only the order
    of ranks matters, so a rank is an integer). *)
Class FTS5 := {
  fts_match : string → fts_doc → bool;
  fts_rank : string → gmap string fts_doc → string → Z;
}.

(** [sqlite_store.py:1108-1129 SqliteStore._fts5_escape] *)
Definition fts5_escape (query : string) (phrase : bool) : string :=
  let quote := chr 34 in
  let unquoted := λ s, replace_char quote [] (chars s) in
  let quoted := λ l, of_chars (quote :: l ++ [quote]) in
  if bool_decide (py_strip query = "") then ""
  else if phrase then
    let clean := chars (py_join " " (py_split (of_chars (unquoted query)))) in
    match clean with [] => "" | _ => quoted clean end
  else
    py_join " OR " (map quoted
      (filter (λ l, l ≠ []) (map unquoted (py_split query)))).

(** [ORDER BY fts.rank, created_at DESC, id ASC] *)
Definition rank_leb (rank : string → Z) (x y : string * memory_row) : bool :=
  (rank x.1 <? rank y.1)
  || (rank x.1 =? rank y.1)
     && ((r_created_at y.2 <? r_created_at x.2)
         || (r_created_at y.2 =? r_created_at x.2) && str_leb x.1 y.1).

(** [sqlite_store.py:1085-1087 SqliteStore._normalize_tokens] *)
Definition normalize_tokens (text : string) : list string :=
  py_split (of_chars (filter (λ c, is_punctuation c = false) (chars (str_lower text)))).

(** [sqlite_store.py:1089-1100 SqliteStore._tag_match_count] *)
Definition tag_match_count (tags q_tokens : list string) : Z :=
  match tags, q_tokens with
  | [], _ | _, [] => 0
  | _, _ => Z.of_nat (length (filter (λ tag,
      let tag_lower := str_lower tag in
      (str_mem tag_lower q_tokens || existsb (λ token, contains token tag_lower) q_tokens) = true)
      tags))
  end.

(** [sqlite_store.py:1102-1106 SqliteStore._keyword_match_count] *)
Definition keyword_match_count (content : string) (q_tokens : list string) : Z :=
  match content, q_tokens with
  | EmptyString, _ | _, [] => 0
  | _, _ => Z.of_nat (length (filter (λ token, contains token (str_lower content) = true) q_tokens))
  end.

Definition MEMORY_SEARCH_LIMIT : Z := 200.

(** The key of the fallback ranking, compared as a tuple. *)
Definition Score : Type := Z * Z * Z * string.
Definition score_ltb (x y : Score) : bool :=
  let '(x1, x2, x3, x4) := x in
  let '(y1, y2, y3, y4) := y in
  (x1 <? y1) || (x1 =? y1) && ((x2 <? y2) || (x2 =? y2) &&
    ((x3 <? y3) || (x3 =? y3) && str_ltb x4 y4)).

Definition fallback_score (q_tokens : list string) (item : MemoryItem) : Score :=
  (tag_match_count (tags item) q_tokens, keyword_match_count (content item) q_tokens,
   wall (created_at item), id item).

(** [sqlite_store.py:951-992 SqliteStore._fallback_search_memory] *)
Definition fallback_search_memory (text : string) (limit : Z) (project_id : option string)
    (tags : option (list string)) (phrase : bool) (pinned_mode : PinnedMode) : St (list MemoryItem) :=
  let q_tokens := normalize_tokens text in
  let '(pinned_clause, scope_clause) := pinned_clauses pinned_mode project_id in
  let* rows := query (λ d, sql_limit MEMORY_SEARCH_LIMIT (select_memories (λ _ r,
    pinned_clause r && scope_clause r && tags_clause tags r) newest_leb d)) in
  let items := map row_to_memory_item rows in
  if phrase then
    let needle := str_casefold (py_join " " (py_split text)) in
    if bool_decide (needle = "") then ret []
    else ret (py_slice 0 limit (filter (λ i,
      contains needle (str_casefold (py_join " " (py_split (content i)))) = true) items))
  else
    ret (py_slice 0 limit (sort_by (λ x y,
      negb (score_ltb (fallback_score q_tokens x) (fallback_score q_tokens y))) items)).

Section search.
Context `{FTS5}.

(** [sqlite_store.py:923-949 SqliteStore._fts5_search_memory] *)
Definition fts5_search_memory (text : string) (limit : Z) (project_id : option string)
    (tags : option (list string)) (phrase : bool) (pinned_mode : PinnedMode) : St (list MemoryItem) :=
  let escaped := fts5_escape text phrase in
  if bool_decide (escaped = "") then ret []
  else
    let '(pinned_clause, scope_clause) := pinned_clauses pinned_mode project_id in
    let* rows := query (λ d,
      let ix := default ∅ (fts d) in
      sql_limit limit (select_memories (λ k r,
        match ix !! k with Some doc => fts_match escaped doc | None => false end
        && pinned_clause r && scope_clause r && tags_clause tags r)
        (rank_leb (fts_rank escaped ix)) d)) in
    ret (map row_to_memory_item rows).

(** [sqlite_store.py:994-1011 SqliteStore._ranked_search] *)
Definition ranked_search (text : string) (limit : Z) (project_id : option string)
    (tags : option (list string)) (phrase : bool) (pinned_mode : PinnedMode) : St (list MemoryItem) :=
  let* active := gets fts5_active in
  if active then fts5_search_memory text limit project_id tags phrase pinned_mode
  else fallback_search_memory text limit project_id tags phrase pinned_mode.

(** [sqlite_store.py:1013-1031 SqliteStore.search_pinned] *)
Definition search_pinned (text : string) (limit : Z) (project_id : option string)
    (tags : option (list string)) (phrase : bool) : St (list MemoryItem) :=
  if limit <=? 0 then ret []
  else
    let* ranked := ranked_search text limit project_id tags phrase only in
    ret (py_slice 0 limit ranked).

(** [sqlite_store.py:1033-1055 SqliteStore.eligible_memory_ids] *)
Definition eligible_memory_ids (project_id : option string) (tags : option (list string))
    : St (gset string) :=
  let '(_, scope_clause) := pinned_clauses include project_id in
  query (λ d, dom (filter (λ kr : string * memory_row,
    scope_clause kr.2 && tags_clause tags kr.2 = true) (memories d))).

(** [sqlite_store.py:1057-1081 SqliteStore.search_memory] *)
Definition search_memory (text : string) (top_k : Z) (project_id : option string)
    (include_pinned : bool) (tags : option (list string)) (offset : Z) (phrase : bool)
    (exclude_ids : gset string) : St (list MemoryItem) :=
  let effective_top_k := top_k + offset in
  let fetch := effective_top_k + Z.of_nat (size exclude_ids) in
  let* ranked := ranked_search text fetch project_id tags phrase
    (if include_pinned then include else exclude) in
  let ranked := filter (λ i, id i ∉ exclude_ids) ranked in
  ret (py_slice offset (offset + top_k) ranked).
End search.

(** ** Schema *)

(** [sqlite_store.py:1196-1218 SqliteStore._ensure_fts5] [user_enabled] is
    OC_SEARCH_FTS5_ENABLED, [available] the probe of the SQLite build. *)
Definition ensure_fts5 (user_enabled available : bool) : St unit :=
  if negb user_enabled then modify (set_active false)
  else if negb available then modify (set_active false)
  else
    execute (λ d, Ok (create_fts d)) ;;
    commit_if_needed ;;
    let* count := query count_fts in
    (if (count =? 0)%nat then execute (λ d, Ok (rebuild_fts d)) else ret tt) ;;
    commit_if_needed ;;
    modify (set_active true).
