(* ===== verification/Transactions.v ===== *)
(** * Transactions

    How a computation over the connection relates to a plain function of the
    database: [runs_as m f] says that [m] has the effect and the outcome of [f]
    on the database the connection sees, and leaves everything else alone.  It
    holds of every statement, is closed under the monad, and a transaction
    turns [f] into [atomic f]. *)

From S2P Require Import Prelude PyStr Domain Sql Store.
Local Open Scope Z_scope.
Local Open Scope prog_scope.

(** Replace the database the connection sees. *)
Definition upd (d : db) (s : store) : store := set_conn (set_current d (conn_of s)) s.

(** All the effects of [f], or none. *)
Definition atomic {A} (f : SE db exn A) : SE db exn A := λ d,
  match f d with
  | (d', Ok a) => (d', Ok a)
  | (_, Raise e) => (d, Raise e)
  end.

(** A transaction is open exactly inside [transaction], and the environment
    lets the next outermost one begin and commit. *)
Definition ready (s : store) : Prop :=
  0 ≤ depth s ∧ (txn (conn_of s) = None ↔ depth s = 0) ∧
  (depth s = 0 → begin_script (conn_of s) = [] ∧ commit_script (conn_of s) = []).

Definition runs_as {A} (m : SE store exn A) (f : bool → SE db exn A) : Prop :=
  ∀ s, ready s →
    m s = (upd (f (fts5_active s) (view s)).1 s, (f (fts5_active s) (view s)).2).

Lemma view_upd d s : view (upd d s) = d.
Proof. destruct s as [[c [[w sp]|] bs cs] n b sl]; done. Qed.
Lemma upd_view s : upd (view s) s = s.
Proof. destruct s as [[c [[w sp]|] bs cs] n b sl]; done. Qed.
Lemma upd_upd d d' s : upd d (upd d' s) = upd d s.
Proof. destruct s as [[c [[w sp]|] bs cs] n b sl]; done. Qed.
Lemma active_upd d s : fts5_active (upd d s) = fts5_active s.
Proof. done. Qed.
Lemma depth_upd d s : depth (upd d s) = depth s.
Proof. done. Qed.
Lemma ready_upd d s : ready s → ready (upd d s).
Proof. destruct s as [[c [[w sp]|] bs cs] n b sl]; unfold ready; simpl; naive_solver. Qed.
Create HintDb upd.
#[export] Hint Rewrite view_upd upd_view upd_upd active_upd depth_upd : upd.
#[export] Hint Resolve ready_upd : upd.

Section runs_as.
Context {A B : Type}.
Implicit Types (m : SE store exn A) (f : bool → SE db exn A).

Lemma runs_as_ext m f g : runs_as m f → (∀ b d, f b d = g b d) → runs_as m g.
Proof. intros H Hfg s Hs. by rewrite (H s Hs), Hfg. Qed.

Lemma runs_as_ret (a : A) : runs_as (ret a) (λ _, ret a).
Proof. intros s Hs. simpl. by autorewrite with upd. Qed.
Lemma runs_as_raise e : runs_as (@raise _ _ A e) (λ _, raise e).
Proof. intros s Hs. simpl. by autorewrite with upd. Qed.
Lemma runs_as_lift (r : result exn A) : runs_as (lift_result r) (λ _, lift_result r).
Proof. intros s Hs. simpl. by autorewrite with upd. Qed.
Lemma runs_as_query (h : db → A) : runs_as (query h) (λ _, gets h).
Proof. intros s Hs. simpl. by autorewrite with upd. Qed.

Lemma runs_as_bind m f (k : A → SE store exn B) (g : A → bool → SE db exn B) :
  runs_as m f → (∀ a, runs_as (k a) (g a)) →
  runs_as (bind m k) (λ b, bind (f b) (λ a, g a b)).
Proof.
  intros Hm Hk s Hs. unfold bind. rewrite (Hm s Hs).
  destruct (f (fts5_active s) (view s)) as [d [a|e]] eqn:Hf; simpl; [|done].
  rewrite (Hk a) by auto with upd. by autorewrite with upd.
Qed.

Lemma runs_as_try m f (h : exn → SE store exn A) (g : exn → bool → SE db exn A) :
  runs_as m f → (∀ e, runs_as (h e) (g e)) →
  runs_as (try_catch m h) (λ b, try_catch (f b) (λ e, g e b)).
Proof.
  intros Hm Hh s Hs. unfold try_catch. rewrite (Hm s Hs).
  destruct (f (fts5_active s) (view s)) as [d [a|e]] eqn:Hf; simpl; [done|].
  rewrite (Hh e) by auto with upd. by autorewrite with upd.
Qed.
End runs_as.

(** A statement as a computation on the database. *)
Definition stmt (f : db → result exn db) : SE db exn unit := λ d,
  match f d with Ok d' => (d', Ok tt) | Raise e => (d, Raise e) end.
Definition stmt_count (f : db → db * nat) : SE db exn nat := λ d, ((f d).1, Ok (f d).2).

Lemma runs_as_execute f : runs_as (execute f) (λ _, stmt f).
Proof.
  intros s Hs. unfold execute, stmt. destruct (f (view s)); simpl; by autorewrite with upd.
Qed.
Lemma runs_as_execute_count f : runs_as (execute_count f) (λ _, stmt_count f).
Proof. intros s Hs. done. Qed.
Lemma runs_as_active {A} (k : bool → SE store exn A) (g : bool → bool → SE db exn A) :
  (∀ b, runs_as (k b) (g b)) → runs_as (bind (gets fts5_active) k) (λ b, g b b).
Proof. intros Hk s Hs. unfold bind. simpl. by apply Hk. Qed.

Lemma runs_as_commit_if_needed : runs_as commit_if_needed (λ _, ret tt).
Proof.
  intros s Hs. unfold commit_if_needed, bind, gets. simpl. autorewrite with upd.
  case_bool_decide as Hd; [|done]. simpl. destruct Hs as (_&[_ Ht]&_). by rewrite Ht.
Qed.

(** ** BEGIN IMMEDIATE and its retries *)

Definition is_locked (msg : string) : bool := contains "locked" (str_lower msg).
Definition retry_delays (from n : nat) : list Z :=
  map (λ i, BEGIN_BASE_DELAY_MS * 2 ^ Z.of_nat i) (seq from n).

(** The state after [BEGIN] consumed [rest]'s predecessor entries. *)
Definition begun (rest : list (option string)) (sl : list Z) (s : store) : store :=
  Store (Conn (committed (conn_of s)) (Some (committed (conn_of s), [])) rest (commit_script (conn_of s)))
    (depth s) (fts5_active s) sl.
Definition not_begun (rest : list (option string)) (sl : list Z) (s : store) : store :=
  Store (Conn (committed (conn_of s)) None rest (commit_script (conn_of s)))
    (depth s) (fts5_active s) sl.

(** One attempt: success, a retry, or the error. *)
Lemma begin_loop_step attempt left s :
  txn (conn_of s) = None →
  begin_loop attempt (S left) s =
  match head (begin_script (conn_of s)) with
  | Some (Some msg) =>
      if negb (is_locked msg) || (BEGIN_MAX_RETRIES <=? attempt)%nat
      then (not_begun (tail (begin_script (conn_of s))) (slept s) s, Raise (OperationalError msg))
      else begin_loop (S attempt) left
             (not_begun (tail (begin_script (conn_of s)))
                (slept s ++ [BEGIN_BASE_DELAY_MS * 2 ^ Z.of_nat attempt]) s)
  | _ => (begun (tail (begin_script (conn_of s))) (slept s) s, Ok tt)
  end.
Proof.
  intros Ht. destruct s as [[c t bs cs] n b sl]; simpl in Ht; subst t. cbn [begin_loop].
  unfold try_catch, on_conn, begin_immediate, is_locked. cbn.
  destruct bs as [|[msg|] bs]; [done| |done]. cbn. by destruct (negb _ || _).
Qed.

#[local] Arguments begin_loop : simpl never.
#[local] Arguments BEGIN_MAX_RETRIES : simpl never.

Lemma locked_step attempt left s msg bs :
  txn (conn_of s) = None → begin_script (conn_of s) = Some msg :: bs →
  is_locked msg = true → (attempt < BEGIN_MAX_RETRIES)%nat →
  begin_loop attempt (S left) s =
  begin_loop (S attempt) left
    (not_begun bs (slept s ++ [BEGIN_BASE_DELAY_MS * 2 ^ Z.of_nat attempt]) s).
Proof.
  intros Ht Hb Hl Ha. rewrite begin_loop_step, Hb by done. cbn [head tail negb orb]. rewrite Hl.
  by rewrite (proj2 (Nat.leb_gt _ _) Ha).
Qed.

(** A run of lock errors within the budget is slept through. *)
Lemma begin_loop_locked attempt left s msgs rest :
  txn (conn_of s) = None →
  begin_script (conn_of s) = map Some msgs ++ rest →
  Forall (λ m, is_locked m = true) msgs →
  (attempt + length msgs ≤ BEGIN_MAX_RETRIES)%nat →
  begin_loop attempt (length msgs + left) s =
  begin_loop (attempt + length msgs) left
    (not_begun rest (slept s ++ retry_delays attempt (length msgs)) s).
Proof.
  revert attempt s. induction msgs as [|msg msgs IH]; intros attempt s Ht Hb Hl Ha; simpl in *.
  - rewrite Nat.add_0_r. destruct s as [[c t bs cs] n b sl]; simpl in *; subst.
    unfold not_begun; simpl. by rewrite app_nil_r.
  - apply Forall_cons in Hl as [Hmsg Hmsgs].
    rewrite (locked_step _ _ _ msg (map Some msgs ++ rest)) by (done || lia).
    rewrite IH by (done || lia). unfold not_begun; simpl. rewrite <- app_assoc.
    by rewrite Nat.add_succ_r.
Qed.

Lemma begin_retry_success s msgs rest :
  txn (conn_of s) = None →
  begin_script (conn_of s) = map Some msgs ++ rest →
  Forall (λ m, is_locked m = true) msgs → (length msgs ≤ BEGIN_MAX_RETRIES)%nat →
  head rest = Some None ∨ rest = [] →
  begin_immediate_with_retry s =
    (begun (tail rest) (slept s ++ retry_delays 0 (length msgs)) s, Ok tt).
Proof.
  intros Ht Hb Hl Hlen Hrest. unfold begin_immediate_with_retry.
  replace (BEGIN_MAX_RETRIES + 1)%nat
    with (length msgs + S (BEGIN_MAX_RETRIES - length msgs))%nat by lia.
  rewrite (begin_loop_locked _ _ _ _ rest) by (done || lia).
  rewrite begin_loop_step by done. simpl.
  by destruct Hrest as [-> | ->].
Qed.

Lemma begin_retry_error s msgs msg rest :
  txn (conn_of s) = None →
  begin_script (conn_of s) = map Some msgs ++ Some msg :: rest →
  Forall (λ m, is_locked m = true) msgs → (length msgs ≤ BEGIN_MAX_RETRIES)%nat →
  is_locked msg = false ∨ length msgs = BEGIN_MAX_RETRIES →
  begin_immediate_with_retry s =
    (not_begun rest (slept s ++ retry_delays 0 (length msgs)) s, Raise (OperationalError msg)).
Proof.
  intros Ht Hb Hl Hlen Hstop. unfold begin_immediate_with_retry.
  replace (BEGIN_MAX_RETRIES + 1)%nat
    with (length msgs + S (BEGIN_MAX_RETRIES - length msgs))%nat by lia.
  rewrite (begin_loop_locked _ _ _ _ (Some msg :: rest)) by (done || lia).
  rewrite begin_loop_step by done. cbn [conn_of not_begun begin_script head tail].
  assert (negb (is_locked msg) || (BEGIN_MAX_RETRIES <=? 0 + length msgs)%nat = true) as ->; [|done].
  destruct Hstop as [-> | ->]; [done|]. by rewrite Nat.leb_refl, orb_true_r.
Qed.

(** Whatever the environment answers, the loop ends in an open transaction or
    with nothing changed but the scripts and the delays. *)
Lemma begin_retry_cases s :
  txn (conn_of s) = None →
  ∃ bs sl, begin_immediate_with_retry s = (begun bs sl s, Ok tt) ∨
  ∃ msg, begin_immediate_with_retry s = (not_begun bs sl s, Raise (OperationalError msg)).
Proof.
  intros Hs. unfold begin_immediate_with_retry. rewrite Nat.add_1_r.
  enough (∀ left attempt s, txn (conn_of s) = None →
    (BEGIN_MAX_RETRIES < attempt + S left)%nat →
    ∃ bs sl, begin_loop attempt (S left) s = (begun bs sl s, Ok tt) ∨
    ∃ msg, begin_loop attempt (S left) s = (not_begun bs sl s, Raise (OperationalError msg))) as Hgen
    by (apply Hgen; [done|lia]).
  induction left as [|left IH]; intros attempt s' Ht Hle; rewrite begin_loop_step by done.
  - destruct (head (begin_script (conn_of s'))) as [[msg|]|]; [|by eauto..].
    destruct (Nat.leb_spec BEGIN_MAX_RETRIES attempt); [|lia]. rewrite orb_true_r. eauto.
  - destruct (head (begin_script (conn_of s'))) as [[msg|]|]; [|by eauto..].
    case_match; [by eauto|].
    edestruct (IH (S attempt)) as (bs&sl&Hor); [..|exists bs, sl; exact Hor]; [done|lia].
Qed.

(** ** The transaction block *)

(** In an open transaction [transaction] is a savepoint: atomic, and invisible
    outside. *)
Lemma transaction_nested {A} (m : SE store exn A) f s :
  runs_as m f → ready s → depth s ≠ 0 →
  transaction m s =
    (upd (atomic (f (fts5_active s)) (view s)).1 s, (atomic (f (fts5_active s)) (view s)).2).
Proof.
  intros Hm Hs Hd. destruct s as [[c [[w sp]|] bs cs] n b sl]; simpl in *;
    [|by destruct Hs as (_&[Ht _]&_); specialize (Ht eq_refl)].
  destruct Hs as (Hn&_&_). simpl in Hn.
  unfold transaction, bind, gets, modify, try_finally, try_catch, on_conn, atomic. simpl.
  rewrite bool_decide_eq_false_2 by done. cbn.
  rewrite Hm by (unfold ready; simpl; repeat split; (lia || done)). cbn.
  unfold view. cbn.
  destruct (f b w) as [w' [a|e]]; cbn; rewrite !bool_decide_eq_true_2 by done; cbn;
    unfold raise, ret, set_conn; cbn; rewrite ?bool_decide_eq_true_2 by done; cbn;
    unfold upd, set_depth, set_conn; cbn; repeat f_equal; lia.
Qed.

(** The outermost transaction, for any answers of the environment: either
    everything [m] does is committed, or an exception comes out and the
    committed database is the one before. *)
Lemma transaction_outer {A} (m : SE store exn A) f s :
  runs_as m f → depth s = 0 → txn (conn_of s) = None →
  ∃ bs cs sl r, transaction m s =
    (Store (Conn (match r with Ok _ => (f (fts5_active s) (view s)).1 | Raise _ => view s end)
       None bs cs) 0 (fts5_active s) sl, r) ∧
  match r with
  | Ok a => (f (fts5_active s) (view s)).2 = Ok a
  | Raise e =>
      (f (fts5_active s) (view s)).2 = Raise e ∨
      ∃ msg, e = OperationalError msg ∧
        ((∃ s', begin_immediate_with_retry s = (s', Raise e)) ∨
         head (commit_script (conn_of s)) = Some (Some msg))
  end.
Proof.
  intros Hm Hd Ht. unfold transaction. unfold bind at 1. cbn.
  rewrite bool_decide_eq_true_2 by done. unfold bind at 1.
  destruct (begin_retry_cases s Ht) as (bs&sl&[Hbeg|[msg Hbeg]]); rewrite Hbeg; cbn.
  2: { exists bs, (commit_script (conn_of s)), sl, (Raise (OperationalError msg)).
       split; [|by eauto 10]. unfold not_begun, view, current. by rewrite Hd, Ht. }
  destruct s as [[c t bs0 cs] n b sl0]; simpl in *; subst t n.
  unfold bind, try_finally, try_catch, on_conn, modify. cbn.
  rewrite Hm by (unfold ready; cbn; repeat split; (lia || done)).
  unfold view. cbn. destruct (f b c) as [w [a|e]]; cbn.
  - destruct (head cs) as [[msg|]|] eqn:Hcs; cbn.
    + exists bs, (tail cs), sl, (Raise (OperationalError msg)). split; [done|]. by eauto 10.
    + exists bs, (tail cs), sl, (Ok a). done.
    + exists bs, (tail cs), sl, (Ok a). done.
  - exists bs, cs, sl, (Raise e). split; [done|]. by left.
Qed.

Lemma begin_retry_now s :
  txn (conn_of s) = None → begin_script (conn_of s) = [] →
  begin_immediate_with_retry s = (begun [] (slept s) s, Ok tt).
Proof.
  intros Ht Hb. rewrite (begin_retry_success s [] []); [|done| |by constructor| |by right].
  - simpl. by rewrite app_nil_r.
  - by rewrite Hb.
  - apply Nat.le_0_l.
Qed.

Lemma runs_as_transaction {A} (m : SE store exn A) f :
  runs_as m f → runs_as (transaction m) (λ b, atomic (f b)).
Proof.
  intros Hm s Hs. destruct (decide (depth s = 0)) as [Hd|Hd]; [|by apply transaction_nested].
  destruct s as [[c t bs cs] n b sl]; simpl in *. destruct Hs as (_&[_ Ht]&Hsc).
  simpl in *. specialize (Ht Hd). destruct (Hsc Hd) as [-> ->]. subst.
  unfold transaction, atomic, bind, try_finally, try_catch, on_conn, modify, gets. cbn.
  rewrite begin_retry_now by done. cbn.
  rewrite Hm by (unfold ready; cbn; repeat split; (lia || done)).
  unfold view, begun. cbn. by destruct (f b c) as [w [a|e]].
Qed.

Lemma runs_as_if {A} (c : bool) (m1 m2 : SE store exn A) f1 f2 :
  runs_as m1 f1 → runs_as m2 f2 →
  runs_as (if c then m1 else m2) (λ b, if c then f1 b else f2 b).
Proof. by destruct c. Qed.
Lemma runs_as_option {A X} (o : option X) (m1 : X → SE store exn A) (m2 : SE store exn A) f1 f2 :
  (∀ x, runs_as (m1 x) (f1 x)) → runs_as m2 f2 →
  runs_as (match o with Some x => m1 x | None => m2 end)
    (λ b, match o with Some x => f1 x b | None => f2 b end).
Proof. by destruct o. Qed.

Create HintDb runs_as.
#[export] Hint Resolve runs_as_ret runs_as_raise runs_as_lift runs_as_query runs_as_execute
  runs_as_execute_count runs_as_commit_if_needed runs_as_bind runs_as_try
  runs_as_if runs_as_option   runs_as_transaction : runs_as.

(** Prove [runs_as m f] by computing what [m] does from its parts and comparing
    the result with [f] on every database. *)
Ltac runs_as_step :=
  match goal with
  | |- runs_as (transaction _) _ => eapply runs_as_transaction
  | |- runs_as commit_if_needed _ => apply runs_as_commit_if_needed
  | |- runs_as (ret _) _ => apply runs_as_ret
  | |- runs_as (raise _) _ => apply runs_as_raise
  | |- runs_as (lift_result _) _ => apply runs_as_lift
  | |- runs_as (query _) _ => apply runs_as_query
  | |- runs_as (execute _) _ => apply runs_as_execute
  | |- runs_as (execute_count _) _ => apply runs_as_execute_count
  | |- runs_as (bind _ _) _ => eapply runs_as_bind; [|intros ?]
  | |- runs_as (try_catch _ _) _ => eapply runs_as_try; [|intros ?]
  | |- runs_as (if _ then _ else _) _ => eapply runs_as_if
  | |- runs_as (match ?o with Some _ => _ | None => _ end) _ => eapply runs_as_option; [intros ?|]
  end.
Ltac runs_as_compute := eapply runs_as_ext; [repeat runs_as_step|let b := fresh "b" in let d := fresh "d" in intros b d].
#[global] Arguments upd : simpl never.
#[global] Arguments commit_if_needed : simpl never.
