(* ===== verification/Port.v ===== *)
(** * The storage port

    [memory_store_port.py] and [storage_port.py]: what the store promises its
    clients.  [Spec] gives each operation as a function of the database; the
    class [MemoryStorePort] is an implementation together with the laws that
    it behaves so.  [SqliteStore] is one instance (the refinement theorem of
    the store), the database itself the other. *)

From S2P Require Import Prelude PyStr Sha256 Domain Sql Store Transactions.
Local Open Scope Z_scope.
Local Open Scope prog_scope.

Module Spec.
Section spec.
Context `{FTS5}.

Definition add_project (p : Project) : SE db exn unit := λ d,
  match iso_column (project_created_at p) with
  | Raise e => (d, Raise e)
  | Ok t =>
      match projects d !! project_key p with
      | Some _ => (d, Raise (unique_failed "projects.id"))
      | None => (set_projects (<[project_key p := ProjectRow (name p) (metadata p) t]> (projects d)) d, Ok tt)
      end
  end.

Definition list_projects (name_contains : option string) : SE db exn (list Project) :=
  gets (λ d, map row_to_project (select_projects (λ r,
    match name_contains with
    | Some n =>
        like_match LIKE_ESCAPE (chars ("%" +:+ escape_like n +:+ "%")%string) (chars (p_name r))
    | None => true
    end) d)).

Definition get_project (k : string) : SE db exn (option Project) :=
  gets (λ d, (λ r, row_to_project (k, r)) <$> projects d !! k).

(** The memories of a project, and the project, in one step. *)
Definition delete_project (k : string) : SE db exn nat := λ d,
  match projects d !! k with
  | None => (d, Raise (NotFoundError PROJECT_NOT_FOUND))
  | Some _ =>
      let (d', n) := delete_memories (λ _ r, in_project k r) d in
      (set_projects (delete k (projects d')) d', Ok n)
  end.

Definition update_project (k : string) (name : option string)
    (metadata : option (list (string * json))) : SE db exn Project := λ d,
  match name, metadata with
  | None, None => (d, Raise ValueError)
  | _, _ =>
      match projects d !! k with
      | None => (d, Raise (NotFoundError PROJECT_NOT_FOUND))
      | Some r =>
          let r' := ProjectRow (default (p_name r) name) (default (p_metadata r) metadata) (p_created_at r) in
          (set_projects (<[k := r']> (projects d)) d, Ok (row_to_project (k, r')))
      end
  end.

Definition item_row (item : MemoryItem) : result exn memory_row :=
  let? created := iso_column (created_at item) in
  let? updated := match updated_at item with
    | Some u => let? t := iso_column u in Ok (Some t)
    | None => Ok None
    end in
  Ok (MemoryRow (content item) (tags item) created (pinned item) (project_id item) (source item) updated).

Definition add_memory (item : MemoryItem) : SE db exn unit := λ d,
  match item_row item with
  | Raise e => (d, Raise e)
  | Ok r =>
      if bool_decide (is_Some (memories d !! id item)) then (d, Raise (unique_failed "memory_items.id"))
      else if fk_project_ok (project_id item) d
      then (set_memories (<[id item := r]> (memories d)) (set_fts (fts_ai (id item) r <$> fts d) d), Ok tt)
      else (d, Raise (NotFoundError PROJECT_NOT_FOUND))
  end.

Definition get_memory (k : string) : SE db exn (option MemoryItem) :=
  gets (λ d, (λ r, row_to_memory_item (k, r)) <$> memories d !! k).

Definition list_where (pinned_only : bool) (project_id : option string)
    (tags exclude_tags : option (list string)) (r : memory_row) : bool :=
  (negb pinned_only || r_pinned r)
  && match project_id with Some p => in_project p r | None => true end
  && tags_clause tags r && exclude_tags_clause exclude_tags r.

Definition list_memory (limit : option Z) (pinned_only : bool) (offset : Z)
    (project_id : option string) (tags exclude_tags : option (list string)) (order_by : OrderBy)
    : SE db exn (list MemoryItem) :=
  match order_by with
  | order_by_other _ => raise ValueError
  | _ => gets (λ d,
      let leb := match order_by with by_created_at => newest_leb | _ => pinned_first_leb end in
      let rows := drop (Z.to_nat offset)
        (select_memories (λ _, list_where pinned_only project_id tags exclude_tags) leb d) in
      map row_to_memory_item (sql_limit (default (-1) limit) rows))
  end.

Definition count_memory (project_id : option string) : SE db exn Z :=
  gets (λ d, Z.of_nat (size (filter (λ kr : string * memory_row,
    match project_id with Some p => in_project p kr.2 | None => true end = true) (memories d)))).

Definition list_memory_by_source (src : string) (project_id : option string) : SE db exn (list MemoryItem) :=
  gets (λ d, map row_to_memory_item (select_memories (λ _ r,
    bool_decide (r_source r = src)
    && match project_id with Some p => in_project p r | None => true end) newest_leb d)).

(** Update one row, which must exist. *)
Definition update_row (k : string) (f : memory_row → memory_row) : SE db exn memory_row := λ d,
  match memories d !! k with
  | None => (d, Raise (NotFoundError MEMORY_NOT_FOUND))
  | Some r => ((update_memory_row k f d).1, Ok (f r))
  end.

Definition set_pinned (k : string) (b : bool) : SE db exn unit :=
  let* _ := update_row k (with_pinned b) in ret tt.

Definition update_memory (now : Z) (k : string) (content : option string) (tags : option (list string))
    : SE db exn (option MemoryItem) :=
  let* r := update_row k (with_update now content tags) in
  ret (Some (row_to_memory_item (k, r))).

Definition delete_memory (k : string) : SE db exn unit := λ d,
  if bool_decide (is_Some (memories d !! k))
  then ((delete_memories (λ k' _, bool_decide (k' = k)) d).1, Ok tt)
  else (d, Raise (NotFoundError MEMORY_NOT_FOUND)).

(** Publish a vector only for the content it was made from. *)
Definition save_embedding (now : Z) (k : string) (embedding : list spec_float)
    (model provider content_hash : string) (model_revision : option string)
    (settings_fingerprint status : string) : SE db exn bool := λ d,
  match memories d !! k with
  | None => (d, Ok false)
  | Some r =>
      if bool_decide (hash_content (r_content r) = content_hash) then
        match pack_floats embedding with
        | Raise e => (d, Raise e)
        | Ok blob =>
            (set_embeddings (<[k := EmbeddingRow blob model (Z.of_nat (length embedding)) now provider
               content_hash model_revision settings_fingerprint status]> (embeddings d)) d, Ok true)
        end
      else (d, Ok false)
  end.

Definition list_embeddings (memory_ids : option (list string)) (model provider : option string)
    (dimensions : option Z) (settings_fingerprint model_revision : option string)
    (match_revision : bool) : SE db exn (list (string * list spec_float)) :=
  gets (λ d, map (λ kr, (kr.1, unpack_embedding (e_embedding kr.2)))
    (filter (λ kr : string * embedding_row,
      bool_decide (e_status kr.2 = "ok")
      && match memory_ids with Some l => bool_decide (kr.1 ∈ l) | None => true end
      && match model with Some m => bool_decide (e_model kr.2 = m) | None => true end
      && match provider with Some p => bool_decide (e_provider kr.2 = p) | None => true end
      && match dimensions with Some n => e_dimensions kr.2 =? n | None => true end
      && match settings_fingerprint with
         | Some f => bool_decide (e_settings_fingerprint kr.2 = f) | None => true end
      && (negb match_revision || bool_decide (e_model_revision kr.2 = model_revision)) = true)
      (map_to_list (embeddings d)))).

Definition count_embeddings (status : option string) : SE db exn Z :=
  gets (count_where (λ r, match status with Some s => bool_decide (e_status r = s) | None => true end)).

Definition count_unembeddable_embeddings (provider model settings_fingerprint : string)
    (model_revision : option string) (match_revision : bool) : SE db exn Z :=
  gets (count_joined (λ m r,
    bool_decide (e_status r = "content_too_long")
    && in_space provider model settings_fingerprint model_revision match_revision r
    && bool_decide (hash_content (r_content m) = e_content_hash r))).

Definition stale_embedding_counts (provider model settings_fingerprint : string)
    (model_revision : option string) (match_revision : bool) : SE db exn (Z * Z) :=
  gets (λ d,
    (count_where (λ r,
       negb (in_space provider model settings_fingerprint model_revision match_revision r)) d,
     count_joined (λ m r,
       in_space provider model settings_fingerprint model_revision match_revision r
       && bool_decide (hash_content (r_content m) ≠ e_content_hash r)) d)).

Definition delete_embedding (k : string) : SE db exn unit := λ d, (delete_embedding_row k d, Ok tt).

Definition get_embedding_identity (k : string) : SE db exn (option Identity) :=
  gets (λ d, (λ r, mkIdentity (e_provider r) (e_model r) (e_dimensions r) (e_content_hash r)
    (e_model_revision r) (e_settings_fingerprint r) (e_status r)) <$> embeddings d !! k).

(** The rows a search may return, best first. *)
Definition fts5_search (text : string) (limit : Z) (project_id : option string)
    (tags : option (list string)) (phrase : bool) (mode : PinnedMode) (d : db) : list MemoryItem :=
  let escaped := fts5_escape text phrase in
  if bool_decide (escaped = "") then []
  else
    let ix := default ∅ (fts d) in
    map row_to_memory_item (sql_limit limit (select_memories (λ k r,
      match ix !! k with Some doc => fts_match escaped doc | None => false end
      && (pinned_clauses mode project_id).1 r && (pinned_clauses mode project_id).2 r
      && tags_clause tags r) (rank_leb (fts_rank escaped ix)) d)).

Definition fallback_window (project_id : option string) (tags : option (list string))
    (mode : PinnedMode) (d : db) : list MemoryItem :=
  map row_to_memory_item (sql_limit MEMORY_SEARCH_LIMIT (select_memories (λ _ r,
    (pinned_clauses mode project_id).1 r && (pinned_clauses mode project_id).2 r
    && tags_clause tags r) newest_leb d)).

Definition fallback_search (text : string) (limit : Z) (project_id : option string)
    (tags : option (list string)) (phrase : bool) (mode : PinnedMode) (d : db) : list MemoryItem :=
  let items := fallback_window project_id tags mode d in
  if phrase then
    let needle := str_casefold (py_join " " (py_split text)) in
    if bool_decide (needle = "") then []
    else py_slice 0 limit (filter (λ i,
      contains needle (str_casefold (py_join " " (py_split (content i)))) = true) items)
  else
    py_slice 0 limit (sort_by (λ x y,
      negb (score_ltb (fallback_score (normalize_tokens text) x)
                      (fallback_score (normalize_tokens text) y))) items).

Definition ranked (active : bool) (text : string) (limit : Z) (project_id : option string)
    (tags : option (list string)) (phrase : bool) (mode : PinnedMode) (d : db) : list MemoryItem :=
  if active then fts5_search text limit project_id tags phrase mode d
  else fallback_search text limit project_id tags phrase mode d.

Definition search_pinned (active : bool) (text : string) (limit : Z) (project_id : option string)
    (tags : option (list string)) (phrase : bool) : SE db exn (list MemoryItem) :=
  gets (λ d, if limit <=? 0 then []
    else py_slice 0 limit (ranked active text limit project_id tags phrase only d)).

Definition eligible_memory_ids (project_id : option string) (tags : option (list string))
    : SE db exn (gset string) :=
  gets (λ d, dom (filter (λ kr : string * memory_row,
    (pinned_clauses include project_id).2 kr.2 && tags_clause tags kr.2 = true) (memories d))).

Definition search_memory (active : bool) (text : string) (top_k : Z) (project_id : option string)
    (include_pinned : bool) (tags : option (list string)) (offset : Z) (phrase : bool)
    (exclude_ids : gset string) : SE db exn (list MemoryItem) :=
  gets (λ d, py_slice offset (offset + top_k) (filter (λ i, id i ∉ exclude_ids)
    (ranked active text (top_k + offset + Z.of_nat (size exclude_ids)) project_id tags phrase
      (if include_pinned then include else exclude) d))).
End spec.
End Spec.

(** ** The store refines the specification *)

Ltac db_unfold :=
  unfold bind, try_catch, ret, raise, gets, lift_result, stmt, stmt_count, atomic; simpl.

Lemma refine_add_project p : runs_as (add_project p) (λ _, Spec.add_project p).
Proof.
  unfold add_project. runs_as_compute. unfold Spec.add_project, insert_project. db_unfold.
  destruct (iso_column _); simpl; [|done]. by destruct (projects _ !! _).
Qed.

Lemma refine_list_projects n : runs_as (list_projects n) (λ _, Spec.list_projects n).
Proof. unfold list_projects. by runs_as_compute. Qed.

Lemma refine_get_project k : runs_as (get_project k) (λ _, Spec.get_project k).
Proof. unfold get_project. by runs_as_compute. Qed.

Lemma delete_memories_projects p d : projects (delete_memories p d).1 = projects d.
Proof. done. Qed.

Lemma delete_project_row_after k d :
  delete_project_row k (delete_memories (λ _ r, in_project k r) d).1 =
  Ok (set_projects (delete k (projects d)) (delete_memories (λ _ r, in_project k r) d).1).
Proof.
  unfold delete_project_row. rewrite bool_decide_eq_true_2; [done|].
  intros k' r Hr. rewrite delete_memories_lookup in Hr. unfold in_project in Hr.
  destruct (memories d !! k') as [r'|]; [|done]. case_bool_decide; naive_solver.
Qed.

Lemma refine_delete_project k : runs_as (delete_project k) (λ _, Spec.delete_project k).
Proof.
  unfold delete_project. runs_as_compute. unfold Spec.delete_project. db_unfold.
  destruct (projects _ !! k) eqn:Hk; [|done]. simpl.
  pose proof (delete_project_row_after k d) as Hd. simpl in Hd. rewrite Hd. done.
Qed.

Lemma refine_update_project k n m : runs_as (update_project k n m) (λ _, Spec.update_project k n m).
Proof.
  unfold update_project, get_project. destruct n as [n|], m as [m|]; [..|apply runs_as_raise];
    (runs_as_compute; unfold Spec.update_project, update_project_row; db_unfold;
     destruct (projects _ !! k) eqn:Hk; simpl; [by rewrite lookup_insert_eq|done]).
Qed.

Lemma refine_add_memory item : runs_as (add_memory item) (λ _, Spec.add_memory item).
Proof.
  unfold add_memory.
  eapply runs_as_ext.
  { eapply runs_as_bind; [|intros ?; apply runs_as_commit_if_needed].
    eapply runs_as_try; [repeat runs_as_step|].
    intros e. instantiate (1 := λ e _, match e with
      | IntegrityError msg =>
          if contains "FOREIGN KEY" (str_upper msg) then raise (NotFoundError PROJECT_NOT_FOUND) else raise e
      | _ => raise e end). simpl.
    destruct e; try apply runs_as_raise. case_match; apply runs_as_raise. }
  intros b d. unfold Spec.add_memory, Spec.item_row, insert_memory. db_unfold.
  assert (∀ d0 e, iso_column d0 = Raise e → e = ValidationError INVALID_ARGUMENT) as Hiso.
  { intros d0 e. unfold iso_column, require_utc. repeat case_match; naive_solver. }
  destruct (iso_column (created_at item)) as [t|e] eqn:Ht; simpl; [|by apply Hiso in Ht as ->].
  destruct (updated_at item) as [u|]; simpl;
    [destruct (iso_column u) as [t'|e] eqn:Ht'; simpl; [|by apply Hiso in Ht' as ->]|].
  all: destruct (memories d !! id item) eqn:Hid; [done|].
  all: by destruct (fk_project_ok _ _).
Qed.

Lemma refine_get_memory k : runs_as (get_memory k) (λ _, Spec.get_memory k).
Proof. unfold get_memory. by runs_as_compute. Qed.

Lemma refine_list_memory l p o pid ts xs ob :
  runs_as (list_memory l p o pid ts xs ob) (λ _, Spec.list_memory l p o pid ts xs ob).
Proof.
  unfold list_memory, Spec.list_memory.
  destruct ob as [| |s]; [..|apply runs_as_raise].
  all: runs_as_compute; unfold gets, bind, ret; simpl; repeat f_equal.
  all: assert (∀ rows : list (string * memory_row),
      (if 0 <? o then drop (Z.to_nat o) rows else rows) = drop (Z.to_nat o) rows) as Hdrop
    by (intros rows; destruct (Z.ltb_spec 0 o); [done|]; by rewrite Z2Nat.nonpos).
  all: unfold Spec.list_where; rewrite Hdrop; by destruct l.
Qed.

Lemma refine_count_memory p : runs_as (count_memory p) (λ _, Spec.count_memory p).
Proof. unfold count_memory. by runs_as_compute. Qed.

Lemma refine_list_memory_by_source s p :
  runs_as (list_memory_by_source s p) (λ _, Spec.list_memory_by_source s p).
Proof. unfold list_memory_by_source. by runs_as_compute. Qed.

Lemma refine_set_pinned k b : runs_as (set_pinned k b) (λ _, Spec.set_pinned k b).
Proof.
  unfold set_pinned. runs_as_compute. unfold Spec.set_pinned, Spec.update_row, update_memory_row.
  db_unfold. by destruct (memories _ !! k).
Qed.

Lemma refine_update_memory now k c ts :
  runs_as (update_memory now k c ts) (λ _, Spec.update_memory now k c ts).
Proof.
  unfold update_memory, get_memory. runs_as_compute.
  unfold Spec.update_memory, Spec.update_row, update_memory_row. db_unfold.
  destruct (memories _ !! k); simpl; [by rewrite lookup_insert_eq|done].
Qed.

Lemma delete_one_count k d :
  (delete_memories (λ k' _, bool_decide (k' = k)) d).2 =
  if bool_decide (is_Some (memories d !! k)) then 1%nat else 0%nat.
Proof.
  simpl. case_bool_decide as Hk.
  - destruct Hk as [r Hk].
    enough (filter (λ kr : string * memory_row, bool_decide (kr.1 = k) = true) (memories d) = {[k := r]})
      as -> by (by rewrite map_size_singleton).
    apply map_eq. intros i. destruct (decide (i = k)) as [->|Hne].
    + rewrite lookup_singleton_eq. apply map_lookup_filter_Some. by rewrite bool_decide_eq_true_2.
    + rewrite lookup_singleton_ne by done. apply map_lookup_filter_None. right.
      intros x _. simpl. by rewrite bool_decide_eq_false_2.
  - apply map_size_empty_iff, map_empty. intros i. apply map_lookup_filter_None.
    destruct (decide (i = k)) as [->|Hne]; [left|right].
    + destruct (memories d !! k) eqn:?; [|done]. by destruct Hk; eexists.
    + intros x _. simpl. by rewrite bool_decide_eq_false_2.
Qed.

Lemma refine_delete_memory k : runs_as (delete_memory k) (λ _, Spec.delete_memory k).
Proof.
  unfold delete_memory. runs_as_compute. unfold Spec.delete_memory.
  unfold atomic, stmt_count, bind. rewrite delete_one_count. by case_bool_decide.
Qed.

Lemma refine_save_embedding now k e m p h rv f st :
  runs_as (save_embedding now k e m p h rv f st) (λ _, Spec.save_embedding now k e m p h rv f st).
Proof.
  unfold save_embedding. runs_as_compute. unfold Spec.save_embedding, upsert_embedding. db_unfold.
  destruct (memories _ !! k) eqn:Hk; simpl; [|done].
  destruct (decide (hash_content (r_content m0) = h)).
  - rewrite bool_decide_eq_false_2 by naive_solver. rewrite bool_decide_eq_true_2 by done.
    db_unfold. destruct (pack_floats e); simpl; [|done]. by rewrite Hk.
  - rewrite bool_decide_eq_true_2 by done. by rewrite bool_decide_eq_false_2.
Qed.

Lemma refine_list_embeddings ids m p dim f rv mr :
  runs_as (list_embeddings ids m p dim f rv mr) (λ _, Spec.list_embeddings ids m p dim f rv mr).
Proof. unfold list_embeddings. by runs_as_compute. Qed.

Lemma refine_count_embeddings st : runs_as (count_embeddings st) (λ _, Spec.count_embeddings st).
Proof. unfold count_embeddings. by runs_as_compute. Qed.

Lemma refine_count_unembeddable p m f rv mr :
  runs_as (count_unembeddable_embeddings p m f rv mr)
    (λ _, Spec.count_unembeddable_embeddings p m f rv mr).
Proof. unfold count_unembeddable_embeddings. by runs_as_compute. Qed.

Lemma out_of_space p m f rv (mr : bool) r :
  bool_decide (e_provider r ≠ p) || bool_decide (e_model r ≠ m)
    || bool_decide (e_settings_fingerprint r ≠ f) || (mr && bool_decide (e_model_revision r ≠ rv)) =
  negb (in_space p m f rv mr r).
Proof.
  unfold in_space. rewrite !negb_andb, negb_orb, negb_involutive. by rewrite !bool_decide_not.
Qed.

Lemma count_where_ext (p q : embedding_row → bool) d :
  (∀ r, p r = q r) → count_where p d = count_where q d.
Proof.
  intros H. unfold count_where. do 2 f_equal. apply map_filter_ext. intros k r _. simpl. by rewrite H.
Qed.

Lemma refine_stale p m f rv mr :
  runs_as (stale_embedding_counts p m f rv mr) (λ _, Spec.stale_embedding_counts p m f rv mr).
Proof.
  unfold stale_embedding_counts. runs_as_compute. unfold Spec.stale_embedding_counts.
  db_unfold. do 3 f_equal. apply count_where_ext. intros r. apply out_of_space.
Qed.

Lemma refine_delete_embedding k : runs_as (delete_embedding k) (λ _, Spec.delete_embedding k).
Proof. unfold delete_embedding. by runs_as_compute. Qed.

Lemma refine_get_embedding_identity k :
  runs_as (get_embedding_identity k) (λ _, Spec.get_embedding_identity k).
Proof. unfold get_embedding_identity. by runs_as_compute. Qed.

Section search_refinement.
Context `{FTS5}.

Lemma refine_ranked q l pid ts ph mode :
  runs_as (ranked_search q l pid ts ph mode) (λ b, gets (Spec.ranked b q l pid ts ph mode)).
Proof.
  unfold ranked_search, fts5_search_memory, fallback_search_memory.
  destruct (pinned_clauses mode pid) as [c1 c2] eqn:Hc. cbv zeta.
  eapply runs_as_ext.
  { apply runs_as_active. intros b. eapply runs_as_if.
    - repeat runs_as_step.
    - repeat runs_as_step. }
  intros b d. unfold Spec.ranked, Spec.fts5_search, Spec.fallback_search, Spec.fallback_window.
  rewrite Hc. db_unfold. by destruct b, ph; repeat case_match.
Qed.

Lemma refine_search_pinned q l pid ts ph :
  runs_as (search_pinned q l pid ts ph) (λ b, Spec.search_pinned b q l pid ts ph).
Proof.
  unfold search_pinned. eapply runs_as_ext.
  { eapply runs_as_if; [apply runs_as_ret|]. eapply runs_as_bind; [apply refine_ranked|].
    intros. apply runs_as_ret. }
  intros b d. unfold Spec.search_pinned. db_unfold. by case_match.
Qed.

Lemma refine_eligible pid ts :
  runs_as (eligible_memory_ids pid ts) (λ _, Spec.eligible_memory_ids pid ts).
Proof.
  unfold eligible_memory_ids, Spec.eligible_memory_ids.
  destruct (pinned_clauses include pid) as [c1 c2]. by runs_as_compute.
Qed.

Lemma refine_search_memory q k pid ip ts o ph ex :
  runs_as (search_memory q k pid ip ts o ph ex) (λ b, Spec.search_memory b q k pid ip ts o ph ex).
Proof.
  unfold search_memory. eapply runs_as_ext.
  { eapply runs_as_bind; [apply refine_ranked|]. intros. apply runs_as_ret. }
  intros b d. done.
Qed.
End search_refinement.

(** ** The interface *)

(** [m] does to the database what [f] does, and keeps the store usable. *)
Definition implements {S A} (view : S → db) (on : S → bool) (ok : S → Prop)
    (m : SE S exn A) (f : bool → SE db exn A) : Prop :=
  ∀ s, ok s →
    ok (m s).1 ∧ on (m s).1 = on s ∧
    view (m s).1 = (f (on s) (view s)).1 ∧ (m s).2 = (f (on s) (view s)).2.

(** [memory_store_port.py:14-373 MemoryStorePort] The operations, and the
    contract of each. *)
Class MemoryStorePort `{FTS5} (S : Type) := {
  st_view : S → db;
  st_fts : S → bool;
  st_ok : S → Prop;
  st_transaction {A} : SE S exn A → SE S exn A;
  st_add_project : Project → SE S exn unit;
  st_list_projects : option string → SE S exn (list Project);
  st_get_project : string → SE S exn (option Project);
  st_delete_project : string → SE S exn nat;
  st_update_project : string → option string → option (list (string * json)) → SE S exn Project;
  st_add_memory : MemoryItem → SE S exn unit;
  st_get_memory : string → SE S exn (option MemoryItem);
  st_list_memory : option Z → bool → Z → option string → option (list string) → option (list string) →
    OrderBy → SE S exn (list MemoryItem);
  st_count_memory : option string → SE S exn Z;
  st_list_memory_by_source : string → option string → SE S exn (list MemoryItem);
  st_set_pinned : string → bool → SE S exn unit;
  st_update_memory : Z → string → option string → option (list string) → SE S exn (option MemoryItem);
  st_delete_memory : string → SE S exn unit;
  st_save_embedding : Z → string → list spec_float → string → string → string → option string → string →
    string → SE S exn bool;
  st_list_embeddings : option (list string) → option string → option string → option Z → option string →
    option string → bool → SE S exn (list (string * list spec_float));
  st_count_embeddings : option string → SE S exn Z;
  st_count_unembeddable : string → string → string → option string → bool → SE S exn Z;
  st_stale_counts : string → string → string → option string → bool → SE S exn (Z * Z);
  st_delete_embedding : string → SE S exn unit;
  st_get_identity : string → SE S exn (option Identity);
  st_search_pinned : string → Z → option string → option (list string) → bool → SE S exn (list MemoryItem);
  st_eligible : option string → option (list string) → SE S exn (gset string);
  st_search_memory : string → Z → option string → bool → option (list string) → Z → bool → gset string →
    SE S exn (list MemoryItem);

  (** Which computations behave as which functions of the database ([bool]:
      is FTS5 active), closed under composition. *)
  st_runs {A} : SE S exn A → (bool → SE db exn A) → Prop;
  runs_sound {A} (m : SE S exn A) f : st_runs m f → implements st_view st_fts st_ok m f;
  runs_ret {A} (a : A) : st_runs (ret a) (λ _, ret a);
  runs_raise {A} e : st_runs (@raise S exn A e) (λ _, raise e);
  runs_lift {A} (r : result exn A) : st_runs (lift_result r) (λ _, lift_result r);
  runs_bind {A B} (m : SE S exn A) f (k : A → SE S exn B) g :
    st_runs m f → (∀ a, st_runs (k a) (g a)) →
    st_runs (bind m k) (λ b, bind (f b) (λ a, g a b));
  runs_try {A} (m : SE S exn A) f h g :
    st_runs m f → (∀ e, st_runs (h e) (g e)) →
    st_runs (try_catch m h) (λ b, try_catch (f b) (λ e, g e b));
  runs_ext {A} (m : SE S exn A) f g :
    st_runs m f → (∀ b d, f b d = g b d) → st_runs m g;
  runs_transaction {A} (m : SE S exn A) f :
    st_runs m f → st_runs (st_transaction m) (λ b, atomic (f b));

  law_add_project p : st_runs (st_add_project p) (λ _, Spec.add_project p);
  law_list_projects n : st_runs (st_list_projects n) (λ _, Spec.list_projects n);
  law_get_project k : st_runs (st_get_project k) (λ _, Spec.get_project k);
  law_delete_project k :
    st_runs (st_delete_project k) (λ _, Spec.delete_project k);
  law_update_project k n m :
    st_runs (st_update_project k n m) (λ _, Spec.update_project k n m);
  law_add_memory i : st_runs (st_add_memory i) (λ _, Spec.add_memory i);
  law_get_memory k : st_runs (st_get_memory k) (λ _, Spec.get_memory k);
  law_list_memory l p o pid ts xs ob :
    st_runs (st_list_memory l p o pid ts xs ob)
      (λ _, Spec.list_memory l p o pid ts xs ob);
  law_count_memory p : st_runs (st_count_memory p) (λ _, Spec.count_memory p);
  law_list_memory_by_source s p :
    st_runs (st_list_memory_by_source s p) (λ _, Spec.list_memory_by_source s p);
  law_set_pinned k b : st_runs (st_set_pinned k b) (λ _, Spec.set_pinned k b);
  law_update_memory now k c ts :
    st_runs (st_update_memory now k c ts) (λ _, Spec.update_memory now k c ts);
  law_delete_memory k : st_runs (st_delete_memory k) (λ _, Spec.delete_memory k);
  law_save_embedding now k e m p h rv f st :
    st_runs (st_save_embedding now k e m p h rv f st)
      (λ _, Spec.save_embedding now k e m p h rv f st);
  law_list_embeddings ids m p dim f rv mr :
    st_runs (st_list_embeddings ids m p dim f rv mr)
      (λ _, Spec.list_embeddings ids m p dim f rv mr);
  law_count_embeddings st :
    st_runs (st_count_embeddings st) (λ _, Spec.count_embeddings st);
  law_count_unembeddable p m f rv mr :
    st_runs (st_count_unembeddable p m f rv mr)
      (λ _, Spec.count_unembeddable_embeddings p m f rv mr);
  law_stale_counts p m f rv mr :
    st_runs (st_stale_counts p m f rv mr)
      (λ _, Spec.stale_embedding_counts p m f rv mr);
  law_delete_embedding k :
    st_runs (st_delete_embedding k) (λ _, Spec.delete_embedding k);
  law_get_identity k :
    st_runs (st_get_identity k) (λ _, Spec.get_embedding_identity k);
  law_search_pinned q l pid ts ph :
    st_runs (st_search_pinned q l pid ts ph)
      (λ b, Spec.search_pinned b q l pid ts ph);
  law_eligible pid ts :
    st_runs (st_eligible pid ts) (λ _, Spec.eligible_memory_ids pid ts);
  law_search_memory q k pid ip ts o ph ex :
    st_runs (st_search_memory q k pid ip ts o ph ex)
      (λ b, Spec.search_memory b q k pid ip ts o ph ex);
}.

(** The SQLite store implements the port whenever no transaction is left open
    and the environment lets transactions through. *)
Lemma runs_as_implements {A} (m : SE store exn A) f :
  runs_as m f → implements view fts5_active ready m f.
Proof.
  intros Hm s Hs. rewrite (Hm s Hs). simpl.
  split; [by apply ready_upd|]. by rewrite view_upd.
Qed.

#[export] Instance SqliteStore `{FTS5} : MemoryStorePort store := {
  st_view := view; st_fts := fts5_active; st_ok := ready; st_transaction := @transaction;
  st_add_project := add_project; st_list_projects := list_projects; st_get_project := get_project;
  st_delete_project := delete_project; st_update_project := update_project;
  st_add_memory := add_memory; st_get_memory := get_memory; st_list_memory := list_memory;
  st_count_memory := count_memory; st_list_memory_by_source := list_memory_by_source;
  st_set_pinned := set_pinned; st_update_memory := update_memory; st_delete_memory := delete_memory;
  st_save_embedding := save_embedding; st_list_embeddings := list_embeddings;
  st_count_embeddings := count_embeddings; st_count_unembeddable := count_unembeddable_embeddings;
  st_stale_counts := stale_embedding_counts; st_delete_embedding := delete_embedding;
  st_get_identity := get_embedding_identity; st_search_pinned := search_pinned;
  st_eligible := eligible_memory_ids; st_search_memory := search_memory;
  st_runs := @runs_as; runs_sound := @runs_as_implements;
  runs_ret := @runs_as_ret; runs_raise := @runs_as_raise; runs_lift := @runs_as_lift;
  runs_bind := @runs_as_bind; runs_try := @runs_as_try; runs_ext := @runs_as_ext;
  runs_transaction := @runs_as_transaction;
  law_add_project := refine_add_project; law_list_projects := refine_list_projects;
  law_get_project := refine_get_project; law_delete_project := refine_delete_project;
  law_update_project := refine_update_project; law_add_memory := refine_add_memory;
  law_get_memory := refine_get_memory; law_list_memory := refine_list_memory;
  law_count_memory := refine_count_memory; law_list_memory_by_source := refine_list_memory_by_source;
  law_set_pinned := refine_set_pinned; law_update_memory := refine_update_memory;
  law_delete_memory := refine_delete_memory; law_save_embedding := refine_save_embedding;
  law_list_embeddings := refine_list_embeddings; law_count_embeddings := refine_count_embeddings;
  law_count_unembeddable := refine_count_unembeddable; law_stale_counts := refine_stale;
  law_delete_embedding := refine_delete_embedding; law_get_identity := refine_get_embedding_identity;
  law_search_pinned := refine_search_pinned; law_eligible := refine_eligible;
  law_search_memory := refine_search_memory;
}.

(** ** Clients of the port *)
Section client.
Context {S : Type} `{HF : FTS5} `{!MemoryStorePort S}.

Lemma runs_if {A} (c : bool) (m1 m2 : SE S exn A) f1 f2 :
  st_runs m1 f1 → st_runs m2 f2 →
  st_runs (if c then m1 else m2) (λ b, if c then f1 b else f2 b).
Proof. by destruct c. Qed.
Lemma runs_option {A X} (o : option X) (m1 : X → SE S exn A) (m2 : SE S exn A) f1 f2 :
  (∀ x, st_runs (m1 x) (f1 x)) → st_runs m2 f2 →
  st_runs (match o with Some x => m1 x | None => m2 end)
    (λ b, match o with Some x => f1 x b | None => f2 b end).
Proof. by destruct o. Qed.
Lemma runs_map_m {A B} (k : A → SE S exn B) g l :
  (∀ a, st_runs (k a) (g a)) → st_runs (map_m k l) (λ b, map_m (λ a, g a b) l).
Proof.
  intros Hk. induction l as [|x l IH]; simpl; [apply runs_ret|].
  apply (runs_bind (k x) (g x) _ (λ y b, bind (map_m (λ a, g a b) l) (λ ys, ret (y :: ys)))); [done|].
  intros y. apply (runs_bind _ _ _ (λ ys _, ret (y :: ys))); [done|]. intros ys. apply runs_ret.
Qed.

(** One call of a port operation from a client with a larger state. *)
Lemma run_op {A} (m : SE S exn A) f s :
  st_runs m f → st_ok s →
  ∃ s', m s = (s', (f (st_fts s) (st_view s)).2) ∧ st_ok s' ∧ st_fts s' = st_fts s ∧
    st_view s' = (f (st_fts s) (st_view s)).1.
Proof.
  intros Hm Hs. destruct (runs_sound m f Hm s Hs) as (Hok&Hf&Hv&Hr).
  exists (m s).1. rewrite <- Hr. split; [by destruct (m s)|done].
Qed.
End client.

(** Every operation of the port keeps the database well-formed. *)
Definition keeps_wf {A} (f : SE db exn A) : Prop := ∀ d, wf d → wf (f d).1.
