(* ===== verification/StoreProps.v ===== *)
(** * Properties of the store

    Transactions, the write invariant, listing, publication of embeddings, and
    the scope of searches. *)

From S2P Require Import Prelude PyStr Sha256 Domain Sql Store Transactions Port.
Local Open Scope Z_scope.
Local Open Scope prog_scope.

(** ** Every operation keeps the database well-formed *)

Section keeps_wf.
Lemma keeps_wf_gets {A} (h : db → A) : keeps_wf (gets h).
Proof. by intros d Hd. Qed.

Lemma keeps_wf_atomic {A} (f : SE db exn A) : keeps_wf f → keeps_wf (atomic f).
Proof.
  intros Hf d Hd. unfold atomic. specialize (Hf d Hd). by destruct (f d) as [d' [a|e]].
Qed.

Lemma keeps_wf_bind {A B} (f : SE db exn A) (k : A → SE db exn B) :
  keeps_wf f → (∀ a, keeps_wf (k a)) → keeps_wf (bind f k).
Proof. apply (preserves_bind wf). Qed.

Lemma keeps_wf_add_project p : keeps_wf (Spec.add_project p).
Proof.
  intros d Hd. unfold Spec.add_project. destruct (iso_column _) as [t|]; [|done].
  destruct (projects d !! _) eqn:Hp; [done|]. simpl.
  eapply (wf_insert_project (project_key p)); [|done]. unfold insert_project. by rewrite Hp.
Qed.

Lemma keeps_wf_update_project k n m : keeps_wf (Spec.update_project k n m).
Proof.
  intros d Hd. unfold Spec.update_project.
  assert (∀ r', projects d !! k ≠ None →
    wf (set_projects (<[k := r']> (projects d)) d)) as Hset.
  { intros r' Hk. pose proof (wf_update_project k (λ _, r') d Hd) as Hw.
    unfold update_project_row in Hw. by destruct (projects d !! k). }
  destruct n, m; [..|done]; (destruct (projects d !! k) eqn:?; [by apply Hset|done]).
Qed.

Lemma keeps_wf_delete_project k : keeps_wf (Spec.delete_project k).
Proof.
  intros d Hd. unfold Spec.delete_project. destruct (projects d !! k); [|done].
  refine (wf_delete_project k _ _ (delete_project_row_after k d) _). by apply wf_delete_memories.
Qed.

Lemma item_row_time item r : Spec.item_row item = Ok r →
  0 ≤ r_created_at r < datetime_end ∧ r_project_id r = project_id item.
Proof.
  unfold Spec.item_row. destruct (iso_column (created_at item)) as [t|] eqn:Ht; [|done]. simpl.
  apply iso_column_ok in Ht as (?&?&?&?).
  destruct (updated_at item) as [u|]; simpl; [destruct (iso_column u); simpl|]; naive_solver.
Qed.

Lemma keeps_wf_add_memory i : keeps_wf (Spec.add_memory i).
Proof.
  intros d Hd. unfold Spec.add_memory. destruct (Spec.item_row i) as [r|] eqn:Hr; [|done].
  apply item_row_time in Hr as [Ht Hp].
  case_bool_decide as Hk; [done|]. destruct (fk_project_ok _ _) eqn:Hfk; [|done].
  eapply (wf_insert_memory (id i) r d); [|done|done].
  unfold insert_memory. rewrite Hp, Hfk. destruct (memories d !! id i); [|done].
  by destruct Hk; eexists.
Qed.

Lemma keeps_wf_update_row k f :
  (∀ r, r_project_id (f r) = r_project_id r ∧ r_created_at (f r) = r_created_at r) →
  keeps_wf (Spec.update_row k f).
Proof.
  intros Hf d Hd. unfold Spec.update_row. pose proof (wf_update_memory k f d Hf Hd) as Hw.
  by destruct (memories d !! k).
Qed.

Lemma keeps_wf_set_pinned k b : keeps_wf (Spec.set_pinned k b).
Proof. apply keeps_wf_bind; [by apply keeps_wf_update_row|by intros ? ?]. Qed.

Lemma keeps_wf_update_memory now k c ts : keeps_wf (Spec.update_memory now k c ts).
Proof. apply keeps_wf_bind; [by apply keeps_wf_update_row|by intros ? ?]. Qed.

Lemma keeps_wf_delete_memory k : keeps_wf (Spec.delete_memory k).
Proof.
  intros d Hd. unfold Spec.delete_memory. case_bool_decide; [|done]. by apply wf_delete_memories.
Qed.

Lemma pack_floats_length l bs : pack_floats l = Ok bs → length bs = length l.
Proof.
  revert bs. induction l as [|x l IH]; simpl; intros bs; [naive_solver|].
  destruct (round_f32 x); simpl; [|done]. destruct (pack_floats l); simpl; [|done].
  intros [= <-]. simpl. by rewrite IH.
Qed.

Lemma keeps_wf_save_embedding now k e m p h rv f st :
  keeps_wf (Spec.save_embedding now k e m p h rv f st).
Proof.
  intros d Hd. unfold Spec.save_embedding. destruct (memories d !! k) eqn:Hk; [|done].
  case_bool_decide; [|done]. destruct (pack_floats e) as [bs|] eqn:Hbs; [|done].
  eapply wf_upsert_embedding; [unfold upsert_embedding; by rewrite Hk| |done].
  simpl. by rewrite (pack_floats_length _ _ Hbs).
Qed.

Lemma keeps_wf_delete_embedding k : keeps_wf (Spec.delete_embedding k).
Proof. intros d Hd. by apply wf_delete_embedding. Qed.
End keeps_wf.

(** The calls that change state, with transactions around sequences of them. *)
Inductive call :=
| CAddProject (p : Project)
| CUpdateProject (k : string) (n : option string) (m : option (list (string * json)))
| CDeleteProject (k : string)
| CAddMemory (i : MemoryItem)
| CUpdateMemory (now : Z) (k : string) (c : option string) (ts : option (list string))
| CSetPinned (k : string) (b : bool)
| CDeleteMemory (k : string)
| CSaveEmbedding (now : Z) (k : string) (e : list spec_float) (m p h : string) (rv : option string)
    (f st : string)
| CDeleteEmbedding (k : string)
| CTransaction (l : list call).

(** A caller runs calls in order and stops at the first exception. *)
Definition void {S A} (m : SE S exn A) : SE S exn unit := bind m (λ _, ret tt).
Fixpoint run_call (c : call) : SE store exn unit :=
  match c with
  | CAddProject p => add_project p
  | CUpdateProject k n m => void (update_project k n m)
  | CDeleteProject k => void (delete_project k)
  | CAddMemory i => add_memory i
  | CUpdateMemory now k c ts => void (update_memory now k c ts)
  | CSetPinned k b => set_pinned k b
  | CDeleteMemory k => delete_memory k
  | CSaveEmbedding now k e m p h rv f st => void (save_embedding now k e m p h rv f st)
  | CDeleteEmbedding k => delete_embedding k
  | CTransaction l => transaction (foldr (λ c k, bind (run_call c) (λ _, k)) (ret tt) l)
  end.
(** Calls from a client that catches every exception and goes on. *)
Definition run_calls (l : list call) (s : store) : store := foldl (λ s c, (run_call c s).1) s l.

(** Every call behaves as some function of the database that keeps it
    well-formed. *)
Definition tame {A} (m : SE store exn A) : Prop :=
  ∃ f, runs_as m f ∧ ∀ b, keeps_wf (f b).

Lemma tame_spec {A} (m : SE store exn A) (f : SE db exn A) :
  runs_as m (λ _, f) → keeps_wf f → tame m.
Proof. intros Hm Hf. by exists (λ _, f). Qed.

Lemma tame_void {A} (m : SE store exn A) (f : SE db exn A) :
  runs_as m (λ _, f) → keeps_wf f → tame (void m).
Proof.
  intros Hm Hf. exists (λ _, void f). split.
  - apply (runs_as_bind _ (λ _, f) _ (λ _ _, ret tt)); [done|]. intros a. apply runs_as_ret.
  - intros b. apply keeps_wf_bind; [done|]. by intros a d.
Qed.

Lemma tame_then {A} (m : SE store exn unit) (k : SE store exn A) :
  tame m → tame k → tame (bind m (λ _, k)).
Proof.
  intros (f&Hm&Hf) (g&Hk&Hg). exists (λ b, bind (f b) (λ _, g b)). split.
  - by apply (runs_as_bind _ _ _ (λ _, g)).
  - intros b. by apply keeps_wf_bind.
Qed.

Lemma tame_transaction {A} (m : SE store exn A) : tame m → tame (transaction m).
Proof.
  intros (f&Hm&Hf). exists (λ b, atomic (f b)).
  split; [by apply runs_as_transaction|]. intros b. by apply keeps_wf_atomic.
Qed.

Create HintDb tame.
#[export] Hint Resolve refine_add_project refine_update_project refine_delete_project
  refine_add_memory refine_update_memory refine_set_pinned refine_delete_memory
  refine_save_embedding refine_delete_embedding
  keeps_wf_add_project keeps_wf_update_project keeps_wf_delete_project keeps_wf_add_memory
  keeps_wf_update_memory keeps_wf_set_pinned keeps_wf_delete_memory keeps_wf_save_embedding
  keeps_wf_delete_embedding : tame.

Lemma tame_call : ∀ c, tame (run_call c).
Proof.
  fix IH 1. intros [ | | | | | | | | |l]; simpl;
    try (eapply tame_spec; [solve [eauto with tame]|eauto with tame]);
    try (eapply tame_void; [solve [eauto with tame]|eauto with tame]).
  apply tame_transaction. induction l as [|c l IHl]; simpl.
  - exists (λ _, ret tt). split; [apply runs_as_ret|]. by intros b d Hd.
  - apply tame_then; [apply IH|apply IHl].
Qed.

Lemma tame_run_calls (l : list call) (s : store) :
  ready s → wf (view s) → ready (run_calls l s) ∧ wf (view (run_calls l s)).
Proof.
  revert s. induction l as [|c l IH]; intros s Hs Hw; [done|]. simpl. apply IH.
  - destruct (tame_call c) as (f&Hf&_). rewrite (Hf s Hs). by apply ready_upd.
  - destruct (tame_call c) as (f&Hf&Hk). rewrite (Hf s Hs). simpl. rewrite view_upd. by apply Hk.
Qed.

(** C3. Whatever sequence of write calls a client makes, nested transactions
    and failing calls included, the database stays well-formed: every memory's
    project exists, every embedding belongs to a memory and records its own
    length, timestamps are in range, and the FTS index, once it is in step with
    the rows, stays in step. *)
Theorem store_calls_keep_wf (l : list call) (s : store) :
  ready s → wf (view s) → ready (run_calls l s) ∧ wf (view (run_calls l s)).
Proof. apply tame_run_calls. Qed.

(** ** Transactions *)

(** C2. A transaction block is all or nothing, whatever the environment does to
    BEGIN and COMMIT: on return the connection is out of the transaction, a
    normal result means exactly the block's effect is committed, and an
    exception (the block's own, a BEGIN that never got the lock, a failed
    COMMIT) leaves the committed database as it was. *)
Theorem transaction_all_or_nothing {A} (m : SE store exn A) (f : bool → SE db exn A) (s : store) :
  runs_as m f → depth s = 0 → txn (conn_of s) = None →
  let '(s', r) := transaction m s in
  txn (conn_of s') = None ∧ depth s' = 0 ∧
  match r with
  | Ok a => f (fts5_active s) (committed (conn_of s)) = (committed (conn_of s'), Ok a)
  | Raise e =>
      committed (conn_of s') = committed (conn_of s) ∧
      ((f (fts5_active s) (committed (conn_of s))).2 = Raise e ∨ ∃ msg, e = OperationalError msg)
  end.
Proof.
  intros Hm Hd Ht. destruct (transaction_outer m f s Hm Hd Ht) as (bs&cs&sl&r&->&Hr).
  assert (view s = committed (conn_of s)) as Hv by (unfold view, current; by rewrite Ht).
  rewrite Hv in *. simpl. split; [done|]. split; [done|]. destruct r as [a|e].
  - rewrite <- Hr. by destruct (f _ _).
  - split; [done|]. destruct Hr as [Hr|(msg&->&_)]; eauto.
Qed.

Definition contended : store :=
  Store (Conn empty_db None [Some "database is locked"%string] [Some "disk I/O error"%string]) 0 true [].
Definition sample_project : Project := mkProject "p" "Notes" [] (utc 0).

Lemma transaction_all_or_nothing_witness :
  committed (conn_of (transaction (add_project sample_project) contended).1) = empty_db ∧
  slept (transaction (add_project sample_project) contended).1 = [500].
Proof.
  split; [|vm_compute; reflexivity].
  pose proof (transaction_all_or_nothing (add_project sample_project)
    (λ _, Spec.add_project sample_project) contended (refine_add_project _) eq_refl eq_refl) as H.
  change (transaction (add_project sample_project) contended) with
    ((transaction (add_project sample_project) contended).1,
     (transaction (add_project sample_project) contended).2) in H.
  destruct H as (_&_&H).
  change ((transaction (add_project sample_project) contended).2) with
    (@Raise exn unit (OperationalError "disk I/O error")) in H.
  exact (proj1 H).
Defined.

Definition retry_total (n : nat) : Z := foldr Z.add 0 (retry_delays 0 n).

(** BEGIN IMMEDIATE is attempted at most four times.  Lock errors within
    that budget are waited out after 500, 1000 and 2000 ms (3.5 s in all before
    jitter); the fourth lock error, or the first error of another kind, is
    raised with no further attempt and no transaction opened. *)
Theorem begin_retry_schedule (s : store) (msgs : list string) (rest : list (option string)) :
  txn (conn_of s) = None → begin_script (conn_of s) = map Some msgs ++ rest →
  Forall (λ m, is_locked m = true) msgs → (length msgs ≤ 3)%nat →
  retry_total (length msgs) ≤ 3500 ∧
  ((head rest = Some None ∨ rest = []) →
     begin_immediate_with_retry s =
       (begun (tail rest) (slept s ++ retry_delays 0 (length msgs)) s, Ok tt)) ∧
  (∀ msg rest', rest = Some msg :: rest' → is_locked msg = false ∨ length msgs = 3%nat →
     begin_immediate_with_retry s =
       (not_begun rest' (slept s ++ retry_delays 0 (length msgs)) s, Raise (OperationalError msg))).
Proof.
  intros Ht Hb Hl Hlen. split_and!.
  - destruct (length msgs) as [|[|[|[|]]]]; [vm_compute; congruence..|lia].
  - by apply begin_retry_success.
  - intros msg rest' ->. by apply begin_retry_error.
Qed.

Definition always_locked : store :=
  Store (Conn empty_db None (replicate 5 (Some "database is locked"%string)) []) 0 true [].

Lemma begin_retry_schedule_witness :
  begin_immediate_with_retry always_locked =
    (not_begun [Some "database is locked"%string] [500; 1000; 2000] always_locked,
     Raise (OperationalError "database is locked")).
Proof.
  apply (begin_retry_schedule always_locked (replicate 3 "database is locked"%string)
    (replicate 2 (Some "database is locked"%string)) eq_refl eq_refl
    ltac:(repeat constructor) (le_n 3)) with (1 := eq_refl).
  right. reflexivity.
Defined.

(** ** Listing *)

Lemma newest_leb_total x y : newest_leb x y = false → newest_leb y x = true.
Proof.
  unfold newest_leb. intros H. pose proof (str_leb_total x.1 y.1) as Ht.
  destruct (str_leb x.1 y.1), (str_leb y.1 x.1); destruct Ht; try done; lia.
Qed.
Lemma newest_leb_trans x y z : newest_leb x y = true → newest_leb y z = true → newest_leb x z = true.
Proof.
  unfold newest_leb. intros H1 H2. pose proof (str_leb_trans z.1 y.1 x.1).
  destruct (str_leb y.1 x.1), (str_leb z.1 y.1), (str_leb z.1 x.1); lia.
Qed.
Lemma newest_leb_id x y : newest_leb x y = true → newest_leb y x = true → x.1 = y.1.
Proof.
  unfold newest_leb. intros H1 H2.
  apply str_leb_antisym; destruct (str_leb x.1 y.1), (str_leb y.1 x.1); lia.
Qed.

Lemma pinned_first_leb_total x y : pinned_first_leb x y = false → pinned_first_leb y x = true.
Proof.
  unfold pinned_first_leb. pose proof (newest_leb_total x y).
  destruct (r_pinned x.2), (r_pinned y.2), (newest_leb x y); naive_solver.
Qed.
Lemma pinned_first_leb_trans x y z :
  pinned_first_leb x y = true → pinned_first_leb y z = true → pinned_first_leb x z = true.
Proof.
  unfold pinned_first_leb. pose proof (newest_leb_trans x y z).
  destruct (r_pinned x.2), (r_pinned y.2), (r_pinned z.2); simpl; naive_solver.
Qed.
Lemma pinned_first_leb_id x y : pinned_first_leb x y = true → pinned_first_leb y x = true → x.1 = y.1.
Proof.
  unfold pinned_first_leb. intros H1 H2. apply newest_leb_id;
    destruct (r_pinned x.2), (r_pinned y.2); naive_solver.
Qed.

Lemma select_memories_elem p leb d k r :
  (k, r) ∈ select_memories p leb d ↔ memories d !! k = Some r ∧ p k r = true.
Proof.
  unfold select_memories. rewrite elem_of_sort_by, list_elem_of_filter, elem_of_map_to_list. naive_solver.
Qed.

Lemma select_memories_NoDup p leb d : NoDup (select_memories p leb d).*1.
Proof.
  unfold select_memories. rewrite sort_by_perm. apply NoDup_fmap_fst.
  - intros k r1 r2 [_ H1]%list_elem_of_filter [_ H2]%list_elem_of_filter.
    apply elem_of_map_to_list in H1, H2. congruence.
  - apply NoDup_filter, NoDup_map_to_list.
Qed.

(** The one order of a selection: sorted, and any sorted arrangement of the
    same rows is the same list. *)
Definition list_leb (ob : OrderBy) : string * memory_row → string * memory_row → bool :=
  match ob with by_created_at => newest_leb | _ => pinned_first_leb end.

Lemma list_leb_total ob x y : list_leb ob x y = false → list_leb ob y x = true.
Proof. destruct ob; [apply pinned_first_leb_total|apply newest_leb_total|apply pinned_first_leb_total]. Qed.
Lemma list_leb_trans ob x y z : list_leb ob x y = true → list_leb ob y z = true → list_leb ob x z = true.
Proof. destruct ob; [apply pinned_first_leb_trans|apply newest_leb_trans|apply pinned_first_leb_trans]. Qed.
Lemma list_leb_id ob x y : list_leb ob x y = true → list_leb ob y x = true → x.1 = y.1.
Proof. destruct ob; [apply pinned_first_leb_id|apply newest_leb_id|apply pinned_first_leb_id]. Qed.

Lemma select_memories_unique p ob d rows :
  StronglySorted (λ a b, list_leb ob a b = true) rows →
  rows ≡ₚ select_memories p (list_leb ob) d → rows = select_memories p (list_leb ob) d.
Proof.
  intros Hs Hp. eapply StronglySorted_unique_on; [|exact Hs| |exact Hp].
  - intros [k1 r1] [k2 r2] H1 H2 Hle Hge. rewrite Hp in H1, H2.
    apply select_memories_elem in H1 as [H1 _], H2 as [H2 _].
    pose proof (list_leb_id ob _ _ Hle Hge) as Hk. simpl in Hk. congruence.
  - apply sort_by_strongly_sorted; [apply list_leb_total|apply list_leb_trans].
Qed.

(** The rows [list_memory] promises: every row that satisfies all the filters,
    once, in the requested order. *)
Definition listing (pinned_only : bool) (project_id : option string)
    (tags exclude_tags : option (list string)) (ob : OrderBy) (d : db)
    (rows : list (string * memory_row)) : Prop :=
  (∀ k r, (k, r) ∈ rows ↔ memories d !! k = Some r ∧
     (pinned_only = true → r_pinned r = true) ∧
     (∀ p, project_id = Some p → r_project_id r = Some p) ∧
     (∀ t, t ∈ default [] tags → t ∈ r_tags r) ∧
     (∀ t, t ∈ default [] exclude_tags → t ∉ r_tags r)) ∧
  NoDup rows.*1 ∧
  StronglySorted (λ a b, list_leb ob a b = true) rows.

Lemma tags_clause_spec ts r : tags_clause ts r = true ↔ ∀ t, t ∈ default [] ts → t ∈ r_tags r.
Proof.
  assert (∀ l, negb (existsb (λ req, negb (str_mem req (r_tags r))) l) = true ↔
    ∀ t, t ∈ l → t ∈ r_tags r) as Hl.
  { intros l. rewrite negb_true_iff, <- not_true_iff_false, existsb_exists. unfold str_mem.
    split.
    - intros H t Ht. destruct (decide (t ∈ r_tags r)); [done|]. destruct H. exists t.
      rewrite <- list_elem_of_In, bool_decide_eq_false_2; done.
    - intros H (t&Ht&Hb). apply list_elem_of_In, H in Ht. by rewrite bool_decide_eq_true_2 in Hb. }
  destruct ts as [[|t ts]|]; [|apply (Hl (t :: ts))|]; simpl; unfold no_clause; set_solver.
Qed.

Lemma exclude_tags_clause_spec ts r :
  exclude_tags_clause ts r = true ↔ ∀ t, t ∈ default [] ts → t ∉ r_tags r.
Proof.
  assert (∀ l, negb (existsb (λ own, str_mem own l) (r_tags r)) = true ↔
    ∀ t, t ∈ l → t ∉ r_tags r) as Hl.
  { intros l. rewrite negb_true_iff, <- not_true_iff_false, existsb_exists. unfold str_mem.
    split.
    - intros H t Ht Hr. apply H. exists t. by rewrite <- list_elem_of_In, bool_decide_eq_true_2.
    - intros H (t&Ht&Hb). apply bool_decide_eq_true in Hb. apply list_elem_of_In in Ht.
      by apply (H t). }
  destruct ts as [[|t ts]|]; [|apply (Hl (t :: ts))|]; simpl; unfold no_clause; set_solver.
Qed.

Lemma listing_select po pid ts xs ob d :
  listing po pid ts xs ob d (select_memories (λ _, Spec.list_where po pid ts xs) (list_leb ob) d).
Proof.
  split; [|split; [apply select_memories_NoDup|]].
  - intros k r. rewrite select_memories_elem. unfold Spec.list_where.
    rewrite !andb_true_iff, tags_clause_spec, exclude_tags_clause_spec, orb_true_iff, negb_true_iff.
    destruct pid as [p|]; unfold in_project; rewrite ?bool_decide_eq_true; destruct po; naive_solver.
  - apply sort_by_strongly_sorted; [apply list_leb_total|apply list_leb_trans].
Qed.

(** Listing is exact and pages consistently: there is one list of rows that
    satisfy every filter, in the requested order, and [limit]/[offset] return
    the corresponding slice of it, so consecutive pages neither skip nor repeat
    a row; an unknown order is refused. *)
Theorem list_memory_pages (s : store) (po : bool) (pid : option string) (ts xs : option (list string))
    (ob : OrderBy) :
  ready s →
  (∀ o, ob = order_by_other o → ∀ l off, list_memory l po off pid ts xs ob s = (s, Raise ValueError)) ∧
  ((∀ o, ob ≠ order_by_other o) →
   ∃ rows, listing po pid ts xs ob (view s) rows ∧
     (∀ off, list_memory None po off pid ts xs ob s =
        (s, Ok (map row_to_memory_item (drop (Z.to_nat off) rows)))) ∧
     (∀ l off, 0 ≤ l → list_memory (Some l) po off pid ts xs ob s =
        (s, Ok (map row_to_memory_item (take (Z.to_nat l) (drop (Z.to_nat off) rows)))))).
Proof.
  intros Hs. split.
  - intros o -> l off. done.
  - intros Hob. exists (select_memories (λ _, Spec.list_where po pid ts xs) (list_leb ob) (view s)).
    split; [apply listing_select|].
    split; [intros off|intros l off Hl]; rewrite (refine_list_memory _ po off pid ts xs ob s Hs);
      unfold Spec.list_memory, gets; destruct ob as [| |o]; try (by destruct (Hob o));
      simpl; rewrite upd_view; unfold sql_limit; try done;
      (rewrite bool_decide_eq_false_2 by lia; done).
Qed.

Definition fresh_store : store := Store (Conn empty_db None [] []) 0 false [].
Definition sample_memory (i : string) (t : Z) (pin : bool) : MemoryItem :=
  mkMemoryItem i ("note " +:+ i) ["a"; "b"] (utc t) pin (Some "p") "manual" None.
Definition sample_calls : list call :=
  [CAddProject sample_project; CAddMemory (sample_memory "m1" 10 false);
   CAddMemory (sample_memory "m2" 20 true); CAddMemory (sample_memory "m3" 30 false)].
Definition sample_store : store := run_calls sample_calls fresh_store.

Lemma ready_fresh : ready fresh_store.
Proof. repeat split; try done. Qed.

Lemma store_calls_keep_wf_witness : ready sample_store ∧ wf (view sample_store).
Proof. apply (store_calls_keep_wf sample_calls fresh_store ready_fresh wf_empty). Defined.

Lemma ready_sample : ready sample_store.
Proof. vm_compute. repeat split; try done; congruence. Qed.

Lemma list_memory_pages_witness :
  ∃ rows, listing false (Some "p"%string) (Some ["a"%string]) None pinned_first (view sample_store) rows ∧
    map fst rows = ["m2"; "m3"; "m1"]%string.
Proof.
  destruct (proj2 (list_memory_pages sample_store false (Some "p"%string) (Some ["a"%string]) None
    pinned_first ready_sample) ltac:(intros o; discriminate)) as (rows&Hl&Hall&_).
  exists rows. split; [exact Hl|]. specialize (Hall 0). rewrite drop_0 in Hall.
  apply (f_equal (λ p, match p.2 with Ok l => map id l | Raise _ => [] end)) in Hall.
  cbn [snd] in Hall. rewrite map_map in Hall.
  change (map fst rows) with (map (λ x, id (row_to_memory_item x)) rows). rewrite <- Hall.
  vm_compute. reflexivity.
Defined.
