(* ===== verification/SearchProps.v ===== *)
(** * Properties of the store's text matching and of its embedding table

    Project name filters, search scope, the fallback search, activation of the
    FTS index, publication of embeddings and the staleness buckets. *)

From S2P Require Import Prelude PyStr Sha256 Domain Sql Store Transactions Port StoreProps.
Local Open Scope Z_scope.
Local Open Scope prog_scope.

(** ** LIKE and its escaping *)

Definition special (c : ascii) : bool :=
  bool_decide (c = LIKE_ESCAPE) || bool_decide (c = "%"%char) || bool_decide (c = "_"%char).
Definition escape_char (c : ascii) : list ascii := if special c then [LIKE_ESCAPE; c] else [c].

(** The three passes amount to escaping each special character once. *)
Lemma escape_like_chars value : chars (escape_like value) = concat (map escape_char (chars value)).
Proof.
  unfold escape_like. rewrite chars_of_chars. cbn [foldl].
  induction (chars value) as [|c l IH]; [done|].
  cbn [map concat]. rewrite <- IH. change (c :: l) with ([c] ++ l). rewrite !replace_char_app. f_equal.
  unfold escape_char, special, replace_char. simpl.
  destruct (decide (c = LIKE_ESCAPE)) as [->|H1]; [done|]. rewrite (bool_decide_eq_false_2 _ H1). simpl.
  destruct (decide (c = "%"%char)) as [->|H2]; [done|]. rewrite (bool_decide_eq_false_2 _ H2). simpl.
  destruct (decide (c = "_"%char)) as [->|H3]; [done|]. rewrite (bool_decide_eq_false_2 _ H3). done.
Qed.

(** An escaped text in a pattern matches exactly itself, up to ASCII case. *)
Lemma like_match_escaped l pat s :
  like_match LIKE_ESCAPE (concat (map escape_char l) ++ pat) s = true ↔
  ∃ s1 s2, s = s1 ++ s2 ∧ map like_fold s1 = map like_fold l ∧ like_match LIKE_ESCAPE pat s2 = true.
Proof.
  revert s. induction l as [|c l IH]; intros s; cbn [map concat app].
  { split; [intros H; by exists [], s|]. intros ([|]&s2&->&Hm&H); done. }
  assert (∀ s, (match s with
      | d :: s' => bool_decide (like_fold c = like_fold d) &&
          like_match LIKE_ESCAPE (concat (map escape_char l) ++ pat) s'
      | [] => false end) = true ↔
    ∃ s1 s2, s = s1 ++ s2 ∧ map like_fold s1 = like_fold c :: map like_fold l ∧
      like_match LIKE_ESCAPE pat s2 = true) as Hstep.
  { intros [|d s']; split.
    - done.
    - intros ([|]&s2&?&Hm&?); done.
    - rewrite andb_true_iff, bool_decide_eq_true, IH. intros (Hc&s1&s2&->&Hm&H).
      exists (d :: s1), s2. simpl. by rewrite Hc, Hm.
    - intros ([|d' s1]&s2&Hs&Hm&H); [done|]. simplify_eq/=.
      rewrite andb_true_iff, bool_decide_eq_true, IH. naive_solver. }
  unfold escape_char. destruct (special c) eqn:Hc; cbn [app].
  - rewrite <- Hstep. cbn [like_match]. by rewrite bool_decide_eq_true_2.
  - unfold special in Hc. rewrite !orb_false_iff, !bool_decide_eq_false in Hc.
    destruct Hc as [[H1 H2] H3]. rewrite <- Hstep. cbn [like_match].
    rewrite !bool_decide_eq_false_2 by done. by destruct s.
Qed.

Lemma like_match_any pat s :
  like_match LIKE_ESCAPE ("%"%char :: pat) s = true ↔
  ∃ s1 s2, s = s1 ++ s2 ∧ like_match LIKE_ESCAPE pat s2 = true.
Proof.
  cbn [like_match]. rewrite bool_decide_eq_false_2, bool_decide_eq_true_2 by done.
  induction s as [|d s IH]; rewrite orb_true_iff; [|rewrite IH]; split.
  - intros [H|]; [by exists [], []|done].
  - intros ([|]&s2&Hs&H); simplify_eq/=; by left.
  - intros [H|(s1&s2&->&H)]; [by exists [], (d :: s)|by exists (d :: s1), s2].
  - intros ([|d' s1]&s2&Hs&H); simplify_eq/=; [by left|right; by exists s1, s2].
Qed.

(** The project name filter is a literal substring test, ignoring ASCII
    case: a name containing percent signs, underscores or backslashes is
    matched as written, never as a pattern. *)
Theorem name_filter_literal (s : store) (n : string) :
  ready s →
  ∃ l, list_projects (Some n) s = (s, Ok l) ∧
  ∀ p, p ∈ l ↔ ∃ r, projects (view s) !! project_key p = Some r ∧ p = row_to_project (project_key p, r) ∧
    ∃ a m b, chars (p_name r) = a ++ m ++ b ∧ map like_fold m = map like_fold (chars n).
Proof.
  intros Hs. eexists. rewrite (refine_list_projects (Some n) s Hs).
  unfold Spec.list_projects, gets. simpl. rewrite upd_view. split; [done|]. intros p.
  rewrite list_elem_of_In, in_map_iff. unfold select_projects.
  assert (∀ r, like_match LIKE_ESCAPE (chars ("%" +:+ escape_like n +:+ "%")%string) (chars (p_name r)) = true ↔
    ∃ a m b, chars (p_name r) = a ++ m ++ b ∧ map like_fold m = map like_fold (chars n)) as Hlike.
  { intros r. rewrite !chars_app, escape_like_chars. cbn [chars app]. rewrite like_match_any.
    split.
    - intros (a&s2&->&H). apply like_match_escaped in H as (m&b&->&Hm&_). by exists a, m, b.
    - intros (a&m&b&->&Hm). exists a, (m ++ b). split; [done|]. apply like_match_escaped.
      exists m, b. split; [done|]. split; [done|]. apply like_match_any. exists b, [].
      by rewrite app_nil_r. }
  split.
  - intros ([k r]&<-&Hin). apply list_elem_of_In, elem_of_sort_by, list_elem_of_filter in Hin as [Hm Hin].
    apply elem_of_map_to_list in Hin. exists r. simpl. split; [done|]. split; [done|]. by apply Hlike.
  - intros (r&Hr&->&Hm). exists (project_key p, r). split; [done|].
    apply list_elem_of_In, elem_of_sort_by, list_elem_of_filter. simpl.
    split; [by apply Hlike|by apply elem_of_map_to_list].
Qed.

Definition percent_store : store :=
  run_calls [CAddProject (mkProject "x" "Budget 100%" [] (utc 5)); CAddProject (mkProject "y" "Budget 1000" [] (utc 6))]
    fresh_store.
Lemma ready_percent : ready percent_store.
Proof. vm_compute. repeat split; try done; congruence. Qed.

Lemma name_filter_literal_witness :
  ∃ l, list_projects (Some "00%"%string) percent_store = (percent_store, Ok l) ∧ map project_key l = ["x"%string].
Proof.
  destruct (name_filter_literal percent_store "00%" ready_percent) as (l&Hl&_).
  exists l. split; [exact Hl|]. apply (f_equal snd) in Hl. vm_compute in Hl. injection Hl as <-. reflexivity.
Defined.

(** ** Publication of embeddings *)

(** Publication is compare-and-swap: a vector is stored exactly when the
    memory still exists and its current content has the hash the caller
    embedded; then only that memory's row changes and it records what was
    stored.  A refusal, or a component that does not fit in a float32, changes
    nothing. *)
Theorem save_embedding_cas (s : store) now k e m p h rv f st :
  ready s →
  let '(s', r) := save_embedding now k e m p h rv f st s in
  match r with
  | Ok true =>
      (∃ row, memories (view s) !! k = Some row ∧ hash_content (r_content row) = h) ∧
      (∃ blob, pack_floats e = Ok blob ∧
         embeddings (view s') =
           <[k := EmbeddingRow blob m (Z.of_nat (length e)) now p h rv f st]> (embeddings (view s))) ∧
      memories (view s') = memories (view s) ∧ projects (view s') = projects (view s)
  | Ok false =>
      s' = s ∧ ∀ row, memories (view s) !! k = Some row → hash_content (r_content row) ≠ h
  | Raise x => s' = s ∧ pack_floats e = Raise x
  end.
Proof.
  intros Hs. rewrite (refine_save_embedding now k e m p h rv f st s Hs). unfold Spec.save_embedding.
  destruct (memories (view s) !! k) as [row|] eqn:Hk; simpl; [|by rewrite upd_view].
  case_bool_decide as Hh; simpl; [|rewrite upd_view; naive_solver].
  destruct (pack_floats e) as [blob|x] eqn:Hb; simpl; [|by rewrite upd_view].
  rewrite view_upd. naive_solver.
Qed.

Definition half : spec_float := S754_finite false 4503599627370496 (-53).

Lemma save_embedding_cas_witness :
  embeddings (view (save_embedding 40 "m1" [half] "emb" "stub" (hash_content "note m1") None "f" "ok"
    sample_store).1) !! "m1"%string =
  Some (EmbeddingRow [S754_finite false 8388608 (-24)] "emb" 1 40 "stub" (hash_content "note m1") None "f" "ok").
Proof.
  pose proof (save_embedding_cas sample_store 40 "m1" [half] "emb" "stub" (hash_content "note m1") None "f" "ok"
    ready_sample) as H.
  assert (Hok : (save_embedding 40 "m1" [half] "emb" "stub" (hash_content "note m1") None "f" "ok"
    sample_store).2 = Ok true) by (vm_compute; reflexivity).
  destruct (save_embedding _ _ _ _ _ _ _ _ _ sample_store) as [s' r]. simpl in Hok. subst r.
  destruct H as (_&(blob&Hb&He)&_). vm_compute in Hb. injection Hb as <-.
  simpl. rewrite He. apply lookup_insert_eq.
Defined.

(** The row [k] holds a vector of the space for the text its memory has now. *)
Definition up_to_date (p m f : string) (rv : option string) (match_revision : bool) (d : db)
    (k : string) (e : embedding_row) : bool :=
  match memories d !! k with
  | Some row => in_space p m f rv match_revision e
                && bool_decide (hash_content (r_content row) = e_content_hash e)
  | None => false
  end.

Lemma stale_sum p m f rv match_revision d :
  wf d →
  count_where (λ r, negb (in_space p m f rv match_revision r)) d +
  count_joined (λ row r, in_space p m f rv match_revision r
                && bool_decide (hash_content (r_content row) ≠ e_content_hash r)) d =
  Z.of_nat (map_count (λ k e, negb (up_to_date p m f rv match_revision d k e)) (embeddings d)).
Proof.
  intros Hw. set (sp := in_space p m f rv match_revision).
  assert (∀ k e, embeddings d !! k = Some e → is_Some (memories d !! k)) as Hfk
    by (intros k e He; apply (wf_memory d Hw); by eexists).
  change (Z.of_nat (map_count (λ _ e, negb (sp e)) (embeddings d)) +
    Z.of_nat (map_count (λ k e, match memories d !! k with
      | Some row => sp e && bool_decide (hash_content (r_content row) ≠ e_content_hash e)
      | None => false end) (embeddings d)) =
    Z.of_nat (map_count (λ k e, negb (up_to_date p m f rv match_revision d k e)) (embeddings d))).
  rewrite <- Nat2Z.inj_add. f_equal.
  apply map_count_add; intros k e He; destruct (Hfk k e He) as [row Hrow];
    unfold up_to_date; fold sp; rewrite Hrow, bool_decide_not; by destruct (sp e), (bool_decide _).
Qed.

(** Against a verified revision the two staleness buckets are disjoint and
    together count exactly the stored rows that are not current: those whose
    space differs, or whose hash is not that of the memory's present content.
    Current tombstones are among the remaining rows. *)
Theorem stale_buckets_partition (s : store) (p m f : string) (rv : option string) (match_revision : bool) :
  ready s → wf (view s) →
  ∃ space content_ unembeddable,
    stale_embedding_counts p m f rv match_revision s = (s, Ok (space, content_)) ∧
    count_unembeddable_embeddings p m f rv match_revision s = (s, Ok unembeddable) ∧
    space + content_ = Z.of_nat (map_count (λ k e,
      negb (up_to_date p m f rv match_revision (view s) k e)) (embeddings (view s))) ∧
    space + content_ + unembeddable ≤ Z.of_nat (size (embeddings (view s))).
Proof.
  intros Hs Hw. do 3 eexists.
  rewrite (refine_stale p m f rv match_revision s Hs), (refine_count_unembeddable p m f rv match_revision s Hs).
  unfold Spec.stale_embedding_counts, Spec.count_unembeddable_embeddings, gets. simpl. rewrite upd_view.
  split; [done|]. split; [done|]. rewrite stale_sum by done. split; [done|].
  set (d := view s).
  set (tomb := λ k (e : embedding_row), match memories d !! k with
    | Some r => bool_decide (e_status e = "content_too_long"%string) && in_space p m f rv match_revision e
                && bool_decide (hash_content (r_content r) = e_content_hash e)
    | None => false end).
  change (count_joined _ d) with (Z.of_nat (map_count tomb (embeddings d))).
  rewrite <- Nat2Z.inj_add. apply Nat2Z.inj_le.
  pose proof (map_count_add (λ k e, negb (up_to_date p m f rv match_revision d k e)) tomb
    (λ k e, negb (up_to_date p m f rv match_revision d k e) || tomb k e) (embeddings d)) as Hadd.
  etrans; [apply Nat.eq_le_incl, Hadd|apply map_count_le]; [done|]. clear Hadd.
  intros k e He. unfold tomb, up_to_date. destruct (memories d !! k); [|done].
  by destruct (in_space _ _ _ _ _ e), (bool_decide (hash_content _ = _)), (bool_decide (e_status e = _)).
Qed.

Lemma wf_sample : wf (view sample_store).
Proof. apply (tame_run_calls sample_calls fresh_store ready_fresh wf_empty). Qed.

Lemma stale_buckets_partition_witness :
  ∃ a b c, stale_embedding_counts "stub" "emb" "f" None true sample_store = (sample_store, Ok (a, b)) ∧
    a + b + c ≤ 0.
Proof.
  destruct (stale_buckets_partition sample_store "stub" "emb" "f" None true ready_sample wf_sample)
    as (a&b&c&H&_&_&Hle).
  exists a, b, c. split; [exact H|]. vm_compute in Hle. exact Hle.
Defined.

(** ** Scope of a search *)

Section search_scope.
Context `{FTS5}.

(** The rows a search in a given mode may return. *)
Definition in_scope (mode : PinnedMode) (pid : option string) (ts : option (list string))
    (r : memory_row) : Prop :=
  (mode = exclude → r_pinned r = false) ∧ (mode = only → r_pinned r = true) ∧
  (∀ p, pid = Some p →
     r_project_id r = Some p ∨ mode ≠ exclude ∧ r_pinned r = true ∧ r_project_id r = None) ∧
  (∀ t, t ∈ default [] ts → t ∈ r_tags r).

Lemma clauses_in_scope mode pid ts r :
  (pinned_clauses mode pid).1 r && (pinned_clauses mode pid).2 r && tags_clause ts r = true ↔
  in_scope mode pid ts r.
Proof.
  unfold in_scope. rewrite !andb_true_iff, tags_clause_spec.
  destruct mode, pid as [p|]; simpl; unfold in_project, global_row, no_clause;
    rewrite ?negb_true_iff, ?orb_true_iff, ?andb_true_iff, ?bool_decide_eq_true;
    destruct (r_pinned r); naive_solver.
Qed.

(** Items that are rows of the database, each once. *)
Definition rows_of (d : db) (P : memory_row → Prop) (l : list MemoryItem) : Prop :=
  (∀ i, i ∈ l → ∃ r, memories d !! id i = Some r ∧ i = row_to_memory_item (id i, r) ∧ P r) ∧
  NoDup (map id l).

Lemma rows_of_sublist d P l l' : l' `sublist_of` l → rows_of d P l → rows_of d P l'.
Proof.
  intros Hl [H1 H2]. split.
  - intros i Hi. apply H1. by eapply elem_of_sublist.
  - refine (sublist_NoDup _ _ H2 _). by apply (fmap_sublist id).
Qed.

Lemma rows_of_perm d P l l' : l' ≡ₚ l → rows_of d P l → rows_of d P l'.
Proof.
  intros Hl [H1 H2]. split; [intros i; rewrite Hl; apply H1|]. by rewrite Hl.
Qed.

Lemma sql_limit_sublist {A} n (l : list A) : sql_limit n l `sublist_of` l.
Proof. unfold sql_limit. case_bool_decide; [done|apply sublist_take]. Qed.

Lemma rows_of_select d p leb P n :
  (∀ k r, p k r = true → P r) →
  rows_of d P (map row_to_memory_item (sql_limit n (select_memories p leb d))).
Proof.
  intros HP. eapply (rows_of_sublist _ _ (map row_to_memory_item (select_memories p leb d))).
  { apply fmap_sublist, sql_limit_sublist. }
  split.
  - intros i Hi. apply list_elem_of_fmap in Hi as ([k r]&->&Hi).
    apply select_memories_elem in Hi as [Hk Hp]. exists r. simpl. eauto.
  - rewrite map_map. exact (select_memories_NoDup p leb d).
Qed.

Lemma ranked_rows active q l pid ts ph mode d :
  rows_of d (in_scope mode pid ts) (Spec.ranked active q l pid ts ph mode d).
Proof.
  assert (rows_of d (in_scope mode pid ts) (Spec.fallback_window pid ts mode d)) as Hw.
  { apply rows_of_select. intros k r Hp. by apply clauses_in_scope. }
  assert (rows_of d (in_scope mode pid ts) []) as Hnil by (split; [set_solver|constructor]).
  unfold Spec.ranked. destruct active.
  - unfold Spec.fts5_search. case_match; [done|]. apply rows_of_select. intros k r Hp.
    apply clauses_in_scope. rewrite !andb_true_iff in *. naive_solver.
  - unfold Spec.fallback_search. destruct ph.
    + case_match; [done|]. eapply rows_of_sublist; [|exact Hw].
      etrans; [apply py_slice_sublist|apply sublist_filter].
    + eapply rows_of_sublist; [apply py_slice_sublist|].
      eapply rows_of_perm; [apply sort_by_perm|done].
Qed.

Lemma eligible_spec pid ts d k :
  k ∈ dom (filter (λ kr : string * memory_row,
    (pinned_clauses include pid).2 kr.2 && tags_clause ts kr.2 = true) (memories d)) ↔
  ∃ r, memories d !! k = Some r ∧ in_scope include pid ts r.
Proof.
  rewrite elem_of_dom. split.
  - intros [r Hr]. apply map_lookup_filter_Some in Hr as [Hr Hc]. exists r. split; [done|].
    by apply clauses_in_scope.
  - intros (r&Hr&Hc). exists r. apply map_lookup_filter_Some. split; [done|].
    apply clauses_in_scope in Hc. simpl in *. rewrite !andb_true_iff in *. naive_solver.
Qed.

(** A keyword search, on either engine, returns current rows of the caller's
    scope only, each at most once and none of the excluded ones: pins are hidden
    on request, a project sees its own rows plus the global pins, every
    requested tag is present, all results are among the eligible ids that
    restrict semantic search, at most [top_k] come back, and [offset] walks one
    ranking: a page is the slice of the longer search. *)
Theorem search_memory_scope (s : store) (q : string) (top_k : Z) (pid : option string) (ip : bool)
    (ts : option (list string)) (off : Z) (ph : bool) (ex : gset string) :
  ready s → 0 ≤ top_k → 0 ≤ off →
  ∃ l all eligible,
    search_memory q top_k pid ip ts off ph ex s = (s, Ok l) ∧
    search_memory q (top_k + off) pid ip ts 0 ph ex s = (s, Ok all) ∧
    eligible_memory_ids pid ts s = (s, Ok eligible) ∧
    rows_of (view s) (in_scope (if ip then include else exclude) pid ts) l ∧
    (∀ i, i ∈ l → id i ∉ ex) ∧ (∀ i, i ∈ l → id i ∈ eligible) ∧
    Z.of_nat (length l) ≤ top_k ∧
    l = take (Z.to_nat top_k) (drop (Z.to_nat off) all).
Proof.
  intros Hs Hk Ho. do 3 eexists.
  rewrite (refine_search_memory q top_k pid ip ts off ph ex s Hs),
    (refine_search_memory q (top_k + off) pid ip ts 0 ph ex s Hs), (refine_eligible pid ts s Hs).
  unfold Spec.search_memory, Spec.eligible_memory_ids, gets. simpl. rewrite upd_view.
  split; [done|]. split; [done|]. split; [done|]. rewrite Z.add_0_r.
  set (R := Spec.ranked _ _ _ _ _ _ _ _). set (F := filter (λ i, id i ∉ ex) R).
  assert (rows_of (view s) (in_scope (if ip then include else exclude) pid ts) F) as HF
    by (eapply rows_of_sublist; [apply sublist_filter|apply ranked_rows]).
  split_and!.
  - eapply rows_of_sublist; [apply py_slice_sublist|done].
  - intros i Hi%py_slice_subseteq. by apply list_elem_of_filter in Hi as [? _].
  - intros i Hi%py_slice_subseteq. apply HF in Hi as (r&Hr&->&Hin). apply eligible_spec.
    exists r. split; [done|]. unfold in_scope in *. destruct ip; naive_solver.
  - pose proof (py_slice_length off (off + top_k) F). lia.
  - rewrite !py_slice_nonneg by lia.
    rewrite drop_0, skipn_firstn_comm, take_take. f_equal. lia.
Qed.

(** Without FTS5 a keyword search ranks but does not filter: any query, even
    one that matches nothing, returns every row of the scope (the newest 200),
    and so [search_pinned] floats every pin in scope. *)
Theorem fallback_returns_all (s : store) (q : string) (limit : Z) (pid : option string)
    (ts : option (list string)) :
  ready s → fts5_active s = false →
  let scope := Spec.fallback_window pid ts only (view s) in
  Z.of_nat (length scope) ≤ limit → 0 < limit →
  ∃ l, search_pinned q limit pid ts false s = (s, Ok l) ∧ l ≡ₚ scope ∧
    ∀ k r, memories (view s) !! k = Some r → in_scope only pid ts r →
      (size (memories (view s)) ≤ 200)%nat → row_to_memory_item (k, r) ∈ l.
Proof.
  intros Hs Hact scope Hlen Hl. eexists. rewrite (refine_search_pinned q limit pid ts false s Hs).
  unfold Spec.search_pinned, gets. simpl. rewrite upd_view, Hact, (proj2 (Z.leb_gt _ _) Hl).
  split; [done|]. unfold Spec.ranked, Spec.fallback_search.
  fold scope. set (S := sort_by _ scope).
  assert (∀ l : list MemoryItem, Z.of_nat (length l) ≤ limit → py_slice 0 limit l = l) as Hfull.
  { intros l Hle. rewrite py_slice_nonneg by lia. rewrite drop_0. apply take_ge. lia. }
  rewrite !(Hfull S) by (unfold S; by rewrite sort_by_length).
  split; [apply sort_by_perm|].
  intros k r Hr Hin Hsize. unfold S. rewrite elem_of_sort_by. unfold scope, Spec.fallback_window.
  apply list_elem_of_fmap. exists (k, r). split; [done|].
  unfold sql_limit. rewrite bool_decide_eq_false_2 by (unfold MEMORY_SEARCH_LIMIT; lia).
  rewrite take_ge.
  - apply select_memories_elem. split; [done|]. by apply clauses_in_scope.
  - unfold select_memories, MEMORY_SEARCH_LIMIT. rewrite sort_by_length.
    etrans; [apply length_filter|]. rewrite length_map_to_list. lia.
Qed.
End search_scope.

(** A concrete FTS5: an unquoted query is looked for in the content; all
    matches rank the same. *)
Definition substring_fts : FTS5 := {|
  fts_match q doc := contains (of_chars (replace_char (chr 34) [] (chars q))) doc.1;
  fts_rank _ _ _ := 0 |}.

Lemma search_memory_scope_witness :
  ∃ l, @search_memory substring_fts "note" 2 (Some "p"%string) true None 1 true ∅
         (set_active true sample_store) = (set_active true sample_store, Ok l) ∧
       Z.of_nat (length l) ≤ 2.
Proof.
  destruct (@search_memory_scope substring_fts (set_active true sample_store) "note" 2 (Some "p"%string)
    true None 1 true ∅ ready_sample ltac:(lia) ltac:(lia)) as (l&all&el&H&_&_&_&_&_&Hlen&_).
  exists l. split; [exact H|exact Hlen].
Defined.

Lemma fallback_returns_all_witness :
  ∃ l, @search_pinned substring_fts "no such words" 10 (Some "p"%string) None false
         (set_active false sample_store) = (set_active false sample_store, Ok l) ∧
       map id l = ["m2"%string].
Proof.
  destruct (@fallback_returns_all substring_fts (set_active false sample_store) "no such words" 10
    (Some "p"%string) None ready_sample eq_refl ltac:(vm_compute; congruence) ltac:(lia)) as (l&H&_).
  exists l. split; [exact H|]. apply (f_equal snd) in H. vm_compute in H. injection H as <-. reflexivity.
Defined.

(** ** Activating the index *)

(** What the schema step does to the database. *)
Definition activated (d : db) : db :=
  if (count_fts d =? 0)%nat then rebuild_fts (create_fts d) else create_fts d.

Lemma ensure_fts5_runs s :
  ready s → ensure_fts5 true true s = (set_active true (upd (activated (view s)) s), Ok tt).
Proof.
  intros Hs. unfold ensure_fts5, bind. cbn [negb].
  rewrite (runs_as_execute _ s Hs). cbn. rewrite (runs_as_commit_if_needed _ (ready_upd _ _ Hs)).
  cbn. autorewrite with upd. unfold activated, count_fts.
  assert (memories (create_fts (view s)) = memories (view s)) as ->
    by (unfold create_fts; by destruct (fts (view s))).
  destruct (size (memories (view s)) =? 0)%nat.
  - rewrite (runs_as_execute _ _ (ready_upd _ _ Hs)). cbn. autorewrite with upd.
    rewrite (runs_as_commit_if_needed _ (ready_upd _ _ Hs)). cbn. by autorewrite with upd.
  - cbn. rewrite (runs_as_commit_if_needed _ (ready_upd _ _ Hs)). cbn. by autorewrite with upd.
Qed.

Lemma activated_memories d : memories (activated d) = memories d.
Proof. unfold activated, rebuild_fts, create_fts. by repeat case_match. Qed.

Lemma activated_wf d : wf d → is_Some (fts d) ∨ memories d = ∅ → wf (activated d).
Proof.
  intros Hw Hor. unfold activated, count_fts. destruct (size (memories d) =? 0)%nat eqn:Hsz.
  - apply Nat.eqb_eq, map_size_empty_inv in Hsz. destruct Hw as [H1 H2 H3 H4 H5].
    unfold rebuild_fts, create_fts. destruct (fts d) eqn:Hf; split; simpl; rewrite ?Hf; done.
  - destruct Hor as [[ix Hix]|Hemp].
    + unfold create_fts. by rewrite Hix.
    + by rewrite Hemp, map_size_empty in Hsz.
Qed.

Lemma activated_unindexed d : fts d = None → memories d ≠ ∅ → fts (activated d) = Some ∅.
Proof.
  intros Hnone Hne. unfold activated, count_fts, create_fts. rewrite Hnone.
  by rewrite (proj2 (Nat.eqb_neq _ _)) by (by apply map_size_non_empty_iff).
Qed.

Lemma empty_index_no_results `{FTS5} q n pid ts ph mode d :
  fts d = Some ∅ → Spec.fts5_search q n pid ts ph mode d = [].
Proof.
  intros Hix. unfold Spec.fts5_search. case_match; [done|]. rewrite Hix. simpl.
  unfold sql_limit. set (rows := select_memories _ _ d).
  assert (rows = []) as ->; [|case_match; [done|by rewrite take_nil]].
  apply elem_of_nil_inv. intros [k r] Hx. apply select_memories_elem in Hx as [_ Hx].
  by rewrite lookup_empty in Hx.
Qed.

(** Activating FTS5 never rebuilds an index over existing rows: the
    emptiness test counts the content table, so an index created on a database
    that already holds memories stays empty and every query answers nothing,
    while an index created on an empty database, or one already present, is
    kept in step by the triggers. *)
Theorem fts_activation `{FTS5} (s : store) :
  ready s →
  ∃ s', ensure_fts5 true true s = (s', Ok tt) ∧ ready s' ∧ fts5_active s' = true ∧
    memories (view s') = memories (view s) ∧
    (wf (view s) → is_Some (fts (view s)) ∨ memories (view s) = ∅ → wf (view s')) ∧
    (fts (view s) = None → memories (view s) ≠ ∅ →
     fts (view s') = Some ∅ ∧
     ∀ q n pid ts ph mode, (ranked_search q n pid ts ph mode s').2 = Ok []).
Proof.
  intros Hs. exists (set_active true (upd (activated (view s)) s)).
  assert (view (set_active true (upd (activated (view s)) s)) = activated (view s)) as Hv
    by apply view_upd.
  rewrite Hv. split; [by apply ensure_fts5_runs|].
  split; [by apply (ready_upd (activated (view s)))|]. split; [done|].
  split; [apply activated_memories|]. split; [apply activated_wf|].
  intros Hnone Hne. pose proof (activated_unindexed _ Hnone Hne) as Hix. split; [done|].
  intros q n pid ts ph mode.
  rewrite (refine_ranked q n pid ts ph mode) by (by apply (ready_upd (activated (view s)))).
  unfold gets, Spec.ranked. simpl. rewrite Hv. by rewrite empty_index_no_results.
Qed.

Definition unindexed_store : store :=
  run_calls [CAddProject sample_project; CAddMemory (sample_memory "m1" 10 false)] (set_active false fresh_store).
Lemma ready_unindexed : ready unindexed_store.
Proof. vm_compute. repeat split; try done; congruence. Qed.

Lemma fts_activation_witness :
  ∃ s', ensure_fts5 true true unindexed_store = (s', Ok tt) ∧
    (@ranked_search substring_fts "note" 10 None None false include s').2 = Ok [].
Proof.
  destruct (@fts_activation substring_fts unindexed_store ready_unindexed) as (s'&H&_&_&_&_&Hbad).
  exists s'. split; [exact H|]. apply Hbad; [reflexivity|]. vm_compute. discriminate.
Defined.
