(* ===== verification/Embedding.v ===== *)
(** * The embedding service: generation

    [embedding_service.py] up to [embedding_status]: freshness checks,
    publication, the backfill with its per-item isolation, tombstones and the
    failure counters.  The service is a client of two interfaces: the storage
    port, and the embedding port a provider adapter implements.

    The store lock covers one store call at a time and no provider call, so
    other threads may change the store before any store call and during any
    provider call: [sv_others] lists what they do, one entry per such point.
    Metrics and elapsed times are observations only and are left out. *)

From S2P Require Import Prelude PyStr Sha256 Domain Sql Store Transactions Port.
Local Open Scope Z_scope.
Local Open Scope prog_scope.

(** ** The provider *)

(** [embedding_port.py:10-93 EmbeddingPort] [E] is the adapter's own state;
    the names and the settings fingerprint are constants of an adapter. *)
Class EmbeddingPort (E : Type) := {
  ep_embed : string → SE E exn (list spec_float);
  ep_embed_batch : list string → SE E exn (list (list spec_float));
  ep_model_name : string;
  ep_provider_name : string;
  ep_settings_fingerprint : string;
  ep_tracks_revision : bool;
  ep_revision_snapshot : E → RevisionSnapshot;
  ep_refresh_revision : bool → E → E * RevisionSnapshot;
}.

(** ** Results *)

(** [embedding_service.py:54-77 BackfillResult] *)
Record BackfillResult := mkBackfill {
  generated : Z;
  failed : Z;
  tombstoned : Z;
  skipped : bool;
}.

(** [embedding_service.py:79-92 BackfillResult.outcome] *)
Definition outcome (r : BackfillResult) : string :=
  if skipped r then "skipped"
  else if failed r =? 0 then "ok"
  else if generated r =? 0 then "failed"
  else "partial".

(** [embedding_service.py:97-97 _JOB_METRIC_OUTCOME] *)
Definition job_metric_outcome (o : string) : option string :=
  if bool_decide (o = "skipped") then Some "overlap"
  else if bool_decide (o = "ok") then Some "success"
  else if bool_decide (o = "partial") then Some "partial"
  else if bool_decide (o = "failed") then Some "failure"
  else None.

Definition BACKFILL_CHUNK_SIZE : Z := 32.

(** ** State *)

(** [embedding_service.py:103-138 EmbeddingService.__init__]
    [reconciled_revision] is [None] for the sentinel [_NOT_RECONCILED]. *)
Record svc (S E : Type) := Svc {
  sv_store : S;
  sv_port : E;
  sv_others : list (S → S);
  sv_ticks : nat;
  search_failure_count : Z;
  last_search_failure_at : option Z;
  failure_count : Z;
  last_failure_at : option Z;
  last_failure_op : option string;
  backfill_locked : bool;
  reconciled_revision : option (option string);
}.
Arguments Svc {S E}.
Arguments sv_store {S E}. Arguments sv_port {S E}. Arguments sv_others {S E}.
Arguments sv_ticks {S E}. Arguments search_failure_count {S E}.
Arguments last_search_failure_at {S E}. Arguments failure_count {S E}.
Arguments last_failure_at {S E}. Arguments last_failure_op {S E}.
Arguments backfill_locked {S E}. Arguments reconciled_revision {S E}.

Definition new_service {S E} (t : S) (p : E) (others : list (S → S)) : svc S E :=
  Svc t p others 0 0 None 0 None None false None.

Section service.
Context {S E : Type} `{HF : FTS5} `{!MemoryStorePort S} `{!EmbeddingPort E}.
(** The clock: the [n]-th reading. *)
Context (utc_now : nat → Z).

Notation Sv A := (SE (svc S E) exn A).

Definition with_store (t : S) (s : svc S E) : svc S E :=
  Svc t (sv_port s) (sv_others s) (sv_ticks s) (search_failure_count s) (last_search_failure_at s)
    (failure_count s) (last_failure_at s) (last_failure_op s) (backfill_locked s) (reconciled_revision s).
Definition with_port (p : E) (s : svc S E) : svc S E :=
  Svc (sv_store s) p (sv_others s) (sv_ticks s) (search_failure_count s) (last_search_failure_at s)
    (failure_count s) (last_failure_at s) (last_failure_op s) (backfill_locked s) (reconciled_revision s).
(** The other threads take their turn. *)
Definition interfere (s : svc S E) : svc S E :=
  match sv_others s with
  | [] => s
  | f :: fs =>
      Svc (f (sv_store s)) (sv_port s) fs (sv_ticks s) (search_failure_count s) (last_search_failure_at s)
        (failure_count s) (last_failure_at s) (last_failure_op s) (backfill_locked s) (reconciled_revision s)
  end.
Definition with_failures (n : Z) (at_ : option Z) (op : option string) (s : svc S E) : svc S E :=
  Svc (sv_store s) (sv_port s) (sv_others s) (sv_ticks s) (search_failure_count s) (last_search_failure_at s)
    n at_ op (backfill_locked s) (reconciled_revision s).
Definition with_search_failures (n : Z) (at_ : option Z) (s : svc S E) : svc S E :=
  Svc (sv_store s) (sv_port s) (sv_others s) (sv_ticks s) n at_
    (failure_count s) (last_failure_at s) (last_failure_op s) (backfill_locked s) (reconciled_revision s).
Definition with_lock (b : bool) (s : svc S E) : svc S E :=
  Svc (sv_store s) (sv_port s) (sv_others s) (sv_ticks s) (search_failure_count s) (last_search_failure_at s)
    (failure_count s) (last_failure_at s) (last_failure_op s) b (reconciled_revision s).
Definition with_reconciled (r : option (option string)) (s : svc S E) : svc S E :=
  Svc (sv_store s) (sv_port s) (sv_others s) (sv_ticks s) (search_failure_count s) (last_search_failure_at s)
    (failure_count s) (last_failure_at s) (last_failure_op s) (backfill_locked s) r.
Definition tick (s : svc S E) : svc S E :=
  Svc (sv_store s) (sv_port s) (sv_others s) (Datatypes.S (sv_ticks s)) (search_failure_count s)
    (last_search_failure_at s) (failure_count s) (last_failure_at s) (last_failure_op s) (backfill_locked s)
    (reconciled_revision s).

Definition read_clock : Sv Z := λ s, (tick s, Ok (utc_now (sv_ticks s))).
(** A store call, under the store lock; other threads may have run just before. *)
Definition on_store {A} (m : SE S exn A) : Sv A := λ s0,
  let s := interfere s0 in
  (with_store (m (sv_store s)).1 s, (m (sv_store s)).2).
(** A provider call: it takes time, and other threads run meanwhile. *)
Definition on_port {A} (m : SE E exn A) : Sv A := λ s,
  (interfere (with_port (m (sv_port s)).1 s), (m (sv_port s)).2).
Definition revision_snapshot : Sv RevisionSnapshot := λ s, (s, Ok (ep_revision_snapshot (sv_port s))).
Definition refresh_revision (force : bool) : Sv RevisionSnapshot := λ s,
  (interfere (with_port (ep_refresh_revision force (sv_port s)).1 s),
   Ok (ep_refresh_revision force (sv_port s)).2).

(** [embedding_service.py:323-326 EmbeddingService._record_failure] *)
Definition record_failure (op : string) : Sv unit :=
  let* now := read_clock in
  modify (λ s, with_failures (failure_count s + 1) (Some now) (Some op) s).

(** [embedding_service.py:328-332 EmbeddingService._record_success] *)
Definition record_success : Sv unit :=
  modify (λ s, with_failures 0 (last_failure_at s) None s).

(** [embedding_service.py:369-383 EmbeddingService._embed_single] *)
Definition embed_single (content : string) : Sv (list spec_float) := on_port (ep_embed content).

(** [embedding_service.py:385-399 EmbeddingService._embed_batch] *)
Definition embed_batch (contents : list string) : Sv (list (list spec_float)) :=
  on_port (ep_embed_batch contents).

(** [embedding_service.py:401-411 EmbeddingService._is_content_too_long] *)
Definition is_content_too_long (e : exn) : bool :=
  is_provider_error e && bool_decide (provider_error_code e = Some CONTENT_TOO_LONG).

Definition save (memory_id content : string) (vec : list spec_float) (revision : option string)
    (status : string) : Sv bool :=
  let* now := read_clock in
  on_store (st_save_embedding now memory_id vec ep_model_name ep_provider_name (hash_content content)
    revision ep_settings_fingerprint status).

(** [embedding_service.py:413-441 EmbeddingService._write_tombstone] *)
Definition write_tombstone (memory_id content : string) (revision : option string) : Sv bool :=
  save memory_id content [] revision "content_too_long".

Definition identity_current (content : string) (revision : option string) (i : Identity) : bool :=
  bool_decide (i_provider i = ep_provider_name)
  && bool_decide (i_model i = ep_model_name)
  && bool_decide (i_settings_fingerprint i = ep_settings_fingerprint)
  && bool_decide (i_model_revision i = revision)
  && bool_decide (i_content_hash i = hash_content content).

(** [embedding_service.py:443-461 EmbeddingService._is_current] *)
Definition is_current (memory_id content : string) (revision : option string) : Sv bool :=
  let* identity := on_store (st_get_identity memory_id) in
  ret match identity with None => false | Some i => identity_current content revision i end.

(** [embedding_service.py:463-527 EmbeddingService.generate_for_memory] *)
Definition generate_for_memory (memory_id content : string) (force : bool) : Sv unit :=
  let* snapshot := revision_snapshot in
  let* snapshot := (if known snapshot then ret snapshot else refresh_revision false) in
  if negb (known snapshot) then raise RevisionUnknownError
  else
    let* current := (if force then ret false else is_current memory_id content (value snapshot)) in
    if (current : bool) then ret tt
    else
      let* vec := try_catch (let* v := embed_single content in ret (Some v)) (λ e,
        if is_content_too_long e
        then let* _ := write_tombstone memory_id content (value snapshot) in ret None
        else record_failure "save" ;; raise e) in
      match vec with
      | None => ret tt
      | Some vec =>
          let* _ := save memory_id content vec (value snapshot) "ok" in
          record_success
      end.

(** ** The backfill *)

Definition Counts : Type := Z * Z * Z.
Definition add_generated (c : Counts) : Counts := let '(g, f, t) := c in (g + 1, f, t).
Definition add_failed (c : Counts) : Counts := let '(g, f, t) := c in (g, f + 1, t).
Definition add_tombstoned (c : Counts) : Counts := let '(g, f, t) := c in (g, f, t + 1).

(** [embedding_service.py:631-691 EmbeddingService._backfill] One
    item of a chunk: its vector from the batch, or a call of its own. *)
Definition backfill_item (revision : option string) (item : MemoryItem)
    (vec : option (list spec_float)) (c : Counts) : Sv Counts :=
  try_catch
    (let* vec := match vec with Some v => ret v | None => embed_single (content item) end in
     let* published := save (id item) (content item) vec revision "ok" in
     record_success ;;
     ret (if (published : bool) then add_generated c else c))
    (λ e,
      if is_content_too_long e then
        try_catch
          (let* published := write_tombstone (id item) (content item) revision in
           ret (if (published : bool) then add_tombstoned c else c))
          (λ _, record_failure "backfill" ;; ret (add_failed c))
      else record_failure "backfill" ;; ret (add_failed c)).

Fixpoint backfill_items (revision : option string) (items : list (MemoryItem * option (list spec_float)))
    (c : Counts) : Sv Counts :=
  match items with
  | [] => ret c
  | (item, vec) :: items' =>
      let* c' := backfill_item revision item vec c in backfill_items revision items' c'
  end.

(** [embedding_service.py:596-629 EmbeddingService._backfill] A failed
    batch, or one of the wrong cardinality, falls back to per-item calls. *)
Definition backfill_chunk (revision : option string) (chunk : list MemoryItem) (c : Counts) : Sv Counts :=
  let* vectors := try_catch
    (let* vs := embed_batch (map content chunk) in
     ret (if bool_decide (length vs = length chunk) then Some vs else None))
    (λ _, ret None) in
  backfill_items revision
    (match vectors with
     | Some vs => zip chunk (map Some vs)
     | None => map (λ item, (item, None)) chunk
     end) c.

(** [range(0, len(candidates), _BACKFILL_CHUNK_SIZE)] *)
Fixpoint chunks (fuel : nat) (l : list MemoryItem) : list (list MemoryItem) :=
  match fuel, l with
  | Datatypes.S fuel, _ :: _ =>
      take (Z.to_nat BACKFILL_CHUNK_SIZE) l :: chunks fuel (drop (Z.to_nat BACKFILL_CHUNK_SIZE) l)
  | _, _ => []
  end.

Fixpoint backfill_chunks (revision : option string) (cs : list (list MemoryItem)) (c : Counts) : Sv Counts :=
  match cs with
  | [] => ret c
  | chunk :: cs' => let* c' := backfill_chunk revision chunk c in backfill_chunks revision cs' c'
  end.

Fixpoint select_candidates (revision : option string) (force : bool) (items : list MemoryItem)
    : Sv (list MemoryItem) :=
  match items with
  | [] => ret []
  | item :: items' =>
      let* current := (if force then ret false else is_current (id item) (content item) revision) in
      let* rest := select_candidates revision force items' in
      ret (if (current : bool) then rest else item :: rest)
  end.

(** [embedding_service.py:562-701 EmbeddingService._backfill] *)
Definition backfill (snapshot : RevisionSnapshot) (project_id : option string) (force : bool)
    : Sv BackfillResult :=
  let* items := on_store (st_list_memory None false 0 project_id None None pinned_first) in
  let* candidates := select_candidates (value snapshot) force items in
  let* (g, f, t) := backfill_chunks (value snapshot) (chunks (length candidates) candidates) (0, 0, 0) in
  ret (mkBackfill g f t false).

(** [embedding_service.py:529-560 EmbeddingService.generate_missing] *)
Definition generate_missing (project_id : option string) (force : bool) : Sv BackfillResult :=
  let* locked := gets backfill_locked in
  if (locked : bool) then ret (mkBackfill 0 0 0 true)
  else
    modify (with_lock true) ;;
    try_finally
      (let* snapshot := refresh_revision true in
       if negb (known snapshot) then raise RevisionUnknownError
       else
         let* result := backfill snapshot project_id force in
         match project_id with
         | None => modify (with_reconciled (Some (value snapshot))) ;; ret result
         | Some _ => ret result
         end)
      (modify (with_lock false)).

(** The counts of [embedding_status]. *)
Record EmbeddingStatus := mkStatus {
  es_total_memories : Z; es_embedded : Z; es_missing : Z; es_unembeddable : Z;
  es_space_mismatch : Z; es_content_mismatch : Z; es_stale : Z;
}.

(** [embedding_service.py:703-756 EmbeddingService.embedding_status] *)
Definition embedding_status : Sv EmbeddingStatus :=
  let* snapshot := revision_snapshot in
  let* total_memories := on_store (st_count_memory None) in
  let* total_rows := on_store (st_count_embeddings None) in
  let* embedded := on_store (st_count_embeddings (Some "ok"%string)) in
  let* (space, mismatch) := on_store (st_stale_counts ep_provider_name ep_model_name
    ep_settings_fingerprint (value snapshot) (known snapshot)) in
  let* unembeddable := on_store (st_count_unembeddable ep_provider_name ep_model_name
    ep_settings_fingerprint (value snapshot) (known snapshot)) in
  ret (mkStatus total_memories embedded (total_memories - total_rows) unembeddable space mismatch
         (space + mismatch)).

(** [embedding_service.py:281-288 EmbeddingService._reconcile] The decision:
    does this verified snapshot start a background backfill. *)
Definition should_reconcile (auto_backfill backfill_running : bool) (s : svc S E)
    (snapshot : RevisionSnapshot) : bool :=
  auto_backfill && known snapshot
  && negb (bool_decide (reconciled_revision s = Some (value snapshot))) && negb backfill_running.

End service.
