(* ===== verification/EmbeddingProps.v ===== *)
(** * Properties of embedding generation

    What is published was computed from the text it is attributed to, whatever
    the other threads do; the outcome of each generation; the accounting of a
    backfill; and what the coverage counts mean. *)

From S2P Require Import Prelude PyStr Sha256 Domain Sql Store Transactions Port StoreProps SearchProps Embedding.
Local Open Scope Z_scope.
Local Open Scope prog_scope.

(** What an adapter promises the service, beyond its operations: an invariant of
    its state, the revisions it counts as verified, and the shape of the vectors
    it returns. *)
Class ProviderLaws (E : Type) `{!EmbeddingPort E} := {
  port_inv : E → Prop;
  verified : option string → Prop;
  sound : list spec_float → Prop;
  law_embed c p : port_inv p → port_inv (ep_embed c p).1 ∧ ∀ v, (ep_embed c p).2 = Ok v → sound v;
  law_batch cs p : port_inv p → port_inv (ep_embed_batch cs p).1 ∧ ∀ vs, (ep_embed_batch cs p).2 = Ok vs → Forall sound vs;
  law_refresh f p : port_inv p → port_inv (ep_refresh_revision f p).1
    ∧ (known (ep_refresh_revision f p).2 = true → verified (value (ep_refresh_revision f p).2));
  law_snapshot p : port_inv p → known (ep_revision_snapshot p) = true → verified (value (ep_revision_snapshot p));
}.

Section service.
Context {S E : Type} `{HF : FTS5} `{!MemoryStorePort S} `{!EmbeddingPort E} `{!ProviderLaws E}.
Context (utc_now : nat → Z).
Implicit Types (s : svc S E).

(** ** Attribution *)

(** The provider returned [v] for the text [c], alone or as an entry of a batch. *)
Definition produced (c : string) (v : list spec_float) : Prop :=
  sound v ∧ ∃ p, (ep_embed c p).2 = Ok v ∨
  ∃ cs vs i, (ep_embed_batch cs p).2 = Ok vs ∧ length vs = length cs ∧ cs !! i = Some c ∧ vs !! i = Some v.

(** Every row of the active space names a verified revision, and its vector was
    made from a text with the hash recorded beside it. *)
Definition attributed (d : db) : Prop :=
  ∀ k r, embeddings d !! k = Some r →
    e_provider r = ep_provider_name → e_model r = ep_model_name →
    e_settings_fingerprint r = ep_settings_fingerprint →
    verified (e_model_revision r) ∧
    (e_status r = "ok"%string →
      ∃ c v, hash_content c = e_content_hash r ∧ produced c v ∧ pack_floats v = Ok (e_embedding r)).
Definition vouched (sn : RevisionSnapshot) : Prop := known sn = true → verified (value sn).

(** Another thread: it keeps the store usable, well-formed and attributed. *)
Definition good_thread (f : S → S) : Prop := ∀ t,
  st_ok t → wf (st_view t) → st_ok (f t) ∧ wf (st_view (f t)) ∧
  (attributed (st_view t) → attributed (st_view (f t))).

Definition svc_ok s : Prop :=
  st_ok (sv_store s) ∧ wf (st_view (sv_store s)) ∧ Forall good_thread (sv_others s).
Definition svc_attributed s : Prop := svc_ok s ∧ port_inv (sv_port s) ∧ attributed (st_view (sv_store s)).

Lemma interfere_attributed s : svc_attributed s → svc_attributed (interfere s).
Proof.
  intros ((Hok&Hw&Ho)&Hp&Ha). unfold interfere. destruct (sv_others s) as [|f fs] eqn:Hf; simpl.
  - split; [|done]. split; [done|]. by rewrite Hf.
  - apply Forall_cons in Ho as [Hg Ho]. destruct (Hg _ Hok Hw) as (?&?&?).
    split; [|by auto]. split; [done|]. by split.
Qed.

Lemma ensures_on_store {A} (m : SE S exn A) f :
  st_runs m f → (∀ b d, wf d → wf (f b d).1) →
  (∀ b d, attributed d → attributed (f b d).1) →
  ensures svc_attributed (on_store m) (λ _, True).
Proof.
  intros Hm Hwf Hatt s Hs. apply interfere_attributed in Hs as ((Hok&Hw&Ho)&Hp&Ha).
  destruct (run_op m f _ Hm Hok) as (t&Hrun&Hok'&_&Hv).
  unfold on_store. simpl. rewrite Hrun. simpl. split; [|done].
  split; [|split; [done|simpl; rewrite Hv; by apply Hatt]]. split; [done|]. simpl. rewrite Hv. split; [by apply Hwf|done].
Qed.

(** A read changes nothing. *)
Lemma ensures_on_store_read {A} (m : SE S exn A) (g : bool → db → A) :
  st_runs m (λ b, gets (g b)) → ensures svc_attributed (on_store m) (λ _, True).
Proof. intros Hm. by apply (ensures_on_store m _ Hm). Qed.

Lemma attributed_save now k v h rv st d :
  verified rv → (st = "ok"%string → ∃ c, hash_content c = h ∧ produced c v) → attributed d →
  attributed (Spec.save_embedding now k v ep_model_name ep_provider_name h rv ep_settings_fingerprint st d).1.
Proof.
  intros Hr Hv Ha. unfold Spec.save_embedding. destruct (memories d !! k); [|done].
  case_bool_decide; [|done]. destruct (pack_floats v) as [blob|] eqn:Hp; [|done].
  intros k' r. simpl. destruct (decide (k' = k)) as [->|Hne].
  - rewrite lookup_insert_eq. intros [= <-] _ _ _. split; [done|]. intros Hst. simpl in *.
    destruct (Hv Hst) as (c&Hc&Hprod). by exists c, v.
  - rewrite lookup_insert_ne by done. apply Ha.
Qed.

Lemma ensures_tick : ensures svc_attributed (read_clock utc_now : SE (svc S E) exn Z) (λ _, True).
Proof. intros s Hs. split; [exact Hs|done]. Qed.

Lemma ensures_save k c v rv st :
  verified rv → (st = "ok"%string → produced c v) →
  ensures svc_attributed (save utc_now k c v rv st : SE (svc S E) exn bool) (λ _, True).
Proof.
  intros Hr Hv. eapply ensures_bind; [apply ensures_tick|]. intros now _.
  eapply ensures_on_store; [apply law_save_embedding| |].
  - intros b d. apply keeps_wf_save_embedding.
  - intros b d. apply attributed_save; [done|]. intros Hst. exists c. auto.
Qed.

Lemma ensures_on_port {A} (m : SE E exn A) (Q : A → Prop) :
  (∀ p, port_inv p → port_inv (m p).1 ∧ ∀ a, (m p).2 = Ok a → Q a) → ensures svc_attributed (on_port m) Q.
Proof.
  intros HQ s (Hs&Hp&Ha). destruct (HQ _ Hp) as [Hp' HQ']. split; [|exact HQ'].
  by apply (interfere_attributed (with_port _ s)).
Qed.

Lemma ensures_embed_single c :
  ensures svc_attributed (embed_single c : SE (svc S E) exn _) (produced c).
Proof.
  apply ensures_on_port. intros p [Hp Hs]%(law_embed c). split; [done|]. intros v Hv. split; [by apply Hs|].
  exists p. by left.
Qed.

Lemma ensures_refresh force :
  ensures svc_attributed (refresh_revision force : SE (svc S E) exn _) vouched.
Proof.
  intros s (Hs&[Hp Hv]%(law_refresh force)&Ha). split; [by apply (interfere_attributed (with_port _ s))|].
  by intros sn [= <-].
Qed.
Lemma ensures_snapshot : ensures svc_attributed (revision_snapshot : SE (svc S E) exn _) vouched.
Proof. intros s Hs. split; [done|]. intros sn [= <-] Hk. apply law_snapshot; [apply Hs|done]. Qed.

Lemma ensures_is_current k c rv :
  ensures svc_attributed (is_current k c rv : SE (svc S E) exn _) (λ _, True).
Proof.
  eapply ensures_bind; [eapply ensures_on_store_read; apply law_get_identity|].
  intros i _. by apply ensures_ret.
Qed.

Lemma ensures_record_failure op :
  ensures svc_attributed (record_failure utc_now op : SE (svc S E) exn _) (λ _, True).
Proof.
  eapply ensures_bind; [apply ensures_tick|]. intros now _. by apply ensures_modify.
Qed.
Lemma ensures_record_success :
  ensures svc_attributed (record_success : SE (svc S E) exn _) (λ _, True).
Proof. by apply ensures_modify. Qed.

Lemma attributed_generate k c force :
  ensures svc_attributed (generate_for_memory utc_now k c force : SE (svc S E) exn _) (λ _, True).
Proof.
  eapply ensures_bind; [apply ensures_snapshot|]. intros sn Hsn.
  eapply (ensures_bind _ _ _ vouched).
  { apply ensures_if; intros _; [by apply ensures_ret|apply ensures_refresh]. }
  intros sn' Hsn'. apply ensures_if; intros Hk; [apply ensures_raise|]. apply negb_false_iff, Hsn' in Hk.
  eapply (ensures_bind _ _ _ (λ _, True)).
  { apply ensures_if; intros _; [by apply ensures_ret|apply ensures_is_current]. }
  intros cur _. apply ensures_if; intros _; [by apply ensures_ret|].
  eapply (ensures_bind _ _ _ (λ o, ∀ v, o = Some v → produced c v)).
  - apply ensures_try.
    + eapply ensures_bind; [apply ensures_embed_single|]. intros v Hv. apply ensures_ret. naive_solver.
    + intros e. apply ensures_if; intros _.
      * eapply ensures_bind; [by apply ensures_save|]. intros b _. by apply ensures_ret.
      * eapply ensures_bind; [apply ensures_record_failure|]. intros _ _. apply ensures_raise.
  - intros [v|] Hv; [|by apply ensures_ret].
    eapply ensures_bind; [apply ensures_save; auto|]. intros b _. apply ensures_record_success.
Qed.

Lemma attributed_item rv item vec c :
  verified rv → (∀ v, vec = Some v → produced (content item) v) →
  ensures svc_attributed (backfill_item utc_now rv item vec c : SE (svc S E) exn _) (λ _, True).
Proof.
  intros Hr Hvec. assert (ensures svc_attributed
      (record_failure utc_now "backfill" ;; ret (add_failed c) : SE (svc S E) exn _) (λ _, True)) as Hfail.
  { eapply ensures_bind; [apply ensures_record_failure|]. intros _ _. by apply ensures_ret. }
  apply ensures_try.
  - eapply (ensures_bind _ _ _ (produced (content item))).
    { destruct vec as [v|]; [apply ensures_ret; auto|apply ensures_embed_single]. }
    intros v Hv. eapply ensures_bind; [apply ensures_save; auto|]. intros b _.
    eapply ensures_bind; [apply ensures_record_success|]. intros _ _. by apply ensures_ret.
  - intros e. apply ensures_if; intros _; [|done]. apply ensures_try; [|intros _; done].
    eapply ensures_bind; [by apply ensures_save|]. intros b _. by apply ensures_ret.
Qed.

Lemma attributed_items rv items c :
  verified rv → (∀ item v, (item, Some v) ∈ items → produced (content item) v) →
  ensures svc_attributed (backfill_items utc_now rv items c : SE (svc S E) exn _) (λ _, True).
Proof.
  intros Hr. revert c. induction items as [|[item vec] items IH]; intros c Hall; simpl; [by apply ensures_ret|].
  eapply ensures_bind.
  - apply attributed_item; [done|]. intros v ->. apply Hall. by left.
  - intros c' _. apply IH. intros i v Hi. apply Hall. by right.
Qed.

Lemma attributed_chunk rv chunk c :
  verified rv → ensures svc_attributed (backfill_chunk utc_now rv chunk c : SE (svc S E) exn _) (λ _, True).
Proof.
  intros Hr. eapply (ensures_bind _ _ _ (λ o, ∀ vs, o = Some vs →
    length vs = length chunk ∧ Forall sound vs ∧ ∃ p, (ep_embed_batch (map content chunk) p).2 = Ok vs)).
  - apply ensures_try; [|intros e; by apply ensures_ret].
    eapply ensures_bind.
    { apply ensures_on_port with (Q := λ vs, Forall sound vs ∧ ∃ p, (ep_embed_batch (map content chunk) p).2 = Ok vs).
      intros p [Hp Hs]%(law_batch (map content chunk)). eauto. }
    intros vs Hvs. apply ensures_ret. case_bool_decide; naive_solver.
  - intros [vs|] Hvs; (apply attributed_items; [done|]).
    + destruct (Hvs vs eq_refl) as (Hlen&Hs&p&Hp). intros item v Hin.
      apply elem_of_lookup_zip_with in Hin as (i&x&y&[= <- <-]&Hi&Hj).
      rewrite list_lookup_fmap in Hj. destruct (vs !! i) as [w|] eqn:Hw; [|done]. simplify_eq/=.
      split; [by eapply Forall_lookup_1|]. exists p. right. exists (map content chunk), vs, i. split; [done|].
      rewrite length_map. split; [done|]. split; [|done].
      rewrite list_lookup_fmap, Hi. done.
    + intros item v Hin. apply list_elem_of_fmap in Hin as (?&?&_). done.
Qed.

Lemma attributed_candidates rv force items :
  ensures svc_attributed (select_candidates rv force items : SE (svc S E) exn _) (λ _, True).
Proof.
  induction items as [|item items IH]; simpl; [by apply ensures_ret|].
  eapply (ensures_bind _ _ _ (λ _, True)).
  { apply ensures_if; intros _; [by apply ensures_ret|apply ensures_is_current]. }
  intros cur _. eapply ensures_bind; [exact IH|]. intros rest _. by apply ensures_ret.
Qed.

Lemma attributed_chunks rv cs c :
  verified rv → ensures svc_attributed (backfill_chunks utc_now rv cs c : SE (svc S E) exn _) (λ _, True).
Proof.
  intros Hr. revert c. induction cs as [|chunk cs IH]; intros c; simpl; [by apply ensures_ret|].
  eapply ensures_bind; [by apply attributed_chunk|]. intros c' _. apply IH.
Qed.

Lemma attributed_backfill sn pid force :
  verified (value sn) → ensures svc_attributed (backfill utc_now sn pid force : SE (svc S E) exn _) (λ _, True).
Proof.
  intros Hr. eapply ensures_bind.
  { apply (ensures_on_store _ _ (law_list_memory None false 0 pid None None pinned_first)); by intros. }
  intros items _. eapply ensures_bind; [apply attributed_candidates|]. intros cands _.
  eapply ensures_bind; [by apply attributed_chunks|]. intros [[g f] t] _. by apply ensures_ret.
Qed.

Lemma attributed_missing pid force :
  ensures svc_attributed (generate_missing utc_now pid force : SE (svc S E) exn _) (λ _, True).
Proof.
  eapply (ensures_bind _ _ _ (λ _, True)); [intros s Hs; split; [exact Hs|done]|].
  intros locked _. apply ensures_if; intros _; [by apply ensures_ret|].
  eapply (ensures_bind _ _ _ (λ _, True)); [intros s Hs; split; [exact Hs|done]|].
  intros _ _. apply ensures_finally; [|intros s Hs; split; [exact Hs|done]].
  eapply ensures_bind; [apply ensures_refresh|]. intros sn Hsn.
  apply ensures_if; intros Hk; [apply ensures_raise|]. apply negb_false_iff, Hsn in Hk.
  eapply ensures_bind; [by apply attributed_backfill|]. intros r _.
  destruct pid as [pid|]; [by apply ensures_ret|].
  eapply (ensures_bind _ _ _ (λ _, True)); [intros s Hs; split; [exact Hs|done]|].
  intros _ _. by apply ensures_ret.
Qed.

(** C1. A vector is never attributed to a text it was not computed from, nor to a
    revision the provider did not verify: whatever other threads do to the store
    during the slow provider calls, and whichever calls fail, after generating
    one embedding or a whole backfill (batches included) every row of the active
    space names a verified revision, and every vector in it has the shape the
    provider promises and was returned for a text with exactly the recorded
    hash. *)
Theorem embeddings_attributed (s : svc S E) (k c : string) (pid : option string) (force : bool) :
  svc_ok s → port_inv (sv_port s) → attributed (st_view (sv_store s)) →
  (svc_ok (generate_for_memory utc_now k c force s).1 ∧
   attributed (st_view (sv_store (generate_for_memory utc_now k c force s).1))) ∧
  (svc_ok (generate_missing utc_now pid force s).1 ∧
   attributed (st_view (sv_store (generate_missing utc_now pid force s).1))).
Proof.
  intros Hs Hp Ha. split.
  - by destruct (attributed_generate k c force s) as [(?&_&?) _].
  - by destruct (attributed_missing pid force s) as [(?&_&?) _].
Qed.

(** ** Outcomes without interference *)

(** The stored row of [k] is current for the text [c]. *)
Definition current_row (rv : option string) (c : string) (r : embedding_row) : bool :=
  in_space ep_provider_name ep_model_name ep_settings_fingerprint rv true r
  && bool_decide (e_content_hash r = hash_content c).
Definition current_in (d : db) (k c : string) (rv : option string) : bool :=
  match embeddings d !! k with Some r => current_row rv c r | None => false end.

Lemma identity_current_row rv c r :
  identity_current c rv (mkIdentity (e_provider r) (e_model r) (e_dimensions r) (e_content_hash r)
    (e_model_revision r) (e_settings_fingerprint r) (e_status r)) = current_row rv c r.
Proof.
  unfold identity_current, current_row, in_space. simpl.
  by destruct (bool_decide (e_provider r = _)), (bool_decide (e_model r = _)),
    (bool_decide (e_settings_fingerprint r = _)).
Qed.

(** The service alone with its store. *)
Definition alone s : Prop := st_ok (sv_store s) ∧ sv_others s = [].

Lemma on_store_alone {A} (m : SE S exn A) f s :
  alone s → st_runs m f →
  ∃ t, on_store m s = (with_store t s, (f (st_fts (sv_store s)) (st_view (sv_store s))).2) ∧
    st_ok t ∧ st_fts t = st_fts (sv_store s) ∧
    st_view t = (f (st_fts (sv_store s)) (st_view (sv_store s))).1.
Proof.
  intros [Hok Ho] Hm. destruct (run_op m f _ Hm Hok) as (t&Hrun&?). exists t. split; [|done].
  unfold on_store, interfere. simpl. rewrite Ho. by rewrite Hrun.
Qed.

Lemma on_port_alone {A} (m : SE E exn A) s :
  sv_others s = [] → on_port m s = (with_port (m (sv_port s)).1 s, (m (sv_port s)).2).
Proof. intros Ho. unfold on_port, interfere. simpl. by rewrite Ho. Qed.

Lemma is_current_alone k c rv s :
  alone s → ∃ t, is_current k c rv s = (with_store t s, Ok (current_in (st_view (sv_store s)) k c rv)) ∧
    st_ok t ∧ st_fts t = st_fts (sv_store s) ∧ st_view t = st_view (sv_store s).
Proof.
  intros Ha. unfold is_current, bind.
  destruct (on_store_alone _ _ s Ha (law_get_identity k)) as (t&->&Hok&Hf&Hv).
  exists t. split; [|done]. simpl. unfold ret. f_equal. f_equal. unfold current_in.
  destruct (embeddings _ !! k); simpl; [apply identity_current_row|done].
Qed.

Lemma save_alone k c v rv st s :
  alone s →
  let r := Spec.save_embedding (utc_now (sv_ticks s)) k v ep_model_name ep_provider_name (hash_content c) rv
    ep_settings_fingerprint st (st_view (sv_store s)) in
  ∃ t, save utc_now k c v rv st s = (with_store t (tick s), r.2) ∧
    st_ok t ∧ st_fts t = st_fts (sv_store s) ∧ st_view t = r.1.
Proof.
  intros [Hok Ho] r. unfold save, bind, read_clock.
  destruct (on_store_alone _ _ (tick s) (conj Hok Ho) (law_save_embedding (utc_now (sv_ticks s)) k v
    ep_model_name ep_provider_name (hash_content c) rv ep_settings_fingerprint st)) as (t&->&?). eauto.
Qed.

Lemma generate_snapshot (s : svc S E) :
  sv_others s = [] →
  (if known (ep_revision_snapshot (sv_port s)) then ret (ep_revision_snapshot (sv_port s))
   else refresh_revision false) s =
  let '(p, sn) := if known (ep_revision_snapshot (sv_port s))
    then (sv_port s, ep_revision_snapshot (sv_port s)) else ep_refresh_revision false (sv_port s) in
  (with_port p s, Ok (E:=exn) sn).
Proof.
  intros Ho. destruct (known _); [by destruct s|]. unfold refresh_revision, interfere. simpl. rewrite Ho.
  by destruct (ep_refresh_revision false (sv_port s)).
Qed.

Lemma generate_current (s : svc S E) (force : bool) k c rv :
  alone s →
  ∃ t, (if force then ret false else is_current k c rv) s =
    (with_store t s, Ok (E:=exn) (negb force && current_in (st_view (sv_store s)) k c rv)) ∧
    st_ok t ∧ st_fts t = st_fts (sv_store s) ∧ st_view t = st_view (sv_store s).
Proof.
  intros Ha. destruct force; simpl; [|by apply is_current_alone].
  exists (sv_store s). destruct Ha. by destruct s.
Qed.

(** The outcome of generating one embedding, on every branch, when no other
    thread interferes.  An unverified revision refuses before any embedding
    call; a current row is left alone; an over-length text is parked as a
    tombstone without touching the failure counters; any other provider error
    is counted and re-raised with the store unchanged; a vector is published by
    compare-and-swap under the revision known before the call, and the failure
    counter is reset. *)
Theorem generate_outcomes (s : svc S E) (k c : string) (force : bool) :
  alone s →
  let first := ep_revision_snapshot (sv_port s) in
  let '(p, sn) := if known first then (sv_port s, first) else ep_refresh_revision false (sv_port s) in
  let '(s', r) := generate_for_memory utc_now k c force s in
  let d := st_view (sv_store s) in
  let d' := st_view (sv_store s') in
  let publish := λ v st, (Spec.save_embedding (utc_now (sv_ticks s)) k v ep_model_name ep_provider_name
    (hash_content c) (value sn) ep_settings_fingerprint st d) in
  if negb (known sn) then r = Raise RevisionUnknownError ∧ d' = d ∧ sv_port s' = p ∧
    failure_count s' = failure_count s
  else if negb force && current_in d k c (value sn) then r = Ok tt ∧ d' = d ∧ sv_port s' = p ∧
    failure_count s' = failure_count s
  else sv_port s' = (ep_embed c p).1 ∧
    match (ep_embed c p).2 with
    | Raise e =>
        if is_content_too_long e
        then r = Ok tt ∧ d' = (publish [] "content_too_long").1 ∧ failure_count s' = failure_count s
        else r = Raise e ∧ d' = d ∧ failure_count s' = failure_count s + 1 ∧
             last_failure_op s' = Some "save"%string
    | Ok v =>
        d' = (publish v "ok").1 ∧
        match (publish v "ok").2 with
        | Ok _ => r = Ok tt ∧ failure_count s' = 0
        | Raise e => r = Raise e ∧ failure_count s' = failure_count s
        end
    end.
Proof.
  intros Ha first. unfold generate_for_memory, revision_snapshot. unfold bind at 1. unfold bind at 1.
  rewrite generate_snapshot by apply Ha. fold first.
  destruct (if known first then _ else _) as [p sn]. destruct (known sn); simpl; [|done].
  assert (alone (with_port p s)) as Ha1 by done. unfold bind at 1.
  destruct (generate_current _ force k c (value sn) Ha1) as (t&->&Hok&Hf&Hv). simpl in Hv, Hf.
  simpl. destruct (negb force && current_in (st_view (sv_store s)) k c (value sn)); simpl.
  { rewrite Hv. repeat split; done. }
  assert (alone (with_store t (with_port p s))) as Ha2 by (by split; [|apply Ha]).
  unfold bind at 1, try_catch, bind at 1, embed_single. rewrite on_port_alone by apply Ha. simpl.
  destruct (ep_embed c p) as [p' [v|e]]; simpl.
  - destruct (save_alone k c v (value sn) "ok" (with_port p' (with_store t (with_port p s))) Ha2)
      as (t'&Hsave&_&_&Hv'). simpl in Hsave, Hv'. rewrite Hv in Hsave, Hv'.
    unfold bind. rewrite Hsave.
    destruct (Spec.save_embedding _ _ _ _ _ _ _ _ _ _) as [d' [b|e]] eqn:Hspec; simpl in *; by rewrite Hv'.
  - destruct (is_content_too_long e) eqn:He; simpl.
    + destruct (save_alone k c [] (value sn) "content_too_long"
        (with_port p' (with_store t (with_port p s))) Ha2) as (t'&Hsave&_&_&Hv').
      simpl in Hsave, Hv'. rewrite Hv in Hsave, Hv'. unfold write_tombstone, bind. rewrite Hsave.
      rewrite <- Hv'. unfold Spec.save_embedding. destruct (memories _ !! k); simpl; [|done].
      by case_bool_decide.
    + by rewrite Hv.
Qed.
End service.
