(* ===== verification/Backfill.v ===== *)
(** * Properties of the backfill

    Every item is accounted for, one failure never stops the others, a run
    without failures leaves every memory current, so the next run has nothing
    to do, and the coverage counts predict what a run will process. *)

From S2P Require Import Prelude PyStr Sha256 Domain Sql Store Transactions Port StoreProps SearchProps Embedding EmbeddingProps.
Local Open Scope Z_scope.
Local Open Scope prog_scope.

Section service.
Context {S E : Type} `{HF : FTS5} `{!MemoryStorePort S} `{!EmbeddingPort E} `{!ProviderLaws E}.
Context (utc_now : nat → Z).
Implicit Types (s : svc S E).

Definition the_db s : db := st_view (sv_store s).

(** Every memory of [d] called [k] has a current row. *)
Definition cur (rv : option string) (d : db) (k : string) : bool :=
  match memories d !! k with Some row => current_in d k (r_content row) rv | None => true end.

Definition total (c : Counts) : Z := let '(g, f, t) := c in g + f + t.
Definition failures (c : Counts) : Z := let '(g, f, t) := c in f.

(** Publishing for the text a memory has makes it current, and no other memory
    less so. *)
Lemma save_spec_cur now k v rv st d row b :
  memories d !! k = Some row →
  (Spec.save_embedding now k v ep_model_name ep_provider_name (hash_content (r_content row)) rv
    ep_settings_fingerprint st d).2 = Ok b →
  let d' := (Spec.save_embedding now k v ep_model_name ep_provider_name (hash_content (r_content row)) rv
    ep_settings_fingerprint st d).1 in
  b = true ∧ memories d' = memories d ∧ cur rv d' k = true ∧ ∀ k', cur rv d k' = true → cur rv d' k' = true.
Proof.
  intros Hk. unfold Spec.save_embedding. rewrite Hk, bool_decide_eq_true_2 by done.
  destruct (pack_floats v) as [blob|]; simpl; [|done]. intros [= <-].
  set (e := EmbeddingRow _ _ _ _ _ _ _ _ _).
  assert (current_row rv (r_content row) e = true) as He.
  { unfold current_row, in_space, e. simpl. by rewrite !bool_decide_eq_true_2. }
  assert (cur rv (set_embeddings (<[k:=e]> (embeddings d)) d) k = true) as Hc
    by (unfold cur, current_in; simpl; by rewrite Hk, lookup_insert_eq).
  split; [done|]. split; [done|]. split; [done|].
  intros k' Hk'. destruct (decide (k' = k)) as [->|Hne]; [done|].
  unfold cur, current_in in *. simpl. by rewrite lookup_insert_ne.
Qed.

Lemma save_spec_raise now k v rv st h d e :
  (Spec.save_embedding now k v ep_model_name ep_provider_name h rv ep_settings_fingerprint st d).2 = Raise e →
  (Spec.save_embedding now k v ep_model_name ep_provider_name h rv ep_settings_fingerprint st d).1 = d.
Proof.
  unfold Spec.save_embedding. destruct (memories d !! k); [|done]. case_bool_decide; [|done].
  by destruct (pack_floats v).
Qed.

(** What processing one item, or several, does when nobody interferes. *)
Definition progress (rv : option string) (ks : list string) (d d' : db) (c c' : Counts) : Prop :=
  memories d' = memories d ∧ (∀ k, cur rv d k = true → cur rv d' k = true) ∧
  total c' = total c + Z.of_nat (length ks) ∧ failures c ≤ failures c' ∧
  (failures c' = failures c → ∀ k, k ∈ ks → cur rv d' k = true).

Lemma progress_refl rv d c : progress rv [] d d c c.
Proof. destruct c as [[g f] t]. unfold progress, total, failures. simpl. repeat split; try done; try lia. set_solver. Qed.

Lemma progress_trans rv ks1 ks2 d d1 d2 c c1 c2 :
  progress rv ks1 d d1 c c1 → progress rv ks2 d1 d2 c1 c2 → progress rv (ks1 ++ ks2) d d2 c c2.
Proof.
  intros (M1&C1&T1&F1&A1) (M2&C2&T2&F2&A2). split; [congruence|]. split; [auto|].
  split; [rewrite length_app; lia|]. split; [lia|].
  intros Hf k [Hk|Hk]%elem_of_app.
  - apply C2, A1; [lia|done].
  - apply A2; [lia|done].
Qed.

Lemma progress_fail rv k d c : progress rv [k] d d c (add_failed c).
Proof. destruct c as [[g f] t]. unfold progress, total, failures, add_failed. simpl. repeat split; try done; lia. Qed.

Lemma backfill_fail_alone s rv k c d :
  alone s → the_db s = d →
  ∃ s', (record_failure utc_now "backfill" ;; ret (add_failed c)) s = (s', Ok (E:=exn) (add_failed c)) ∧
    alone s' ∧ st_fts (sv_store s') = st_fts (sv_store s) ∧ progress rv [k] d (the_db s') c (add_failed c).
Proof.
  intros Ha <-. eexists. split; [done|]. split; [exact Ha|]. split; [done|]. apply progress_fail.
Qed.

Lemma save_current_alone k v rv st s row :
  alone s → memories (the_db s) !! k = Some row →
  ∃ s', alone s' ∧
  ((save utc_now k (r_content row) v rv st s = (s', Ok true) ∧ memories (the_db s') = memories (the_db s) ∧
    cur rv (the_db s') k = true ∧ ∀ k', cur rv (the_db s) k' = true → cur rv (the_db s') k' = true) ∨
   ∃ e, save utc_now k (r_content row) v rv st s = (s', Raise e) ∧ the_db s' = the_db s).
Proof.
  intros Ha Hrow. destruct (save_alone utc_now k (r_content row) v rv st s Ha) as (t&Hs&Hok&_&Hv).
  exists (with_store t (tick s)). split; [split; [exact Hok|apply Ha]|].
  unfold the_db in *. simpl. rewrite Hs, Hv.
  destruct (Spec.save_embedding _ _ _ _ _ _ _ _ _ _).2 as [b|e] eqn:Hres.
  - left. by destruct (save_spec_cur _ _ _ _ _ _ _ _ Hrow Hres) as (->&?&?&?).
  - right. exists e. split; [done|]. by eapply save_spec_raise.
Qed.

Lemma progress_done rv k d d' c c' :
  memories d' = memories d → cur rv d' k = true → (∀ k', cur rv d k' = true → cur rv d' k' = true) →
  c' = add_generated c ∨ c' = add_tombstoned c → progress rv [k] d d' c c'.
Proof.
  intros Hm Hc Hall Hcase. unfold progress, total, failures.
  destruct Hcase as [-> | ->]; destruct c as [[g f] t]; simpl; repeat split; try done; try lia;
    by intros _ k' ->%list_elem_of_singleton.
Qed.

Lemma backfill_item_alone s rv item vec c :
  alone s → (∃ row, memories (the_db s) !! id item = Some row ∧ r_content row = content item) →
  ∃ s' c', backfill_item utc_now rv item vec c s = (s', Ok c') ∧ alone s' ∧
    progress rv [id item] (the_db s) (the_db s') c c'.
Proof.
  intros Ha (row&Hrow&Hcont). unfold backfill_item. unfold try_catch at 1. unfold bind at 1.
  assert (∃ p r, (match vec with Some v => ret v | None => embed_single (content item) end) s =
    (with_port p s, r)) as (p&r&->).
  { destruct vec as [v|]; [exists (sv_port s), (Ok v); by destruct s|].
    unfold embed_single. rewrite on_port_alone by apply Ha. eauto. }
  assert (∀ s' e, alone s' → the_db s' = the_db s → ∃ s'' c',
    (if is_content_too_long e then
       try_catch (let* published := write_tombstone utc_now (id item) (content item) rv in
          ret (if (published : bool) then add_tombstoned c else c))
         (λ _, record_failure utc_now "backfill" ;; ret (add_failed c))
     else record_failure utc_now "backfill" ;; ret (add_failed c)) s' = (s'', Ok c') ∧ alone s'' ∧
    progress rv [id item] (the_db s) (the_db s'') c c') as Hhandle.
  { intros s' e Ha' Hd'. rewrite <- Hd', <- Hcont in *.
    destruct (is_content_too_long e).
    - destruct (save_current_alone (id item) [] rv "content_too_long" s' row Ha' Hrow)
        as (s2&Ha2&[(Hs&Hm&Hc&Hall)|(e2&Hs&Hd2)]); unfold try_catch, write_tombstone, bind at 1; rewrite Hs.
      + exists s2, (add_tombstoned c). split; [done|]. split; [done|]. apply progress_done; auto.
      + destruct (backfill_fail_alone s2 rv (id item) c _ Ha2 Hd2) as (s3&->&Ha3&_&Hp). eauto.
    - destruct (backfill_fail_alone s' rv (id item) c _ Ha' eq_refl) as (s3&->&Ha3&_&Hp). eauto. }
  destruct r as [v|e]; [|by apply (Hhandle (with_port p s) e)].
  unfold bind at 1. rewrite <- Hcont.
  destruct (save_current_alone (id item) v rv "ok" (with_port p s) row Ha Hrow)
    as (s2&Ha2&[(Hs&Hm&Hc&Hall)|(e2&Hs&Hd2)]); rewrite Hs.
  - eexists _, (add_generated c). split; [done|]. split; [exact Ha2|]. apply progress_done; auto.
  - rewrite Hcont. by apply (Hhandle s2 e2).
Qed.

(** The items of a run are memories of the database. *)
Definition of_db (d : db) (item : MemoryItem) : Prop :=
  ∃ row, memories d !! id item = Some row ∧ r_content row = content item.

Lemma backfill_items_alone rv items : ∀ s c,
  alone s → Forall (λ iv, of_db (the_db s) iv.1) items →
  ∃ s' c', backfill_items utc_now rv items c s = (s', Ok c') ∧ alone s' ∧
    progress rv (map (λ iv, id iv.1) items) (the_db s) (the_db s') c c'.
Proof.
  induction items as [|[item vec] items IH]; intros s c Ha Hall; simpl.
  - exists s, c. split; [done|]. split; [done|]. apply progress_refl.
  - apply Forall_cons in Hall as [Hi Hall].
    destruct (backfill_item_alone s rv item vec c Ha Hi) as (s1&c1&H1&Ha1&P1). unfold bind. rewrite H1.
    assert (Forall (λ iv, of_db (the_db s1) iv.1) items) as Hall1.
    { destruct P1 as (Hm&_). unfold of_db in *. by rewrite Hm. }
    destruct (IH s1 c1 Ha1 Hall1) as (s2&c2&H2&Ha2&P2). exists s2, c2. split; [done|]. split; [done|].
    exact (progress_trans rv [id item] _ _ _ _ _ _ _ P1 P2).
Qed.

Lemma backfill_chunk_alone rv chunk s c :
  alone s → Forall (of_db (the_db s)) chunk →
  ∃ s' c', backfill_chunk utc_now rv chunk c s = (s', Ok c') ∧ alone s' ∧
    progress rv (map id chunk) (the_db s) (the_db s') c c'.
Proof.
  intros Ha Hall. unfold backfill_chunk. unfold bind at 1, try_catch, bind at 1, embed_batch.
  rewrite on_port_alone by apply Ha. simpl. set (s1 := with_port _ s).
  assert (∀ items, map fst items = chunk → ∃ s' c',
    backfill_items utc_now rv items c s1 = (s', Ok c') ∧ alone s' ∧
    progress rv (map id chunk) (the_db s) (the_db s') c c') as Hitems.
  { intros items Hfst. destruct (backfill_items_alone rv items s1 c Ha) as (s'&c'&H1&H2&H3).
    - subst chunk. rewrite Forall_map in Hall. done.
    - exists s', c'. split; [done|]. split; [done|]. subst chunk. by rewrite map_map. }
  destruct (ep_embed_batch _ _).2 as [vs|e]; simpl.
  - case_bool_decide as Hlen; apply Hitems.
    + apply fst_zip. rewrite length_map. lia.
    + rewrite map_map. by rewrite map_id.
  - apply Hitems. rewrite map_map. by rewrite map_id.
Qed.

Lemma backfill_chunks_alone rv cs : ∀ s c,
  alone s → Forall (of_db (the_db s)) (concat cs) →
  ∃ s' c', backfill_chunks utc_now rv cs c s = (s', Ok c') ∧ alone s' ∧
    progress rv (map id (concat cs)) (the_db s) (the_db s') c c'.
Proof.
  induction cs as [|chunk cs IH]; intros s c Ha Hall; simpl in *.
  - exists s, c. split; [done|]. split; [done|]. apply progress_refl.
  - apply Forall_app in Hall as [Hc Hall].
    destruct (backfill_chunk_alone rv chunk s c Ha Hc) as (s1&c1&H1&Ha1&P1). unfold bind. rewrite H1.
    assert (Forall (of_db (the_db s1)) (concat cs)) as Hall1.
    { destruct P1 as (Hm&_). unfold of_db in *. by rewrite Hm. }
    destruct (IH s1 c1 Ha1 Hall1) as (s2&c2&H2&Ha2&P2). exists s2, c2. split; [done|]. split; [done|].
    rewrite map_app. eapply progress_trans; done.
Qed.

(** The chunks are at most 32 items each and cover the candidates in order. *)
Lemma chunks_spec fuel l :
  (length l ≤ fuel)%nat →
  concat (chunks fuel l) = l ∧ Forall (λ ch, (0 < length ch ≤ Z.to_nat BACKFILL_CHUNK_SIZE)%nat) (chunks fuel l).
Proof.
  revert l. induction fuel as [|fuel IH]; intros l Hl; [destruct l; simpl in *; [done|lia]|].
  destruct l as [|x l]; [done|]. cbn [chunks concat].
  destruct (IH (drop (Z.to_nat BACKFILL_CHUNK_SIZE) (x :: l))) as [Hc Hf].
  { rewrite length_drop. simpl in *. unfold BACKFILL_CHUNK_SIZE. lia. }
  split; [by rewrite Hc, take_drop|]. constructor; [|done].
  rewrite length_take. cbn [length]. unfold BACKFILL_CHUNK_SIZE. lia.
Qed.

Definition candidate (rv : option string) (force : bool) (d : db) (item : MemoryItem) : bool :=
  force || negb (current_in d (id item) (content item) rv).
Definition candidates (rv : option string) (force : bool) (d : db) (items : list MemoryItem) : list MemoryItem :=
  filter (λ item, candidate rv force d item = true) items.

Lemma with_store_id s : with_store (sv_store s) s = s.
Proof. by destruct s. Qed.

Lemma candidates_alone rv force items : ∀ s,
  alone s → ∃ t, select_candidates rv force items s =
    (with_store t s, Ok (E:=exn) (candidates rv force (the_db s) items)) ∧
    st_ok t ∧ st_view t = the_db s.
Proof.
  induction items as [|item items IH]; intros s Ha; simpl.
  - exists (sv_store s). rewrite with_store_id. split; [done|]. split; [apply Ha|done].
  - unfold bind at 1.
    destruct (generate_current s force (id item) (content item) rv Ha) as (t&->&Hok&_&Hv).
    assert (alone (with_store t s)) as Ha1 by (by split; [|apply Ha]).
    destruct (IH _ Ha1) as (t'&Hrun&Hok'&Hv'). unfold bind. rewrite Hrun. exists t'.
    split; [|split; [done|by rewrite Hv']]. simpl. unfold the_db in *. simpl in *.
    unfold ret, candidates. rewrite Hv. f_equal. f_equal. rewrite filter_cons. unfold candidate.
    by destruct force, (current_in (st_view (sv_store s)) _ _ _).
Qed.

(** The whole-corpus listing: every memory, with the text it has. *)
Definition listed (d : db) : list MemoryItem :=
  map row_to_memory_item (select_memories (λ _, Spec.list_where false None None None) pinned_first_leb d).

Lemma listed_elem d item :
  item ∈ listed d ↔ ∃ k row, memories d !! k = Some row ∧ item = row_to_memory_item (k, row).
Proof.
  unfold listed. rewrite list_elem_of_fmap. split.
  - intros ([k row]&->&Hin). apply select_memories_elem in Hin as [Hk _]. eauto.
  - intros (k&row&Hk&->). exists (k, row). split; [done|]. by apply select_memories_elem.
Qed.

Lemma list_alone s :
  alone s → ∃ t, on_store (st_list_memory None false 0 None None None pinned_first) s =
    (with_store t s, Ok (listed (the_db s))) ∧ st_ok t ∧ st_view t = the_db s.
Proof.
  intros Ha.
  destruct (on_store_alone _ _ s Ha (law_list_memory None false 0 None None None pinned_first))
    as (t&->&Hok&_&Hv).
  exists t. split; [|by split]. simpl. unfold listed, the_db. by rewrite drop_0.
Qed.

(** The lock and the reconciled revision are not the loop's business. *)
Section frame.
Context (locked : bool) (rec : option (option string)).

Definition framed s : Prop := backfill_locked s = locked ∧ reconciled_revision s = rec.

Lemma framed_interfere s : framed s → framed (interfere s).
Proof. unfold framed, interfere. by destruct (sv_others s). Qed.
Lemma framed_on_store {A} (m : SE S exn A) : preserves framed (on_store m : SE (svc S E) exn A).
Proof. intros s Hs. exact (framed_interfere s Hs). Qed.
Lemma framed_on_port {A} (m : SE E exn A) : preserves framed (on_port m : SE (svc S E) exn A).
Proof. intros s Hs. exact (framed_interfere (with_port _ s) Hs). Qed.
Lemma framed_clock : preserves framed (read_clock utc_now : SE (svc S E) exn Z).
Proof. intros s Hs. exact Hs. Qed.
Lemma framed_failures f : (∀ s, framed s → framed (f s)) → preserves framed (@modify _ exn f).
Proof. apply preserves_modify. Qed.
#[local] Hint Resolve framed_on_store framed_on_port framed_clock framed_failures : preserves.

Lemma framed_record_failure op : preserves framed (record_failure utc_now op : SE (svc S E) exn _).
Proof. unfold record_failure. by auto with preserves. Qed.
Lemma framed_record_success : preserves framed (record_success : SE (svc S E) exn _).
Proof. by apply framed_failures. Qed.
Lemma framed_save k c v rv st : preserves framed (save utc_now k c v rv st : SE (svc S E) exn _).
Proof. unfold save. auto with preserves. Qed.
Lemma framed_is_current k c rv : preserves framed (is_current k c rv : SE (svc S E) exn _).
Proof. unfold is_current. auto with preserves. Qed.
#[local] Hint Resolve framed_record_failure framed_record_success framed_save framed_is_current : preserves.

Lemma framed_item rv item vec c : preserves framed (backfill_item utc_now rv item vec c : SE (svc S E) exn _).
Proof.
  apply preserves_try.
  - apply preserves_bind; [destruct vec; unfold embed_single; auto with preserves|]. auto 10 with preserves.
  - intros e. unfold write_tombstone. destruct (is_content_too_long e); auto 10 with preserves.
Qed.
Lemma framed_items rv items c : preserves framed (backfill_items utc_now rv items c : SE (svc S E) exn _).
Proof.
  revert c. induction items as [|[item vec] items IH]; intros c; simpl; [auto with preserves|].
  apply preserves_bind; [apply framed_item|done].
Qed.
Lemma framed_chunks rv cs c : preserves framed (backfill_chunks utc_now rv cs c : SE (svc S E) exn _).
Proof.
  revert c. induction cs as [|chunk cs IH]; intros c; simpl; [auto with preserves|].
  apply preserves_bind; [|done]. apply preserves_bind; [unfold embed_batch; auto 10 with preserves|].
  intros vs. apply framed_items.
Qed.
Lemma framed_candidates rv force items :
  preserves framed (select_candidates rv force items : SE (svc S E) exn _).
Proof.
  induction items as [|item items IH]; simpl; [auto with preserves|].
  apply preserves_bind; [destruct force; auto with preserves|]. auto with preserves.
Qed.
Lemma framed_backfill sn pid force : preserves framed (backfill utc_now sn pid force : SE (svc S E) exn _).
Proof.
  apply preserves_bind; [auto with preserves|]. intros items.
  apply preserves_bind; [apply framed_candidates|]. intros cs.
  apply preserves_bind; [apply framed_chunks|]. intros [[g f] t]. auto with preserves.
Qed.
End frame.

(** The loop over the whole corpus, alone. *)
Lemma backfill_alone s sn force :
  alone s →
  let cands := candidates (value sn) force (the_db s) (listed (the_db s)) in
  ∃ s' g f t, backfill utc_now sn None force s = (s', Ok (mkBackfill g f t false)) ∧ alone s' ∧
    progress (value sn) (map id cands) (the_db s) (the_db s') (0, 0, 0) (g, f, t) ∧
    (cands = [] → sv_port s' = sv_port s ∧ the_db s' = the_db s ∧ (g, f, t) = (0, 0, 0)).
Proof.
  intros Ha cands. unfold backfill. unfold bind at 1. destruct (list_alone s Ha) as (t1&->&Hok1&Hv1).
  assert (alone (with_store t1 s)) as Ha2 by (by split; [|apply Ha]).
  assert (the_db (with_store t1 s) = the_db s) as Hd1 by done.
  unfold bind at 1. destruct (candidates_alone (value sn) force (listed (the_db s)) _ Ha2) as (t2&->&Hok2&Hv2).
  rewrite Hd1. fold cands. set (s2 := with_store t2 (with_store t1 s)).
  assert (alone s2) as Ha3 by (by split; [|apply Ha]).
  assert (the_db s2 = the_db s) as Hd2 by (unfold the_db; simpl; by rewrite Hv2).
  destruct (chunks_spec (length cands) cands (le_n _)) as [Hconcat _].
  destruct (backfill_chunks_alone (value sn) (chunks (length cands) cands) s2 (0, 0, 0) Ha3)
    as (s4&[[g f] t]&Hrun&Ha4&Hp).
  { rewrite Hconcat, Hd2. apply Forall_forall. intros item [_ Hin]%list_elem_of_filter.
    apply listed_elem in Hin as (k&row&Hk&->). by exists row. }
  rewrite Hconcat, Hd2 in Hp. exists s4, g, f, t. unfold bind. rewrite Hrun.
  split; [done|]. split; [done|]. split; [done|].
  intros Hnil. rewrite Hnil in Hrun. simpl in Hrun. unfold ret in Hrun. by simplify_eq/=.
Qed.

(** A whole-corpus run from a verified revision, alone. *)
Lemma generate_missing_alone s force p sn :
  alone s → backfill_locked s = false → ep_refresh_revision true (sv_port s) = (p, sn) → known sn = true →
  let cands := candidates (value sn) force (the_db s) (listed (the_db s)) in
  ∃ s' g f t, generate_missing utc_now None force s = (s', Ok (mkBackfill g f t false)) ∧
    alone s' ∧ backfill_locked s' = false ∧ reconciled_revision s' = Some (value sn) ∧
    progress (value sn) (map id cands) (the_db s) (the_db s') (0, 0, 0) (g, f, t) ∧
    (cands = [] → sv_port s' = p ∧ the_db s' = the_db s ∧ (g, f, t) = (0, 0, 0)).
Proof.
  intros Ha Hl Href Hkn cands. unfold generate_missing. unfold bind at 1. simpl. rewrite Hl.
  unfold bind at 1, modify at 1. unfold try_finally. unfold bind at 1, refresh_revision.
  simpl. rewrite Href. simpl. rewrite Hkn. simpl.
  assert (interfere (with_port p (with_lock true s)) = with_port p (with_lock true s)) as ->.
  { unfold interfere. simpl. by rewrite (proj2 Ha). }
  destruct (backfill_alone (with_port p (with_lock true s)) sn force Ha) as (s'&g&f&t&Hrun&Ha'&Hp&Hport).
  unfold bind at 1. rewrite Hrun. simpl. exists (with_lock false (with_reconciled (Some (value sn)) s')), g, f, t.
  split; [done|]. split; [exact Ha'|]. split; [done|]. split; [done|]. split; [exact Hp|exact Hport].
Qed.

(** When nothing failed, every memory ends current. *)
Lemma progress_current rv force d d' g f t :
  progress rv (map id (candidates rv force d (listed d))) d d' (0, 0, 0) (g, f, t) → f = 0 → ∀ k, cur rv d' k = true.
Proof.
  intros (Hm&Hmono&_&_&Hall) -> k. destruct (memories d !! k) as [row|] eqn:Hk; [|unfold cur; by rewrite Hm, Hk].
  destruct (candidate rv force d (row_to_memory_item (k, row))) eqn:Hc.
  - apply Hall; [done|]. apply list_elem_of_fmap. exists (row_to_memory_item (k, row)).
    split; [done|]. apply list_elem_of_filter. split; [done|]. apply listed_elem. eauto.
  - apply Hmono. unfold candidate in Hc. apply orb_false_iff in Hc as [_ Hc].
    apply negb_false_iff in Hc. unfold cur. by rewrite Hk.
Qed.

(** C6. A backfill that nobody interferes with processes every candidate exactly
    once (generated + failed + tombstoned is the number of memories without a
    current row, or of all memories when forced), whatever the provider does:
    no failure stops the others.  If none failed, every memory ends current, and
    running it again under the same revision finds nothing to do and makes no
    embedding call. *)
Theorem backfill_converges s force p sn :
  alone s → backfill_locked s = false → ep_refresh_revision true (sv_port s) = (p, sn) → known sn = true →
  ∃ s' g f t, generate_missing utc_now None force s = (s', Ok (mkBackfill g f t false)) ∧
    g + f + t = Z.of_nat (length (candidates (value sn) force (the_db s) (listed (the_db s)))) ∧
    memories (the_db s') = memories (the_db s) ∧
    (f = 0 → ∀ k, cur (value sn) (the_db s') k = true) ∧
    (f = 0 → ∀ p' sn', ep_refresh_revision true (sv_port s') = (p', sn') → known sn' = true →
       value sn' = value sn →
       ∃ s'', generate_missing utc_now None false s' = (s'', Ok (mkBackfill 0 0 0 false)) ∧
         the_db s'' = the_db s' ∧ sv_port s'' = p').
Proof.
  intros Ha Hl Href Hkn.
  destruct (generate_missing_alone s force p sn Ha Hl Href Hkn) as (s'&g&f&t&Hrun&Ha'&Hl'&_&Hp&_).
  exists s', g, f, t. split; [done|]. pose proof Hp as (Hm&_&Htot&_). simpl in Htot.
  rewrite length_map in Htot. split; [lia|]. split; [done|].
  assert (f = 0 → ∀ k, cur (value sn) (the_db s') k = true) as Hcur by (by eapply progress_current).
  split; [done|]. intros Hf p' sn' Href' Hkn' Hv.
  destruct (generate_missing_alone s' false p' sn' Ha' Hl' Href' Hkn') as (s''&g'&f'&t'&Hrun'&_&_&_&Hp'&Hport).
  assert (candidates (value sn') false (the_db s') (listed (the_db s')) = []) as Hnil.
  { apply elem_of_nil_inv. intros item [Hc Hin]%list_elem_of_filter.
    apply listed_elem in Hin as (k&row&Hk&->). specialize (Hcur Hf k).
    unfold candidate in Hc. unfold cur in Hcur. rewrite Hk in Hcur. rewrite Hv in Hc. simpl in Hc.
    by rewrite Hcur in Hc. }
  destruct (Hport Hnil) as (Hport'&Hdb&Hz). exists s''. by simplify_eq.
Qed.

Lemma read_alone {A} (m : SE S exn A) (g : bool → db → A) s :
  alone s → st_runs m (λ b, gets (g b)) →
  ∃ t, on_store m s = (with_store t s, Ok (g (st_fts (sv_store s)) (the_db s))) ∧
    alone (with_store t s) ∧ st_fts t = st_fts (sv_store s) ∧ the_db (with_store t s) = the_db s.
Proof.
  intros Ha Hm. destruct (on_store_alone _ _ s Ha Hm) as (t&->&Hok&Hf&Hv). exists t.
  split; [done|]. split; [by split; [|apply Ha]|]. by split.
Qed.

Lemma candidates_count rv d :
  length (candidates rv false d (listed d)) =
  map_count (λ k row, negb (current_in d k (r_content row) rv)) (memories d).
Proof.
  rewrite <- map_count_list. unfold candidates, listed, select_memories.
  assert (∀ l : list (string * memory_row),
    length (filter (λ item, candidate rv false d item = true) (map row_to_memory_item l)) =
    length (filter (λ kr : string * memory_row, negb (current_in d kr.1 (r_content kr.2) rv) = true) l)) as Hmap.
  { induction l as [|[k row] l IH]; [done|]. cbn [map].
    destruct (decide (candidate rv false d (row_to_memory_item (k, row)) = true)) as [Hc|Hc].
    - rewrite !filter_cons_True by exact Hc. cbn [length]. f_equal. exact IH.
    - rewrite !filter_cons_False by exact Hc. apply IH. }
  etrans; [apply Hmap|]. apply Permutation_length. rewrite sort_by_perm, list_filter_filter.
  apply reflexive_eq, list_filter_iff. intros [k row]. simpl. naive_solver.
Qed.

(** Missing rows and rows that are not current, counted over the memories. *)
Lemma missing_plus_stale rv d :
  wf d →
  Z.of_nat (size (memories d)) - Z.of_nat (size (embeddings d)) +
  Z.of_nat (map_count (λ k e, negb (up_to_date ep_provider_name ep_model_name ep_settings_fingerprint rv true d k e))
    (embeddings d)) =
  Z.of_nat (map_count (λ k row, negb (current_in d k (r_content row) rv)) (memories d)).
Proof.
  intros Hw. set (upd_ := up_to_date _ _ _ rv true d).
  rewrite <- (map_count_true (embeddings d)), <- (map_count_join (λ _ _, true) (embeddings d) (memories d) (wf_memory d Hw)).
  rewrite <- (map_count_join (λ k e, negb (upd_ k e)) (embeddings d) (memories d) (wf_memory d Hw)).
  assert (map_count (λ k _, match embeddings d !! k with Some _ => true | None => false end) (memories d) +
    map_count (λ k _, match embeddings d !! k with Some _ => false | None => true end) (memories d) =
    size (memories d))%nat as H1.
  { rewrite <- map_count_true. apply map_count_add; intros k row _; by destruct (embeddings d !! k). }
  assert (map_count (λ k _, match embeddings d !! k with Some _ => false | None => true end) (memories d) +
    map_count (λ k _, match embeddings d !! k with Some e => negb (upd_ k e) | None => false end) (memories d) =
    map_count (λ k row, negb (current_in d k (r_content row) rv)) (memories d))%nat as H2.
  { apply map_count_add; intros k row Hk; unfold current_in, upd_, up_to_date, current_row;
      destruct (embeddings d !! k) as [e|]; [|done| |done]; rewrite ?Hk; [|done].
    simpl. do 2 f_equal. apply bool_decide_ext. naive_solver. }
  lia.
Qed.

(** Coverage counts predict the next backfill: with a verified revision,
    [missing] plus [stale] is exactly the number of candidates an unforced
    whole-corpus run selects, [missing] is never negative, and [embedded] plus
    the missing rows never exceeds the number of memories. *)
Theorem status_predicts_backfill s :
  alone s → wf (the_db s) → known (ep_revision_snapshot (sv_port s)) = true →
  ∃ s' st, embedding_status s = (s', Ok st) ∧ the_db s' = the_db s ∧ 0 ≤ es_missing st ∧
    es_embedded st + es_missing st ≤ es_total_memories st ∧
    es_missing st + es_stale st =
      Z.of_nat (length (candidates (value (ep_revision_snapshot (sv_port s))) false (the_db s)
        (listed (the_db s)))).
Proof.
  intros Ha Hw Hkn. set (rv := value (ep_revision_snapshot (sv_port s))).
  unfold embedding_status, revision_snapshot. unfold bind at 1. rewrite Hkn. fold rv.
  unfold bind at 1. destruct (read_alone _ _ s Ha (law_count_memory None)) as (t1&->&Ha1&_&Hd1).
  unfold bind at 1. destruct (read_alone _ _ _ Ha1 (law_count_embeddings None)) as (t2&->&Ha2&_&Hd2).
  unfold bind at 1. destruct (read_alone _ _ _ Ha2 (law_count_embeddings (Some "ok"%string))) as (t3&->&Ha3&_&Hd3).
  unfold bind at 1. destruct (read_alone _ _ _ Ha3 (law_stale_counts ep_provider_name ep_model_name
    ep_settings_fingerprint rv true)) as (t4&->&Ha4&_&Hd4). rewrite Hd3, Hd2, Hd1.
  unfold bind at 1. destruct (read_alone _ _ _ Ha4 (law_count_unembeddable ep_provider_name ep_model_name
    ep_settings_fingerprint rv true)) as (t5&->&Ha5&_&Hd5).
  eexists _, _. split; [done|]. split; [by rewrite Hd5, Hd4, Hd3, Hd2, Hd1|]. simpl.
  rewrite stale_sum by done.
  assert (filter (λ kr : string * memory_row, true = true) (memories (the_db s)) = memories (the_db s)) as ->
    by (by apply map_filter_id).
  assert (count_where (λ _, true) (the_db s) = Z.of_nat (size (embeddings (the_db s)))) as ->
    by (unfold count_where; by rewrite map_filter_id).
  rewrite candidates_count, <- missing_plus_stale by done.
  pose proof (map_count_join (λ _ _, true) (embeddings (the_db s)) (memories (the_db s)) (wf_memory _ Hw)) as Hj.
  rewrite map_count_true in Hj. pose proof (map_count_le (λ k _, match embeddings (the_db s) !! k with
    | Some _ => true | None => false end) (memories (the_db s))) as Hle.
  pose proof (map_count_le (λ _ r, bool_decide (e_status r = "ok"%string)) (embeddings (the_db s))) as Hok.
  change (count_where (λ r, bool_decide (e_status r = "ok"%string)) (the_db s)) with
    (Z.of_nat (map_count (λ _ r, bool_decide (e_status r = "ok"%string)) (embeddings (the_db s)))).
  lia.
Qed.

(** ** Under interference *)

(** [m] never raises, whatever other threads do. *)
Definition returns {A} (m : SE (svc S E) exn A) (Q : A → Prop) : Prop :=
  ∀ s, svc_ok s → ∃ s' a, m s = (s', Ok a) ∧ svc_ok s' ∧ Q a.

Lemma interfere_ok s : svc_ok s → svc_ok (interfere s).
Proof.
  intros (Hok&Hw&Ho). unfold interfere. destruct (sv_others s) as [|f fs] eqn:Hf.
  - split; [done|]. split; [done|]. by rewrite Hf.
  - apply Forall_cons in Ho as [Hg Ho]. by destruct (Hg _ Hok Hw) as (?&?&?).
Qed.

Lemma on_store_ok {A} (m : SE S exn A) f s :
  st_runs m f → (∀ b d, wf d → wf (f b d).1) → svc_ok s →
  ∃ s' b d, on_store m s = (s', (f b d).2) ∧ svc_ok s'.
Proof.
  intros Hm Hf Hs. apply interfere_ok in Hs as (Hok&Hw&Ho). unfold on_store.
  destruct (run_op m f _ Hm Hok) as (t&Hrun&Hok'&_&Hv). simpl. rewrite Hrun.
  exists (with_store t (interfere s)), (st_fts (sv_store (interfere s))), (st_view (sv_store (interfere s))).
  split; [done|]. split; [done|]. split; [|done]. simpl. rewrite Hv. by apply Hf.
Qed.

Lemma on_port_ok {A} (m : SE E exn A) s : svc_ok s → ∃ s' r, on_port m s = (s', r) ∧ svc_ok s'.
Proof. intros Hs. eexists _, _. split; [done|]. by apply (interfere_ok (with_port _ s)). Qed.

Lemma save_ok k c v rv st s :
  svc_ok s → ∃ s' r, save utc_now k c v rv st s = (s', r) ∧ svc_ok s'.
Proof.
  intros Hs. unfold save, bind, read_clock.
  destruct (on_store_ok _ _ (tick s) (law_save_embedding (utc_now (sv_ticks s)) k v ep_model_name
    ep_provider_name (hash_content c) rv ep_settings_fingerprint st)
    (λ _ d, keeps_wf_save_embedding _ _ _ _ _ _ _ _ _ d) Hs) as (s'&b&d&->&?).
  eauto.
Qed.

(** One step of the counters. *)
Definition counted (n : Z) (c c' : Counts) : Prop :=
  let '(g, f, t) := c in let '(g', f', t') := c' in
  g ≤ g' ∧ f ≤ f' ∧ t ≤ t' ∧ total c' ≤ total c + n.

Lemma counted_trans n m c1 c2 c3 : counted n c1 c2 → counted m c2 c3 → counted (n + m) c1 c3.
Proof. destruct c1 as [[? ?] ?], c2 as [[? ?] ?], c3 as [[? ?] ?]. unfold counted, total. lia. Qed.

Lemma counted_step c c' :
  c' = c ∨ c' = add_generated c ∨ c' = add_failed c ∨ c' = add_tombstoned c → counted 1 c c'.
Proof. destruct c as [[? ?] ?]. intros [-> |[-> |[-> | ->]]]; unfold counted, total; simpl; lia. Qed.

Lemma item_returns rv item vec c : returns (backfill_item utc_now rv item vec c) (counted 1 c).
Proof.
  intros s Hs. unfold backfill_item. unfold try_catch at 1. unfold bind at 1.
  assert (∃ s1 r, (match vec with Some v => ret v | None => embed_single (content item) end) s = (s1, r) ∧ svc_ok s1)
    as (s1&r&->&Hs1).
  { destruct vec as [v|]; [by eexists _, _|by apply on_port_ok]. }
  assert (∀ s' e, svc_ok s' → ∃ s'' c',
    (if is_content_too_long e then
       try_catch (let* published := write_tombstone utc_now (id item) (content item) rv in
          ret (if (published : bool) then add_tombstoned c else c))
         (λ _, record_failure utc_now "backfill" ;; ret (add_failed c))
     else record_failure utc_now "backfill" ;; ret (add_failed c)) s' = (s'', Ok c') ∧ svc_ok s'' ∧
    counted 1 c c') as Hhandle.
  { intros s' e Hs'. destruct (is_content_too_long e).
    - unfold try_catch, write_tombstone, bind at 1.
      destruct (save_ok (id item) (content item) [] rv "content_too_long" s' Hs') as (s2&[b|e2]&->&Hs2).
      + eexists _, _. split; [done|]. split; [done|]. apply counted_step. destruct b; auto.
      + eexists _, _. split; [done|]. split; [exact Hs2|]. apply counted_step. auto.
    - eexists _, _. split; [done|]. split; [exact Hs'|]. apply counted_step. auto. }
  destruct r as [v|e]; [|by apply Hhandle]. unfold bind at 1.
  destruct (save_ok (id item) (content item) v rv "ok" s1 Hs1) as (s2&[b|e2]&->&Hs2); [|by apply Hhandle].
  eexists _, _. split; [done|]. split; [exact Hs2|]. apply counted_step. destruct b; auto.
Qed.

Lemma items_return rv items : ∀ c,
  returns (backfill_items utc_now rv items c) (counted (Z.of_nat (length items)) c).
Proof.
  induction items as [|[item vec] items IH]; intros c s Hs; simpl.
  - exists s, c. destruct c as [[? ?] ?]. unfold counted. split; [done|]. split; [done|]. lia.
  - destruct (item_returns rv item vec c s Hs) as (s1&c1&H1&Hs1&Hc1). unfold bind. rewrite H1.
    destruct (IH c1 s1 Hs1) as (s2&c2&->&Hs2&Hc2). exists s2, c2. split; [done|]. split; [done|].
    replace (Z.of_nat (Datatypes.S (length items))) with (1 + Z.of_nat (length items)) by lia.
    by eapply counted_trans.
Qed.

Lemma chunk_returns rv chunk c :
  returns (backfill_chunk utc_now rv chunk c) (counted (Z.of_nat (length chunk)) c).
Proof.
  intros s Hs. unfold backfill_chunk. unfold bind at 1, try_catch, bind at 1.
  destruct (on_port_ok (ep_embed_batch (map content chunk)) s Hs) as (s1&r&Hr&Hs1).
  unfold embed_batch. rewrite Hr. destruct r as [vs|e]; simpl.
  - case_bool_decide as Hlen.
    + destruct (items_return rv (zip chunk (map Some vs)) c s1 Hs1) as (s2&c2&->&Hs2&Hc2).
      exists s2, c2. split; [done|]. split; [done|].
      by rewrite length_zip_with_l_eq in Hc2 by (rewrite length_map; lia).
    + destruct (items_return rv (map (λ i, (i, None)) chunk) c s1 Hs1) as (s2&c2&->&Hs2&Hc2).
      exists s2, c2. by rewrite length_map in Hc2.
  - destruct (items_return rv (map (λ i, (i, None)) chunk) c s1 Hs1) as (s2&c2&->&Hs2&Hc2).
    exists s2, c2. by rewrite length_map in Hc2.
Qed.

Lemma chunks_return rv cs : ∀ c,
  returns (backfill_chunks utc_now rv cs c) (counted (Z.of_nat (length (concat cs))) c).
Proof.
  induction cs as [|chunk cs IH]; intros c s Hs; simpl.
  - exists s, c. destruct c as [[? ?] ?]. unfold counted. split; [done|]. split; [done|]. lia.
  - destruct (chunk_returns rv chunk c s Hs) as (s1&c1&H1&Hs1&Hc1). unfold bind. rewrite H1.
    destruct (IH c1 s1 Hs1) as (s2&c2&->&Hs2&Hc2). exists s2, c2. split; [done|]. split; [done|].
    rewrite length_app, Nat2Z.inj_add. by eapply counted_trans.
Qed.

Lemma candidates_return rv force items :
  returns (select_candidates rv force items) (λ l, (length l ≤ length items)%nat).
Proof.
  induction items as [|item items IH]; intros s Hs; simpl; [by exists s, []|].
  unfold bind at 1. assert (∃ s1 b, (if force then ret false else is_current (id item) (content item) rv) s =
    (s1, Ok (E:=exn) b) ∧ svc_ok s1) as (s1&b&->&Hs1).
  { destruct force; [by exists s, false|]. unfold is_current, bind.
    destruct (on_store_ok _ _ s (law_get_identity (id item)) (λ _ d Hd, Hd) Hs) as (s1&b&d&->&Hs1).
    by eexists _, _. }
  destruct (IH s1 Hs1) as (s2&l&H2&Hs2&Hl). unfold bind. rewrite H2.
  eexists _, _. split; [done|]. split; [done|]. destruct b; simpl; lia.
Qed.

Lemma backfill_returns sn pid force :
  returns (backfill utc_now sn pid force) (λ r, skipped r = false ∧
    0 ≤ generated r ∧ 0 ≤ failed r ∧ 0 ≤ tombstoned r).
Proof.
  intros s Hs. unfold backfill. unfold bind at 1.
  destruct (on_store_ok _ _ s (law_list_memory None false 0 pid None None pinned_first) (λ _ d Hd, Hd) Hs)
    as (s1&b&d&->&Hs1). simpl.
  unfold bind at 1. match goal with |- context [select_candidates _ _ ?l _] =>
    destruct (candidates_return (value sn) force l s1 Hs1) as (s2&cands&->&Hs2&_) end.
  destruct (chunks_return (value sn) (chunks (length cands) cands) (0, 0, 0) s2 Hs2)
    as (s3&[[g f] t]&H3&Hs3&Hc). unfold bind. rewrite H3.
  eexists _, _. split; [done|]. split; [done|]. unfold counted in Hc. simpl. lia.
Qed.

(** A backfill call is well-behaved under any interleaving of other threads:
    while another one holds the lock it does nothing and reports a skip;
    otherwise it ends with the lock released.  An unverified revision refuses
    the run before anything is read, embedded or written; with a verified one
    the run always completes with honest counts, never an exception, and only a
    completed whole-corpus run records the revision it reconciled. *)
Theorem backfill_guard s pid force :
  svc_ok s →
  (backfill_locked s = true →
     generate_missing utc_now pid force s = (s, Ok (mkBackfill 0 0 0 true))) ∧
  (backfill_locked s = false →
   let '(p, sn) := ep_refresh_revision true (sv_port s) in
   let '(s', r) := generate_missing utc_now pid force s in
   backfill_locked s' = false ∧
   reconciled_revision s' =
     (if known sn && bool_decide (pid = None) then Some (value sn) else reconciled_revision s) ∧
   (known sn = false → r = Raise RevisionUnknownError ∧ s' = interfere (with_port p s)) ∧
   (known sn = true → ∃ b, r = Ok b ∧ skipped b = false ∧ 0 ≤ generated b ∧ 0 ≤ failed b ∧ 0 ≤ tombstoned b)).
Proof.
  intros Hs. split; intros Hl; unfold generate_missing, bind at 1; simpl; rewrite Hl; [done|].
  destruct (ep_refresh_revision true (sv_port s)) as [p sn] eqn:Href.
  unfold bind at 1, modify at 1, try_finally, bind at 1, refresh_revision. simpl. rewrite Href. simpl.
  assert (interfere (with_port p (with_lock true s)) = with_lock true (interfere (with_port p s))) as ->
    by (unfold interfere; simpl; by destruct (sv_others s)).
  assert (framed true (reconciled_revision s) (with_lock true (interfere (with_port p s)))) as Hfr
    by (split; [done|]; unfold interfere; simpl; by destruct (sv_others s)).
  destruct (known sn); simpl.
  - unfold bind at 1.
    destruct (backfill_returns sn pid force (with_lock true (interfere (with_port p s)))) as (s1&r&Hr&_&Hq).
    { exact (interfere_ok (with_port p s) Hs). }
    pose proof (framed_backfill _ _ sn pid force _ Hfr) as [_ Hrec]. rewrite Hr in *. simpl in Hrec.
    destruct pid; simpl; (split; [done|]; split; [done|]; split; [done|]; eauto).
  - split; [done|]. split; [by destruct Hfr|]. split; [|done]. intros _. split; [done|].
    unfold interfere. simpl. destruct s as [? ? [|] ? ? ? ? ? ? ? ?]; simpl in *; by subst.
Qed.
End service.

(** * The embedding service on a concrete store and provider

    A provider that embeds every text as one number, rejects a text containing
    "too long" as over-length and fails on one containing "boom"; its revision
    is unverified until it has been called.  The store is the SQLite store with
    three memories.  Each property of the service is applied here. *)

Definition toy_answer (c : string) : result exn (list spec_float) :=
  if contains "too long" c then Raise (ProviderError CONTENT_TOO_LONG)
  else if contains "boom" c then Raise (ProviderError TIMEOUT)
  else Ok [half].

Definition toy_snapshot (calls : nat) : RevisionSnapshot :=
  match calls with O => UNKNOWN_REVISION | _ => mkSnapshot true (Some "r1"%string) None end.

#[local] Instance toy_port : EmbeddingPort nat := {|
  ep_embed c n := (S n, toy_answer c);
  ep_embed_batch cs n := (S n, snd (map_m (λ c (_ : unit), (tt, toy_answer c)) cs tt));
  ep_model_name := "toy"; ep_provider_name := "toy"; ep_settings_fingerprint := "f";
  ep_tracks_revision := true;
  ep_revision_snapshot := toy_snapshot;
  ep_refresh_revision _ n := (S n, toy_snapshot (S n)) |}.
#[local] Existing Instance substring_fts.

(** What it promises: one number per text, and no revision but [r1]. *)
Lemma toy_answer_sound c v : toy_answer c = Ok v → length v = 1%nat.
Proof. unfold toy_answer. case_all. intros [= <-]. done. Qed.
Lemma toy_batch_sound cs vs : (map_m (λ c (_ : unit), (tt, toy_answer c)) cs tt).2 = Ok vs → Forall (λ v, length v = 1%nat) vs.
Proof.
  revert vs. induction cs as [|c cs IH]; intros vs; simpl; [by intros [= <-]|]. unfold bind.
  destruct (toy_answer c) as [v|] eqn:Hv; [|done].
  destruct (map_m (λ c (_ : unit), (tt, toy_answer c)) cs tt) as [[] [vs'|]]; [|done]. intros [= <-].
  constructor; [by eapply toy_answer_sound|by apply IH].
Qed.
#[local] Program Instance toy_laws : ProviderLaws nat := {|
  port_inv _ := True; verified rv := rv = Some "r1"%string; sound v := length v = 1%nat |}.
Next Obligation. intros c p _. split; [done|]. apply toy_answer_sound. Qed.
Next Obligation. intros cs p _. split; [done|]. apply toy_batch_sound. Qed.
Next Obligation. done. Qed.
Next Obligation. by intros []. Qed.

Definition clock (n : nat) : Z := 1000 + Z.of_nat n.

(** Another thread that rewrites a memory. *)
Definition rewriter (t : store) : store := (update_memory 7 "m1" (Some "new text"%string) None t).1.

Lemma good_rewriter : good_thread rewriter.
Proof.
  intros t Hok Hw. unfold rewriter. rewrite (refine_update_memory 7 "m1" (Some "new text"%string) None t Hok).
  simpl in Hok |- *. split; [by apply ready_upd|]. rewrite view_upd. split; [by apply keeps_wf_update_memory|].
  assert (embeddings (Spec.update_memory 7 "m1" (Some "new text"%string) None (view t)).1 = embeddings (view t)) as He.
  { unfold Spec.update_memory, Spec.update_row, update_memory_row, bind. by destruct (memories (view t) !! "m1"%string). }
  unfold attributed. by rewrite He.
Qed.

Definition busy_service : svc store nat := new_service sample_store 1%nat [rewriter].
Definition lone_service : svc store nat := new_service sample_store 1%nat [].

Lemma attributed_sample : attributed (view sample_store).
Proof.
  intros k r Hk. assert (embeddings (view sample_store) = ∅) as He by (vm_compute; reflexivity).
  by rewrite He in Hk.
Qed.

Lemma busy_ok : svc_ok busy_service.
Proof.
  split; [exact ready_sample|]. split; [exact wf_sample|]. constructor; [exact good_rewriter|constructor].
Qed.

Lemma embeddings_attributed_witness :
  attributed (st_view (sv_store (generate_for_memory clock "m1" "note m1" true busy_service).1)).
Proof.
  exact (proj2 (proj1 (embeddings_attributed clock busy_service "m1" "note m1" None true busy_ok
    I attributed_sample))).
Defined.

Lemma alone_lone : alone lone_service.
Proof. split; [exact ready_sample|done]. Qed.

Lemma generate_outcomes_witness :
  (generate_for_memory clock "m1" "this is too long" false lone_service).2 = Ok tt ∧
  failure_count (generate_for_memory clock "m1" "this is too long" false lone_service).1 = 0.
Proof.
  pose proof (generate_outcomes clock lone_service "m1" "this is too long" false alone_lone) as H.
  cbn [known ep_revision_snapshot toy_port toy_snapshot sv_port lone_service new_service] in H.
  destruct (generate_for_memory clock "m1" "this is too long" false lone_service) as [s' r] eqn:Hr.
  assert (Hcur : current_in (st_view (sv_store lone_service)) "m1" "this is too long"
    (value (mkSnapshot true (Some "r1"%string) None)) = false) by (vm_compute; reflexivity).
  cbn [negb] in H. rewrite Hcur in H. cbn [andb] in H. destruct H as (_&H).
  assert (He : (ep_embed "this is too long" 1%nat).2 = Raise (ProviderError CONTENT_TOO_LONG))
    by (vm_compute; reflexivity).
  rewrite He in H. destruct H as (H1&_&H2). split; [exact H1|exact H2].
Defined.

Lemma backfill_converges_witness :
  ∃ s' g f t, generate_missing clock None false lone_service = (s', Ok (mkBackfill g f t false)) ∧
    g + f + t = 3.
Proof.
  destruct (@backfill_converges store nat _ _ toy_port clock lone_service false 2%nat (mkSnapshot true (Some "r1"%string) None)
    alone_lone eq_refl ltac:(vm_compute; reflexivity) eq_refl) as (s'&g&f&t&Hrun&Hsum&_).
  exists s', g, f, t. split; [exact Hrun|]. rewrite Hsum. vm_compute. reflexivity.
Defined.

Lemma status_predicts_backfill_witness :
  ∃ s' st, embedding_status lone_service = (s', Ok st) ∧ es_missing st + es_stale st = 3.
Proof.
  destruct (@status_predicts_backfill store nat _ _ toy_port lone_service alone_lone wf_sample eq_refl) as (s'&st&Hrun&_&_&_&Hsum).
  exists s', st. split; [exact Hrun|]. rewrite Hsum. vm_compute. reflexivity.
Defined.

Lemma backfill_guard_witness :
  ∃ b, (generate_missing clock None false busy_service).2 = Ok b ∧ 0 ≤ failed b.
Proof.
  destruct (backfill_guard clock busy_service None false busy_ok) as [_ H].
  specialize (H eq_refl). cbn [ep_refresh_revision toy_port sv_port busy_service new_service] in H.
  destruct (generate_missing clock None false busy_service) as [s' r].
  destruct H as (_&_&_&H). destruct (H eq_refl) as (b&->&_&_&Hf&_). exists b. split; [reflexivity|exact Hf].
Defined.
