(* ===== verification/Search.v ===== *)
(** * Search

    The hybrid and semantic searches of [embedding_service.py] and the search
    use case: the pinned float, the keyword channel, the semantic channel with
    its revision check, their fusion by reciprocal rank, and the page taken
    from the combined stream. *)

From S2P Require Import Prelude PyStr PyText Sha256 Domain PyNum Sql Store Transactions Port Embedding.
Local Open Scope Z_scope.
Local Open Scope prog_scope.

Definition is_nan (x : spec_float) : bool := match x with S754_nan => true | _ => false end.

(** The channel that surfaced a hit. *)
Inductive Channel := ch_pinned | ch_keyword | ch_semantic | ch_hybrid.
#[global] Instance Channel_eq_dec : EqDecision Channel.
Proof. solve_decision. Defined.
(** [scored_memory.py:16-41 ScoredMemory] *)
Record ScoredMemory := mkScored {
  sm_item : MemoryItem;
  sm_channel : Channel;
  sm_rrf_score : option spec_float;
  sm_similarity : option spec_float;
  sm_keyword_rank : option Z;
}.

(** NumPy: the cosine of every stored vector with the query vector, and the
    indices of the [k] best scores, best first ([argpartition] then [argsort]),
    for a [k] that is not negative. *)
Class Numpy := {
  np_scores : list (list spec_float) → list spec_float → list spec_float;
  np_top : list spec_float → Z → list nat;
}.
Class NumpyLaws `{Numpy} := {
  np_scores_length m q : length (np_scores m q) = length m;
  np_top_NoDup scores k : NoDup (np_top scores k);
  np_top_bound scores k i : i ∈ np_top scores k → (i < length scores)%nat;
  np_top_length scores k : 0 ≤ k ≤ Z.of_nat (length scores) → Z.of_nat (length (np_top scores k)) = k;
  np_top_sorted scores k :
    Sorted (λ i j, ∀ x y, scores !! i = Some x → scores !! j = Some y → SFltb x y = false) (np_top scores k);
  np_top_best scores k i j x y :
    Forall (λ z, is_nan z = false) scores →
    i ∈ np_top scores k → j ∉ np_top scores k →
    scores !! i = Some x → scores !! j = Some y → SFltb x y = false;
}.

(** The iteration order of a Python set: any arrangement of its elements. *)
Class SetOrder := {
  set_order : gset string → list string;
  set_order_perm x : set_order x ≡ₚ elements x;
}.

(** ** Floats of the fusion *)
Definition RRF_K : Z := 60.
(** [1.0 / (_RRF_K + rank)] *)
Definition rrf (rank : Z) : spec_float := fdiv (f64_of_Z 1) (f64_of_Z (RRF_K + rank)).

(** [embedding_service.py:925-931 EmbeddingService.search_hybrid] *)
Definition rrf_score (kr sr : option Z) : spec_float :=
  let score := f64_of_Z 0 in
  let score := match kr with Some r => fadd score (rrf r) | None => score end in
  match sr with Some r => fadd score (rrf r) | None => score end.

Definition DEFAULT_PINNED_LIMIT : Z := 10.

Definition py_dict {V} (l : list (string * V)) : gmap string V :=
  foldl (λ m kv, <[kv.1 := kv.2]> m) ∅ l.
(** [enumerate(l, start=1)] *)
Definition enumerate1 {A} (l : list A) : list (Z * A) :=
  zip (map (λ n, Z.of_nat n + 1) (seq 0 (length l))) l.

(** [embedding_service.py:1103-1113 _wrap_keyword_ranked] *)
Definition wrap_keyword_ranked (items : list MemoryItem) (offset : Z) : list ScoredMemory :=
  map (λ ri, mkScored ri.2 ch_keyword None None (Some (offset + ri.1))) (enumerate1 items).

Definition wrap_pinned (items : list MemoryItem) : list ScoredMemory :=
  map (λ i, mkScored i ch_pinned None None None) items.

(** [embedding_service.py:807-818 EmbeddingService.search_hybrid._page] *)
Definition page (pins : list MemoryItem) (ranked : list ScoredMemory) (offset top_k : Z) : list ScoredMemory :=
  py_slice offset (offset + top_k) (wrap_pinned pins ++ ranked).

Definition ids_of (items : list MemoryItem) : gset string := list_to_set (map id items).

(** [not tags] *)
Definition tags_given (tags : option (list string)) : bool :=
  match tags with None | Some [] => false | _ => true end.
(** [project_id] as a truth value *)
Definition project_given (project_id : option string) : bool :=
  match project_id with None => false | Some p => negb (bool_decide (p = ""%string)) end.

(** [embedding_service.py:915-923 EmbeddingService.search_hybrid] The tag and project
    filters applied to a fetched item. *)
Definition item_matches (project_id : option string) (ts : option (list string)) (item : MemoryItem) : bool :=
  (negb (tags_given ts) || forallb (λ t, str_mem t (tags item)) (default [] ts))
  && negb (project_given project_id && bool_decide (Domain.project_id item ≠ project_id)
           && negb (pinned item && bool_decide (Domain.project_id item = None))).

(** ** Fusion *)
Section fusion.
Context `{SetOrder}.

(** [embedding_service.py:889-954 EmbeddingService.search_hybrid] The fused
    ranking, from the two channels and the items they resolved to. *)
Definition fuse (keyword_results : list MemoryItem) (semantic_ranked : list (string * spec_float))
    (item_map : gmap string MemoryItem) (pinned_ids : gset string) (include_pinned : bool)
    (ts : option (list string)) (project_id : option string) (effective_top_k : Z) : list ScoredMemory :=
  let keyword_rank := py_dict (map (λ ri, (id ri.2, ri.1)) (enumerate1 keyword_results)) in
  let semantic_rank := py_dict (map (λ rm, (rm.2.1, rm.1)) (enumerate1 semantic_ranked)) in
  let semantic_sim := py_dict semantic_ranked in
  let all_ids := dom keyword_rank ∪ dom semantic_rank in
  let admitted := λ mid, match item_map !! mid with
    | None => None
    | Some item =>
        if pinned item && (bool_decide (mid ∈ pinned_ids) || negb include_pinned) then None
        else if item_matches project_id ts item
        then Some (mid, item, rrf_score (keyword_rank !! mid) (semantic_rank !! mid))
        else None
    end in
  let rrf_scores := omap admitted (set_order all_ids) in
  let sorted := sort_by (λ x y, negb (SFltb x.2 y.2)) rrf_scores in
  map (λ '(mid, item, score),
    let kr := keyword_rank !! mid in
    let sim := semantic_sim !! mid in
    let channel := match kr, sim with
      | Some _, Some _ => ch_hybrid
      | Some _, None => ch_keyword
      | None, _ => ch_semantic
      end in
    mkScored item channel (Some score) sim kr) (py_slice 0 effective_top_k sorted).
End fusion.

Section service.
Context {S E : Type} `{HF : FTS5} `{!MemoryStorePort S} `{!EmbeddingPort E}.
Context `{HN : Numpy} `{HO : SetOrder}.
Context (utc_now : nat → Z).
Notation Sv A := (SE (svc S E) exn A).

Definition same_revision (a b : RevisionSnapshot) : bool :=
  eqb (known a) (known b) && bool_decide (value a = value b).

(** [embedding_service.py:979-993 EmbeddingService._semantic_search] The embedding
    attempts: the snapshot must not move
    while the query is embedded; one retry. *)
Fixpoint embed_stable (attempts : nat) (opening snapshot : RevisionSnapshot) (query : string)
    : Sv (list spec_float * RevisionSnapshot) :=
  let* query_vec := embed_single query in
  let* after := revision_snapshot in
  if same_revision snapshot after then
    if known opening && negb (known after) then raise RevisionChangedError
    else ret (query_vec, snapshot)
  else
    match attempts with
    | O => raise RevisionChangedError
    | Datatypes.S n => embed_stable n opening after query
    end.

(** [embedding_service.py:995-1042 EmbeddingService._semantic_search] The
    vectors of the query's space, the eligible ones among them, and the best
    [limit] by cosine. *)
Definition score_candidates (query_vec : list spec_float) (snapshot : RevisionSnapshot)
    (project_id : option string) (ts : option (list string)) (exclude_ids : gset string) (limit : Z)
    : Sv (list (string * spec_float)) :=
  let* all_embeddings := on_store (st_list_embeddings None (Some ep_model_name) (Some ep_provider_name)
    (Some (Z.of_nat (length query_vec))) (Some ep_settings_fingerprint) (value snapshot) (known snapshot)) in
  match all_embeddings with
  | [] => ret []
  | _ =>
      let entries := filter (λ e, e.1 ∉ exclude_ids) all_embeddings in
      let* entries := (if bool_decide (project_id ≠ None) || tags_given ts then
          let* eligible := on_store (st_eligible project_id ts) in
          ret (filter (λ e : string * list spec_float, e.1 ∈ eligible) entries)
        else ret entries) in
      match entries with
      | [] => ret []
      | _ =>
          let scores := np_scores (map snd entries) query_vec in
          ret (omap (λ i, e ← entries !! i; x ← scores !! i; Some (e.1, x))
                 (np_top scores (Z.min limit (Z.of_nat (length scores)))))
      end
  end.

(** [embedding_service.py:959-993 EmbeddingService._semantic_search] *)
Definition semantic_search (query : string) (project_id : option string) (ts : option (list string))
    (exclude_ids : gset string) (limit : Z) : Sv (list (string * spec_float)) :=
  let* opening := revision_snapshot in
  let* (query_vec, snapshot) := embed_stable 1 opening opening query in
  score_candidates query_vec snapshot project_id ts exclude_ids limit.

(** [embedding_service.py:897-902 EmbeddingService.search_hybrid] The semantic-only
    ids are fetched from the store. *)
Fixpoint fetch_items (mids : list string) (item_map : gmap string MemoryItem) : Sv (gmap string MemoryItem) :=
  match mids with
  | [] => ret item_map
  | mid :: mids' =>
      match item_map !! mid with
      | Some _ => fetch_items mids' item_map
      | None =>
          let* mem := on_store (st_get_memory mid) in
          fetch_items mids' (match mem with Some m => <[mid := m]> item_map | None => item_map end)
      end
  end.

(** [embedding_service.py:792-800 EmbeddingService.search_hybrid] The float set: pins
    that match the query, capped. *)
Definition float_pins (query : string) (include_pinned : bool) (pinned_limit : Z) (project_id : option string)
    (ts : option (list string)) (phrase : bool) : Sv (list MemoryItem) :=
  if include_pinned && (0 <? pinned_limit)
  then on_store (st_search_pinned query pinned_limit project_id ts phrase)
  else ret [].

(** [embedding_service.py:758-957 EmbeddingService.search_hybrid] *)
Definition search_hybrid (query : string) (top_k : Z) (project_id : option string) (include_pinned : bool)
    (ts : option (list string)) (offset : Z) (phrase : bool) (pinned_limit : Z) : Sv (list ScoredMemory) :=
  let effective_top_k := top_k + offset in
  let* pins := float_pins query include_pinned pinned_limit project_id ts phrase in
  let pinned_ids := ids_of pins in
  let* keyword_results := on_store (st_search_memory query (effective_top_k * 2) project_id include_pinned
    ts 0 phrase pinned_ids) in
  let degraded := page pins (wrap_keyword_ranked keyword_results 0) offset top_k in
  let* semantic := try_catch
    (let* ranked := semantic_search query project_id ts pinned_ids (effective_top_k * 2) in
     modify (λ s, if search_failure_count s =? 0 then s
                  else with_search_failures 0 (last_search_failure_at s) s) ;;
     record_success ;;
     ret (Some ranked))
    (λ e,
      match e with
      | RevisionChangedError => ret None
      | _ =>
          if is_content_too_long e then ret None
          else
            modify (λ s, with_search_failures (search_failure_count s + 1) (last_search_failure_at s) s) ;;
            record_failure utc_now "search" ;;
            modify (λ s, with_search_failures (search_failure_count s) (last_failure_at s) s) ;;
            ret None
      end) in
  match semantic with
  | None => ret degraded
  | Some semantic_ranked =>
      let item_map := py_dict (map (λ i, (id i, i)) keyword_results) in
      let* item_map := fetch_items (map fst semantic_ranked) item_map in
      ret (page pins (fuse keyword_results semantic_ranked item_map pinned_ids include_pinned ts project_id
                        effective_top_k) offset top_k)
  end.

Fixpoint semantic_items (ranked : list (string * spec_float)) (include_pinned : bool)
    (project_id : option string) (ts : option (list string)) : Sv (list ScoredMemory) :=
  match ranked with
  | [] => ret []
  | (mid, sim) :: ranked' =>
      let* item := on_store (st_get_memory mid) in
      let* rest := semantic_items ranked' include_pinned project_id ts in
      ret match item with
        | None => rest
        | Some item =>
            if pinned item && negb include_pinned then rest
            else if item_matches project_id ts item
            then mkScored item ch_semantic None (Some sim) None :: rest
            else rest
        end
  end.

(** [embedding_service.py:1044-1100 EmbeddingService.search_semantic] *)
Definition search_semantic (query : string) (top_k : Z) (project_id : option string) (include_pinned : bool)
    (ts : option (list string)) (offset : Z) (pinned_limit : Z) : Sv (list ScoredMemory) :=
  let* pins := float_pins query include_pinned pinned_limit project_id ts false in
  let* ranked := semantic_search query project_id ts (ids_of pins) ((top_k + offset) * 2) in
  let* results := semantic_items ranked include_pinned project_id ts in
  ret (page pins results offset top_k).

Inductive Mode := hybrid | keyword | semantic | other_mode (s : string).

(** [use_cases/search_memory.py:94-133 execute] The keyword branch. *)
Definition search_keyword (query : string) (top_k : Z) (project_id : option string) (include_pinned : bool)
    (ts : option (list string)) (offset : Z) (phrase : bool) (pinned_limit : Z) : Sv (list ScoredMemory) :=
  let* floated := float_pins query include_pinned pinned_limit project_id ts phrase in
  let* items := on_store (st_search_memory query (offset + top_k) project_id include_pinned ts 0 phrase
    (ids_of floated)) in
  ret (py_slice offset (offset + top_k) (wrap_pinned floated ++ wrap_keyword_ranked items 0)).

(** [use_cases/search_memory.py:16-92 execute] [configured] says whether an
    embedding service is present. *)
Definition execute_search (configured : bool) (query : string) (top_k : Z) (project_id : option string)
    (include_pinned : bool) (ts : option (list string)) (offset : Z) (mode : Mode) (phrase : bool)
    (pinned_limit : Z) : Sv (list ScoredMemory) :=
  match mode with
  | other_mode _ => raise (ValidationError INVALID_ARGUMENT)
  | _ =>
      let pinned_limit := Z.max 0 pinned_limit in
      match mode with
      | semantic =>
          if configured then search_semantic query top_k project_id include_pinned ts offset pinned_limit
          else raise (ValidationError INVALID_ARGUMENT)
      | hybrid =>
          if configured then search_hybrid query top_k project_id include_pinned ts offset phrase pinned_limit
          else search_keyword query top_k project_id include_pinned ts offset phrase pinned_limit
      | _ => search_keyword query top_k project_id include_pinned ts offset phrase pinned_limit
      end
  end.
End service.
