(* ===== verification/Retrieval.v ===== *)
(** * Properties of search

    What the store's engines find, pagination of the keyword mode, degradation of the
    hybrid mode, the safety of the semantic channel, and the hybrid answer: pins,
    fusion, page. *)

From S2P Require Import Prelude PyStr Sha256 Domain PyNum Sql Store Transactions Port StoreProps SearchProps.
From S2P Require Import Embedding EmbeddingProps Backfill Search.
Local Open Scope Z_scope.
Local Open Scope prog_scope.

(** ** Rankings and their prefixes *)

Lemma enumerate1_take {A} n (l : list A) : take n (enumerate1 l) = enumerate1 (take n l).
Proof.
  unfold enumerate1. rewrite zip_with_take. f_equal. rewrite <- fmap_take. f_equal.
  rewrite length_take. apply take_seq.
Qed.

Lemma enumerate1_snd {A} (l : list A) : map snd (enumerate1 l) = l.
Proof. unfold enumerate1. apply snd_zip. by rewrite length_map, length_seq. Qed.

Lemma wrap_take n items o : take n (wrap_keyword_ranked items o) = wrap_keyword_ranked (take n items) o.
Proof. unfold wrap_keyword_ranked. rewrite <- enumerate1_take. symmetry. apply fmap_take. Qed.

Lemma wrap_ids items o : map (λ h, id (sm_item h)) (wrap_keyword_ranked items o) = map id items.
Proof.
  unfold wrap_keyword_ranked. rewrite map_map. simpl. by rewrite <- (enumerate1_snd items) at 2; rewrite map_map.
Qed.

(** A page looks only at the first [offset + top_k] entries of the stream. *)
Lemma page_prefix pins items1 items2 off k :
  0 ≤ off → 0 ≤ k →
  take (Z.to_nat (off + k)) items1 = take (Z.to_nat (off + k)) items2 →
  page pins (wrap_keyword_ranked items1 0) off k = page pins (wrap_keyword_ranked items2 0) off k.
Proof.
  intros Ho Hk Heq. unfold page. rewrite !py_slice_nonneg by lia.
  assert (∀ l : list ScoredMemory, take (Z.to_nat (off + k - off)) (drop (Z.to_nat off) l) =
    drop (Z.to_nat off) (take (Z.to_nat (off + k)) l)) as Hcomm.
  { intros l. rewrite skipn_firstn_comm. f_equal. lia. }
  rewrite !Hcomm. f_equal. rewrite !take_app. f_equal. rewrite !wrap_take. f_equal.
  assert (∀ m, (m ≤ Z.to_nat (off + k))%nat → take m items1 = take m items2) as Hm.
  { intros m Hm. rewrite <- (Nat.min_l m (Z.to_nat (off + k))) by done. by rewrite <- !take_take, Heq. }
  apply Hm. lia.
Qed.

(** Dropping a few known ids from a longer prefix leaves enough. *)
Lemma filter_take_enough (ex : gset string) n k (l : list MemoryItem) :
  NoDup (map id l) → (k + size ex ≤ n)%nat →
  take k (filter (λ i, id i ∉ ex) (take n l)) = take k (filter (λ i, id i ∉ ex) l).
Proof.
  intros Hnd Hn. destruct (decide (length l ≤ n)%nat); [by rewrite (take_ge l)|].
  rewrite <- (take_drop n l) at 2. rewrite filter_app, take_app_le; [done|].
  assert (length (take n l) = n) as Hlen by (rewrite length_take; lia).
  assert (NoDup (map id (take n l))) as Hnd' by (eapply sublist_NoDup; [exact Hnd|apply (fmap_sublist id), sublist_take]).
  revert Hlen Hnd'. generalize (take n l). clear -Hn. intros l Hlen Hnd.
  assert (length (filter (λ i, id i ∉ ex) l) + length (filter (λ i, id i ∈ ex) l) = length l)%nat as Hsum.
  { clear. induction l as [|x l IH]; [done|]. rewrite !filter_cons. simpl.
    destruct (decide (id x ∈ ex)); repeat case_decide; try done; simpl; lia. }
  assert (length (filter (λ i, id i ∈ ex) l) ≤ size ex)%nat as Hle; [|lia].
  rewrite <- (length_map id). set (F := filter _ l).
  assert (NoDup (map id F)) as HF
    by (eapply sublist_NoDup; [exact Hnd|apply (fmap_sublist id), sublist_filter]).
  rewrite <- (size_list_to_set (C:=gset string) _ HF). apply subseteq_size.
  intros k'. rewrite elem_of_list_to_set. intros (i&->&[Hi _]%list_elem_of_filter)%list_elem_of_fmap. done.
Qed.

Section rankings.
Context `{FTS5}.

(** The whole ranking of a query, before any limit. *)
Definition full_ranking (active : bool) (q : string) (pid : option string) (ts : option (list string))
    (ph : bool) (mode : PinnedMode) (d : db) : list MemoryItem :=
  if active then Spec.fts5_search q (-1) pid ts ph mode d
  else Spec.fallback_search q (Z.of_nat (size (memories d))) pid ts ph mode d.

Lemma window_length pid ts mode d : (length (Spec.fallback_window pid ts mode d) ≤ size (memories d))%nat.
Proof.
  unfold Spec.fallback_window, sql_limit. rewrite length_map.
  assert (length (select_memories (λ _ r, (pinned_clauses mode pid).1 r && (pinned_clauses mode pid).2 r
    && tags_clause ts r) newest_leb d) ≤ size (memories d))%nat as Hl.
  { unfold select_memories. rewrite sort_by_length, <- length_map_to_list. apply length_filter. }
  case_bool_decide; [done|]. rewrite length_take. lia.
Qed.

Lemma ranked_prefix active q n pid ts ph mode d :
  0 ≤ n → Spec.ranked active q n pid ts ph mode d = take (Z.to_nat n) (full_ranking active q pid ts ph mode d).
Proof.
  intros Hn. unfold Spec.ranked, full_ranking. destruct active.
  - unfold Spec.fts5_search. case_bool_decide; [by rewrite take_nil|].
    rewrite <- fmap_take. unfold sql_limit. by rewrite bool_decide_eq_false_2 by lia.
  - unfold Spec.fallback_search. pose proof (window_length pid ts mode d) as Hw.
    assert (∀ l : list MemoryItem, (length l ≤ size (memories d))%nat →
      py_slice 0 n l = take (Z.to_nat n) (py_slice 0 (Z.of_nat (size (memories d))) l)) as Hsl.
    { intros l Hl. rewrite !py_slice_nonneg by lia. change (Z.to_nat 0) with 0%nat. rewrite !drop_0, !Z.sub_0_r.
      f_equal. symmetry. apply take_ge. lia. }
    destruct ph; [case_bool_decide; [by rewrite take_nil|]|]; apply Hsl.
    + etrans; [apply length_filter|done].
    + by rewrite sort_by_length.
Qed.

Lemma full_ranking_rows active q pid ts ph mode d :
  rows_of d (in_scope mode pid ts) (full_ranking active q pid ts ph mode d).
Proof.
  unfold full_ranking. destruct active;
    [apply (ranked_rows true q (-1) pid ts ph mode d)|apply (ranked_rows false q _ pid ts ph mode d)].
Qed.

(** The engine finds the row [k] for a query: FTS5 by its match of the escaped query
    with the indexed document; without FTS5 a phrase by containment, both folded with
    single spaces, and plain words every row (the finding on the fallback search). *)
Definition folded (s : string) : string := str_casefold (py_join " " (py_split s)).
Definition finds (active : bool) (q : string) (ph : bool) (d : db) (k : string) (r : memory_row) : Prop :=
  if active then fts5_escape q ph ≠ ""%string ∧
    ∃ doc, default ∅ (fts d) !! k = Some doc ∧ fts_match (fts5_escape q ph) doc = true
  else if ph then folded q ≠ ""%string ∧ contains (folded q) (folded (r_content r)) = true
  else True.

Lemma fallback_full q pid ts ph mode d i :
  i ∈ full_ranking false q pid ts ph mode d ↔ i ∈ Spec.fallback_window pid ts mode d ∧
    (ph = true → folded q ≠ ""%string ∧ contains (folded q) (folded (content i)) = true).
Proof.
  unfold full_ranking, Spec.fallback_search. pose proof (window_length pid ts mode d) as Hw.
  assert (∀ l : list MemoryItem, (length l ≤ size (memories d))%nat → py_slice 0 (Z.of_nat (size (memories d))) l = l) as Hall.
  { intros l Hl. rewrite py_slice_nonneg by lia. rewrite drop_0. apply take_ge. lia. }
  destruct ph.
  - fold (folded q). case_bool_decide as Hq; [set_solver|]. rewrite Hall by (etrans; [apply length_filter|done]).
    rewrite list_elem_of_filter. unfold folded. naive_solver.
  - rewrite Hall by by rewrite sort_by_length. rewrite elem_of_sort_by. naive_solver.
Qed.
Lemma window_elem pid ts mode d i : i ∈ Spec.fallback_window pid ts mode d →
  ∃ r, memories d !! id i = Some r ∧ i = row_to_memory_item (id i, r) ∧ in_scope mode pid ts r.
Proof.
  intros Hi. assert (rows_of d (in_scope mode pid ts) (Spec.fallback_window pid ts mode d)) as [Hrows _]; [|by apply Hrows].
  apply rows_of_select. intros k r Hp. by apply clauses_in_scope.
Qed.
(** What is ranked was found. *)
Lemma full_ranking_found active q pid ts ph mode d i : i ∈ full_ranking active q pid ts ph mode d →
  ∃ r, memories d !! id i = Some r ∧ i = row_to_memory_item (id i, r) ∧ in_scope mode pid ts r ∧ finds active q ph d (id i) r.
Proof.
  destruct active; unfold finds.
  - unfold full_ranking, Spec.fts5_search. case_bool_decide as Hq; [set_solver|].
    intros ([k r]&->&Hin)%list_elem_of_fmap. unfold sql_limit in Hin. simpl in Hin.
    apply select_memories_elem in Hin as [Hk Hp]. exists r. simpl. split; [done|]. split; [done|].
    rewrite <- !andb_assoc in Hp. apply andb_true_iff in Hp as [Hm Hp]. rewrite andb_assoc in Hp.
    split; [by apply clauses_in_scope|]. split; [done|]. destruct (default ∅ (fts d) !! k) as [doc|]; [by exists doc|done].
  - intros [Hi Hf]%fallback_full. destruct (window_elem _ _ _ _ _ Hi) as (r&Hr&Hrow&Hs). exists r. do 3 (split; [done|]).
    destruct ph; [|done]. rewrite Hrow in Hf. by apply Hf.
Qed.
(** What can be found is ranked, within the window of the fallback. *)
Lemma full_ranking_complete active q pid ts ph mode d k r :
  active = true ∨ (size (memories d) ≤ 200)%nat → memories d !! k = Some r → in_scope mode pid ts r → finds active q ph d k r →
  row_to_memory_item (k, r) ∈ full_ranking active q pid ts ph mode d.
Proof.
  intros Hw Hk Hs Hf. apply clauses_in_scope in Hs as Hc. destruct active; unfold finds in Hf.
  - destruct Hf as (Hq&doc&Hdoc&Hm). unfold full_ranking, Spec.fts5_search. rewrite bool_decide_eq_false_2 by done.
    apply list_elem_of_fmap. exists (k, r). split; [done|]. unfold sql_limit. simpl. apply select_memories_elem. split; [done|].
    rewrite Hdoc, Hm. done.
  - destruct Hw as [?|Hw]; [done|]. apply fallback_full. split.
    + unfold Spec.fallback_window. apply list_elem_of_fmap. exists (k, r). split; [done|].
      unfold sql_limit. rewrite bool_decide_eq_false_2 by (unfold MEMORY_SEARCH_LIMIT; lia). rewrite take_ge.
      * apply select_memories_elem. by split.
      * unfold select_memories, MEMORY_SEARCH_LIMIT. rewrite sort_by_length.
        etrans; [apply length_filter|]. rewrite length_map_to_list. lia.
    + intros ->. done.
Qed.

(** The keyword ranking a search draws on: everything but the excluded ids. *)
Definition keyword_ranking (active : bool) (q : string) (pid : option string) (ip : bool)
    (ts : option (list string)) (ph : bool) (ex : gset string) (d : db) : list MemoryItem :=
  filter (λ i, id i ∉ ex) (full_ranking active q pid ts ph (if ip then include else exclude) d).

Lemma search_memory_prefix active q k pid ip ts ph ex d :
  0 ≤ k →
  (Spec.search_memory active q k pid ip ts 0 ph ex d).2 =
    Ok (take (Z.to_nat k) (keyword_ranking active q pid ip ts ph ex d)).
Proof.
  intros Hk. unfold Spec.search_memory, gets. simpl. f_equal.
  rewrite py_slice_nonneg by lia. rewrite drop_0, ranked_prefix by lia.
  replace (Z.to_nat (0 + k - 0)) with (Z.to_nat k) by lia.
  apply filter_take_enough; [apply full_ranking_rows|lia].
Qed.
End rankings.

(** ** Reading through the service *)

Section service.
Context {S E : Type} `{HF : FTS5} `{!MemoryStorePort S} `{!EmbeddingPort E}.
Context `{HN : Numpy} `{HO : SetOrder}.
Context (utc_now : nat → Z).
Implicit Types (s : svc S E) (d : db).
Notation Sv A := (SE (svc S E) exn A).

(** The store of [s] shows the database [d], with or without FTS5. *)
Definition shows (b : bool) d s : Prop :=
  alone s ∧ st_fts (sv_store s) = b ∧ st_view (sv_store s) = d.

(** [m] reads [a] from a store that shows [d] and changes nothing else. *)
Definition observes {A} (b : bool) d (m : Sv A) (a : A) : Prop :=
  ∀ s, shows b d s → ∃ t, m s = (with_store t s, Ok a) ∧ shows b d (with_store t s).

Lemma observes_ret {A} b d (a : A) : observes b d (ret a) a.
Proof. intros s Hs. exists (sv_store s). by destruct s. Qed.

Lemma observes_bind {A B} b d (m : Sv A) a (k : A → Sv B) c :
  observes b d m a → observes b d (k a) c → observes b d (bind m k) c.
Proof.
  intros Hm Hk s Hs. destruct (Hm s Hs) as (t&Ht&Hst). destruct (Hk _ Hst) as (t'&Ht'&Hst').
  exists t'. unfold bind. by rewrite Ht, Ht'.
Qed.

Lemma observes_store {A} b d (m : SE S exn A) (f : bool → SE db exn A) a :
  st_runs m f → f b d = (d, Ok a) → observes b d (on_store m) a.
Proof.
  intros Hm Hf s ((Hok&Ho)&Hb&Hd).
  destruct (on_store_alone m f s (conj Hok Ho) Hm) as (t&Ht&Hok'&Hf'&Hv').
  rewrite Hb, Hd, Hf in *. exists t. repeat split; [exact Ht|done..].
Qed.

(** The pins that float, and the keyword ranking under them. *)
Definition floated (b : bool) (q : string) (ip : bool) (plim : Z) (pid : option string)
    (ts : option (list string)) (ph : bool) d : list MemoryItem :=
  if ip && (0 <? plim) then py_slice 0 plim (Spec.ranked b q plim pid ts ph only d) else [].

Lemma observes_float b q ip plim pid ts ph d :
  observes b d (float_pins q ip plim pid ts ph) (floated b q ip plim pid ts ph d).
Proof.
  unfold float_pins, floated. destruct (ip && (0 <? plim)) eqn:Hc; [|apply observes_ret].
  eapply observes_store; [apply law_search_pinned|]. unfold Spec.search_pinned, gets.
  apply andb_true_iff in Hc as [_ Hc]. destruct (Z.leb_spec plim 0); [lia|done].
Qed.

Lemma floated_rows b q ip plim pid ts ph d :
  rows_of d (in_scope only pid ts) (floated b q ip plim pid ts ph d).
Proof.
  unfold floated. destruct (_ && _); [|split; [set_solver|constructor]].
  eapply rows_of_sublist; [apply py_slice_sublist|apply ranked_rows].
Qed.

Lemma observes_keyword b q k pid ip ts ph ex d :
  0 ≤ k →
  observes b d (on_store (st_search_memory q k pid ip ts 0 ph ex))
    (take (Z.to_nat k) (keyword_ranking b q pid ip ts ph ex d)).
Proof.
  intros Hk. eapply observes_store; [apply law_search_memory|].
  pose proof (search_memory_prefix b q k pid ip ts ph ex d Hk) as H.
  unfold Spec.search_memory, gets in *. simpl in *. by rewrite <- H.
Qed.

(** The combined stream of the keyword mode. *)
Definition keyword_stream (b : bool) (q : string) (pid : option string) (ip : bool)
    (ts : option (list string)) (ph : bool) (plim : Z) d : list ScoredMemory :=
  let pins := floated b q ip plim pid ts ph d in
  wrap_pinned pins ++ wrap_keyword_ranked (keyword_ranking b q pid ip ts ph (ids_of pins) d) 0.

Lemma observes_search_keyword b q k pid ip ts off ph plim d :
  0 ≤ k → 0 ≤ off →
  observes b d (search_keyword q k pid ip ts off ph plim)
    (take (Z.to_nat k) (drop (Z.to_nat off) (keyword_stream b q pid ip ts ph plim d))).
Proof.
  intros Hk Ho. unfold search_keyword.
  eapply observes_bind; [apply observes_float|].
  eapply observes_bind; [apply observes_keyword; lia|].
  set (pins := floated _ _ _ _ _ _ _ _). set (K := keyword_ranking _ _ _ _ _ _ _ _).
  assert (py_slice off (off + k) (wrap_pinned pins ++ wrap_keyword_ranked (take (Z.to_nat (off + k)) K) 0) =
    take (Z.to_nat k) (drop (Z.to_nat off) (keyword_stream b q pid ip ts ph plim d))) as <-;
    [|apply observes_ret].
  pose proof (page_prefix pins (take (Z.to_nat (off + k)) K) K off k Ho Hk) as H. unfold page in H.
  rewrite H by (by rewrite take_take, Nat.min_id). unfold keyword_stream. fold pins K.
  rewrite py_slice_nonneg by lia. do 2 f_equal. lia.
Qed.

(** ** Streams of hits *)

(** What a caller may see. *)
Definition visible (ip : bool) (pid : option string) (ts : option (list string)) : memory_row → Prop :=
  in_scope (if ip then include else exclude) pid ts.

Lemma rows_of_app d P l1 l2 :
  rows_of d P l1 → rows_of d P l2 → (∀ i, i ∈ l2 → id i ∉ ids_of l1) → rows_of d P (l1 ++ l2).
Proof.
  intros [H1 N1] [H2 N2] Hex. split.
  - intros i [Hi|Hi]%elem_of_app; auto.
  - rewrite map_app. apply NoDup_app. split; [done|]. split; [|done].
    intros k Hk (i&->&Hi)%list_elem_of_fmap. apply (Hex i Hi). unfold ids_of.
    by apply elem_of_list_to_set.
Qed.

Lemma floated_visible b q ip plim pid ts ph d :
  rows_of d (visible ip pid ts) (floated b q ip plim pid ts ph d).
Proof.
  pose proof (floated_rows b q ip plim pid ts ph d) as [H N]. split; [|done].
  intros i Hi. destruct (H i Hi) as (r&Hr&Hi'&Hs). exists r. split; [done|]. split; [done|].
  unfold visible. destruct ip; [|by apply elem_of_nil in Hi].
  destruct Hs as (_&_&Hp&Ht). split; [done|]. split; [done|]. split; [|done].
  intros p Hpp. destruct (Hp p Hpp) as [|(_&?&?)]; auto.
Qed.

Lemma keyword_ranking_visible b q pid ip ts ph ex d :
  rows_of d (visible ip pid ts) (keyword_ranking b q pid ip ts ph ex d).
Proof. eapply rows_of_sublist; [apply sublist_filter|apply full_ranking_rows]. Qed.

Lemma keyword_ranking_excludes b q pid ip ts ph ex d i :
  i ∈ keyword_ranking b q pid ip ts ph ex d → id i ∉ ex.
Proof. by intros [? _]%list_elem_of_filter. Qed.

Lemma wrap_items items o : map sm_item (wrap_keyword_ranked items o) = items.
Proof.
  unfold wrap_keyword_ranked. rewrite map_map. simpl. apply (enumerate1_snd items).
Qed.
Lemma wrap_pinned_items items : map sm_item (wrap_pinned items) = items.
Proof. unfold wrap_pinned. rewrite map_map. apply map_id. Qed.

Lemma keyword_stream_visible b q pid ip ts ph plim d :
  rows_of d (visible ip pid ts) (map sm_item (keyword_stream b q pid ip ts ph plim d)).
Proof.
  unfold keyword_stream. rewrite map_app, wrap_items, wrap_pinned_items.
  apply rows_of_app; [apply floated_visible|apply keyword_ranking_visible|].
  intros i. apply keyword_ranking_excludes.
Qed.

(** Keyword search pages one stream: there is a single list of hits, the
    matching pins first, in which every memory occurs at most once and is
    visible to the caller, and the page at [offset] with budget [top_k] is
    exactly that slice of it.  So consecutive pages neither repeat nor skip a
    hit, no page exceeds its budget, and the provider is never called. *)
Theorem keyword_pages_tile (configured : bool) q pid ip ts ph plim (s : svc S E) :
  alone s →
  ∃ stream : list ScoredMemory,
    rows_of (st_view (sv_store s)) (visible ip pid ts) (map sm_item stream) ∧
    ∀ top_k offset, 0 ≤ top_k → 0 ≤ offset →
    ∃ t, execute_search utc_now configured q top_k pid ip ts offset keyword ph plim s =
      (with_store t s, Ok (take (Z.to_nat top_k) (drop (Z.to_nat offset) stream))).
Proof.
  intros Hs. exists (keyword_stream (st_fts (sv_store s)) q pid ip ts ph (Z.max 0 plim) (st_view (sv_store s))).
  split; [apply keyword_stream_visible|]. intros k o Hk Ho.
  destruct (observes_search_keyword _ q k pid ip ts o ph (Z.max 0 plim) _ Hk Ho s (conj Hs (conj eq_refl eq_refl)))
    as (t&Ht&_).
  by exists t.
Qed.

(** ** Degradation *)

(** The query's embedding fails: the semantic channel raises what it raised. *)
Lemma semantic_search_fails q pid ts ex lim e (s : svc S E) :
  sv_others s = [] → (ep_embed q (sv_port s)).2 = Raise e →
  semantic_search q pid ts ex lim s = (with_port (ep_embed q (sv_port s)).1 s, Raise e).
Proof.
  intros Ho He. unfold semantic_search. cbn [embed_stable]. unfold bind, revision_snapshot, embed_single.
  rewrite on_port_alone by done. by rewrite He.
Qed.

(** The reading part of a hybrid search, before the semantic channel. *)
Lemma hybrid_opening {A} b d q k pid ip ts off ph plim (K : list MemoryItem → list MemoryItem → Sv A) s :
  0 ≤ k → 0 ≤ off → shows b d s →
  ∃ t, (let* pins := float_pins q ip plim pid ts ph in
        let* kws := on_store (st_search_memory q ((k + off) * 2) pid ip ts 0 ph (ids_of pins)) in
        K pins kws) s =
    (let pins := floated b q ip plim pid ts ph d in
     K pins (take (Z.to_nat ((k + off) * 2)) (keyword_ranking b q pid ip ts ph (ids_of pins) d)))
      (with_store t s) ∧ shows b d (with_store t s).
Proof.
  intros Hk Ho Hs. destruct (observes_float b q ip plim pid ts ph d s Hs) as (t&Ht&Hst).
  destruct (observes_keyword b q ((k + off) * 2) pid ip ts ph
    (ids_of (floated b q ip plim pid ts ph d)) d ltac:(lia) _ Hst) as (t'&Ht'&Hst').
  exists t'. unfold bind. by rewrite Ht, Ht'.
Qed.

(** Is a failure of the semantic channel the provider's? *)
Definition counts_as_outage (e : exn) : bool :=
  match e with RevisionChangedError => false | _ => negb (is_content_too_long e) end.

(** When the query cannot be embedded a hybrid search never raises: it
    returns exactly the page the keyword mode would have returned.  An outage
    is counted once in each failure counter and dated; a query that is too
    long, or a model that changed meanwhile, touches no counter. *)
Theorem hybrid_degrades q k pid ip ts off ph plim e (s : svc S E) :
  alone s → 0 ≤ k → 0 ≤ off → (ep_embed q (sv_port s)).2 = Raise e →
  let '(s1, r1) := execute_search utc_now true q k pid ip ts off hybrid ph plim s in
  let '(s2, r2) := execute_search utc_now true q k pid ip ts off keyword ph plim s in
  r1 = r2 ∧ (∃ l, r2 = Ok l) ∧ st_view (sv_store s1) = st_view (sv_store s) ∧
  (if counts_as_outage e
   then search_failure_count s1 = search_failure_count s + 1 ∧ failure_count s1 = failure_count s + 1 ∧
        last_failure_op s1 = Some "search"%string ∧ last_search_failure_at s1 = Some (utc_now (sv_ticks s))
   else search_failure_count s1 = search_failure_count s ∧ failure_count s1 = failure_count s ∧
        last_failure_op s1 = last_failure_op s).
Proof.
  intros Hs Hk Ho He. set (b := st_fts (sv_store s)). set (d := st_view (sv_store s)).
  assert (shows b d s) as Hsh by (split; [done|split; done]).
  unfold execute_search.
  destruct (observes_search_keyword b q k pid ip ts off ph (Z.max 0 plim) d Hk Ho s Hsh) as (t2&->&_).
  unfold search_hybrid.
  match goal with |- context [bind (float_pins _ _ _ _ _ _) (λ pins, bind _ (@?K pins))] =>
    destruct (hybrid_opening b d q k pid ip ts off ph (Z.max 0 plim) K s Hk Ho Hsh) as (t1&->&Hsh1) end.
  cbv zeta. set (pins := floated _ _ _ _ _ _ _ _). set (R := keyword_ranking _ _ _ _ _ _ _ _).
  unfold bind at 1, try_catch, bind at 1.
  rewrite (semantic_search_fails _ _ _ _ _ e) by (first [apply Hs|done]).
  assert (page pins (wrap_keyword_ranked (take (Z.to_nat ((k + off) * 2)) R) 0) off k =
    take (Z.to_nat k) (drop (Z.to_nat off) (keyword_stream b q pid ip ts ph (Z.max 0 plim) d))) as Hpage.
  { rewrite (page_prefix pins _ R) by (first [done|rewrite take_take; f_equal; lia]).
    unfold page, keyword_stream. fold pins R. rewrite py_slice_nonneg by lia. do 2 f_equal. lia. }
  destruct Hsh1 as (_&_&Hview). simpl in Hview.
  destruct e; simpl; try (destruct (is_content_too_long _); simpl); unfold ret; rewrite Hpage; naive_solver.
Qed.

(** ** The semantic channel *)

(** A memory the semantic channel may score for a query embedded with [dims]
    components under the revision [sn]. *)
Definition searchable d (sn : RevisionSnapshot) (dims : Z) (ex : gset string) (pid : option string)
    (ts : option (list string)) (mid : string) : Prop :=
  mid ∉ ex ∧
  (∃ r, embeddings d !! mid = Some r ∧ e_status r = "ok"%string ∧ e_dimensions r = dims ∧
     in_space ep_provider_name ep_model_name ep_settings_fingerprint (value sn) (known sn) r = true) ∧
  (∃ row, memories d !! mid = Some row ∧ in_scope include pid ts row).

(** Every candidate with its score. *)
Definition pool (entries : list (string * list spec_float)) (q : list spec_float) : list (string * spec_float) :=
  zip (map fst entries) (np_scores (map snd entries) q).

Definition no_nan (l : list (string * spec_float)) : Prop := Forall (λ e, is_nan e.2 = false) l.

(** [l] is a best-first selection of [lim] entries of [p]. *)
Definition best_of (p : list (string * spec_float)) (lim : Z) (l : list (string * spec_float)) : Prop :=
  (∀ e, e ∈ l → e ∈ p) ∧ NoDup (map fst l) ∧ Z.of_nat (length l) = Z.min lim (Z.of_nat (length p)) ∧
  Sorted (λ a b, SFltb a.2 b.2 = false) l ∧
  (no_nan p → ∀ a b, a ∈ l → b ∈ p → b ∉ l → SFltb a.2 b.2 = false).

Definition entries_ok d sn dims ex pid ts (entries : list (string * list spec_float)) : Prop :=
  NoDup (map fst entries) ∧ ∀ mid, mid ∈ map fst entries ↔ searchable d sn dims ex pid ts mid.

Definition sound_ranking d sn dims ex pid ts lim (q : list spec_float) (l : list (string * spec_float)) : Prop :=
  ∃ entries, entries_ok d sn dims ex pid ts entries ∧ best_of (pool entries q) lim l.

Lemma pool_lookup entries q i :
  pool entries q !! i = e ← entries !! i; x ← np_scores (map snd entries) q !! i; Some (e.1, x).
Proof. unfold pool. rewrite lookup_zip_with, list_lookup_fmap. by destruct (entries !! i). Qed.

(** Selecting by valid indices. *)
Lemma omap_lookups {A} (p : list A) (idx : list nat) :
  (∀ i, i ∈ idx → (i < length p)%nat) → Forall2 (λ i x, p !! i = Some x) idx (omap (λ i, p !! i) idx).
Proof.
  induction idx as [|i idx IH]; intros Hf; simpl; [constructor|].
  destruct (lookup_lt_is_Some_2 p i) as [x Hx]; [apply Hf; left|]. rewrite Hx.
  constructor; [done|]. apply IH. intros. apply Hf. by right.
Qed.

Lemma Forall2_Sorted {A B} (P : A → B → Prop) (R : relation A) (R' : relation B) l k :
  (∀ a a' b b', P a b → P a' b' → R a a' → R' b b') → Forall2 P l k → Sorted R l → Sorted R' k.
Proof.
  intros HR HP. induction HP as [|a b l k Hab HP IH]; intros Hs; [constructor|].
  inversion Hs as [|? ? Hs' Hhd]; subst. constructor; [by apply IH|].
  destruct HP as [|a' b' l k Hab' HP]; constructor. inversion Hhd; subst. by eapply HR.
Qed.

Lemma Forall2_NoDup_inj {A B} (P : A → B → Prop) l k :
  (∀ a a' b, P a b → P a' b → a = a') → Forall2 P l k → NoDup l → NoDup k.
Proof.
  intros Hinj. induction 1 as [|a b l k Hab HP IH]; intros Hnd; [constructor|].
  apply NoDup_cons in Hnd as [Hni Hnd]. constructor; [|by apply IH].
  intros (i&Hi)%list_elem_of_lookup. destruct (Forall2_lookup_r _ _ _ _ _ HP Hi) as (a'&Ha'&HPa).
  apply Hni. rewrite (Hinj a a' b Hab HPa). by eapply list_elem_of_lookup_2.
Qed.

Context `{HNL : !NumpyLaws}.

Lemma sound_selection lim q entries :
  0 ≤ lim → NoDup (map fst entries) →
  let scores := np_scores (map snd entries) q in
  best_of (pool entries q) lim
    (omap (λ i, e ← entries !! i; x ← scores !! i; Some (e.1, x))
      (np_top scores (Z.min lim (Z.of_nat (length scores))))).
Proof.
  clear utc_now. intros Hlim Hnd scores.
  assert (length scores = length entries) as Hlen by (unfold scores; by rewrite np_scores_length, length_map).
  assert (length (pool entries q) = length entries) as Hlp
    by (unfold pool; fold scores; rewrite length_zip_with, length_map; lia).
  set (idx := np_top _ _).
  rewrite (list_omap_ext _ (λ i, pool entries q !! i) idx idx)
    by (apply (Forall_Forall2_diag (λ i j : nat, _)), Forall_true; intros; by rewrite pool_lookup).
  assert (Forall2 (λ i x, pool entries q !! i = Some x) idx (omap (λ i, pool entries q !! i) idx)) as HP.
  { apply omap_lookups. intros i Hi%np_top_bound. lia. }
  assert (∀ i x, pool entries q !! i = Some x → scores !! i = Some x.2) as Hsc.
  { intros i x. rewrite pool_lookup. fold scores. destruct (entries !! i), (scores !! i); simpl; naive_solver. }
  assert (NoDup (map fst (pool entries q))) as Hndp
    by (unfold pool; rewrite fst_zip; [done|rewrite length_map; fold scores; lia]).
  split; [|split; [|split; [|split]]].
  - intros e (i&Hi&He)%list_elem_of_omap. by eapply list_elem_of_lookup_2.
  - apply (Forall2_NoDup_inj (λ i k, fst <$> pool entries q !! i = Some k) idx).
    + intros a a' k Ha Ha'. rewrite <- !list_lookup_fmap in *. by eapply NoDup_lookup.
    + apply Forall2_fmap_r. eapply Forall2_impl; [exact HP|]. intros i x Hx. simpl. by rewrite Hx.
    + apply np_top_NoDup.
  - rewrite <- (Forall2_length _ _ _ HP). unfold idx. rewrite np_top_length; lia.
  - eapply Forall2_Sorted; [|exact HP|apply np_top_sorted]. intros a a' x y Hx Hy HR.
    apply HR; by apply Hsc.
  - intros Hnan a b Ha Hb Hnb. apply list_elem_of_omap in Ha as (i&Hi&Ha).
    apply list_elem_of_lookup in Hb as (j&Hb).
    apply (np_top_best scores (Z.min lim (Z.of_nat (length scores))) i j); [| |..]; auto.
    + apply Forall_lookup. intros j' x Hx. unfold no_nan in Hnan. rewrite Forall_lookup in Hnan.
      destruct (lookup_lt_is_Some_2 (pool entries q) j') as [e He].
      { rewrite Hlp, <- Hlen. by eapply lookup_lt_Some. }
      pose proof (Hnan _ _ He) as Hn. apply Hsc in He. congruence.
    + intros Hj. apply Hnb. apply list_elem_of_omap. by exists j.
Qed.

(** The candidates are the searchable memories. *)
Lemma entries_listed d sn dims ex pid ts (mr : bool) :
  wf d → mr = known sn →
  let all := (Spec.list_embeddings None (Some ep_model_name) (Some ep_provider_name) (Some dims)
    (Some ep_settings_fingerprint) (value sn) mr d).2 in
  ∀ l, all = Ok l →
  let unfloated := filter (λ e : string * list spec_float, e.1 ∉ ex) l in
  entries_ok d sn dims ex pid ts
    (if bool_decide (pid ≠ None) || tags_given ts
     then filter (λ e : string * list spec_float, e.1 ∈ (dom (filter (λ kr : string * memory_row,
       (pinned_clauses include pid).2 kr.2 && tags_clause ts kr.2 = true) (memories d)) : gset string)) unfloated
     else unfloated).
Proof.
  intros Hw -> all l Hl unfloated. unfold all, Spec.list_embeddings, gets in Hl. simpl in Hl. injection Hl as <-.
  assert (NoDup (map fst unfloated)) as Hnd'.
  { eapply sublist_NoDup; [|apply (fmap_sublist fst), sublist_filter].
    rewrite map_map. eapply sublist_NoDup; [apply (NoDup_fst_map_to_list (embeddings d))|].
    apply (fmap_sublist fst), sublist_filter. }
  assert (∀ mid, mid ∈ map fst unfloated ↔ mid ∉ ex ∧ ∃ r, embeddings d !! mid = Some r ∧
      e_status r = "ok"%string ∧ e_dimensions r = dims ∧
      in_space ep_provider_name ep_model_name ep_settings_fingerprint (value sn) (known sn) r = true) as Hun.
  { intros mid. unfold unfloated. rewrite list_elem_of_fmap. split.
    - intros (e&->&[He Hin]%list_elem_of_filter). split; [done|].
      apply list_elem_of_fmap in Hin as ([k r]&->&[Hp Hin]%list_elem_of_filter).
      apply elem_of_map_to_list in Hin. exists r. split; [done|]. unfold in_space. simpl in Hp.
      rewrite !andb_true_iff, !bool_decide_eq_true, Z.eqb_eq in Hp.
      rewrite !andb_true_iff, !bool_decide_eq_true. naive_solver.
    - intros (Hex&r&Hr&Hst&Hdim&Hsp). exists (mid, unpack_embedding (e_embedding r)). split; [done|].
      apply list_elem_of_filter. split; [done|]. apply list_elem_of_fmap. exists (mid, r). split; [done|].
      apply list_elem_of_filter. split; [|by apply elem_of_map_to_list]. unfold in_space in Hsp. simpl.
      rewrite !andb_true_iff, !bool_decide_eq_true in Hsp.
      rewrite !andb_true_iff, !bool_decide_eq_true, Z.eqb_eq. naive_solver. }
  destruct (bool_decide (pid ≠ None) || tags_given ts) eqn:Hc.
  - split; [eapply sublist_NoDup; [exact Hnd'|]; apply (fmap_sublist fst), sublist_filter|].
    intros mid. unfold searchable. rewrite list_elem_of_fmap. split.
    + intros (e&->&[He Hin]%list_elem_of_filter). apply eligible_spec in He.
      assert (e.1 ∈ map fst unfloated) as [Hex Hr]%Hun by (apply list_elem_of_fmap; eauto). done.
    + intros (Hex&Hr&Hrow). apply eligible_spec in Hrow.
      assert (mid ∈ map fst unfloated) as (e&->&Hin)%list_elem_of_fmap by (apply Hun; done).
      exists e. split; [done|]. by apply list_elem_of_filter.
  - split; [done|]. intros mid. rewrite Hun. unfold searchable. split; [|naive_solver].
    intros (Hex&r&Hr&Hrest). split; [done|]. split; [eauto|].
    destruct (wf_memory d Hw mid) as [row Hrow]; [by eexists|]. exists row. split; [done|].
    apply orb_false_iff in Hc as [Hpid Hts]. apply bool_decide_eq_false, dec_stable in Hpid as ->.
    unfold in_scope. split; [done|]. split; [done|]. split; [done|].
    destruct ts as [[|t ts]|]; simpl in *; [|done|]; intros t Ht; by apply elem_of_nil in Ht.
Qed.

Lemma best_of_nil q lim l : 0 ≤ lim → best_of (pool [] q) lim l ↔ l = [].
Proof.
  intros Hlim. unfold best_of, pool. simpl. split; [|intros ->].
  - intros (_&_&Hl&_). rewrite Z.min_r in Hl by lia. by destruct l.
  - split; [done|]. split; [constructor|]. split; [simpl; lia|]. split; [constructor|].
    intros _ a b Ha. by apply elem_of_nil in Ha.
Qed.

Lemma observes_scoring b d v sn pid ts ex lim :
  wf d → 0 ≤ lim →
  ∃ l, observes b d (score_candidates v sn pid ts ex lim) l ∧
    sound_ranking d sn (Z.of_nat (length v)) ex pid ts lim v l.
Proof.
  intros Hw Hlim. unfold score_candidates.
  destruct (Spec.list_embeddings None (Some ep_model_name) (Some ep_provider_name)
    (Some (Z.of_nat (length v))) (Some ep_settings_fingerprint) (value sn) (known sn) d) as [d' [all|e]] eqn:Hall;
    [|done].
  assert (d' = d) as -> by (by injection Hall).
  pose proof (entries_listed d sn (Z.of_nat (length v)) ex pid ts (known sn) Hw eq_refl all
    (f_equal snd Hall)) as Hent. simpl in Hent.
  set (Q := λ e : string * list spec_float, e.1 ∉ ex) in *.
  set (cond := bool_decide (pid ≠ None) || tags_given ts) in *.
  set (entries := if cond then _ else _) in Hent.
  set (chosen := match entries with [] => [] | _ => omap (λ i, e ← entries !! i;
    x ← np_scores (map snd entries) v !! i; Some (e.1, x)) (np_top (np_scores (map snd entries) v)
    (Z.min lim (Z.of_nat (length (np_scores (map snd entries) v))))) end).
  exists chosen. split.
  - eapply observes_bind; [by eapply observes_store; [apply law_list_embeddings|exact Hall]|].
    destruct all as [|e0 all0].
    { assert (entries = []) as He by (unfold entries; by destruct cond).
      unfold chosen. rewrite He. apply observes_ret. }
    eapply (observes_bind _ _ _ entries).
    { unfold entries. destruct cond; [|apply observes_ret].
      eapply observes_bind; [by eapply observes_store; [apply law_eligible|]|apply observes_ret]. }
    unfold chosen. destruct entries; apply observes_ret.
  - exists entries. split; [done|]. unfold chosen. destruct entries eqn:He; [by apply best_of_nil|].
    rewrite <- He in *. apply sound_selection; [done|]. apply Hent.
Qed.

(** The embedding the ranking uses: one provider call that answered [v] under
    the revision [sn], observed unchanged right after it. *)
Definition stable_embedding (q : string) (opening sn : RevisionSnapshot) (v : list spec_float) : Prop :=
  ∃ p p', ep_embed q p = (p', Ok v) ∧ sn = ep_revision_snapshot p ∧
    same_revision sn (ep_revision_snapshot p') = true ∧ (known opening = true → known sn = true).

Lemma embed_stable_run n opening q (s : svc S E) :
  sv_others s = [] →
  ∃ p r, embed_stable n opening (ep_revision_snapshot (sv_port s)) q s = (with_port p s, r) ∧
    match r with
    | Ok (v, sn) => stable_embedding q opening sn v
    | Raise e => e = RevisionChangedError ∨ ∃ p0, (ep_embed q p0).2 = Raise e
    end.
Proof.
  revert s. induction n as [|n IH]; intros s Ho; cbn [embed_stable]; unfold bind at 1, embed_single;
    rewrite on_port_alone by done;
    destruct (ep_embed q (sv_port s)) as [p [v|e]] eqn:He; simpl.
  2, 4: exists p, (Raise e); split; [done|]; right; exists (sv_port s); by rewrite He.
  all: unfold bind at 1, revision_snapshot; simpl;
    destruct (same_revision (ep_revision_snapshot (sv_port s)) (ep_revision_snapshot p)) eqn:Hsame.
  1, 3: assert (known (ep_revision_snapshot (sv_port s)) = known (ep_revision_snapshot p)) as Hk
      by (unfold same_revision in Hsame; apply andb_true_iff in Hsame as [Hk _]; by apply eqb_prop);
    destruct (known opening && negb (known (ep_revision_snapshot p))) eqn:Hkn;
    [exists p, (Raise RevisionChangedError); auto|];
    exists p, (Ok (v, ep_revision_snapshot (sv_port s))); split; [done|];
    exists (sv_port s), p; do 3 (split; [done|]); 
    intros Hop; rewrite Hk; rewrite Hop in Hkn; by destruct (known (ep_revision_snapshot p)).
  - exists p, (Raise RevisionChangedError). auto.
  - destruct (IH (with_port p s) Ho) as (p'&r&Hrun&Hr). exists p', r. simpl in Hrun. by rewrite Hrun.
Qed.

Lemma semantic_run b d q pid ts ex lim (s : svc S E) :
  shows b d s → wf d → 0 ≤ lim →
  ∃ t p r, semantic_search q pid ts ex lim s = (with_store t (with_port p s), r) ∧
    shows b d (with_store t (with_port p s)) ∧
    match r with
    | Ok l => ∃ v sn, stable_embedding q (ep_revision_snapshot (sv_port s)) sn v ∧
        sound_ranking d sn (Z.of_nat (length v)) ex pid ts lim v l
    | Raise e => e = RevisionChangedError ∨ ∃ p0, (ep_embed q p0).2 = Raise e
    end.
Proof.
  intros Hs Hw Hlim. unfold semantic_search, bind at 1, revision_snapshot.
  destruct (embed_stable_run 1 (ep_revision_snapshot (sv_port s)) q s) as (p&r&Hrun&Hr); [apply Hs|].
  unfold bind at 1. rewrite Hrun. destruct r as [[v sn]|e].
  - destruct (observes_scoring b d v sn pid ts ex lim Hw Hlim) as (l&Hobs&Hl).
    destruct (Hobs (with_port p s) Hs) as (t&Ht&Hst). exists t, p, (Ok l). split; [exact Ht|]. split; [exact Hst|]. by exists v, sn.
  - exists (sv_store s), p, (Raise e). by destruct s.
Qed.

(** The semantic channel ranks exactly the memories it may: the query's
    embedding is used only under a revision that was the same just before and
    just after the call that produced it; the candidates are precisely the
    unexcluded memories of the caller's scope that hold a vector of that space,
    dimension and (when verified) revision, filtered before the window is cut;
    and what comes back is the best [limit] of them, best first, none twice.
    Otherwise it raises the provider's error or [RevisionChangedError]. *)
Theorem semantic_search_sound q pid ts ex lim (s : svc S E) :
  alone s → wf (st_view (sv_store s)) → 0 ≤ lim →
  match (semantic_search q pid ts ex lim s).2 with
  | Ok l => ∃ v sn entries,
      stable_embedding q (ep_revision_snapshot (sv_port s)) sn v ∧
      (∀ mid, mid ∈ map fst entries ↔
         searchable (st_view (sv_store s)) sn (Z.of_nat (length v)) ex pid ts mid) ∧
      best_of (pool entries v) lim l
  | Raise e => e = RevisionChangedError ∨ ∃ p, (ep_embed q p).2 = Raise e
  end.
Proof.
  intros Hs Hw Hlim. destruct (semantic_run (st_fts (sv_store s)) _ q pid ts ex lim s
    (conj Hs (conj eq_refl eq_refl)) Hw Hlim) as (t&p&r&->&_&Hr). simpl.
  destruct r as [l|e]; [|done]. destruct Hr as (v&sn&Hv&entries&[_ Hent]&Hb). eauto 6.
Qed.

(** ** The fusion *)

Lemma py_dict_dom {V} (l : list (string * V)) : dom (py_dict l) = list_to_set (map fst l).
Proof.
  unfold py_dict. assert (∀ m : gmap string V,
    dom (foldl (λ m (kv : string * V), <[kv.1 := kv.2]> m) m l) = dom m ∪ list_to_set (map fst l)) as H.
  { induction l as [|kv l IH]; intros m; simpl; [set_solver|]. rewrite IH, dom_insert_L. set_solver. }
  rewrite H, dom_empty_L. set_solver.
Qed.

Lemma py_dict_elem {V} (l : list (string * V)) k v : py_dict l !! k = Some v → (k, v) ∈ l.
Proof.
  unfold py_dict. assert (∀ m : gmap string V,
    foldl (λ m (kv : string * V), <[kv.1 := kv.2]> m) m l !! k = Some v → m !! k = Some v ∨ (k, v) ∈ l) as H.
  { induction l as [|[k' v'] l IH]; intros m Hm; simpl in *; [auto|].
    destruct (IH _ Hm) as [Hi|Hi]; [|right; by right].
    destruct (decide (k' = k)) as [->|Hne].
    - rewrite lookup_insert_eq in Hi. simplify_eq. right. left.
    - rewrite lookup_insert_ne in Hi by done. auto. }
  intros Hl. destruct (H ∅ Hl); [|done]. by rewrite lookup_empty in *.
Qed.

Lemma enumerate1_dom {A} (g : A → string) (l : list A) :
  dom (py_dict (map (λ ri, (g ri.2, ri.1)) (enumerate1 l))) = list_to_set (map g l).
Proof.
  rewrite py_dict_dom, map_map. simpl. by rewrite <- (map_map snd g), enumerate1_snd.
Qed.

(** Items keyed by their own id, as the database has them. *)
Definition resolves d (m : gmap string MemoryItem) : Prop :=
  ∀ mid i, m !! mid = Some i → ∃ r, memories d !! mid = Some r ∧ i = row_to_memory_item (mid, r).

Lemma resolves_keyword d P l : rows_of d P l → resolves d (py_dict (map (λ i, (id i, i)) l)).
Proof.
  intros [H _] mid i Hi. apply py_dict_elem, list_elem_of_fmap in Hi as (j&[= -> ->]&Hj).
  destruct (H j Hj) as (r&Hr&Hrow&_). eauto.
Qed.

Lemma observes_fetch b d mids m :
  resolves d m → ∃ m', observes b d (fetch_items mids m) m' ∧ resolves d m' ∧ m ⊆ m' ∧
    ∀ mid, mid ∈ mids → is_Some (memories d !! mid) → is_Some (m' !! mid).
Proof.
  revert m. induction mids as [|mid mids IH]; intros m Hm; simpl.
  { exists m. split; [apply observes_ret|]. split; [done|]. split; [done|]. intros mid Hmid. by apply elem_of_nil in Hmid. }
  destruct (m !! mid) as [i|] eqn:Hi.
  { destruct (IH m Hm) as (m'&?&?&Hsub&Hall). exists m'. do 3 (split; [done|]). intros k [->|Hk]%elem_of_cons; [|by apply Hall].
    intros _. exists i. by eapply lookup_weaken. }
  set (found := (λ r, row_to_memory_item (mid, r)) <$> memories d !! mid).
  destruct (IH (match found with Some i => <[mid := i]> m | None => m end)) as (m'&Hobs&Hres&Hsub&Hall).
  { unfold found. destruct (memories d !! mid) as [r|] eqn:Hr; simpl; [|done].
    intros k j. destruct (decide (k = mid)) as [->|Hne].
    - rewrite lookup_insert_eq. intros [= <-]. eauto.
    - rewrite lookup_insert_ne by done. apply Hm. }
  exists m'. split; [|split; [done|split]].
  - eapply observes_bind; [|exact Hobs]. by eapply observes_store; [apply law_get_memory|].
  - etrans; [|exact Hsub]. destruct found; [by apply insert_subseteq|done].
  - intros k [->|Hk]%elem_of_cons; [|by apply Hall]. intros [r Hr]. unfold found in Hsub. rewrite Hr in Hsub. simpl in Hsub.
    eexists. eapply lookup_weaken; [|exact Hsub]. apply lookup_insert_eq.
Qed.

(** ** What a fused hit is *)

(** The place of an id in a list, from one. *)
Definition rank_in (l : list string) (k : string) : option Z := (λ x, Z.of_nat x.1 + 1) <$> list_find (λ k', k' = k) l.
Definition similarity_in (sem : list (string * spec_float)) (k : string) : option spec_float :=
  (λ x, x.2.2) <$> list_find (λ e : string * spec_float, e.1 = k) sem.
(** The hit of an item by its places in the two channels: the score is the sum of
    [1 / (60 + place)] over them. *)
Definition fused_hit (kw : list string) (sem : list (string * spec_float)) (item : MemoryItem) : ScoredMemory :=
  let kr := rank_in kw (id item) in
  let sr := rank_in (map fst sem) (id item) in
  mkScored item
    (match kr, sr with Some _, Some _ => ch_hybrid | Some _, None => ch_keyword | None, _ => ch_semantic end)
    (Some (foldl fadd (f64_of_Z 0) (map (λ n, fdiv (f64_of_Z 1) (f64_of_Z (60 + n))) (option_list kr ++ option_list sr))))
    (similarity_in sem (id item)) kr.

Lemma NoDup_fst_unique {V} (l : list (string * V)) k v v' : NoDup (map fst l) → (k, v) ∈ l → (k, v') ∈ l → v = v'.
Proof.
  intros Hnd (i&Hi)%list_elem_of_lookup (j&Hj)%list_elem_of_lookup.
  assert (i = j) as ->; [|congruence]. eapply (NoDup_lookup (map fst l) i j k); [done|..];
    rewrite list_lookup_fmap; [by rewrite Hi|by rewrite Hj].
Qed.
Lemma py_dict_NoDup {V} (l : list (string * V)) k v : NoDup (map fst l) → py_dict l !! k = Some v ↔ (k, v) ∈ l.
Proof.
  intros Hnd. split; [apply py_dict_elem|]. intros Hin.
  assert (k ∈ dom (py_dict l)) as [v' Hv']%elem_of_dom.
  { rewrite py_dict_dom, elem_of_list_to_set. apply list_elem_of_fmap. by exists (k, v). }
  rewrite Hv'. f_equal. eapply NoDup_fst_unique; [done| |done]. by apply py_dict_elem.
Qed.
Lemma enumerate1_lookup {A} (l : list A) i : enumerate1 l !! i = (λ x, (Z.of_nat i + 1, x)) <$> l !! i.
Proof.
  unfold enumerate1. rewrite lookup_zip_with, list_lookup_fmap. destruct (l !! i) as [x|] eqn:Hx; simpl.
  - by rewrite lookup_seq_lt by by eapply lookup_lt_Some.
  - by destruct (_ <$> _).
Qed.
Lemma rank_in_Some l k n : NoDup l → rank_in l k = Some n ↔ ∃ i, l !! i = Some k ∧ n = Z.of_nat i + 1.
Proof.
  intros Hnd. unfold rank_in. rewrite fmap_Some. split.
  - intros ([i k']&(Hi&->&_)%list_find_Some&->). by exists i.
  - intros (i&Hi&->). exists (i, k). split; [|done]. apply list_find_Some. split; [done|]. split; [done|].
    intros j y Hj Hlt ->. pose proof (NoDup_lookup _ _ _ _ Hnd Hi Hj). lia.
Qed.
Lemma rank_lookup {A} (g : A → string) (l : list A) k : NoDup (map g l) →
  py_dict (map (λ ri, (g ri.2, ri.1)) (enumerate1 l)) !! k = rank_in (map g l) k.
Proof.
  intros Hnd. apply option_eq. intros n. rewrite rank_in_Some by done. rewrite py_dict_NoDup.
  2: { rewrite map_map. simpl. rewrite <-(map_map snd g). by rewrite enumerate1_snd. }
  rewrite list_elem_of_fmap. split.
  - intros ([n' x]&[= -> ->]&(i&Hi)%list_elem_of_lookup). rewrite enumerate1_lookup in Hi.
    apply fmap_Some in Hi as (y&Hy&[= -> ->]). exists i. by rewrite list_lookup_fmap, Hy.
  - intros (i&Hi&->). rewrite list_lookup_fmap in Hi. apply fmap_Some in Hi as (x&Hx&->). exists (Z.of_nat i + 1, x).
    split; [done|]. apply list_elem_of_lookup. exists i. by rewrite enumerate1_lookup, Hx.
Qed.
Lemma similarity_lookup sem k : NoDup (map fst sem) → py_dict sem !! k = similarity_in sem k.
Proof.
  intros Hnd. apply option_eq. intros x. rewrite py_dict_NoDup by done. unfold similarity_in. rewrite fmap_Some. split.
  - intros Hin. destruct (list_find_elem_of (λ e : string * spec_float, e.1 = k) sem (k, x) Hin eq_refl) as [[i e] Hf].
    exists (i, e). split; [done|]. apply list_find_Some in Hf as (Hi&He&_). destruct e as [k' x']. simpl in *. subst k'.
    apply list_elem_of_lookup_2 in Hi. by eapply NoDup_fst_unique.
  - intros ([i [k' x']]&(Hi&Hk&_)%list_find_Some&->). simpl in *. subst k'. by eapply list_elem_of_lookup_2.
Qed.
Lemma rank_elem l k : NoDup l → is_Some (rank_in l k) ↔ k ∈ l.
Proof.
  intros Hnd. unfold is_Some. setoid_rewrite rank_in_Some; [|done]. rewrite list_elem_of_lookup. naive_solver.
Qed.
Lemma similarity_elem sem k : NoDup (map fst sem) → is_Some (similarity_in sem k) ↔ k ∈ map fst sem.
Proof.
  intros Hnd. rewrite <-similarity_lookup, <-elem_of_dom, py_dict_dom, elem_of_list_to_set by done. done.
Qed.
Lemma score_sum kr sr : rrf_score kr sr =
  foldl fadd (f64_of_Z 0) (map (λ n, fdiv (f64_of_Z 1) (f64_of_Z (60 + n))) (option_list kr ++ option_list sr)).
Proof. by destruct kr, sr. Qed.

Definition not_outscored (a b : ScoredMemory) : Prop :=
  match sm_rrf_score a, sm_rrf_score b with Some x, Some y => SFltb x y = false | _, _ => True end.

Lemma item_visible r ip pid ts :
  in_scope include pid ts r → (ip = false → r_pinned r = false) → visible ip pid ts r.
Proof.
  intros (_&_&Hp&Ht) Hip. unfold visible. destruct ip; [done|]. specialize (Hip eq_refl).
  split; [done|]. split; [done|]. split; [|done].
  intros p Hpp. destruct (Hp p Hpp) as [|(_&Hpin&_)]; [by left|congruence].
Qed.

Lemma omap_fst_sublist {A B} (f : A → option B) (g : B → A) (l : list A) :
  (∀ x y, f x = Some y → g y = x) → map g (omap f l) `sublist_of` l.
Proof.
  intros Hg. induction l as [|x l IH]; simpl; [done|].
  destruct (f x) as [y|] eqn:Hf; simpl; [rewrite (Hg x y Hf); by constructor|by constructor].
Qed.

Lemma Sorted_take {A} (R : relation A) n l : Sorted R l → Sorted R (take n l).
Proof.
  intros Hl. revert n. induction Hl as [|x l Hl IH Hhd]; intros [|n]; simpl; [constructor..|].
  constructor; [apply IH|]. destruct n, Hhd; simpl; by constructor.
Qed.

Lemma SFltb_asym x y : SFltb x y = true → SFltb y x = false.
Proof.
  unfold SFltb, SFcompare. destruct x as [[]|[]| |[] m1 e1], y as [[]|[]| |[] m2 e2]; try done;
    rewrite (Z.compare_antisym e1 e2), ?(Pos.compare_antisym m1 m2); destruct (e1 ?= e2); simpl;
    rewrite ?Pos.compare_cont_spec in *; try done; change (Pos.compare_cont Eq) with Pos.compare in *;
    rewrite ?(Pos.compare_antisym m1 m2); by destruct (Pos.compare m1 m2).
Qed.

Lemma item_matches_scope pid ts k r : in_scope include pid ts r → item_matches pid ts (row_to_memory_item (k, r)) = true.
Proof.
  intros (_&_&Hp&Ht). unfold item_matches. apply andb_true_iff. split.
  - apply orb_true_iff. right. apply forallb_forall. intros x Hx%list_elem_of_In. simpl. specialize (Ht x Hx).
    unfold str_mem. by apply bool_decide_eq_true.
  - apply negb_true_iff. destruct pid as [p|]; [|done]. simpl. destruct (Hp p eq_refl) as [Hpr|(_&Hpin&Hpr)]; rewrite Hpr.
    + rewrite (bool_decide_eq_false_2 (Some p ≠ Some p)) by naive_solver. by rewrite andb_false_r.
    + rewrite Hpin. rewrite (bool_decide_eq_true_2 (None = None)) by done. by rewrite !andb_false_r.
Qed.
Lemma visible_include ip pid ts r : visible ip pid ts r ↔ in_scope include pid ts r ∧ (ip = false → r_pinned r = false).
Proof.
  split; [|by intros [? ?]; apply item_visible]. unfold visible. intros (He&_&Hp&Ht). destruct ip.
  - by repeat split.
  - split; [|intros _; by apply He]. split; [done|]. split; [done|]. split; [|done].
    intros p Hpp. destruct (Hp p Hpp) as [|(?&_)]; [by left|done].
Qed.

(** The fused ranking [hits] of the keyword ids [kw] and the semantic channel [sem]:
    the visible memories of either, once each, with their evidence, by score. *)
Definition fusion d ip pid ts (kw : list string) (sem : list (string * spec_float)) (hits : list ScoredMemory) : Prop :=
  (∀ h, h ∈ hits → h = fused_hit kw sem (sm_item h)) ∧
  rows_of d (visible ip pid ts) (map sm_item hits) ∧
  (∀ k, k ∈ map (λ h, id (sm_item h)) hits ↔ (k ∈ kw ∨ k ∈ map fst sem) ∧ ∃ r, memories d !! k = Some r ∧ visible ip pid ts r) ∧
  Sorted not_outscored hits.

Lemma fuse_fusion d kws (ranked : list (string * spec_float)) m pinned_ids ip ts pid etk :
  rows_of d (visible ip pid ts) kws → (∀ i, i ∈ kws → id i ∉ pinned_ids) → NoDup (map fst ranked) →
  (∀ mid, mid ∈ map fst ranked → mid ∉ pinned_ids ∧ ∃ r, memories d !! mid = Some r ∧ in_scope include pid ts r) →
  resolves d m → (∀ mid, mid ∈ map id kws ∨ mid ∈ map fst ranked → is_Some (m !! mid)) → 0 ≤ etk →
  ∃ hits, fuse kws ranked m pinned_ids ip ts pid etk = take (Z.to_nat etk) hits ∧ fusion d ip pid ts (map id kws) ranked hits.
Proof.
  intros [Hk1 Hk2] Hkx Hnd Hsem Hm Hall Hetk. unfold fuse.
  set (kr := py_dict (map (λ ri, (id ri.2, ri.1)) (enumerate1 kws))).
  set (sr := py_dict (map (λ rm, (rm.2.1, rm.1)) (enumerate1 ranked))).
  assert (∀ k, kr !! k = rank_in (map id kws) k) as Hkr by (intros; by apply rank_lookup).
  assert (∀ k, sr !! k = rank_in (map fst ranked) k) as Hsr by (intros; by apply (rank_lookup fst)).
  assert (∀ k, k ∈ dom kr ∪ dom sr ↔ k ∈ map id kws ∨ k ∈ map fst ranked) as Hids.
  { intros k. by rewrite elem_of_union, !elem_of_dom, Hkr, Hsr, !rank_elem. }
  set (admitted := λ mid, match m !! mid with None => None | _ => _ end).
  (* an id of either channel is admitted exactly if its row is visible *)
  assert (∀ mid, mid ∈ map id kws ∨ mid ∈ map fst ranked → ∃ r, memories d !! mid = Some r ∧ in_scope include pid ts r ∧
    admitted mid = if decide (ip = false → r_pinned r = false)
      then Some (mid, row_to_memory_item (mid, r), rrf_score (kr !! mid) (sr !! mid)) else None) as Hadm.
  { intros mid Hin. destruct (Hall mid Hin) as [i Hi]. destruct (Hm mid i Hi) as (r&Hr&->). exists r.
    assert (mid ∉ pinned_ids ∧ in_scope include pid ts r) as [Hx Hs].
    { destruct Hin as [(i&->&Hi')%list_elem_of_fmap|Hin].
      - destruct (Hk1 i Hi') as (r'&Hr'&_&Hv). apply visible_include in Hv as [Hv _]. split; [by apply Hkx|]. congruence.
      - destruct (Hsem _ Hin) as (?&r'&?&?). split; [done|]. congruence. }
    split; [done|]. split; [done|]. unfold admitted. rewrite Hi, item_matches_scope by done. simpl.
    rewrite (bool_decide_eq_false_2 (mid ∈ pinned_ids)) by done. simpl.
    destruct (decide (ip = false → r_pinned r = false)), (r_pinned r), ip; simpl; naive_solver. }
  set (scores := omap admitted (set_order (dom kr ∪ dom sr))). set (sorted := sort_by _ scores).
  set (F := λ y : string * MemoryItem * spec_float, _).
  assert (∀ y, y ∈ sorted ↔ ∃ r, (y.1.1 ∈ map id kws ∨ y.1.1 ∈ map fst ranked) ∧ memories d !! y.1.1 = Some r ∧ visible ip pid ts r ∧
    y = (y.1.1, row_to_memory_item (y.1.1, r), rrf_score (kr !! y.1.1) (sr !! y.1.1))) as Hy.
  { intros y. unfold sorted. rewrite elem_of_sort_by. unfold scores. rewrite list_elem_of_omap.
    setoid_rewrite set_order_perm. setoid_rewrite elem_of_elements. setoid_rewrite Hids. setoid_rewrite visible_include. split.
    - intros (mid&Hin&Hmid). destruct (Hadm mid Hin) as (r&Hr&Hs&E'). exists r. rewrite E' in Hmid. case_decide; [|done].
      by injection Hmid as <-.
    - intros (r&Hin&Hr&[Hs Hp]&Heq). exists y.1.1. split; [done|]. destruct (Hadm _ Hin) as (r'&Hr'&_&->).
      rewrite Hr in Hr'. injection Hr' as <-. rewrite decide_True by done. by rewrite <-Heq. }
  exists (map F sorted). split.
  { rewrite py_slice_nonneg by lia. rewrite drop_0, Z.sub_0_r. apply fmap_take. }
  assert (∀ y, y ∈ sorted → F y = fused_hit (map id kws) ranked y.1.2 ∧ id y.1.2 = y.1.1) as Hhit.
  { intros y (r&Hin&_&_&->)%Hy. simpl. split; [|done]. unfold fused_hit. simpl. rewrite Hkr, Hsr, score_sum, similarity_lookup by done.
    f_equal. pose proof (similarity_elem ranked y.1.1 Hnd) as Hs. rewrite <-rank_elem in Hs by done.
    destruct (rank_in (map id kws) _), (rank_in (map fst ranked) _), (similarity_in ranked _); try done;
      by (destruct (proj1 Hs ltac:(eauto)) || destruct (proj2 Hs ltac:(eauto))). }
  split_and!.
  - intros h (y&->&Hin)%list_elem_of_fmap. destruct (Hhit y Hin) as [E' _]. by rewrite E'.
  - assert (map sm_item (map F sorted) = map (λ y, y.1.2) sorted) as ->.
    { rewrite map_map. apply map_ext. by intros [[??]?]. }
    split.
    + intros i (y&->&Hin)%list_elem_of_fmap. destruct (Hhit y Hin) as [_ Hid]. apply Hy in Hin as (r&_&Hr&Hv&Heq).
      exists r. rewrite Hid. split; [done|]. split; [by rewrite Heq|done].
    + rewrite map_map. rewrite (map_ext_in _ (λ y, y.1.1)) by (intros y Hin%list_elem_of_In; by apply Hhit).
      unfold sorted. erewrite Permutation_map by apply sort_by_perm.
      eapply sublist_NoDup; [|apply omap_fst_sublist with (g := λ y, y.1.1)].
      * rewrite set_order_perm. apply NoDup_elements.
      * intros mid y Hmid. unfold admitted in Hmid. destruct (m !! mid); [|done]. by repeat case_match; simplify_eq.
  - intros k. rewrite map_map. rewrite (map_ext_in _ (λ y, y.1.1)).
    2: { intros y Hin%list_elem_of_In. destruct (Hhit y Hin) as [E' Hid]. by rewrite E'. }
    rewrite list_elem_of_fmap. split.
    + intros (y&->&(r&Hin&Hr&Hv&_)%Hy). eauto.
    + intros (Hin&r&Hr&Hv). exists (k, row_to_memory_item (k, r), rrf_score (kr !! k) (sr !! k)). split; [done|].
      apply Hy. exists r. by split_and!.
  - apply Forall2_Sorted with (P := λ y h, h = F y) (l := sorted) (R := λ x y, negb (SFltb x.2 y.2) = true).
    + intros [[? ?] x] [[? ?] y] ? ? -> -> HR. unfold not_outscored. simpl in *. by destruct (SFltb x y).
    + apply Forall2_fmap_r, Forall_Forall2_diag. by apply Forall_true.
    + apply sort_by_sorted. intros x y. simpl. destruct (SFltb x.2 y.2) eqn:Hlt; [|done]. by rewrite (SFltb_asym _ _ Hlt).
Qed.

(** ** The hybrid search *)

(** The provider answers the query and its revision is the same after as before. *)
Definition steady (q : string) (p : E) : Prop := ∃ p' v, ep_embed q p = (p', Ok v) ∧
  same_revision (ep_revision_snapshot p) (ep_revision_snapshot p') = true.
Lemma steady_answers b d q pid ts ex lim (s s' : svc S E) e :
  shows b d s → wf d → 0 ≤ lim → steady q (sv_port s) → semantic_search q pid ts ex lim s ≠ (s', Raise e).
Proof.
  intros Hs Hw Hlim (p&v&Hv&Hsame). unfold semantic_search, bind at 1, revision_snapshot. cbn [embed_stable].
  unfold bind at 1, bind at 1, embed_single. rewrite on_port_alone by apply Hs. rewrite Hv. simpl.
  unfold bind at 1, revision_snapshot. simpl. rewrite Hsame.
  assert (known (ep_revision_snapshot (sv_port s)) = known (ep_revision_snapshot p)) as ->
    by (unfold same_revision in Hsame; apply andb_true_iff in Hsame as [Hk _]; by apply eqb_prop).
  rewrite andb_negb_r. simpl.
  destruct (observes_scoring b d v (ep_revision_snapshot (sv_port s)) pid ts ex lim Hw Hlim) as (l&Hobs&_).
  destruct (Hobs (with_port p s) Hs) as (t&Ht&_). intros Hrun. unfold ret in Hrun. simpl in Hrun. rewrite Ht in Hrun. done.
Qed.

Lemma page_cut {A} (l m : list A) n k : take k (drop n (l ++ take (k + n) m)) = take k (drop n (l ++ m)).
Proof.
  rewrite !firstn_skipn_comm, (Nat.add_comm n k). f_equal. rewrite !take_app. f_equal. rewrite take_take. f_equal. lia.
Qed.
Lemma floated_take b q ip plim pid ts ph d : floated b q ip (Z.max 0 plim) pid ts ph d =
  if ip && (0 <? plim) then take (Z.to_nat plim) (full_ranking b q pid ts ph only d) else [].
Proof.
  unfold floated. destruct ip; simpl; [|done]. destruct (Z.ltb_spec 0 plim) as [Hp|Hp].
  - rewrite Z.max_r by lia. rewrite (proj2 (Z.ltb_lt 0 plim)) by done. rewrite py_slice_nonneg by lia.
    rewrite drop_0, Z.sub_0_r, ranked_prefix by lia. rewrite take_take. f_equal. lia.
  - by rewrite Z.max_l by lia.
Qed.
Lemma wrap_hit items i h : wrap_keyword_ranked items 0 !! i = Some h →
  h = mkScored (sm_item h) ch_keyword None None (Some (Z.of_nat i + 1)).
Proof.
  unfold wrap_keyword_ranked. rewrite list_lookup_fmap, enumerate1_lookup. destruct (items !! i); simpl; [|done].
  intros [= <-]. by rewrite Z.add_0_l.
Qed.

(** C34. A hybrid search always answers, whatever the provider does, and its answer
    is the page at [off] of one stream: first the matching pins, at most [plim] of
    them and none without [ip], then the ranked hits.  The keyword channel is the
    best [2 (k + off)] matches of the caller's scope that do not float; what matches
    is what the engine finds (by FTS5, or without it a phrase by containment and
    plain words every row of the scope), and all of it unless the fallback's window
    of 200 is exceeded.  If the provider gave a stable embedding of the query, the
    ranked hits are the fusion of that channel with the best semantic candidates:
    exactly their visible memories, each with its evidence and reciprocal rank
    score, best score first.  Otherwise, and only if the provider failed or its
    revision moved, they are the keyword channel in order.  No memory occurs twice,
    every one is a current row the caller may see, and nothing is written. *)
Theorem hybrid_search_sound q k pid ip ts off ph plim (s : svc S E) :
  alone s → wf (st_view (sv_store s)) → 0 ≤ k → 0 ≤ off →
  let active := st_fts (sv_store s) in
  let d := st_view (sv_store s) in
  let matching mode := full_ranking active q pid ts ph mode d in
  let pins := if ip && (0 <? plim) then take (Z.to_nat plim) (matching only) else [] in
  let window := 2 * (k + off) in
  let keyword_hits := take (Z.to_nat window) (filter (λ i, id i ∉ ids_of pins) (matching (if ip then include else exclude))) in
  (∀ mode i, i ∈ matching mode → ∃ r, memories d !! id i = Some r ∧ i = row_to_memory_item (id i, r) ∧
     in_scope mode pid ts r ∧ finds active q ph d (id i) r) ∧
  (active = true ∨ (size (memories d) ≤ 200)%nat → ∀ mode key r, memories d !! key = Some r → in_scope mode pid ts r →
     finds active q ph d key r → row_to_memory_item (key, r) ∈ matching mode) ∧
  ∃ s' ranked,
    let stream := map (λ i, mkScored i ch_pinned None None None) pins ++ ranked in
    execute_search utc_now true q k pid ip ts off hybrid ph plim s = (s', Ok (take (Z.to_nat k) (drop (Z.to_nat off) stream))) ∧
    st_view (sv_store s') = d ∧
    rows_of d (visible ip pid ts) (map sm_item stream) ∧
    ((∃ v sn sem, stable_embedding q (ep_revision_snapshot (sv_port s)) sn v ∧
        sound_ranking d sn (Z.of_nat (length v)) (ids_of pins) pid ts window v sem ∧
        fusion d ip pid ts (map id keyword_hits) sem ranked) ∨
     (¬ steady q (sv_port s) ∧ map sm_item ranked = keyword_hits ∧
        ∀ i h, ranked !! i = Some h → h = mkScored (sm_item h) ch_keyword None None (Some (Z.of_nat i + 1)))).
Proof.
  intros Hs Hw Hk Ho active d matching pins window keyword_hits.
  split; [intros mode i; apply full_ranking_found|]. split; [intros; by apply full_ranking_complete|].
  assert (shows active d s) as Hsh by (split; [done|split; done]).
  assert (floated active q ip (Z.max 0 plim) pid ts ph d = pins) as Hpins by apply floated_take.
  assert (rows_of d (visible ip pid ts) pins) as Hpv by (rewrite <-Hpins; apply floated_visible).
  assert (take (Z.to_nat window) (keyword_ranking active q pid ip ts ph (ids_of pins) d) = keyword_hits) as HK by done.
  assert (rows_of d (visible ip pid ts) keyword_hits) as Hkv by (eapply rows_of_sublist; [apply sublist_take|apply keyword_ranking_visible]).
  assert (∀ i, i ∈ keyword_hits → id i ∉ ids_of pins) as Hkx.
  { intros i (j&Hj&_)%elem_of_take. by apply list_elem_of_lookup_2, list_elem_of_filter in Hj as [? _]. }
  unfold execute_search, search_hybrid.
  match goal with |- context [bind (float_pins _ _ _ _ _ _) (λ pins, bind _ (@?K pins))] =>
    destruct (hybrid_opening active d q k pid ip ts off ph (Z.max 0 plim) K s Hk Ho Hsh) as (t1&->&Hsh1) end.
  cbv zeta. rewrite Hpins. rewrite (Z.mul_comm (k + off) 2). fold window. rewrite HK.
  destruct (semantic_run active d q pid ts (ids_of pins) window _ Hsh1 Hw ltac:(lia)) as (t2&p&r&Hrun&Hsh2&Hr).
  assert (∀ l : list ScoredMemory, py_slice off (off + k) l = take (Z.to_nat k) (drop (Z.to_nat off) l)) as Hsl
    by (intros l; rewrite py_slice_nonneg by lia; do 2 f_equal; lia).
  unfold bind at 1, try_catch, bind at 1. rewrite Hrun. unfold page, wrap_pinned.
  destruct r as [l|e]; simpl.
  - destruct Hr as (v&sn&Hv&Hsr). pose proof Hsr as (entries&[_ Hent]&[Hpool [Hnd _]]).
    assert (∀ mid, mid ∈ map fst l → mid ∉ ids_of pins ∧ ∃ r, memories d !! mid = Some r ∧ in_scope include pid ts r) as Hsem.
    { intros mid (e&->&He)%list_elem_of_fmap. apply Hpool in He. unfold pool in He.
      destruct e as [mid x]. apply elem_of_zip_l in He. apply Hent in He as (?&_&?). auto. }
    destruct (observes_fetch active d (map fst l) (py_dict (map (λ i, (id i, i)) keyword_hits))) as (m&Hobs&Hm&Hsub&Hall).
    { by eapply resolves_keyword. }
    unfold bind. simpl.
    match goal with |- context [fetch_items _ _ ?s3] => destruct (Hobs s3) as (t3&Ht3&Hsh3) end.
    { unfold shows, alone in *. simpl in *. by case_match. }
    rewrite Ht3. destruct (fuse_fusion d keyword_hits l m (ids_of pins) ip ts pid (k + off)) as (hits&->&Hf); try done.
    { intros mid [Hin|Hin]; [|apply Hall; [done|]; destruct (Hsem _ Hin) as (_&r&Hr&_); by exists r].
      assert (mid ∈ dom (py_dict (map (λ i, (id i, i)) keyword_hits))) as [i Hi]%elem_of_dom.
      { rewrite py_dict_dom, elem_of_list_to_set, map_map. done. }
      exists i. by eapply lookup_weaken. }
    { lia. }
    eexists _, hits. rewrite Hsl. rewrite Z2Nat.inj_add by lia. rewrite page_cut. split; [done|]. split; [apply Hsh3|].
    split; [|left; by exists v, sn, l]. rewrite map_app, wrap_pinned_items.
    destruct Hf as (_&Hrows&Hkeys&_). apply rows_of_app; [done..|]. intros i (h&->&Hh)%list_elem_of_fmap.
    destruct (proj1 (Hkeys (id (sm_item h)))) as [[Hin|Hin] _]; [by apply (list_elem_of_fmap_2 (λ h, id (sm_item h)))| |by apply Hsem].
    apply list_elem_of_fmap in Hin as (j&Hj&Hin). rewrite Hj. by apply Hkx.
  - assert (¬ steady q (sv_port s)) as Hns.
    { intros Hst. eapply (steady_answers active d q pid ts (ids_of pins) window (with_store t1 s)); [done..|lia|exact Hst|exact Hrun]. }
    destruct Hsh2 as (_&_&Hview). simpl in Hview.
    assert (rows_of d (visible ip pid ts) (map sm_item (map (λ i, mkScored i ch_pinned None None None) pins ++ wrap_keyword_ranked keyword_hits 0))) as Hrows.
    { rewrite map_app, wrap_pinned_items, wrap_items. by apply rows_of_app. }
    destruct e; simpl; try (destruct (is_content_too_long _); simpl);
      unfold ret; rewrite Hsl; eexists _, (wrap_keyword_ranked keyword_hits 0); (split; [reflexivity|]); (split; [exact Hview|]);
      (split; [exact Hrows|]); right; (split; [done|]); (split; [apply wrap_items|apply wrap_hit]).
Qed.
End service.
