(* ===== verification/SearchWitness.v ===== *)
(** * Search on a concrete store, provider and ranking library

    An implementation of the ranking interface (dot products, a total order on
    floats with NaN last, the best [k] of a stable sort) with its laws, a set
    order, and each property of search applied to the sample store. *)

From S2P Require Import Prelude PyStr Sha256 Domain PyNum Sql Store Transactions Port StoreProps SearchProps.
From S2P Require Import Embedding EmbeddingProps Backfill Search Retrieval.
Local Open Scope Z_scope.

(** ** A total order on floats *)
Definition sf_key (x : spec_float) : Z * Z * Z :=
  match x with
  | S754_nan => (-3, 0, 0)
  | S754_infinity true => (-2, 0, 0)
  | S754_finite true m e => (-1, - e, - Zpos m)
  | S754_zero _ => (0, 0, 0)
  | S754_finite false m e => (1, e, Zpos m)
  | S754_infinity false => (2, 0, 0)
  end.

Definition key_leb (a b : Z * Z * Z) : bool :=
  (a.1.1 <? b.1.1) || (a.1.1 =? b.1.1) &&
  ((a.1.2 <? b.1.2) || (a.1.2 =? b.1.2) && (a.2 <=? b.2)).

Lemma key_leb_total a b : key_leb a b = false → key_leb b a = true.
Proof. unfold key_leb. destruct a as [[a1 a2] a3], b as [[b1 b2] b3]. simpl. lia. Qed.
Lemma key_leb_trans a b c : key_leb a b = true → key_leb b c = true → key_leb a c = true.
Proof. unfold key_leb. destruct a as [[a1 a2] a3], b as [[b1 b2] b3], c as [[c1 c2] c3]. simpl. lia. Qed.

Lemma key_leb_SFltb x y : key_leb (sf_key y) (sf_key x) = true → SFltb x y = false.
Proof.
  unfold key_leb. intros H.
  destruct x as [[]|[]| |[] m1 e1], y as [[]|[]| |[] m2 e2]; try done; cbn [sf_key fst snd] in H; try lia;
    unfold SFltb, SFcompare; destruct (Z.compare_spec e1 e2) as [->|?|?]; try done; try lia;
    change (Pos.compare_cont Eq) with Pos.compare; destruct (Pos.compare_spec m1 m2) as [->|?|?]; try done; exfalso; lia.
Qed.

(** ** The ranking library *)
Definition dot (v w : list spec_float) : spec_float :=
  foldr fadd (f64_of_Z 0) (zip_with (SFmul 53 1024) v w).

Definition best_first (scores : list spec_float) : list nat :=
  sort_by (λ i j, key_leb (sf_key (default S754_nan (scores !! j))) (sf_key (default S754_nan (scores !! i))))
    (seq 0 (length scores)).

#[local] Instance toy_numpy : Numpy := {|
  np_scores m q := map (dot q) m;
  np_top scores k := take (Z.to_nat k) (best_first scores) |}.

Lemma best_first_perm scores : best_first scores ≡ₚ seq 0 (length scores).
Proof. apply sort_by_perm. Qed.

Lemma best_first_sorted scores : StronglySorted (λ i j,
  key_leb (sf_key (default S754_nan (scores !! j))) (sf_key (default S754_nan (scores !! i))) = true)
  (best_first scores).
Proof.
  apply sort_by_strongly_sorted; [intros; by apply key_leb_total|]. intros x y z H1 H2.
  by eapply key_leb_trans.
Qed.

#[local] Instance toy_numpy_laws : NumpyLaws.
Proof.
  split; unfold np_scores, np_top; simpl.
  - intros. apply length_map.
  - intros scores k. eapply sublist_NoDup; [|apply sublist_take]. rewrite best_first_perm. apply NoDup_seq.
  - intros scores k i (j&Hj&_)%elem_of_take. apply list_elem_of_lookup_2 in Hj.
    rewrite best_first_perm, elem_of_seq in Hj. lia.
  - intros scores k Hk. rewrite length_take, best_first_perm, length_seq. lia.
  - intros scores k. apply Sorted_take. eapply Forall2_Sorted with (P := eq);
      [|by apply Forall_Forall2_diag, Forall_true|apply StronglySorted_Sorted, best_first_sorted].
    intros i ? j ? <- <- H x y Hx Hy. rewrite Hx, Hy in H. by apply key_leb_SFltb.
  - intros scores k i j x y _ Hi Hj Hx Hy. apply key_leb_SFltb.
    assert (j ∈ best_first scores) as Hj'.
    { rewrite best_first_perm, elem_of_seq. apply lookup_lt_Some in Hy. lia. }
    pose proof (best_first_sorted scores) as Hs. rewrite <- (take_drop (Z.to_nat k) (best_first scores)) in Hs, Hj'.
    apply elem_of_app in Hj' as [|Hj']; [done|].
    pose proof (StronglySorted_app_1_elem_of _ _ _ i j Hs Hi Hj') as H. cbv beta in H. by rewrite Hx, Hy in H.
Qed.

#[local] Instance element_order : SetOrder := {| set_order := elements; set_order_perm x := reflexivity _ |}.
#[local] Existing Instance toy_port.
#[local] Existing Instance toy_laws.
#[local] Existing Instance substring_fts.

(** ** The properties on the sample store *)
Lemma keyword_pages_tile_witness :
  ∃ stream t, NoDup (map id (map sm_item stream)) ∧
    execute_search clock true "note" 2 (Some "p"%string) true None 1 keyword false 10 lone_service =
      (t, Ok (take 2 (drop 1 stream))).
Proof.
  destruct (@keyword_pages_tile store nat _ _ toy_port _ _ clock true "note" (Some "p"%string) true None false 10
    lone_service alone_lone) as (stream&[_ Hnd]&Hpages).
  destruct (Hpages 2 1 ltac:(lia) ltac:(lia)) as (t&Ht).
  exists stream, (with_store t lone_service). split; [exact Hnd|exact Ht].
Defined.

Lemma hybrid_degrades_witness :
  search_failure_count (execute_search clock true "boom" 2 None true None 0 hybrid false 10 lone_service).1 = 1.
Proof.
  pose proof (@hybrid_degrades store nat _ _ toy_port _ _ clock "boom" 2 None true None 0 false 10
    (ProviderError TIMEOUT) lone_service alone_lone ltac:(lia) ltac:(lia) ltac:(vm_compute; reflexivity)) as H.
  destruct (execute_search clock true "boom" 2 None true None 0 hybrid false 10 lone_service) as [s1 r1].
  destruct (execute_search clock true "boom" 2 None true None 0 keyword false 10 lone_service) as [s2 r2].
  destruct H as (_&_&_&H). exact (proj1 H).
Defined.

(** The sample store with every memory embedded. *)
Definition embedded_service : svc store nat := (generate_missing clock None false lone_service).1.

Lemma lone_ok : svc_ok lone_service.
Proof. split; [exact ready_sample|]. split; [exact wf_sample|constructor]. Qed.

Lemma embedded_ok : svc_ok embedded_service.
Proof.
  unfold embedded_service.
  pose proof (@attributed_missing store nat _ _ toy_port toy_laws clock None false lone_service
    (conj lone_ok (conj I attributed_sample))) as [[H _] _]. exact H.
Qed.

Lemma embedded_alone : alone embedded_service.
Proof. split; [exact (proj1 embedded_ok)|vm_compute; reflexivity]. Qed.

Lemma semantic_search_sound_witness :
  ∃ l, (semantic_search "query" (Some "p"%string) None {["m2"%string]} 5 embedded_service).2 = Ok l ∧
    map fst l = ["m3"; "m1"]%string ∧ NoDup (map fst l).
Proof.
  pose proof (@semantic_search_sound store nat _ _ toy_port _ _ "query" (Some "p"%string) None {["m2"%string]} 5
    embedded_service embedded_alone (proj1 (proj2 embedded_ok)) ltac:(lia)) as H.
  destruct (semantic_search _ _ _ _ _ _) as [s' r] eqn:Hr. cbn [snd] in H |- *.
  assert (Hl : match r with Ok l => map fst l = ["m3"; "m1"]%string | Raise _ => False end).
  { apply (f_equal snd) in Hr. cbn [snd] in Hr. rewrite <- Hr. vm_compute. reflexivity. }
  destruct r as [l|e]; [|destruct Hl]. exists l. split; [reflexivity|]. split; [exact Hl|].
  destruct H as (v&sn&entries&_&_&Hb). exact (proj1 (proj2 Hb)).
Defined.

Lemma hybrid_search_sound_witness :
  ∃ s' l, execute_search clock true "note" 2 (Some "p"%string) true None 0 hybrid false 1 embedded_service =
    (s', Ok l) ∧ map (id ∘ sm_item) l = ["m2"; "m3"]%string ∧ map sm_channel l = [ch_pinned; ch_hybrid].
Proof.
  destruct (@hybrid_search_sound store nat _ _ toy_port _ _ clock _ "note" 2 (Some "p"%string) true None 0 false 1
    embedded_service embedded_alone (proj1 (proj2 embedded_ok)) ltac:(lia) ltac:(lia))
    as (_&_&s'&ranked&Hrun&_). cbv zeta in Hrun.
  match type of Hrun with _ = (_, Ok ?l) => set (L := l) in Hrun; clearbody L end.
  exists s', L. split; [exact Hrun|].
  apply (f_equal (λ x, match x.2 with Ok l => (map (id ∘ sm_item) l, map sm_channel l) | Raise _ => ([], []) end)) in Hrun.
  cbn [snd] in Hrun. assert (Hl : match (execute_search clock true "note" 2 (Some "p"%string) true None 0 hybrid false 1 embedded_service).2
    with Ok l => (map (id ∘ sm_item) l, map sm_channel l) | Raise _ => ([], []) end = (["m2"; "m3"], [ch_pinned; ch_hybrid])%string)
    by (vm_compute; reflexivity).
  rewrite Hl in Hrun. split; [exact (f_equal fst (eq_sym Hrun))|exact (f_equal snd (eq_sym Hrun))].
Defined.
