(* ===== verification/UseCases.v ===== *)
(** * Use cases

    [core/application/use_cases]: the operations the REST, MCP and command-line
    surfaces share, as clients of the storage port.  Those that also embed run
    on the service state, so that each store call is one step and other threads
    may come in between; [configured] says whether an embedding service is
    present.  Default fields the surfaces leave to the dataclass (fresh ids and
    timestamps) are arguments; log lines are left out. *)

From S2P Require Import Prelude PyStr PyText Sha256 Domain Sql Store Transactions Port Embedding.
Local Open Scope Z_scope.
Local Open Scope prog_scope.

(** The shared check of a memory's text. *)
Definition blank (content : string) : bool := bool_decide (py_strip content = ""%string).
Definition too_long (content : string) : bool := MAX_CONTENT_CHARS <? str_len content.
Definition invalid : exn := ValidationError INVALID_ARGUMENT.

Definition with_times (created : datetime) (updated : option datetime) (i : MemoryItem) : MemoryItem :=
  mkMemoryItem (id i) (content i) (tags i) created (pinned i) (project_id i) (source i) updated.

(** What previews and confirmations report. *)
Inductive DeleteMemoryResult :=
| memory_preview (memory : MemoryItem)
| memory_deleted (memory_id : string).
Inductive DeleteProjectResult :=
| project_preview (p_id p_name : string) (memory_count : Z)
| project_deleted (p_id p_name : string) (deleted_memories : Z).
Inductive DeleteProjectsResult :=
| projects_preview (total_requested : Z) (found : list (string * string * Z)) (missing : list string)
    (total_memory_count : Z)
| projects_deleted (total_requested : Z) (deleted : list (string * string * Z)) (missing : list string)
    (total_deleted_memories : Z).

(** [dict.fromkeys(l)]: the first occurrence of each. *)
Fixpoint dict_fromkeys_go (seen : gset string) (l : list string) : list string :=
  match l with
  | [] => []
  | x :: l' =>
      if bool_decide (x ∈ seen) then dict_fromkeys_go seen l'
      else x :: dict_fromkeys_go ({[x]} ∪ seen) l'
  end.
Definition dict_fromkeys (l : list string) : list string := dict_fromkeys_go ∅ l.

Definition sum_Z (l : list Z) : Z := foldr Z.add 0 l.

(** [key=lambda kv: (-kv[1], kv[0])] *)
Definition tag_leb (x y : string * Z) : bool := (y.2 <? x.2) || (y.2 =? x.2) && str_leb x.1 y.1.

Record Stats := mkStats {
  stats_total : Z;
  stats_pinned : Z;
  by_tag : list (string * Z);
  by_source : list (string * Z);
  other_tags : option Z;
}.

Definition source_or_unknown (s : string) : string := if bool_decide (s = ""%string) then "unknown" else s.

(** ** Clients of the store *)
Section store_clients.
Context {S : Type} `{HF : FTS5} `{!MemoryStorePort S}.
Notation St A := (SE S exn A).

(** [create_project.py:9-12 execute] *)
Definition create_project (new_id : string) (now : datetime) (name : string)
    (metadata : option (list (string * json))) : St Project :=
  let project := mkProject new_id name (default [] metadata) now in
  st_add_project project ;;
  ret project.

(** [use_cases/list_projects.py:7-8 execute] *)
Definition execute_list_projects (name_contains : option string) : St (list Project) :=
  st_list_projects name_contains.

(** [update_project.py:10-28 execute] *)
Definition execute_update_project (project_id : string) (name : option string)
    (metadata : option (list (string * json))) : St Project :=
  match name, metadata with
  | None, None => raise invalid
  | _, _ => st_update_project project_id name metadata
  end.

(** [show_memory.py:9-13 execute] *)
Definition show_memory (memory_id : string) : St MemoryItem :=
  let* memory := st_get_memory memory_id in
  match memory with
  | None => raise (NotFoundError MEMORY_NOT_FOUND)
  | Some memory => ret memory
  end.

(** [pin_memory.py:8-12 execute] *)
Definition pin_memory (memory_id : string) (pinned : bool) : St unit :=
  let* memory := st_get_memory memory_id in
  match memory with
  | None => raise (NotFoundError MEMORY_NOT_FOUND)
  | Some _ => st_set_pinned memory_id pinned
  end.

(** [use_cases/list_memory.py:8-28 execute] *)
Definition execute_list_memory (limit : option Z) (pinned_only : bool) (offset : Z)
    (project_id : option string) (tags exclude_tags : option (list string)) (order_by : OrderBy)
    : St (list MemoryItem) :=
  match order_by with
  | order_by_other _ => raise invalid
  | _ => st_list_memory limit pinned_only offset project_id tags exclude_tags order_by
  end.

(** [use_cases/delete_memory.py:10-60 execute] *)
Definition execute_delete_memory (memory_id : string) (confirm : bool) : St DeleteMemoryResult :=
  if negb confirm then
    let* memory := st_get_memory memory_id in
    match memory with
    | None => raise (NotFoundError MEMORY_NOT_FOUND)
    | Some memory => ret (memory_preview memory)
    end
  else
    st_delete_memory memory_id ;;
    ret (memory_deleted memory_id).

(** [use_cases/delete_project.py:11-56 execute] *)
Definition execute_delete_project (project_id : string) (confirm : bool) : St DeleteProjectResult :=
  let* project := st_get_project project_id in
  match project with
  | None => raise (NotFoundError PROJECT_NOT_FOUND)
  | Some project =>
      if negb confirm then
        let* memory_count := st_count_memory (Some project_id) in
        ret (project_preview (project_key project) (name project) memory_count)
      else
        let* deleted := st_delete_project project_id in
        ret (project_deleted (project_key project) (name project) (Z.of_nat deleted))
  end.

Fixpoint resolve_projects (ids : list string) : St (list Project * list string) :=
  match ids with
  | [] => ret ([], [])
  | k :: ids' =>
      let* project := st_get_project k in
      let* (found, missing) := resolve_projects ids' in
      ret match project with None => (found, k :: missing) | Some p => (p :: found, missing) end
  end.

(** [delete_projects.py:35-81 execute] *)
Definition execute_delete_projects (project_ids : list string) (confirm : bool) : St DeleteProjectsResult :=
  let ordered := dict_fromkeys project_ids in
  let* (found, missing) := resolve_projects ordered in
  let total := Z.of_nat (length ordered) in
  let report := λ counts : list Z,
    zip_with (λ p c, (project_key p, name p, c)) found counts in
  if negb confirm then
    let* counts := map_m (λ p, st_count_memory (Some (project_key p))) found in
    ret (projects_preview total (report counts) missing (sum_Z counts))
  else
    let* deleted_counts := st_transaction (map_m (λ p,
      let* n := st_delete_project (project_key p) in ret (Z.of_nat n)) found) in
    ret (projects_deleted total (report deleted_counts) missing (sum_Z deleted_counts)).

(** [stats_memory.py:34-69 execute] *)
Definition stats_memory (project_id : option string) (top_tags : Z) : St Stats :=
  let* total := st_count_memory project_id in
  let* items := st_list_memory None false 0 project_id None None pinned_first in
  let ranked := sort_by tag_leb (count_all (concat (map tags items))) in
  ret (mkStats total (Z.of_nat (length (filter (λ i, pinned i = true) items)))
    (py_slice 0 top_tags ranked)
    (count_all (map (λ i, source_or_unknown (source i)) items))
    (if top_tags <? Z.of_nat (length ranked) then Some (Z.of_nat (length ranked) - top_tags) else None)).
End store_clients.

(** ** Clients of the store and of the embedding service *)
Section service_clients.
Context {S E : Type} `{HF : FTS5} `{!MemoryStorePort S} `{!EmbeddingPort E}.
Context (utc_now : nat → Z).
Notation Sv A := (SE (svc S E) exn A).

(** Embed if there is a service; what goes wrong is logged and dropped. *)
Definition try_embed (configured : bool) (memory_id content : string) (force : bool) : Sv unit :=
  if configured then
    try_catch (generate_for_memory utc_now memory_id content force) (λ e,
      match e with RevisionUnknownError => ret tt | _ => ret tt end)
  else ret tt.

(** [use_cases/add_memory.py:18-51 execute] *)
Definition execute_add_memory (configured : bool) (item : MemoryItem) : Sv MemoryItem :=
  match project_id item with
  | None => raise invalid
  | Some _ =>
      if blank (content item) then raise invalid
      else if too_long (content item) then raise invalid
      else
        let* created := lift_result (require_utc (created_at item)) in
        let* updated := match updated_at item with
          | Some u => let* u' := lift_result (require_utc u) in ret (Some u')
          | None => ret None
          end in
        let item := with_times created updated item in
        on_store (st_add_memory item) ;;
        try_embed configured (id item) (content item) false ;;
        ret item
  end.

(** [use_cases/update_memory.py:19-63 execute] The store's [None] (the row
    vanished between the update and the read) reaches [updated.content]. *)
Definition execute_update_memory (configured : bool) (memory_id : string) (new_content : option string)
    (tags : option (list string)) : Sv (option MemoryItem) :=
  match new_content, tags with
  | None, None => raise invalid
  | _, _ =>
      if match new_content with Some c => blank c | None => false end then raise invalid
      else if match new_content with Some c => too_long c | None => false end then raise invalid
      else
        let* now := read_clock utc_now in
        let* updated := on_store (st_update_memory now memory_id new_content tags) in
        match new_content with
        | None => ret updated
        | Some _ =>
            on_store (st_delete_embedding memory_id) ;;
            match updated with
            | Some m => try_embed configured memory_id (content m) true
            | None => ret tt
            end ;;
            ret updated
        end
  end.

(** The payload of [memory_embed]. *)
Record EmbedOutcome := mkEmbedOutcome {
  eo_status : string;
  eo_counts : option (Z * Z * Z);
  eo_coverage : option EmbeddingStatus;
}.

(** [embed_memory.py:49-90 execute] *)
Definition execute_embed (configured force : bool) : Sv EmbedOutcome :=
  if negb configured then ret (mkEmbedOutcome "not_configured" None None)
  else
    let* result := try_catch
      (let* r := generate_missing utc_now None force in ret (Some r))
      (λ e, match e with RevisionUnknownError => ret None | _ => raise e end) in
    let* status := embedding_status in
    ret match result with
    | None => mkEmbedOutcome "failed" (Some (0, 0, 0)) (Some status)
    | Some r =>
        if skipped r then mkEmbedOutcome "already_running" None (Some status)
        else mkEmbedOutcome (outcome r) (Some (generated r, failed r, tombstoned r)) (Some status)
    end.
End service_clients.
