(* ===== verification/UseCaseProps.v ===== *)
(** * Properties of the use cases

    Saving and editing a memory with embeddings on the side, deleting projects
    in a batch, and the statistics. *)

From S2P Require Import Prelude PyStr PyText Sha256 Domain Sql Store Transactions Port StoreProps SearchProps Embedding EmbeddingProps Backfill.
From S2P Require Import UseCases.
Local Open Scope Z_scope.
Local Open Scope prog_scope.

(** ** Embedding on the side *)
Section service.
Context {S E : Type} `{HF : FTS5} `{!MemoryStorePort S} `{!EmbeddingPort E}.
Context (utc_now : nat → Z).
Implicit Types (s : svc S E) (d : db).
#[local] Arguments on_store : simpl never.
#[local] Arguments try_embed : simpl never.
Notation Sv A := (SE (svc S E) exn A).

(** A fact about the database, with nobody else around. *)
Definition alone_with (P : db → Prop) s : Prop := alone s ∧ P (st_view (sv_store s)).

Lemma preserves_on_store {A} (P : db → Prop) (m : SE S exn A) f :
  st_runs m f → (∀ b d, P d → P (f b d).1) → preserves (alone_with P) (on_store m : Sv A).
Proof.
  intros Hm HP s [Ha Hp]. destruct (on_store_alone m f s Ha Hm) as (t&->&Hok&_&Hv).
  split; [by split; [|apply Ha]|]. simpl. rewrite Hv. by apply HP.
Qed.

Lemma preserves_on_port {A} (P : db → Prop) (m : SE E exn A) : preserves (alone_with P) (on_port m : Sv A).
Proof. intros s [[Hok Ho] Hp]. rewrite on_port_alone by done. done. Qed.

Lemma preserves_save (P : db → Prop) k c v rv st :
  (∀ now d, P d → P (Spec.save_embedding now k v ep_model_name ep_provider_name (hash_content c) rv
    ep_settings_fingerprint st d).1) →
  preserves (alone_with P) (save utc_now k c v rv st : Sv bool).
Proof.
  intros HP. apply preserves_bind; [by intros s|]. intros now.
  eapply preserves_on_store; [apply law_save_embedding|]. intros b d. apply HP.
Qed.

(** Generating an embedding keeps what saving one keeps. *)
Lemma preserves_generate (P : db → Prop) k c force :
  (∀ now v rv st d, P d → P (Spec.save_embedding now k v ep_model_name ep_provider_name (hash_content c) rv
    ep_settings_fingerprint st d).1) →
  preserves (alone_with P) (generate_for_memory utc_now k c force : Sv unit).
Proof.
  intros HP. assert (∀ v rv st, preserves (alone_with P) (save utc_now k c v rv st : Sv bool)) as Hsave
    by (intros v rv st; apply preserves_save; intros now d; apply HP).
  unfold generate_for_memory. apply preserves_bind; [by intros s|]. intros sn.
  apply preserves_bind.
  { destruct (known sn); [apply preserves_ret|]. intros s [[Hok Ho] Hp]. unfold refresh_revision, interfere.
    simpl. rewrite Ho. done. }
  intros sn'. destruct (negb (known sn')); [apply preserves_raise|]. apply preserves_bind.
  { destruct force; [apply preserves_ret|]. apply preserves_bind; [|intros; apply preserves_ret].
    eapply preserves_on_store; [apply law_get_identity|done]. }
  intros cur. destruct (cur : bool); [apply preserves_ret|]. apply preserves_bind.
  - apply preserves_try.
    + apply preserves_bind; [apply preserves_on_port|]. intros; apply preserves_ret.
    + intros e. destruct (is_content_too_long e).
      * apply preserves_bind; [apply Hsave|]. intros; apply preserves_ret.
      * apply preserves_bind; [|intros; apply preserves_raise].
        apply preserves_bind; [by intros s|]. intros; by intros s.
  - intros [v|]; [|apply preserves_ret]. apply preserves_bind; [apply Hsave|]. intros _ s. done.
Qed.

Lemma preserves_try_embed (P : db → Prop) cfg k c force :
  (∀ now v rv st d, P d → P (Spec.save_embedding now k v ep_model_name ep_provider_name (hash_content c) rv
    ep_settings_fingerprint st d).1) →
  preserves (alone_with P) (try_embed utc_now cfg k c force : Sv unit).
Proof.
  intros HP. unfold try_embed. destruct cfg; [|apply preserves_ret].
  apply preserves_try; [by apply preserves_generate|]. intros e. destruct e; apply preserves_ret.
Qed.

(** The side embedding never fails. *)
Lemma try_embed_ok cfg k c force s : (try_embed utc_now cfg k c force s).2 = Ok tt.
Proof.
  unfold try_embed, try_catch. destruct cfg; [|done].
  destruct (generate_for_memory _ _ _ _ _) as [s' [[]|e]]; [done|]. by destruct e.
Qed.

Lemma save_embedding_frame now k v m p h rv f st d :
  memories (Spec.save_embedding now k v m p h rv f st d).1 = memories d ∧
  projects (Spec.save_embedding now k v m p h rv f st d).1 = projects d ∧
  ∀ k', k' ≠ k → embeddings (Spec.save_embedding now k v m p h rv f st d).1 !! k' = embeddings d !! k'.
Proof.
  unfold Spec.save_embedding. repeat case_match; simpl; do 2 (split; [done|]); intros k' Hk; try done.
  by rewrite lookup_insert_ne.
Qed.

(** An acceptable new memory: it names a project, its text is neither blank
    nor too long, and its timestamps are aware and in range. *)
Definition acceptable (item : MemoryItem) : Prop :=
  project_id item ≠ None ∧ blank (content item) = false ∧ too_long (content item) = false ∧
  ∃ row, Spec.item_row item = Ok row.

Lemma require_utc_idem t t' : require_utc t = Ok t' → iso_column t' = iso_column t ∧ t' = utc (wall t').
Proof.
  unfold iso_column, require_utc. destruct (utcoff t) as [off|]; [|done]. case_bool_decide as Hr; [|done].
  intros [= <-]. simpl. rewrite Z.sub_0_r. by rewrite bool_decide_eq_true_2.
Qed.

Lemma require_utc_column t : iso_column t = result_bind (require_utc t) (λ x, Ok (wall x)).
Proof. done. Qed.

Lemma item_row_project item row : Spec.item_row item = Ok row → r_project_id row = project_id item.
Proof.
  unfold Spec.item_row. destruct (iso_column (created_at item)); [|done]. simpl.
  destruct (updated_at item) as [u|]; [destruct (iso_column u)|]; simpl; naive_solver.
Qed.

(** The checks of the use case, then the insertion of the store. *)
Lemma add_memory_checked cfg item s :
  (acceptable item ∧ ∃ row saved,
     Spec.item_row item = Ok row ∧ Spec.item_row saved = Ok row ∧
     saved = row_to_memory_item (id item, row) ∧
     execute_add_memory utc_now cfg item s =
       (on_store (st_add_memory saved) ;; try_embed utc_now cfg (id saved) (content saved) false ;; ret saved) s) ∨
  (¬ acceptable item ∧ execute_add_memory utc_now cfg item s = (s, Raise invalid)).
Proof.
  unfold execute_add_memory, acceptable. destruct (project_id item) as [p|] eqn:Hp; [|right; split; [naive_solver|done]].
  destruct (blank (content item)); [right; split; [naive_solver|done]|].
  destruct (too_long (content item)); [right; split; [naive_solver|done]|].
  unfold Spec.item_row. rewrite require_utc_column.
  destruct (require_utc (created_at item)) as [c|e] eqn:Hc; simpl;
    [|right; split; [naive_solver|]; unfold require_utc in Hc; repeat case_match; naive_solver].
  destruct (require_utc_idem _ _ Hc) as [Hci Hcu].
  unfold bind at 1. simpl.
  destruct (updated_at item) as [u|] eqn:Hu; simpl; [rewrite require_utc_column; unfold bind at 1; simpl;
    destruct (require_utc u) as [u'|e] eqn:Hu'; simpl;
    [|right; split; [naive_solver|]; unfold require_utc in Hu'; repeat case_match; naive_solver];
    destruct (require_utc_idem _ _ Hu') as [Hui Huu]|].
  all: left; split; [naive_solver|].
  - eexists (MemoryRow _ _ _ _ _ _ _), (with_times c (Some u') item). split; [done|].
    simpl. rewrite Hci, require_utc_column, Hc. simpl. rewrite Hui, require_utc_column, Hu'. simpl.
    split; [done|]. split; [|done]. unfold row_to_memory_item, with_times. simpl. by rewrite <- Hcu, <- Huu.
  - eexists (MemoryRow _ _ _ _ _ _ _), (with_times c None item). split; [done|].
    simpl. rewrite Hci, require_utc_column, Hc. simpl.
    split; [done|]. split; [|done]. unfold row_to_memory_item, with_times. simpl. by rewrite <- Hcu.
Qed.

(** Saving a memory does not depend on the embedding provider.  With no
    other thread around, a new memory is saved exactly when it is acceptable,
    its project exists and its id is free; the result is the stored row read
    back, and the only other effect can be that memory's own vector.  Otherwise
    the call raises and nothing is stored, embedded or asked of the provider. *)
Theorem add_memory_outcomes (cfg : bool) (item : MemoryItem) s :
  alone s →
  let d := st_view (sv_store s) in
  let '(s', r) := execute_add_memory utc_now cfg item s in
  let d' := st_view (sv_store s') in
  match r with
  | Ok saved => ∃ row, acceptable item ∧ memories d !! id item = None ∧ fk_project_ok (project_id item) d = true ∧
      Spec.item_row item = Ok row ∧ saved = row_to_memory_item (id item, row) ∧
      memories d' = <[id item := row]> (memories d) ∧ projects d' = projects d ∧
      (∀ k, k ≠ id item → embeddings d' !! k = embeddings d !! k)
  | Raise e => d' = d ∧ sv_port s' = sv_port s ∧
      (¬ acceptable item ∧ e = invalid ∨
       is_Some (memories d !! id item) ∧ e = unique_failed "memory_items.id" ∨
       fk_project_ok (project_id item) d = false ∧ e = NotFoundError PROJECT_NOT_FOUND)
  end.
Proof.
  intros Ha d. destruct (add_memory_checked cfg item s) as [(Hacc&row&saved&Hrow&Hrow'&->&->)|(Hacc&->)];
    [|simpl; auto].
  destruct (on_store_alone _ _ s Ha (law_add_memory (row_to_memory_item (id item, row)))) as (t&Ht&Hok&_&Hv).
  unfold bind at 1. rewrite Ht. clear Ht. fold d in Hv |- *. unfold Spec.add_memory in *. rewrite Hrow' in *.
  simpl in *. rewrite (item_row_project _ _ Hrow) in *. case_bool_decide as Hid; simpl in *; [auto 6|].
  destruct (fk_project_ok (project_id item) d) eqn:Hfk; simpl in *; [|auto 7].
  set (P := λ d', memories d' = <[id item := row]> (memories d) ∧ projects d' = projects d ∧
    ∀ k, k ≠ id item → embeddings d' !! k = embeddings d !! k).
  destruct (preserves_try_embed P cfg (id item) (r_content row) false) with (s := with_store t s) as [_ HP].
  { intros now v rv st d0 (Hm&Hp&He). destruct (save_embedding_frame now (id item) v ep_model_name
      ep_provider_name (hash_content (r_content row)) rv ep_settings_fingerprint st d0) as (Hm'&Hp'&He').
    split; [by rewrite Hm'|]. split; [by rewrite Hp'|]. intros k Hk. rewrite He' by done. by apply He. }
  { split; [by split; [|apply Ha]|]. unfold P. simpl. by rewrite Hv. }
  unfold bind. pose proof (try_embed_ok cfg (id item) (r_content row) false (with_store t s)) as Hte.
  destruct (try_embed _ _ _ _ _ _) as [s' r']. simpl in *. subst r'. simpl.
  exists row. destruct HP as (?&?&?). split; [done|]. split; [by apply eq_None_not_Some|]. done.
Qed.

Lemma spec_update_memory now k c ts d :
  Spec.update_memory now k c ts d =
  match memories d !! k with
  | None => (d, Raise (NotFoundError MEMORY_NOT_FOUND))
  | Some row => ((update_memory_row k (with_update now c ts) d).1,
      Ok (Some (row_to_memory_item (k, with_update now c ts row))))
  end.
Proof. unfold Spec.update_memory, Spec.update_row, bind, ret. by destruct (memories d !! k). Qed.

(** Editing a memory never leaves a vector of its old text.  With no other
    thread around, an update either raises, changing nothing, or updates that
    row alone; and when it gives a new text, whatever the provider then does,
    the memory's vector is gone or was made for the new text, while every other
    memory keeps its own.  An update of the tags alone keeps all vectors. *)
Theorem update_memory_outcomes (cfg : bool) (k : string) (c : option string) (ts : option (list string)) s :
  alone s →
  let d := st_view (sv_store s) in
  let '(s', r) := execute_update_memory utc_now cfg k c ts s in
  let d' := st_view (sv_store s') in
  match r with
  | Ok updated => ∃ row, memories d !! k = Some row ∧
      let row' := with_update (utc_now (sv_ticks s)) c ts row in
      updated = Some (row_to_memory_item (k, row')) ∧
      memories d' = <[k := row']> (memories d) ∧ projects d' = projects d ∧
      (∀ k', k' ≠ k → embeddings d' !! k' = embeddings d !! k') ∧
      match c with
      | None => embeddings d' = embeddings d
      | Some text => blank text = false ∧ too_long text = false ∧
          ∀ e, embeddings d' !! k = Some e → e_content_hash e = hash_content text
      end
  | Raise e => d' = d ∧ sv_port s' = sv_port s ∧
      (e = NotFoundError MEMORY_NOT_FOUND ∧ memories d !! k = None ∨
       e = invalid ∧ (c = None ∧ ts = None ∨ ∃ text, c = Some text ∧ (blank text || too_long text) = true))
  end.
Proof.
  intros Ha d. unfold execute_update_memory.
  assert (∀ X Y : Sv (option MemoryItem), match c, ts with None, None => X | _, _ => Y end =
    if bool_decide (c = None ∧ ts = None) then X else Y) as -> by (by destruct c, ts).
  case_bool_decide as Hnone; [simpl; auto 6|].
  destruct (match c with Some c => blank c | None => false end) eqn:Hb.
  { destruct c as [c|]; [|done]. simpl. do 2 (split; [done|]). right. split; [done|]. right. exists c. by rewrite Hb. }
  destruct (match c with Some c => too_long c | None => false end) eqn:Hl.
  { destruct c as [c|]; [|done]. simpl. do 2 (split; [done|]). right. split; [done|]. right. exists c.
    by rewrite Hl, orb_true_r. }
  unfold bind at 1, read_clock. unfold bind at 1.
  destruct (on_store_alone _ _ (tick s) Ha (law_update_memory (utc_now (sv_ticks s)) k c ts)) as (t&->&Hok&_&Hv).
  cbn [sv_store tick] in Hv |- *. fold d in Hv |- *. rewrite spec_update_memory in Hv |- *.
  destruct (memories d !! k) as [row|] eqn:Hk; cbn [fst snd] in Hv |- *; [|auto].
  unfold update_memory_row in Hv. rewrite Hk in Hv. cbn [fst] in Hv.
  set (row' := with_update (utc_now (sv_ticks s)) c ts row) in *.
  destruct c as [text|]; [|exists row; simpl; rewrite Hv; simpl; auto 7].
  set (s1 := with_store t (tick s)). assert (alone s1) as Ha1 by (split; [done|apply Ha]).
  unfold bind at 1. destruct (on_store_alone _ _ s1 Ha1 (law_delete_embedding k)) as (t2&->&Hok2&_&Hv2).
  simpl in Hv2. rewrite Hv in Hv2.
  set (P := λ d', memories d' = <[k := row']> (memories d) ∧ projects d' = projects d ∧
    (∀ k', k' ≠ k → embeddings d' !! k' = embeddings d !! k') ∧
    ∀ e, embeddings d' !! k = Some e → e_content_hash e = hash_content text).
  destruct (preserves_try_embed P cfg k text true) with (s := with_store t2 s1) as [_ HP].
  { intros now v rv st d0 (Hm&Hp&He&Hh). destruct (save_embedding_frame now k v ep_model_name
      ep_provider_name (hash_content text) rv ep_settings_fingerprint st d0) as (Hm'&Hp'&He').
    split; [by rewrite Hm'|]. split; [by rewrite Hp'|]. split; [intros k' Hk'; rewrite He' by done; by apply He|].
    intros e. unfold Spec.save_embedding. repeat case_match; simpl; try by auto.
    rewrite lookup_insert_eq. by intros [= <-]. }
  { split; [by split; [|apply Ha]|]. unfold P. simpl. rewrite Hv2. simpl. do 2 (split; [done|]).
    split; [intros k' Hk'; by rewrite lookup_delete_ne|]. intros e. by rewrite lookup_delete_eq. }
  cbn [fst snd Spec.delete_embedding]. unfold bind. pose proof (try_embed_ok cfg k text true (with_store t2 s1)) as Hte.
  change (content (row_to_memory_item (k, row'))) with text.
  destruct (try_embed _ _ _ _ _ _) as [s' r']. simpl in *. subst r'. simpl.
  exists row. destruct HP as (?&?&?&?). auto 8.
Qed.
End service.

(** ** Counters *)

Definition occurrences (k : string) (l : list string) : Z := Z.of_nat (length (filter (λ x, x = k) l)).

Lemma occurrences_snoc k l x : occurrences k (l ++ [x]) = occurrences k l + if bool_decide (x = k) then 1 else 0.
Proof.
  unfold occurrences. rewrite filter_app, length_app, Nat2Z.inj_add. f_equal.
  rewrite filter_cons, filter_nil. by repeat case_decide; repeat case_bool_decide.
Qed.

Lemma count_in_keys k l : map fst (count_in k l) = if bool_decide (k ∈ map fst l) then map fst l else map fst l ++ [k].
Proof.
  induction l as [|[k' n] l IH]; simpl; [done|]. destruct (decide (k' = k)) as [->|Hk].
  - rewrite (bool_decide_eq_true_2 (k = k)) by done. rewrite bool_decide_eq_true_2; [done|].
    apply elem_of_cons. by left.
  - rewrite (bool_decide_eq_false_2 (k' = k)) by done. simpl. rewrite IH.
    assert (bool_decide (k ∈ k' :: map fst l) = bool_decide (k ∈ map fst l)) as ->
      by (apply bool_decide_ext; rewrite elem_of_cons; naive_solver).
    by case_bool_decide.
Qed.

Lemma count_in_elem k l k' n :
  NoDup (map fst l) → (k', n) ∈ count_in k l →
  (k' ≠ k ∧ (k', n) ∈ l) ∨ (k' = k ∧ ((k, n - 1) ∈ l ∨ n = 1 ∧ k ∉ map fst l)).
Proof.
  induction l as [|[j m] l IH]; simpl; intros Hnd.
  - intros [= -> ->]%list_elem_of_singleton. right. split; [done|]. right. split; [done|]. apply not_elem_of_nil.
  - apply NoDup_cons in Hnd as [Hj Hnd]. case_bool_decide as Hjk; [subst j|].
    + intros [[= -> ->]|Hin]%elem_of_cons.
      * right. split; [done|]. left. rewrite elem_of_cons. left. f_equal. lia.
      * left. split; [|by right]. intros ->. apply Hj. by apply (list_elem_of_fmap_2 fst _ _ Hin).
    + intros [[= -> ->]|Hin]%elem_of_cons; [left; split; [done|left]|].
      destruct (IH Hnd Hin) as [[? ?]|[-> [?|[-> ?]]]].
      * left. split; [done|by right].
      * right. split; [done|]. left. by right.
      * right. split; [done|]. right. split; [done|]. rewrite elem_of_cons. naive_solver.
Qed.

Lemma count_in_sum k l : sum_Z (map snd (count_in k l)) = sum_Z (map snd l) + 1.
Proof. induction l as [|[j m] l IH]; simpl; [done|]. case_bool_decide; simpl; lia. Qed.

Lemma occurrences_absent k l : k ∉ l → occurrences k l = 0.
Proof.
  induction l as [|x l IH]; [done|]. rewrite not_elem_of_cons. intros [Hne Hni].
  unfold occurrences in *. rewrite filter_cons_False by done. auto.
Qed.

Lemma count_all_spec ks :
  NoDup (map fst (count_all ks)) ∧
  (∀ k, k ∈ map fst (count_all ks) ↔ k ∈ ks) ∧
  (∀ k n, (k, n) ∈ count_all ks → n = occurrences k ks ∧ 0 < n) ∧
  sum_Z (map snd (count_all ks)) = Z.of_nat (length ks).
Proof.
  induction ks as [|x ks (Hnd&Hk&Hn&Hsum)] using rev_ind.
  { split; [constructor|]. split; [done|]. split; [by intros k n ?%elem_of_nil|done]. }
  unfold count_all in *. rewrite foldl_snoc. set (l := foldl _ _ ks) in *.
  split; [|split; [|split]].
  - rewrite count_in_keys. case_bool_decide; [done|]. apply NoDup_app. split; [done|]. split; [|apply NoDup_singleton].
    intros k Hkl ->%list_elem_of_singleton. done.
  - intros k. rewrite count_in_keys, elem_of_app, list_elem_of_singleton, <- Hk.
    case_bool_decide as Hx; [|by rewrite elem_of_app, list_elem_of_singleton]. naive_solver.
  - intros k n Hin. rewrite occurrences_snoc.
    apply count_in_elem in Hin as [[Hne Hin]|[-> [Hin|[-> Hni]]]]; [..|]; try done.
    + rewrite bool_decide_eq_false_2 by done. apply Hn in Hin. lia.
    + rewrite bool_decide_eq_true_2 by done. apply Hn in Hin. lia.
    + rewrite bool_decide_eq_true_2 by done. rewrite Hk in Hni. split; [|done].
      rewrite occurrences_absent by done. lia.
  - rewrite count_in_sum, Hsum, length_app. simpl. lia.
Qed.

(** ** Statistics *)
Section store.
Context {S : Type} `{HF : FTS5} `{!MemoryStorePort S}.
Implicit Types (t : S) (d : db).

Definition in_scope_of (pid : option string) (r : memory_row) : Prop :=
  match pid with Some p => r_project_id r = Some p | None => True end.

(** The memories of a project, or all of them, as one list. *)
Definition lists d (pid : option string) (items : list MemoryItem) : Prop :=
  NoDup (map id items) ∧
  ∀ i, i ∈ items ↔ ∃ r, memories d !! id i = Some r ∧ i = row_to_memory_item (id i, r) ∧ in_scope_of pid r.

Lemma list_memory_all d pid :
  ∃ items, Spec.list_memory None false 0 pid None None pinned_first d = (d, Ok items) ∧ lists d pid items ∧
    (Spec.count_memory pid d).2 = Ok (Z.of_nat (length items)).
Proof.
  unfold Spec.list_memory, gets. simpl. eexists. split; [done|]. rewrite drop_0. unfold sql_limit. simpl.
  set (p := λ (_ : string) r, Spec.list_where false pid None None r).
  assert (∀ r, Spec.list_where false pid None None r = true ↔ in_scope_of pid r) as Hp.
  { intros r. unfold Spec.list_where, in_scope_of, in_project. simpl. rewrite !andb_true_r.
    destruct pid; [by rewrite bool_decide_eq_true|done]. }
  split; [split|].
  - rewrite map_map. exact (select_memories_NoDup p pinned_first_leb d).
  - intros i. rewrite list_elem_of_fmap. split.
    + intros ([k r]&->&Hin). apply select_memories_elem in Hin as [Hk Hs]. exists r. simpl.
      split; [done|]. split; [done|]. by apply Hp.
    + intros (r&Hr&Hi&Hs). exists (id i, r). split; [done|]. apply select_memories_elem.
      split; [done|]. by apply Hp.
  - unfold Spec.count_memory, gets. simpl. f_equal. f_equal. rewrite length_map.
    unfold select_memories. rewrite sort_by_length, size_filter_list. f_equal.
    apply list_filter_iff. intros [k r]. simpl. unfold p. rewrite Hp. unfold in_scope_of, in_project.
    destruct pid; [by rewrite bool_decide_eq_true|done].
Qed.

Lemma store_read {A} (m : SE S exn A) f t a :
  st_runs m f → st_ok t → (∀ b, f b (st_view t) = (st_view t, Ok a)) →
  ∃ t', m t = (t', Ok a) ∧ st_ok t' ∧ st_view t' = st_view t.
Proof.
  intros Hm Ht Hf. destruct (run_op m f t Hm Ht) as (t'&Hrun&Hok&_&Hv).
  rewrite Hf in Hrun, Hv. eauto.
Qed.

Lemma tag_leb_total x y : tag_leb x y = false → tag_leb y x = true.
Proof.
  unfold tag_leb. destruct (str_leb_total x.1 y.1) as [H|H], (str_leb_total y.1 x.1) as [H'|H']; rewrite ?H, ?H';
    destruct (Z.ltb_spec y.2 x.2), (Z.ltb_spec x.2 y.2), (Z.eqb_spec y.2 x.2), (Z.eqb_spec x.2 y.2);
    simpl; try done; lia.
Qed.

Lemma tag_leb_trans x y z : tag_leb x y = true → tag_leb y z = true → tag_leb x z = true.
Proof.
  unfold tag_leb. rewrite !orb_true_iff, !andb_true_iff, !Z.ltb_lt, !Z.eqb_eq.
  intros [?|[? H1]] [?|[? H2]]; [left; lia..|]. right. split; [lia|]. by eapply str_leb_trans.
Qed.

(** The statistics add up.  For a project or the whole store: the total is
    the number of memories in scope; the per-source counts are exact and sum to
    the total; the tag histogram shows the exact counts of its tags, most
    frequent first, no hidden tag being more frequent than a shown one; and
    shown plus rolled-up tags are all the distinct tags. *)
Theorem stats_consistent (t : S) (pid : option string) (top : Z) :
  st_ok t → 0 ≤ top →
  ∃ t' st items,
    stats_memory pid top t = (t', Ok st) ∧ st_view t' = st_view t ∧ lists (st_view t) pid items ∧
    stats_total st = Z.of_nat (length items) ∧
    stats_pinned st = Z.of_nat (length (filter (λ i, pinned i = true) items)) ∧
    sum_Z (map snd (by_source st)) = stats_total st ∧
    (∀ src n, (src, n) ∈ by_source st → n = occurrences src (map (λ i, source_or_unknown (source i)) items)) ∧
    let all := concat (map tags items) in
    (∀ tag n, (tag, n) ∈ by_tag st → n = occurrences tag all) ∧
    (∀ tag shown, tag ∈ all → tag ∉ map fst (by_tag st) → shown ∈ by_tag st → occurrences tag all ≤ shown.2) ∧
    StronglySorted (λ x y, tag_leb x y = true) (by_tag st) ∧
    Z.of_nat (length (by_tag st)) + default 0 (other_tags st) = Z.of_nat (size (list_to_set all : gset string)).
Proof.
  intros Ht Htop. destruct (list_memory_all (st_view t) pid) as (items&Hlist&Hitems&Hcount).
  unfold stats_memory, bind.
  destruct (store_read _ _ t (Z.of_nat (length items)) (law_count_memory pid) Ht) as (t1&->&Ht1&Hv1).
  { intros _. unfold Spec.count_memory, gets in *. simpl in *. congruence. }
  destruct (store_read _ _ t1 items (law_list_memory None false 0 pid None None pinned_first) Ht1) as (t2&->&_&Hv2).
  { intros _. by rewrite Hv1. }
  rewrite <- Hv1 in Hitems. set (all := concat (map tags items)).
  eexists t2, _, items. split; [reflexivity|]. split; [congruence|]. split; [congruence|]. simpl. fold all.
  destruct (count_all_spec (map (λ i, source_or_unknown (source i)) items)) as (_&_&Hsn&Hssum).
  destruct (count_all_spec all) as (Hnd&Hk&Hn&_).
  do 2 (split; [done|]). split; [by rewrite Hssum, length_map|]. split; [intros src n Hin; by apply Hsn|].
  rewrite py_slice_nonneg by lia. rewrite drop_0, Z.sub_0_r.
  set (ranked := sort_by tag_leb (count_all all)).
  assert (ranked ≡ₚ count_all all) as Hperm by apply sort_by_perm.
  assert (StronglySorted (λ x y, tag_leb x y = true) ranked) as Hss
    by (apply sort_by_strongly_sorted; [apply tag_leb_total|apply tag_leb_trans]).
  pose proof Hss as Hsplit. rewrite <- (take_drop (Z.to_nat top) ranked) in Hsplit.
  split; [|split; [|split]].
  - intros tag n (i&Hi&_)%elem_of_take. apply list_elem_of_lookup_2 in Hi. rewrite Hperm in Hi. by apply Hn.
  - intros tag shown Htag Hni Hsh. apply Hk in Htag. rewrite <- Hperm in Htag.
    rewrite <- (take_drop (Z.to_nat top) ranked), map_app, elem_of_app in Htag. destruct Htag as [|Htag]; [done|].
    apply list_elem_of_fmap in Htag as ([tag' n]&->&Hin). simpl.
    pose proof (StronglySorted_app_1_elem_of _ _ _ shown (tag', n) Hsplit Hsh Hin) as Hle.
    assert (n = occurrences tag' all) as <-.
    { apply Hn. rewrite <- Hperm, <- (take_drop (Z.to_nat top) ranked). apply elem_of_app. by right. }
    unfold tag_leb in Hle. simpl in Hle. rewrite orb_true_iff, andb_true_iff in Hle. lia.
  - by apply StronglySorted_app_1_l in Hsplit.
  - rewrite length_take. assert (length ranked = size (list_to_set all : gset string)) as Hlen.
    { rewrite Hperm, <- (length_map fst), <- (size_list_to_set (C:=gset string) _ Hnd). f_equal.
      apply set_eq. intros x. rewrite !elem_of_list_to_set. apply Hk. }
    rewrite Hlen. destruct (Z.ltb_spec top (Z.of_nat (size (list_to_set all : gset string)))); simpl; lia.
Qed.

(** ** Deleting projects in a batch *)

Definition project_size (k : string) d : Z := Z.of_nat (map_count (λ _ r, in_project k r) (memories d)).

(** A row outside the projects [keys]. *)
Definition outside (keys : list string) (r : memory_row) : bool :=
  match r_project_id r with Some p => negb (str_mem p keys) | None => true end.

Lemma outside_cons k keys r : outside (k :: keys) r = negb (in_project k r) && outside keys r.
Proof.
  unfold outside, in_project, str_mem. destruct (r_project_id r) as [p|]; [|by case_bool_decide].
  rewrite <- negb_orb. f_equal. destruct (decide (p = k)) as [->|Hne].
  - rewrite (bool_decide_eq_true_2 (Some k = Some k)), bool_decide_eq_true_2; [done| |done].
    apply elem_of_cons. by left.
  - rewrite (bool_decide_eq_false_2 (Some p = Some k)) by congruence. simpl.
    apply bool_decide_ext. rewrite elem_of_cons. naive_solver.
Qed.

(** What is left after the projects [keys] are gone. *)
Definition without (keys : list string) d d' : Prop :=
  projects d' = filter (λ kr, kr.1 ∉ keys) (projects d) ∧
  memories d' = filter (λ kr, outside keys kr.2 = true) (memories d).

Lemma project_size_after k k' d :
  k ≠ k' → map_count (λ _ r, in_project k' r) (memories (delete_memories (λ _ r, in_project k r) d).1) =
    map_count (λ _ r, in_project k' r) (memories d).
Proof.
  intros Hne. unfold map_count. f_equal. apply map_eq. intros i.
  rewrite !map_lookup_filter, delete_memories_lookup. destruct (memories d !! i) as [r|]; [|done].
  destruct (in_project k r) eqn:Hk; simpl; [|done].
  unfold in_project in *. apply bool_decide_eq_true in Hk. rewrite Hk.
  rewrite option_guard_False; [done|]. simpl. intros H%bool_decide_eq_true. congruence.
Qed.

Lemma delete_all (found : list (string * project_row)) d :
  NoDup (map fst found) → (∀ k r, (k, r) ∈ found → projects d !! k = Some r) →
  ∃ d', map_m (λ p, let* n := Spec.delete_project (project_key p) in ret (Z.of_nat n))
      (map row_to_project found) d = (d', Ok (map (λ kr, project_size kr.1 d) found)) ∧
    without (map fst found) d d' ∧
    Z.of_nat (size (memories d')) + sum_Z (map (λ kr, project_size kr.1 d) found) = Z.of_nat (size (memories d)).
Proof.
  revert d. induction found as [|[k r] found IH]; intros d Hnd Hin.
  { exists d. split; [done|]. split; [|simpl; lia]. split; symmetry; apply map_filter_id;
      intros i x _; simpl; [apply not_elem_of_nil|]. unfold outside. by destruct (r_project_id x). }
  simpl in Hnd. apply NoDup_cons in Hnd as [Hk Hnd].
  assert (projects d !! k = Some r) as Hkr by (apply Hin; left).
  set (d1 := (delete_memories (λ _ r, in_project k r) d).1).
  set (d2 := set_projects (delete k (projects d)) d1).
  destruct (IH d2 Hnd) as (d'&Hrun&[Hp Hm]&Hsize).
  { intros k' r' Hin'. simpl. rewrite lookup_delete_ne; [apply Hin; by right|].
    intros ->. apply Hk. by apply (list_elem_of_fmap_2 fst _ _ Hin'). }
  assert (map (λ kr, project_size kr.1 d2) found = map (λ kr, project_size kr.1 d) found) as Hsizes.
  { apply list_fmap_ext. intros i kr Hi. unfold project_size. f_equal. apply project_size_after.
    intros ->. apply Hk. apply list_elem_of_lookup_2 in Hi. by apply (list_elem_of_fmap_2 fst _ _ Hi). }
  exists d'. rewrite Hsizes in *. split; [|split].
  - simpl. unfold bind at 1. unfold bind at 1. unfold Spec.delete_project at 1. rewrite Hkr. cbn [delete_memories].
    unfold bind, ret in *. change (set_projects _ _) with d2. rewrite Hrun. done.
  - split.
    + rewrite Hp. simpl. apply map_eq. intros i. rewrite !map_lookup_filter.
      destruct (decide (i = k)) as [->|Hi].
      * rewrite lookup_delete_eq. destruct (projects d !! k); [|done]. simpl.
        rewrite option_guard_False; [done|]. intros Hn. apply Hn, elem_of_cons. by left.
      * rewrite lookup_delete_ne by done. destruct (projects d !! i); [|done]. simpl.
        apply option_guard_iff. rewrite elem_of_cons. naive_solver.
    + rewrite Hm. apply map_eq. intros i. rewrite !map_lookup_filter. change (memories d2) with (memories d1).
      unfold d1. rewrite delete_memories_lookup. destruct (memories d !! i) as [x|]; [|done]. simpl.
      rewrite outside_cons. destruct (in_project k x); simpl; done.
  - simpl. change (memories d2) with (memories d1) in Hsize.
    assert (map_count (λ _ r, in_project k r) (memories d) + size (memories d1) = size (memories d))%nat as Hsum.
    { pose proof (map_count_add (λ (_ : string) r, in_project k r) (λ _ r, negb (in_project k r)) (λ _ _, true)
        (memories d)) as H. rewrite map_count_true in H. rewrite <- H;
        [|intros ? x _; by destruct (in_project k x)|intros ? x _; by destruct (in_project k x)].
      f_equal. unfold map_count. simpl. f_equal. apply map_filter_ext. intros i x _. simpl.
      by destruct (in_project k x). }
    unfold project_size at 1. lia.
Qed.

Lemma dict_fromkeys_go_spec seen l :
  NoDup (dict_fromkeys_go seen l) ∧ ∀ x, x ∈ dict_fromkeys_go seen l ↔ x ∈ l ∧ x ∉ seen.
Proof.
  revert seen. induction l as [|y l IH]; intros seen; simpl.
  { split; [constructor|]. intros x. split; [by intros ?%elem_of_nil|by intros [?%elem_of_nil ?]]. }
  case_bool_decide as Hy.
  - destruct (IH seen) as [Hnd Hx]. split; [done|]. intros x. rewrite Hx, elem_of_cons. naive_solver.
  - destruct (IH ({[y]} ∪ seen)) as [Hnd Hx]. split.
    + constructor; [|done]. rewrite Hx. set_solver.
    + intros x. rewrite !elem_of_cons, Hx. destruct (decide (x = y)) as [->|]; set_solver.
Qed.

(** The projects that exist, and the ids that do not. *)
Definition found_rows (ids : list string) d : list (string * project_row) :=
  omap (λ k, (λ r, (k, r)) <$> projects d !! k) ids.
Definition missing_ids (ids : list string) d : list string := filter (λ k, projects d !! k = None) ids.

Lemma runs_resolve ids :
  st_runs (resolve_projects ids) (λ _, gets (λ d, (map row_to_project (found_rows ids d), missing_ids ids d))).
Proof.
  induction ids as [|k ids IH]; cbn [resolve_projects]; [exact (runs_ret ([], []))|].
  eapply runs_ext.
  { eapply runs_bind; [apply law_get_project|]. intros project. eapply runs_bind; [exact IH|].
    intros fm. instantiate (1 := λ fm _, ret (match project with None => (fm.1, k :: fm.2)
      | Some p => (p :: fm.1, fm.2) end)). destruct fm. apply runs_ret. }
  intros b d. unfold found_rows, missing_ids, bind, gets, ret, Spec.get_project. simpl.
  rewrite filter_cons. by destruct (projects d !! k).
Qed.

Lemma found_rows_spec ids d :
  NoDup ids → NoDup (map fst (found_rows ids d)) ∧
  ∀ k r, (k, r) ∈ found_rows ids d ↔ k ∈ ids ∧ projects d !! k = Some r.
Proof.
  intros Hnd. split.
  - eapply sublist_NoDup; [exact Hnd|]. unfold found_rows. clear. induction ids as [|k ids IH]; simpl; [done|].
    destruct (projects d !! k); simpl; by constructor.
  - intros k r. unfold found_rows. rewrite list_elem_of_omap. split.
    + intros (k'&Hk'&H). destruct (projects d !! k') eqn:He; simplify_eq/=. done.
    + intros [Hk Hr]. exists k. by rewrite Hr.
Qed.

Definition deletion_report (found : list (string * project_row)) d : list (string * string * Z) :=
  map (λ kr, (kr.1, p_name kr.2, project_size kr.1 d)) found.

Lemma report_zip (found : list (string * project_row)) d :
  zip_with (λ p c, (project_key p, name p, c)) (map row_to_project found)
    (map (λ kr, project_size kr.1 d) found) = deletion_report found d.
Proof. unfold deletion_report. induction found as [|[k r] found IH]; simpl; [done|]. by rewrite IH. Qed.

Lemma count_each (found : list (string * project_row)) t :
  st_ok t → ∃ t', map_m (λ p, st_count_memory (Some (project_key p))) (map row_to_project found) t =
    (t', Ok (map (λ kr, project_size kr.1 (st_view t)) found)) ∧ st_ok t' ∧ st_view t' = st_view t.
Proof.
  revert t. induction found as [|[k r] found IH]; intros t Ht; [by exists t|].
  destruct (store_read _ _ t (project_size k (st_view t)) (law_count_memory (Some k)) Ht) as (t1&H1&Ht1&Hv1); [done|].
  destruct (IH t1 Ht1) as (t2&H2&Ht2&Hv2). exists t2. cbn [map map_m row_to_project project_key fst snd].
  unfold bind. cbn [project_key]. rewrite H1, H2. rewrite Hv1. split; [done|]. split; [done|congruence].
Qed.

(** A batch deletion does what its preview announced, all of it or nothing.
    The preview changes nothing; for the same ids the confirmed call then
    succeeds with the same report: each existing project once, with its name
    and number of memories, and the ids that do not exist apart.  Afterwards
    exactly those projects and their memories are gone, and the announced total
    is the number of memories that disappeared. *)
Theorem delete_projects_batch (t : S) (ids : list string) :
  st_ok t →
  let d := st_view t in
  ∃ t1 t2 report missing total requested,
    execute_delete_projects ids false t = (t1, Ok (projects_preview requested report missing total)) ∧
    st_view t1 = d ∧
    execute_delete_projects ids true t = (t2, Ok (projects_deleted requested report missing total)) ∧
    (∀ k, k ∈ missing ↔ k ∈ ids ∧ projects d !! k = None) ∧
    NoDup (map (λ e, e.1.1) report) ∧
    (∀ k n c, (k, n, c) ∈ report ↔
       ∃ r, k ∈ ids ∧ projects d !! k = Some r ∧ n = p_name r ∧ c = project_size k d) ∧
    without (map (λ e, e.1.1) report) d (st_view t2) ∧
    Z.of_nat (size (memories (st_view t2))) + total = Z.of_nat (size (memories d)).
Proof.
  intros Ht d. destruct (dict_fromkeys_go_spec ∅ ids) as [Hnd Hids].
  fold (dict_fromkeys ids) in Hnd, Hids. set (keys := dict_fromkeys ids) in *.
  set (found := found_rows keys d). destruct (found_rows_spec keys d Hnd) as [Hndf Hfound]. fold found in Hndf, Hfound.
  destruct (store_read _ _ t (map row_to_project found, missing_ids keys d) (runs_resolve keys) Ht)
    as (t0&Hres&Ht0&Hv0); [done|].
  destruct (count_each found t0 Ht0) as (t1&Hcount&_&Hv1). rewrite Hv0 in Hcount. fold d in Hcount, Hv0.
  destruct (delete_all found d Hndf) as (d'&Hdel&Hwithout&Hsize); [intros k r H; by apply Hfound|].
  destruct (run_op _ _ t0 (runs_transaction _ _ (runs_map_m (λ p, let* n := st_delete_project (project_key p) in
      ret (Z.of_nat n)) (λ p _, let* n := Spec.delete_project (project_key p) in ret (Z.of_nat n))
    (map row_to_project found) (λ p, runs_bind _ _ _ (λ n _, ret (Z.of_nat n))
      (law_delete_project (project_key p)) (λ n, runs_ret (Z.of_nat n))))) Ht0) as (t2&Htxn&_&_&Hv2).
  cbv beta in Htxn, Hv2. unfold atomic in Htxn, Hv2. rewrite Hv0, Hdel in Htxn, Hv2. cbn [fst snd] in Htxn, Hv2.
  exists t1, t2, (deletion_report found d), (missing_ids keys d), (sum_Z (map (λ kr, project_size kr.1 d) found)),
    (Z.of_nat (length keys)).
  assert (map (λ e : string * string * Z, e.1.1) (deletion_report found d) = map fst found) as Hkeys
    by (unfold deletion_report; by rewrite map_map).
  split; [|split; [by rewrite Hv1|split; [|split; [|split; [|split; [|split]]]]]].
  - unfold execute_delete_projects, bind. fold keys. rewrite Hres. cbn [negb]. rewrite Hcount. by rewrite report_zip.
  - unfold execute_delete_projects, bind at 1. fold keys. rewrite Hres. cbn [negb].
    unfold bind at 1. rewrite Htxn. by rewrite report_zip.
  - intros k. unfold missing_ids. rewrite list_elem_of_filter, Hids. set_solver.
  - by rewrite Hkeys.
  - intros k n c. unfold deletion_report. rewrite list_elem_of_fmap. split.
    + intros ([k' r]&[= -> -> ->]&Hin). apply Hfound in Hin as [Hin Hr]. apply Hids in Hin as [? _]. by exists r.
    + intros (r&Hk&Hr&->&->). exists (k, r). split; [done|]. apply Hfound. split; [|done]. apply Hids. set_solver.
  - by rewrite Hkeys, Hv2.
  - by rewrite Hv2.
Qed.
End store.

(** * The use cases on the sample store

    Each property of the use cases applied to the store of three memories and
    the toy provider. *)

#[local] Existing Instance toy_port.
#[local] Existing Instance substring_fts.

(** A memory whose text the provider fails on. *)
Definition new_item : MemoryItem :=
  mkMemoryItem "m9" "boom" [] (Datetime 7200000000 (Some 3600000000)) false (Some "p"%string) "manual" None.

Lemma add_memory_outcomes_witness :
  ∃ saved, (execute_add_memory clock true new_item lone_service).2 = Ok saved ∧
    id saved = "m9"%string ∧ created_at saved = utc 3600000000.
Proof.
  pose proof (@add_memory_outcomes store nat _ _ toy_port clock true new_item lone_service alone_lone) as H.
  cbv zeta in H. destruct (execute_add_memory clock true new_item lone_service) as [s' r] eqn:Hr.
  assert (Hr' : (execute_add_memory clock true new_item lone_service).2 = r) by (rewrite Hr; reflexivity).
  vm_compute in Hr'. destruct r as [saved|e]; [|discriminate Hr'].
  exists saved. split; [reflexivity|]. destruct H as (row&_&_&_&Hrow&->&_). split; [reflexivity|].
  vm_compute in Hrow. injection Hrow as <-. reflexivity.
Defined.

Lemma update_memory_outcomes_witness :
  let s' := (execute_update_memory clock true "m1" (Some "new text"%string) None lone_service).1 in
  match embeddings (st_view (sv_store s')) !! "m1"%string with
  | Some e => e_content_hash e = hash_content "new text"
  | None => True
  end.
Proof.
  pose proof (@update_memory_outcomes store nat _ _ toy_port clock true "m1" (Some "new text"%string) None
    lone_service alone_lone) as H.
  cbv zeta in H |- *. destruct (execute_update_memory _ _ _ _ _ _) as [s' r] eqn:Hr.
  assert (Hr' : (execute_update_memory clock true "m1" (Some "new text"%string) None lone_service).2 = r)
    by (rewrite Hr; reflexivity).
  vm_compute in Hr'. destruct r as [u|x]; [|discriminate Hr'].
  destruct H as (row&_&_&_&_&_&_&_&H). cbn [fst] in H |- *.
  destruct (embeddings (st_view (sv_store s')) !! "m1"%string) as [e|]; [|exact I]. by apply H.
Defined.

Lemma stats_consistent_witness :
  ∃ t' st, stats_memory (Some "p"%string) 1 sample_store = (t', Ok st) ∧
    sum_Z (map snd (by_source st)) = stats_total st.
Proof.
  destruct (@stats_consistent store substring_fts (@SqliteStore substring_fts) sample_store (Some "p"%string) 1 ready_sample ltac:(lia))
    as (t'&st&items&H&_&_&_&_&Hsum&_).
  exists t', st. split; [exact H|exact Hsum].
Defined.

Lemma delete_projects_batch_witness :
  ∃ t2 report, execute_delete_projects ["p"; "zz"; "p"]%string true sample_store =
      (t2, Ok (projects_deleted 2 report ["zz"%string] 3)) ∧
    size (memories (st_view t2)) = 0%nat.
Proof.
  destruct (@delete_projects_batch store substring_fts (@SqliteStore substring_fts) sample_store ["p"; "zz"; "p"]%string ready_sample)
    as (t1&t2&report&missing&total&requested&_&_&H&_&_&_&_&Hsize).
  assert (Hrun : match (execute_delete_projects ["p"; "zz"; "p"]%string true sample_store).2 with
    | Ok (projects_deleted n _ m k) => (n, m, k) = (2, ["zz"%string], 3) | _ => False end)
    by (vm_compute; reflexivity).
  rewrite H in Hrun. cbn [snd] in Hrun. injection Hrun as -> -> ->.
  exists t2, report. split; [exact H|]. vm_compute (size (memories (st_view sample_store))) in Hsize. lia.
Defined.
