(* ===== verification/Envelope.v ===== *)
(** * Export and import

    [export_memory.py] and [import_memory.py]: the portable JSON envelope, its
    validation before any write, and the import as one transaction that inserts
    the rows whose ids are absent.  Error messages, which name the offending
    row, and the log lines are left out. *)

From S2P Require Import Prelude PyStr PyText Sha256 Domain DateTime PyNum Sql Store Transactions Port UseCases.
Local Open Scope Z_scope.
Local Open Scope prog_scope.

(** [git_onboard.py:369-369 WATERMARK_SOURCE] *)
Definition WATERMARK_SOURCE : string := "git-onboard-watermark".
(** [export_memory.py:16-16 EXPORT_FORMAT_VERSION] *)
Definition EXPORT_FORMAT_VERSION : Z := 1.

Definition row : Type := list (string * json).
(** [row.get(key)]: an absent key and a null are both [None]. *)
Definition get_opt (key : string) (r : row) : option json :=
  match jget key r with Some JNull | None => None | Some v => Some v end.
Definition jstr (s : string) : json := JStr s.
Definition jopt {A} (f : A → json) (o : option A) : json := match o with Some a => f a | None => JNull end.

(** ** Export *)

(** [export_memory.py:47-55 execute] *)
Definition project_payload (p : Project) : json :=
  JObj [("id", jstr (project_key p)); ("name", jstr (name p)); ("metadata", JObj (metadata p));
        ("created_at", jstr (isoformat (project_created_at p)))]%string.

(** [export_memory.py:70-82 execute] *)
Definition memory_payload (m : MemoryItem) : json :=
  JObj [("id", jstr (id m)); ("content", jstr (content m)); ("tags", JArr (map jstr (tags m)));
        ("pinned", JBool (pinned m)); ("project_id", jopt jstr (project_id m)); ("source", jstr (source m));
        ("created_at", jstr (isoformat (created_at m)));
        ("updated_at", jopt (λ t, jstr (isoformat t)) (updated_at m))]%string.

Definition not_watermark (m : MemoryItem) : bool := negb (bool_decide (source m = WATERMARK_SOURCE)).

(** [export_memory.py:84-94 execute] *)
Definition envelope (now : datetime) (projects : list Project) (items : list MemoryItem) : json :=
  JObj [("format_version", JInt EXPORT_FORMAT_VERSION); ("exported_at", jstr (isoformat now));
        ("projects", JArr (map project_payload projects));
        ("memory_items", JArr (map memory_payload items))]%string.

(** ** Validation *)

(** [import_memory.py:65-69 _require_str] *)
Definition require_str (r : row) (key : string) : result exn string :=
  match jget key r with
  | Some (JStr s) => if bool_decide (s = ""%string) then Raise invalid else Ok s
  | _ => Raise invalid
  end.

(** [import_memory.py:72-81 _require_dt_str] *)
Definition require_dt_str (r : row) (key : string) (optional : bool) : result exn unit :=
  match get_opt key r with
  | None => if optional then Ok tt else Raise invalid
  | Some (JStr s) =>
      match fromisoformat s with
      | None => Raise invalid
      | Some d => match require_utc d with Ok _ => Ok tt | Raise _ => Raise invalid end
      end
  | Some _ => Raise invalid
  end.

Definition is_obj (j : json) : bool := match j with JObj _ => true | _ => false end.
Definition is_str (j : json) : bool := match j with JStr _ => true | _ => false end.
Definition is_str_list (j : json) : bool := match j with JArr l => forallb is_str l | _ => false end.
(** [x is None or p(x)] *)
Definition null_or (p : json → bool) (o : option json) : bool := match o with None => true | Some v => p v end.
Definition check (b : bool) : result exn unit := if b then Ok tt else Raise invalid.

(** [import_memory.py:120-131 _validate_envelope] *)
Definition validate_project (seen : gset string) (j : json) : result exn (gset string * row) :=
  match j with
  | JObj r =>
      let? k := require_str r "id" in
      let? _ := require_str r "name" in
      let? _ := require_dt_str r "created_at" false in
      let? _ := check (null_or is_obj (get_opt "metadata" r)) in
      let? _ := check (negb (bool_decide (k ∈ seen))) in
      Ok ({[k]} ∪ seen, r)
  | _ => Raise invalid
  end.

(** [import_memory.py:134-163 _validate_envelope] *)
Definition validate_memory (known : gset string) (seen : gset string) (j : json)
    : result exn (gset string * row) :=
  match j with
  | JObj r =>
      let? k := require_str r "id" in
      let? _ := check (match jget "content" r with Some v => is_str v | None => false end) in
      let? _ := require_dt_str r "created_at" false in
      let? _ := require_dt_str r "updated_at" true in
      let? _ := check (null_or is_str_list (get_opt "tags" r)) in
      let? _ := check (null_or is_str (get_opt "source" r)) in
      let? _ := check (null_or is_str (get_opt "project_id" r)) in
      let? _ := check (match get_opt "project_id" r with
        | Some (JStr p) => bool_decide (p ∈ known) | _ => true end) in
      let? _ := check (negb (bool_decide (k ∈ seen))) in
      Ok ({[k]} ∪ seen, r)
  | _ => Raise invalid
  end.

Fixpoint validate_rows (f : gset string → json → result exn (gset string * row)) (seen : gset string)
    (l : list json) : result exn (gset string * list row) :=
  match l with
  | [] => Ok (seen, [])
  | j :: l' =>
      let? (seen, r) := f seen j in
      let? (seen, rs) := validate_rows f seen l' in
      Ok (seen, r :: rs)
  end.

Definition require_array (payload : row) (key : string) : result exn (list json) :=
  match jget key payload with Some (JArr l) => Ok l | _ => Raise invalid end.

(** [import_memory.py:84-165 _validate_envelope] *)
Definition validate_envelope (payload : row) (existing_project_ids : gset string)
    : result exn (list row * list row) :=
  let? _ := check (match jget "format_version" payload with
    | Some (JInt v) => v =? EXPORT_FORMAT_VERSION | _ => false end) in
  let? projects := require_array payload "projects" in
  let? memory_items := require_array payload "memory_items" in
  let? (envelope_project_ids, ps) := validate_rows validate_project ∅ projects in
  let? (_, ms) := validate_rows (validate_memory (existing_project_ids ∪ envelope_project_ids)) ∅ memory_items in
  Ok (ps, ms).

(** ** Import *)

Record ImportCounts := mkImportCounts {
  projects_added : Z; projects_skipped : Z; memory_added : Z; memory_skipped : Z;
  watermark_dropped : Z; oversized_content : Z;
}.

Inductive ImportMode := merge | replace | other_import_mode (s : string).

(** [row[key]] of a string field; the validation makes the other cases moot. *)
Definition str_field (r : row) (key : string) : string :=
  match jget key r with Some (JStr s) => s | _ => "" end.

(** [import_memory.py:49-50 _parse_dt] *)
Definition parse_dt (v : option json) : result exn (option datetime) :=
  match v with
  | Some (JStr s) =>
      if bool_decide (s = ""%string) then Ok None
      else match fromisoformat s with Some d => Ok (Some d) | None => Raise ValueError end
  | Some _ => Raise TypeError
  | None => Ok None
  end.

(** [import_memory.py:318-323 execute] *)
Definition project_of_row (now : datetime) (r : row) : result exn Project :=
  let? created := parse_dt (jget "created_at" r) in
  Ok (mkProject (str_field r "id") (str_field r "name")
    (match get_opt "metadata" r with Some (JObj m) => m | _ => [] end) (default now created)).

Definition strings_of (l : list json) : list string := omap (λ j, match j with JStr s => Some s | _ => None end) l.

(** [import_memory.py:351-360 execute] *)
Definition memory_of_row (now : datetime) (r : row) : result exn MemoryItem :=
  let? created := parse_dt (jget "created_at" r) in
  let? updated := parse_dt (get_opt "updated_at" r) in
  Ok (mkMemoryItem (str_field r "id") (str_field r "content")
    (match get_opt "tags" r with Some (JArr l) => strings_of l | _ => [] end) (default now created)
    (match jget "pinned" r with Some v => truthy v | None => false end)
    (match get_opt "project_id" r with Some (JStr p) => Some p | _ => None end)
    (match get_opt "source" r with
     | Some (JStr s) => if bool_decide (s = ""%string) then "import"%string else s
     | _ => "import"%string end)
    updated).

Definition is_watermark_row (r : row) : bool :=
  match get_opt "source" r with Some (JStr s) => bool_decide (s = WATERMARK_SOURCE) | _ => false end.

Section store_clients.
Context {S : Type} `{HF : FTS5} `{!MemoryStorePort S}.
Notation St A := (SE S exn A).

(** [export_memory.py:19-94 execute] *)
Definition execute_export (now : datetime) (project_id : option string) : St json :=
  let* projects := match project_id with
    | Some p =>
        let* scoped := st_get_project p in
        ret match scoped with Some p => [p] | None => [] end
    | None => st_list_projects None
    end in
  let* items := st_list_memory None false 0 project_id None None pinned_first in
  ret (envelope now projects (filter (λ m, not_watermark m = true) items)).

(** [import_memory.py:313-325 execute] Added and skipped. *)
Fixpoint import_projects (now : datetime) (existing : gset string) (rows : list row) : St (Z * Z) :=
  match rows with
  | [] => ret (0, 0)
  | r :: rows' =>
      if bool_decide (str_field r "id" ∈ existing) then
        let* (a, k) := import_projects now existing rows' in ret (a, k + 1)
      else
        let* p := lift_result (project_of_row now r) in
        st_add_project p ;;
        let* (a, k) := import_projects now existing rows' in ret (a + 1, k)
  end.

(** [import_memory.py:327-362 execute] Added, skipped, dropped, oversized. *)
Fixpoint import_memories (now : datetime) (existing : gset string) (rows : list row) : St (Z * Z * Z * Z) :=
  match rows with
  | [] => ret (0, 0, 0, 0)
  | r :: rows' =>
      if is_watermark_row r then
        let* (a, k, w, o) := import_memories now existing rows' in ret (a, k, w + 1, o)
      else if bool_decide (str_field r "id" ∈ existing) then
        let* (a, k, w, o) := import_memories now existing rows' in ret (a, k + 1, w, o)
      else
        let* m := lift_result (memory_of_row now r) in
        st_add_memory m ;;
        let* (a, k, w, o) := import_memories now existing rows' in
        ret (a + 1, k, w, if too_long (content m) then o + 1 else o)
  end.

(** [import_memory.py:246-390 execute] *)
Definition execute_import (now : datetime) (payload : json) (mode : ImportMode) : St ImportCounts :=
  match mode with
  | other_import_mode _ => raise invalid
  | _ =>
      match payload with
      | JObj payload =>
          let* _ := (match mode with
            | replace =>
                let* existing_projects := st_list_projects None in
                let* existing_memory := st_list_memory (Some 1) false 0 None None None pinned_first in
                match existing_projects, existing_memory with
                | [], [] => ret tt
                | _, _ => raise invalid
                end
            | _ => ret tt
            end) in
          let* existing_projects := st_list_projects None in
          let existing_project_ids : gset string := list_to_set (map project_key existing_projects) in
          let* existing_items := st_list_memory None false 0 None None None pinned_first in
          let existing_memory_ids : gset string := list_to_set (map id existing_items) in
          let* (raw_projects, raw_memory_items) :=
            lift_result (validate_envelope payload existing_project_ids) in
          let* (pa, pk, (ma, mk, w, o)) := st_transaction (
            let* (pa, pk) := import_projects now existing_project_ids raw_projects in
            let* ms := import_memories now existing_memory_ids raw_memory_items in
            ret (pa, pk, ms)) in
          ret (mkImportCounts pa pk ma mk w o)
      | _ => raise invalid
      end
  end.
End store_clients.

(** ** The staleness warning *)

(** [import_memory.py:168-184 _aware_exported_at] *)
Definition aware_exported_at (value : option json) : option datetime :=
  match value with
  | Some (JStr s) =>
      match fromisoformat s with
      | Some d => match utcoff d with Some _ => Some d | None => None end
      | None => None
      end
  | _ => None
  end.

Definition aware_edit (m : MemoryItem) : option datetime :=
  match updated_at m with
  | Some t => match utcoff t with Some _ => Some t | None => None end
  | None => None
  end.

(** [import_memory.py:187-200 _newest_edit] *)
Definition newest_edit (items : list MemoryItem) : option datetime :=
  match omap aware_edit items with [] => None | t :: ts => Some (foldl later t ts) end.

(** [import_memory.py:235-243 _warn_merge_hazards] Is the second warning
    logged: does the envelope predate the newest edit here. *)
Definition envelope_predates (payload : row) (existing_items : list MemoryItem) : bool :=
  match aware_exported_at (jget "exported_at" payload), newest_edit existing_items with
  | Some e, Some n => instant e <? instant n
  | _, _ => false
  end.
