(* ===== verification/EnvelopeProps.v ===== *)
(** * Properties of export and import

    Validation makes the import transaction total; an import is the union of
    the destination with the envelope, the destination winning; and an export
    restored into an empty store gives the same projects and memories back. *)

From S2P Require Import Prelude PyStr PyText Sha256 Domain DateTime PyNum Sql Store Transactions Port StoreProps SearchProps Embedding.
From S2P Require Import UseCases UseCaseProps Envelope.
Local Open Scope Z_scope.
Local Open Scope prog_scope.

(** ** What validation guarantees *)

Lemma result_bind_ok {E A B} (r : result E A) (k : A → result E B) b :
  result_bind r k = Ok b ↔ ∃ a, r = Ok a ∧ k a = Ok b.
Proof. destruct r; simpl; naive_solver. Qed.

Lemma check_ok b u : check b = Ok u → b = true.
Proof. by destruct b. Qed.

(** Every failure of the validation is the same error. *)
Definition only_invalid {A} (r : result exn A) : Prop := ∀ e, r = Raise e → e = invalid.

Lemma only_invalid_bind {A B} (r : result exn A) (k : A → result exn B) :
  only_invalid r → (∀ a, only_invalid (k a)) → only_invalid (result_bind r k).
Proof. destruct r; simpl; [intros _ Hk; apply Hk|intros Hr _ e' [= <-]; by apply Hr]. Qed.
Lemma only_invalid_check b : only_invalid (check b).
Proof. destruct b; intros e; simpl; congruence. Qed.
Lemma only_invalid_ok {A} (a : A) : only_invalid (Ok a).
Proof. by intros e. Qed.
Lemma only_invalid_raise {A} : only_invalid (@Raise exn A invalid).
Proof. intros e. congruence. Qed.
Lemma only_invalid_str r k : only_invalid (require_str r k).
Proof. intros e. unfold require_str. repeat case_match; congruence. Qed.
Lemma only_invalid_dt r k o : only_invalid (require_dt_str r k o).
Proof. intros e. unfold require_dt_str. repeat case_match; congruence. Qed.
Lemma only_invalid_array r k : only_invalid (require_array r k).
Proof. intros e. unfold require_array. repeat case_match; congruence. Qed.
#[local] Hint Resolve only_invalid_check only_invalid_ok only_invalid_raise only_invalid_str only_invalid_dt
  only_invalid_array : only_invalid.
Ltac only_invalid_step :=
  first [apply only_invalid_bind; [|intros ?]|solve [auto with only_invalid]|case_match].

Lemma only_invalid_rows f seen l :
  (∀ s j, only_invalid (f s j)) → only_invalid (validate_rows f seen l).
Proof.
  intros Hf. revert seen. induction l as [|j l IH]; intros seen; simpl; [by auto with only_invalid|].
  apply only_invalid_bind; [apply Hf|]. intros [s r]. apply only_invalid_bind; [apply IH|].
  intros [s' rs]. auto with only_invalid.
Qed.

Lemma only_invalid_envelope payload ex : only_invalid (validate_envelope payload ex).
Proof.
  unfold validate_envelope. do 3 only_invalid_step. only_invalid_step.
  - apply only_invalid_bind; [|intros [? ?]].
    + apply only_invalid_rows. intros s j. unfold validate_project. repeat only_invalid_step.
    + apply only_invalid_bind; [|intros [? ?]; auto with only_invalid].
      apply only_invalid_rows. intros s j. unfold validate_memory. repeat only_invalid_step.
Qed.

Lemma require_str_ok r key s : require_str r key = Ok s → jget key r = Some (JStr s) ∧ s ≠ ""%string.
Proof. unfold require_str. repeat case_match; intros [= <-]; naive_solver. Qed.

Lemma str_field_ok r key s : require_str r key = Ok s → str_field r key = s.
Proof. intros [H _]%require_str_ok. unfold str_field. by rewrite H. Qed.

Lemma parse_dt_ok r key u :
  require_dt_str r key false = Ok u →
  ∃ d t, parse_dt (jget key r) = Ok (Some d) ∧ iso_column d = Ok t.
Proof.
  unfold require_dt_str, get_opt. destruct (jget key r) as [[]|]; try done.
  destruct (fromisoformat s) as [d|] eqn:Hd; [|done]. destruct (require_utc d) as [d'|] eqn:Hu; [|done].
  intros _. exists d, (wall d'). unfold parse_dt, iso_column.
  rewrite bool_decide_eq_false_2 by (intros ->; done). by rewrite Hd, Hu.
Qed.

Lemma parse_dt_optional r key u :
  require_dt_str r key true = Ok u →
  ∃ o, parse_dt (get_opt key r) = Ok o ∧
    ∀ d, o = Some d → ∃ t, iso_column d = Ok t.
Proof.
  unfold require_dt_str. destruct (get_opt key r) as [[]|] eqn:Hg; try done.
  2: { intros _. exists None. done. }
  destruct (fromisoformat s) as [d|] eqn:Hd; [|done]. destruct (require_utc d) as [d'|] eqn:Hu; [|done].
  intros _. exists (Some d). unfold parse_dt, iso_column.
  rewrite bool_decide_eq_false_2 by (intros ->; done). rewrite Hd. split; [done|].
  intros ? [= <-]. rewrite Hu. by exists (wall d').
Qed.

Section entries.
Context (now : datetime).

(** The database row an envelope row stands for. *)
Definition project_entry (r : row) : option (string * project_row) :=
  match project_of_row now r with
  | Ok p => match iso_column (project_created_at p) with
            | Ok t => Some (project_key p, ProjectRow (name p) (metadata p) t)
            | Raise _ => None end
  | Raise _ => None
  end.

Definition memory_entry (r : row) : option (string * memory_row) :=
  if is_watermark_row r then None
  else match memory_of_row now r with
       | Ok m => match Spec.item_row m with Ok x => Some (id m, x) | Raise _ => None end
       | Raise _ => None
       end.

Definition row_key (r : row) : string := str_field r "id".
Definition row_project (r : row) : option string :=
  match get_opt "project_id" r with Some (JStr p) => Some p | _ => None end.

(** Validated rows. *)
Definition good_project (r : row) : Prop := row_key r ≠ ""%string ∧ str_field r "name" ≠ ""%string ∧
  ∃ p t, project_of_row now r = Ok p ∧ project_key p = row_key r ∧ iso_column (project_created_at p) = Ok t.
Definition good_memory (known : gset string) (r : row) : Prop :=
  (∃ m x, memory_of_row now r = Ok m ∧ id m = row_key r ∧ project_id m = row_project r ∧ Spec.item_row m = Ok x) ∧
  (∀ p, row_project r = Some p → p ∈ known).

Lemma validate_project_good seen j seen' r :
  validate_project seen j = Ok (seen', r) →
  good_project r ∧ row_key r ∉ seen ∧ seen' = {[row_key r]} ∪ seen ∧ j = JObj r.
Proof.
  unfold validate_project. destruct j as [| | | | | |l]; try done.
  intros (k&Hk&H)%result_bind_ok. apply result_bind_ok in H as (n&Hn&H).
  apply result_bind_ok in H as (u&Hu&H). apply result_bind_ok in H as (?&_&H).
  apply result_bind_ok in H as (?&Hs%check_ok&H). injection H as <- <-.
  destruct (parse_dt_ok _ _ _ Hu) as (d&t&Hd&Ht).
  rewrite negb_true_iff, bool_decide_eq_false in Hs.
  unfold good_project, row_key. rewrite (str_field_ok _ _ _ Hk), (str_field_ok _ _ _ Hn).
  apply require_str_ok in Hk as Hk'. apply require_str_ok in Hn as [_ Hn].
  split; [|done]. split; [apply Hk'|]. split; [done|].
  eexists _, t. unfold project_of_row. rewrite Hd. simpl. rewrite (str_field_ok _ _ _ Hk). done.
Qed.

Lemma item_row_total m t :
  iso_column (created_at m) = Ok t → (∀ d, updated_at m = Some d → ∃ t, iso_column d = Ok t) →
  ∃ x, Spec.item_row m = Ok x.
Proof.
  intros Hc Hu. unfold Spec.item_row. rewrite Hc. simpl. destruct (updated_at m) as [d|]; simpl; [|eauto].
  destruct (Hu d eq_refl) as [t' ->]. simpl. eauto.
Qed.

Lemma validate_memory_good known seen j seen' r :
  validate_memory known seen j = Ok (seen', r) →
  good_memory known r ∧ row_key r ∉ seen ∧ seen' = {[row_key r]} ∪ seen ∧ j = JObj r.
Proof.
  unfold validate_memory. destruct j as [| | | | | |l]; try done.
  intros (k&Hk&H)%result_bind_ok. apply result_bind_ok in H as (?&_&H).
  apply result_bind_ok in H as (?&Hc&H). apply result_bind_ok in H as (?&Hu&H).
  apply result_bind_ok in H as (?&_&H). apply result_bind_ok in H as (?&_&H).
  apply result_bind_ok in H as (?&_&H). apply result_bind_ok in H as (?&Hp%check_ok&H).
  apply result_bind_ok in H as (?&Hs%check_ok&H). injection H as <- <-.
  destruct (parse_dt_ok _ _ _ Hc) as (d&t&Hd&Ht). destruct (parse_dt_optional _ _ _ Hu) as (o&Ho&Hot).
  rewrite negb_true_iff, bool_decide_eq_false in Hs.
  unfold good_memory, row_key. rewrite (str_field_ok _ _ _ Hk). split; [split|done].
  - unfold memory_of_row. rewrite Hd, Ho. simpl.
    match goal with |- ∃ m x, Ok ?m0 = Ok m ∧ _ => destruct (item_row_total m0 t) as [xrow Hx]; [done|exact Hot|] end.
    eexists _, xrow. split; [done|]. simpl. by rewrite (str_field_ok _ _ _ Hk).
  - intros p. unfold row_project. destruct (get_opt "project_id" l) as [[]|]; try done.
    intros [= <-]. by apply bool_decide_eq_true in Hp.
Qed.

Lemma validate_rows_good (P : row → Prop) f seen l seen' rs :
  (∀ s j s' r, f s j = Ok (s', r) → P r ∧ row_key r ∉ s ∧ s' = {[row_key r]} ∪ s ∧ j = JObj r) →
  validate_rows f seen l = Ok (seen', rs) →
  Forall P rs ∧ NoDup (map row_key rs) ∧ (∀ k, k ∈ map row_key rs → k ∉ seen) ∧
  seen' = list_to_set (map row_key rs) ∪ seen ∧ l = map JObj rs.
Proof.
  intros Hf. revert seen seen' rs. induction l as [|j l IH]; intros seen seen' rs; simpl.
  { intros [= <- <-]. split; [constructor|]. split; [constructor|]. split; [|split; [set_solver|done]].
    intros k Hk. by apply elem_of_nil in Hk. }
  intros ([s r]&Hr&H)%result_bind_ok. apply result_bind_ok in H as ([s' rs']&Hrs&[= <- <-]).
  destruct (Hf _ _ _ _ Hr) as (HP&Hni&->&->). destruct (IH _ _ _ Hrs) as (HPs&Hnd&Hdis&->&->).
  simpl. split; [by constructor|]. split; [constructor; [|done]; intros Hk; apply Hdis in Hk; set_solver|].
  split; [intros k [->|Hk]%elem_of_cons; [done|apply Hdis in Hk; set_solver]|]. split; [set_solver|done].
Qed.

(** The shape of an accepted envelope. *)
Lemma validate_envelope_good payload ex ps ms :
  validate_envelope payload ex = Ok (ps, ms) →
  jget "projects" payload = Some (JArr (map JObj ps)) ∧
  Forall good_project ps ∧ NoDup (map row_key ps) ∧
  Forall (good_memory (ex ∪ list_to_set (map row_key ps))) ms ∧ NoDup (map row_key ms).
Proof.
  unfold validate_envelope. intros (?&_&H)%result_bind_ok. apply result_bind_ok in H as (lp&Hlp&H).
  apply result_bind_ok in H as (lm&_&H). apply result_bind_ok in H as ([sp rp]&Hp&H).
  apply result_bind_ok in H as ([sm rm]&Hm&[= <- <-]).
  apply (validate_rows_good good_project) in Hp as (Hgp&Hnp&_&->&->); [|apply validate_project_good].
  apply (validate_rows_good (good_memory (ex ∪ (list_to_set (map row_key rp) ∪ ∅)))) in Hm as (Hgm&Hnm&_&_&_);
    [|apply validate_memory_good].
  rewrite (union_empty_r_L (list_to_set (map row_key rp))) in Hgm.
  split; [|done]. unfold require_array in Hlp. repeat case_match; naive_solver.
Qed.
End entries.

(** ** Running the import *)

Lemma union_new {A} (m : gmap string A) k x l :
  m !! k = None → m ∪ list_to_map ((k, x) :: l) = <[k := x]> m ∪ list_to_map l.
Proof. intros Hk. simpl. by rewrite <- insert_union_r, insert_union_l. Qed.

Lemma union_old {A} (m : gmap string A) k x l :
  is_Some (m !! k) → m ∪ list_to_map ((k, x) :: l) = m ∪ list_to_map l.
Proof.
  intros [y Hy]. apply map_eq. intros i. simpl. rewrite !lookup_union.
  destruct (decide (i = k)) as [->|Hne]; [by rewrite Hy, !union_Some_l|by rewrite lookup_insert_ne].
Qed.

Section store.
Context {S : Type} `{HF : FTS5} `{!MemoryStorePort S}.
Context (now : datetime).
Implicit Types (t : S) (d : db).

(** [ex] is what was there when the import began; the rows it does not list
    are not there yet. *)
Definition fresh_rows {A} (ex : gset string) (m : gmap string A) (rows : list row) : Prop :=
  ∀ r, r ∈ rows → if bool_decide (row_key r ∈ ex) then is_Some (m !! row_key r) else m !! row_key r = None.

Lemma fresh_rows_cons {A} ex (m : gmap string A) r rows :
  fresh_rows ex m (r :: rows) →
  (if bool_decide (row_key r ∈ ex) then is_Some (m !! row_key r) else m !! row_key r = None) ∧
  fresh_rows ex m rows.
Proof. intros H. split; [apply H; left|intros r' Hr'; apply H; by right]. Qed.

Lemma fresh_rows_insert {A} ex (m : gmap string A) k x rows :
  k ∉ map row_key rows → fresh_rows ex m rows → fresh_rows ex (<[k := x]> m) rows.
Proof.
  intros Hk H r Hr. rewrite lookup_insert_ne; [by apply H|]. intros ->. apply Hk.
  by apply (list_elem_of_fmap_2 row_key).
Qed.

Lemma import_projects_run ex rows :
  Forall (good_project now) rows → NoDup (map row_key rows) →
  ∃ f, st_runs (import_projects now ex rows) f ∧
  ∀ b d, fresh_rows ex (projects d) rows →
  ∃ d' a k, f b d = (d', Ok (a, k)) ∧
    projects d' = projects d ∪ list_to_map (omap (project_entry now) rows) ∧
    memories d' = memories d ∧ embeddings d' = embeddings d ∧
    a + k = Z.of_nat (length rows) ∧ Z.of_nat (size (projects d')) = Z.of_nat (size (projects d)) + a.
Proof.
  induction rows as [|r rows IH]; intros Hg Hnd; cbn [import_projects].
  { eexists. split; [apply runs_ret|]. intros b d _. exists d, 0, 0. simpl. rewrite map_union_empty.
    repeat split; lia. }
  apply Forall_cons in Hg as [(_&_&p&t&Hp&Hkey&Ht) Hg]. simpl in Hnd. apply NoDup_cons in Hnd as [Hni Hnd].
  destruct (IH Hg Hnd) as (f&Hf&Hrun). fold (row_key r) in *.
  assert (project_entry now r = Some (row_key r, ProjectRow (name p) (metadata p) t)) as He
    by (unfold project_entry; by rewrite Hp, Ht, Hkey).
  case_bool_decide as Hex.
  - exists (λ b, bind (f b) (λ ak, ret (ak.1, ak.2 + 1))). split.
    { apply (runs_bind _ _ _ (λ ak _, ret (ak.1, ak.2 + 1))); [done|]. intros [a k]. apply runs_ret. }
    intros b d [Hr Hfr]%fresh_rows_cons. rewrite bool_decide_eq_true_2 in Hr by done.
    destruct (Hrun b d Hfr) as (d'&a&k&Hfd&Hpr&Hm&Hem&Hak&Hsz).
    exists d', a, (k + 1). unfold bind. rewrite Hfd. split; [done|]. cbn [omap list_omap]. rewrite He, union_old by done.
    repeat split; [done..|simpl; lia|done].
  - rewrite Hp. exists (λ b, bind (lift_result (Ok p)) (λ p, bind (Spec.add_project p) (λ _,
      bind (f b) (λ ak, ret (ak.1 + 1, ak.2))))). split.
    { apply (runs_bind _ (λ _, lift_result (Ok p)) _ (λ p b, bind (Spec.add_project p) (λ _,
        bind (f b) (λ ak, ret (ak.1 + 1, ak.2))))); [apply runs_lift|]. intros p'.
      apply (runs_bind _ _ _ (λ _ b, bind (f b) (λ ak, ret (ak.1 + 1, ak.2)))); [apply law_add_project|].
      intros _. apply (runs_bind _ _ _ (λ ak _, ret (ak.1 + 1, ak.2))); [done|]. intros [a k]. apply runs_ret. }
    intros b d [Hr Hfr]%fresh_rows_cons. rewrite bool_decide_eq_false_2 in Hr by done.
    set (d1 := set_projects (<[row_key r := ProjectRow (name p) (metadata p) t]> (projects d)) d).
    destruct (Hrun b d1) as (d'&a&k&Hfd&Hpr&Hm&Hem&Hak&Hsz); [by apply fresh_rows_insert|].
    exists d', (a + 1), k. unfold bind, lift_result, Spec.add_project. rewrite Ht, Hkey, Hr.
    fold d1. rewrite Hfd. split; [done|]. cbn [omap list_omap]. rewrite He, union_new by done.
    simpl in *. rewrite map_size_insert_None in Hsz by done. repeat split; [done..|lia|lia].
Qed.

Lemma import_memories_run ex known rows :
  Forall (good_memory now known) rows → NoDup (map row_key rows) →
  ∃ f, st_runs (import_memories now ex rows) f ∧
  ∀ b d, fresh_rows ex (memories d) rows → known = dom (projects d) →
  ∃ d' a k w o, f b d = (d', Ok (a, k, w, o)) ∧
    memories d' = memories d ∪ list_to_map (omap (memory_entry now) rows) ∧
    projects d' = projects d ∧ embeddings d' = embeddings d ∧
    a + k + w = Z.of_nat (length rows) ∧ Z.of_nat (size (memories d')) = Z.of_nat (size (memories d)) + a ∧
    w = Z.of_nat (length (filter (λ r, is_watermark_row r = true) rows)).
Proof.
  induction rows as [|r rows IH]; intros Hg Hnd; cbn [import_memories].
  { eexists. split; [apply runs_ret|]. intros b d _ _. exists d, 0, 0, 0, 0. simpl. rewrite map_union_empty.
    repeat split; lia. }
  apply Forall_cons in Hg as [[(m&x&Hm&Hkey&Hpid&Hx) Hfk] Hg]. simpl in Hnd. apply NoDup_cons in Hnd as [Hni Hnd].
  destruct (IH Hg Hnd) as (f&Hf&Hrun). fold (row_key r) in *.
  destruct (is_watermark_row r) eqn:Hw.
  { exists (λ b, bind (f b) (λ c, let '(a, k, w, o) := c in ret (a, k, w + 1, o))). split.
    { apply (runs_bind _ _ _ (λ c _, let '(a, k, w, o) := c in ret (a, k, w + 1, o))); [done|].
      intros [[[a k] w] o]. apply runs_ret. }
    intros b d [_ Hfr]%fresh_rows_cons Hkn. destruct (Hrun b d Hfr Hkn) as (d'&a&k&w&o&Hfd&Hmm&Hpr&Hem&Hak&Hsz&Hwm).
    exists d', a, k, (w + 1), o. unfold bind. rewrite Hfd. split; [done|]. cbn [omap list_omap].
    assert (memory_entry now r = None) as -> by (unfold memory_entry; by rewrite Hw).
    rewrite filter_cons_True by done. simpl. repeat split; [done..|lia|done|lia]. }
  assert (memory_entry now r = Some (row_key r, x)) as He
    by (unfold memory_entry; by rewrite Hw, Hm, Hx, Hkey).
  case_bool_decide as Hex.
  - exists (λ b, bind (f b) (λ c, let '(a, k, w, o) := c in ret (a, k + 1, w, o))). split.
    { apply (runs_bind _ _ _ (λ c _, let '(a, k, w, o) := c in ret (a, k + 1, w, o))); [done|].
      intros [[[a k] w] o]. apply runs_ret. }
    intros b d [Hr Hfr]%fresh_rows_cons Hkn. rewrite bool_decide_eq_true_2 in Hr by done.
    destruct (Hrun b d Hfr Hkn) as (d'&a&k&w&o&Hfd&Hmm&Hpr&Hem&Hak&Hsz&Hwm).
    exists d', a, (k + 1), w, o. unfold bind. rewrite Hfd. split; [done|]. cbn [omap list_omap].
    rewrite He, union_old by done. rewrite filter_cons_False by (rewrite Hw; done).
    simpl. repeat split; [done..|lia|done|done].
  - rewrite Hm. set (finish := λ (m : MemoryItem) (c : Z * Z * Z * Z), let '(a, k, w, o) := c in
      @ret db exn _ (a + 1, k, w, if too_long (content m) then o + 1 else o)).
    exists (λ b, bind (lift_result (Ok m)) (λ m', bind (Spec.add_memory m') (λ _, bind (f b) (finish m')))). split.
    { apply (runs_bind _ (λ _, lift_result (Ok m)) _ (λ m' b, bind (Spec.add_memory m') (λ _,
        bind (f b) (finish m')))); [apply runs_lift|]. intros m'.
      apply (runs_bind _ _ _ (λ _ b, bind (f b) (finish m'))); [apply law_add_memory|].
      intros _. apply (runs_bind _ _ _ (λ c _, finish m' c)); [done|]. intros [[[a k] w] o]. apply runs_ret. }
    intros b d [Hr Hfr]%fresh_rows_cons Hkn. rewrite bool_decide_eq_false_2 in Hr by done.
    set (d1 := set_memories (<[row_key r := x]> (memories d)) (set_fts (fts_ai (row_key r) x <$> fts d) d)).
    assert (Spec.add_memory m d = (d1, Ok tt)) as Hadd.
    { unfold Spec.add_memory. rewrite Hx, Hkey, bool_decide_eq_false_2 by (rewrite Hr; by intros [? ?]).
      assert (fk_project_ok (project_id m) d = true) as ->; [|done].
      unfold fk_project_ok. rewrite Hpid. destruct (row_project r) as [p|] eqn:Hrp; [|done].
      apply bool_decide_eq_true_2. specialize (Hfk p eq_refl). rewrite Hkn in Hfk. by apply elem_of_dom in Hfk. }
    destruct (Hrun b d1) as (d'&a&k&w&o&Hfd&Hmm&Hpr&Hem&Hak&Hsz&Hwm); [by apply fresh_rows_insert|done|].
    exists d', (a + 1), k, w, (if too_long (content m) then o + 1 else o).
    unfold bind, lift_result. rewrite Hadd, Hfd. split; [done|]. cbn [omap list_omap]. rewrite He, union_new by done.
    rewrite filter_cons_False by (rewrite Hw; done).
    simpl in *. rewrite map_size_insert_None in Hsz by done. repeat split; [done..|lia|lia|done].
Qed.

Lemma fresh_rows_dom {A} (m : gmap string A) rows : fresh_rows (dom m) m rows.
Proof.
  intros r _. case_bool_decide as Hr; [by apply elem_of_dom in Hr|by apply not_elem_of_dom in Hr].
Qed.

Lemma dom_project_entries ps :
  Forall (good_project now) ps → dom (list_to_map (omap (project_entry now) ps) : gmap string project_row) =
    list_to_set (map row_key ps).
Proof.
  induction 1 as [|r ps (_&_&p&t&Hp&Hkey&Ht) _ IH]; [simpl; by rewrite dom_empty_L|]. cbn [omap list_omap].
  assert (project_entry now r = Some (row_key r, ProjectRow (name p) (metadata p) t)) as ->
    by (unfold project_entry; by rewrite Hp, Ht, Hkey).
  simpl. by rewrite dom_insert_L, IH.
Qed.

(** What a listing of everything shows. *)
Definition listed_projects d : list Project := map row_to_project (select_projects (λ _, true) d).

Lemma listed_projects_ids d : list_to_set (map project_key (listed_projects d)) = dom (projects d).
Proof.
  apply set_eq. intros k. rewrite elem_of_list_to_set, elem_of_dom. unfold listed_projects, select_projects.
  rewrite map_map. simpl. rewrite list_elem_of_fmap. split.
  - intros ([k' r]&->&Hin). apply elem_of_sort_by, list_elem_of_filter in Hin as [_ Hin].
    apply elem_of_map_to_list in Hin. simpl. eauto.
  - intros [r Hr]. exists (k, r). split; [done|]. apply elem_of_sort_by, list_elem_of_filter.
    split; [done|]. by apply elem_of_map_to_list.
Qed.

Lemma listed_memories_ids d items : lists d None items → list_to_set (map id items) = dom (memories d).
Proof.
  intros [_ Hi]. apply set_eq. intros k. rewrite elem_of_list_to_set, elem_of_dom, list_elem_of_fmap. split.
  - intros (i&->&Hin). apply Hi in Hin as (r&Hr&_). eauto.
  - intros [r Hr]. exists (row_to_memory_item (k, r)). split; [done|]. apply Hi. exists r. done.
Qed.

Lemma listed_projects_empty d : listed_projects d = [] ↔ projects d = ∅.
Proof.
  rewrite <- dom_empty_iff_L, <- listed_projects_ids. destruct (listed_projects d); [done|].
  split; [done|]. simpl. set_solver.
Qed.

Lemma first_memory_empty d items :
  Spec.list_memory (Some 1) false 0 None None None pinned_first d = (d, Ok items) → items = [] ↔ memories d = ∅.
Proof.
  unfold Spec.list_memory, gets. simpl. intros [= <-]. rewrite drop_0. unfold sql_limit. simpl.
  unfold select_memories. rewrite <- map_to_list_empty_iff. split.
  - intros Hn%map_eq_nil. destruct (sort_by _ _) as [|x l] eqn:Hs; [|done]. apply sort_by_nil_inv in Hs.
    destruct (map_to_list (memories d)) as [|[k r] ms]; [done|]. by rewrite filter_cons_True in Hs.
  - intros ->. done.
Qed.

(** Why an import is refused. *)
Definition refused (payload : json) (mode : ImportMode) d : Prop :=
  match payload, mode with
  | _, other_import_mode _ => True
  | JObj obj, m =>
      m = replace ∧ (projects d ≠ ∅ ∨ memories d ≠ ∅) ∨ validate_envelope obj (dom (projects d)) = Raise invalid
  | _, _ => True
  end.

(** The outcome of an import, as a function of the destination. *)
Definition imported d d' (counts : ImportCounts) (ps ms : list row) : Prop :=
  projects d' = projects d ∪ list_to_map (omap (project_entry now) ps) ∧
  memories d' = memories d ∪ list_to_map (omap (memory_entry now) ms) ∧
  embeddings d' = embeddings d ∧
  projects_added counts + projects_skipped counts = Z.of_nat (length ps) ∧
  memory_added counts + memory_skipped counts + watermark_dropped counts = Z.of_nat (length ms) ∧
  watermark_dropped counts = Z.of_nat (length (filter (λ r, is_watermark_row r = true) ms)) ∧
  Z.of_nat (size (projects d')) = Z.of_nat (size (projects d)) + projects_added counts ∧
  Z.of_nat (size (memories d')) = Z.of_nat (size (memories d)) + memory_added counts.

Lemma import_validated t payload obj mode ps ms :
  st_ok t → payload = JObj obj → (mode = merge ∨ mode = replace ∧ projects (st_view t) = ∅ ∧ memories (st_view t) = ∅) →
  validate_envelope obj (dom (projects (st_view t))) = Ok (ps, ms) →
  ∃ t' counts, execute_import now payload mode t = (t', Ok counts) ∧
    imported (st_view t) (st_view t') counts ps ms.
Proof.
  intros Ht -> Hmode Hval. set (d := st_view t) in *.
  destruct (validate_envelope_good now _ _ _ _ Hval) as (_&Hgp&Hnp&Hgm&Hnm).
  assert (∃ t0, (match mode with
      | replace => let* existing_projects := st_list_projects None in
          let* existing_memory := st_list_memory (Some 1) false 0 None None None pinned_first in
          match existing_projects, existing_memory with [], [] => ret tt | _, _ => raise invalid end
      | _ => ret tt end) t = (t0, Ok tt) ∧ st_ok t0 ∧ st_view t0 = d) as (t0&Hpre&Ht0&Hv0).
  { destruct Hmode as [->|(->&Hpe&Hme)]; [by exists t|].
    destruct (store_read _ _ t (listed_projects d) (law_list_projects None) Ht) as (ta&Ha&Hta&Hva); [done|].
    destruct (Spec.list_memory (Some 1) false 0 None None None pinned_first d) as [d0 [items|e]] eqn:Hl; [|done].
    assert (d0 = d) as -> by (by injection Hl).
    destruct (store_read _ _ ta items (law_list_memory (Some 1) false 0 None None None pinned_first) Hta)
      as (tb&Hb&Htb&Hvb); [intros _; by rewrite Hva|].
    exists tb. unfold bind. rewrite Ha, Hb. apply listed_projects_empty in Hpe. rewrite Hpe.
    apply (first_memory_empty _ _ Hl) in Hme as ->. split; [done|]. split; [done|by rewrite Hvb, Hva]. }
  destruct (store_read _ _ t0 (listed_projects d) (law_list_projects None) Ht0) as (t1&H1&Ht1&Hv1);
    [intros _; by rewrite Hv0|]. rewrite Hv0 in Hv1.
  destruct (list_memory_all d None) as (items&Hlist&Hitems&_).
  destruct (store_read _ _ t1 items (law_list_memory None false 0 None None None pinned_first) Ht1)
    as (t2&H2&Ht2&Hv2); [intros _; by rewrite Hv1|]. rewrite Hv1 in Hv2.
  destruct (import_projects_run (dom (projects d)) ps Hgp Hnp) as (f1&Hf1&Hrun1).
  destruct (import_memories_run (dom (memories d)) _ ms Hgm Hnm) as (f2&Hf2&Hrun2).
  destruct (Hrun1 (st_fts t2) d (fresh_rows_dom _ _)) as (d1&pa&pk&Hd1&Hp1&Hm1&He1&Hpn&Hps).
  destruct (Hrun2 (st_fts t2) d1) as (d2&ma&mk&w&o&Hd2&Hm2&Hp2&He2&Hmn&Hms&Hw).
  { rewrite Hm1. apply fresh_rows_dom. }
  { rewrite Hp1, dom_union_L, dom_project_entries by done. done. }
  set (body := λ b, bind (f1 b) (λ ak : Z * Z, bind (f2 b) (λ ms, ret (ak.1, ak.2, ms)))).
  destruct (run_op (st_transaction (
      let* (pa, pk) := import_projects now (dom (projects d)) ps in
      let* ms := import_memories now (dom (memories d)) ms in
      ret (pa, pk, ms))) (λ b, atomic (body b)) t2) as (t3&H3&_&_&Hv3); [|done|].
  { apply runs_transaction. apply (runs_bind _ _ _ (λ ak b, bind (f2 b) (λ ms, ret (ak.1, ak.2, ms)))); [done|].
    intros [a k]. apply (runs_bind _ _ _ (λ ms _, ret (a, k, ms))); [done|]. intros ms'. apply runs_ret. }
  assert (atomic (body (st_fts t2)) (st_view t2) = (d2, Ok (pa, pk, (ma, mk, w, o)))) as Hbody.
  { unfold atomic, body, bind. rewrite Hv2, Hd1. cbn [fst snd]. by rewrite Hd2. }
  rewrite Hbody in H3, Hv3. cbn [fst snd] in H3, Hv3.
  exists t3, (mkImportCounts pa pk ma mk w o). split.
  - unfold execute_import. assert (∀ X Y : SE S exn ImportCounts,
      match mode with other_import_mode _ => X | _ => Y end = Y) as -> by (by destruct Hmode as [->|(->&_)]).
    unfold bind at 1. rewrite Hpre. unfold bind at 1. rewrite H1. unfold bind at 1. rewrite H2.
    rewrite listed_projects_ids, (listed_memories_ids _ _ Hitems), Hval. unfold lift_result, bind at 1.
    unfold bind at 1. rewrite H3. done.
  - rewrite Hv3. split; [by rewrite Hp2|]. split; [by rewrite Hm2, Hm1|]. split; [congruence|]. simpl.
    rewrite Hp2, Hm1 in *. done.
Qed.

Lemma import_refused t payload mode :
  st_ok t → refused payload mode (st_view t) →
  ∃ t', execute_import now payload mode t = (t', Raise invalid) ∧ st_view t' = st_view t.
Proof.
  intros Ht Href. set (d := st_view t) in *. destruct mode as [| |other]; [..|by exists t].
  all: destruct payload as [| | | | | |obj]; try by exists t.
  all: unfold refused in Href; unfold execute_import.
  - destruct Href as [[? _]|Hval]; [done|]. unfold bind at 1. simpl ret.
    destruct (store_read _ _ t (listed_projects d) (law_list_projects None) Ht) as (t1&H1&Ht1&Hv1); [done|].
    destruct (list_memory_all d None) as (items&Hlist&Hitems&_).
    destruct (store_read _ _ t1 items (law_list_memory None false 0 None None None pinned_first) Ht1)
      as (t2&H2&Ht2&Hv2); [intros _; by rewrite Hv1|].
    exists t2. unfold ret, bind at 1. rewrite H1. unfold bind at 1. rewrite H2. rewrite listed_projects_ids, Hval.
    split; [done|]. by rewrite Hv2, Hv1.
  - destruct (store_read _ _ t (listed_projects d) (law_list_projects None) Ht) as (ta&Ha&Hta&Hva); [done|].
    destruct (Spec.list_memory (Some 1) false 0 None None None pinned_first d) as [d0 [first|e]] eqn:Hl; [|done].
    assert (d0 = d) as -> by (by injection Hl).
    destruct (store_read _ _ ta first (law_list_memory (Some 1) false 0 None None None pinned_first) Hta)
      as (tb&Hb&Htb&Hvb); [intros _; by rewrite Hva|]. rewrite Hva in Hvb. fold d in Hvb.
    unfold bind at 1. unfold bind at 1. rewrite Ha. unfold bind at 1. rewrite Hb.
    destruct (listed_projects d) as [|p ps] eqn:Hps; [|by exists tb].
    destruct first as [|m ms] eqn:Hfirst; [|by exists tb].
    apply listed_projects_empty in Hps as Hpe. apply (first_memory_empty _ _) in Hl as [Hme _].
    destruct Href as [[_ [?|?]]|Hval]; [done|by specialize (Hme eq_refl)|]. unfold ret.
    destruct (store_read _ _ tb [] (law_list_projects None) Htb) as (t1&H1&Ht1&Hv1);
      [intros _; rewrite Hvb; unfold Spec.list_projects, gets; by rewrite <- Hps|]. rewrite Hvb in Hv1.
    destruct (list_memory_all d None) as (items&Hlist&Hitems&_).
    destruct (store_read _ _ t1 items (law_list_memory None false 0 None None None pinned_first) Ht1)
      as (t2&H2&Ht2&Hv2); [intros _; by rewrite Hv1|].
    exists t2. unfold bind at 1. rewrite H1. unfold bind at 1. rewrite H2.
    rewrite <- Hps, listed_projects_ids, Hval. split; [done|]. by rewrite Hv2, Hv1.
Qed.

Lemma refused_or_validated payload mode d :
  refused payload mode d ∨
  ∃ obj ps ms, payload = JObj obj ∧ (mode = merge ∨ mode = replace ∧ projects d = ∅ ∧ memories d = ∅) ∧
    validate_envelope obj (dom (projects d)) = Ok (ps, ms).
Proof.
  destruct mode as [| |other]; [..|left; by destruct payload].
  all: destruct payload as [| | | | | |obj]; try by left.
  all: unfold refused; destruct (validate_envelope obj (dom (projects d))) as [[ps ms]|e] eqn:Hval;
    [|apply only_invalid_envelope in Hval as ->; auto].
  - right. exists obj, ps, ms. auto.
  - destruct (decide (projects d = ∅)), (decide (memories d = ∅)); [|left; auto..].
    right. exists obj, ps, ms. auto 6.
Qed.

(** C15. An import is all or nothing, and a union by id in which the destination
    wins.  It is refused with a validation error, and then writes nothing,
    exactly when the mode or the payload is unknown, [replace] meets a
    destination that is not empty, or the envelope does not validate against
    the projects present; a validated envelope always imports.  Then every row
    already here is untouched, every absent row but the git watermarks is
    inserted, no vector changes, and the counts account for every row. *)
Theorem import_is_union (payload : json) (mode : ImportMode) t :
  st_ok t →
  let d := st_view t in
  let '(t', r) := execute_import now payload mode t in
  match r with
  | Raise e => e = invalid ∧ st_view t' = d ∧ refused payload mode d
  | Ok counts => ∃ obj ps ms, payload = JObj obj ∧
      (mode = merge ∨ mode = replace ∧ projects d = ∅ ∧ memories d = ∅) ∧
      validate_envelope obj (dom (projects d)) = Ok (ps, ms) ∧ imported d (st_view t') counts ps ms
  end.
Proof.
  intros Ht d. destruct (refused_or_validated payload mode d) as [Href|(obj&ps&ms&Hp&Hm&Hv)].
  - by destruct (import_refused t payload mode Ht Href) as (t'&->&Hv).
  - destruct (import_validated t payload obj mode ps ms Ht Hp Hm Hv) as (t'&counts&->&Himp).
    by exists obj, ps, ms.
Qed.

End store.

(** ** Round trip *)
Section roundtrip.
#[local] Arguments parse_dt : simpl never.
#[local] Arguments isoformat : simpl never.
#[local] Arguments require_dt_str : simpl never.
Context {S : Type} `{HF : FTS5} `{!MemoryStorePort S}.
Context (now : datetime).
Implicit Types (d : db).

(** A database whose rows the validation accepts: ids, project names and
    sources are not empty, and timestamps are in range. *)
Definition restorable d : Prop :=
  map_Forall (λ k r, k ≠ ""%string ∧ p_name r ≠ ""%string ∧ 0 ≤ p_created_at r < datetime_end) (projects d) ∧
  map_Forall (λ k r, k ≠ ""%string ∧ r_source r ≠ ""%string ∧ 0 ≤ r_created_at r < datetime_end ∧
    ∀ u, r_updated_at r = Some u → 0 ≤ u < datetime_end) (memories d).

Definition payload_row (j : json) : row := match j with JObj r => r | _ => [] end.

Lemma iso_nonempty t : 0 ≤ t < datetime_end → isoformat (utc t) ≠ ""%string.
Proof. intros Ht Hs. pose proof (fromisoformat_isoformat t Ht) as H. rewrite Hs in H. done. Qed.

Lemma parse_iso t : 0 ≤ t < datetime_end → parse_dt (Some (jstr (isoformat (utc t)))) = Ok (Some (utc t)).
Proof.
  intros Ht. unfold parse_dt, jstr. rewrite bool_decide_eq_false_2 by (by apply iso_nonempty).
  by rewrite fromisoformat_isoformat.
Qed.

Lemma require_dt_iso r key optional t :
  jget key r = Some (jstr (isoformat (utc t))) → 0 ≤ t < datetime_end → require_dt_str r key optional = Ok tt.
Proof.
  intros Hg Ht. unfold require_dt_str, get_opt. rewrite Hg. simpl. rewrite fromisoformat_isoformat by done.
  unfold require_utc, utc. simpl. rewrite Z.sub_0_r. by rewrite bool_decide_eq_true_2.
Qed.

Definition project_row_of (kr : string * project_row) : row := payload_row (project_payload (row_to_project kr)).
Definition memory_row_of (kr : string * memory_row) : row := payload_row (memory_payload (row_to_memory_item kr)).

Lemma project_roundtrip (n : datetime) kr :
  kr.1 ≠ ""%string → p_name kr.2 ≠ ""%string → 0 ≤ p_created_at kr.2 < datetime_end →
  row_key (project_row_of kr) = kr.1 ∧ project_entry n (project_row_of kr) = Some kr ∧
  ∀ seen, kr.1 ∉ seen →
    validate_project seen (project_payload (row_to_project kr)) = Ok ({[kr.1]} ∪ seen, project_row_of kr).
Proof.
  destruct kr as [k [nm md t]]. simpl. intros Hk Hn Ht. split; [done|]. split.
  - unfold project_entry, project_of_row. cbn [project_row_of payload_row project_payload row_to_project jget
      project_key name metadata project_created_at]. simpl. rewrite parse_iso by done. simpl.
    by rewrite iso_column_utc.
  - intros seen Hs. unfold validate_project, project_payload. simpl. unfold require_str. simpl.
    rewrite !bool_decide_eq_false_2 by done. simpl.
    rewrite (require_dt_iso _ _ _ t) by done. simpl. rewrite bool_decide_eq_false_2 by done. done.
Qed.

Lemma strings_of_map l : strings_of (map jstr l) = l.
Proof. unfold strings_of. induction l as [|x l IH]; simpl; [done|]. f_equal. exact IH. Qed.
Lemma forallb_strings l : forallb is_str (map jstr l) = true.
Proof. by induction l. Qed.

Lemma memory_roundtrip (n : datetime) kr known :
  kr.1 ≠ ""%string → r_source kr.2 ≠ ""%string → 0 ≤ r_created_at kr.2 < datetime_end →
  (∀ u, r_updated_at kr.2 = Some u → 0 ≤ u < datetime_end) → r_source kr.2 ≠ WATERMARK_SOURCE →
  (∀ p, r_project_id kr.2 = Some p → p ∈ known) →
  row_key (memory_row_of kr) = kr.1 ∧ memory_entry n (memory_row_of kr) = Some kr ∧
  is_watermark_row (memory_row_of kr) = false ∧
  ∀ seen : gset string, kr.1 ∉ seen →
    validate_memory known seen (memory_payload (row_to_memory_item kr)) = Ok ({[kr.1]} ∪ seen, memory_row_of kr).
Proof.
  destruct kr as [k [c ts t pin pid src u]]. simpl. intros Hk Hs Ht Hu Hw Hp.
  assert (is_watermark_row (memory_row_of (k, MemoryRow c ts t pin pid src u)) = false) as Hwf
    by (unfold is_watermark_row; simpl; by rewrite bool_decide_eq_false_2).
  split; [done|]. split; [|split; [done|]].
  - unfold memory_entry. rewrite Hwf. unfold memory_of_row. simpl.
    rewrite parse_iso by done. simpl.
    assert (parse_dt (get_opt "updated_at" (memory_row_of (k, MemoryRow c ts t pin pid src u))) = Ok (utc <$> u)) as Hup.
    { unfold get_opt. simpl. destruct u as [u|]; simpl; [|done]. apply parse_iso. by apply Hu. }
    simpl in Hup. rewrite Hup. simpl. rewrite strings_of_map, bool_decide_eq_false_2 by done.
    unfold Spec.item_row. simpl. rewrite iso_column_utc by done. simpl.
    destruct u as [u|]; simpl; [rewrite iso_column_utc by (by apply Hu)|]; simpl; by destruct pid.
  - intros seen Hseen. unfold validate_memory, memory_payload. simpl. unfold require_str. simpl.
    rewrite bool_decide_eq_false_2 by done. simpl. rewrite (require_dt_iso _ _ _ t) by done. simpl.
    assert (∀ r, get_opt "updated_at" r = (λ x, jstr (isoformat (utc x))) <$> u →
      require_dt_str r "updated_at" true = Ok tt) as Hup.
    { intros r Hr. unfold require_dt_str. rewrite Hr. destruct u as [u|]; simpl; [|done].
      specialize (Hu u eq_refl). rewrite fromisoformat_isoformat by done. unfold require_utc, utc. simpl.
      rewrite Z.sub_0_r. by rewrite bool_decide_eq_true_2. }
    rewrite Hup by (unfold get_opt; simpl; by destruct u). simpl. rewrite forallb_strings. simpl.
    destruct pid as [p|]; simpl; [rewrite bool_decide_eq_true_2 by (by apply Hp)|]; simpl;
      by rewrite bool_decide_eq_false_2.
Qed.

Lemma validate_rows_map {A} f (g : A → json) (row_of : A → row) (key : A → string) (l : list A) (seen : gset string) :
  (∀ x s, x ∈ l → key x ∉ s → f s (g x) = Ok ({[key x]} ∪ s, row_of x)) →
  NoDup (map key l) → (∀ x, x ∈ l → key x ∉ seen) →
  validate_rows f seen (map g l) = Ok (list_to_set (map key l) ∪ seen, map row_of l).
Proof.
  revert seen. induction l as [|x l IH]; intros seen Hf Hnd Hs; simpl.
  { do 2 f_equal. set_solver. }
  simpl in Hnd. apply NoDup_cons in Hnd as [Hx Hnd].
  rewrite Hf by (first [left|apply Hs; left]). simpl. rewrite IH; [simpl; do 2 f_equal; set_solver| |done|].
  - intros y s Hy. apply Hf. by right.
  - intros y Hy. rewrite not_elem_of_union, not_elem_of_singleton. split; [|apply Hs; by right].
    intros Heq. apply Hx. rewrite <- Heq. by apply (list_elem_of_fmap_2 key).
Qed.

Lemma omap_some_on {A B} (f : B → option A) (g : A → B) (l : list A) :
  (∀ x, x ∈ l → f (g x) = Some x) → omap f (map g l) = l.
Proof.
  induction l as [|x l IH]; intros H; simpl; [done|]. rewrite H by left. f_equal. apply IH.
  intros y Hy. apply H. by right.
Qed.

(** The rows of a database in the order of a full export. *)
Definition exported_projects d : list (string * project_row) := select_projects (λ _, true) d.
Definition exported_memories d : list (string * memory_row) :=
  filter (λ kr : string * memory_row, r_source kr.2 ≠ WATERMARK_SOURCE)
    (select_memories (λ _, Spec.list_where false None None None) pinned_first_leb d).

Lemma exported_projects_perm d : exported_projects d ≡ₚ map_to_list (projects d).
Proof.
  unfold exported_projects, select_projects. rewrite sort_by_perm.
  by rewrite filter_keeps.
Qed.

Lemma exported_memories_perm d :
  exported_memories d ≡ₚ
    filter (λ kr : string * memory_row, r_source kr.2 ≠ WATERMARK_SOURCE) (map_to_list (memories d)).
Proof.
  unfold exported_memories, select_memories. rewrite sort_by_perm.
  rewrite (filter_keeps (λ kr : string * memory_row, Spec.list_where false None None None kr.2 = true)); [done|].
  intros [k r] _. unfold Spec.list_where. simpl. done.
Qed.

Lemma export_run (t : S) :
  st_ok t →
  ∃ t', execute_export now None t = (t', Ok (JObj [("format_version", JInt EXPORT_FORMAT_VERSION);
      ("exported_at", jstr (isoformat now));
      ("projects", JArr (map (λ kr, project_payload (row_to_project kr)) (exported_projects (st_view t))));
      ("memory_items", JArr (map (λ kr, memory_payload (row_to_memory_item kr))
        (exported_memories (st_view t))))]%string)) ∧
    st_ok t' ∧ st_view t' = st_view t.
Proof.
  intros Ht. unfold execute_export.
  destruct (store_read _ _ t (listed_projects (st_view t)) (law_list_projects None) Ht) as (t1&H1&Ht1&Hv1); [done|].
  destruct (store_read _ _ t1 (map row_to_memory_item (select_memories
    (λ _, Spec.list_where false None None None) pinned_first_leb (st_view t)))
    (law_list_memory None false 0 None None None pinned_first) Ht1) as (t2&H2&Ht2&Hv2).
  { intros _. unfold Spec.list_memory, gets. simpl. rewrite Hv1, drop_0. done. }
  exists t2. split; [|split; [done|congruence]]. unfold bind. rewrite H1, H2. unfold ret, envelope.
  unfold listed_projects. rewrite filter_of_map, !map_map.
  assert (filter (λ x, not_watermark (row_to_memory_item x) = true) (select_memories
    (λ _, Spec.list_where false None None None) pinned_first_leb (st_view t)) = exported_memories (st_view t)) as ->;
    [|done].
  unfold exported_memories. apply list_filter_iff. intros [k r]. unfold not_watermark. simpl.
  by rewrite negb_true_iff, bool_decide_eq_false.
Qed.

(** C9. An export restores.  Exporting a database with accepted rows and
    importing the envelope into an empty store, in either mode, reproduces every
    project and every memory exactly, timestamps included, except the rows that
    carry a git watermark, which are left out. *)
Theorem export_import_roundtrip (now' : datetime) (src dst : S) (mode : ImportMode) :
  st_ok src → wf (st_view src) → restorable (st_view src) →
  st_ok dst → projects (st_view dst) = ∅ → memories (st_view dst) = ∅ → mode = merge ∨ mode = replace →
  ∃ src' payload dst' counts,
    execute_export now None src = (src', Ok payload) ∧ st_view src' = st_view src ∧
    execute_import now' payload mode dst = (dst', Ok counts) ∧
    projects (st_view dst') = projects (st_view src) ∧
    memories (st_view dst') =
      filter (λ kr, r_source kr.2 ≠ WATERMARK_SOURCE) (memories (st_view src)) ∧
    watermark_dropped counts = 0 ∧
    projects_added counts = Z.of_nat (size (projects (st_view src))).
Proof.
  intros Hsrc Hw [Hrp Hrm] Hdst Hpe Hme Hmode. set (d := st_view src) in *.
  destruct (export_run src Hsrc) as (src'&Hexp&_&Hvs). fold d in Hexp, Hvs.
  assert (∀ kr, kr ∈ exported_projects d → projects d !! kr.1 = Some kr.2) as Hinp.
  { intros [k r]. rewrite exported_projects_perm. apply elem_of_map_to_list. }
  assert (∀ kr, kr ∈ exported_memories d → memories d !! kr.1 = Some kr.2 ∧ r_source kr.2 ≠ WATERMARK_SOURCE) as Hinm.
  { intros [k r]. rewrite exported_memories_perm. intros [Hs Hin]%list_elem_of_filter.
    by apply elem_of_map_to_list in Hin. }
  assert (NoDup (map fst (exported_projects d))) as Hndp
    by (rewrite exported_projects_perm; apply NoDup_fst_map_to_list).
  assert (NoDup (map fst (exported_memories d))) as Hndm.
  { rewrite exported_memories_perm. eapply sublist_NoDup; [apply (NoDup_fst_map_to_list (memories d))|].
    apply (fmap_sublist fst), sublist_filter. }
  set (ps := map project_row_of (exported_projects d)). set (ms := map memory_row_of (exported_memories d)).
  match type of Hexp with _ = (_, Ok (JObj ?obj)) => set (envelope := obj) in * end.
  assert (validate_envelope envelope (dom (projects (st_view dst))) = Ok (ps, ms)) as Hval.
  { unfold validate_envelope, envelope. simpl. rewrite Hpe, dom_empty_L.
    rewrite (validate_rows_map _ (λ kr, project_payload (row_to_project kr)) project_row_of fst).
    2: { intros kr s Hin Hs. apply Hinp, Hrp in Hin as (?&?&?). by apply (project_roundtrip now'). }
    2: done. 2: intros x _; apply not_elem_of_empty. simpl.
    rewrite (validate_rows_map _ (λ kr, memory_payload (row_to_memory_item kr)) memory_row_of fst).
    2: { intros kr s Hin Hs. apply Hinm in Hin as [Hin Hws]. pose proof (Hrm _ _ Hin) as (?&?&?&?).
      apply (memory_roundtrip now'); try done. intros p Hp. pose proof (wf_project d Hw _ _ Hin) as Hfk. simpl in Hfk.
      rewrite Hp in Hfk. apply bool_decide_eq_true in Hfk as [pr Hpr].
      rewrite !elem_of_union, elem_of_list_to_set. right. left. apply (list_elem_of_fmap_2 fst _ (p, pr)).
      rewrite exported_projects_perm. by apply elem_of_map_to_list. }
    2: done. 2: intros x _; apply not_elem_of_empty. done. }
  destruct (import_validated now' dst (JObj envelope) envelope mode ps ms Hdst eq_refl) as (dst'&counts&Himp&Hres);
    [by destruct Hmode as [->| ->]; auto|done|].
  exists src', (JObj envelope), dst', counts. split; [done|]. split; [done|]. split; [done|].
  destruct Hres as (Hp&Hm&_&Hpn&_&Hwd&Hps&_). rewrite Hpe in Hp, Hps. rewrite Hme in Hm. rewrite (left_id_L ∅ (∪)) in Hp. rewrite (left_id_L ∅ (∪)) in Hm.
  assert (omap (project_entry now') ps = exported_projects d) as Eps.
  { apply omap_some_on. intros kr Hin. apply Hinp, Hrp in Hin as (?&?&?). by apply project_roundtrip. }
  assert (omap (memory_entry now') ms = exported_memories d) as Ems.
  { apply omap_some_on. intros kr Hin. apply Hinm in Hin as [Hin Hws]. pose proof (Hrm _ _ Hin) as (?&?&?&?).
    apply (memory_roundtrip now' kr (default ∅ (singleton <$> r_project_id kr.2))); try done.
    intros p Hpp. rewrite Hpp. simpl. set_solver. }
  assert (list_to_map (exported_projects d) = projects d) as Elp.
  { rewrite <- (list_to_map_to_list (projects d)). apply list_to_map_proper; [done|apply exported_projects_perm]. }
  rewrite Eps, Elp in Hp. split; [done|]. split.
  { rewrite Hm, Ems, map_filter_alt. apply list_to_map_proper; [done|apply exported_memories_perm]. }
  split; [|rewrite Hp, map_size_empty in Hps; lia].
  rewrite Hwd. unfold ms. rewrite filter_of_map.
  rewrite filter_drops; [done|]. intros kr Hin. apply Hinm in Hin as [Hin Hws]. pose proof (Hrm _ _ Hin) as (?&?&?&?).
  destruct (memory_roundtrip now' kr (default ∅ (singleton <$> r_project_id kr.2))) as (_&_&Hwm&_); try done;
    [|by rewrite Hwm].
  intros p Hpp. rewrite Hpp. simpl. set_solver.
Qed.

(** One project without a name makes an export impossible to restore:
    nothing else checks the name when a project is created, but the import
    refuses the whole envelope. *)
Theorem unnamed_project_unrestorable (now' : datetime) (src dst : S) (mode : ImportMode) (k : string) (r : project_row) :
  st_ok src → st_ok dst → projects (st_view src) !! k = Some r → p_name r = ""%string →
  ∃ src' payload dst',
    execute_export now None src = (src', Ok payload) ∧
    execute_import now' payload mode dst = (dst', Raise invalid) ∧ st_view dst' = st_view dst.
Proof.
  intros Hsrc Hdst Hk Hr. destruct (export_run src Hsrc) as (src'&Hexp&_&_).
  match type of Hexp with _ = (_, Ok (JObj ?obj)) => set (envelope := obj) in * end.
  destruct (refused_or_validated (JObj envelope) mode (st_view dst)) as [Href|(obj&ps&ms&[= <-]&_&Hval)].
  - destruct (import_refused now' dst (JObj envelope) mode Hdst Href) as (dst'&Himp&Hv). eauto 6.
  - exfalso. destruct (validate_envelope_good now' _ _ _ _ Hval) as (Hps&Hgp&_).
    unfold envelope in Hps. simpl in Hps. injection Hps as Hps.
    assert (project_payload (row_to_project (k, r)) ∈ map JObj ps) as Hin.
    { rewrite <- Hps. apply (list_elem_of_fmap_2 (λ kr, project_payload (row_to_project kr)) _ (k, r)).
      rewrite exported_projects_perm. by apply elem_of_map_to_list. }
    apply list_elem_of_fmap in Hin as (row&[= <-]&Hin). rewrite Forall_forall in Hgp.
    apply Hgp in Hin as (_&Hname&_). apply Hname. simpl. unfold str_field. simpl. done.
Qed.
End roundtrip.

(** * Export and import on the sample store

    The envelope properties applied to the store of three memories. *)

#[local] Existing Instance substring_fts.

Definition noon : datetime := utc 43200000000.

(** Two rows, one of which is already present. *)
Definition sample_envelope : json :=
  JObj [("format_version", JInt 1); ("projects", JArr []);
    ("memory_items", JArr (map (λ i, JObj [("id", JStr i); ("content", JStr "text");
       ("created_at", JStr "2024-02-29T12:30:45+01:00"); ("project_id", JStr "p")]) ["m1"; "m7"]))]%string.

Lemma import_is_union_witness :
  let '(t', r) := execute_import noon sample_envelope merge sample_store in
  match r with
  | Ok counts => memory_added counts + memory_skipped counts + watermark_dropped counts = 2
  | Raise _ => False
  end.
Proof.
  pose proof (@import_is_union store substring_fts (@SqliteStore substring_fts) noon sample_envelope merge
    sample_store ready_sample) as H. cbv zeta in H.
  destruct (execute_import noon sample_envelope merge sample_store) as [t' r] eqn:Hr.
  assert (Hr' : (execute_import noon sample_envelope merge sample_store).2 = r) by (rewrite Hr; reflexivity).
  vm_compute in Hr'. destruct r as [counts|e]; [|discriminate Hr'].
  injection Hr' as <-. reflexivity.
Defined.

Definition sample_row (m : MemoryItem) : memory_row :=
  MemoryRow (content m) (tags m) (wall (created_at m)) (pinned m) (project_id m) (source m) None.

Lemma restorable_sample : restorable (view sample_store).
Proof.
  assert (map_to_list (projects (view sample_store)) = [("p"%string, ProjectRow "Notes" [] 0)]) as Hp
    by (vm_compute; reflexivity).
  assert (map_to_list (memories (view sample_store)) =
    map (λ m, (id m, sample_row m)) [sample_memory "m3" 30 false; sample_memory "m1" 10 false; sample_memory "m2" 20 true])
    as Hm by (vm_compute; reflexivity).
  split; apply map_Forall_to_list; rewrite ?Hp, ?Hm; repeat constructor; simpl; try done;
    unfold datetime_end; try lia; try (intros u; discriminate).
Qed.

Lemma export_import_roundtrip_witness :
  ∃ payload dst' counts, (execute_export noon None sample_store).2 = Ok payload ∧
    execute_import noon payload replace fresh_store = (dst', Ok counts) ∧
    projects (view dst') = projects (view sample_store) ∧ projects_added counts = 1.
Proof.
  destruct (@export_import_roundtrip store substring_fts (@SqliteStore substring_fts) noon noon sample_store fresh_store replace
    ready_sample wf_sample restorable_sample ready_fresh eq_refl eq_refl (or_intror eq_refl))
    as (src'&payload&dst'&counts&He&_&Hi&Hp&_&_&Hn).
  exists payload, dst', counts. split; [by rewrite He|]. split; [exact Hi|]. split; [exact Hp|]. exact Hn.
Defined.

(** The sample store after a project without a name was added. *)
Definition unnamed_store : store :=
  run_calls [CAddProject (mkProject "q" "" [] (utc 50))] sample_store.

Lemma unnamed_project_unrestorable_witness :
  ∃ payload, (execute_export noon None unnamed_store).2 = Ok payload ∧
    (execute_import noon payload merge fresh_store).2 = Raise invalid.
Proof.
  assert (Hr : ready unnamed_store) by (vm_compute; repeat split; try done; congruence).
  destruct (@unnamed_project_unrestorable store substring_fts (@SqliteStore substring_fts) noon noon unnamed_store fresh_store merge
    "q" (ProjectRow "" [] 50) Hr ready_fresh ltac:(vm_compute; reflexivity) eq_refl) as (src'&payload&dst'&He&Hi&_).
  exists payload. split; [by rewrite He|by rewrite Hi].
Defined.
