(* ===== verification/Maintenance.v ===== *)
(** * The maintenance loop

    [services/maintenance_loop.py]: an asyncio task that ticks, spawns a task
    per due job, and runs the jobs one at a time under two locks; the schedule
    file; the job list built from the configuration.

    A run of the loop is a list of events, one per stretch of code between two
    awaits: a tick, a spawned task taking its job's lock, taking the global
    lock and starting its handler, the handler returning, the schedule file
    written and the locks released, a cancellation.  [step] says what each does
    and when it is possible.  [asyncio.Lock] hands a freed lock to the first
    waiter; the model lets any waiter take it, which allows every run of the
    program.  A handler is outside code: an event carries its result.  Log lines
    and run durations are left out; a metric observation is its job and
    outcome. *)

From S2P Require Import Prelude PyStr PyText Domain DateTime PyNum.
Local Open Scope Z_scope.
Local Open Scope prog_scope.

(** ** Jobs *)

(** [maintenance_loop.py:81-111 JobState] The two locks name the task that
    holds them. *)
Record JobState := mkJobState {
  job_name : string;
  interval_seconds : Z;
  enabled : bool;
  last_run_at : option datetime;
  last_success_at : option datetime;
  last_outcome : option string;
  last_error : option string;
  runs_total : Z;
  runs_ok : Z;
  runs_failed : Z;
  runs_skipped_overlap : Z;
  job_lock : option nat;
  started_at : option datetime;
  queued_logged : bool;
  overlap_logged : bool;
}.

Definition new_job (n : string) (interval : Z) (on : bool) : JobState :=
  mkJobState n interval on None None None None 0 0 0 0 None None false false.

(** A job with other locks and slot flags, and one with other results. *)
Definition set_slot (j : JobState) (lock : option nat) (started : option datetime) (queued overlap : bool) : JobState :=
  mkJobState (job_name j) (interval_seconds j) (enabled j) (last_run_at j) (last_success_at j) (last_outcome j)
    (last_error j) (runs_total j) (runs_ok j) (runs_failed j) (runs_skipped_overlap j) lock started queued overlap.
Definition set_run (j : JobState) (run_at success_at : option datetime) (outcome error : option string)
    (total ok failed overlaps : Z) : JobState :=
  mkJobState (job_name j) (interval_seconds j) (enabled j) run_at success_at outcome error total ok failed overlaps
    (job_lock j) (started_at j) (queued_logged j) (overlap_logged j).

(** ** Tasks and the loop *)

(** Where an [_invoke] task is: not holding its job's lock yet, waiting for the
    global lock, awaiting its handler, awaiting the schedule write. *)
Inductive phase := created | queued | running | persisting.
#[global] Instance phase_eq_dec : EqDecision phase.
Proof. solve_decision. Defined.

Record task := mkTask { task_job : string; task_phase : phase; task_inflight : bool }.

Inductive metric := m_success | m_partial | m_failure | m_overlap | m_cancel.
#[global] Instance metric_eq_dec : EqDecision metric.
Proof. solve_decision. Defined.

(** What the schedule file holds: nothing, text that is not JSON, a value. *)
Inductive state_file := absent | garbage | holds (j : json).

(** [maintenance_loop.py:117-139 MaintenanceLoop] *)
Record loop := mkLoop {
  order : list string;
  jobs : gmap string JobState;
  handlers : gset string;
  persistent : bool;
  file : state_file;
  started : bool;
  stop_event : bool;
  global_lock : option nat;
  running_job : option string;
  tasks : gmap nat task;
  next_task : nat;
  observed : list (string * metric);
}.

(** [maintenance_loop.py:117-139 __init__] [{j.name: j for j in jobs}] *)
Definition new_loop (js : list JobState) (hs : gset string) (persists : bool) (f : state_file) : loop :=
  mkLoop (rev (remove_dups (rev (map job_name js)))) (list_to_map (rev (map (λ j, (job_name j, j)) js))) hs persists f
    false false None None ∅ 0 [].

Definition set_jobs (s : loop) (js : gmap string JobState) : loop :=
  mkLoop (order s) js (handlers s) (persistent s) (file s) (started s) (stop_event s) (global_lock s)
    (running_job s) (tasks s) (next_task s) (observed s).
Definition set_job (s : loop) (n : string) (j : JobState) : loop := set_jobs s (<[n := j]> (jobs s)).
Definition set_global (s : loop) (g : option nat) (r : option string) : loop :=
  mkLoop (order s) (jobs s) (handlers s) (persistent s) (file s) (started s) (stop_event s) g r
    (tasks s) (next_task s) (observed s).
Definition set_tasks (s : loop) (ts : gmap nat task) : loop :=
  mkLoop (order s) (jobs s) (handlers s) (persistent s) (file s) (started s) (stop_event s) (global_lock s)
    (running_job s) ts (next_task s) (observed s).
Definition set_file (s : loop) (f : state_file) : loop :=
  mkLoop (order s) (jobs s) (handlers s) (persistent s) f (started s) (stop_event s) (global_lock s)
    (running_job s) (tasks s) (next_task s) (observed s).
Definition set_started (s : loop) (on stopping : bool) : loop :=
  mkLoop (order s) (jobs s) (handlers s) (persistent s) (file s) on stopping (global_lock s)
    (running_job s) (tasks s) (next_task s) (observed s).
(** [maintenance_loop.py:141-149 _safe_observe_job] *)
Definition observe (s : loop) (n : string) (m : metric) : loop :=
  mkLoop (order s) (jobs s) (handlers s) (persistent s) (file s) (started s) (stop_event s) (global_lock s)
    (running_job s) (tasks s) (next_task s) ((n, m) :: observed s).

(** ** The schedule file *)

(** [maintenance_loop.py:60-73 parse_state_timestamp] *)
Definition parse_state_timestamp (value : json) : option datetime :=
  match value with
  | JStr s =>
      match fromisoformat s with
      | Some d => Some (match utcoff d with Some _ => d | None => Datetime (wall d) (Some 0) end)
      | None => None
      end
  | _ => None
  end.

(** [maintenance_loop.py:382-399 _parse_timestamp_map] *)
Definition parse_timestamp_map (raw : list (string * json)) (key : string) : gmap string datetime :=
  match jget key raw with
  | Some (JObj entries) =>
      list_to_map (omap (λ '(n, iso), (n,.) <$> parse_state_timestamp iso) entries)
  | _ => ∅
  end.

Definition first_some {A} (a b : option A) : option A := match a with Some _ => a | None => b end.
Definition restore_stamps (run_at success_at : gmap string datetime) (n : string) (j : JobState) : JobState :=
  set_run j (first_some (run_at !! n) (last_run_at j)) (first_some (success_at !! n) (last_success_at j))
    (last_outcome j) (last_error j) (runs_total j) (runs_ok j) (runs_failed j) (runs_skipped_overlap j).

(** [maintenance_loop.py:401-440 _load_state] *)
Definition load_state (s : loop) : loop :=
  if negb (persistent s) then s
  else match file s with
  | holds (JObj raw) =>
      let run_at := parse_timestamp_map raw "last_run_at" in
      let success_at := parse_timestamp_map raw "last_success_at" in
      set_jobs s (map_imap (λ n j, Some (restore_stamps run_at success_at n j)) (jobs s))
  | _ => s
  end.

Definition stamp_block (f : JobState → option datetime) (s : loop) : json :=
  JObj (omap (λ n, j ← jobs s !! n; t ← f j; Some (job_name j, JStr (isoformat t))) (order s)).

(** [maintenance_loop.py:458-465 _persist_state] *)
Definition state_payload (s : loop) : json :=
  JObj [("last_run_at", stamp_block last_run_at s); ("last_success_at", stamp_block last_success_at s)]%string.

(** [maintenance_loop.py:442-473 _persist_state] [written] is whether the
    write succeeded. *)
Definition persist_state (written : bool) (s : loop) : loop :=
  if persistent s && written then set_file s (holds (state_payload s)) else s.

(** ** Ticks *)

(** [now - then] of two aware timestamps, in microseconds. *)
Definition elapsed (now then_ : datetime) : Z := instant now - instant then_.

(** [maintenance_loop.py:476-479 _is_due] *)
Definition is_due (j : JobState) (now : datetime) : result exn bool :=
  match last_run_at j with
  | None => Ok true
  | Some t => let? d := timedelta_seconds (interval_seconds j) in Ok (d <=? elapsed now t)
  end.

(** [maintenance_loop.py:257-286 _note_in_flight] *)
Definition note_in_flight (n : string) (j : JobState) (now : datetime) (s : loop) : result exn loop :=
  match started_at j with
  | None => Ok (set_job s n (set_slot j (job_lock j) None true (overlap_logged j)))
  | Some t =>
      if overlap_logged j then Ok s
      else
        let? d := timedelta_seconds (interval_seconds j) in
        if elapsed now t <? d then Ok s
        else
          let j' := set_slot j (job_lock j) (started_at j) (queued_logged j) true in
          Ok (observe (set_job s n (set_run j' (last_run_at j) (last_success_at j) (Some "skipped_overlap"%string)
            (last_error j) (runs_total j) (runs_ok j) (runs_failed j) (runs_skipped_overlap j + 1))) n m_overlap)
  end.

Definition add_task (n : string) (inflight : bool) (s : loop) : loop :=
  mkLoop (order s) (jobs s) (handlers s) (persistent s) (file s) (started s) (stop_event s) (global_lock s)
    (running_job s) (<[next_task s := mkTask n created inflight]> (tasks s)) (S (next_task s)) (observed s).
(** [maintenance_loop.py:288-291 _spawn] *)
Definition spawn (n : string) (s : loop) : loop := add_task n true s.

(** [maintenance_loop.py:226-255 _run] One iteration: an exception ends it and
    is logged. *)
Fixpoint tick_jobs (now : datetime) (names : list string) (s : loop) : loop :=
  match names with
  | [] => s
  | n :: ns =>
      match jobs s !! n with
      | None => tick_jobs now ns s
      | Some j =>
          if negb (enabled j) then tick_jobs now ns s
          else match is_due j now with
          | Raise _ => s
          | Ok false => tick_jobs now ns s
          | Ok true =>
              match job_lock j with
              | Some _ =>
                  match note_in_flight n j now s with
                  | Raise _ => s
                  | Ok s' => tick_jobs now ns s'
                  end
              | None => tick_jobs now ns (spawn n s)
              end
          end
      end
  end.

(** ** Runs *)

Inductive handler_outcome := returned (value : json) | raised (msg : string) | cancelled.

(** [isinstance(result, Mapping) and bool(result.get(key))] *)
Definition mapping_flag (key : string) (value : json) : bool :=
  match value with
  | JObj r => match jget key r with Some v => truthy v | None => false end
  | _ => false
  end.
(** [maintenance_loop.py:482-484 _job_result_is_partial] *)
Definition job_result_is_partial (value : json) : bool := mapping_flag "failed" value.
(** [maintenance_loop.py:487-489 _job_result_is_skipped] *)
Definition job_result_is_skipped (value : json) : bool := mapping_flag "skipped" value.

(** [maintenance_loop.py:334-379 _invoke] *)
Definition record_outcome (o : handler_outcome) (now : datetime) (j : JobState) : JobState * metric :=
  let total := runs_total j + 1 in
  match o with
  | returned value =>
      if job_result_is_skipped value then
        (set_run j (Some now) (last_success_at j) (Some "skipped"%string) None total (runs_ok j) (runs_failed j)
           (runs_skipped_overlap j), m_overlap)
      else
        (set_run j (Some now) (Some now) (Some "ok"%string) None total (runs_ok j + 1) (runs_failed j)
           (runs_skipped_overlap j), if job_result_is_partial value then m_partial else m_success)
  | raised msg =>
      (set_run j (Some now) (last_success_at j) (Some "failed"%string) (Some msg) total (runs_ok j)
         (runs_failed j + 1) (runs_skipped_overlap j), m_failure)
  | cancelled =>
      (set_run j (Some now) (last_success_at j) (last_outcome j) (last_error j) total (runs_ok j) (runs_failed j)
         (runs_skipped_overlap j), m_cancel)
  end.

(** [maintenance_loop.py:316-331 _invoke] No handler of that name. *)
Definition record_missing (now : datetime) (j : JobState) : JobState * metric :=
  record_outcome (raised "no handler registered") now j.

(** [maintenance_loop.py:301-306 _run_slot] Both locks are held. *)
Definition begin_slot (now : datetime) (j : JobState) : JobState :=
  set_slot j (job_lock j) (Some now) false (overlap_logged j).
(** [maintenance_loop.py:307-310 _run_slot] *)
Definition end_slot (j : JobState) : JobState := set_slot j None None (queued_logged j) false.

(** [maintenance_loop.py:293-310 _run_slot] A task leaves the slot: the flags
    are reset, both locks are released and the task ends. *)
Definition leave_slot (t : nat) (n : string) (j : JobState) (s : loop) : loop :=
  set_global (set_tasks (set_job s n (end_slot j)) (delete t (tasks s))) None None.

Definition valid_now (now : Z) : bool := bool_decide (0 ≤ now < datetime_end).
Definition set_phase (p : phase) (tk : task) : task := mkTask (task_job tk) p (task_inflight tk).

Inductive event :=
| EvStart
| EvTick (now : Z)
| EvRunOnce (n : string)
| EvTakeJob (t : nat)
| EvTakeGlobal (t : nat) (now later : Z)
| EvHandler (t : nat) (o : handler_outcome) (now : Z)
| EvWritten (t : nat) (written : bool)
| EvCancel (t : nat) (written : bool)
| EvStop
| EvStopped.

(** [maintenance_loop.py:178-191 start] *)
Definition start (s : loop) : loop := if started s then s else set_started (load_state s) true false.

(** [maintenance_loop.py:211-224 run_once] Up to its first await. *)
Definition run_once (n : string) (s : loop) : result exn loop :=
  match jobs s !! n with None => Raise KeyError | Some _ => Ok (add_task n false s) end.

(** [maintenance_loop.py:301-301 _run_slot] A task takes its job's lock. *)
Definition take_job (t : nat) (s : loop) : option loop :=
  tk ← tasks s !! t;
  j ← jobs s !! task_job tk;
  match task_phase tk, job_lock j with
  | created, None =>
      Some (set_tasks (set_job s (task_job tk) (set_slot j (Some t) (started_at j) (queued_logged j) (overlap_logged j)))
        (<[t := set_phase queued tk]> (tasks s)))
  | _, _ => None
  end.

(** [maintenance_loop.py:312-335 _invoke] A task takes the global lock and
    starts its handler, or records that there is none and ends. *)
Definition take_global (t : nat) (now later : datetime) (s : loop) : option loop :=
  tk ← tasks s !! t;
  j ← jobs s !! task_job tk;
  match task_phase tk, global_lock s with
  | queued, None =>
      let n := task_job tk in
      let j1 := begin_slot now j in
      if bool_decide (n ∈ handlers s) then
        Some (set_global (set_tasks (set_job s n j1) (<[t := set_phase running tk]> (tasks s))) (Some t) (Some n))
      else
        let (j2, m) := record_missing later j1 in
        Some (observe (leave_slot t n j2 s) n m)
  | _, _ => None
  end.

(** [maintenance_loop.py:312-380 _invoke] The handler returned, raised or was
    cancelled. *)
Definition handler_done (t : nat) (o : handler_outcome) (now : datetime) (s : loop) : option loop :=
  tk ← tasks s !! t;
  j ← jobs s !! task_job tk;
  match task_phase tk with
  | running =>
      let (j1, m) := record_outcome o now j in
      Some (observe (set_tasks (set_job s (task_job tk) j1) (<[t := set_phase persisting tk]> (tasks s))) (task_job tk) m)
  | _ => None
  end.

(** [maintenance_loop.py:379-380 _invoke] The schedule write ended; the task
    leaves the slot. *)
Definition written_done (t : nat) (written : bool) (s : loop) : option loop :=
  tk ← tasks s !! t;
  j ← jobs s !! task_job tk;
  match task_phase tk with
  | persisting => Some (leave_slot t (task_job tk) j (persist_state written s))
  | _ => None
  end.

(** [maintenance_loop.py:193-209 stop] A cancelled task that is not in its
    handler: it gives back what it holds. *)
Definition cancel (t : nat) (written : bool) (s : loop) : option loop :=
  tk ← tasks s !! t;
  j ← jobs s !! task_job tk;
  match task_phase tk with
  | created => Some (set_tasks s (delete t (tasks s)))
  | queued =>
      Some (set_tasks (set_job s (task_job tk) (set_slot j None (started_at j) (queued_logged j) (overlap_logged j)))
        (delete t (tasks s)))
  | running => None
  | persisting => written_done t written s
  end.

Definition step (s : loop) (e : event) : option loop :=
  match e with
  | EvStart => Some (start s)
  | EvTick now =>
      if started s && negb (stop_event s) && valid_now now then Some (tick_jobs (utc now) (order s) s) else None
  | EvRunOnce n => match run_once n s with Ok s' => Some s' | Raise _ => None end
  | EvTakeJob t => take_job t s
  | EvTakeGlobal t now later =>
      if valid_now now && valid_now later then take_global t (utc now) (utc later) s else None
  | EvHandler t o now => if valid_now now then handler_done t o (utc now) s else None
  | EvWritten t w => written_done t w s
  | EvCancel t w => cancel t w s
  | EvStop => if started s then Some (set_started s true true) else None
  | EvStopped =>
      if stop_event s && bool_decide (map_Forall (λ _ tk, task_inflight tk = false) (tasks s))
      then Some (set_started s false true) else None
  end.

Fixpoint run (s : loop) (es : list event) : option loop :=
  match es with
  | [] => Some s
  | e :: es' => s' ← step s e; run s' es'
  end.

(** ** Status *)

Definition opt_str (o : option string) : json := match o with Some s => JStr s | None => JNull end.
Definition opt_stamp (o : option datetime) : json := opt_str (isoformat <$> o).
(** [maintenance_loop.py:157-176 status] *)
Definition status_entry (j : JobState) : json :=
  JObj [("name", JStr (job_name j)); ("interval_seconds", JInt (interval_seconds j)); ("enabled", JBool (enabled j));
    ("last_run_at", opt_stamp (last_run_at j)); ("last_success_at", opt_stamp (last_success_at j));
    ("last_outcome", opt_str (last_outcome j)); ("last_error", opt_str (last_error j));
    ("runs_total", JInt (runs_total j)); ("runs_ok", JInt (runs_ok j)); ("runs_failed", JInt (runs_failed j));
    ("runs_skipped_overlap", JInt (runs_skipped_overlap j))]%string.
Definition status (s : loop) : list json := map status_entry (omap (λ n, jobs s !! n) (order s)).

(** ** The job list *)

(** [maintenance_loop.py:497-507 _DEFAULT_JOBS] *)
Definition DEFAULT_JOBS : list (string * Z * bool) :=
  [("db_vacuum", 7 * 24 * 3600, true); ("db_integrity_check", 7 * 24 * 3600, true);
   ("embedding_backfill", 6 * 3600, true); ("db_backup", 24 * 3600, true);
   ("git_onboard_resync", 3600, false); ("cloud_backup", 24 * 3600, true)]%string.
Definition default_name (d : string * Z * bool) : string := d.1.1.

(** [maintenance_loop.py:541-551 load_jobs] The entries that name a known job;
    the last one of a name counts. *)
Definition job_overrides (entries : list json) : gmap string (list (string * json)) :=
  foldl (λ m e, match e with
    | JObj r =>
        match jget "name" r with
        | Some (JStr n) => if bool_decide (n ∈ map default_name DEFAULT_JOBS) then <[n := r]> m else m
        | _ => m
        end
    | _ => m
    end) ∅ entries.

(** [maintenance_loop.py:560-573 load_jobs] *)
Definition interval_of (raw : json) : result exn Z :=
  let attempt := match raw with JBool _ => Raise TypeError | _ => int_of_json raw end in
  match attempt with
  | Ok z => Ok (if z <=? 0 then 3600 else z)
  | Raise TypeError | Raise ValueError => Ok 3600
  | Raise e => Raise e
  end.

(** [{**default, **override}.get(key)] *)
Definition merged (over : list (string * json)) (key : string) (default : json) : json :=
  match jget key over with Some v => v | None => default end.

(** [maintenance_loop.py:553-580 load_jobs] *)
Fixpoint jobs_of (overrides : gmap string (list (string * json))) (ds : list (string * Z * bool))
    : result exn (list JobState) :=
  match ds with
  | [] => Ok []
  | (n, interval, on) :: ds' =>
      let entry := default [] (overrides !! n) in
      let? i := interval_of (merged entry "interval_seconds" (JInt interval)) in
      let? js := jobs_of overrides ds' in
      Ok (new_job n i (truthy (merged entry "enabled" (JBool on))) :: js)
  end.

(** [maintenance_loop.py:538-546 load_jobs] The entries of [maintenance.jobs]. *)
Definition config_entries (file_config : list (string * json)) : list json :=
  match jget "maintenance" file_config with
  | Some (JObj r) => match jget "jobs" r with Some (JArr l) => l | _ => [] end
  | _ => []
  end.

(** [maintenance_loop.py:515-580 load_jobs] *)
Definition load_jobs (file_config : list (string * json)) : result exn (list JobState) :=
  jobs_of (job_overrides (config_entries file_config)) DEFAULT_JOBS.
