(* ===== verification/MaintenanceProps.v ===== *)
(** * Properties of the maintenance loop

    Mutual exclusion and the accounting of runs as invariants of every
    reachable state; progress and termination of the tasks in flight; what a
    tick spawns; the schedule across a restart; the job list. *)

From S2P Require Import Prelude PyStr PyText Domain DateTime PyNum Maintenance.
Local Open Scope Z_scope.
Local Open Scope prog_scope.

Definition holds_job (tk : task) : bool := negb (bool_decide (task_phase tk = created)).
Definition holds_global (tk : task) : bool :=
  match task_phase tk with running | persisting => true | _ => false end.

Lemma holds_global_job tk : holds_global tk = true → holds_job tk = true.
Proof. unfold holds_global, holds_job. by destruct (task_phase tk). Qed.

(** ** The locks *)

(** A job's lock and the global lock name exactly the tasks that are past
    taking them, and the job's flags follow the slot. *)
Record slots_ok (s : loop) : Prop := {
  ok_fresh t : (next_task s ≤ t)%nat → tasks s !! t = None;
  ok_known t tk : tasks s !! t = Some tk → is_Some (jobs s !! task_job tk);
  ok_name n j : jobs s !! n = Some j → job_name j = n;
  ok_task_job t tk j : tasks s !! t = Some tk → holds_job tk = true → jobs s !! task_job tk = Some j →
    job_lock j = Some t;
  ok_job_task n j t : jobs s !! n = Some j → job_lock j = Some t →
    ∃ tk, tasks s !! t = Some tk ∧ task_job tk = n ∧ holds_job tk = true;
  ok_task_global t tk : tasks s !! t = Some tk → holds_global tk = true →
    global_lock s = Some t ∧ running_job s = Some (task_job tk);
  ok_global_task t : global_lock s = Some t → ∃ tk, tasks s !! t = Some tk ∧ holds_global tk = true;
  ok_started n j : jobs s !! n = Some j → is_Some (started_at j) →
    ∃ t tk, tasks s !! t = Some tk ∧ task_job tk = n ∧ holds_global tk = true;
  ok_running t tk j : tasks s !! t = Some tk → holds_global tk = true → jobs s !! task_job tk = Some j →
    is_Some (started_at j);
  ok_overlap n j : jobs s !! n = Some j → overlap_logged j = true → is_Some (started_at j);
}.

Ltac lookups :=
  repeat match goal with
  | H : <[?i := _]> _ !! ?i = Some _ |- _ => rewrite lookup_insert_eq in H; injection H as <-
  | H : <[?i := _]> _ !! ?j = Some _ |- _ =>
      apply lookup_insert_Some in H as [[<- <-]|[? H]]
  | H : delete _ _ !! _ = Some _ |- _ => apply lookup_delete_Some in H as [? H]
  end.

(** A job record with the same name, lock and flags. *)
Definition same_slot (j j' : JobState) : Prop :=
  job_name j' = job_name j ∧ job_lock j' = job_lock j ∧ started_at j' = started_at j ∧
  (overlap_logged j' = true → overlap_logged j = true ∨ is_Some (started_at j)).

Lemma slots_set_job s n j j' :
  slots_ok s → jobs s !! n = Some j → same_slot j j' → slots_ok (set_job s n j').
Proof.
  intros [? Hk Hn Htj Hjt Htg Hgt Hs Hr Ho] Hj (E1&E2&E3&E4). constructor; simpl; try done.
  - intros t tk Ht. rewrite lookup_insert_is_Some'. right. by eapply Hk.
  - intros m k Hm. lookups; [rewrite E1|]; by apply Hn.
  - intros t tk k Ht Hh Hm. apply lookup_insert_Some in Hm as [[Em <-]|[? Hm]]; [|by eapply Htj].
    rewrite E2. eapply Htj; [done..|]. by rewrite <- Em.
  - intros m k t Hm. lookups; [rewrite E2|]; by apply Hjt.
  - intros m k Hm. lookups; [rewrite E3|]; by apply Hs.
  - intros t tk k Ht Hh Hm. apply lookup_insert_Some in Hm as [[Em <-]|[? Hm]]; [|by eapply Hr].
    rewrite E3. eapply Hr; [done..|]. by rewrite <- Em.
  - intros m k Hm. lookups; [rewrite E3; intros [?|?]%E4; [by eapply Ho|done]|by eapply Ho].
Qed.

Lemma slots_observe s n m : slots_ok s → slots_ok (observe s n m).
Proof. intros []. constructor; assumption. Qed.

Lemma slots_set_file s f : slots_ok s → slots_ok (set_file s f).
Proof. intros []. constructor; assumption. Qed.

Lemma slots_set_started s a b : slots_ok s → slots_ok (set_started s a b).
Proof. intros []. constructor; assumption. Qed.

Lemma slots_persist w s : slots_ok s → slots_ok (persist_state w s).
Proof. unfold persist_state. case_match; [apply slots_set_file|done]. Qed.

Lemma slots_add_task n fl s : slots_ok s → is_Some (jobs s !! n) → slots_ok (add_task n fl s).
Proof.
  intros [Hf Hk Hn Htj Hjt Htg Hgt Hs Hr Ho] Hj.
  assert (tasks s !! next_task s = None) as Hnew by (by apply Hf).
  assert (∀ P : task → Prop, ∀ t, (∃ tk, tasks s !! t = Some tk ∧ P tk) →
    ∃ tk, <[next_task s := mkTask n created fl]> (tasks s) !! t = Some tk ∧ P tk) as Hkeep.
  { intros P t (tk&Ht&HP). exists tk. split; [|done]. rewrite lookup_insert_ne; [done|congruence]. }
  constructor; simpl; try done.
  - intros t Ht. rewrite lookup_insert_ne by lia. apply Hf. lia.
  - intros t tk Ht. lookups; [done|by eapply Hk].
  - intros t tk j Ht. lookups; [done|by eapply Htj].
  - intros m j t Hm Hl. apply Hkeep. by eapply Hjt.
  - intros t tk Ht. lookups; [done|by eapply Htg].
  - intros t Hg. apply Hkeep. by apply Hgt.
  - intros m j Hm Hst. destruct (Hs m j Hm Hst) as (t&H). exists t. by apply Hkeep.
  - intros t tk j Ht. lookups; [done|by eapply Hr].
Qed.

(** One task changes phase and its job's record follows. *)
Lemma slots_take_job t s s' : slots_ok s → take_job t s = Some s' → slots_ok s'.
Proof.
  intros [Hf Hk Hn Htj Hjt Htg Hgt Hs Hr Ho] H. unfold take_job in H.
  destruct (tasks s !! t) as [tk|] eqn:Ht; [|done]. simpl in H.
  destruct (jobs s !! task_job tk) as [j|] eqn:Hj; [|done]. simpl in H.
  destruct (task_phase tk) eqn:Hp; try done. destruct (job_lock j) eqn:Hl; [done|]. injection H as <-.
  assert (holds_global tk = false) as Hng by (unfold holds_global; by rewrite Hp).
  assert (∀ u uk, tasks s !! u = Some uk → task_job uk = task_job tk → holds_job uk = false) as Hfree.
  { intros u uk Hu Hju. destruct (holds_job uk) eqn:E; [|done]. rewrite <- Hju in Hj.
    pose proof (Htj u uk j Hu E Hj). congruence. }
  constructor; simpl.
  - intros u Hu. rewrite lookup_insert_ne; [by apply Hf|]. intros ->. by rewrite Hf in Ht.
  - intros u uk Hu. rewrite lookup_insert_is_Some'. lookups; [by left|right; by eapply Hk].
  - intros m k Hm. lookups; [by apply (Hn _ j)|by apply Hn].
  - intros u uk k Hu Hh Hm. apply lookup_insert_Some in Hu as [[<- <-]|[? Hu]].
    + simpl in Hm. by lookups.
    + apply lookup_insert_Some in Hm as [[Em <-]|[? Hm]]; [|by eapply Htj].
      by rewrite (Hfree u uk) in Hh.
  - intros m k u Hm Hlk. apply lookup_insert_Some in Hm as [[<- <-]|[? Hm]].
    + simpl in Hlk. injection Hlk as <-. exists (set_phase queued tk). by rewrite lookup_insert_eq.
    + destruct (Hjt m k u Hm Hlk) as (uk&Hu&Hju&Hh). exists uk. split; [|done].
      rewrite lookup_insert_ne; [done|congruence].
  - intros u uk Hu Hg. lookups; [done|by eapply Htg].
  - intros u Hg. destruct (Hgt u Hg) as (uk&Hu&Hh). exists uk. split; [|done].
    rewrite lookup_insert_ne; [done|congruence].
  - intros m k Hm Hst. assert (∃ u uk, tasks s !! u = Some uk ∧ task_job uk = m ∧ holds_global uk = true)
      as (u&uk&Hu&Hju&Hh) by (lookups; [by apply (Hs (task_job tk) j)|by eapply Hs]).
    exists u, uk. split; [|done]. rewrite lookup_insert_ne; [done|congruence].
  - intros u uk k Hu Hg Hm. apply lookup_insert_Some in Hu as [[<- <-]|[? Hu]]; [done|].
    apply lookup_insert_Some in Hm as [[Em <-]|[? Hm]]; [|by eapply Hr].
    apply holds_global_job in Hg. by rewrite (Hfree u uk) in Hg.
  - intros m k Hm. lookups; [by apply (Ho (task_job tk) j)|by eapply Ho].
Qed.

Lemma slots_take_global t now s tk j :
  slots_ok s → tasks s !! t = Some tk → jobs s !! task_job tk = Some j → task_phase tk = queued →
  global_lock s = None →
  slots_ok (set_global (set_tasks (set_job s (task_job tk) (begin_slot now j)) (<[t := set_phase running tk]> (tasks s)))
    (Some t) (Some (task_job tk))).
Proof.
  intros [Hf Hk Hn Htj Hjt Htg Hgt Hs Hr Ho] Ht Hj Hp Hg.
  assert (holds_job tk = true) as Hh by (unfold holds_job; by rewrite Hp).
  pose proof (Htj t tk j Ht Hh Hj) as Hl.
  assert (∀ u uk, tasks s !! u = Some uk → holds_global uk = false) as Hnone.
  { intros u uk Hu. destruct (holds_global uk) eqn:E; [|done]. destruct (Htg u uk Hu E). congruence. }
  constructor; simpl.
  - intros u Hu. rewrite lookup_insert_ne; [by apply Hf|]. intros ->. by rewrite Hf in Ht.
  - intros u uk Hu. rewrite lookup_insert_is_Some'. lookups; [by left|right; by eapply Hk].
  - intros m k Hm. lookups; [by apply (Hn _ j)|by apply Hn].
  - intros u uk k Hu Hhu Hm. apply lookup_insert_Some in Hu as [[<- <-]|[? Hu]]; simpl in *; [by lookups|].
    apply lookup_insert_Some in Hm as [[Em <-]|[? Hm]]; [|by eapply Htj].
    simpl. rewrite Em in Hj. eapply Htj; done.
  - intros m k u Hm Hlk. destruct (decide (u = t)) as [->|Hne].
    + rewrite lookup_insert_eq. eexists. split; [done|]. split; [|done]. simpl.
      lookups; [done|]. destruct (Hjt m k t) as (uk&Hu&<-&_); [done..|]. congruence.
    + rewrite lookup_insert_ne by done. lookups; [by apply (Hjt _ j)|by apply (Hjt m k)].
  - intros u uk Hu Hgu. lookups; [done|]. by rewrite (Hnone u uk) in Hgu.
  - intros u [= <-]. rewrite lookup_insert_eq. by eexists.
  - intros m k Hm Hst. lookups.
    + exists t, (set_phase running tk). by rewrite lookup_insert_eq.
    + destruct (Hs m k Hm Hst) as (u&uk&Hu&_&Hgu). by rewrite (Hnone u uk) in Hgu.
  - intros u uk k Hu Hgu Hm. apply lookup_insert_Some in Hu as [[<- <-]|[? Hu]]; [|by rewrite (Hnone u uk) in Hgu].
    simpl in Hm. by lookups.
  - intros m k Hm. lookups; [done|by eapply Ho].
Qed.

Lemma slots_leave t tk n j s :
  slots_ok s → tasks s !! t = Some tk → task_job tk = n → holds_job tk = true →
  (global_lock s = Some t ∨ global_lock s = None) → is_Some (jobs s !! n) → job_name j = n →
  slots_ok (leave_slot t n j s).
Proof.
  intros [Hf Hk Hn Htj Hjt Htg Hgt Hs Hr Ho] Ht Htn Hh Hg [j0 Hj] Hjn.
  pose proof Hj as Hl. rewrite <- Htn in Hl. apply (Htj t tk j0 Ht Hh) in Hl.
  assert (∀ u uk, tasks s !! u = Some uk → holds_global uk = true → u = t) as Honly.
  { intros u uk Hu E. destruct (Htg u uk Hu E). destruct Hg; congruence. }
  assert (∀ u uk, tasks s !! u = Some uk → holds_job uk = true → task_job uk = n → u = t) as Hsole.
  { intros u uk Hu E Hun. pose proof (Htj u uk j0 Hu E). rewrite Hun in *. naive_solver. }
  constructor; simpl; try done.
  - intros u Hu. apply lookup_delete_None. right. by apply Hf.
  - intros u uk Hu. rewrite lookup_insert_is_Some'. right. lookups. by eapply Hk.
  - intros m k Hm. lookups; [done|by apply Hn].
  - intros u uk k [Hne Hu]%lookup_delete_Some Hhu Hm.
    apply lookup_insert_Some in Hm as [[Em _]|[? Hm]]; [|by eapply Htj]. destruct Hne. symmetry. by eapply Hsole.
  - intros m k u Hm Hlk. lookups; [done|]. destruct (Hjt m k u Hm Hlk) as (uk&Hu&Hju&Hhu). exists uk.
    split; [|done]. rewrite lookup_delete_ne; [done|]. intros <-. congruence.
  - intros u uk [Hne Hu]%lookup_delete_Some Hgu. destruct Hne. symmetry. by eapply Honly.
  - intros m k Hm Hst. lookups; [by destruct Hst|]. destruct (Hs m k Hm Hst) as (u&uk&Hu&Hju&Hgu).
    pose proof (Honly u uk Hu Hgu). congruence.
  - intros u uk k [Hne Hu]%lookup_delete_Some Hgu. destruct Hne. symmetry. by eapply Honly.
  - intros m k Hm. lookups; [done|by eapply Ho].
Qed.

(** The handler's return moves its task on, inside the slot. *)
Lemma slots_set_phase t tk s :
  slots_ok s → tasks s !! t = Some tk → task_phase tk = running →
  slots_ok (set_tasks s (<[t := set_phase persisting tk]> (tasks s))).
Proof.
  intros [Hf Hk Hn Htj Hjt Htg Hgt Hs Hr Ho] Ht Hp.
  assert (holds_global tk = true) as Hg by (unfold holds_global; by rewrite Hp).
  assert (∀ P : task → Prop, (P tk → P (set_phase persisting tk)) → ∀ u, (∃ uk, tasks s !! u = Some uk ∧ P uk) →
    ∃ uk, <[t := set_phase persisting tk]> (tasks s) !! u = Some uk ∧ P uk) as Hkeep.
  { intros P HP u (uk&Hu&Huk). destruct (decide (u = t)) as [->|Hne].
    - rewrite lookup_insert_eq. eexists. split; [done|]. apply HP. congruence.
    - rewrite lookup_insert_ne by done. eauto. }
  constructor; simpl; try done.
  - intros u Hu. rewrite lookup_insert_ne; [by apply Hf|]. intros ->. by rewrite Hf in Ht.
  - intros u uk Hu. lookups; [by apply (Hk t tk)|by eapply Hk].
  - intros u uk k Hu Hh Hm. lookups; [|by eapply Htj]. by apply (Htj t tk k Ht (holds_global_job tk Hg)).
  - intros m k u Hm Hl. apply Hkeep; [naive_solver|]. by eapply Hjt.
  - intros u uk Hu Hgu. lookups; [exact (Htg t tk Ht Hg)|by apply Htg].
  - intros u Hu. apply Hkeep; [done|]. by apply Hgt.
  - intros m k Hm Hst. destruct (Hs m k Hm Hst) as (u&H). exists u. apply Hkeep; [naive_solver|done].
  - intros u uk k Hu Hgu Hm. lookups; [by apply (Hr t tk k)|by eapply Hr].
Qed.

Lemma slots_drop_created t tk s :
  slots_ok s → tasks s !! t = Some tk → holds_job tk = false → slots_ok (set_tasks s (delete t (tasks s))).
Proof.
  intros [Hf Hk Hn Htj Hjt Htg Hgt Hs Hr Ho] Ht Hh.
  assert (∀ u uk, tasks s !! u = Some uk → holds_job uk = true → delete t (tasks s) !! u = Some uk) as Hkeep.
  { intros u uk Hu Huk. rewrite lookup_delete_ne; [done|]. intros ->. congruence. }
  constructor; simpl; try done.
  - intros u Hu. apply lookup_delete_None. right. by apply Hf.
  - intros u uk [_ Hu]%lookup_delete_Some. by eapply Hk.
  - intros u uk k [_ Hu]%lookup_delete_Some. by eapply Htj.
  - intros m k u Hm Hl. destruct (Hjt m k u Hm Hl) as (uk&Hu&?&?). exists uk. auto.
  - intros u uk [_ Hu]%lookup_delete_Some. by apply Htg.
  - intros u Hg. destruct (Hgt u Hg) as (uk&Hu&?). exists uk. auto using holds_global_job.
  - intros m k Hm Hst. destruct (Hs m k Hm Hst) as (u&uk&Hu&?&?). exists u, uk. auto using holds_global_job.
  - intros u uk k [_ Hu]%lookup_delete_Some. by eapply Hr.
Qed.

Lemma slots_drop_queued t tk j s :
  slots_ok s → tasks s !! t = Some tk → task_phase tk = queued → jobs s !! task_job tk = Some j →
  slots_ok (set_tasks (set_job s (task_job tk) (set_slot j None (started_at j) (queued_logged j) (overlap_logged j)))
    (delete t (tasks s))).
Proof.
  intros [Hf Hk Hn Htj Hjt Htg Hgt Hs Hr Ho] Ht Hp Hj.
  assert (holds_job tk = true) as Hh by (unfold holds_job; by rewrite Hp).
  assert (holds_global tk = false) as Hng by (unfold holds_global; by rewrite Hp).
  pose proof (Htj t tk j Ht Hh Hj) as Hl.
  assert (∀ u uk, tasks s !! u = Some uk → holds_job uk = true → task_job uk = task_job tk → u = t) as Hsole.
  { intros u uk Hu E Hun. pose proof (Htj u uk j Hu E). rewrite Hun in *. naive_solver. }
  assert (∀ u uk, tasks s !! u = Some uk → holds_global uk = true → delete t (tasks s) !! u = Some uk) as Hkeep.
  { intros u uk Hu Huk. rewrite lookup_delete_ne; [done|]. intros ->. congruence. }
  constructor; simpl; try done.
  - intros u Hu. apply lookup_delete_None. right. by apply Hf.
  - intros u uk [_ Hu]%lookup_delete_Some. rewrite lookup_insert_is_Some'. right. by eapply Hk.
  - intros m k Hm. lookups; [by apply (Hn _ j)|by apply Hn].
  - intros u uk k [Hne Hu]%lookup_delete_Some Hhu Hm.
    apply lookup_insert_Some in Hm as [[Em _]|[? Hm]]; [|by eapply Htj]. destruct Hne. symmetry. by eapply Hsole.
  - intros m k u Hm Hlk. lookups; [done|]. destruct (Hjt m k u Hm Hlk) as (uk&Hu&Hju&Hhu). exists uk.
    split; [|done]. rewrite lookup_delete_ne; [done|]. intros <-. congruence.
  - intros u uk [_ Hu]%lookup_delete_Some. by apply Htg.
  - intros u Hg. destruct (Hgt u Hg) as (uk&Hu&?). exists uk. auto.
  - intros m k Hm Hst. assert (∃ u uk, tasks s !! u = Some uk ∧ task_job uk = m ∧ holds_global uk = true)
      as (u&uk&Hu&Hju&Hgu) by (lookups; [by apply (Hs (task_job tk) j)|by eapply Hs]).
    exists u, uk. auto.
  - intros u uk k [_ Hu]%lookup_delete_Some Hgu Hm.
    apply lookup_insert_Some in Hm as [[Em <-]|[? Hm]]; [|by eapply Hr].
    simpl. apply (Hr u uk j); [done..|by rewrite <- Em].
  - intros m k Hm. lookups; [by apply (Ho (task_job tk) j)|by eapply Ho].
Qed.

(** ** Ticks *)

(** A property kept by the two things a tick does to a job is kept by a tick. *)
Lemma tick_jobs_ind (P : loop → Prop) now names s :
  P s →
  (∀ s n j, P s → jobs s !! n = Some j → enabled j = true → is_due j now = Ok true → job_lock j = None →
     P (spawn n s)) →
  (∀ s n j s', P s → jobs s !! n = Some j → is_Some (job_lock j) → note_in_flight n j now s = Ok s' → P s') →
  P (tick_jobs now names s).
Proof.
  intros HP Hspawn Hnote. revert s HP. induction names as [|n ns IH]; intros s HP; simpl; [done|].
  destruct (jobs s !! n) as [j|] eqn:Hj; [|by apply IH]. destruct (enabled j) eqn:Hen; simpl; [|by apply IH].
  destruct (is_due j now) as [[|]|e] eqn:Hd; [|by apply IH|done].
  destruct (job_lock j) eqn:Hl; [|apply IH; by eapply Hspawn].
  destruct (note_in_flight n j now s) as [s'|e] eqn:Hn; [|done]. apply IH.
  by eapply (Hnote s n j).
Qed.

(** What noting a run in flight may change: the job's record, in its flags and
    its overlap count. *)
Lemma note_in_flight_shape n j now s s' :
  note_in_flight n j now s = Ok s' →
  s' = s ∨
  (started_at j = None ∧ s' = set_job s n (set_slot j (job_lock j) None true (overlap_logged j))) ∨
  (is_Some (started_at j) ∧ overlap_logged j = false ∧
   s' = observe (set_job s n (set_run (set_slot j (job_lock j) (started_at j) (queued_logged j) true)
     (last_run_at j) (last_success_at j) (Some "skipped_overlap"%string) (last_error j) (runs_total j) (runs_ok j)
     (runs_failed j) (runs_skipped_overlap j + 1))) n m_overlap).
Proof.
  unfold note_in_flight. destruct (started_at j) as [t|] eqn:Hst; [|intros [= <-]; auto].
  destruct (overlap_logged j) eqn:Ho; [intros [= <-]; auto|].
  destruct (timedelta_seconds _) as [d|e]; simpl; [|done].
  destruct (elapsed now t <? d); intros [= <-]; [auto|]. right. right. rewrite ?Hst. eauto.
Qed.

Lemma slots_tick now names s : slots_ok s → slots_ok (tick_jobs now names s).
Proof.
  intros Hok. apply tick_jobs_ind; [done|..]; clear s Hok.
  - intros s n j Hok Hj _ _ _. apply slots_add_task; [done|by eexists].
  - intros s n j s' Hok Hj _ [->|[[Hst ->]|(Hst&Ho&->)]]%note_in_flight_shape; [done|..].
    + apply (slots_set_job s n j); [done..|]. repeat split; simpl; [by rewrite Hst|auto].
    + apply slots_observe, (slots_set_job s n j); [done..|]. repeat split; simpl; auto.
Qed.

Lemma slots_load s : slots_ok s → slots_ok (load_state s).
Proof.
  intros Hok. unfold load_state. destruct (persistent s); simpl; [|done]. destruct (file s) as [| |[]]; try done.
  set (f := λ n j, Some _). destruct Hok as [Hf Hk Hn Htj Hjt Htg Hgt Hs Hr Ho].
  assert (∀ n k, map_imap f (jobs s) !! n = Some k → ∃ j, jobs s !! n = Some j ∧
    k = restore_stamps (parse_timestamp_map l "last_run_at") (parse_timestamp_map l "last_success_at") n j) as Hinv.
  { intros n k. rewrite map_lookup_imap. destruct (jobs s !! n) as [j|]; simpl; [|done]. intros [= <-]. eauto. }
  constructor; simpl; try done.
  - intros t tk Ht. destruct (Hk t tk Ht) as [j Hj]. rewrite map_lookup_imap, Hj. by eexists.
  - intros n k (j&Hj&->)%Hinv. exact (Hn n j Hj).
  - intros t tk k Ht Hh (j&Hj&->)%Hinv. exact (Htj t tk j Ht Hh Hj).
  - intros n k t (j&Hj&->)%Hinv. exact (Hjt n j t Hj).
  - intros n k (j&Hj&->)%Hinv. exact (Hs n j Hj).
  - intros t tk k Ht Hh (j&Hj&->)%Hinv. exact (Hr t tk j Ht Hh Hj).
  - intros n k (j&Hj&->)%Hinv. exact (Ho n j Hj).
Qed.

Lemma record_outcome_slot o now j : same_slot j (record_outcome o now j).1.
Proof. unfold record_outcome. repeat case_match; repeat split; simpl; auto. Qed.

(** What each task event finds, and does. *)
Lemma take_job_inv t s s' :
  take_job t s = Some s' →
  ∃ tk j, tasks s !! t = Some tk ∧ jobs s !! task_job tk = Some j ∧ task_phase tk = created ∧ job_lock j = None ∧
    s' = set_tasks (set_job s (task_job tk) (set_slot j (Some t) (started_at j) (queued_logged j) (overlap_logged j)))
      (<[t := set_phase queued tk]> (tasks s)).
Proof.
  unfold take_job. intros H. destruct (tasks s !! t) as [tk|]; [|done]. simpl in H.
  destruct (jobs s !! task_job tk) as [j|] eqn:Hj; [|done]. simpl in H.
  destruct (task_phase tk) eqn:Hp; try done. destruct (job_lock j) eqn:Hl; [done|]. injection H as <-. eauto 10.
Qed.

Lemma take_global_inv t now later s s' :
  take_global t now later s = Some s' →
  ∃ tk j, tasks s !! t = Some tk ∧ jobs s !! task_job tk = Some j ∧ task_phase tk = queued ∧ global_lock s = None ∧
    ((task_job tk ∈ handlers s ∧
      s' = set_global (set_tasks (set_job s (task_job tk) (begin_slot now j)) (<[t := set_phase running tk]> (tasks s)))
        (Some t) (Some (task_job tk))) ∨
     (task_job tk ∉ handlers s ∧
      s' = observe (leave_slot t (task_job tk) (record_missing later (begin_slot now j)).1 s) (task_job tk) m_failure)).
Proof.
  unfold take_global. intros H. destruct (tasks s !! t) as [tk|]; [|done]. simpl in H.
  destruct (jobs s !! task_job tk) as [j|] eqn:Hj; [|done]. simpl in H.
  destruct (task_phase tk) eqn:Hp; try done. destruct (global_lock s) eqn:Hg; [done|].
  exists tk, j. do 4 (split; [done|]). case_bool_decide; injection H as <-; auto.
Qed.

Lemma handler_done_inv t o now s s' :
  handler_done t o now s = Some s' →
  ∃ tk j, tasks s !! t = Some tk ∧ jobs s !! task_job tk = Some j ∧ task_phase tk = running ∧
    s' = observe (set_tasks (set_job s (task_job tk) (record_outcome o now j).1) (<[t := set_phase persisting tk]> (tasks s)))
      (task_job tk) (record_outcome o now j).2.
Proof.
  unfold handler_done. intros H. destruct (tasks s !! t) as [tk|]; [|done]. simpl in H.
  destruct (jobs s !! task_job tk) as [j|] eqn:Hj; [|done]. simpl in H.
  exists tk, j. destruct (task_phase tk) eqn:Hp; try done. destruct (record_outcome o now j). by injection H as <-.
Qed.

Lemma written_done_inv t w s s' :
  written_done t w s = Some s' →
  ∃ tk j, tasks s !! t = Some tk ∧ jobs s !! task_job tk = Some j ∧ task_phase tk = persisting ∧
    s' = leave_slot t (task_job tk) j (persist_state w s).
Proof.
  unfold written_done. intros H. destruct (tasks s !! t) as [tk|]; [|done]. simpl in H.
  destruct (jobs s !! task_job tk) as [j|] eqn:Hj; [|done]. simpl in H.
  destruct (task_phase tk) eqn:Hp; try done. injection H as <-. eauto 10.
Qed.

Lemma cancel_inv t w s s' :
  cancel t w s = Some s' →
  ∃ tk j, tasks s !! t = Some tk ∧ jobs s !! task_job tk = Some j ∧
    ((task_phase tk = created ∧ s' = set_tasks s (delete t (tasks s))) ∨
     (task_phase tk = queued ∧
      s' = set_tasks (set_job s (task_job tk) (set_slot j None (started_at j) (queued_logged j) (overlap_logged j)))
        (delete t (tasks s))) ∨
     (task_phase tk = persisting ∧ written_done t w s = Some s')).
Proof.
  unfold cancel. intros H. destruct (tasks s !! t) as [tk|]; [|done]. simpl in H.
  destruct (jobs s !! task_job tk) as [j|] eqn:Hj; [|done]. simpl in H. exists tk, j. do 2 (split; [done|]).
  destruct (task_phase tk) eqn:Hp; try done; [injection H as <-|injection H as <-|]; auto.
Qed.

Lemma slots_written t w s s' : slots_ok s → written_done t w s = Some s' → slots_ok s'.
Proof.
  intros Hok (tk&j&Ht&Hj&Hp&->)%written_done_inv.
  assert (holds_global tk = true) as Hg by (unfold holds_global; by rewrite Hp).
  assert (persist_state w s = s ∨ ∃ f, persist_state w s = set_file s f) as Hf
    by (unfold persist_state; case_match; eauto).
  pose proof (slots_persist w s Hok) as Hok'.
  apply (slots_leave t tk); [done|..|by apply holds_global_job| | |by apply (ok_name s Hok)].
  - destruct Hf as [->|[f ->]]; done.
  - done.
  - left. destruct Hf as [->|[f ->]]; exact (proj1 (ok_task_global s Hok t tk Ht Hg)).
  - destruct Hf as [->|[f ->]]; by eexists.
Qed.

Lemma slots_step s e s' : slots_ok s → step s e = Some s' → slots_ok s'.
Proof.
  intros Hok. destruct e as [|now|n|t|t now later|t o now|t w|t w| |]; simpl; intros H.
  - injection H as <-. unfold start. case_match; [done|]. by apply slots_set_started, slots_load.
  - case_match; [|done]. injection H as <-. by apply slots_tick.
  - unfold run_once in H. destruct (jobs s !! n) eqn:Hj; [|done]. injection H as <-. by apply slots_add_task.
  - by eapply slots_take_job.
  - case_match; [|done]. apply take_global_inv in H as (tk&j&Ht&Hj&Hp&Hg&[(Hh&->)|(Hh&->)]);
      [by apply slots_take_global|].
    apply slots_observe. eapply slots_leave; [done|done|done|unfold holds_job; by rewrite Hp|by right|by eexists|].
    simpl. by apply (ok_name s Hok).
  - case_match; [|done]. apply handler_done_inv in H as (tk&j&Ht&Hj&Hp&->). apply slots_observe.
    apply (slots_set_phase t tk (set_job s (task_job tk) (record_outcome o (utc now) j).1)); [|done|done].
    apply (slots_set_job s _ j); [done..|apply record_outcome_slot].
  - by eapply slots_written.
  - apply cancel_inv in H as (tk&j&Ht&Hj&[(Hp&->)|[(Hp&->)|(Hp&H)]]); [|by apply slots_drop_queued|by eapply slots_written].
    apply (slots_drop_created t tk); [done|done|]. unfold holds_job. by rewrite Hp.
  - case_match; [|done]. injection H as <-. by apply slots_set_started.
  - case_match; [|done]. injection H as <-. by apply slots_set_started.
Qed.

Lemma run_ind (P : loop → Prop) s es s' :
  (∀ s e s', P s → step s e = Some s' → P s') → P s → run s es = Some s' → P s'.
Proof.
  intros Hstep. revert s. induction es as [|e es IH]; simpl; intros s HP H; [congruence|].
  destruct (step s e) as [s1|] eqn:He; [|done]. simpl in H. eauto.
Qed.

(** ** Reachable states *)

(** A job nobody has touched yet, as the job list builds them. *)
Definition idle (j : JobState) : Prop :=
  job_lock j = None ∧ started_at j = None ∧ overlap_logged j = false ∧
  runs_total j = 0 ∧ runs_ok j = 0 ∧ runs_failed j = 0 ∧ runs_skipped_overlap j = 0.

Definition reachable (s : loop) : Prop :=
  ∃ js hs p f es, Forall idle js ∧ run (new_loop js hs p f) es = Some s.

Lemma new_loop_jobs js hs p f n j :
  jobs (new_loop js hs p f) !! n = Some j → j ∈ js ∧ job_name j = n.
Proof.
  simpl. intros H%elem_of_list_to_map_2. rewrite list_elem_of_In, <- in_rev, <- list_elem_of_In in H.
  apply list_elem_of_fmap in H as (k&[= -> ->]&Hk). done.
Qed.

Lemma reachable_ind' (P : loop → Prop) s :
  (∀ js hs p f, Forall idle js → P (new_loop js hs p f)) →
  (∀ s e s', P s → step s e = Some s' → P s') → reachable s → P s.
Proof. intros Hnew Hstep (js&hs&p&f&es&Hi&Hrun). eapply run_ind; eauto. Qed.

Lemma reachable_slots s : reachable s → slots_ok s.
Proof.
  apply reachable_ind'; [|intros ???; apply slots_step]. intros js hs p f Hi. rewrite Forall_forall in Hi.
  constructor; try (intros; by simplify_map_eq).
  - intros n j [_ ?]%new_loop_jobs. done.
  - intros n j t [Hj _]%new_loop_jobs Hl. apply Hi in Hj as (?&_). congruence.
  - intros n j [Hj _]%new_loop_jobs [x Hx]. apply Hi in Hj as (?&?&_). congruence.
  - intros n j [Hj _]%new_loop_jobs Hx. apply Hi in Hj as (?&?&?&_). congruence.
Qed.

(** ** Accounting *)

Definition count (n : string) (m : metric) (s : loop) : Z :=
  Z.of_nat (length (filter (λ e, e = (n, m)) (observed s))).

(** The counters of a job and what the metrics recorder was told agree. *)
Definition accounted_job (n : string) (j : JobState) (s : loop) : Prop :=
  runs_ok j = count n m_success s + count n m_partial s ∧
  runs_failed j = count n m_failure s ∧
  runs_total j + runs_skipped_overlap j =
    count n m_success s + count n m_partial s + count n m_failure s + count n m_overlap s + count n m_cancel s ∧
  0 ≤ runs_skipped_overlap j ≤ count n m_overlap s.
Definition accounted (s : loop) : Prop := ∀ n j, jobs s !! n = Some j → accounted_job n j s.

Definition same_counts (j j' : JobState) : Prop :=
  runs_total j' = runs_total j ∧ runs_ok j' = runs_ok j ∧ runs_failed j' = runs_failed j ∧
  runs_skipped_overlap j' = runs_skipped_overlap j.

(** Jobs change in nothing that is counted. *)
Lemma accounted_same s s' :
  accounted s → observed s' = observed s →
  (∀ n j', jobs s' !! n = Some j' → ∃ j, jobs s !! n = Some j ∧ same_counts j j') → accounted s'.
Proof.
  intros Ha Ho Hj n j' Hn. destruct (Hj n j' Hn) as (j&Hjn&E1&E2&E3&E4). specialize (Ha n j Hjn).
  unfold accounted_job, count in *. rewrite Ho, E1, E2, E3, E4. exact Ha.
Qed.

Lemma accounted_set_same s n j j' s' :
  accounted s → jobs s !! n = Some j → same_counts j j' →
  observed s' = observed s → jobs s' = <[n := j']> (jobs s) → accounted s'.
Proof.
  intros Ha Hj Hs Ho Hjs. apply (accounted_same s); [done|done|]. intros m k. rewrite Hjs.
  intros [[<- <-]|[? Hm]]%lookup_insert_Some; [by eauto|]. exists k. by repeat split.
Qed.

Lemma count_cons n m m' s s' :
  observed s' = (n, m') :: observed s → count n m s' = count n m s + if bool_decide (m' = m) then 1 else 0.
Proof.
  unfold count. intros ->. rewrite filter_cons. case_bool_decide as E.
  - subst. rewrite decide_True by done. simpl. lia.
  - rewrite decide_False; [lia|]. by intros [= ->].
Qed.
Lemma count_other n m n' m' s s' :
  observed s' = (n', m') :: observed s → n' ≠ n → count n m s' = count n m s.
Proof. unfold count. intros -> Hne. rewrite filter_cons_False; [done|]. by intros [= -> _]. Qed.

(** What a job record gains with one observation. *)
Definition gains (m : metric) (j j' : JobState) : Prop :=
  let d (b : bool) := if b then 1 else 0 in
  runs_ok j' = runs_ok j + d (bool_decide (m = m_success ∨ m = m_partial)) ∧
  runs_failed j' = runs_failed j + d (bool_decide (m = m_failure)) ∧
  runs_total j' + runs_skipped_overlap j' = runs_total j + runs_skipped_overlap j + 1 ∧
  (runs_skipped_overlap j' = runs_skipped_overlap j ∨
   m = m_overlap ∧ runs_skipped_overlap j' = runs_skipped_overlap j + 1).

Lemma accounted_observe s n j j' m s' :
  accounted s → jobs s !! n = Some j → gains m j j' →
  observed s' = (n, m) :: observed s → jobs s' = <[n := j']> (jobs s) → accounted s'.
Proof.
  intros Ha Hj (E1&E2&E3&E4) Ho Hjs k i. rewrite Hjs. intros [[<- <-]|[Hne Hk]]%lookup_insert_Some.
  - specialize (Ha n j Hj). unfold accounted_job in *. rewrite !(count_cons _ _ _ _ _ Ho).
    destruct m; simpl in *; destruct E4 as [E4|[? E4]]; try done; lia.
  - specialize (Ha k i Hk). unfold accounted_job in *. by rewrite !(count_other _ _ _ _ _ _ Ho).
Qed.

Lemma record_outcome_gains o now j : gains (record_outcome o now j).2 j (record_outcome o now j).1.
Proof.
  destruct o as [v|msg|]; simpl; [|repeat split; simpl; auto; lia..].
  destruct (job_result_is_skipped v); [|destruct (job_result_is_partial v)]; repeat split; simpl; auto; lia.
Qed.

Lemma accounted_step s e s' : accounted s → step s e = Some s' → accounted s'.
Proof.
  intros Ha. destruct e as [|now|n|t|t now later|t o now|t w|t w| |]; simpl; intros H.
  - injection H as <-. unfold start, load_state. destruct (started s); [done|].
    destruct (persistent s); [|done]. simpl. destruct (file s) as [| |[]]; try done.
    apply (accounted_same s); [done|done|]. intros n j'. simpl. rewrite map_lookup_imap.
    destruct (jobs s !! n) as [j|]; simpl; [|done]. intros [= <-]. exists j. done.
  - case_match; [|done]. injection H as <-. apply tick_jobs_ind; [done|by intros|].
    clear Ha. intros s1 n j s' Ha Hj _ [->|[[_ ->]|(_&_&->)]]%note_in_flight_shape; [done|..].
    + by apply (accounted_set_same s1 n j (set_slot j (job_lock j) None true (overlap_logged j))).
    + eapply (accounted_observe s1 n j _ m_overlap); [done..| |done|done]. repeat split; simpl; auto; lia.
  - unfold run_once in H. destruct (jobs s !! n); [|done]. by injection H as <-.
  - apply take_job_inv in H as (tk&j&Ht&Hj&_&_&->).
    by apply (accounted_set_same s (task_job tk) j
      (set_slot j (Some t) (started_at j) (queued_logged j) (overlap_logged j))).
  - case_match; [|done]. apply take_global_inv in H as (tk&j&Ht&Hj&_&_&[(_&->)|(_&->)]).
    + by apply (accounted_set_same s (task_job tk) j (begin_slot (utc now) j)).
    + eapply (accounted_observe s (task_job tk) j _ m_failure); [done..| |done|done].
      repeat split; simpl; auto; lia.
  - case_match; [|done]. apply handler_done_inv in H as (tk&j&Ht&Hj&_&->).
    eapply (accounted_observe s (task_job tk) j _ (record_outcome o (utc now) j).2); [done..| |done|done].
    apply record_outcome_gains.
  - apply written_done_inv in H as (tk&j&Ht&Hj&_&->). unfold persist_state.
    destruct (persistent s && w); by apply (accounted_set_same s (task_job tk) j (end_slot j)).
  - apply cancel_inv in H as (tk&j&Ht&Hj&[(_&->)|[(_&->)|(_&H)]]); [done|..].
    + by apply (accounted_set_same s (task_job tk) j
        (set_slot j None (started_at j) (queued_logged j) (overlap_logged j))).
    + apply written_done_inv in H as (tk'&j'&Ht'&Hj'&_&->). unfold persist_state.
      destruct (persistent s && w); by apply (accounted_set_same s (task_job tk') j' (end_slot j')).
  - case_match; [|done]. by injection H as <-.
  - case_match; [|done]. by injection H as <-.
Qed.

Lemma reachable_accounted s : reachable s → accounted s.
Proof.
  apply reachable_ind'; [|intros ???; apply accounted_step]. intros js hs p f Hi n j [Hj _]%new_loop_jobs.
  rewrite Forall_forall in Hi. apply Hi in Hj as (_&_&_&E1&E2&E3&E4). unfold accounted_job, count. simpl. lia.
Qed.

(** C31. No two jobs run at once, and no job overlaps itself.  In every state
    the loop can reach, however ticks, requests, task switches and
    cancellations interleave, at most one task is past the global lock, at most
    one task holds a given job's lock, a job is marked as running exactly while
    such a task is in its slot, and both locks are free when nothing is in
    flight. *)
Theorem one_job_at_a_time s :
  reachable s →
  (∀ t u tk uk, tasks s !! t = Some tk → tasks s !! u = Some uk →
     holds_global tk = true → holds_global uk = true → t = u) ∧
  (∀ t u tk uk, tasks s !! t = Some tk → tasks s !! u = Some uk → task_job tk = task_job uk →
     holds_job tk = true → holds_job uk = true → t = u) ∧
  (∀ n j, jobs s !! n = Some j →
     (is_Some (started_at j) ↔ ∃ t tk, tasks s !! t = Some tk ∧ task_job tk = n ∧ holds_global tk = true)) ∧
  (∀ n j, jobs s !! n = Some j → overlap_logged j = true → is_Some (started_at j)) ∧
  (tasks s = ∅ → global_lock s = None ∧ ∀ n j, jobs s !! n = Some j → job_lock j = None).
Proof.
  intros Hr%reachable_slots. destruct Hr as [Hf Hk Hn Htj Hjt Htg Hgt Hs Hr Ho].
  split; [|split; [|split; [|split; [done|]]]].
  - intros t u tk uk Ht Hu Hgt' Hgu. destruct (Htg t tk Ht Hgt'), (Htg u uk Hu Hgu). congruence.
  - intros t u tk uk Ht Hu He Hht Hhu. destruct (Hk t tk Ht) as [j Hj].
    pose proof (Htj t tk j Ht Hht Hj). rewrite He in Hj. pose proof (Htj u uk j Hu Hhu Hj). congruence.
  - intros n j Hj. split; [by apply Hs|]. intros (t&tk&Ht&<-&Hg). by eapply Hr.
  - intros He. split.
    + destruct (global_lock s) as [t|]; [|done]. destruct (Hgt t eq_refl) as (tk&Ht&_). by rewrite He in Ht.
    + intros n j Hj. destruct (job_lock j) as [t|] eqn:Hl; [|done].
      destruct (Hjt n j t Hj Hl) as (tk&Ht&_). by rewrite He in Ht.
Qed.

(** Every run and every overlap is observed exactly once.  In every
    reachable state the counters of a job and the observations the metrics
    recorder received agree: successes are full plus partial ones, failures
    are failures, runs plus overlaps are all observations; and successes and
    failures never exceed the runs. *)
Theorem job_accounting s n j :
  reachable s → jobs s !! n = Some j →
  runs_ok j = count n m_success s + count n m_partial s ∧
  runs_failed j = count n m_failure s ∧
  runs_total j + runs_skipped_overlap j = Z.of_nat (length (filter (λ e, e.1 = n) (observed s))) ∧
  runs_ok j + runs_failed j ≤ runs_total j ∧ 0 ≤ runs_skipped_overlap j.
Proof.
  intros Hr Hj. destruct (reachable_accounted s Hr n j Hj) as (E1&E2&E3&E4).
  assert (Z.of_nat (length (filter (λ e, e.1 = n) (observed s))) =
    count n m_success s + count n m_partial s + count n m_failure s + count n m_overlap s + count n m_cancel s) as ->.
  { unfold count. clear. induction (observed s) as [|[k m] l IH]; simpl; [done|]. rewrite !filter_cons. simpl.
    destruct (decide (k = n)) as [->|Hne].
    - destruct m; repeat first [rewrite decide_True by done|rewrite decide_False by done]; simpl length; lia.
    - repeat (rewrite decide_False by naive_solver). done. }
  assert (∀ m, 0 ≤ count n m s) as Hpos by (intros m; unfold count; lia).
  pose proof (Hpos m_cancel). lia.
Qed.
