(* ===== verification/MaintenanceRuns.v ===== *)
(** * What a tick starts, and how runs end

    The jobs a tick spawns; that a timestamp of success is earned; progress and
    termination of the tasks in flight; the schedule file across a restart; the
    job list; and the starvation an out-of-range interval causes. *)

From S2P Require Import Prelude PyStr PyText Domain DateTime PyNum Maintenance MaintenanceProps.
Local Open Scope Z_scope.
Local Open Scope prog_scope.

(** ** Ticks *)

(** The jobs a tick at [now] should start. *)
Definition due_idle (now : datetime) (s : loop) (n : string) : bool :=
  match jobs s !! n with
  | Some j => enabled j && match is_due j now with Ok b => b | Raise _ => false end
      && bool_decide (job_lock j = None)
  | None => false
  end.

(** No interval is out of range. *)
Definition intervals_ok (s : loop) : Prop :=
  ∀ n j, jobs s !! n = Some j → timedelta_seconds (interval_seconds j) = Ok (interval_seconds j * 1000000).

(** A change to one job that leaves its schedule and its locks alone. *)
Definition same_schedule (j j' : JobState) : Prop :=
  enabled j' = enabled j ∧ interval_seconds j' = interval_seconds j ∧ last_run_at j' = last_run_at j ∧
  job_lock j' = job_lock j ∧ last_success_at j' = last_success_at j.

Lemma note_in_flight_frame n j now s s' :
  jobs s !! n = Some j → note_in_flight n j now s = Ok s' →
  tasks s' = tasks s ∧ next_task s' = next_task s ∧
  ∃ j', jobs s' = <[n := j']> (jobs s) ∧ same_schedule j j'.
Proof.
  intros Hj [->|[[_ ->]|(_&_&->)]]%note_in_flight_shape; (split; [done|]); (split; [done|]).
  - exists j. split; [by rewrite insert_id|done].
  - eexists. split; [done|]. done.
  - eexists. split; [done|]. done.
Qed.

Lemma is_due_ok s n j now : intervals_ok s → jobs s !! n = Some j → ∃ b, is_due j now = Ok b.
Proof.
  intros Hi Hj. unfold is_due. destruct (last_run_at j); [|eauto]. rewrite (Hi n j Hj). simpl. eauto.
Qed.

Lemma note_in_flight_ok s n j now : intervals_ok s → jobs s !! n = Some j → ∃ s', note_in_flight n j now s = Ok s'.
Proof.
  intros Hi Hj. unfold note_in_flight. destruct (started_at j); [|eauto]. destruct (overlap_logged j); [eauto|].
  rewrite (Hi n j Hj). simpl. case_match; eauto.
Qed.

Definition schedule_agrees (s s' : loop) : Prop :=
  ∀ m, match jobs s !! m, jobs s' !! m with
       | Some j, Some j' => same_schedule j j'
       | None, None => True
       | _, _ => False
       end.

Lemma schedule_agrees_refl s : schedule_agrees s s.
Proof. intros m. destruct (jobs s !! m); done. Qed.

Lemma schedule_agrees_insert s s' n j j' :
  jobs s !! n = Some j → same_schedule j j' → jobs s' = <[n := j']> (jobs s) → schedule_agrees s s'.
Proof.
  intros Hj Hs Hjs m. rewrite Hjs. destruct (decide (n = m)) as [<-|Hne].
  - by rewrite Hj, lookup_insert_eq.
  - rewrite lookup_insert_ne by done. destruct (jobs s !! m); done.
Qed.

Lemma schedule_agrees_due now s s' m : schedule_agrees s s' → due_idle now s' m = due_idle now s m.
Proof.
  intros Ha. specialize (Ha m). unfold due_idle, is_due. destruct (jobs s !! m), (jobs s' !! m); try done.
  destruct Ha as (->&->&->&->&_). done.
Qed.

Lemma schedule_agrees_intervals s s' : schedule_agrees s s' → intervals_ok s → intervals_ok s'.
Proof.
  intros Ha Hi m j' Hj'. specialize (Ha m). rewrite Hj' in Ha. destruct (jobs s !! m) as [j|] eqn:Hj; [|done].
  destruct Ha as (_&->&_). by eapply Hi.
Qed.

Lemma schedule_agrees_trans s1 s2 s3 : schedule_agrees s1 s2 → schedule_agrees s2 s3 → schedule_agrees s1 s3.
Proof.
  intros H1 H2 m. specialize (H1 m). specialize (H2 m). unfold same_schedule in *.
  destruct (jobs s1 !! m), (jobs s2 !! m), (jobs s3 !! m); naive_solver congruence.
Qed.

(** The tasks a list of names becomes, from a task number on. *)
Fixpoint spawned (k : nat) (names : list string) : gmap nat task :=
  match names with
  | [] => ∅
  | n :: ns => <[k := mkTask n created true]> (spawned (S k) ns)
  end.

Lemma spawned_fresh k names i : (i < k)%nat → spawned k names !! i = None.
Proof.
  revert k. induction names as [|n ns IH]; intros k Hi; simpl; [done|].
  rewrite lookup_insert_ne by lia. apply IH. lia.
Qed.

Lemma spawned_insert n k ns (m : gmap nat task) :
  (∀ i, (k ≤ i)%nat → m !! i = None) →
  <[k := mkTask n created true]> m ∪ spawned (S k) ns = m ∪ spawned k (n :: ns).
Proof.
  intros Hf. simpl. by rewrite <- insert_union_l, insert_union_r by (by apply Hf).
Qed.

(** A tick over a list of names spawns a task for each due, idle one. *)
Lemma tick_jobs_spec now names s :
  (∀ i, (next_task s ≤ i)%nat → tasks s !! i = None) → intervals_ok s →
  tasks (tick_jobs now names s) =
    tasks s ∪ spawned (next_task s) (filter (λ n, due_idle now s n = true) names) ∧
  schedule_agrees s (tick_jobs now names s).
Proof.
  revert s. induction names as [|n ns IH]; intros s Hf Hi; simpl.
  { rewrite (right_id_L ∅ (∪)). split; [done|apply schedule_agrees_refl]. }
  rewrite filter_cons.
  assert (due_idle now s n = match jobs s !! n with
    | Some j => enabled j && match is_due j now with Ok b => b | Raise _ => false end
        && bool_decide (job_lock j = None)
    | None => false end) as Hdue by done.
  destruct (jobs s !! n) as [j|] eqn:Hj; [|rewrite decide_False by (rewrite Hdue; done); by apply IH].
  destruct (enabled j) eqn:Hen; simpl in *; [|rewrite decide_False by (rewrite Hdue; done); by apply IH].
  destruct (is_due_ok s n j now Hi Hj) as [b Hb]. rewrite Hb in *.
  destruct b; simpl in *; [|rewrite decide_False by (rewrite Hdue; done); by apply IH].
  destruct (job_lock j) as [t|] eqn:Hl.
  - rewrite decide_False by (rewrite Hdue; done).
    destruct (note_in_flight_ok s n j now Hi Hj) as [s' Hs']. rewrite Hs'.
    destruct (note_in_flight_frame n j now s s' Hj Hs') as (Et&En&j'&Ejs&Hsame).
    pose proof (schedule_agrees_insert s s' n j j' Hj Hsame Ejs) as Hag.
    destruct (IH s') as [IH1 IH2]; [by rewrite En, Et|by eapply schedule_agrees_intervals|].
    split; [|by eapply schedule_agrees_trans].
    rewrite IH1, Et, En. f_equal. f_equal. apply list_filter_iff. intros m. by rewrite (schedule_agrees_due now s s').
  - rewrite decide_True by (rewrite Hdue; done).
    destruct (IH (spawn n s)) as [IH1 IH2]; [|done|].
    { intros i Hle. simpl in *. rewrite lookup_insert_ne by lia. apply Hf. lia. }
    split; [|done]. rewrite IH1. simpl. by rewrite spawned_insert.
Qed.

Lemma spawned_size k names : size (spawned k names) = length names.
Proof.
  revert k. induction names as [|n ns IH]; intros k; simpl; [done|].
  rewrite map_size_insert_None by (apply spawned_fresh; lia). by rewrite IH.
Qed.

Lemma spawned_jobs k names n : (∃ t, spawned k names !! t = Some (mkTask n created true)) ↔ n ∈ names.
Proof.
  revert k. induction names as [|m ns IH]; intros k; simpl.
  - split; [intros [t Ht]; done|by intros ?%elem_of_nil].
  - rewrite elem_of_cons, <- (IH (S k)). split.
    + intros [t Ht]. apply lookup_insert_Some in Ht as [[<- [= <-]]|[? Ht]]; eauto.
    + intros [->|[t Ht]].
      * exists k. by rewrite lookup_insert_eq.
      * exists t. rewrite lookup_insert_ne; [done|]. intros <-. by rewrite spawned_fresh in Ht by lia.
Qed.

(** A tick starts exactly the jobs that should run.  With every interval in
    range, a tick spawns one task for each enabled job whose interval has
    elapsed since its last run and that has no run in flight, in the configured
    order, and nothing else; the tasks in flight are kept, and no job's
    schedule or recorded success changes. *)
Theorem tick_starts_due_jobs now s :
  reachable s → intervals_ok s →
  let s' := tick_jobs now (order s) s in
  let fresh := filter (λ n, due_idle now s n = true) (order s) in
  tasks s ⊆ tasks s' ∧
  size (tasks s') = (size (tasks s) + length fresh)%nat ∧
  (∀ n, (∃ t, tasks s !! t = None ∧ tasks s' !! t = Some (mkTask n created true)) ↔ n ∈ fresh) ∧
  schedule_agrees s s'.
Proof.
  intros Hr Hi s' fresh. pose proof (ok_fresh s (reachable_slots s Hr)) as Hf.
  destruct (tick_jobs_spec now (order s) s Hf Hi) as [Ht Hag]. fold fresh s' in Ht. fold s' in Hag.
  assert (tasks s ##ₘ spawned (next_task s) fresh) as Hd.
  { apply map_disjoint_spec. intros i x y Hx Hy. destruct (decide (i < next_task s)%nat).
    - by rewrite spawned_fresh in Hy.
    - rewrite Hf in Hx; [done|lia]. }
  rewrite Ht. split; [by apply map_union_subseteq_l|]. split; [by rewrite map_size_disj_union, spawned_size|].
  split; [|done]. intros n. rewrite <- (spawned_jobs (next_task s)). split.
  - intros (t&Hn&Ht'). exists t. by rewrite lookup_union_r in Ht'.
  - intros [t Ht']. exists t. assert (tasks s !! t = None) as Hn by (by eapply map_disjoint_Some_r).
    split; [done|]. by rewrite lookup_union_r.
Qed.

(** ** A recorded success is earned *)

Lemma insert_keeps {A} (m : gmap string A) n k (a b : A) (f : A → Prop) j :
  m !! n = Some a → <[k := b]> m !! n = Some j → (k = n → j = b → f j) → (k ≠ n → j = a → f j) → f j.
Proof. intros Ha Hj H1 H2. apply lookup_insert_Some in Hj as [[-> <-]|[? Hj]]; [auto|]. apply H2; congruence. Qed.

(** C35. Only work that was done counts as a success.  Whatever happens to the
    loop, short of a start, which reads the schedule file, the time of a job's
    last success moves only when its own handler returned without raising and
    did not report that it skipped the work; the same instant is then recorded
    as its last run, and the outcome is [ok] with no error. *)
Theorem success_is_earned s e s' n j j' :
  step s e = Some s' → e ≠ EvStart → jobs s !! n = Some j → jobs s' !! n = Some j' →
  last_success_at j' = last_success_at j ∨
  ∃ t value now tk, e = EvHandler t (returned value) now ∧ tasks s !! t = Some tk ∧ task_job tk = n ∧
    task_phase tk = running ∧ job_result_is_skipped value = false ∧
    last_success_at j' = Some (utc now) ∧ last_run_at j' = Some (utc now) ∧
    last_outcome j' = Some "ok"%string ∧ last_error j' = None ∧ runs_ok j' = runs_ok j + 1.
Proof.
  intros H Hne Hj Hj'. destruct e as [|now|m|t|t now later|t o now|t w|t w| |]; simpl in H; try done.
  - case_match; [|done]. injection H as <-. left.
    assert (∃ k, jobs (tick_jobs (utc now) (order s) s) !! n = Some k ∧ last_success_at k = last_success_at j) as (k&Hk&E);
      [|congruence].
    apply (tick_jobs_ind (λ s1, ∃ k, jobs s1 !! n = Some k ∧ last_success_at k = last_success_at j)); [by eauto|done|].
    intros s1 m i s2 (k&Hk&E) Hi _ (_&_&i'&->&_&_&_&_&Es)%note_in_flight_frame; [|done].
    destruct (decide (m = n)) as [->|Hmn]; [|rewrite lookup_insert_ne by done; eauto].
    rewrite lookup_insert_eq. exists i'. split; [done|]. congruence.
  - unfold run_once in H. destruct (jobs s !! m); [|done]. injection H as <-. simpl in Hj'. left. congruence.
  - apply take_job_inv in H as (tk&i&_&Hi&_&_&->). simpl in Hj'. left.
    apply (insert_keeps _ _ _ _ _ (λ x, last_success_at x = last_success_at j) _ Hj Hj'); [|by intros _ ->].
    intros <- ->. simpl. congruence.
  - case_match; [|done]. apply take_global_inv in H as (tk&i&_&Hi&_&_&[(_&->)|(_&->)]); simpl in Hj'; left;
      apply (insert_keeps _ _ _ _ _ (λ x, last_success_at x = last_success_at j) _ Hj Hj'); try (by intros _ ->);
      intros <- ->; simpl; congruence.
  - case_match; [|done]. apply handler_done_inv in H as (tk&i&Ht&Hi&Hp&->). simpl in Hj'.
    apply lookup_insert_Some in Hj' as [[Hn <-]|[? Hj']]; [|left; congruence].
    assert (i = j) as -> by congruence. destruct o as [v|msg|]; simpl; [|by left..].
    destruct (job_result_is_skipped v) eqn:Hs; [by left|]. right. exists t, v, now, tk. done.
  - apply written_done_inv in H as (tk&i&_&Hi&_&->). left.
    assert (<[task_job tk := end_slot i]> (jobs s) !! n = Some j') as Hj2
      by (unfold persist_state in Hj'; destruct (persistent s && w); exact Hj').
    apply (insert_keeps _ _ _ _ _ (λ x, last_success_at x = last_success_at j) _ Hj Hj2); [|by intros _ ->].
    intros <- ->. simpl. congruence.
  - left. apply cancel_inv in H as (tk&i&_&Hi&[(_&->)|[(_&->)|(_&H)]]).
    + simpl in Hj'. congruence.
    + simpl in Hj'. apply (insert_keeps _ _ _ _ _ (λ x, last_success_at x = last_success_at j) _ Hj Hj'); [|by intros _ ->].
      intros <- ->. simpl. congruence.
    + apply written_done_inv in H as (tk'&i'&_&Hi'&_&->).
      assert (<[task_job tk' := end_slot i']> (jobs s) !! n = Some j') as Hj2
        by (unfold persist_state in Hj'; destruct (persistent s && w); exact Hj').
      apply (insert_keeps _ _ _ _ _ (λ x, last_success_at x = last_success_at j) _ Hj Hj2); [|by intros _ ->].
      intros <- ->. simpl. congruence.
  - case_match; [|done]. injection H as <-. simpl in Hj'. left. congruence.
  - case_match; [|done]. injection H as <-. simpl in Hj'. left. congruence.
Qed.

(** ** The tasks in flight end *)

(** The events of a task's own progress. *)
Definition progress_event (e : event) : bool :=
  match e with EvTakeJob _ | EvTakeGlobal _ _ _ | EvHandler _ _ _ | EvWritten _ _ => true | _ => false end.

Definition weight (tk : task) : nat :=
  match task_phase tk with created => 4 | queued => 3 | running => 2 | persisting => 1 end.
Definition work_of (ts : gmap nat task) : nat := map_fold (λ _ tk n, (weight tk + n)%nat) 0%nat ts.

Lemma work_of_insert t tk ts : ts !! t = None → work_of (<[t := tk]> ts) = (weight tk + work_of ts)%nat.
Proof. intros Ht. unfold work_of. rewrite map_fold_insert_L; [done|intros; lia|done]. Qed.

Lemma work_of_delete t tk ts : ts !! t = Some tk → work_of ts = (weight tk + work_of (delete t ts))%nat.
Proof. intros Ht. rewrite <- (work_of_insert t) by apply lookup_delete_eq. by rewrite insert_delete_id. Qed.

Lemma work_of_update t tk tk' ts :
  ts !! t = Some tk → (weight tk' < weight tk)%nat → (work_of (<[t := tk']> ts) < work_of ts)%nat.
Proof.
  intros Ht Hw. rewrite (work_of_delete t tk ts Ht), <- insert_delete_eq, work_of_insert by apply lookup_delete_eq. lia.
Qed.

Lemma progress_decreases s e s' :
  progress_event e = true → step s e = Some s' → (work_of (tasks s') < work_of (tasks s))%nat.
Proof.
  intros He H. destruct e as [|now|m|t|t now later|t o now|t w|t w| |]; try done; simpl in H.
  - apply take_job_inv in H as (tk&i&Ht&_&Hp&_&->). simpl. apply (work_of_update t tk); [done|].
    unfold weight. rewrite Hp. simpl. lia.
  - case_match; [|done]. apply take_global_inv in H as (tk&i&Ht&_&Hp&_&[(_&->)|(_&->)]); simpl.
    + apply (work_of_update t tk); [done|]. unfold weight. rewrite Hp. simpl. lia.
    + rewrite (work_of_delete t tk (tasks s) Ht). unfold weight. rewrite Hp. lia.
  - case_match; [|done]. apply handler_done_inv in H as (tk&i&Ht&_&Hp&->). simpl.
    apply (work_of_update t tk); [done|]. unfold weight. rewrite Hp. simpl. lia.
  - apply written_done_inv in H as (tk&i&Ht&_&Hp&->). simpl.
    assert (tasks (persist_state w s) = tasks s) as -> by (unfold persist_state; by case_match).
    rewrite (work_of_delete t tk (tasks s) Ht). unfold weight. rewrite Hp. lia.
Qed.

(** Some task in flight can always move. *)
Lemma progress_possible s :
  slots_ok s → tasks s ≠ ∅ → ∃ e s', progress_event e = true ∧ step s e = Some s'.
Proof.
  intros Hok Hne.
  assert (∀ t tk, tasks s !! t = Some tk → holds_global tk = true →
    ∃ e s', progress_event e = true ∧ step s e = Some s') as Hglobal.
  { intros t tk Ht Hg. destruct (ok_known s Hok t tk Ht) as [j Hj]. unfold holds_global in Hg.
    destruct (task_phase tk) eqn:Hp; try done.
    - exists (EvHandler t (returned JNull) 0). simpl. unfold handler_done. rewrite Ht. simpl. rewrite Hj. simpl.
      rewrite Hp. eauto.
    - exists (EvWritten t true). simpl. unfold written_done. rewrite Ht. simpl. rewrite Hj. simpl. rewrite Hp. eauto. }
  destruct (global_lock s) as [g|] eqn:Hgl.
  { destruct (ok_global_task s Hok g Hgl) as (tk&Ht&Hg). by eapply Hglobal. }
  assert (∀ t tk, tasks s !! t = Some tk → holds_job tk = true →
    ∃ e s', progress_event e = true ∧ step s e = Some s') as Hjob.
  { intros t tk Ht Hh. destruct (ok_known s Hok t tk Ht) as [j Hj].
    destruct (holds_global tk) eqn:Hg; [by eapply Hglobal|]. unfold holds_job, holds_global in *.
    destruct (task_phase tk) eqn:Hp; try done. exists (EvTakeGlobal t 0 0). simpl. unfold take_global.
    rewrite Ht. simpl. rewrite Hj. simpl. rewrite Hp, Hgl. case_match; eauto. }
  apply map_choose in Hne as (t&tk&Ht). destruct (holds_job tk) eqn:Hh; [by eapply Hjob|].
  destruct (ok_known s Hok t tk Ht) as [j Hj]. destruct (job_lock j) as [u|] eqn:Hl.
  { destruct (ok_job_task s Hok _ j u Hj Hl) as (uk&Hu&_&Hhu). by eapply Hjob. }
  exists (EvTakeJob t). simpl. unfold take_job. rewrite Ht. simpl. rewrite Hj. simpl. rewrite Hl.
  unfold holds_job in Hh. destruct (task_phase tk); try done. eauto.
Qed.

(** C33. The maintenance loop cannot deadlock.  From every reachable state, as
    long as a task is in flight some task can take its next step (take its
    job's lock, take the global lock, finish its handler, finish the schedule
    write), every such step brings the tasks closer to their end, and so any
    run made of such steps is bounded and can be continued until nothing is in
    flight and every lock is free. *)
Theorem inflight_tasks_finish s :
  reachable s →
  (tasks s ≠ ∅ → ∃ e s', progress_event e = true ∧ step s e = Some s') ∧
  (∀ es s', Forall (λ e, progress_event e = true) es → run s es = Some s' → (length es ≤ work_of (tasks s))%nat) ∧
  ∃ es s', Forall (λ e, progress_event e = true) es ∧ run s es = Some s' ∧ tasks s' = ∅ ∧ global_lock s' = None.
Proof.
  intros Hr%reachable_slots. split; [by apply progress_possible|]. split.
  - intros es. revert s Hr. induction es as [|e es IH]; intros s Hr s' Hall Hrun; simpl; [lia|].
    apply Forall_cons in Hall as [He Hes]. simpl in Hrun. destruct (step s e) as [s1|] eqn:Hs; [|done].
    pose proof (progress_decreases s e s1 He Hs). pose proof (IH s1 (slots_step s e s1 Hr Hs) s' Hes Hrun). lia.
  - remember (work_of (tasks s)) as w eqn:Hw. revert s Hr Hw. induction (lt_wf w) as [w _ IH]. intros s Hr ->.
    destruct (decide (tasks s = ∅)) as [He|Hne].
    + exists [], s. split; [constructor|]. split; [done|]. split; [done|].
      destruct (global_lock s) as [t|] eqn:Hg; [|done].
      destruct (ok_global_task s Hr t Hg) as (tk&Ht&_). by rewrite He in Ht.
    + destruct (progress_possible s Hr Hne) as (e&s1&He&Hs).
      destruct (IH _ (progress_decreases s e s1 He Hs) s1 (slots_step s e s1 Hr Hs) eq_refl) as (es&s'&Hall&Hrun&Hend).
      exists (e :: es), s'. split; [by constructor|]. simpl. by rewrite Hs.
Qed.

(** ** The schedule across a restart *)

(** Every stamp is a UTC time in range, as [utc_now()] makes them. *)
Definition stamps_utc (s : loop) : Prop :=
  ∀ n j t, jobs s !! n = Some j → last_run_at j = Some t ∨ last_success_at j = Some t →
    ∃ z, t = utc z ∧ 0 ≤ z < datetime_end.

Lemma insert_order {A} (m : gmap string A) (l : list string) n x :
  (∀ k, k ∈ l ↔ is_Some (m !! k)) → is_Some (m !! n) → ∀ k, k ∈ l ↔ is_Some (<[n := x]> m !! k).
Proof.
  intros Hl Hn k. rewrite Hl. destruct (decide (n = k)) as [<-|Hne].
  - rewrite lookup_insert_eq. split; [by eexists|done].
  - by rewrite lookup_insert_ne.
Qed.

Definition ordered (s : loop) : Prop := ∀ n, n ∈ order s ↔ is_Some (jobs s !! n).

Lemma ordered_set_job s n j s' :
  ordered s → is_Some (jobs s !! n) → order s' = order s → jobs s' = <[n := j]> (jobs s) → ordered s'.
Proof. intros Ho Hn Eo Ej k. rewrite Eo, Ej. by apply insert_order. Qed.

Lemma ordered_step s e s' : ordered s → step s e = Some s' → ordered s'.
Proof.
  intros Ho H. destruct e as [|now|m|t|t now later|t o now|t w|t w| |]; simpl in H.
  - injection H as <-. unfold start, load_state. destruct (started s); [done|].
    destruct (persistent s); [|done]. simpl. destruct (file s) as [| |[]]; try done.
    intros n. simpl. rewrite (Ho n), map_lookup_imap. destruct (jobs s !! n); simpl; [|done].
    split; by eexists.
  - case_match; [|done]. injection H as <-. apply tick_jobs_ind; [done|done|].
    intros s1 m i s2 Ho1 Hi _ Hn. pose proof Hn as (_&_&i'&Ejs&_)%note_in_flight_frame; [|done].
    apply (ordered_set_job s1 m i'); [done|by eexists| |done].
    by apply note_in_flight_shape in Hn as [->|[[_ ->]|(_&_&->)]].
  - unfold run_once in H. destruct (jobs s !! m); [|done]. by injection H as <-.
  - apply take_job_inv in H as (tk&i&_&Hi&_&_&->). by eapply ordered_set_job.
  - case_match; [|done]. apply take_global_inv in H as (tk&i&_&Hi&_&_&[(_&->)|(_&->)]); by eapply ordered_set_job.
  - case_match; [|done]. apply handler_done_inv in H as (tk&i&Ht&Hi&Hp&->). by eapply ordered_set_job.
  - apply written_done_inv in H as (tk&i&_&Hi&_&->). unfold persist_state.
    destruct (persistent s && w); by eapply ordered_set_job.
  - apply cancel_inv in H as (tk&i&_&Hi&[(_&->)|[(_&->)|(_&H)]]); [done|by eapply ordered_set_job|].
    apply written_done_inv in H as (tk'&i'&_&Hi'&_&->). unfold persist_state.
    destruct (persistent s && w); by eapply ordered_set_job.
  - case_match; [|done]. by injection H as <-.
  - case_match; [|done]. by injection H as <-.
Qed.

Lemma reachable_ordered s : reachable s → ordered s.
Proof.
  apply reachable_ind'; [|intros ???; apply ordered_step]. intros js hs p f _ n. simpl.
  rewrite list_elem_of_In, <- in_rev, <- list_elem_of_In, elem_of_remove_dups, list_elem_of_In, <- in_rev, <- list_elem_of_In.
  split.
  - intros (j&->&Hj)%list_elem_of_fmap. apply not_eq_None_Some. intros Hnone.
    apply not_elem_of_list_to_map in Hnone. apply Hnone, list_elem_of_In. rewrite map_rev, <- in_rev, <- list_elem_of_In.
    rewrite map_map. by apply (list_elem_of_fmap_2 job_name).
  - intros [j Hj]. assert (jobs (new_loop js hs p f) !! n = Some j) as [Hin <-]%new_loop_jobs by done.
    by apply list_elem_of_fmap_2.
Qed.

Lemma list_to_map_omap {A} (g : string → option A) (ns : list string) n :
  (list_to_map (omap (λ n, (n,.) <$> g n) ns) : gmap string A) !! n = if bool_decide (n ∈ ns) then g n else None.
Proof.
  induction ns as [|m ns IH]; simpl; [done|]. destruct (decide (n = m)) as [->|Hne].
  - rewrite bool_decide_eq_true_2 by left. destruct (g m) as [x|] eqn:Hg; simpl; [by rewrite lookup_insert_eq|].
    etrans; [apply IH|]. by case_bool_decide.
  - assert (bool_decide (n ∈ m :: ns) = bool_decide (n ∈ ns)) as ->
      by (apply bool_decide_ext; rewrite elem_of_cons; naive_solver).
    destruct (g m); simpl; [by rewrite lookup_insert_ne|done].
Qed.

(** What reading back a block the loop wrote gives. *)
Lemma parse_stamp_block f key raw s :
  jget key raw = Some (stamp_block f s) → slots_ok s → ordered s →
  (∀ n j t, jobs s !! n = Some j → f j = Some t → ∃ z, t = utc z ∧ 0 ≤ z < datetime_end) →
  ∀ n, parse_timestamp_map raw key !! n = (j ← jobs s !! n; f j).
Proof.
  intros Hk Hok Ho Hst n. unfold parse_timestamp_map. rewrite Hk. unfold stamp_block.
  assert (∀ l, omap (λ '(n, iso), (n,.) <$> parse_state_timestamp iso)
      (omap (λ n, j ← jobs s !! n; t ← f j; Some (job_name j, JStr (isoformat t))) l) =
    omap (λ n, (n,.) <$> (j ← jobs s !! n; f j)) l) as ->.
  { induction l as [|m l IH]; simpl; [done|].
    destruct (jobs s !! m) as [j|] eqn:Hj; simpl; [|done]. destruct (f j) as [t|] eqn:Hf; simpl; [|done].
    destruct (Hst m j t Hj Hf) as (z&->&Hz). rewrite fromisoformat_isoformat by done. simpl.
    rewrite (ok_name s Hok m j Hj). f_equal. exact IH. }
  rewrite list_to_map_omap. specialize (Ho n). destruct (jobs s !! n) as [j|] eqn:Hj.
  - rewrite bool_decide_eq_true_2; [done|]. apply Ho. by eexists.
  - case_bool_decide; done.
Qed.

(** The schedule survives a restart.  A loop that starts from the file a
    reachable loop wrote gives every job it shares with it exactly the last run
    and the last success it had, to the microsecond, and leaves the counters
    alone, so a job with an unchanged interval is due in the new process exactly
    when it was due in the old one. *)
Theorem schedule_survives_restart s s0 n j j0 now :
  reachable s → stamps_utc s → persistent s = true →
  persistent s0 = true → file s0 = file (persist_state true s) →
  jobs s !! n = Some j → jobs s0 !! n = Some j0 →
  last_run_at j0 = None → last_success_at j0 = None → interval_seconds j0 = interval_seconds j →
  ∃ j1, jobs (load_state s0) !! n = Some j1 ∧
    last_run_at j1 = last_run_at j ∧ last_success_at j1 = last_success_at j ∧
    is_due j1 now = is_due j now ∧ runs_total j1 = runs_total j0 ∧ enabled j1 = enabled j0.
Proof.
  intros Hr Hst Hp Hp0 Hf Hj Hj0 Hn1 Hn2 Hi. unfold load_state. rewrite Hp0, Hf. unfold persist_state. rewrite Hp. simpl.
  unfold state_payload. rewrite map_lookup_imap, Hj0. simpl.
  pose proof (reachable_slots s Hr) as Hok. pose proof (reachable_ordered s Hr) as Ho.
  eexists. split; [done|]. unfold restore_stamps, is_due, set_run. cbn [last_run_at last_success_at interval_seconds runs_total enabled].
  rewrite (parse_stamp_block last_run_at "last_run_at" _ s) by eauto.
  rewrite (parse_stamp_block last_success_at "last_success_at" _ s) by eauto.
  rewrite Hj, Hn1, Hn2. simpl. rewrite Hi.
  assert (∀ o : option datetime, first_some o None = o) as Hfs by (by intros []).
  by rewrite !Hfs.
Qed.

(** ** An interval out of range *)

(** One interval out of range starves other jobs.  Once a job whose
    interval exceeds what a [timedelta] holds has run, the due check raises on
    every tick, which ends the iteration there: no job configured after it is
    ever started by a tick again, whatever its own schedule says. *)
Theorem huge_interval_starves now s pre n post j t e :
  order s = pre ++ n :: post → n ∉ pre → jobs s !! n = Some j → enabled j = true →
  last_run_at j = Some t → timedelta_seconds (interval_seconds j) = Raise e →
  tick_jobs now (order s) s = tick_jobs now pre s ∧
  ∀ u tk, tasks (tick_jobs now (order s) s) !! u = Some tk → tasks s !! u = Some tk ∨ task_job tk ∈ pre.
Proof.
  intros Ho Hpre Hj Hen Hrun Hbig.
  assert (tick_jobs now (order s) s = tick_jobs now pre s) as ->.
  { rewrite Ho. clear Ho. revert s Hj. induction pre as [|m pre IH]; intros s Hj; simpl.
    - rewrite Hj, Hen. simpl. unfold is_due. rewrite Hrun, Hbig. done.
    - apply not_elem_of_cons in Hpre as [Hne Hpre]. specialize (IH Hpre).
      destruct (jobs s !! m) as [i|] eqn:Hm; [|by apply IH]. destruct (enabled i); simpl; [|by apply IH].
      destruct (is_due i now) as [[|]|?]; [|by apply IH|done].
      destruct (job_lock i); [|by apply IH]. destruct (note_in_flight m i now s) as [s'|] eqn:Hn; [|done].
      apply IH. apply note_in_flight_frame in Hn as (_&_&i'&->&_); [|done]. by rewrite lookup_insert_ne. }
  split; [done|]. clear Hpre Ho Hj. revert s. induction pre as [|m pre IH]; intros s u tk; simpl; [by left|].
  assert (∀ s1 : loop, (∀ v vk, tasks s1 !! v = Some vk → tasks s !! v = Some vk ∨ task_job vk = m) →
    tasks (tick_jobs now pre s1) !! u = Some tk → tasks s !! u = Some tk ∨ task_job tk ∈ m :: pre) as Hgo.
  { intros s1 Hs1 [H|H]%IH; [|right; by right]. apply Hs1 in H as [H|<-]; [by left|right; left]. }
  destruct (jobs s !! m) as [i|] eqn:Hm; [|apply Hgo; by left]. destruct (enabled i); simpl; [|apply Hgo; by left].
  destruct (is_due i now) as [[|]|?]; [|apply Hgo; by left|by left].
  destruct (job_lock i).
  - destruct (note_in_flight m i now s) as [s'|] eqn:Hn; [|by left].
    apply note_in_flight_frame in Hn as (Et&_); [|done]. apply Hgo. rewrite Et. by left.
  - apply Hgo. intros v vk. simpl. intros [[_ <-]|[_ H]]%lookup_insert_Some; [by right|by left].
Qed.

(** ** The job list *)

Definition infinite (v : option json) : Prop := v = Some (JFloat "inf") ∨ v = Some (JFloat "-inf").

Lemma int_of_float_cases s : 
  (∃ z, int_of_float s = Ok z) ∨ int_of_float s = Raise ValueError ∨
  int_of_float s = Raise OverflowError ∧ s ∈ ["inf"; "-inf"]%string.
Proof.
  unfold int_of_float. case_bool_decide as H; [auto|].
  destruct (split_sign _) as [neg l]. destruct (span_chars is_digit l) as [ip l']. 
  destruct (match l' with [] => _ | c :: l'0 => _ end) as [fp l2]. case_bool_decide; [auto|left; by eexists].
Qed.

Lemma interval_of_cases v :
  (∃ z, interval_of v = Ok z ∧ 0 < z) ∨ interval_of v = Raise OverflowError ∧ infinite (Some v).
Proof.
  assert (∀ z : Z, 0 < if z <=? 0 then 3600 else z) as Hpos by (intros z; destruct (Z.leb_spec z 0); lia).
  unfold interval_of. destruct v as [|b|z|s|s|l|l]; simpl; try (left; eexists; split; [done|]; done).
  - destruct (int_of_float_cases s) as [[z ->]|[->|[-> Hs]]].
    + left. eexists. split; [done|apply Hpos].
    + left. by exists 3600.
    + right. split; [done|]. rewrite !elem_of_cons in Hs. destruct Hs as [->|[->|Hs%elem_of_nil]]; [by left|by right|done].
  - destruct (py_int s) as [z|]; left; [|by exists 3600]. eexists. split; [done|apply Hpos].
Qed.

Lemma interval_of_infinite v : infinite (Some v) → interval_of v = Raise OverflowError.
Proof. by intros [[= ->]|[= ->]]. Qed.

(** The merged interval entry of a default job. *)
Definition interval_entry (overrides : gmap string (list (string * json))) (d : string * Z * bool) : json :=
  merged (default [] (overrides !! d.1.1)) "interval_seconds" (JInt d.1.2).

Lemma jobs_of_spec overrides ds :
  match jobs_of overrides ds with
  | Ok js => map job_name js = map default_name ds ∧
      Forall (λ j, idle j ∧ 0 < interval_seconds j ∧ last_run_at j = None ∧ last_success_at j = None) js ∧
      (∀ d, d ∈ ds → ¬ infinite (Some (interval_entry overrides d))) ∧
      (∀ n i on, (n, i, on) ∈ ds → 0 < i → overrides !! n = None → new_job n i on ∈ js)
  | Raise e => e = OverflowError ∧ ∃ d, d ∈ ds ∧ infinite (Some (interval_entry overrides d))
  end.
Proof.
  induction ds as [|[[n i] on] ds IH]; simpl.
  { repeat split; [constructor|by intros d ?%elem_of_nil|by intros n i on ?%elem_of_nil]. }
  fold (interval_entry overrides (n, i, on)).
  assert (merged (default [] (overrides !! n)) "interval_seconds" (JInt i) = interval_entry overrides (n, i, on)) as -> by done.
  destruct (interval_of_cases (interval_entry overrides (n, i, on))) as [(z&Hz&Hpos)|[Hz Hinf]]; rewrite Hz; simpl;
    [|split; [done|]; eexists; split; [left|done]].
  destruct (jobs_of overrides ds) as [js|e]; simpl.
  - destruct IH as (Hn&Hall&Hfin&Hdef). split; [by rewrite Hn|]. split; [by repeat constructor|]. split.
    + intros d [->|Hd]%elem_of_cons; [|by apply Hfin]. intros Hi%interval_of_infinite. congruence.
    + intros m k b [[= -> -> ->]|Hin]%elem_of_cons Hk Hov; [|right; by apply Hdef].
      assert (interval_of (JInt i) = Ok i) as Hi by (unfold interval_of; simpl; by rewrite (proj2 (Z.leb_gt i 0) Hk)).
      unfold interval_entry, merged in Hz. simpl in Hz. rewrite Hov in Hz |- *. simpl in Hz |- *.
      assert (z = i) as -> by congruence. left.
  - destruct IH as (->&d&Hd&Hi). split; [done|]. exists d. split; [by right|done].
Qed.

(** The job list is the default one, tuned by name.  Whatever the
    configuration file holds, [load_jobs] either returns the six default jobs in
    their order, each with a positive interval and no history, and each job the
    file does not name exactly at its defaults, or raises [OverflowError]; and
    it raises exactly when the interval of some job is an infinite float, which
    [json] reads from [Infinity] or [1e999] and which the handler of bad
    intervals does not catch. *)
Theorem load_jobs_outcomes file_config :
  let overrides := job_overrides (config_entries file_config) in
  match load_jobs file_config with
  | Ok js =>
      map job_name js = ["db_vacuum"; "db_integrity_check"; "embedding_backfill"; "db_backup"; "git_onboard_resync";
        "cloud_backup"]%string ∧
      Forall (λ j, idle j ∧ 0 < interval_seconds j ∧ last_run_at j = None ∧ last_success_at j = None) js ∧
      (∀ d, d ∈ DEFAULT_JOBS → ¬ infinite (Some (interval_entry overrides d))) ∧
      (∀ n i on, (n, i, on) ∈ DEFAULT_JOBS → overrides !! n = None → new_job n i on ∈ js)
  | Raise e => e = OverflowError ∧ ∃ d, d ∈ DEFAULT_JOBS ∧ infinite (Some (interval_entry overrides d))
  end.
Proof.
  intros overrides. unfold load_jobs. fold overrides. pose proof (jobs_of_spec overrides DEFAULT_JOBS) as H.
  destruct (jobs_of overrides DEFAULT_JOBS) as [js|e]; [|done]. destruct H as (Hn&Hall&Hfin&Hdef).
  split; [done|]. split; [done|]. split; [done|]. intros n i on Hin. apply Hdef; [done|].
  assert (Forall (λ d : string * Z * bool, 0 < d.1.2) DEFAULT_JOBS) as Hpos by (repeat constructor).
  rewrite Forall_forall in Hpos. by apply (Hpos (n, i, on)).
Qed.

(** ** Witnesses *)

Definition two_jobs : loop :=
  new_loop [new_job "db_vacuum" (10 ^ 15) true; new_job "db_backup" 60 true] {["db_vacuum"; "db_backup"]}%string true absent.

(** Start, a tick at one second that spawns both jobs, then a full run of the
    first. *)
Definition first_run : list event :=
  [EvStart; EvTick 1000000; EvTakeJob 0; EvTakeJob 1; EvTakeGlobal 0 1000000 1000000;
   EvHandler 0 (returned JNull) 3000000; EvWritten 0 true].
Definition after_run : loop := default two_jobs (run two_jobs first_run).

Lemma reachable_two : reachable after_run.
Proof.
  exists [new_job "db_vacuum" (10 ^ 15) true; new_job "db_backup" 60 true], {["db_vacuum"; "db_backup"]}%string, true, absent, first_run.
  split; [by repeat constructor|]. vm_compute. reflexivity.
Qed.

Lemma one_job_at_a_time_witness : tasks after_run ≠ ∅ ∧
  ∀ t u tk uk, tasks after_run !! t = Some tk → tasks after_run !! u = Some uk →
     holds_global tk = true → holds_global uk = true → t = u.
Proof. split; [vm_compute; discriminate|]. exact (proj1 (one_job_at_a_time after_run reachable_two)). Defined.

Lemma job_accounting_witness :
  match jobs after_run !! "db_vacuum"%string with
  | Some j => runs_ok j = 1 ∧ runs_ok j + runs_failed j ≤ runs_total j
  | None => False
  end.
Proof.
  destruct (jobs after_run !! "db_vacuum"%string) as [j|] eqn:Hj; [|vm_compute in Hj; discriminate Hj].
  destruct (job_accounting after_run "db_vacuum" j reachable_two Hj) as (E&_&_&Hle&_). split; [|exact Hle].
  rewrite E. vm_compute. reflexivity.
Defined.

Lemma inflight_tasks_finish_witness :
  ∃ es s', Forall (λ e, progress_event e = true) es ∧ run after_run es = Some s' ∧ tasks s' = ∅.
Proof.
  destruct (inflight_tasks_finish after_run reachable_two) as (_&_&es&s'&H1&H2&H3&_). exists es, s'. auto.
Defined.

Definition plain_jobs : list JobState := [new_job "db_backup" 60 true; new_job "cloud_backup" 60 false].
Definition plain_loop : loop := new_loop plain_jobs {["db_backup"; "cloud_backup"]}%string true absent.

Lemma intervals_plain : intervals_ok plain_loop.
Proof.
  intros n j [Hj _]%new_loop_jobs. unfold plain_jobs in Hj. rewrite !elem_of_cons in Hj.
  destruct Hj as [->|[->|Hj%elem_of_nil]]; done.
Qed.

Lemma tick_starts_due_jobs_witness :
  size (tasks (tick_jobs (utc 1000000) (order plain_loop) plain_loop)) = 1%nat.
Proof.
  assert (Hr : reachable plain_loop).
  { exists plain_jobs, {["db_backup"; "cloud_backup"]}%string, true, absent, []. split; [by repeat constructor|done]. }
  destruct (tick_starts_due_jobs (utc 1000000) plain_loop Hr intervals_plain) as (_&Hs&_).
  rewrite Hs. vm_compute. reflexivity.
Defined.

Lemma success_is_earned_witness :
  match run two_jobs (take 5 first_run) with
  | Some s =>
      match step s (EvHandler 0 (returned JNull) 3000000) with
      | Some s' => ∀ j j', jobs s !! "db_vacuum"%string = Some j → jobs s' !! "db_vacuum"%string = Some j' →
          last_success_at j' = last_success_at j ∨ runs_ok j' = runs_ok j + 1
      | None => False
      end
  | None => False
  end.
Proof.
  destruct (run two_jobs (take 5 first_run)) as [s|] eqn:Hs; [|vm_compute in Hs; discriminate Hs].
  destruct (step s (EvHandler 0 (returned JNull) 3000000)) as [s'|] eqn:Hs'.
  - intros j j' Hj Hj'. destruct (success_is_earned s (EvHandler 0 (returned JNull) 3000000) s' "db_vacuum" j j' Hs'
      ltac:(discriminate) Hj Hj') as [H|(t&v&now&tk&_&_&_&_&_&_&_&_&_&H)]; [left; exact H|right; exact H].
  - assert (Hx : match run two_jobs (take 5 first_run) with
      | Some s => match step s (EvHandler 0 (returned JNull) 3000000) with Some _ => True | None => False end
      | None => False end) by (vm_compute; exact I).
    rewrite Hs, Hs' in Hx. exact Hx.
Defined.

Lemma stamps_after_run : stamps_utc after_run.
Proof.
  assert (∀ n j, jobs after_run !! n = Some j →
    match last_run_at j, last_success_at j with
    | Some a, Some b => a = utc 3000000 ∧ b = utc 3000000
    | None, None => True
    | _, _ => False
    end) as H.
  {
    assert (Forall (λ nj : string * JobState, match last_run_at nj.2, last_success_at nj.2 with
      | Some a, Some b => a = utc 3000000 ∧ b = utc 3000000
      | None, None => True
      | _, _ => False
      end) (map_to_list (jobs after_run))) as Hall by (vm_compute; repeat constructor).
    rewrite Forall_forall in Hall. intros n j Hj. apply (Hall (n, j)). by apply elem_of_map_to_list. }
  intros n j t Hj Ht. specialize (H n j Hj). exists 3000000. split; [|unfold datetime_end; lia].
  destruct (last_run_at j), (last_success_at j); naive_solver.
Qed.

Definition restarted : loop :=
  new_loop [new_job "db_vacuum" (10 ^ 15) true; new_job "db_backup" 60 true] {["db_vacuum"; "db_backup"]}%string true
    (file (persist_state true after_run)).

Lemma schedule_survives_restart_witness :
  ∃ j1, jobs (load_state restarted) !! "db_vacuum"%string = Some j1 ∧ last_success_at j1 = Some (utc 3000000).
Proof.
  destruct (jobs after_run !! "db_vacuum"%string) as [j|] eqn:Hj; [|vm_compute in Hj; discriminate Hj].
  assert (Hi : interval_seconds j = 10 ^ 15 ∧ last_success_at j = Some (utc 3000000)).
  { assert (Hx : match jobs after_run !! "db_vacuum"%string with
      | Some j => interval_seconds j = 10 ^ 15 ∧ last_success_at j = Some (utc 3000000) | None => False end)
      by (vm_compute; split; reflexivity). rewrite Hj in Hx. exact Hx. }
  destruct (schedule_survives_restart after_run restarted "db_vacuum" j (new_job "db_vacuum" (10 ^ 15) true) (utc 4000000)
    reachable_two stamps_after_run eq_refl eq_refl eq_refl Hj ltac:(vm_compute; reflexivity) eq_refl eq_refl
    (eq_sym (proj1 Hi))) as (j1&H1&_&H2&_).
  exists j1. split; [exact H1|]. rewrite H2. exact (proj2 Hi).
Defined.

Lemma huge_interval_starves_witness :
  map_Forall (λ u tk, tasks after_run !! u = Some tk) (tasks (tick_jobs (utc (10 ^ 16)) (order after_run) after_run)).
Proof.
  destruct (jobs after_run !! "db_vacuum"%string) as [j|] eqn:Hj; [|vm_compute in Hj; discriminate Hj].
  assert (Hx : match jobs after_run !! "db_vacuum"%string with
    | Some j => enabled j = true ∧ last_run_at j = Some (utc 3000000) ∧
        timedelta_seconds (interval_seconds j) = Raise OverflowError
    | None => False end) by (vm_compute; repeat split; reflexivity).
  rewrite Hj in Hx. destruct Hx as (He&Hl&Ho).
  intros u tk Hu. destruct (proj2 (huge_interval_starves (utc (10 ^ 16)) after_run [] "db_vacuum" ["db_backup"%string] j
    (utc 3000000) OverflowError ltac:(vm_compute; reflexivity) ltac:(intros H; inversion H) Hj He Hl Ho) u tk Hu) as [H|H];
    [exact H|inversion H].
Defined.
