(* ===== verification/PyRepr.v ===== *)
(** * [str] and [repr] of decoded JSON values

    What [str(v)] shows of a value of a JSON document: a string is itself, a
    float its held [repr], a container the [repr] of its parts, in which strings
    float its held [repr], a container the [repr] of its parts, in which strings
    are quoted and escaped.  Then [v == n] of a decoded value and an integer, and
    [json.dumps] with ASCII output. *)

From S2P Require Import Prelude PyStr PyText Sha256 Domain PyNum.
Local Open Scope string_scope.

(** [str.isprintable] on one character. *)
Definition printable (c : ascii) : bool :=
  let n := code c in ((32 <=? n) && (n <=? 126) || (161 <=? n) && negb (n =? 173))%N.
Definition BACKSLASH : ascii := chr 92.
Definition repr_char (quote c : ascii) : list ascii :=
  if bool_decide (c = quote) || bool_decide (c = BACKSLASH) then [BACKSLASH; c]
  else if (code c =? 9)%N then [BACKSLASH; "t"%char]
  else if (code c =? 10)%N then [BACKSLASH; "n"%char]
  else if (code c =? 13)%N then [BACKSLASH; "r"%char]
  else if printable c then [c]
  else [BACKSLASH; "x"%char; hex_digit (N.shiftr (code c) 4); hex_digit (N.land (code c) 15)].
Definition repr_str (s : string) : string :=
  let l := chars s in
  let single := "'"%char in
  let double := chr 34 in
  let quote := if bool_decide (single ∈ l) && negb (bool_decide (double ∈ l)) then double else single in
  of_chars (quote :: (concat (map (repr_char quote) l) ++ [quote])%list).

Fixpoint py_repr (v : json) : string :=
  match v with
  | JNull => "None"
  | JBool b => if b then "True" else "False"
  | JInt z => str_of_Z z
  | JFloat s => s
  | JStr s => repr_str s
  | JArr l => "[" +:+ py_join ", " (map py_repr l) +:+ "]"
  | JObj l => "{" +:+ py_join ", " (map (λ kv, repr_str kv.1 +:+ ": " +:+ py_repr kv.2) l) +:+ "}"
  end.
(** [str(v)] *)
Definition py_str (v : json) : string := match v with JStr s => s | _ => py_repr v end.

Example py_str_forms : py_str (JArr [JStr "it's"; JStr "a\b"; JNull; JObj [("k", JInt (-3))]; JBool true])
  = of_chars (chr 91 :: chr 34 :: (chars "it's" ++ [chr 34] ++ chars ", 'a\\b', None, {'k': -3}, True]")%list).
Proof. vm_compute. reflexivity. Qed.

(** ** Equality with an integer *)

Local Open Scope Z_scope.

(** Whether the float with this [repr] is a whole number. *)
Definition float_whole (repr : string) : bool :=
  let (_, l) := split_sign (chars repr) in
  let (ip, l) := span_chars is_digit l in
  let (fp, l) := match l with
    | c :: l' => if bool_decide (c = "."%char) then span_chars is_digit l' else ([], l)
    | [] => ([], l) end in
  let e := match l with
    | c :: l' => if is_exp c then (let (neg, ds) := split_sign l' in signed neg (digits_value ds)) else 0
    | [] => 0 end in
  let x := e - Z.of_nat (length fp) in
  negb (bool_decide (ip = [])) && ((0 <=? x) || (digits_value (ip ++ fp) mod 10 ^ (- x) =? 0)).

(** [v == n] *)
Definition eq_int (v : json) (n : Z) : bool :=
  match v with
  | JInt z => z =? n
  | JBool b => (if b then 1 else 0) =? n
  | JFloat s => float_whole s && match int_of_float s with Ok z => z =? n | Raise _ => false end
  | _ => false
  end.

Example eq_int_forms : map (λ v, eq_int v 1) [JInt 1; JBool true; JFloat "1.0"; JFloat "1.5"; JFloat "1e+16"; JStr "1"; JNull]
  = [true; true; true; false; false; false; false].
Proof. vm_compute. reflexivity. Qed.

(** ** [json.dumps] *)

Definition dumps_char (c : ascii) : list ascii :=
  let n := code c in
  if bool_decide (c = BACKSLASH) || (n =? 34)%N then [BACKSLASH; c]
  else if (n =? 8)%N then [BACKSLASH; "b"%char]
  else if (n =? 9)%N then [BACKSLASH; "t"%char]
  else if (n =? 10)%N then [BACKSLASH; "n"%char]
  else if (n =? 12)%N then [BACKSLASH; "f"%char]
  else if (n =? 13)%N then [BACKSLASH; "r"%char]
  else if ((32 <=? n) && (n <=? 126))%N then [c]
  else [BACKSLASH; "u"; "0"; "0"; hex_digit (N.shiftr n 4); hex_digit (N.land n 15)]%char.
Definition dumps_str (s : string) : string :=
  of_chars (chr 34 :: concat (map dumps_char (chars s)) ++ [chr 34])%list.
Definition dumps_float (repr : string) : string :=
  if bool_decide (repr = "inf"%string) then "Infinity"
  else if bool_decide (repr = "-inf"%string) then "-Infinity"
  else if bool_decide (repr = "nan"%string) then "NaN" else repr.
(** [json.dumps(v, separators=(items, keys))] *)
Fixpoint dumps_with (items keys : string) (v : json) : string :=
  match v with
  | JNull => "null"
  | JBool b => if b then "true" else "false"
  | JInt z => str_of_Z z
  | JFloat s => dumps_float s
  | JStr s => dumps_str s
  | JArr l => "[" +:+ py_join items (map (dumps_with items keys) l) +:+ "]"
  | JObj l => "{" +:+ py_join items (map (λ kv, dumps_str kv.1 +:+ keys +:+ dumps_with items keys kv.2) l) +:+ "}"
  end%string.
(** The order of [sort_keys=True]. *)
Definition key_leb (a b : string * json) : bool := str_leb a.1 b.1.
Definition json_dumps (v : json) : string := dumps_with ", " ": " v.

Example json_dumps_forms : str_len (json_dumps (JObj [("k", JArr [JInt (-3); JNull; JBool true]); ("s", JStr (of_chars [chr 233; chr 10]))]%string)) = 40.
Proof. vm_compute. reflexivity. Qed.
