(* ===== verification/Config.v ===== *)
(** * Configuration

    [config/env_helpers.py], [config/settings.py], [config/paths.py], the
    listener settings of [interfaces/api/config.py] and
    [interfaces/mcp/config.py].  The environment is a map of strings, a section
    of core.json a decoded value.  Warnings are left out. *)

From S2P Require Import Prelude PyStr PyText Sha256 Domain PyNum PyRepr.
Local Open Scope Z_scope.
Local Open Scope prog_scope.

Abbreviation environment := (gmap string string).

Definition blank (s : string) : bool := bool_decide (py_strip s = ""%string).

(** ** Values *)

(** [env_helpers.py:16-35 parse_int] *)
Definition parse_int (value : json) (default : Z) : Z :=
  match value with
  | JInt z => z
  | JStr s => match py_int (py_strip s) with Some z => z | None => default end
  | _ => default
  end.

(** The text of a [float] literal: a sign, digits with single underscores
    between them, a fraction, an exponent; [inf], [infinity], [nan]. *)
Definition digit_run (l : list ascii) : option (list ascii) := match l with [] => Some [] | _ => digit_group true l end.
Definition is_mantissa (c : ascii) : bool := is_digit c || bool_decide (c = "_"%char).
Definition parse_number (l : list ascii) : option (Z * Z) :=
  let (ip, l) := span_chars is_mantissa l in
  let (fp, l) := match l with
    | c :: l' => if bool_decide (c = "."%char) then span_chars is_mantissa l' else ([], l)
    | [] => ([], l) end in
  a ← digit_run ip;
  b ← digit_run fp;
  if bool_decide (a ++ b = []) then None
  else
    let d := digits_value (a ++ b) in
    let x := - Z.of_nat (length b) in
    match l with
    | [] => Some (d, x)
    | c :: l' =>
        if is_exp (py_lower c) then
          let (neg, ds) := split_sign l' in
          n ← digit_group true ds;
          Some (d, x + signed neg (digits_value n))
        else None
    end.
Definition f64_of_decimal (d x : Z) : spec_float :=
  if 0 <=? x then f64_of_Z (d * 10 ^ x) else fratio d (10 ^ (- x)).
Definition f64_sign (negative : bool) (f : spec_float) : spec_float := if negative then SFopp f else f.
(** [float(text)]; [None] is its [ValueError]. *)
Definition py_float (s : string) : option spec_float :=
  let (negative, l) := split_sign (chars (str_lower (py_strip s))) in
  if bool_decide (of_chars l = "inf" ∨ of_chars l = "infinity")%string then Some (f64_sign negative (S754_infinity false))
  else if bool_decide (of_chars l = "nan")%string then Some S754_nan
  else '(d, x) ← parse_number l; Some (f64_sign negative (f64_of_decimal d x)).
(** [float(n)] of an [int] *)
Definition float_of_int (n : Z) : result exn spec_float :=
  match f64_of_Z n with S754_infinity _ => Raise OverflowError | f => Ok f end.
(** [f <= 0] *)
Definition not_positive (f : spec_float) : bool := SFleb f (S754_zero false).

(** [env_helpers.py:38-56 parse_float] *)
Definition parse_float (value : json) (default : spec_float) : result exn spec_float :=
  match value with
  | JInt z => float_of_int z
  | JFloat s => Ok (match py_float s with Some f => f | None => default end)
  | JStr s => Ok (match py_float (py_strip s) with Some f => f | None => default end)
  | _ => Ok default
  end.

(** [env_helpers.py:59-65 parse_str] *)
Definition parse_str (value : json) (default : string) : string :=
  match value with
  | JNull => default
  | JStr s => if bool_decide (s = ""%string) then default else s
  | v => py_str v
  end.

(** [env_helpers.py:68-83 parse_int_env] *)
Definition parse_int_env (raw : option string) (default : Z) : Z :=
  match raw with
  | Some s => if blank s then default else match py_int (py_strip s) with Some z => z | None => default end
  | None => default
  end.

Definition valid_port (n : Z) : bool := (1 <=? n) && (n <=? 65535).
(** [env_helpers.py:86-127 resolve_port] *)
Definition resolve_port (env_raw : option string) (file_value : json) (default : Z) : Z :=
  let fallback := match file_value with JInt z => if valid_port z then z else default | _ => default end in
  let env_text := match env_raw with Some s => py_strip s | None => ""%string end in
  let env_port := if bool_decide (env_text = ""%string) then None else py_int env_text in
  match env_port with
  | Some n => if valid_port n then n else fallback
  | None => fallback
  end.

Definition TRUE_WORDS : list string := ["1"; "true"; "yes"; "on"]%string.
Definition FALSE_WORDS : list string := ["0"; "false"; "no"; "off"]%string.
(** [env_helpers.py:134-152 parse_bool_env] *)
Definition parse_bool_env (raw : option string) (default : bool) : bool :=
  match raw with
  | None => default
  | Some s =>
      if blank s then default
      else
        let value := str_lower (py_strip s) in
        if bool_decide (value ∈ TRUE_WORDS) then true
        else if bool_decide (value ∈ FALSE_WORDS) then false else default
  end.

(** [env_helpers.py:155-169 env_override] *)
Definition env_override (environ : environment) (env_name : string) (file_value : json) : json :=
  match environ !! env_name with
  | Some v => if blank v then file_value else JStr v
  | None => file_value
  end.

(** [env_helpers.py:172-180 parse_csv_tags] *)
Definition parse_csv_tags (value : option string) : option (list string) :=
  match value with
  | None => None
  | Some v =>
      if bool_decide (v = ""%string) then None
      else Some (filter (λ t, t ≠ ""%string) (map py_strip (py_split_on ","%char v)))
  end.

(** [section or {}], then [section.get(key)]: a section that is set and is not
    an object has no [get]. *)
Definition section_of (file_config : json) : result exn (list (string * json)) :=
  if negb (truthy file_config) then Ok []
  else match file_config with JObj l => Ok l | _ => Raise AttributeError end.
Definition entry (key : string) (fc : list (string * json)) : json := default JNull (jget key fc).

(** ** Embedding settings *)

Definition VALID_EMBEDDING_PROVIDERS : list string := ["none"; "stub"; "openai"; "ollama"]%string.
(** [settings.py:20-27 EmbeddingSettings] *)
Record EmbeddingSettings := mkSettings {
  provider : string;
  model : string;
  dimensions : option Z;
  api_key : string;
  timeout : spec_float;
}.
(** [settings.py:29-37 EmbeddingSettings.__post_init__] *)
Definition new_settings (s : EmbeddingSettings) : result exn EmbeddingSettings :=
  if negb (bool_decide (provider s ∈ VALID_EMBEDDING_PROVIDERS)) then Raise ValueError
  else if match dimensions s with Some d => d <? 1 | None => false end then Raise ValueError
  else if not_positive (timeout s) then Raise ValueError
  else Ok s.

Definition THIRTY : spec_float := f64_of_Z 30.
(** [settings.py:40-84 load_embedding_settings] *)
Definition load_embedding_settings (environ : environment) (file_config : json) : result exn EmbeddingSettings :=
  let? fc := section_of file_config in
  let dims := parse_int (env_override environ "OC_EMBEDDING_DIMENSIONS" (entry "dimensions" fc)) 0 in
  let dims := if dims <? 0 then 0 else dims in
  let? t := parse_float (env_override environ "OC_EMBEDDING_TIMEOUT" (entry "timeout" fc)) THIRTY in
  let t := if not_positive t then THIRTY else t in
  let p := str_lower (parse_str (env_override environ "OC_EMBEDDING_PROVIDER" (entry "provider" fc)) "none") in
  let p := if bool_decide (p ∈ VALID_EMBEDDING_PROVIDERS) then p else "none"%string in
  new_settings (mkSettings p
    (parse_str (env_override environ "OC_EMBEDDING_MODEL" (entry "model" fc)) "")
    (if dims =? 0 then None else Some dims)
    (parse_str (env_override environ "OC_EMBEDDING_API_KEY" (entry "api_key" fc)) "")
    t).

(** ** Paths *)

(** [Path(p)] and [Path(d) / suffix] *)
Inductive pypath := Path (p : string) | Below (directory suffix : string).
(** [paths.py:25-47 _env] *)
Definition env_path (environ : environment) (name : string) : option string :=
  v ← environ !! name; if blank v then None else Some v.
(** [paths.py:50-75 _resolve] *)
Definition resolve_path (environ : environment) (explicit : option string) (env_var : string) (data_dir : option string)
    (data_dir_suffix fallback : string) : pypath :=
  match explicit, env_path environ env_var, data_dir with
  | Some p, _, _ => Path p
  | None, Some v, _ => Path v
  | None, None, Some d => Below d data_dir_suffix
  | None, None, None => Path fallback
  end.
(** [paths.py:86-107 RuntimePaths.resolve] *)
Definition resolve_paths (environ : environment) (db_path config_dir output_dir : option string) : pypath * pypath * pypath :=
  let data_dir := env_path environ "OC_DATA_DIR" in
  (resolve_path environ db_path "OC_DB_PATH" data_dir "openchronicle.db" "data/openchronicle.db",
   resolve_path environ config_dir "OC_CONFIG_DIR" data_dir "config" "config",
   resolve_path environ output_dir "OC_OUTPUT_DIR" data_dir "output" "output").

(** ** Listeners *)

(** [mcp/config.py:17-21 DEFAULT_ALLOWED_HOSTS] *)
Definition DEFAULT_ALLOWED_HOSTS : list string := ["127.0.0.1:*"; "localhost:*"; "[::1]:*"]%string.

Definition non_blank (l : list string) : list string := filter (λ s, s ≠ ""%string) (map py_strip l).
(** [mcp/config.py:93-112 parse_allowed_hosts] *)
Definition parse_allowed_hosts (env_value : option string) (file_value : json) : list string :=
  let or_default l := if bool_decide (l = []) then DEFAULT_ALLOWED_HOSTS else l in
  let from_file := match file_value with JArr hosts => or_default (non_blank (map py_str hosts)) | _ => DEFAULT_ALLOWED_HOSTS end in
  match env_value with
  | Some v => if blank v then from_file else or_default (non_blank (py_split_on ","%char v))
  | None => from_file
  end.

(** [mcp/config.py:115-119 str_or_default] *)
Definition str_or_default (value : json) (default : string) : string :=
  match value with JStr s => if blank s then default else py_strip s | _ => default end.

(** [os.environ.get(name, "").strip() or fallback] *)
Definition env_or (environ : environment) (name : string) (fallback : string) : string :=
  let v := py_strip (default ""%string (environ !! name)) in
  if bool_decide (v = ""%string) then fallback else v.
Definition non_empty (s : string) : option string := if bool_decide (s = ""%string) then None else Some s.

(** [api/config.py:17-35 HTTPConfig] *)
Record HTTPConfig := mkHTTP { http_host : string; http_port : Z; http_api_key : option string; http_allowed_hosts : list string }.
(** [api/config.py:41-65 HTTPConfig.from_env] *)
Definition http_config (environ : environment) (file_config : json) : result exn HTTPConfig :=
  let? fc := section_of file_config in
  let host := env_or environ "OC_API_HOST" (str_or_default (entry "host" fc) "127.0.0.1") in
  let port := resolve_port (environ !! "OC_API_PORT"%string) (entry "port" fc) 8000 in
  let key := non_empty (env_or environ "OC_API_KEY" (str_or_default (entry "api_key" fc) "")) in
  let hosts := parse_allowed_hosts
    (match environ !! "OC_API_ALLOWED_HOSTS"%string ≫= non_empty with Some v => Some v | None => environ !! "OC_MCP_ALLOWED_HOSTS"%string end)
    (entry "allowed_hosts" fc) in
  if negb (valid_port port) then Raise ValueError else Ok (mkHTTP host port key hosts).

(** [mcp/config.py:25-46 MCPConfig] *)
Record MCPConfig := mkMCP { mcp_transport : string; mcp_host : string; mcp_port : Z; mcp_server_name : string; mcp_allowed_hosts : list string }.
Definition TRANSPORTS : list string := ["stdio"; "sse"; "streamable-http"]%string.
(** [mcp/config.py:47-90 MCPConfig.from_env] *)
Definition mcp_config (environ : environment) (file_config : json) (binds_port : bool) : result exn MCPConfig :=
  let? fc := section_of file_config in
  let transport := env_or environ "OC_MCP_TRANSPORT" (str_or_default (entry "transport" fc) "stdio") in
  if negb (bool_decide (transport ∈ TRANSPORTS)) then Raise ValueError
  else
    let host := env_or environ "OC_MCP_HOST" (str_or_default (entry "host" fc) "127.0.0.1") in
    let port := if binds_port && negb (bool_decide (transport = "stdio"%string))
      then resolve_port (environ !! "OC_MCP_PORT"%string) (entry "port" fc) 8080 else 8080 in
    Ok (mkMCP transport host port (str_or_default (entry "server_name" fc) "openchronicle")
      (parse_allowed_hosts (environ !! "OC_MCP_ALLOWED_HOSTS"%string) (entry "allowed_hosts" fc))).
