(* ===== verification/Urls.v ===== *)
(** * URLs and IP addresses

    What the program takes from Python's [urllib.parse] ([urlsplit], [urlunsplit],
    [hostname]) and [ipaddress], as of Python 3.14, over Latin-1 text: there NFKC
    yields none of the characters [urlsplit] refuses, and [ValueError] is the one
    error.  An IP address is its number. *)

From S2P Require Import Prelude PyStr PyText Sha256 Domain.
Local Open Scope Z_scope.

(** ** Cutting at a character *)

(** [l.partition(c)]: [None] in the middle for no [c]. *)
Definition cut (c : ascii) (l : list ascii) : list ascii * option (list ascii) :=
  match partition_chars [c] l with Some (a, b) => (a, Some b) | None => (l, None) end.
Definition before (c : ascii) (l : list ascii) : list ascii := (cut c l).1.
Definition after (c : ascii) (l : list ascii) : list ascii := default [] (cut c l).2.
(** [l.rpartition(c)[2]] and [l.rsplit(c, 1)[1]] where there is a [c] *)
Definition after_last (c : ascii) (l : list ascii) : list ascii := rev (before c (rev l)).
Definition has (c : ascii) (l : list ascii) : bool := bool_decide (c ∈ l).

(** ** Addresses *)

Definition hex_value (c : ascii) : option Z :=
  let n := Z.of_N (code c) in
  if is_digit c then Some (n - 48)
  else if (97 <=? n) && (n <=? 102) then Some (n - 87)
  else if (65 <=? n) && (n <=? 70) then Some (n - 55) else None.

Definition parse_octet (l : list ascii) : option Z :=
  if bool_decide (l = []) || negb (forallb is_digit l) || (3 <? length l)%nat then None
  else if match l with c :: _ :: _ => bool_decide (c = "0"%char) | _ => false end then None
  else if 255 <? digits_value l then None else Some (digits_value l).
(** [IPv4Address(text)] *)
Definition ipv4 (l : list ascii) : option Z :=
  match mapM parse_octet (split_at "." [] l) with
  | Some [a; b; c; d] => Some (((a * 256 + b) * 256 + c) * 256 + d)
  | _ => None
  end.

Definition parse_hextet (l : list ascii) : option Z :=
  if bool_decide (l = []) || (4 <? length l)%nat then None
  else foldl (λ acc c, acc ← acc; d ← hex_value c; Some (acc * 16 + d)) (Some 0) l.
(** The parts between colons, an IPv4 end turned into two. *)
Definition hextets (parts : list (list ascii)) : option (list (option Z)) :=
  match rev parts with
  | last :: front =>
      if has "." last then
        n ← ipv4 last;
        Some (map (λ p, if bool_decide (p = []) then None else Some (default (-1) (parse_hextet p))) (rev front)
              ++ [Some (Z.shiftr n 16); Some (Z.land n 65535)])
      else Some (map (λ p, if bool_decide (p = []) then None else Some (default (-1) (parse_hextet p))) parts)
  | [] => None
  end.
Definition blanks (l : list (option Z)) : nat := length (filter (λ p, p = None) l).
Definition hextet_value (acc : option Z) (p : option Z) : option Z :=
  acc ← acc; n ← p; if n <? 0 then None else Some (acc * 65536 + n).
(** The address without its scope: eight parts, or fewer around one [::]. *)
Definition ipv6_number (l : list ascii) : option Z :=
  if (45 <? length l)%nat then None
  else
  let parts := split_at ":" [] l in
  if (length parts <? 3)%nat then None
  else
    ps ← hextets parts;
    if (9 <? length ps)%nat then None
    else
      let inner := removelast (tl ps) in
      if (1 <? blanks inner)%nat then None
      else
        match list_find (λ p, p = None) inner with
        | None => if bool_decide (length ps = 8%nat) && (blanks ps =? 0)%nat then foldl hextet_value (Some 0) ps else None
        | Some (i, _) =>
            let hi := take (S i) ps in
            let lo := drop (S (S i)) ps in
            let hi' := match hi with None :: hi' => hi' | _ => hi end in
            let lo' := match rev lo with None :: lo' => rev lo' | _ => lo end in
            if (match hi with None :: _ :: _ => true | _ => false end) || (match rev lo with None :: _ :: _ => true | _ => false end)
            then None
            else if (7 <? length hi' + length lo')%nat then None
            else foldl hextet_value (Some 0) (hi' ++ repeat (Some 0) (8 - (length hi' + length lo')) ++ lo')
        end.
(** [IPv6Address(text)], a scope identifier included. *)
Definition ipv6 (l : list ascii) : option Z :=
  if has "/" l then None
  else match cut "%" l with
    | (addr, None) => ipv6_number addr
    | (addr, Some scope) => if bool_decide (scope = []) || has "%" scope then None else ipv6_number addr
    end.

Inductive address := V4 (n : Z) | V6 (n : Z).
(** [ipaddress.ip_address(text)]; [None] is its [ValueError]. *)
Definition ip_address (l : list ascii) : option address :=
  match ipv4 l with Some n => Some (V4 n) | None => match ipv6 l with Some n => Some (V6 n) | None => None end end.

Definition net4 (a b c d bits : Z) : Z * Z := ((((a * 256 + b) * 256 + c) * 256 + d), 32 - bits).
Definition net6 (hi : list Z) (lo bits : Z) : Z * Z :=
  (foldl (λ acc n, acc * 65536 + n) 0 (hi ++ repeat 0 (7 - length hi)) * 65536 + lo, 128 - bits).
Definition in_net (n : Z) (net : Z * Z) : bool := Z.shiftr n net.2 =? Z.shiftr net.1 net.2.
Definition PRIVATE4 : list (Z * Z) :=
  [net4 0 0 0 0 8; net4 10 0 0 0 8; net4 127 0 0 0 8; net4 169 254 0 0 16; net4 172 16 0 0 12; net4 192 0 0 0 24;
   net4 192 0 0 170 31; net4 192 0 2 0 24; net4 192 168 0 0 16; net4 198 18 0 0 15; net4 198 51 100 0 24;
   net4 203 0 113 0 24; net4 240 0 0 0 4; net4 255 255 255 255 32].
Definition EXCEPTIONS4 : list (Z * Z) := [net4 192 0 0 9 32; net4 192 0 0 10 32].
Definition PRIVATE6 : list (Z * Z) :=
  [net6 [] 1 128; net6 [] 0 128; net6 [0; 0; 0; 0; 0; 65535] 0 96; net6 [100; 65435; 1] 0 48; net6 [256] 0 64;
   net6 [8193] 0 23; net6 [8193; 3512] 0 32; net6 [8194] 0 16; net6 [16383] 0 20; net6 [64512] 0 7; net6 [65152] 0 10].
Definition EXCEPTIONS6 : list (Z * Z) :=
  [net6 [8193; 1] 1 128; net6 [8193; 1] 2 128; net6 [8193; 3] 0 32; net6 [8193; 4; 274] 0 48; net6 [8193; 32] 0 28;
   net6 [8193; 48] 0 28].
Definition private4 (n : Z) : bool := existsb (in_net n) PRIVATE4 && negb (existsb (in_net n) EXCEPTIONS4).
Definition mapped4 (n : Z) : option Z := if Z.shiftr n 32 =? 65535 then Some (Z.land n (2 ^ 32 - 1)) else None.
(** [address.is_private] *)
Definition is_private (a : address) : bool :=
  match a with
  | V4 n => private4 n
  | V6 n => match mapped4 n with
      | Some m => private4 m
      | None => existsb (in_net n) PRIVATE6 && negb (existsb (in_net n) EXCEPTIONS6) end
  end.
(** [address.is_loopback] *)
Definition is_loopback (a : address) : bool :=
  match a with
  | V4 n => in_net n (net4 127 0 0 0 8)
  | V6 n => match mapped4 n with Some m => in_net m (net4 127 0 0 0 8) | None => n =? 1 end
  end.

(** ** [urlsplit] *)

Record split_result := mkSplit { scheme : list ascii; netloc : list ascii; path : list ascii; query : list ascii; fragment : list ascii }.

Definition is_control_or_space (c : ascii) : bool := (code c <=? 32)%N.
Definition is_alpha_ascii (c : ascii) : bool := is_upper_ascii c || is_lower_ascii c.
Definition scheme_char (c : ascii) : bool := is_alpha_ascii c || is_digit c || bool_decide (c ∈ ["+"; "-"; "."]%char).
Definition unsafe_byte (c : ascii) : bool := bool_decide (c ∈ [TAB; chr 13; NEWLINE]).
Definition ends_netloc (c : ascii) : bool := bool_decide (c ∈ ["/"; "?"; "#"]%char).

(** [_check_bracketed_host] raises [ValueError] unless this holds. *)
Definition bracketed_host_ok (l : list ascii) : bool :=
  match l with
  | c :: l' =>
      if bool_decide (c = "v"%char) then
        let (digits, rest) := span_chars (λ d, some_b (hex_value d)) l' in
        negb (bool_decide (digits = []))
        && match rest with d :: x :: more => bool_decide (d = "."%char) && negb (existsb (λ y, bool_decide (y = NEWLINE)) (x :: more)) | _ => false end
      else match ip_address l with Some (V6 _) => true | _ => false end
  | [] => false
  end.
(** The brackets of a network location that has any. *)
Definition brackets_ok (netloc : list ascii) : bool :=
  match has "[" netloc, has "]" netloc with
  | false, false => true
  | true, true =>
      let hp := after_last "@" netloc in
      match cut "[" hp with
      | (front, Some bracketed) =>
          let port := after "]" bracketed in
          bool_decide (front = []) && (match port with [] => true | c :: _ => bool_decide (c = ":"%char) end)
          && bracketed_host_ok (before "]" bracketed)
      | (_, None) => bracketed_host_ok (before ":" hp)
      end
  | _, _ => false
  end.

(** The scheme in front of the first colon, and the rest. *)
Definition split_scheme (l : list ascii) : list ascii * list ascii :=
  match cut ":" l with
  | ((c :: s) as front, Some rest) =>
      if is_alpha_ascii c && forallb scheme_char front then (map py_lower front, rest) else ([], l)
  | _ => ([], l)
  end.
(** [urlsplit(url)]; [None] is its [ValueError]. *)
Definition urlsplit (url : list ascii) : option split_result :=
  let l := filter (λ c, unsafe_byte c = false) (lstrip_chars is_control_or_space url) in
  let (scheme, l) := split_scheme l in
  let '(netloc, l) := match eat ["/"; "/"]%char l with
    | Some l' => span_chars (λ c, negb (ends_netloc c)) l'
    | None => ([], l) end in
  if negb (brackets_ok netloc) then None
  else
    let '(l, fragment) := (before "#" l, after "#" l) in
    let '(path, query) := (before "?" l, after "?" l) in
    Some (mkSplit scheme netloc path query fragment).

(** [parts.hostname], with [""] for [None] *)
Definition hostname (p : split_result) : list ascii :=
  let hostinfo := after_last "@" (netloc p) in
  let host := match cut "[" hostinfo with
    | (_, Some bracketed) => before "]" bracketed
    | (_, None) => before ":" hostinfo end in
  match cut "%" host with
  | (h, Some zone) => map py_lower h ++ "%"%char :: zone
  | (h, None) => map py_lower h
  end.

Definition USES_NETLOC : list string :=
  [""; "ftp"; "http"; "gopher"; "nntp"; "telnet"; "imap"; "wais"; "file"; "mms"; "https"; "shttp"; "snews"; "prospero";
   "rtsp"; "rtsps"; "rtspu"; "rsync"; "svn"; "svn+ssh"; "sftp"; "nfs"; "git"; "git+ssh"; "ws"; "wss"; "itms-services"]%string.
(** [urlunsplit(parts)] *)
Definition urlunsplit (p : split_result) : list ascii :=
  let slashes := ["/"; "/"]%char in
  let url :=
    if negb (bool_decide (netloc p = [])) then
      slashes ++ netloc p ++ (match path p with [] => [] | c :: _ => if bool_decide (c = "/"%char) then path p else "/"%char :: path p end)
    else if is_prefix slashes (path p) then slashes ++ path p
    else if negb (bool_decide (scheme p = [])) && bool_decide (of_chars (scheme p) ∈ USES_NETLOC)
            && (match path p with [] => true | c :: _ => bool_decide (c = "/"%char) end)
    then slashes ++ path p else path p in
  let url := if bool_decide (scheme p = []) then url else scheme p ++ ":"%char :: url in
  let url := if bool_decide (query p = []) then url else url ++ "?"%char :: query p in
  if bool_decide (fragment p = []) then url else url ++ "#"%char :: fragment p.

Definition host_of (url : string) : option string := (λ p, of_chars (hostname p)) <$> urlsplit (chars url).
Definition address_of (s : string) : option address := ip_address (chars s).

Example hosts : map host_of
  ["http://user:pw@NAS:11434/api"; "192.168.1.5:11434"; "//a.b?x@y"; "https://[FE80::1%Eth0]:8443/"; "http://[::1"; "http://[1.2.3.4]/"]%string
  = [Some "nas"; Some ""; Some "a.b"; Some "fe80::1%Eth0"; None; None]%string.
Proof. vm_compute. reflexivity. Qed.
Example addresses : map address_of ["10.0.0.256"; "10.0.0.01"; "::"; "::ffff:10.0.0.1"; "1:2:3:4:5:6:7::"; "1::2::3"; ":1:2:3:4:5:6:7"; "fe80::1%x"; "12345::"]%string
  = [None; None; Some (V6 0); Some (V6 281470849515521); Some (V6 5192455318486707404433266433261568); None; None;
     Some (V6 338288524927261089654018896841347694593); None].
Proof. vm_compute. reflexivity. Qed.
Example privates : map (λ s, is_private <$> address_of s) ["192.168.1.5"; "8.8.8.8"; "192.0.0.9"; "::ffff:8.8.8.8"; "fd00::1"; "2606:4700::1"; "100.64.0.1"]%string
  = map Some [true; false; false; false; true; false; false].
Proof. vm_compute. reflexivity. Qed.
