(* ===== verification/Redaction.v ===== *)
(** * Redaction and logging

    [core/domain/redaction.py], which strips the credentials of a URL, and
    [interfaces/logging_setup.py]: the formatters that apply it to every line, and
    the configuration of the root logger.  Rendering a record to its text, its
    traceback and its time is Python's [logging] and enters as their results. *)

From S2P Require Import Prelude PyStr PyText Sha256 Domain PyNum PyRepr Config Urls.
Local Open Scope Z_scope.

(** ** Userinfo *)

Definition AT : ascii := "@"%char.
(** [redaction.py:11-11 _TEXT_USERINFO] The class before its [@]. *)
Definition in_authority (c : ascii) : bool := negb (bool_decide (c = "/"%char) || py_is_space c).
Definition COLON_SLASHES : list ascii := [":"; "/"; "/"]%char.
(** [redaction.py:11-11 _TEXT_USERINFO] A match at the start of a text: the kept
    group, and the text after the match.  The run up to a slash or white space is
    given back to its last [@]. *)
Definition match_userinfo (l : list ascii) : option (list ascii * list ascii) :=
  match l with
  | c :: l' =>
      if is_alpha_ascii c then
        let (s, r) := span_chars scheme_char l' in
        r ← eat COLON_SLASHES r;
        let (run, rest) := span_chars in_authority r in
        if has AT run then Some (c :: s ++ COLON_SLASHES, after_last AT run ++ rest) else None
      else None
  | [] => None
  end.
(** [pattern.sub(r"\1", text)], from left to right; a step drops a character. *)
Fixpoint strip_userinfo (fuel : nat) (l : list ascii) : list ascii :=
  match fuel with
  | O => l
  | S fuel =>
      match match_userinfo l with
      | Some (kept, rest) => kept ++ strip_userinfo fuel rest
      | None => match l with c :: l' => c :: strip_userinfo fuel l' | [] => [] end
      end
  end.
(** [redaction.py:35-42 redact_userinfo_in_text] *)
Definition redact_userinfo_in_text (text : string) : string :=
  of_chars (strip_userinfo (String.length text) (chars text)).

(** [redaction.py:14-32 redact_url_userinfo] *)
Definition redact_url_userinfo (url : string) : string :=
  let added := negb (contains "://" url) in
  match urlsplit (chars (if added then "http://" +:+ url else url)) with
  | None => redact_userinfo_in_text url
  | Some parts =>
      if negb (has AT (netloc parts)) then url
      else
        let rebuilt := of_chars (urlunsplit
          (mkSplit (scheme parts) (after_last AT (netloc parts)) (path parts) (query parts) (fragment parts))) in
        if added then removeprefix "http://" rebuilt else rebuilt
  end.

(** ** The formatters *)

(** [logging_setup.py:30-39 _RedactingFormatter] over what [logging.Formatter]
    renders, traceback included. *)
Definition human_format (rendered : string) : string := redact_userinfo_in_text rendered.

(** An attribute of a record: a value [json.dumps] takes, or the [repr] of another. *)
Inductive attribute := Plain (v : json) | Opaque (repr : string).
Record log_record := mkLogRecord {
  log_time : string;
  levelname : string;
  logger_name : string;
  log_message : string;
  exc_text : option string;
  attributes : list (string * attribute);
}.
(** [logging_setup.py:51-75 _JsonFormatter._STANDARD_KEYS] *)
Definition STANDARD_KEYS : list string :=
  ["args"; "asctime"; "created"; "exc_info"; "exc_text"; "filename"; "funcName"; "levelname"; "levelno"; "lineno"; "message";
   "module"; "msecs"; "msg"; "name"; "pathname"; "process"; "processName"; "relativeCreated"; "stack_info"; "taskName";
   "thread"; "threadName"]%string.
(** [payload[key] = value] *)
Fixpoint put_key (k : string) (v : json) (l : list (string * json)) : list (string * json) :=
  match l with
  | [] => [(k, v)]
  | (k', v') :: l' => if bool_decide (k' = k) then (k, v) :: l' else (k', v') :: put_key k v l'
  end.
(** [logging_setup.py:89-93 _JsonFormatter.format value] *)
Definition redact_value (a : attribute) : json :=
  match a with
  | Plain (JStr s) | Opaque s => JStr (redact_userinfo_in_text s)
  | Plain v => v
  end.
Definition is_extra (key : string) : bool := negb (bool_decide (key ∈ STANDARD_KEYS)) && negb (starts_with "_" key).
(** [logging_setup.py:77-94 _JsonFormatter.format] The payload. *)
Definition log_payload (r : log_record) : list (string * json) :=
  let payload := [("ts", JStr (log_time r)); ("level", JStr (levelname r)); ("logger", JStr (logger_name r));
                  ("message", JStr (redact_userinfo_in_text (log_message r)))]%string in
  let payload := match exc_text r with Some e => put_key "exc" (JStr (redact_userinfo_in_text e)) payload | None => payload end in
  foldl (λ payload (kv : string * attribute), put_key kv.1 (redact_value kv.2) payload) payload
    (filter (λ kv, is_extra kv.1 = true) (attributes r)).
(** [json.dumps(v, sort_keys=True)] *)
Fixpoint sort_keys (v : json) : json :=
  match v with
  | JArr l => JArr (map sort_keys l)
  | JObj l => JObj (sort_by key_leb (map (λ kv, (kv.1, sort_keys kv.2)) l))
  | v => v
  end.
(** [logging_setup.py:43-94 _JsonFormatter] *)
Definition json_format (r : log_record) : string := json_dumps (sort_keys (JObj (log_payload r))).

(** ** The root logger *)

(** [getattr(logging, name, logging.INFO)] of an upper-case name: a level, or one of
    the two attributes that [setLevel] refuses. *)
Definition LEVELS : list (string * Z) :=
  [("CRITICAL", 50); ("FATAL", 50); ("ERROR", 40); ("WARN", 30); ("WARNING", 30); ("INFO", 20); ("DEBUG", 10); ("NOTSET", 0)]%string.
Definition level_of (name : string) : result exn Z :=
  if bool_decide (name = "BASIC_FORMAT"%string) then Raise ValueError
  else if bool_decide (name = "_STYLES"%string) then Raise TypeError
  else Ok (match list_find (λ p : string * Z, p.1 = name) LEVELS with Some (_, p) => p.2 | None => 20 end).
Inductive log_format := Human | Json.
(** [stream]: standard error, or a rotating file of that absolute path. *)
Record handler := mkHandler { rotating_file : option string; formatter : log_format; level : Z }.
Record root_logger := mkRoot { root_level : Z; handlers : list handler; httpx_quiet : bool }.

(** [logging_setup.py:150-197 _attach_file_handler] [abspath]; [usable]: neither the
    directory nor the handler raised an [OSError]. *)
Definition attach_file_handler (environ : environment) (abspath : string → string) (usable : string → bool)
    (f : log_format) (lv : Z) (hs : list handler) : list handler :=
  let log_file := py_strip (default ""%string (environ !! "OC_LOG_FILE"%string)) in
  if bool_decide (log_file = ""%string) then hs
  else
    let target := abspath log_file in
    match list_find (λ h, rotating_file h = Some target) hs with
    | Some (i, h) => <[i := mkHandler (rotating_file h) f lv]> hs
    | None => if usable target then hs ++ [mkHandler (Some target) f lv] else hs
    end.
(** [logging_setup.py:97-141 configure_root_logger] *)
Definition configure_root_logger (environ : environment) (abspath : string → string) (usable : string → bool)
    (default_level : string) (root : root_logger) : result exn root_logger :=
  let fmt := str_lower (py_strip (default "human"%string (environ !! "OC_LOG_FORMAT"%string))) in
  let f := if bool_decide (fmt = "json"%string) then Json else Human in
  let level_name := str_upper (py_strip (default default_level (environ !! "OC_LOG_LEVEL"%string))) in
  match level_of level_name with
  | Raise e => Raise e
  | Ok lv =>
      let hs := match handlers root with
        | [] => [mkHandler None f lv]
        | hs => map (λ h, mkHandler (rotating_file h) f lv) hs end in
      Ok (mkRoot lv (attach_file_handler environ abspath usable f lv hs) (if 10 <? lv then true else httpx_quiet root))
  end.

(** [logging_setup.py:203-203 _UVICORN_LEVEL_ALIASES] *)
Definition uvicorn_alias (raw : string) : string :=
  if bool_decide (raw = "warn"%string) then "warning" else if bool_decide (raw = "fatal"%string) then "critical" else raw.
(** [logging_setup.py:207-238 uvicorn_log_level] [LOG_LEVELS] is uvicorn's table. *)
Definition uvicorn_log_level (LOG_LEVELS : list string) (environ : environment) (dflt : string) : string :=
  let raw := str_lower (py_strip (default dflt (environ !! "OC_LOG_LEVEL"%string))) in
  if bool_decide (raw = ""%string) then dflt
  else let resolved := uvicorn_alias raw in if bool_decide (resolved ∈ LOG_LEVELS) then resolved else dflt.
