(* ===== verification/GitLog.v ===== *)
(** * Git onboarding: reading history

    [services/git_onboard.py], the extraction half: commit filters, the URL and
    branch policy, the least-privilege environment of a git child, the argument
    lists, the parser of [git log] output and the recovery from an unreachable
    watermark.  A git process is outside code: [run] maps an argument list and
    an environment to its outcome.  The regular expressions are matched
    directly; in each of them the first way to match is the only one. *)

From S2P Require Import Redaction.
From S2P Require Import Prelude PyStr PyText Sha256 Domain DateTime PyNum.
Local Open Scope Z_scope.
Local Open Scope prog_scope.

(** ** Commits *)

(** [git_commit.py:9-20 GitCommit] *)
Record GitCommit := mkCommit {
  gc_hash : string;
  gc_author : string;
  gc_date : datetime;
  gc_subject : string;
  gc_body : string;
  gc_files : list string;
  gc_insertions : Z;
  gc_deletions : Z;
}.
#[global] Instance GitCommit_eq_dec : EqDecision GitCommit.
Proof. solve_decision. Defined.

(** ** Filters *)

(** [git_onboard.py:33-33 _MERGE_PATTERN] *)
Definition merge_subject (s : string) : bool :=
  match eat_ci (chars "merge ") (chars s) with
  | Some l => existsb (λ p, some_b (eat_ci (chars p) l)) ["branch"; "pull request"; "remote-tracking"]%string
  | None => false
  end.
(** [git_onboard.py:34-34 _FORMAT_PATTERN] *)
Definition format_subject (s : string) : bool :=
  existsb (λ p, some_b (eat_ci (chars p) (chars s))) ["fmt"; "style"]%string ||
  match eat_ci (chars "chore:") (chars s) with
  | Some l => some_b (eat_ci (chars "format") (lstrip_chars py_is_space l))
  | None => false
  end.
(** A run of digits and what follows it. *)
Definition eat_number (l : list ascii) : option (list ascii) :=
  match span_chars is_digit l with ([], _) => None | (_, r) => Some r end.
(** [git_onboard.py:35-35 _VERSION_BUMP_PATTERN] *)
Definition version_subject (s : string) : bool :=
  some_b (eat_ci (chars "bump version") (chars s)) ||
  let l := match eat_ci (chars "v") (chars s) with Some l => l | None => chars s end in
  match (l ← eat_number l; l ← eat (chars ".") l; l ← eat_number l; l ← eat (chars ".") l; eat_number l) with
  | Some l => at_end l
  | None => false
  end.

Definition keep_commit (c : GitCommit) : bool :=
  negb (merge_subject (gc_subject c) || format_subject (gc_subject c) || version_subject (gc_subject c)
        || (gc_insertions c =? 0) && (gc_deletions c =? 0)).
(** [git_onboard.py:38-51 filter_commits] *)
Definition filter_commits (commits : list GitCommit) : list GitCommit := filter (λ c, keep_commit c = true) commits.

(** ** URL policy *)

Definition not_space (c : ascii) : bool := negb (py_is_space c).
(** A non-empty run of [p] up to the end. *)
Definition all_to_end (p : ascii → bool) (l : list ascii) : bool :=
  match span_chars p l with ([], _) => false | (_, r) => at_end r end.
(** [git_onboard.py:299-299 _HTTPS_URL] *)
Definition https_url (l : list ascii) : bool :=
  match eat_ci (chars "https://") l with Some r => all_to_end not_space r | None => false end.
(** [git_onboard.py:300-300 _SSH_URL] *)
Definition ssh_url (l : list ascii) : bool :=
  match eat_ci (chars "ssh://") l with Some r => all_to_end not_space r | None => false end.
(** [[A-Za-z0-9._-]] *)
Definition is_name_char (c : ascii) : bool := is_alnum_ascii c || bool_decide (c ∈ ["."; "_"; "-"]%char).
Definition eat_name (l : list ascii) : option (list ascii) :=
  match span_chars is_name_char l with ([], _) => None | (_, r) => Some r end.
(** [git_onboard.py:301-301 _SCP_URL] *)
Definition scp_url (l : list ascii) : bool :=
  match (l ← eat_name l; l ← eat (chars "@") l; l ← eat_name l; eat (chars ":") l) with
  | Some r => all_to_end not_space r
  | None => false
  end.

Definition not_slash (c : ascii) : bool := negb (bool_decide (c = "/"%char)).
(** [repo_url.split("://", 1)[1].split("/", 1)[0]] *)
Definition authority (l : list ascii) : list ascii :=
  match partition_chars (chars "://") l with Some (_, r) => (span_chars not_slash r).1 | None => [] end.

Definition refuse : result exn unit := Raise (RuntimeError "unsupported").
(** [git_onboard.py:304-330 _validate_repo_url] *)
Definition validate_repo_url (repo_url : string) : result exn unit :=
  let l := chars repo_url in
  if negb (https_url l || ssh_url l || scp_url l) then refuse
  else if https_url l && contains_chars (chars "@") (authority l) then refuse
  else if contains_chars (chars "?") l || contains_chars (chars "#") l then refuse
  else Ok tt.

(** [git_onboard.py:336-336 _GITHUB_HTTPS_RE] The optional [.git] is within
    the characters of a name, so the pattern is two names, an optional slash
    and the end. *)
Definition github_https_url (l : list ascii) : bool :=
  match (l ← eat (chars "https://github.com/") l; l ← eat_name l; l ← eat (chars "/") l; eat_name l) with
  | Some r => at_end (match eat (chars "/") r with Some r' => r' | None => r end)
  | None => false
  end.
(** [git_onboard.py:339-358 validate_server_repo_url] *)
Definition validate_server_repo_url (repo_url : string) : result exn unit :=
  let? _ := validate_repo_url repo_url in
  if github_https_url (chars repo_url) then Ok tt else refuse.

(** [git_onboard.py:363-363 _BRANCH_RE] *)
Definition branch_name (l : list ascii) : bool :=
  match l with
  | c :: l' =>
      is_alnum_ascii c && at_end (span_chars (λ c, is_name_char c || bool_decide (c = "/"%char)) l').2
  | [] => false
  end.
(** [git_onboard.py:381-386 _validate_branch] *)
Definition validate_branch (branch : string) : result exn unit :=
  if branch_name (chars branch) then Ok tt else refuse.

Definition is_hex (c : ascii) : bool :=
  is_digit c || ((65 <=? code c) && (code c <=? 70))%N || ((97 <=? code c) && (code c <=? 102))%N.
(** [git_onboard.py:367-367 _WATERMARK_HASH_RE] *)
Definition hash_like (s : string) : bool :=
  let (h, r) := span_chars is_hex (chars s) in
  (7 <=? length h)%nat && (length h <=? 64)%nat && at_end r.

(** ** The environment of a git child *)

(** [git_onboard.py:603-646 _GIT_ENV_PASSTHROUGH] *)
Definition GIT_ENV_PASSTHROUGH : list string :=
  ["PATH"; "HOME"; "TMPDIR"; "USERPROFILE"; "SYSTEMROOT"; "SYSTEMDRIVE"; "COMSPEC"; "PATHEXT"; "Temp"; "TMP";
   "LANG"; "LC_ALL"; "LC_CTYPE"; "SSL_CERT_FILE"; "SSL_CERT_DIR"; "CURL_CA_BUNDLE"; "GIT_SSL_CAINFO";
   "http_proxy"; "https_proxy"; "all_proxy"; "no_proxy"; "HTTP_PROXY"; "HTTPS_PROXY"; "ALL_PROXY"; "NO_PROXY";
   "SSH_AUTH_SOCK"; "GIT_SSH"; "GIT_SSH_COMMAND"; "GIT_CONFIG_GLOBAL"; "GIT_CONFIG_NOSYSTEM"]%string.

Definition env := gmap string string.
(** [git_onboard.py:649-651 _git_child_env] *)
Definition git_child_env (environ : env) : env := filter (λ kv, kv.1 ∈ GIT_ENV_PASSTHROUGH) environ.

Definition b64_char (n : N) : ascii :=
  (if n <? 26 then chr (65 + n) else if n <? 52 then chr (71 + n) else if n <? 62 then chr (n - 4)
   else if n =? 62 then "+"%char else "/"%char)%N.
(** [base64.b64encode] *)
Fixpoint b64 (l : list N) : list ascii :=
  (match l with
   | a :: b :: c :: l' =>
       b64_char (N.shiftr a 2) :: b64_char (N.lor (N.shiftl (N.land a 3) 4) (N.shiftr b 4))
       :: b64_char (N.lor (N.shiftl (N.land b 15) 2) (N.shiftr c 6)) :: b64_char (N.land c 63) :: b64 l'
   | [a; b] =>
       [b64_char (N.shiftr a 2); b64_char (N.lor (N.shiftl (N.land a 3) 4) (N.shiftr b 4));
        b64_char (N.shiftl (N.land b 15) 2); "="%char]
   | [a] => [b64_char (N.shiftr a 2); b64_char (N.shiftl (N.land a 3) 4); "="%char; "="%char]
   | [] => []
   end)%N.

Definition TOKEN : string := "OC_GIT_TOKEN".
Definition HEADER_PREFIX : string := "'http.https://github.com/.extraheader=AUTHORIZATION: Basic ".
Definition basic_header (token : string) : list ascii := b64 (concat (map utf8 (chars ("x-access-token:" +:+ token)))).
(** [git_onboard.py:654-697 _build_clone_env] *)
Definition build_clone_env (environ : env) (repo_url : string) : env :=
  let e := <["GIT_TERMINAL_PROMPT" := "0"]> (git_child_env environ) in
  match environ !! TOKEN with
  | Some token =>
      if negb (bool_decide (token = "")) && starts_with "https://github.com/" repo_url
      then <["GIT_CONFIG_PARAMETERS" := HEADER_PREFIX +:+ of_chars (basic_header token) +:+ "'"]> e
      else e
  | None => e
  end%string.

Definition rstrip_quotes (l : list ascii) : list ascii :=
  rev (lstrip_chars (λ c, bool_decide (c = "'"%char)) (rev l)).
(** [git_onboard.py:700-716 _redact_clone_secrets] *)
Definition clone_secrets (environ clone_env : env) : list (list ascii) :=
  chars (default "" (environ !! TOKEN))%string ::
  match partition_chars (chars "Basic ") (chars (default "" (clone_env !! "GIT_CONFIG_PARAMETERS"))%string) with
  | Some (_, r) => [rstrip_quotes r]
  | None => []
  end.
(** [git_onboard.py:700-716 _redact_clone_secrets] *)
Definition redact_clone_secrets (text : list ascii) (environ clone_env : env) : list ascii :=
  foldl (λ t secret, match secret with [] => t | _ => replace_text secret (chars "***") t end) text
    (clone_secrets environ clone_env).

(** ** Running git *)

(** How a git process ended. *)
Inductive proc := git_missing | git_timeout | exited (code : Z) (out err : string).
Definition Git : Type := list string → env → proc.

Definition SEPARATOR : string := "---GIT_ONBOARD_SEP---".
Definition FIELD_SEP : string := "---GIT_ONBOARD_FIELD---".
Definition BODY_END : string := "---GIT_ONBOARD_BODYEND---".

(** The placeholders of the log format, in order. *)
Definition FORMAT_FIELDS : list string := ["%H"; "%an"; "%aI"; "%s"; "%b"]%string.
(** [git_onboard.py:484-498 extract_commits_from_git] *)
Definition log_argv (repo_path : string) (max_commits : Z) (since_commit : option string) : list string :=
  ["git"; "-C"; repo_path; "log"]%string
  ++ match since_commit with
     | Some h => if bool_decide (h = ""%string) then [] else [(h +:+ "..HEAD")%string]
     | None => [] end
  ++ ["--max-count=" +:+ str_of_Z max_commits; "--no-merges";
      "--format=" +:+ SEPARATOR +:+ py_join FIELD_SEP FORMAT_FIELDS +:+ BODY_END; "--numstat"]%string.

Definition strip_text (l : list ascii) : list ascii := strip_chars py_is_space l.

(** [git_onboard.py:559-572 extract_commits_from_git] One numstat line: its
    counts and its file; [None] when it is skipped. *)
Definition numstat_line (line : list ascii) : option (Z * Z * string) :=
  match split_at TAB [] (strip_text line) with
  | a :: b :: f :: _ =>
      let count x := if bool_decide (x = ["-"%char]) then Some 0 else py_int (of_chars x) in
      ins ← count a; dels ← count b; Some (ins, dels, of_chars f)
  | _ => None
  end.

(** [git_onboard.py:542-551 extract_commits_from_git] *)
Definition commit_date (date_str : string) (now : datetime) : result exn datetime :=
  match fromisoformat date_str with
  | None => Ok now
  | Some d => let? _ := require_utc d in Ok d
  end.

(** [git_onboard.py:518-585 extract_commits_from_git] One entry of the log;
    [Ok None] when it is skipped. *)
Definition parse_entry (now : datetime) (entry : list ascii) : result exn (option GitCommit) :=
  match partition_chars (chars BODY_END) (strip_text entry) with
  | None => Ok None
  | Some (header_part, numstat_part) =>
      match split_upto 4 (chars FIELD_SEP) header_part with
      | h :: a :: d :: s :: rest =>
          let body := match rest with b :: _ => b | [] => [] end in
          let? date := commit_date (of_chars d) now in
          let stats := omap numstat_line (split_at NEWLINE [] numstat_part) in
          Ok (Some (mkCommit (of_chars h) (of_chars a) date (of_chars s) (of_chars (strip_text body))
            (map snd stats) (foldr Z.add 0 (map (λ x, x.1.1) stats)) (foldr Z.add 0 (map (λ x, x.1.2) stats))))
      | _ => Ok None
      end
  end.

Fixpoint parse_entries (clock : nat → datetime) (n : nat) (entries : list (list ascii)) : result exn (list GitCommit) :=
  match entries with
  | [] => Ok []
  | e :: es =>
      let? c := parse_entry (clock n) e in
      let? cs := parse_entries clock (S n) es in
      Ok (match c with Some c => c :: cs | None => cs end)
  end.

(** [git_onboard.py:514-588 extract_commits_from_git] *)
Definition parse_log (clock : nat → datetime) (output : string) : result exn (list GitCommit) :=
  match strip_text (chars output) with
  | [] => Ok []
  | _ => parse_entries clock 0 (split_text (chars SEPARATOR) (chars output))
  end.

(** [git_onboard.py:422-436 ExtractedHistory] *)
Record ExtractedHistory := mkHistory {
  h_commits : list GitCommit;
  h_branch : string;
  h_head : string;
  watermark_unreachable : bool;
}.

Section git.
Context (run : Git) (environ : env) (clock : nat → datetime).

(** [git_onboard.py:470-588 extract_commits_from_git] *)
Definition extract_commits_from_git (repo_path : string) (max_commits : Z) (since_commit : option string)
    : result exn (list GitCommit) :=
  match run (log_argv repo_path max_commits since_commit) (git_child_env environ) with
  | git_missing => Raise (RuntimeError "git is not installed or not in PATH")
  | git_timeout => Raise (RuntimeError "git log timed out after 60 seconds")
  | exited code out err =>
      if negb (code =? 0) then
        let stderr := py_strip err in
        if contains "not a git repository" (str_lower stderr)
        then Raise (RuntimeError ("Not a git repository: " +:+ repo_path))
        else Raise (RuntimeError ("git log failed: " +:+ stderr))
      else parse_log clock out
  end.

(** [git_onboard.py:396-398 _is_unreachable_revision_error] *)
Definition is_unreachable_revision_error (msg : string) : bool :=
  existsb (λ m, contains m (str_lower msg)) ["invalid revision range"; "unknown revision"; "bad revision"]%string.

(** [git_onboard.py:439-467 _extract_with_recovery] *)
Definition extract_with_recovery (repo_path : string) (max_commits : Z) (since_commit : option string)
    : result exn (list GitCommit * bool) :=
  match since_commit with
  | None => let? cs := extract_commits_from_git repo_path max_commits None in Ok (cs, false)
  | Some _ =>
      match extract_commits_from_git repo_path max_commits since_commit with
      | Ok cs => Ok (cs, false)
      | Raise (RuntimeError msg) =>
          if is_unreachable_revision_error msg
          then let? cs := extract_commits_from_git repo_path max_commits None in Ok (cs, true)
          else Raise (RuntimeError msg)
      | Raise e => Raise e
      end
  end.

(** [git_onboard.py:401-419 _resolve_ref] A missing git or a timeout raises
    there too. *)
Definition resolve_ref (repo_path : string) : result exn (string * string) :=
  let ask (args : list string) := match run (["git"; "-C"; repo_path; "rev-parse"]%string ++ args) (git_child_env environ) with
    | git_missing => Raise FileNotFoundError
    | git_timeout => Raise TimeoutExpired
    | exited code out err => Ok (code, out, err)
    end in
  let? (bc, bo, be) := ask ["--abbrev-ref"; "HEAD"]%string in
  let? (hc, ho, he) := ask ["HEAD"]%string in
  if negb (bc =? 0) || negb (hc =? 0) then Raise (RuntimeError ("git rev-parse failed: " +:+ py_strip (be +:+ he)))
  else Ok (py_strip bo, py_strip ho).

(** [git_onboard.py:808-825 extract_history_from_path] *)
Definition extract_history_from_path (repo_path : string) (max_commits : Z) (since_commit : option string)
    : result exn ExtractedHistory :=
  let? (branch, head) := resolve_ref repo_path in
  let? (commits, unreachable) := extract_with_recovery repo_path max_commits since_commit in
  Ok (mkHistory commits branch head unreachable).

(** [git_onboard.py:764-778 extract_commits_from_url] *)
Definition clone_argv (repo_url tmpdir : string) (max_commits : Z) (since_commit branch : option string) : list string :=
  ["git"; "clone"; "--quiet"; "--no-checkout"]%string
  ++ match since_commit with None => ["--depth"; str_of_Z (max_commits + 1)]%string | Some _ => [] end
  ++ match branch with Some b => ["--branch"; b]%string | None => [] end
  ++ ["--"; repo_url; tmpdir]%string.

(** [git_onboard.py:719-805 extract_commits_from_url] *)
Definition extract_commits_from_url (tmpdir repo_url : string) (max_commits : Z) (since_commit branch : option string)
    : result exn ExtractedHistory :=
  let? _ := validate_repo_url repo_url in
  let? _ := match branch with Some b => validate_branch b | None => Ok tt end in
  let clone_env := build_clone_env environ repo_url in
  match run (clone_argv repo_url tmpdir max_commits since_commit branch) clone_env with
  | git_missing => Raise (RuntimeError "git is not installed or not in PATH")
  | git_timeout => Raise (RuntimeError "git clone timed out after 300 seconds")
  | exited code out err =>
      if negb (code =? 0)
      then Raise (RuntimeError ("git clone failed for " +:+ redact_url_userinfo repo_url +:+ ": "
        +:+ of_chars (redact_clone_secrets (chars (py_strip err)) environ clone_env)))
      else extract_history_from_path tmpdir max_commits since_commit
  end.
End git.
