(* ===== verification/GitCluster.v ===== *)
(** * Git onboarding: clusters

    [services/git_onboard.py], the pure half: grouping commits by time, merging
    groups that touch the same files, capping the number of groups, labels, and
    the texts a cluster is presented as.  A label is kept as its parts, which the
    program joins with a dash outside the model's characters; [dash] stands for
    that separator where a text is built. *)

From S2P Require Import Prelude PyStr PyText Domain DateTime PyNum GitLog.
Local Open Scope Z_scope.
Local Open Scope prog_scope.

(** [git_commit.py:23-29 CommitCluster] *)
Record CommitCluster := mkCluster {
  cl_commits : list GitCommit;
  cl_label : list string;
  cl_time_span_days : spec_float;
}.

(** ** Counters *)

(** [counter.most_common(n)] *)
Definition most_common (n : nat) (acc : list (string * Z)) : list (string * Z) :=
  take n (sort_by (λ x y, y.2 <=? x.2) acc).

(** ** Grouping *)

Definition date_leb (a b : GitCommit) : bool := instant (gc_date a) <=? instant (gc_date b).
(** [sorted(commits, key=lambda c: c.date)] *)
Definition by_date (commits : list GitCommit) : list GitCommit := sort_by date_leb commits.

(** [(a - b).total_seconds()] *)
Definition total_seconds (a b : datetime) : spec_float := fratio (instant a - instant b) 1000000.
Definition gap_hours (a b : datetime) : spec_float := fdiv (total_seconds a b) (f64_of_Z 3600).

(** [git_onboard.py:79-87 cluster_commits] *)
Fixpoint time_groups (window : spec_float) (cur : list GitCommit) (prev : GitCommit) (rest : list GitCommit)
    : list (list GitCommit) :=
  match rest with
  | [] => [cur]
  | c :: rest' =>
      if SFltb window (gap_hours (gc_date c) (gc_date prev)) then cur :: time_groups window [c] c rest'
      else time_groups window (cur ++ [c]) c rest'
  end.

Definition files_of (group : list GitCommit) : gset string := list_to_set (concat (map gc_files group)).
(** [git_onboard.py:57-62 _jaccard] *)
Definition jaccard (a b : gset string) : spec_float :=
  if bool_decide (a = ∅) && bool_decide (b = ∅) then S754_zero false
  else fratio (Z.of_nat (size (a ∩ b))) (Z.of_nat (size (a ∪ b))).
(** The float [0.2] *)
Definition OVERLAP : spec_float := S754_finite false 7205759403792794 (-55).

(** [git_onboard.py:90-97 cluster_commits] *)
Fixpoint overlap_groups (cur : list GitCommit) (rest : list (list GitCommit)) : list (list GitCommit) :=
  match rest with
  | [] => [cur]
  | g :: rest' =>
      if SFltb OVERLAP (jaccard (files_of cur) (files_of g)) then overlap_groups (cur ++ g) rest'
      else cur :: overlap_groups g rest'
  end.

(** The first index of the smallest length. *)
Fixpoint smallest_from (i best : nat) (size_ : nat) (groups : list (list GitCommit)) : nat :=
  match groups with
  | [] => best
  | g :: gs => if (length g <? size_)%nat then smallest_from (S i) i (length g) gs else smallest_from (S i) best size_ gs
  end.
Definition smallest_idx (groups : list (list GitCommit)) : nat :=
  match groups with [] => O | g :: gs => smallest_from 1 0 (length g) gs end.

(** [git_onboard.py:114-118 cluster_commits] *)
Definition merge_smallest (merged : list (list GitCommit)) : list (list GitCommit) :=
  let i := smallest_idx merged in
  let into := if (0 <? i)%nat then (i - 1)%nat else if (1 <? length merged)%nat then 1%nat else 0%nat in
  if (into =? i)%nat then merged
  else delete i (alter (λ g, g ++ default [] (merged !! i)) into merged).

(** [git_onboard.py:112-118 cluster_commits] [fuel] bounds the iterations. *)
Fixpoint cap_groups (fuel : nat) (max_clusters : Z) (merged : list (list GitCommit)) : list (list GitCommit) :=
  match fuel with
  | O => merged
  | S fuel' =>
      if max_clusters <? Z.of_nat (length merged) then cap_groups fuel' max_clusters (merge_smallest merged) else merged
  end.

(** ** Labels *)

Definition path_parts (f : string) : list (list ascii) := split_at "/" [] (replace_char "\"%char ["/"%char] (chars f)).
(** [git_onboard.py:133-139 _generate_label] *)
Definition path_prefix (f : string) : string :=
  match path_parts f with
  | a :: b :: _ => of_chars (a ++ "/"%char :: b)
  | [a] => of_chars a
  | [] => ""
  end.
(** [git_onboard.py:144-146 _generate_label] *)
Definition subject_type (s : string) : option string :=
  match span_chars is_word (chars s) with
  | ([], _) => None
  | (w, c :: _) => if bool_decide (c ∈ ["("; ":"]%char) then Some (str_lower (of_chars w)) else None
  | (_, []) => None
  end.
Definition most_common_first (l : list string) : list string := map fst (most_common 1 (count_all l)).

(** [git_onboard.py:129-157 _generate_label] *)
Definition generate_label (commits : list GitCommit) : list string :=
  match most_common_first (map path_prefix (concat (map gc_files commits)))
      ++ most_common_first (omap (λ c, subject_type (gc_subject c)) commits) with
  | [] => [(str_of_Z (Z.of_nat (length commits)) +:+ " commits")%string]
  | parts => parts
  end.

Definition span_days (sorted : list GitCommit) : spec_float :=
  match head sorted, last sorted with
  | Some a, Some b => fdiv (total_seconds (gc_date b) (gc_date a)) (f64_of_Z 86400)
  | _, _ => S754_zero false
  end.
(** [git_onboard.py:121-126 cluster_commits] *)
Definition make_cluster (group : list GitCommit) : CommitCluster :=
  let sorted_group := by_date group in
  mkCluster sorted_group (generate_label sorted_group) (span_days sorted_group).

(** The groups a list of commits falls into. *)
Definition commit_groups (window : spec_float) (max_clusters : Z) (commits : list GitCommit) : list (list GitCommit) :=
  match by_date commits with
  | [] => []
  | c :: rest =>
      match time_groups window [c] c rest with
      | [] => []
      | g :: gs =>
          let merged := overlap_groups g gs in
          cap_groups (length merged) (Z.max 1 max_clusters) merged
      end
  end.
(** [git_onboard.py:65-126 cluster_commits] *)
Definition cluster_commits (window : spec_float) (max_clusters : Z) (commits : list GitCommit) : list CommitCluster :=
  map make_cluster (commit_groups window max_clusters commits).
(** [time_window_hours=72.0] *)
Definition TIME_WINDOW_HOURS : spec_float := f64_of_Z 72.

(** ** Presentation *)

(** [git_onboard.py:163-169 top_files] *)
Definition top_files (c : CommitCluster) (limit : nat) : list string :=
  map fst (most_common limit (count_all (concat (map gc_files (cl_commits c))))).

Definition churn (c : GitCommit) : Z := gc_insertions c + gc_deletions c.
(** [sorted(commits, key=churn, reverse=True)] *)
Definition by_churn (commits : list GitCommit) : list GitCommit := sort_by (λ a b, churn b <=? churn a) commits.

(** [d.date().isoformat()] *)
Definition iso_date (d : datetime) : string :=
  let '(y, m, dd) := date_of (wall d / DAY) in
  of_chars (four y ++ ["-"%char] ++ two m ++ ["-"%char] ++ two dd).

Section texts.
Context (dash : string).

Definition label_text (c : CommitCluster) : string := py_join dash (cl_label c).
Definition newline : string := of_chars [NEWLINE].
Definition str_take (n : nat) (s : string) : string := of_chars (take n (chars s)).

(** [git_onboard.py:209-222 format_cluster_for_synthesis] *)
Definition commit_lines (include_detail : bool) (c : GitCommit) : list string :=
  (("  [" +:+ iso_date (gc_date c) +:+ "] " +:+ gc_subject c)%string
   :: if include_detail then
        let snippet := py_strip (str_take 500 (gc_body c)) in
        (if bool_decide (snippet = ""%string) then [] else [("    " +:+ snippet)%string])
        ++ match gc_files c with
           | [] => []
           | fs =>
               [("    Files: " +:+ py_join ", " (take 10 fs)
                 +:+ if (10 <? length fs)%nat
                     then " (+" +:+ str_of_Z (Z.of_nat (length fs) - 10) +:+ " more)" else "")%string]
           end
        ++ [("    +" +:+ str_of_Z (gc_insertions c) +:+ "/-" +:+ str_of_Z (gc_deletions c))%string]
      else [])
  ++ [""%string].

(** [git_onboard.py:172-223 format_cluster_for_synthesis] *)
Definition format_cluster_for_synthesis (c : CommitCluster) (max_commits : Z) (include_detail : bool)
    : result exn string :=
  let shown := by_date (py_slice 0 max_commits (by_churn (cl_commits c))) in
  let total := length (cl_commits c) in
  match head (cl_commits c), last (cl_commits c) with
  | Some a, Some b =>
      Ok (py_join newline
        (["Cluster: " +:+ label_text c;
          "Date range: " +:+ iso_date (gc_date a) +:+ " to " +:+ iso_date (gc_date b);
          "Total commits: " +:+ str_of_Z (Z.of_nat total)]%string
         ++ (if (length shown <? total)%nat
             then [("Showing: " +:+ str_of_Z (Z.of_nat (length shown)) +:+ " of " +:+ str_of_Z (Z.of_nat total)
                    +:+ " commits (largest-diff first, listed chronologically)")%string] else [])
         ++ [""%string] ++ concat (map (commit_lines include_detail) shown)))
  | _, _ => Raise IndexError
  end.

Record Summary := mkSummary {
  su_label : string;
  su_commit_count : Z;
  su_shown_commit_count : Z;
  su_date_range : string;
  su_created_at : string;
  su_key_files : list string;
  su_commits_summary : string;
  su_suggested_tags : list string;
}.

(** [git_onboard.py:242-247 cluster_to_summary] *)
Definition tag_part (f : string) : option string :=
  match path_parts f with
  | a :: b :: _ => Some (of_chars (if bool_decide (of_chars a ∈ ["src"; "tests"; "plugins"]%string) then b else a))
  | _ => None
  end.

(** [git_onboard.py:226-263 cluster_to_summary] *)
Definition cluster_to_summary (c : CommitCluster) (max_commits : Z) (include_detail : bool) : result exn Summary :=
  let sorted := by_date (cl_commits c) in
  let files := top_files c 10 in
  match head sorted, last sorted with
  | Some a, Some b =>
      let? created := require_utc (gc_date b) in
      let? text := format_cluster_for_synthesis c max_commits include_detail in
      Ok (mkSummary (label_text c) (Z.of_nat (length (cl_commits c)))
        (Z.min max_commits (Z.of_nat (length (cl_commits c))))
        (iso_date (gc_date a) +:+ " to " +:+ iso_date (gc_date b))%string (isoformat created) files text
        ("git-derived"%string :: most_common_first (omap tag_part (take 5 files))))
  | _, _ => Raise IndexError
  end.

(** [git_onboard.py:266-291 format_cluster_as_raw_memory] *)
Definition format_cluster_as_raw_memory (c : CommitCluster) : result exn string :=
  let sorted := by_date (cl_commits c) in
  let primary := top_files c 10 in
  match head sorted, last sorted with
  | Some a, Some b =>
      Ok (py_join newline
        ([("[" +:+ iso_date (gc_date a) +:+ " to " +:+ iso_date (gc_date b) +:+ "] " +:+ label_text c)%string;
          ""%string; "Key changes:"%string]
         ++ map (λ x, "  - " +:+ gc_subject x)%string (take 8 (by_churn (cl_commits c)))
         ++ match primary with
            | [] => []
            | _ => [""; "Primary files:"]%string ++ map (λ f, "  - " +:+ f)%string primary
            end))
  | _, _ => Raise IndexError
  end.
End texts.
