(* ===== verification/TextProps.v ===== *)
(** * Properties of text searching

    When [partition], [split] and [replace] find the separators a text was
    built with, and what is left after a replacement. *)

From S2P Require Import Prelude PyStr PyText.
Local Open Scope Z_scope.

(** ** Prefixes and suffixes of texts *)

Lemma starts_with_spec p s : starts_with p s = true ↔ ∃ k, s = p +:+ k.
Proof.
  unfold starts_with. rewrite is_prefix_spec. split.
  - intros [k Hk]. exists (of_chars k). apply chars_inj. by rewrite chars_app, chars_of_chars.
  - intros [k ->]. exists (chars k). apply chars_app.
Qed.
Lemma ends_with_spec p s : ends_with p s = true ↔ ∃ k, s = k +:+ p.
Proof.
  unfold ends_with. rewrite is_prefix_spec. split.
  - intros [k Hk]. exists (of_chars (rev k)). apply chars_inj. rewrite chars_app, chars_of_chars.
    by rewrite <- (rev_involutive (chars s)), Hk, rev_app_distr, rev_involutive.
  - intros [k ->]. exists (rev (chars k)). by rewrite chars_app, rev_app_distr.
Qed.

Lemma is_prefix_app p l r : is_prefix p l = true → is_prefix p (l ++ r) = true.
Proof. rewrite !is_prefix_spec. intros [k ->]. exists (k ++ r). by rewrite app_assoc. Qed.

Lemma is_prefix_self p r : is_prefix p (p ++ r) = true.
Proof. apply is_prefix_spec. by eexists. Qed.

(** A prefix of a concatenation lies in the first part or crosses into the
    second. *)
Lemma is_prefix_cross p a l :
  is_prefix p (a ++ l) = true →
  is_prefix p a = true ∨ (length a < length p)%nat ∧ a = take (length a) p ∧ is_prefix (drop (length a) p) l = true.
Proof.
  revert a. induction p as [|c p IH]; intros a H; [by left|]. destruct a as [|d a]; simpl in *.
  - right. split; [lia|done].
  - apply andb_true_iff in H as [Hc H]. rewrite Hc. apply bool_decide_eq_true in Hc as ->.
    apply IH in H as [H|(Hl&Ha&H)]; [by left|]. right. split; [lia|]. split; [by f_equal|done].
Qed.

Lemma contains_prefix p l : is_prefix p l = true → contains_chars p l = true.
Proof. intros H. destruct l; simpl; by rewrite H. Qed.

Lemma contains_cons_false p c l : contains_chars p (c :: l) = false → contains_chars p l = false.
Proof. simpl. intros H. apply orb_false_iff in H. tauto. Qed.

Lemma contains_one c l : contains_chars [c] l = true ↔ c ∈ l.
Proof.
  rewrite contains_chars_spec. split.
  - intros (k1&k2&->). set_solver.
  - intros (k1&k2&->)%list_elem_of_split. by exists k1, k2.
Qed.

Lemma contains_app_l p a b : contains_chars p (a ++ b) = false → contains_chars p a = false.
Proof.
  intros H. apply not_true_is_false. intros Hc. apply not_true_iff_false in H. apply H.
  apply contains_chars_spec in Hc as (k1&k2&->). apply contains_chars_spec. exists k1, (k2 ++ b).
  by rewrite <- !app_assoc.
Qed.

Lemma contains_app_r p a b : contains_chars p (a ++ b) = false → contains_chars p b = false.
Proof.
  intros H. apply not_true_is_false. intros Hc. apply not_true_iff_false in H. apply H.
  apply contains_chars_spec in Hc as (k1&k2&->). apply contains_chars_spec. exists (a ++ k1), k2.
  by rewrite <- !app_assoc.
Qed.

(** ** Where a separator is found *)

(** No occurrence of [sep] in [a ++ l] begins within [a]. *)
Fixpoint free (sep a l : list ascii) : Prop :=
  match a with
  | [] => True
  | _ :: a' => is_prefix sep (a ++ l) = false ∧ free sep a' l
  end.

Lemma free_app sep a b l : free sep (a ++ b) l ↔ free sep a (b ++ l) ∧ free sep b l.
Proof.
  induction a as [|c a IH]; simpl; [tauto|]. rewrite IH, <- !app_assoc. tauto.
Qed.

Lemma partition_free sep a l : free sep a (sep ++ l) → partition_chars sep (a ++ sep ++ l) = Some (a, l).
Proof.
  intros H. induction a as [|c a IH]; cbn [app].
  - assert (partition_chars sep (sep ++ l) = Some ([], drop (length sep) (sep ++ l))) as ->.
    { destruct (sep ++ l) eqn:E; simpl; rewrite <- E, is_prefix_self; done. }
    by rewrite drop_app_length.
  - destruct H as [Hp Hf]. cbn [partition_chars]. cbn [app] in Hp. rewrite Hp. by rewrite IH.
Qed.

Lemma partition_none sep l : sep ≠ [] → free sep l [] → partition_chars sep l = None.
Proof.
  intros Hs H. induction l as [|c l IH]; cbn [partition_chars].
  - by destruct sep.
  - destruct H as [Hp Hf]. rewrite app_nil_r in Hp. rewrite Hp. by rewrite IH.
Qed.

(** What a partition found. *)
Lemma partition_some sep l a b :
  partition_chars sep l = Some (a, b) → l = a ++ sep ++ b ∧ (sep ≠ [] → contains_chars sep a = false).
Proof.
  revert a. induction l as [|c l IH]; intros a; cbn [partition_chars].
  - destruct sep; simpl; [|done]. by intros [= <- <-].
  - destruct (is_prefix sep (c :: l)) eqn:Hp.
    + intros [= <- <-]. split; [|by destruct sep]. apply is_prefix_spec in Hp as [k Hk]. rewrite Hk. simpl.
      by rewrite drop_app_length.
    + destruct (partition_chars sep l) as [[a' b']|]; [|done]. simpl. intros [= <- <-].
      destruct (IH a' eq_refl) as [-> Hc]. split; [done|]. intros Hne. simpl. rewrite Hc by done.
      rewrite orb_false_r. apply not_true_is_false. intros H. apply (is_prefix_app _ _ (sep ++ b')) in H. simpl in *.
      congruence.
Qed.

Lemma partition_none_inv sep l : partition_chars sep l = None → contains_chars sep l = false.
Proof.
  induction l as [|c l IH]; cbn [partition_chars].
  - destruct sep; done.
  - destruct (is_prefix sep (c :: l)) eqn:Hp; [done|]. destruct (partition_chars sep l) as [[a b]|]; [done|].
    intros _. cbn [contains_chars]. by rewrite Hp, IH.
Qed.

(** ** Splitting what was joined *)

Lemma split_upto_free n sep a l :
  free sep a (sep ++ l) → split_upto (S n) sep (a ++ sep ++ l) = a :: split_upto n sep l.
Proof. intros H. simpl. by rewrite partition_free. Qed.

Lemma split_upto_last n sep a : sep ≠ [] → free sep a [] → split_upto n sep a = [a].
Proof. intros Hs H. destruct n; simpl; [done|]. by rewrite partition_none. Qed.

(** The pieces of a split hold no separator, with fuel for every one. *)
Lemma split_pieces_free n sep l :
  sep ≠ [] → (length l ≤ n)%nat → Forall (λ p, contains_chars sep p = false) (split_upto n sep l).
Proof.
  intros Hs. revert l. induction n as [|n IH]; intros l Hn; simpl.
  - destruct l; [|simpl in Hn; lia]. repeat constructor. by destruct sep.
  - destruct (partition_chars sep l) as [[a b]|] eqn:Hp.
    + apply partition_some in Hp as [-> Hc]. constructor; [by apply Hc|]. apply IH.
      rewrite !length_app in Hn. destruct sep; [done|]. simpl in Hn. lia.
    + constructor; [|done]. by apply partition_none_inv.
Qed.

(** ** Replacements *)

(** A text cut at a character the needle does not have. *)
Lemma contains_cut s c a b :
  s ≠ [] → c ∉ s → contains_chars s a = false → contains_chars s b = false → contains_chars s (a ++ c :: b) = false.
Proof.
  intros Hne Hc Ha Hb. induction a as [|d a IH]; cbn [app contains_chars].
  - rewrite Hb, orb_false_r. destruct s as [|e s]; [done|]. simpl. rewrite bool_decide_eq_false_2; [done|].
    intros ->. apply Hc. left.
  - apply orb_false_iff. split; [|apply IH; by eapply contains_cons_false].
    apply not_true_is_false. intros H. apply (is_prefix_cross s (d :: a) (c :: b)) in H as [H|(Hl&_&H)].
    + apply contains_prefix in H. congruence.
    + destruct (drop (length (d :: a)) s) as [|e r] eqn:Hd.
      * apply (f_equal length) in Hd. rewrite length_drop in Hd. simpl in *. lia.
      * simpl in H. apply andb_true_iff in H as [He _]. apply bool_decide_eq_true in He as ->. apply Hc.
        rewrite <- (take_drop (length (d :: a)) s), Hd. set_solver.
Qed.

Lemma contains_join s (c : ascii) n pieces :
  s ≠ [] → c ∉ s → Forall (λ p, contains_chars s p = false) pieces →
  contains_chars s (join_chars (repeat c (S n)) pieces) = false.
Proof.
  intros Hne Hc. induction pieces as [|p ps IH]; intros Hall; [by destruct s|].
  apply Forall_cons in Hall as [Hp Hall]. destruct ps as [|q ps]; [done|].
  change (join_chars (repeat c (S n)) (p :: q :: ps)) with (p ++ repeat c (S n) ++ join_chars (repeat c (S n)) (q :: ps)).
  specialize (IH Hall). revert IH. generalize (join_chars (repeat c (S n)) (q :: ps)) as r. intros r Hr.
  cbn [repeat app]. apply contains_cut; [done|done|done|]. induction n as [|n IHn]; [done|]. cbn [repeat app].
  apply (contains_cut s c []); [done|done|by destruct s|done].
Qed.

(** The pieces of a text hold nothing the text does not. *)
Lemma split_pieces_within s n sep l :
  contains_chars s l = false → Forall (λ p, contains_chars s p = false) (split_upto n sep l).
Proof.
  revert l. induction n as [|n IH]; intros l Hl; simpl; [by constructor|].
  destruct (partition_chars sep l) as [[a b]|] eqn:Hp; [|by constructor].
  apply partition_some in Hp as [-> _]. constructor; [by eapply contains_app_l|]. apply IH.
  by apply contains_app_r, contains_app_r in Hl.
Qed.

Lemma replace_removes s c n l :
  s ≠ [] → c ∉ s → contains_chars s (replace_text s (repeat c (S n)) l) = false.
Proof. intros Hne Hc. apply contains_join; [done|done|]. by apply split_pieces_free. Qed.

Lemma replace_keeps_free s old c n l :
  s ≠ [] → c ∉ s → contains_chars s l = false → contains_chars s (replace_text old (repeat c (S n)) l) = false.
Proof. intros Hne Hc Hl. apply contains_join; [done|done|]. by apply split_pieces_within. Qed.

(** ** Runs *)

Lemma span_chars_app p a l :
  Forall (λ c, p c = true) a → match l with [] => True | c :: _ => p c = false end → span_chars p (a ++ l) = (a, l).
Proof.
  intros Ha Hl. induction Ha as [|c a Hc Ha IH]; simpl; [destruct l as [|d l]; simpl; [done|by rewrite Hl]|].
  by rewrite Hc, IH.
Qed.

Lemma span_chars_spec p l :
  l = (span_chars p l).1 ++ (span_chars p l).2 ∧ Forall (λ c, p c = true) (span_chars p l).1 ∧
  match (span_chars p l).2 with [] => True | c :: _ => p c = false end.
Proof.
  induction l as [|c l IH]; simpl; [by repeat constructor|]. destruct (p c) eqn:Hc; [|by repeat constructor].
  destruct (span_chars p l) as [a b]. simpl in *. destruct IH as (->&Ha&Hb). split; [done|]. split; [by constructor|done].
Qed.

Lemma eat_spec p l r : eat p l = Some r ↔ l = p ++ r.
Proof.
  unfold eat. destruct (is_prefix p l) eqn:Hp.
  - apply is_prefix_spec in Hp as [k ->]. rewrite drop_app_length. split; [by intros [= <-]|].
    intros H. by apply app_inv_head in H as ->.
  - split; [done|]. intros ->. by rewrite is_prefix_self in Hp.
Qed.

Lemma at_end_spec l : at_end l = true ↔ l = [] ∨ l = [NEWLINE].
Proof. unfold at_end. apply bool_decide_eq_true. Qed.
