(* ===== verification/GitClusterProps.v ===== *)
(** * Properties of clustering

    The clusters partition the commits into runs of the chronological order,
    and the cap is reached: the merge loop ends within its fuel. *)

From S2P Require Import Prelude PyStr PyText Domain DateTime PyNum GitLog GitCluster.
Local Open Scope Z_scope.
Local Open Scope prog_scope.

Implicit Types (groups : list (list GitCommit)).

(** Groups that are, up to the order inside each, consecutive non-empty runs of
    [l]. *)
Definition runs_of (l : list GitCommit) groups : Prop :=
  ∃ blocks, concat blocks = l ∧ Forall2 Permutation blocks groups ∧ Forall (λ g, g ≠ []) groups.

Lemma runs_of_self groups : Forall (λ g, g ≠ []) groups → runs_of (concat groups) groups.
Proof. intros H. exists groups. split; [done|]. split; [|done]. clear H. by induction groups; constructor. Qed.

Lemma time_groups_spec w cur prev rest :
  cur ≠ [] → concat (time_groups w cur prev rest) = cur ++ rest ∧ Forall (λ g, g ≠ []) (time_groups w cur prev rest).
Proof.
  revert cur prev. induction rest as [|c rest IH]; intros cur prev Hcur; simpl.
  - split; [done|by repeat constructor].
  - destruct (SFltb _ _).
    + destruct (IH [c] c) as [E Hall]; [done|]. simpl. rewrite E. split; [done|by constructor].
    + destruct (IH (cur ++ [c]) c) as [E Hall]; [by destruct cur|]. rewrite E. split; [by rewrite <- app_assoc|done].
Qed.

Lemma overlap_groups_spec cur rest :
  cur ≠ [] → Forall (λ g, g ≠ []) rest →
  concat (overlap_groups cur rest) = cur ++ concat rest ∧ Forall (λ g, g ≠ []) (overlap_groups cur rest) ∧
  overlap_groups cur rest ≠ [].
Proof.
  revert cur. induction rest as [|g rest IH]; intros cur Hcur Hall; simpl.
  - split; [done|]. split; [by repeat constructor|done].
  - apply Forall_cons in Hall as [Hg Hall]. destruct (SFltb _ _).
    + destruct (IH (cur ++ g)) as (E&H1&H2); [by destruct cur|done|]. rewrite E. split; [by rewrite <- app_assoc|done].
    + destruct (IH g) as (E&H1&H2); [done..|]. simpl. rewrite E. split; [done|]. split; [by constructor|done].
Qed.

(** ** The cap *)

Lemma smallest_from_bound i best n groups :
  (best < i)%nat → (smallest_from i best n groups < i + length groups)%nat.
Proof.
  revert i best n. induction groups as [|g gs IH]; intros i best n Hb; simpl; [lia|].
  destruct (length g <? n)%nat.
  - pose proof (IH (S i) i (length g) ltac:(lia)). lia.
  - pose proof (IH (S i) best n ltac:(lia)). lia.
Qed.

Lemma smallest_idx_bound groups : groups ≠ [] → (smallest_idx groups < length groups)%nat.
Proof. destruct groups as [|g gs]; [done|]. intros _. simpl. pose proof (smallest_from_bound 1 0 (length g) gs). lia. Qed.

Lemma merge_left {A} (pre : list (list A)) a b post :
  delete (S (length pre)) (alter (λ g, g ++ b) (length pre) (pre ++ a :: b :: post)) = pre ++ (a ++ b) :: post.
Proof. induction pre as [|p pre IH]; simpl; [done|]. f_equal. exact IH. Qed.

(** What one merge does: two neighbours become one. *)
Lemma merge_smallest_shape groups :
  (2 ≤ length groups)%nat →
  (∃ a b post, groups = a :: b :: post ∧ merge_smallest groups = (b ++ a) :: post) ∨
  (∃ pre a b post, groups = pre ++ a :: b :: post ∧ merge_smallest groups = pre ++ (a ++ b) :: post).
Proof.
  intros Hlen. unfold merge_smallest.
  pose proof (smallest_idx_bound groups) as Hi. destruct (smallest_idx groups) as [|i].
  - left. destruct groups as [|a [|b post]]; simpl in Hlen; try lia. exists a, b, post. done.
  - right. assert (groups ≠ []) as Hne by (intros ->; simpl in Hlen; lia). specialize (Hi Hne).
    destruct (lookup_lt_is_Some_2 groups i ltac:(lia)) as [a Ha].
    destruct (lookup_lt_is_Some_2 groups (S i) Hi) as [b Hb].
    assert (groups = take i groups ++ a :: b :: drop (S (S i)) groups) as E.
    { rewrite <- (take_drop i groups) at 1. f_equal. rewrite (drop_S groups a i Ha). f_equal. by rewrite (drop_S groups b (S i) Hb). }
    exists (take i groups), a, b, (drop (S (S i)) groups). split; [done|].
    assert (length (take i groups) = i) as Hl by (rewrite length_take; lia).
    rewrite Hb. simpl. replace (i - 0)%nat with i by lia. destruct (i =? S i)%nat eqn:Hii; [apply Nat.eqb_eq in Hii; lia|].
    rewrite E at 1. rewrite <- Hl at 1 2. apply merge_left.
Qed.

Lemma runs_of_merge l groups :
  (2 ≤ length groups)%nat → runs_of l groups →
  runs_of l (merge_smallest groups) ∧ S (length (merge_smallest groups)) = length groups.
Proof.
  intros Hlen (blocks&Hc&Hp&Hne).
  destruct (merge_smallest_shape groups Hlen) as [(a&b&post&->&->)|(pre&a&b&post&->&->)].
  - split; [|done]. apply Forall2_cons_inv_r in Hp as (xa&bs&Ha&Hp&->).
    apply Forall2_cons_inv_r in Hp as (xb&bs'&Hb&Hp&->).
    exists ((xa ++ xb) :: bs'). split; [simpl in *; by rewrite <- app_assoc|].
    apply Forall_cons in Hne as [Hna Hne]. apply Forall_cons in Hne as [Hnb Hne]. split.
    + constructor; [|done]. by rewrite Ha, Hb, Permutation_app_comm.
    + constructor; [by destruct b|done].
  - split; [|rewrite !length_app; simpl; lia].
    apply Forall2_app_inv_r in Hp as (bp&bs&Hpre&Hp&->). apply Forall2_cons_inv_r in Hp as (xa&bs1&Ha&Hp&->).
    apply Forall2_cons_inv_r in Hp as (xb&bs'&Hb&Hp&->).
    exists (bp ++ (xa ++ xb) :: bs'). split; [rewrite <- Hc, !concat_app; simpl; by rewrite <- app_assoc|].
    apply Forall_app in Hne as [Hn1 Hne]. apply Forall_cons in Hne as [Hna Hne]. apply Forall_cons in Hne as [Hnb Hne]. split.
    + apply Forall2_app; [done|]. constructor; [|done]. by rewrite Ha, Hb.
    + apply Forall_app. split; [done|]. constructor; [by destruct a|done].
Qed.

(** As much fuel as there are groups is enough for the cap. *)
Lemma cap_groups_spec l fuel k groups :
  1 ≤ k → (length groups ≤ fuel)%nat → groups ≠ [] → runs_of l groups →
  runs_of l (cap_groups fuel k groups) ∧ 1 ≤ Z.of_nat (length (cap_groups fuel k groups)) ≤ k.
Proof.
  intros Hk. revert groups. induction fuel as [|fuel IH]; intros groups Hf Hne Hr; simpl.
  - destruct groups; [done|simpl in Hf; lia].
  - destruct (Z.ltb_spec k (Z.of_nat (length groups))) as [Hlt|Hge].
    + destruct (runs_of_merge l groups ltac:(lia) Hr) as [Hr' Hl].
      apply IH; [lia| |done]. intros E. rewrite E in Hl. simpl in Hl. lia.
    + split; [done|]. destruct groups; [done|]. simpl in *. lia.
Qed.

Lemma commit_groups_spec w k commits :
  commits ≠ [] →
  runs_of (by_date commits) (commit_groups w k commits) ∧
  1 ≤ Z.of_nat (length (commit_groups w k commits)) ≤ Z.max 1 k.
Proof.
  intros Hne. unfold commit_groups. destruct (by_date commits) as [|c rest] eqn:Hs.
  { by apply sort_by_nil_inv in Hs. }
  destruct (time_groups_spec w [c] c rest ltac:(done)) as [Ht Htn].
  destruct (time_groups w [c] c rest) as [|g gs] eqn:Hg; [done|]. apply Forall_cons in Htn as [Hgn Htn].
  destruct (overlap_groups_spec g gs Hgn Htn) as (Ho&Hon&Hone). simpl in Ht. rewrite <- Ht, <- Ho.
  apply cap_groups_spec; [lia|done|done|by apply runs_of_self].
Qed.

(** ** The theorem *)

Lemma date_leb_total x y : date_leb x y = false → date_leb y x = true.
Proof. unfold date_leb. lia. Qed.
Lemma date_leb_trans x y z : date_leb x y = true → date_leb y z = true → date_leb x z = true.
Proof. unfold date_leb. lia. Qed.

Lemma by_date_instants l : StronglySorted (λ a b, instant (gc_date a) ≤ instant (gc_date b)) (by_date l).
Proof.
  assert (StronglySorted (λ a b, date_leb a b = true) (by_date l)) as H
    by (apply sort_by_strongly_sorted; [apply date_leb_total|apply date_leb_trans]).
  induction H as [|x l' _ IH Hx]; constructor; [done|]. eapply Forall_impl; [exact Hx|].
  intros y. unfold date_leb. lia.
Qed.

Lemma concat_perm (blocks groups : list (list GitCommit)) :
  Forall2 Permutation blocks groups → concat blocks ≡ₚ concat groups.
Proof. induction 1 as [|b g bs gs Hb _ IH]; simpl; [done|]. by rewrite Hb, IH. Qed.

(** Runs of a sorted list do not interleave. *)
Lemma runs_of_sorted l groups pre g post h x y :
  StronglySorted (λ a b, date_leb a b = true) l → runs_of l groups →
  groups = pre ++ g :: post → h ∈ post → x ∈ g → y ∈ h → date_leb x y = true.
Proof.
  intros Hs (blocks&<-&Hp&_) -> Hh Hx Hy.
  apply Forall2_app_inv_r in Hp as (bp&bs&_&Hp&->). apply Forall2_cons_inv_r in Hp as (xg&bs1&Hg&Hp&->).
  rewrite concat_app in Hs. apply StronglySorted_app in Hs as (_&_&Hs). simpl in Hs.
  apply StronglySorted_app in Hs as (Hs&_&_). apply Hs; [by rewrite Hg|].
  apply (elem_of_Permutation_proper y _ _ (concat_perm _ _ Hp)). apply list_elem_of_In, in_concat.
  exists h. by rewrite <- !list_elem_of_In.
Qed.

(** C27. Clustering loses nothing and respects time and the cap.  For any
    commits and any requested number of clusters, zero and negative ones
    included, the clusters together hold exactly the given commits, none is
    empty, there is at least one and at most the larger of one and the number
    requested, the commits of a cluster are in date order, and no commit of a
    cluster is later than a commit of a cluster after it.  No commits give no
    clusters.  The merge loop, which a nonsensical cap once ran forever, thus
    always ends. *)
Theorem clusters_partition w k commits :
  let cs := cluster_commits w k commits in
  concat (map cl_commits cs) ≡ₚ commits ∧
  Forall (λ c, cl_commits c ≠ [] ∧ StronglySorted (λ a b, instant (gc_date a) ≤ instant (gc_date b)) (cl_commits c)) cs ∧
  Z.of_nat (length cs) ≤ Z.max 1 k ∧
  (cs = [] ↔ commits = []) ∧
  ∀ pre c post d x y, cs = pre ++ c :: post → d ∈ post → x ∈ cl_commits c → y ∈ cl_commits d →
    instant (gc_date x) ≤ instant (gc_date y).
Proof.
  intros cs. destruct (decide (commits = [])) as [->|Hne].
  { change cs with (@nil CommitCluster). simpl. split; [done|]. split; [constructor|]. split; [lia|]. split; [done|].
    intros pre c post d x y E. by destruct pre. }
  destruct (commit_groups_spec w k commits Hne) as [Hr Hlen].
  assert (StronglySorted (λ a b, date_leb a b = true) (by_date commits)) as Hsorted
    by (apply sort_by_strongly_sorted; [apply date_leb_total|apply date_leb_trans]).
  assert (map cl_commits cs = map by_date (commit_groups w k commits)) as Ecs by apply map_map.
  assert (length cs = length (commit_groups w k commits)) as El by (unfold cs, cluster_commits; apply length_map).
  pose proof Hr as (blocks&Hc&Hp&Hn). split; [|split; [|split; [|split]]].
  - rewrite Ecs. transitivity (concat (commit_groups w k commits)).
    + apply concat_perm. clear. induction (commit_groups w k commits); simpl; constructor; [apply sort_by_perm|done].
    + rewrite <- (concat_perm _ _ Hp), Hc. apply sort_by_perm.
  - unfold cs, cluster_commits. apply Forall_map. eapply Forall_impl; [exact Hn|]. intros g Hg. simpl. split.
    + intros E. by apply Hg, (sort_by_nil_inv date_leb).
    + apply by_date_instants.
  - rewrite El. lia.
  - split; [|done]. intros E. rewrite E in El. simpl in El. lia.
  - intros pre c post d x y E Hd Hx Hy.
    unfold cs, cluster_commits in E. apply map_eq_app in E as (gp&gr&Eg&_&E). apply map_eq_cons in E as (g&gs&->&<-&<-).
    apply list_elem_of_fmap in Hd as (h&->&Hh).
    assert (date_leb x y = true) as H; [|unfold date_leb in H; lia].
    apply (runs_of_sorted _ _ _ _ _ h x y Hsorted Hr Eg Hh); [by apply elem_of_sort_by in Hx|by apply elem_of_sort_by in Hy].
Qed.
