(* ===== verification/GitLogProps.v ===== *)
(** * Properties of reading history

    The URL policy of the server, the environment and the error text of a
    clone, and the parser against the format the log is asked for. *)

From S2P Require Import Prelude PyStr PyText TextProps Sha256 Domain DateTime PyNum GitLog.
Local Open Scope Z_scope.
Local Open Scope prog_scope.

(** ** The URL policy *)

Definition github : list ascii := chars "https://github.com/".

Lemma name_run a r :
  a ≠ [] → Forall (λ c, is_name_char c = true) a → match r with [] => True | c :: _ => is_name_char c = false end →
  eat_name (a ++ r) = Some r.
Proof. intros Hne Ha Hr. unfold eat_name. rewrite span_chars_app by done. by destruct a. Qed.

Lemma eat_name_spec l r :
  eat_name l = Some r → ∃ a, l = a ++ r ∧ a ≠ [] ∧ Forall (λ c, is_name_char c = true) a.
Proof.
  unfold eat_name. pose proof (span_chars_spec is_name_char l) as (E&Ha&_).
  destruct (span_chars is_name_char l) as [a b]. simpl in *. destruct a as [|c a]; [done|]. intros [= <-].
  exists (c :: a). split; [done|]. split; [done|]. done.
Qed.

(** Characters of a name are none of those the policy looks for. *)
Lemma name_char_plain c :
  is_name_char c = true →
  not_space c = true ∧ c ≠ "/"%char ∧ c ≠ "?"%char ∧ c ≠ "#"%char ∧ c ≠ NEWLINE ∧ c ≠ "@"%char.
Proof. destruct c as [[] [] [] [] [] [] [] []]; intros H; try discriminate H; vm_compute; repeat split; discriminate. Qed.

(** What the pattern of a server URL matches. *)
Definition github_repo (l : list ascii) : Prop :=
  ∃ owner repo slash nl,
    l = github ++ owner ++ "/"%char :: repo ++ slash ++ nl ∧ owner ≠ [] ∧ repo ≠ [] ∧
    Forall (λ c, is_name_char c = true) owner ∧ Forall (λ c, is_name_char c = true) repo ∧
    (slash = [] ∨ slash = ["/"%char]) ∧ (nl = [] ∨ nl = [NEWLINE]).

Lemma github_https_url_spec l : github_https_url l = true ↔ github_repo l.
Proof.
  unfold github_https_url. split.
  - destruct (eat (chars "https://github.com/") l) as [l1|] eqn:E1; [|done]. cbn [mbind option_bind].
    destruct (eat_name l1) as [l2|] eqn:E2; [|done]. cbn [mbind option_bind].
    destruct (eat (chars "/") l2) as [l3|] eqn:E3; [|done]. cbn [mbind option_bind].
    destruct (eat_name l3) as [l4|] eqn:E4; [|done]. intros Hend.
    apply eat_spec in E1 as ->, E3 as ->. apply eat_name_spec in E2 as (owner&->&Ho&Hof), E4 as (repo&->&Hr&Hrf).
    destruct (eat (chars "/") l4) as [l5|] eqn:E5.
    + apply eat_spec in E5 as ->. apply at_end_spec in Hend. exists owner, repo, ["/"%char], l5. split; [done|]. auto 10.
    + apply at_end_spec in Hend. exists owner, repo, [], l4. split; [done|]. auto 10.
  - intros (owner&repo&slash&nl&->&Ho&Hr&Hof&Hrf&Hs&Hn).
    rewrite (proj2 (eat_spec (chars "https://github.com/") _ _) eq_refl). cbn [mbind option_bind].
    rewrite name_run by done. cbn [mbind option_bind].
    change ("/"%char :: repo ++ slash ++ nl) with (chars "/" ++ (repo ++ slash ++ nl)).
    rewrite (proj2 (eat_spec _ _ _) eq_refl). cbn [mbind option_bind].
    assert (∀ r, (r = [] ∨ r = ["/"%char] ∨ r = [NEWLINE] ∨ r = ["/"%char; NEWLINE]) →
      match eat_name (repo ++ r) with
      | Some r => at_end (match eat (chars "/") r with Some r' => r' | None => r end)
      | None => false end = true) as Hend.
    { intros r Hr'. rewrite name_run; [|done|done|].
      - destruct Hr' as [->|[->|[->| ->]]]; vm_compute; reflexivity.
      - destruct Hr' as [->|[->|[->| ->]]]; done. }
    apply Hend. destruct Hs as [->| ->], Hn as [->| ->]; simpl; auto.
Qed.

Lemma eat_ci_github l : eat_ci (chars "https://") (github ++ l) = Some (chars "github.com/" ++ l).
Proof. done. Qed.

(** Everything of a repository URL but the final newline. *)
Definition plain (c : ascii) : bool :=
  not_space c && negb (bool_decide (c ∈ ["?"; "#"]%char)).

Lemma github_repo_plain l :
  github_repo l → ∃ body nl, l = github ++ body ++ nl ∧ body ≠ [] ∧ Forall (λ c, plain c = true) body ∧
    (nl = [] ∨ nl = [NEWLINE]).
Proof.
  intros (owner&repo&slash&nl&->&Ho&Hr&Hof&Hrf&Hs&Hn). exists (owner ++ "/"%char :: repo ++ slash), nl.
  split; [by rewrite <- !app_assoc; simpl; rewrite <- !app_assoc|]. split; [by destruct owner|]. split; [|done].
  assert (∀ c, is_name_char c = true → plain c = true) as Hp.
  { intros c (H1&_&H2&H3&_)%name_char_plain. unfold plain. rewrite H1, bool_decide_eq_false_2; [done|]. set_solver. }
  assert (Forall (λ c, plain c = true) slash) as Hsl by (destruct Hs as [->| ->]; [constructor|by repeat constructor]).
  apply Forall_app. split; [by eapply Forall_impl|]. constructor; [done|]. apply Forall_app. split; [by eapply Forall_impl|done].
Qed.

Lemma github_repo_valid u : github_repo (chars u) → validate_repo_url u = Ok tt.
Proof.
  intros (body&nl&E&Hne&Hp&Hn)%github_repo_plain. unfold validate_repo_url. rewrite E.
  assert (https_url (github ++ body ++ nl) = true) as ->.
  { unfold https_url. rewrite eat_ci_github. unfold all_to_end.
    change (chars "github.com/" ++ body ++ nl) with ((chars "github.com/") ++ (body ++ nl)). rewrite app_assoc.
    rewrite span_chars_app; [by destruct Hn as [->| ->]| |by destruct Hn as [->| ->]].
    apply Forall_app. split; [by repeat constructor|]. eapply Forall_impl; [exact Hp|].
    intros c Hc. apply andb_true_iff in Hc. tauto. }
  cbn [orb negb andb].
  assert (authority (github ++ body ++ nl) = chars "github.com") as -> by done.
  replace (contains_chars (chars "@") (chars "github.com")) with false by done.
  assert (∀ c, c ∈ ["?"; "#"]%char → contains_chars [c] (github ++ body ++ nl) = false) as Hno.
  { intros c Hc. apply not_true_is_false. intros Hin. apply contains_one in Hin.
    rewrite !elem_of_app in Hin. rewrite Forall_forall in Hp. destruct Hin as [Hin|[Hin|Hin]].
    - clear -Hc Hin. unfold github in Hin. set_unfold in Hc.
      destruct Hc as [->|[->|[]]]; vm_compute in Hin; repeat (apply elem_of_cons in Hin as [Hin|Hin]; [discriminate Hin|]);
        by apply elem_of_nil in Hin.
    - apply Hp in Hin. unfold plain in Hin. rewrite (bool_decide_eq_true_2 _ Hc), andb_false_r in Hin. done.
    - destruct Hn as [->| ->]; [by apply elem_of_nil in Hin|]. apply list_elem_of_singleton in Hin as ->.
      set_unfold in Hc. by destruct Hc as [Hc|[Hc|[]]]. }
  change (chars "?") with ["?"%char]. change (chars "#") with ["#"%char].
  rewrite !Hno by set_solver. done.
Qed.

(** C28. The server onboards from github.com and nowhere else.  The server's
    URL check passes exactly the texts of the form
    [https://github.com/<owner>/<repo>], where owner and repo are non-empty runs
    of letters, digits, dots, underscores and dashes (so no credentials, port,
    query or fragment), with an optional final slash and, because the pattern
    ends in a dollar sign, an optional final newline; every other text is
    refused with an error. *)
Theorem server_url_policy (repo_url : string) :
  (validate_server_repo_url repo_url = Ok tt ↔ github_repo (chars repo_url)) ∧
  (∀ e, validate_server_repo_url repo_url = Raise e → ∃ msg, e = RuntimeError msg).
Proof.
  split.
  - unfold validate_server_repo_url. split.
    + destruct (validate_repo_url repo_url) as [[]|e]; [|done]. simpl.
      destruct (github_https_url _) eqn:H; [|done]. intros _. by apply github_https_url_spec.
    + intros H. rewrite github_repo_valid by done. simpl. by rewrite (proj2 (github_https_url_spec _) H).
  - intros e. unfold validate_server_repo_url, validate_repo_url, refuse.
    destruct (negb _); simpl; [intros [= <-]; eauto|]. destruct (_ && _); simpl; [intros [= <-]; eauto|].
    destruct (_ || _); simpl; [intros [= <-]; eauto|]. destruct (github_https_url _); [done|intros [= <-]; eauto].
Qed.

(** ** The environment of a clone *)

Lemma b64_char_plain n : b64_char n ≠ "*"%char ∧ b64_char n ≠ "'"%char.
Proof.
  assert (∀ k : N, (k < 256)%N → k ≠ 42%N → k ≠ 39%N → chr k ≠ "*"%char ∧ chr k ≠ "'"%char) as Hk.
  { intros k Hlt H1 H2. unfold chr. split; intros H; apply (f_equal N_of_ascii) in H;
      rewrite N_ascii_embedding in H by done; [by apply H1|by apply H2]. }
  unfold b64_char. destruct (N.ltb_spec n 26); [apply Hk; lia|]. destruct (N.ltb_spec n 52); [apply Hk; lia|].
  destruct (N.ltb_spec n 62); [apply Hk; lia|]. by destruct (n =? 62)%N.
Qed.

Lemma b64_plain l c : c ∈ b64 l → c ≠ "*"%char ∧ c ≠ "'"%char.
Proof.
  assert (∀ n (l : list N), (length l ≤ n)%nat → c ∈ b64 l → c ≠ "*"%char ∧ c ≠ "'"%char) as H; [|by apply (H (length l))].
  clear l. induction n as [|n IH]; intros [|a [|b [|d l]]] Hl; simpl in Hl; try lia; cbn [b64];
    rewrite ?elem_of_cons, ?elem_of_nil; try done.
  1,2: intros Hc; destruct_or?; subst; try done; apply b64_char_plain.
  intros [->|[->|[->|[->|Hc]]]]; try apply b64_char_plain. apply (IH l); [lia|done].
Qed.

(** The clone is authenticated: a token is set and the URL is on github.com. *)
Definition authenticated (environ : env) (repo_url token : string) : Prop :=
  environ !! TOKEN = Some token ∧ token ≠ ""%string ∧ starts_with "https://github.com/" repo_url = true.

(** A clone sees nothing but what it needs.  Every variable of the
    environment a clone runs in is a variable of the fixed allowlist with the
    server's value, the prompt switch, or, only when a token is configured and
    the URL is on github.com over https, the git configuration that scopes the
    derived header to github.com.  In particular no [OC_] setting and no API key
    is handed over, the raw token least of all. *)
Theorem child_env_least_privilege (environ : env) (repo_url k v : string) :
  build_clone_env environ repo_url !! k = Some v →
  (k ∈ GIT_ENV_PASSTHROUGH ∧ environ !! k = Some v) ∨ (k, v) = ("GIT_TERMINAL_PROMPT", "0")%string ∨
  (k = "GIT_CONFIG_PARAMETERS"%string ∧ ∃ token, authenticated environ repo_url token ∧
     v = (HEADER_PREFIX +:+ of_chars (basic_header token) +:+ "'")%string).
Proof.
  assert (∀ v, <["GIT_TERMINAL_PROMPT" := "0"]> (git_child_env environ) !! k = Some v →
    (k ∈ GIT_ENV_PASSTHROUGH ∧ environ !! k = Some v) ∨ (k, v) = ("GIT_TERMINAL_PROMPT", "0"))%string as Hbase.
  { intros x [[<- <-]|[_ H]]%lookup_insert_Some; [by right|]. apply map_lookup_filter_Some in H as [H1 H2]. by left. }
  unfold build_clone_env. destruct (environ !! TOKEN) as [token|] eqn:Ht; [|intros [H|H]%Hbase; auto].
  destruct (bool_decide (token = "")%string) eqn:He; [intros [H|H]%Hbase; auto|].
  destruct (starts_with _ repo_url) eqn:Hs; [|intros [H|H]%Hbase; auto]. simpl.
  apply bool_decide_eq_false in He.
  intros [[<- <-]|[_ H]]%lookup_insert_Some; [|apply Hbase in H as [H|H]; auto].
  right. right. split; [done|]. by exists token.
Qed.

(** ** Error texts *)

Lemma redact_fold s texts secrets :
  s ≠ [] → "*"%char ∉ s →
  (s ∈ secrets ∨ contains_chars s texts = false) →
  contains_chars s (foldl (λ t secret, match secret with [] => t | _ => replace_text secret (chars "***") t end)
    texts secrets) = false.
Proof.
  intros Hne Hc. revert texts. induction secrets as [|x secrets IH]; intros texts H; simpl.
  - destruct H as [H|H]; [by apply elem_of_nil in H|done].
  - apply IH. destruct x as [|c x].
    + destruct H as [H|H]; [|by right]. apply elem_of_cons in H as [->|H]; [done|by left].
    + destruct H as [H|H]; [apply elem_of_cons in H as [->|H]; [right|by left]|right].
      * by apply (replace_removes (c :: x) "*"%char 2).
      * by apply (replace_keeps_free s (c :: x) "*"%char 2).
Qed.

Lemma partition_header r : partition_chars (chars "Basic ") (chars HEADER_PREFIX ++ r) =
  Some (chars "'http.https://github.com/.extraheader=AUTHORIZATION: ", r).
Proof. reflexivity. Qed.

Lemma rstrip_quote l : (∀ c, c ∈ l → c ≠ "'"%char) → rstrip_quotes (l ++ ["'"%char]) = l.
Proof.
  intros Hl. unfold rstrip_quotes. rewrite rev_app_distr. cbn [rev app lstrip_chars].
  rewrite bool_decide_eq_true_2 by done. destruct (rev l) as [|c r] eqn:Hr; simpl.
  - apply (f_equal (@rev _)) in Hr. by rewrite rev_involutive in Hr.
  - rewrite bool_decide_eq_false_2; [by rewrite <- Hr, rev_involutive|]. apply Hl.
    rewrite <- (rev_involutive l), Hr. simpl. set_solver.
Qed.

(** C29. A failed clone does not leak the credentials.  Whatever git wrote, the
    text that reaches the error contains neither the configured token, as long
    as the token has no asterisk, nor the base64 header derived from it. *)
Theorem redaction_complete (environ : env) (repo_url token : string) (text : list ascii) :
  authenticated environ repo_url token → "*"%char ∉ chars token →
  let shown := redact_clone_secrets text environ (build_clone_env environ repo_url) in
  contains_chars (chars token) shown = false ∧ contains_chars (basic_header token) shown = false.
Proof.
  intros (Ht&Hne&Hs) Hstar shown.
  assert (clone_secrets environ (build_clone_env environ repo_url) = [chars token; basic_header token]) as Hsec.
  { assert (build_clone_env environ repo_url !! "GIT_CONFIG_PARAMETERS"%string =
      Some (HEADER_PREFIX +:+ of_chars (basic_header token) +:+ "'")%string) as E.
    { unfold build_clone_env. rewrite Ht, bool_decide_eq_false_2, Hs by done. cbn [negb andb]. apply lookup_insert_eq. }
    unfold clone_secrets. rewrite E, Ht. cbn [from_option Datatypes.id]. f_equal.
    rewrite !chars_app, chars_of_chars. rewrite partition_header. f_equal. apply rstrip_quote. intros c Hc. exact (proj2 (b64_plain _ c Hc)). }
  assert (basic_header token ≠ []) as Hh.
  { unfold basic_header. rewrite chars_app. by destruct (concat _) as [|? [|? [|? ?]]] eqn:E. }
  split; unfold shown, redact_clone_secrets; rewrite Hsec; apply redact_fold.
  - intros E. apply Hne. by apply chars_inj.
  - done.
  - left. left.
  - done.
  - intros Hin. unfold basic_header in Hin. by apply b64_plain in Hin as [Hx _].
  - left. right. left.
Qed.
