(* ===== verification/LogFormat.v ===== *)
(** * The log parser reads the format it asks for

    [log_argv] asks git for a record per commit: the separator, the fields of
    the format joined by the field separator, the end-of-body mark, and the
    numstat block.  [render] writes records in that shape; the parser gives back
    the commits, whatever the fields hold, short of the markers' own text. *)

From S2P Require Import Prelude PyStr PyText TextProps Domain DateTime PyNum GitLog.
Local Open Scope Z_scope.
Local Open Scope prog_scope.

(** What git knows of a commit: its fields and its numstat. *)
Record LogEntry := mkEntry {
  le_hash : string;
  le_author : string;
  le_date : string;
  le_subject : string;
  le_body : string;
  le_stats : list (N * N * string);
}.

(** The value of a placeholder of [git log --format]. *)
Definition placeholder (e : LogEntry) (p : string) : string :=
  if bool_decide (p = "%H")%string then le_hash e
  else if bool_decide (p = "%an")%string then le_author e
  else if bool_decide (p = "%aI")%string then le_date e
  else if bool_decide (p = "%s")%string then le_subject e
  else if bool_decide (p = "%b")%string then le_body e
  else ""%string.

Definition stat_line (s : N * N * string) : list ascii :=
  digits_of_N s.1.1 ++ TAB :: digits_of_N s.1.2 ++ TAB :: chars s.2.
Definition stat_block (e : LogEntry) : list ascii :=
  [NEWLINE; NEWLINE] ++ concat (map (λ s, stat_line s ++ [NEWLINE]) (le_stats e)).
Definition header_text (e : LogEntry) : list ascii :=
  join_chars (chars FIELD_SEP) (map (λ p, chars (placeholder e p)) FORMAT_FIELDS).
Definition entry_text (e : LogEntry) : list ascii := header_text e ++ chars BODY_END ++ stat_block e.
Definition render (es : list LogEntry) : list ascii := concat (map (λ e, chars SEPARATOR ++ entry_text e) es).

(** The commit the record is about, dated [d]. *)
Definition commit_of (e : LogEntry) (d : datetime) : GitCommit :=
  mkCommit (le_hash e) (le_author e) d (le_subject e) (py_strip (le_body e)) (map snd (le_stats e))
    (foldr Z.add 0 (map (λ s, Z.of_N s.1.1) (le_stats e))) (foldr Z.add 0 (map (λ s, Z.of_N s.1.2) (le_stats e))).

Definition MARK : list ascii := chars "GIT_ONBOARD_".
Definition DASHES : list ascii := chars "---".
Definition clean (l : list ascii) : Prop := contains_chars MARK l = false.

(** A text that stripping leaves alone. *)
Definition trimmed (l : list ascii) : Prop :=
  (∃ c l', l = c :: l' ∧ py_is_space c = false) ∧ (∃ c l', l = l' ++ [c] ∧ py_is_space c = false).

Definition file_ok (s : N * N * string) : Prop :=
  (s.1.1 < 2 ^ 63)%N ∧ (s.1.2 < 2 ^ 63)%N ∧ trimmed (chars s.2) ∧ TAB ∉ chars s.2 ∧ NEWLINE ∉ chars s.2.

(** No field holds the markers' text, the hash has no space at its ends, the
    date is one git prints, and file names are as git quotes them. *)
Definition entry_ok (e : LogEntry) (d : datetime) : Prop :=
  Forall (λ p, clean (chars (placeholder e p))) FORMAT_FIELDS ∧ clean (stat_block e) ∧
  trimmed (chars (le_hash e)) ∧ Forall file_ok (le_stats e) ∧
  fromisoformat (le_date e) = Some d ∧ ∃ u, require_utc d = Ok u.

(** ** The separators are found *)

Definition sep (x : list ascii) : list ascii := DASHES ++ MARK ++ x ++ DASHES.
Definition kinds : list (list ascii) := [chars "SEP"; chars "FIELD"; chars "BODYEND"].

Definition boundary (l : list ascii) : Prop := l = [] ∨ ∃ r, l = DASHES ++ r.

Lemma boundary_sep x l : boundary (sep x ++ l).
Proof. right. unfold sep. rewrite <- !app_assoc. by eexists. Qed.

(** No separator begins in a clean text before a boundary. *)
Lemma sep_not_in_tail x v l :
  x ∈ kinds → v ≠ [] → clean v → boundary l → is_prefix (sep x) (v ++ l) = false.
Proof.
  intros Hx Hv Hc Hb. apply not_true_is_false. intros H. apply is_prefix_cross in H as [H|(Hlt&Hv'&H)].
  - apply is_prefix_spec in H as [k ->]. unfold clean in Hc. apply not_true_iff_false in Hc. apply Hc.
    apply contains_chars_spec. exists DASHES, (x ++ DASHES ++ k). unfold sep. by rewrite <- !app_assoc.
  - assert (1 <= length v)%nat as Hl1 by (destruct v; [done|simpl; lia]).
    generalize dependent (length v). intros t Hlt -> H Hl1.
    destruct (decide (15 <= t)%nat) as [Hl|Hl].
    + unfold clean in Hc. apply not_true_iff_false in Hc. apply Hc. apply contains_chars_spec.
      exists DASHES, (take (t - 15) (x ++ DASHES)). unfold sep. rewrite !app_assoc, <- app_assoc, take_app.
      by rewrite take_ge.
    + unfold kinds in Hx. rewrite !elem_of_cons in Hx. destruct Hb as [->|[r ->]].
      * destruct (drop t (sep x)) eqn:Hd; [|done].
        apply (f_equal length) in Hd. rewrite length_drop in Hd. simpl in Hd. lia.
      * clear Hc Hlt Hv.
        do 15 (destruct t as [|t]; [try lia; destruct Hx as [->|[->|[->|Hx%elem_of_nil]]]; try done; discriminate H|]).
        lia.
Qed.

Lemma clean_free x v l : x ∈ kinds → clean v → boundary l → free (sep x) v l.
Proof.
  intros Hx Hc Hb. induction v as [|c v IH]; [done|]. split.
  - by apply sep_not_in_tail.
  - apply IH. by eapply contains_cons_false.
Qed.

Lemma clean_dashes v : clean v → clean (DASHES ++ v).
Proof. unfold clean. intros H. simpl. done. Qed.

(** A separator of another kind, with the value that follows it. *)
Lemma other_free x y v l :
  x ∈ kinds → y ∈ kinds → x ≠ y → clean v → boundary l → free (sep x) (sep y ++ v) l.
Proof.
  intros Hx Hy Hne Hv Hb.
  assert (sep y ++ v = (DASHES ++ MARK ++ y) ++ (DASHES ++ v)) as -> by (unfold sep; by rewrite <- !app_assoc).
  apply free_app. split; [|by apply clean_free, Hb; [|apply clean_dashes]].
  generalize ((DASHES ++ v) ++ l). intros r. unfold kinds in Hx, Hy. rewrite !elem_of_cons in Hx, Hy.
  destruct Hx as [->|[->|[->|Hx%elem_of_nil]]], Hy as [->|[->|[->|Hy%elem_of_nil]]]; try done; repeat split; reflexivity.
Qed.

(** ** Numbers *)

Lemma digits_value_app a c : digits_value (a ++ [c]) = digits_value a * 10 + Z.of_N (code c - 48).
Proof. unfold digits_value. by rewrite foldl_app. Qed.

Lemma digit_of (n : N) : code (chr (48 + n mod 10)) = (48 + n mod 10)%N.
Proof.
  unfold code, chr. apply N_ascii_embedding. pose proof (N.mod_lt n 10 ltac:(done)) as H.
  generalize dependent (n mod 10)%N. lia.
Qed.

Lemma digits_go_spec fuel n acc :
  (N.log2 n <= N.of_nat fuel)%N →
  ∃ ds, digits_go fuel n acc = ds ++ acc ∧ ds ≠ [] ∧ Forall (λ c, is_digit c = true) ds ∧
    digits_value ds = Z.of_N n ∧ (length ds ≤ S fuel)%nat.
Proof.
  assert (∀ k : N, is_digit (chr (48 + k mod 10)) = true) as Hd.
  { intros k. unfold is_digit. rewrite digit_of. pose proof (N.mod_lt k 10 ltac:(done)).
    generalize dependent (k mod 10)%N. intros m Hm. apply andb_true_iff. split; apply N.leb_le; lia. }
  revert n acc. induction fuel as [|f IH]; intros n acc Hf; cbn [digits_go].
  - exists [chr (48 + n mod 10)]. split; [done|]. split; [done|]. split; [by repeat constructor|]. split; [|simpl; lia].
    unfold digits_value. cbn [foldl]. rewrite digit_of.
    assert (n < 2)%N as Hn.
    { destruct (N.eq_dec n 0%N) as [->|Hz]; [lia|]. apply (N.log2_lt_pow2 n 1%N); lia. }
    rewrite N.mod_small by lia. lia.
  - destruct (N.eqb_spec (n / 10)%N 0%N) as [Hz|Hz].
    + exists [chr (48 + n mod 10)]. split; [done|]. split; [done|]. split; [by repeat constructor|]. split; [|simpl; lia].
      unfold digits_value. cbn [foldl]. rewrite digit_of.
      apply N.div_small_iff in Hz; [|done]. rewrite N.mod_small by done. lia.
    + destruct (IH (n / 10)%N (chr (48 + n mod 10) :: acc)) as (ds&E&Hne&Hall&Hv&Hl).
      { assert (n / 10 <= n / 2)%N as Hle by (apply N.div_le_compat_l; lia).
        apply N.log2_le_mono in Hle.
        assert (0 < n / 2)%N as Hpos by (apply N.div_str_pos; destruct (N.lt_ge_cases n 10); [by rewrite N.div_small in Hz|lia]).
        pose proof (N.log2_double (n / 2) Hpos) as Hd2.
        assert (2 * (n / 2) <= n)%N as Hm by (apply N.Div0.mul_div_le).
        apply N.log2_le_mono in Hm. lia. }
      exists (ds ++ [chr (48 + n mod 10)]). split; [by rewrite E, <- app_assoc|]. split; [by destruct ds|].
      split; [apply Forall_app; split; [done|by repeat constructor]|]. split; [|rewrite length_app; simpl; lia].
      rewrite digits_value_app, Hv, digit_of, N.add_comm, N.add_sub. pose proof (N.div_mod n 10 ltac:(done)). lia.
Qed.

Lemma digits_of_N_spec n :
  (n < 2 ^ 63)%N →
  digits_of_N n ≠ [] ∧ Forall (λ c, is_digit c = true) (digits_of_N n) ∧ digits_value (digits_of_N n) = Z.of_N n ∧
  (length (digits_of_N n) ≤ 64)%nat.
Proof.
  intros Hn. unfold digits_of_N. destruct (digits_go_spec (N.to_nat (N.log2 n)) n []) as (ds&E&H1&H2&H3&H4); [lia|].
  rewrite app_nil_r in E. rewrite E. split; [done|]. split; [done|]. split; [done|].
  assert (N.log2 n <= 62)%N; [|lia]. destruct (N.eq_dec n 0%N) as [->|Hz]; [done|].
  apply N.lt_succ_r. change (N.succ 62) with 63%N. by apply N.log2_lt_pow2; lia.
Qed.

Lemma digit_plain c : is_digit c = true → py_is_space c = false ∧ c ≠ TAB ∧ c ≠ NEWLINE ∧ c ≠ "-"%char ∧ c ≠ "+"%char.
Proof. destruct c as [[] [] [] [] [] [] [] []]; intros H; try discriminate H; vm_compute; repeat split; discriminate. Qed.

Lemma lstrip_all p a l : Forall (λ c, p c = true) a → lstrip_chars p (a ++ l) = lstrip_chars p l.
Proof. induction 1 as [|c a Hc _ IH]; simpl; [done|]. by rewrite Hc. Qed.

(** Stripping removes the spaces after a trimmed text. *)
Lemma strip_trimmed l w : trimmed l → Forall (λ c, py_is_space c = true) w → strip_text (l ++ w) = l.
Proof.
  intros [(c&l1&->&Hc) (d&l2&E&Hd)] Hw. unfold strip_text, strip_chars. rewrite (lstrip_none _ ((c :: l1) ++ w)) by done.
  rewrite rev_app_distr, lstrip_all by (by apply Forall_rev). rewrite E, rev_app_distr. cbn [rev app].
  rewrite lstrip_none by done. cbn [rev]. by rewrite rev_involutive.
Qed.

Lemma strip_trimmed_nil l : trimmed l → strip_text l = l.
Proof. intros Hl. rewrite <- (app_nil_r l) at 1. by apply strip_trimmed. Qed.

Lemma trimmed_app a m b : trimmed a → trimmed b → trimmed (a ++ m ++ b).
Proof.
  intros [(c&a'&->&Hc) _] [_ (d&b'&->&Hd)]. split.
  - by exists c, (a' ++ m ++ b' ++ [d]).
  - exists d, ((c :: a') ++ m ++ b'). split; [|done]. by rewrite <- !app_assoc.
Qed.

Lemma digits_trimmed ds : ds ≠ [] → Forall (λ c, is_digit c = true) ds → trimmed ds.
Proof.
  intros Hne Hall. split.
  - destruct ds as [|c ds]; [done|]. exists c, ds. apply Forall_cons in Hall as [Hc _]. by apply digit_plain in Hc as [? _].
  - destruct (exists_last Hne) as (ds'&c&->). exists c, ds'. apply Forall_app in Hall as [_ Hc].
    apply Forall_cons in Hc as [Hc _]. by apply digit_plain in Hc as [? _].
Qed.

Lemma digit_group_digits prev ds : ds ≠ [] → Forall (λ c, is_digit c = true) ds → digit_group prev ds = Some ds.
Proof.
  intros Hne Hall. revert prev Hne. induction Hall as [|c ds Hc Hall IH]; intros prev Hne; simpl; [done|]. rewrite Hc.
  destruct ds as [|d ds]; [done|]. by rewrite IH.
Qed.

Lemma py_int_digits n : (n < 2 ^ 63)%N → py_int (of_chars (digits_of_N n)) = Some (Z.of_N n).
Proof.
  intros Hn. destruct (digits_of_N_spec n Hn) as (H1&H2&H3&H4). unfold py_int. rewrite chars_of_chars.
  fold (strip_text (digits_of_N n)). rewrite strip_trimmed_nil by (by apply digits_trimmed).
  assert (split_sign (digits_of_N n) = (false, digits_of_N n)) as ->.
  { destruct (digits_of_N n) as [|c ds]; [done|]. apply Forall_cons in H2 as [Hc _]. apply digit_plain in Hc as (_&_&_&Hm&Hp).
    simpl. by rewrite !bool_decide_eq_false_2. }
  rewrite digit_group_digits by done. cbn [mbind option_bind]. rewrite (proj2 (Nat.ltb_ge _ _)) by (unfold INT_MAX_STR_DIGITS; lia).
  simpl. by rewrite H3.
Qed.

(** ** Lines *)

Lemma split_at_piece c cur a l : c ∉ a → split_at c cur (a ++ c :: l) = (rev cur ++ a) :: split_at c [] l.
Proof.
  revert cur. induction a as [|d a IH]; intros cur Ha; simpl.
  - by rewrite bool_decide_eq_true_2, app_nil_r.
  - apply not_elem_of_cons in Ha as [Hd Ha]. rewrite bool_decide_eq_false_2 by congruence. rewrite IH by done. simpl.
    by rewrite <- app_assoc.
Qed.

Lemma split_at_last c cur a : c ∉ a → split_at c cur a = [rev cur ++ a].
Proof.
  revert cur. induction a as [|d a IH]; intros cur Ha; simpl; [by rewrite app_nil_r|].
  apply not_elem_of_cons in Ha as [Hd Ha]. rewrite bool_decide_eq_false_2 by congruence. rewrite IH by done. simpl.
  by rewrite <- app_assoc.
Qed.

Lemma digits_no n c : (n < 2 ^ 63)%N → is_digit c = false → c ∉ digits_of_N n.
Proof.
  intros Hn Hc Hin. destruct (digits_of_N_spec n Hn) as (_&H2&_). rewrite Forall_forall in H2. apply H2 in Hin. congruence.
Qed.

Lemma stat_line_trimmed s : file_ok s → trimmed (stat_line s).
Proof.
  intros (H1&H2&Ht&_). destruct (digits_of_N_spec _ H1) as (Hne&Hall&_).
  pose proof (trimmed_app _ (TAB :: digits_of_N s.1.2 ++ [TAB]) _ (digits_trimmed _ Hne Hall) Ht) as H.
  revert H. unfold stat_line. simpl. by rewrite <- app_assoc.
Qed.

Lemma numstat_line_spec s : file_ok s → numstat_line (stat_line s) = Some (Z.of_N s.1.1, Z.of_N s.1.2, s.2).
Proof.
  intros Hs. pose proof (stat_line_trimmed s Hs) as Ht. destruct Hs as (H1&H2&_&Htab&_). unfold numstat_line.
  rewrite strip_trimmed_nil by done. unfold stat_line. rewrite split_at_piece by (by apply digits_no).
  rewrite split_at_piece by (by apply digits_no). rewrite split_at_last by done. simpl.
  assert (∀ n, (n < 2 ^ 63)%N → (if bool_decide (digits_of_N n = ["-"%char]) then Some 0 else py_int (of_chars (digits_of_N n)))
    = Some (Z.of_N n)) as Hcount.
  { intros n Hn. rewrite bool_decide_eq_false_2; [by apply py_int_digits|]. intros E.
    apply (digits_no n "-"%char Hn); [done|]. rewrite E. left. }
  rewrite !Hcount by done. simpl. by rewrite of_chars_chars.
Qed.

Lemma stat_line_no_newline s : file_ok s → NEWLINE ∉ stat_line s.
Proof.
  intros (H1&H2&_&_&Hn). unfold stat_line. rewrite not_elem_of_app, not_elem_of_cons, not_elem_of_app, not_elem_of_cons.
  repeat split; try done; by apply digits_no.
Qed.

(** ** Entries *)

Lemma separator_sep : chars SEPARATOR = sep (chars "SEP"). Proof. reflexivity. Qed.
Lemma field_sep : chars FIELD_SEP = sep (chars "FIELD"). Proof. reflexivity. Qed.
Lemma body_end_sep : chars BODY_END = sep (chars "BODYEND"). Proof. reflexivity. Qed.

Lemma kinds_sep : chars "SEP" ∈ kinds. Proof. left. Qed.
Lemma kinds_field : chars "FIELD" ∈ kinds. Proof. right. left. Qed.
Lemma kinds_body : chars "BODYEND" ∈ kinds. Proof. right. right. left. Qed.

Lemma header_fields e :
  header_text e = chars (le_hash e) ++ (sep (chars "FIELD") ++ chars (le_author e)) ++
    (sep (chars "FIELD") ++ chars (le_date e)) ++ (sep (chars "FIELD") ++ chars (le_subject e)) ++
    (sep (chars "FIELD") ++ chars (le_body e)).
Proof. unfold header_text. rewrite field_sep. simpl. by rewrite <- ?app_assoc. Qed.

Lemma entry_clean e d :
  entry_ok e d → clean (chars (le_hash e)) ∧ clean (chars (le_author e)) ∧ clean (chars (le_date e)) ∧
    clean (chars (le_subject e)) ∧ clean (chars (le_body e)) ∧ clean (stat_block e).
Proof. intros (Hf&Hb&_). unfold FORMAT_FIELDS in Hf. rewrite !Forall_cons in Hf. destruct Hf as (?&?&?&?&?&_). done. Qed.

(** No separator of another kind than a field's begins in a header. *)
Lemma header_free e d x l :
  entry_ok e d → x ∈ kinds → x ≠ chars "FIELD" → boundary l → free (sep x) (header_text e) l.
Proof.
  intros He Hx Hne Hl. destruct (entry_clean e d He) as (H1&H2&H3&H4&H5&_). rewrite header_fields.
  assert (∀ v r, clean v → boundary (r ++ l) → free (sep x) r l → free (sep x) ((sep (chars "FIELD") ++ v) ++ r) l) as Hf.
  { intros v r Hv Hb Hr. rewrite free_app. split; [|done]. apply other_free; [done|apply kinds_field|done..]. }
  assert (∀ r, boundary ((sep (chars "FIELD") ++ r) ++ l)) as Hb by (intros r; rewrite <- app_assoc; apply boundary_sep).
  rewrite free_app. split; [apply clean_free; [done..|]; rewrite <- !app_assoc; apply boundary_sep|].
  apply Hf; [done|rewrite <- !app_assoc; apply boundary_sep|].
  apply Hf; [done|rewrite <- !app_assoc; apply boundary_sep|].
  apply Hf; [done|apply Hb|]. apply other_free; [done|apply kinds_field|done..].
Qed.

Lemma entry_free e d l : entry_ok e d → boundary l → free (chars SEPARATOR) (entry_text e) l.
Proof.
  intros He Hl. rewrite separator_sep. unfold entry_text. apply free_app. split.
  - apply (header_free e d); [done|apply kinds_sep|done|]. rewrite body_end_sep, <- app_assoc. apply boundary_sep.
  - rewrite body_end_sep. apply other_free; [apply kinds_sep|apply kinds_body|done| |done].
    by destruct (entry_clean e d He) as (_&_&_&_&_&?).
Qed.

(** The numstat block once its last newline is stripped. *)
Definition stat_tail (e : LogEntry) : list ascii :=
  match le_stats e with [] => [] | l => [NEWLINE; NEWLINE] ++ join_chars [NEWLINE] (map stat_line l) end.

Lemma join_lines l : l ≠ [] →
  concat (map (λ s, stat_line s ++ [NEWLINE]) l) = join_chars [NEWLINE] (map stat_line l) ++ [NEWLINE].
Proof.
  induction l as [|s l IH]; [done|]. intros _. destruct l as [|s' l]; [simpl; by rewrite app_nil_r|].
  change (join_chars [NEWLINE] (map stat_line (s :: s' :: l)))
    with (stat_line s ++ [NEWLINE] ++ join_chars [NEWLINE] (map stat_line (s' :: l))).
  rewrite <- !app_assoc, <- IH by done. simpl. by rewrite <- !app_assoc.
Qed.

Lemma join_trimmed l : l ≠ [] → Forall file_ok l → trimmed (join_chars [NEWLINE] (map stat_line l)).
Proof.
  induction l as [|s l IH]; [done|]. intros _ [Hs Hl]%Forall_cons. destruct l as [|s' l]; [by apply stat_line_trimmed|].
  change (join_chars [NEWLINE] (map stat_line (s :: s' :: l)))
    with (stat_line s ++ [NEWLINE] ++ join_chars [NEWLINE] (map stat_line (s' :: l))).
  apply trimmed_app; [by apply stat_line_trimmed|by apply IH].
Qed.

Lemma split_lines l : l ≠ [] → Forall file_ok l →
  split_at NEWLINE [] (join_chars [NEWLINE] (map stat_line l)) = map stat_line l.
Proof.
  induction l as [|s l IH]; [done|]. intros _ [Hs Hl]%Forall_cons.
  destruct l as [|s' l]; [by apply split_at_last, stat_line_no_newline|].
  change (join_chars [NEWLINE] (map stat_line (s :: s' :: l)))
    with (stat_line s ++ NEWLINE :: join_chars [NEWLINE] (map stat_line (s' :: l))).
  rewrite split_at_piece by (by apply stat_line_no_newline). rewrite IH by done. done.
Qed.

Lemma stats_of_tail e :
  Forall file_ok (le_stats e) →
  omap numstat_line (split_at NEWLINE [] (stat_tail e)) = map (λ s, (Z.of_N s.1.1, Z.of_N s.1.2, s.2)) (le_stats e).
Proof.
  intros Hall. unfold stat_tail. destruct (le_stats e) as [|s l]; [done|].
  change ([NEWLINE; NEWLINE] ++ ?r) with ([] ++ NEWLINE :: ([] ++ NEWLINE :: r)).
  rewrite !split_at_piece by apply not_elem_of_nil. rewrite split_lines by done.
  cbn [rev app omap list_omap]. change (numstat_line []) with (@None (Z * Z * string)).
  generalize dependent (s :: l). clear s l. intros l Hall.
  induction Hall as [|s l Hs _ IH]; simpl; [done|]. rewrite numstat_line_spec by done. by f_equal.
Qed.

Lemma strip_entry e d : entry_ok e d → strip_text (entry_text e) = header_text e ++ chars BODY_END ++ stat_tail e.
Proof.
  intros (_&_&Hh&Hall&_). unfold entry_text, stat_block, stat_tail.
  assert (∀ z, trimmed z → trimmed (header_text e ++ z)) as Ht.
  { intros z Hz. rewrite header_fields, <- app_assoc. by apply trimmed_app. }
  assert (Forall (λ c, py_is_space c = true) [NEWLINE]) as Hn by (by repeat constructor).
  destruct (le_stats e) as [|s l].
  - rewrite app_nil_r, app_assoc. apply strip_trimmed; [|by repeat constructor]. apply Ht. split.
    + by exists "-"%char, (tail (chars BODY_END)).
    + by exists "-"%char, (removelast (chars BODY_END)).
  - rewrite join_lines by done. rewrite !app_assoc. apply strip_trimmed; [|done]. rewrite <- !app_assoc.
    apply Ht. change (chars BODY_END ++ [NEWLINE; NEWLINE] ++ ?j) with (chars BODY_END ++ [NEWLINE; NEWLINE] ++ j).
    apply trimmed_app; [|by apply join_trimmed]. split.
    + by exists "-"%char, (tail (chars BODY_END)).
    + by exists "-"%char, (removelast (chars BODY_END)).
Qed.

Lemma parse_entry_text now e d : entry_ok e d → parse_entry now (entry_text e) = Ok (Some (commit_of e d)).
Proof.
  intros He. unfold parse_entry. rewrite (strip_entry e d He).
  rewrite partition_free.
  2: { rewrite body_end_sep. apply (header_free e d); [done|apply kinds_body|done|apply boundary_sep]. }
  destruct (entry_clean e d He) as (H1&H2&H3&H4&H5&_).
  assert (∀ v l, clean v → free (sep (chars "FIELD")) v (sep (chars "FIELD") ++ l)) as Hfree
    by (intros v l Hv; apply clean_free; [apply kinds_field|done|apply boundary_sep]).
  rewrite header_fields, field_sep, <- !app_assoc. rewrite !split_upto_free by (by apply Hfree). cbn [split_upto].
  destruct He as (_&_&_&Hall&Hd&u&Hu). rewrite !of_chars_chars. unfold commit_date. rewrite Hd, Hu. simpl.
  rewrite stats_of_tail by done. rewrite !map_map. done.
Qed.

Lemma render_split es ds n :
  Forall2 entry_ok es ds → (length es ≤ n)%nat →
  split_upto n (chars SEPARATOR) (render es) = [] :: map entry_text es ∨ es = [] ∧ render es = [].
Proof.
  intros H Hn. destruct es as [|e es]; [by right|]. left. unfold render.
  assert (∀ es ds n, Forall2 entry_ok es ds → (length es ≤ n)%nat → ∀ a, free (chars SEPARATOR) a (render es) →
    split_upto n (chars SEPARATOR) (a ++ render es) = a :: map entry_text es) as Hgo.
  { clear. induction es as [|e es IH]; intros ds n H Hn a Ha.
    - unfold render. simpl. rewrite app_nil_r. by apply split_upto_last.
    - apply Forall2_cons_inv_l in H as (d&ds'&He&H&->). destruct n as [|n]; [simpl in Hn; lia|].
      change (render (e :: es)) with ((chars SEPARATOR ++ entry_text e) ++ render es) in *. rewrite <- app_assoc in *.
      rewrite split_upto_free by done. cbn [map]. f_equal. apply (IH ds'); [done|simpl in Hn; lia|].
      apply (entry_free e d); [done|]. destruct es as [|e' es]; [by left|]. right.
      unfold render. simpl. by eexists. }
  by apply (Hgo (e :: es) ds n H Hn []).
Qed.

(** C30. The log parser inverts the log format.  For any commits whose fields do
    not hold the markers' own text, the text git prints in the format that
    [log_argv] asks for is parsed back into exactly those commits, in order:
    hash, author, date with its offset, subject, the whole multi-line body
    without the spaces at its ends, the files of the numstat block, and the sums
    of its counts. *)
Theorem log_roundtrip (clock : nat → datetime) es ds :
  Forall2 entry_ok es ds → parse_log clock (of_chars (render es)) = Ok (zip_with commit_of es ds).
Proof.
  intros H. unfold parse_log. rewrite chars_of_chars.
  destruct es as [|e es]; [by apply Forall2_nil_inv_l in H as ->|].
  assert (strip_text (render (e :: es)) ≠ []) as Hne.
  { intros E. apply (f_equal length) in E. revert E. unfold strip_text, strip_chars. rewrite length_rev.
    rewrite (lstrip_none _ (render (e :: es))) by done. 
    change (render (e :: es)) with ("-"%char :: drop 1 (render (e :: es))). cbn [rev]. intros E.
    assert (∀ l, length (lstrip_chars py_is_space (l ++ ["-"%char])) ≠ 0%nat) as Hl; [|by apply Hl in E].
    induction l as [|c l IH]; simpl; [done|]. by destruct (py_is_space c). }
  destruct (strip_text (render (e :: es))); [done|]. clear Hne.
  destruct (render_split (e :: es) ds (length (render (e :: es))) H) as [E|[E _]]; [| |done].
  { clear. generalize (e :: es). intros l. induction l as [|x l IH]; [done|].
    unfold render in *. cbn [map concat]. rewrite !length_app.
    change (length (x :: l)) with (S (length l)). change (length (chars SEPARATOR)) with 21%nat. lia. }
  assert (∀ n l, parse_entries clock n ([] :: l) = let? cs := parse_entries clock (S n) l in Ok cs) as Hskip by done.
  unfold split_text. rewrite E, Hskip.
  assert (∀ es ds n, Forall2 entry_ok es ds → parse_entries clock n (map entry_text es) = Ok (zip_with commit_of es ds)) as Hgo.
  { clear. induction es as [|e es IH]; intros ds n H.
    - by apply Forall2_nil_inv_l in H as ->.
    - apply Forall2_cons_inv_l in H as (d&ds'&He&H&->). cbn [map parse_entries].
      rewrite (parse_entry_text _ e d He). simpl. by rewrite (IH ds'). }
  rewrite (Hgo (e :: es) ds) by done. done.
Qed.
