(* ===== verification/GitOnboard.v ===== *)
(** * Git onboarding: the orchestration

    [services/git_onboard.py] over the storage port: the watermark policy shared
    by the two surfaces, the watermark row, and the memories the command line
    seeds.  [extract] is the history reader a surface passes in; a fresh id and
    the clock are arguments. *)

From S2P Require Import Prelude PyStr PyText Sha256 Domain DateTime PyNum Sql Store Transactions Port UseCases Envelope.
From S2P Require Import GitLog GitCluster.
Local Open Scope Z_scope.
Local Open Scope prog_scope.

Definition GIT_SOURCE : string := "git-onboard".

Inductive OnboardStatus := on_ok | up_to_date | exists_ | empty_.
#[global] Instance OnboardStatus_eq_dec : EqDecision OnboardStatus.
Proof. solve_decision. Defined.

(** [git_onboard.py:866-880 OnboardPrepared] *)
Record OnboardPrepared := mkPrepared {
  op_status : OnboardStatus;
  op_history : ExtractedHistory;
  op_filtered : list GitCommit;
  op_clusters : list CommitCluster;
  watermark_before : option string;
  existing_count : Z;
}.
Definition no_history : ExtractedHistory := mkHistory [] "" "" false.

(** [git_onboard.py:877-880 OnboardPrepared.incremental] *)
Definition incremental (p : OnboardPrepared) : bool :=
  some_b (watermark_before p) && negb (watermark_unreachable (op_history p)).

Section store_clients.
Context {S : Type} `{HF : FTS5} `{!MemoryStorePort S}.
Notation St A := (SE S exn A).

Definition delete_each (items : list MemoryItem) : St (list unit) := map_m (λ m, st_delete_memory (id m)) items.

Definition watermark_item (new_id : string) (now : datetime) (project_id latest_hash : string) : MemoryItem :=
  mkMemoryItem new_id latest_hash [WATERMARK_SOURCE] now false (Some project_id) WATERMARK_SOURCE None.
(** [git_onboard.py:946-963 save_watermark] *)
Definition save_watermark (new_id : string) (now : datetime) (project_id latest_hash : string) : St unit :=
  let* existing := st_list_memory_by_source WATERMARK_SOURCE (Some project_id) in
  let* _ := delete_each existing in
  st_add_memory (watermark_item new_id now project_id latest_hash).

(** [git_onboard.py:903-910 onboard_git_prepare] *)
Definition usable_watermark (watermark_items : list MemoryItem) : option string :=
  match watermark_items with
  | m :: _ => if hash_like (content m) then Some (content m) else None
  | [] => None
  end.

(** [git_onboard.py:883-943 onboard_git_prepare] *)
Definition onboard_git_prepare (new_id : string) (now : datetime) (project_id : string)
    (extract : option string → result exn ExtractedHistory) (max_clusters : Z) (force : bool) : St OnboardPrepared :=
  let* existing := st_list_memory_by_source GIT_SOURCE (Some project_id) in
  let* watermark_items := st_list_memory_by_source WATERMARK_SOURCE (Some project_id) in
  let watermark_hash := if force then None else usable_watermark watermark_items in
  let* _ := (if force then delete_each (existing ++ watermark_items) else ret []) in
  if negb force && negb (bool_decide (existing = [])) && negb (some_b watermark_hash) then
    ret (mkPrepared exists_ no_history [] [] None (Z.of_nat (length existing)))
  else
    let* history := lift_result (extract watermark_hash) in
    match h_commits history with
    | [] =>
        ret (mkPrepared (if some_b watermark_hash then up_to_date else empty_) history [] [] watermark_hash 0)
    | newest :: _ =>
        let filtered := filter_commits (h_commits history) in
        let clusters := cluster_commits TIME_WINDOW_HOURS max_clusters filtered in
        save_watermark new_id now project_id (gc_hash newest) ;;
        ret (mkPrepared on_ok history filtered clusters watermark_hash 0)
    end.

Definition latest_date (commits : list GitCommit) : result exn datetime :=
  match commits with
  | [] => Raise ValueError
  | c :: cs => Ok (foldl later (gc_date c) (map gc_date cs))
  end.
(** [git_onboard.py:831-863 materialize_clusters] The [n]-th memory gets the
    [n]-th fresh id. *)
Fixpoint materialize_clusters (dash : string) (new_id : nat → string) (n : nat) (project_id : string)
    (clusters : list CommitCluster) : St (list MemoryItem) :=
  match clusters with
  | [] => ret []
  | c :: cs =>
      let* content := lift_result (format_cluster_as_raw_memory dash c) in
      let* latest := lift_result (latest_date (cl_commits c)) in
      let item := mkMemoryItem (new_id n) content ["git-derived"%string] latest false (Some project_id) GIT_SOURCE None in
      st_add_memory item ;;
      let* items := materialize_clusters dash new_id (Datatypes.S n) project_id cs in
      ret (item :: items)
  end.

(** ** The MCP tool *)

Inductive OnboardResponse :=
| already_exists (existing : Z)
| nothing_new (watermark : option string) (branch head : string)
| no_commits (branch head : string)
| onboarded (walked kept : Z) (clusters : list Summary) (is_incremental : bool) (branch head : string) (full_rewalk : bool).

Fixpoint summaries (dash : string) (max_commits : Z) (detail : bool) (cs : list CommitCluster) : result exn (list Summary) :=
  match cs with
  | [] => Ok []
  | c :: cs' =>
      let? s := cluster_to_summary dash c max_commits detail in
      let? ss := summaries dash max_commits detail cs' in
      Ok (s :: ss)
  end.

(** [mcp/tools/onboard.py:113-189 _onboard_git_sync] The instruction text is
    left out. *)
Definition onboard_git_sync (dash : string) (run : Git) (environ : env) (clock : nat → datetime) (tmpdir new_id : string)
    (now : datetime) (project_id repo_url : string) (max_commits max_clusters : Z) (force : bool)
    (max_commits_per_cluster : Z) (include_commit_detail : bool) (branch : option string) : St OnboardResponse :=
  let* project := st_get_project project_id in
  match project with
  | None => raise (NotFoundError PROJECT_NOT_FOUND)
  | Some _ =>
      let* prepared := onboard_git_prepare new_id now project_id
        (λ since, extract_commits_from_url run environ clock tmpdir repo_url max_commits since branch) max_clusters force in
      let history := op_history prepared in
      match op_status prepared with
      | exists_ => ret (already_exists (existing_count prepared))
      | up_to_date => ret (nothing_new (watermark_before prepared) (h_branch history) (h_head history))
      | empty_ => ret (no_commits (h_branch history) (h_head history))
      | on_ok =>
          let* cluster_data := lift_result
            (summaries dash max_commits_per_cluster include_commit_detail (op_clusters prepared)) in
          ret (onboarded (Z.of_nat (length (h_commits history))) (Z.of_nat (length (op_filtered prepared))) cluster_data
            (incremental prepared) (h_branch history) (h_head history) (watermark_unreachable history))
      end
  end.
End store_clients.
