(* ===== verification/GitOnboardProps.v ===== *)
(** * Properties of the onboarding orchestration

    What a run leaves in the store on every path: nothing, the watermark moved,
    or, when forced, the derived rows cleared first. *)

From S2P Require Import Prelude PyStr PyText Sha256 Domain DateTime PyNum Sql Store Transactions Port StoreProps SearchProps UseCases.
From S2P Require Import UseCaseProps Envelope GitLog GitCluster TextProps GitLogProps LogFormat GitOnboard.
Local Open Scope Z_scope.
Local Open Scope prog_scope.

Section store.
Context {S : Type} `{HF : FTS5} `{!MemoryStorePort S}.
Implicit Types (t : S) (d : db).

(** The rows of a source in a project, newest first. *)
Definition from_source (src project_id : string) (r : memory_row) : bool :=
  bool_decide (r_source r = src) && in_project project_id r.
Definition source_rows (src project_id : string) d : list (string * memory_row) :=
  select_memories (λ _, from_source src project_id) newest_leb d.
Definition source_items (src project_id : string) d : list MemoryItem := map row_to_memory_item (source_rows src project_id d).

Lemma source_ids src p d k :
  k ∈ map id (source_items src p d) ↔ ∃ r, memories d !! k = Some r ∧ from_source src p r = true.
Proof.
  unfold source_items. rewrite map_map. change (λ x, id (row_to_memory_item x)) with (@fst string memory_row).
  split.
  - intros ([k' r]&->&H)%list_elem_of_fmap. apply select_memories_elem in H. eauto.
  - intros (r&H). apply (list_elem_of_fmap_2 fst _ (k, r)). by apply select_memories_elem.
Qed.

Lemma source_ids_NoDup src p d : NoDup (map id (source_items src p d)).
Proof. unfold source_items. rewrite map_map. exact (select_memories_NoDup _ _ d). Qed.

Lemma list_by_source t src p :
  st_ok t → ∃ t', st_list_memory_by_source src (Some p) t = (t', Ok (source_items src p (st_view t))) ∧
    st_ok t' ∧ st_view t' = st_view t.
Proof. intros Ht. by apply (store_read _ _ t _ (law_list_memory_by_source src (Some p)) Ht). Qed.

(** [d'] is [d] without the memories [gone]. *)
Definition without (gone : list string) d d' : Prop :=
  projects d' = projects d ∧ memories d' = filter (λ kr, kr.1 ∉ gone) (memories d) ∧
  ∀ k, k ∉ gone → embeddings d' !! k = embeddings d !! k.

Lemma without_refl d : without [] d d.
Proof.
  split; [done|]. split; [|done]. symmetry. apply map_filter_id. intros k r _. simpl. apply not_elem_of_nil.
Qed.

Lemma without_lookup gone d d' k :
  without gone d d' → memories d' !! k = if bool_decide (k ∈ gone) then None else memories d !! k.
Proof.
  intros (_&->&_). case_bool_decide as Hk.
  - apply map_lookup_filter_None. right. intros x _ H. by apply H.
  - destruct (memories d !! k) as [r|] eqn:Hr; [by apply map_lookup_filter_Some|].
    apply map_lookup_filter_None. by left.
Qed.

Lemma without_trans g1 g2 d1 d2 d3 : without g1 d1 d2 → without g2 d2 d3 → without (g1 ++ g2) d1 d3.
Proof.
  intros (P1&M1&E1) (P2&M2&E2). split; [congruence|]. split.
  - rewrite M2, M1, map_filter_filter. apply map_filter_ext. intros k r _. simpl. rewrite not_elem_of_app. tauto.
  - intros k. rewrite not_elem_of_app. intros [H1 H2]. by rewrite E2, E1.
Qed.

Lemma without_ext g1 g2 d d' : (∀ k, k ∈ g1 ↔ k ∈ g2) → without g1 d d' → without g2 d d'.
Proof.
  intros Hg (H1&H2&H3). split; [done|]. split.
  - rewrite H2. apply map_filter_ext. intros k r _. simpl. by rewrite Hg.
  - intros k. rewrite <- Hg. apply H3.
Qed.

Lemma delete_one t k :
  st_ok t → is_Some (memories (st_view t) !! k) →
  ∃ t', st_delete_memory k t = (t', Ok tt) ∧ st_ok t' ∧ without [k] (st_view t) (st_view t').
Proof.
  intros Ht Hk. destruct (run_op _ _ t (law_delete_memory k) Ht) as (t'&Hrun&Hok&_&Hv).
  unfold Spec.delete_memory in Hrun, Hv. rewrite bool_decide_eq_true_2 in Hrun, Hv by done.
  exists t'. split; [done|]. split; [done|]. rewrite Hv. cbn [fst]. split; [done|]. split.
  - apply map_eq. intros i. rewrite delete_memories_lookup.
    assert (∀ kr : string * memory_row, kr.1 ∉ [k] ↔ kr.1 ≠ k) as Hs by (intros; set_solver).
    destruct (memories (st_view t) !! i) as [r|] eqn:Hi; simpl.
    + case_bool_decide as E; symmetry.
      * apply map_lookup_filter_None. right. intros x _. rewrite Hs. simpl. congruence.
      * apply map_lookup_filter_Some. split; [done|]. by rewrite Hs.
    + symmetry. apply map_lookup_filter_None. by left.
  - intros i Hi. rewrite delete_memories_embedding. destruct (memories (st_view t) !! i); [|done].
    rewrite bool_decide_eq_false_2; [done|]. set_solver.
Qed.

Lemma delete_each_run t items :
  st_ok t → NoDup (map id items) → (∀ m, m ∈ items → is_Some (memories (st_view t) !! id m)) →
  ∃ t' us, delete_each items t = (t', Ok us) ∧ st_ok t' ∧ without (map id items) (st_view t) (st_view t').
Proof.
  revert t. induction items as [|m items IH]; intros t Ht Hnd Hin.
  { exists t, []. split; [done|]. split; [done|apply without_refl]. }
  simpl in Hnd. apply NoDup_cons in Hnd as [Hm Hnd].
  destruct (delete_one t (id m) Ht) as (t1&H1&Ht1&Hw1); [apply Hin; left|].
  destruct (IH t1 Ht1 Hnd) as (t2&us&H2&Ht2&Hw2).
  { intros m' Hm'. rewrite (without_lookup _ _ _ _ Hw1), bool_decide_eq_false_2; [apply Hin; by right|].
    intros E%list_elem_of_singleton. apply Hm. rewrite <- E. by apply (list_elem_of_fmap_2 id). }
  exists t2, (tt :: us). unfold delete_each in *. cbn [map_m]. unfold bind. rewrite H1, H2. split; [done|]. split; [done|].
  exact (without_trans [id m] (map id items) _ _ _ Hw1 Hw2).
Qed.

(** The row a watermark is stored as. *)
Definition watermark_row (now : Z) (project_id hash : string) : memory_row :=
  MemoryRow hash [WATERMARK_SOURCE] now false (Some project_id) WATERMARK_SOURCE None.

Lemma save_watermark_run new_id now p hash t :
  st_ok t → memories (st_view t) !! new_id = None → is_Some (projects (st_view t) !! p) → 0 ≤ now < datetime_end →
  ∃ t', save_watermark new_id (utc now) p hash t = (t', Ok tt) ∧ st_ok t' ∧
    projects (st_view t') = projects (st_view t) ∧
    memories (st_view t') = <[new_id := watermark_row now p hash]>
      (filter (λ kr, from_source WATERMARK_SOURCE p kr.2 = false) (memories (st_view t))).
Proof.
  intros Ht Hnew Hp Hnow. unfold save_watermark.
  destruct (list_by_source t WATERMARK_SOURCE p Ht) as (t1&H1&Ht1&Hv1).
  destruct (delete_each_run t1 (source_items WATERMARK_SOURCE p (st_view t)) Ht1 (source_ids_NoDup _ _ _)) as (t2&us&H2&Ht2&Hw2).
  { intros m Hm. rewrite Hv1. apply (list_elem_of_fmap_2 id) in Hm. apply source_ids in Hm as (r&Hr&_). by eexists. }
  rewrite Hv1 in Hw2. destruct (run_op _ _ t2 (law_add_memory (watermark_item new_id (utc now) p hash)) Ht2) as (t3&H3&Ht3&_&Hv3).
  pose proof (without_lookup _ _ _ new_id Hw2) as Hl. rewrite Hnew in Hl. destruct Hw2 as (Ep&Em&_).
  assert (Spec.add_memory (watermark_item new_id (utc now) p hash) (st_view t2) =
    (set_memories (<[new_id := watermark_row now p hash]> (memories (st_view t2)))
       (set_fts (fts_ai new_id (watermark_row now p hash) <$> fts (st_view t2)) (st_view t2)), Ok tt)) as E.
  { unfold Spec.add_memory, Spec.item_row. cbn [created_at updated_at watermark_item]. rewrite iso_column_utc by done.
    cbn [result_bind]. cbn [id project_id watermark_item]. rewrite bool_decide_eq_false_2.
    2: { rewrite Hl. case_bool_decide; by intros [? ?]. }
    unfold fk_project_ok. rewrite Ep, bool_decide_eq_true_2 by done. done. }
  rewrite E in H3, Hv3. exists t3. unfold bind. rewrite H1, H2, H3. split; [done|]. split; [done|].
  rewrite Hv3. cbn [fst projects memories set_memories set_fts]. split; [done|]. f_equal. rewrite Em.
  apply map_filter_ext. intros k r Hr. simpl. rewrite source_ids. split.
  - intros H. apply not_true_is_false. intros Hf. apply H. eauto.
  - intros Hf (r'&Hr'&Ht'). congruence.
Qed.

(** What a forced run clears. *)
Definition derived (p : string) (r : memory_row) : bool := from_source GIT_SOURCE p r || from_source WATERMARK_SOURCE p r.
Definition cleared (force : bool) (p : string) d : gmap string memory_row :=
  if force then filter (λ kr, derived p kr.2 = false) (memories d) else memories d.

Lemma clear_run (force : bool) p t :
  st_ok t →
  ∃ t' us, (if force then delete_each (source_items GIT_SOURCE p (st_view t) ++ source_items WATERMARK_SOURCE p (st_view t))
    else ret []) t = (t', Ok us) ∧ st_ok t' ∧ projects (st_view t') = projects (st_view t) ∧
    memories (st_view t') = cleared force p (st_view t).
Proof.
  intros Ht. destruct force; [|by exists t, []].
  destruct (delete_each_run t (source_items GIT_SOURCE p (st_view t) ++ source_items WATERMARK_SOURCE p (st_view t)) Ht)
    as (t'&us&H&Hok&Hw).
  - rewrite map_app. apply NoDup_app. split; [apply source_ids_NoDup|]. split; [|apply source_ids_NoDup].
    intros k (r&Hr&Hf)%source_ids (r'&Hr'&Hf')%source_ids. assert (r' = r) as -> by congruence.
    unfold from_source in *. apply andb_true_iff in Hf as [Hf _], Hf' as [Hf' _].
    apply bool_decide_eq_true in Hf, Hf'. by rewrite Hf in Hf'.
  - intros m Hm. assert (id m ∈ map id (source_items GIT_SOURCE p (st_view t) ++ source_items WATERMARK_SOURCE p (st_view t))) as Hi
      by (by apply list_elem_of_fmap_2).
    rewrite map_app, elem_of_app, !source_ids in Hi. destruct Hi as [(r&Hr&_)|(r&Hr&_)]; by eexists.
  - exists t', us. split; [done|]. split; [done|]. destruct Hw as (Hp&Hm&_). split; [done|]. rewrite Hm. unfold cleared.
    apply map_filter_ext. intros k r Hr. simpl. rewrite map_app, not_elem_of_app, !source_ids. unfold derived.
    rewrite orb_false_iff. split.
    + intros [H1 H2]. split; apply not_true_is_false; intros Hx; [apply H1|apply H2]; eauto.
    + intros [H1 H2]. split; intros (r'&Hr'&Hx); congruence.
Qed.

(** The watermark a run starts from. *)
Definition watermark_of (force : bool) (p : string) d : option string :=
  if force then None else usable_watermark (source_items WATERMARK_SOURCE p d).
Definition refuses (force : bool) (p : string) d : bool :=
  negb force && negb (bool_decide (source_items GIT_SOURCE p d = [])) && negb (some_b (watermark_of force p d)).

(** What an onboarding run leaves behind.  On every path the projects are
    untouched, and so is every memory that is not derived from git in this
    project.  Without force, derived memories and no usable watermark stop the
    run before anything is read or written.  Otherwise history is read from the
    stored watermark, if it looks like a hash; with force, from the beginning,
    after all derived memories and watermarks of the project were deleted, which
    is not undone when reading fails.  A failed or empty read changes nothing
    more.  A run that read commits leaves exactly one watermark in the project,
    the hash of the newest commit walked, and reports the filtered commits and
    their clusters. *)
Theorem onboard_outcomes (new_id p : string) (now k : Z) (extract : option string → result exn ExtractedHistory)
    (force : bool) t :
  st_ok t → memories (st_view t) !! new_id = None → is_Some (projects (st_view t) !! p) → 0 ≤ now < datetime_end →
  let d := st_view t in
  let wm := watermark_of force p d in
  let '(t', r) := onboard_git_prepare new_id (utc now) p extract k force t in
  projects (st_view t') = projects d ∧
  if refuses force p d then
    r = Ok (mkPrepared exists_ no_history [] [] None (Z.of_nat (length (source_items GIT_SOURCE p d)))) ∧
    memories (st_view t') = memories d
  else match extract wm with
  | Raise e => r = Raise e ∧ memories (st_view t') = cleared force p d
  | Ok h =>
      match h_commits h with
      | [] => r = Ok (mkPrepared (if some_b wm then up_to_date else empty_) h [] [] wm 0) ∧
          memories (st_view t') = cleared force p d
      | c :: _ =>
          let kept := filter_commits (h_commits h) in
          r = Ok (mkPrepared on_ok h kept (cluster_commits TIME_WINDOW_HOURS k kept) wm 0) ∧
          memories (st_view t') = <[new_id := watermark_row now p (gc_hash c)]>
            (filter (λ kr, from_source WATERMARK_SOURCE p kr.2 = false) (cleared force p d))
      end
  end.
Proof.
  intros Ht Hnew Hp Hnow d wm. unfold onboard_git_prepare.
  destruct (list_by_source t GIT_SOURCE p Ht) as (t1&H1&Ht1&Hv1).
  destruct (list_by_source t1 WATERMARK_SOURCE p Ht1) as (t2&H2&Ht2&Hv2). rewrite Hv1 in H2, Hv2.
  destruct (clear_run force p t2 Ht2) as (t3&us&H3&Ht3&Hp3&Hm3). rewrite Hv2 in H3, Hp3, Hm3. fold d in H1, H2, H3, Hp3, Hm3.
  unfold bind at 1. rewrite H1. unfold bind at 1. rewrite H2. unfold bind at 1. rewrite H3.
  change (if force then None else usable_watermark (source_items WATERMARK_SOURCE p d)) with wm.
  assert (negb force && negb (bool_decide (source_items GIT_SOURCE p d = [])) && negb (some_b wm) = refuses force p d) as ->
    by done.
  destruct (refuses force p d) eqn:Href.
  { unfold ret. split; [done|]. split; [done|]. rewrite Hm3. unfold cleared, refuses in *. by destruct force. }
  unfold bind at 1, lift_result. destruct (extract wm) as [h|e]; [|by rewrite Hm3].
  destruct (h_commits h) as [|c cs] eqn:Hh; [unfold ret; by rewrite Hm3|].
  destruct (save_watermark_run new_id now p (gc_hash c) t3 Ht3) as (t4&H4&_&Hp4&Hm4); [|by rewrite Hp3|done|].
  { rewrite Hm3. unfold cleared. destruct force; [|done]. apply map_lookup_filter_None. by left. }
  unfold bind at 1. rewrite H4. unfold ret. rewrite Hp4, Hp3, Hm4, Hm3. done.
Qed.
End store.

(** * The onboarding properties on concrete runs

    A log of two commits, an authenticated clone, and a run over the sample
    store. *)

#[local] Existing Instance substring_fts.

(** ** A log *)

Definition nl : string := of_chars [NEWLINE].
Definition fix_commit : LogEntry :=
  mkEntry "abc1234" "Ann" "2024-01-02T03:04:05+01:00" "fix: a bug" ("Why it was wrong." +:+ nl +:+ nl +:+ "And why not.")
    [(10%N, 2%N, "a.py"); (0%N, 7%N, "docs/b c.md")]%string.
Definition empty_commit : LogEntry := mkEntry "def5678" "Bob" "2024-01-01T00:00:00+00:00" "release" "" [].
Definition fix_date : datetime := Datetime (63839761445 * 1000000) (Some 3600000000).
Definition empty_date : datetime := Datetime (63839664000 * 1000000) (Some 0).

Lemma trimmed_by l : (∃ c l', l = c :: l' ∧ py_is_space c = false) → (∃ c l', rev l = c :: l' ∧ py_is_space c = false) → trimmed l.
Proof.
  intros H (c&l'&Hr&Hc). split; [done|]. exists c, (rev l'). split; [|done].
  rewrite <- (rev_involutive l), Hr. done.
Qed.

Ltac trimmed_tac := apply trimmed_by; vm_compute; eexists _, _; split; reflexivity.
Ltac file_tac := do 2 (split; [reflexivity|]); split; [trimmed_tac|]; split; apply (bool_decide_unpack _); vm_compute; reflexivity.
Ltac entry_tac :=
  split; [apply (bool_decide_unpack _); vm_compute; reflexivity|]; split; [vm_compute; reflexivity|]; split; [trimmed_tac|];
  split; [repeat (apply Forall_cons_2; [file_tac|]); apply Forall_nil_2|];
  split; [vm_compute; reflexivity|]; eexists; vm_compute; reflexivity.

Lemma fix_ok : entry_ok fix_commit fix_date.
Proof. entry_tac. Qed.
Lemma empty_ok : entry_ok empty_commit empty_date.
Proof. entry_tac. Qed.

Lemma log_roundtrip_witness (clock := λ n : nat, utc 0) :
  ∃ a b, parse_log clock (of_chars (render [fix_commit; empty_commit])) = Ok [a; b] ∧
    gc_insertions a = 10 ∧ gc_deletions a = 9 ∧ gc_files b = [].
Proof.
  rewrite (log_roundtrip clock [fix_commit; empty_commit] [fix_date; empty_date]).
  - eexists _, _. split; [reflexivity|]. repeat split; reflexivity.
  - apply Forall2_cons_2; [exact fix_ok|]. apply Forall2_cons_2; [exact empty_ok|]. apply Forall2_nil_2.
Defined.

(** ** A clone with a token *)

Definition server_env : env :=
  list_to_map [(TOKEN, "tok-1"); ("PATH", "/usr/bin"); ("OC_API_KEY", "secret")]%string.
Definition repo : string := "https://github.com/acme/private".

Lemma server_authenticated : authenticated server_env repo "tok-1".
Proof. split; [reflexivity|]. split; [discriminate|reflexivity]. Qed.

Lemma child_env_least_privilege_witness :
  ("PATH" ∈ GIT_ENV_PASSTHROUGH ∧ server_env !! "PATH" = Some "/usr/bin")%string ∧
  build_clone_env server_env repo !! "OC_API_KEY"%string = None.
Proof.
  split; [|vm_compute; reflexivity].
  destruct (child_env_least_privilege server_env repo "PATH" "/usr/bin") as [H|[H|[H _]]]; [reflexivity|exact H|discriminate H..].
Defined.

(** What git printed when the clone failed. *)
Definition git_stderr : list ascii := chars "fatal: bad password tok-1 (rejected by host)".

Lemma redaction_complete_witness :
  contains_chars (chars "tok-1") (redact_clone_secrets git_stderr server_env (build_clone_env server_env repo)) = false ∧
  contains_chars (chars "tok-1") git_stderr = true.
Proof.
  split; [|reflexivity].
  apply (redaction_complete server_env repo "tok-1" git_stderr server_authenticated).
  apply (bool_decide_unpack _). vm_compute. reflexivity.
Defined.

(** ** A run over the sample store *)

Definition walked : ExtractedHistory :=
  mkHistory [commit_of fix_commit fix_date; commit_of empty_commit empty_date] "main" "abc1234" false.

Lemma onboard_outcomes_witness :
  let '(t', r) := onboard_git_prepare "w1" (utc 5) "p" (λ _, Ok walked) 20 false sample_store in
  memories (view t') !! "w1"%string = Some (watermark_row 5 "p" "abc1234") ∧
  projects (view t') = projects (view sample_store).
Proof.
  pose proof (@onboard_outcomes store substring_fts (@SqliteStore substring_fts) "w1" "p" 5 20 (λ _, Ok walked) false
    sample_store ready_sample) as H.
  destruct (onboard_git_prepare "w1" (utc 5) "p" (λ _, Ok walked) 20 false sample_store) as [t' r].
  destruct H as [Hp H]; [vm_compute; reflexivity|vm_compute; by eexists|unfold datetime_end; lia|].
  split; [|exact Hp]. 
  replace (refuses false "p" (st_view sample_store)) with false in H by (vm_compute; reflexivity).
  destruct H as [_ H]. cbn [h_commits walked] in H. change (view t') with (st_view t'). rewrite H. apply lookup_insert_eq.
Defined.
