(* ===== verification/FileSystem.v ===== *)
(** * A file system under failing calls

    What the program uses of [pathlib] and [os] when it writes snapshots: a map
    from paths to nodes, where every call that reaches the operating system may
    raise [OSError].  A world carries the files, which of the coming calls
    fail, and every state the files went through, the newest first, since a
    process may die between any two calls.  [triple] is a Hoare triple over such
    a run, with a postcondition for a return, one for an exception, and an
    invariant for every state in between. *)

From S2P Require Import Prelude PyStr PyText Domain.
Local Open Scope prog_scope.

(** ** Names *)

(** [os.path.splitext]: leading dots are part of the stem. *)
Definition is_dot (c : ascii) : bool := bool_decide (c = "."%char).
Definition splitext (l : list ascii) : list ascii * list ascii :=
  let (ext, rest) := span_chars (λ c, negb (is_dot c)) (rev l) in
  match rest with
  | _ :: before => if forallb is_dot before then (l, []) else (rev before, "."%char :: rev ext)
  | [] => (l, [])
  end.
Definition py_suffix (name : string) : string := of_chars (splitext (chars name)).2.
Definition py_stem (name : string) : string := of_chars (splitext (chars name)).1.

(** A path is its components; an empty one has no name. *)
Abbreviation path := (list string).
Definition path_name (p : path) : string := default ""%string (last p).
Definition parent (p : path) : path := removelast p.
Definition with_name (p : path) (n : string) : path := parent p ++ [n].
Definition with_suffix (p : path) (s : string) : path := with_name p (py_stem (path_name p) +:+ s)%string.
(** [Path(f"{path}{suffix}")] *)
Definition suffixed (p : path) (s : string) : path := with_name p (path_name p +:+ s)%string.

(** ** Nodes *)

(** The text of a file: the bytes of a database or of anything else that is not
    a JSON document, a JSON document as it decodes, or a file that is still
    being written. *)
Inductive content := Bytes (s : string) | Doc (j : json) | Partial.
(** A link to a directory, to a file, or to nothing. *)
Inductive node := File (c : content) | Dir | Link (to : option bool).

Abbreviation fs := (@gmap (list string) (@list_eq_dec string String.eq_dec) (@list_countable string String.eq_dec String.countable) node).

Definition is_symlink (f : fs) (p : path) : bool := match f !! p with Some (Link _) => true | _ => false end.
Definition is_file (f : fs) (p : path) : bool :=
  match f !! p with Some (File _) | Some (Link (Some false)) => true | _ => false end.
Definition is_dir (f : fs) (p : path) : bool :=
  match f !! p with Some Dir | Some (Link (Some true)) => true | _ => false end.
(** [p.exists()] follows links. *)
Definition exists_ (f : fs) (p : path) : bool :=
  match f !! p with Some (Link None) | None => false | Some _ => true end.

(** ** Calls *)

(** [operation_lock] is the lock of the backup catalog. *)
Record world := mkWorld { files : fs; seen : list fs; faults : list bool; operation_lock : bool }.
Notation IO A := (SE world exn A).

(** A call to the operating system: it fails if the next fault says so. *)
Definition io {A} (op : fs → fs * result exn A) : IO A := λ w,
  match faults w with
  | true :: fl => (mkWorld (files w) (seen w) fl (operation_lock w), Raise OSError)
  | fl =>
      let (f, r) := op (files w) in
      (mkWorld f (f :: seen w) (tail fl) (operation_lock w), r)
  end.
Definition look {A} (g : fs → A) : IO A := gets (λ w, g (files w)).

Definition update (g : fs → fs) : fs → fs * result exn unit := λ f, (g f, Ok tt).
(** A call that changes no file: [fsync], [stat], a read. *)
Definition touch_nothing : IO unit := io (update (λ f, f)).
Definition put_file (p : path) (c : content) : IO unit := io (update (<[p := File c]>)).
(** [open(p, "x")] *)
Definition open_new (p : path) : IO unit :=
  io (λ f, match f !! p with Some _ => (f, Raise OSError) | None => (<[p := File Partial]> f, Ok tt) end).
(** [p.unlink()] and [p.unlink(missing_ok=True)] *)
Definition unlink (missing_ok : bool) (p : path) : IO unit :=
  io (λ f, match f !! p with
    | Some Dir => (f, Raise OSError)
    | Some _ => (delete p f, Ok tt)
    | None => (f, if missing_ok then Ok tt else Raise OSError)
    end).
(** [os.replace(a, b)] *)
Definition replace_file (a b : path) : IO unit :=
  io (λ f, match f !! a, f !! b with
    | None, _ | _, Some Dir => (f, Raise OSError)
    | Some n, _ => (<[b := n]> (delete a f), Ok tt)
    end).
(** [p.mkdir(exist_ok=True)] *)
Definition mkdir_one (p : path) (f : fs) : fs * result exn unit :=
  match f !! p with
  | None => (<[p := Dir]> f, Ok tt)
  | Some Dir | Some (Link (Some true)) => (f, Ok tt)
  | Some _ => (f, Raise OSError)
  end.
Definition mkdir (p : path) : IO unit := io (mkdir_one p).
(** [p.mkdir()] *)
Definition mkdir_new (p : path) : IO unit :=
  io (λ f, match f !! p with None => (<[p := Dir]> f, Ok tt) | Some _ => (f, Raise OSError) end).
(** [p.mkdir(parents=True, exist_ok=True)] *)
Fixpoint mkdirs_from (above below : path) : IO unit :=
  match below with
  | [] => ret tt
  | n :: below' => mkdir (above ++ [n]) ;; mkdirs_from (above ++ [n]) below'
  end.
Definition mkdirs (p : path) : IO unit := mkdirs_from [] p.

(** [contextlib.suppress(OSError)] *)
Definition is_os_error (e : exn) : bool :=
  match e with OSError | FileNotFoundError | PermissionError | TimeoutError => true | _ => false end.
Definition suppress_os (m : IO unit) : IO unit :=
  try_catch m (λ e, if is_os_error e then ret tt else raise e).

(** ** Triples *)

Section triple.
Context (I : fs → Prop).
Implicit Types (P : fs → Prop) (E : exn → fs → Prop) (e : exn) (w : world).

Definition triple {A} P (m : IO A) (Q : A → fs → Prop) (E : exn → fs → Prop) : Prop := ∀ w,
  P (files w) →
  ∃ w' r, m w = (w', r) ∧ operation_lock w' = operation_lock w ∧
    (∃ new, seen w' = new ++ seen w ∧ Forall I new) ∧
    match r with Ok a => Q a (files w') | Raise e => E e (files w') end.

Lemma triple_ret {A} P (a : A) (Q : A → fs → Prop) E : (∀ f, P f → Q a f) → triple P (ret a) Q E.
Proof. intros H w Hw. exists w, (Ok a). do 2 (split; [done|]). split; [by exists []|by apply H]. Qed.

Lemma triple_raise {A} P e (Q : A → fs → Prop) E : (∀ f, P f → E e f) → triple P (raise e) Q E.
Proof. intros H w Hw. exists w, (Raise e). do 2 (split; [done|]). split; [by exists []|by apply H]. Qed.

Lemma triple_lift {A} P (r : result exn A) (Q : A → fs → Prop) E :
  (∀ f, P f → match r with Ok a => Q a f | Raise e => E e f end) → triple P (lift_result r) Q E.
Proof. intros H w Hw. exists w, r. do 2 (split; [done|]). split; [by exists []|]. specialize (H _ Hw). by destruct r. Qed.

Lemma triple_look {A} P (g : fs → A) (Q : A → fs → Prop) E : (∀ f, P f → Q (g f) f) → triple P (look g) Q E.
Proof. intros H w Hw. exists w, (Ok (g (files w))). do 2 (split; [done|]). split; [by exists []|by apply H]. Qed.

Lemma triple_io {A} P (op : fs → fs * result exn A) (Q : A → fs → Prop) E :
  (∀ f, P f → E OSError f) →
  (∀ f f' r, P f → op f = (f', r) → I f' ∧ match r with Ok a => Q a f' | Raise e => E e f' end) →
  triple P (io op) Q E.
Proof.
  intros Hf Hop w Hw. unfold io. destruct (op (files w)) as [f' r] eqn:Ho. apply Hop in Ho as [Hi Hr]; [|done].
  destruct (faults w) as [|[|] fl].
  - exists (mkWorld f' (f' :: seen w) [] (operation_lock w)), r. do 2 (split; [done|]). split; [|done].
    exists [f']. split; [done|]. by constructor.
  - exists (mkWorld (files w) (seen w) fl (operation_lock w)), (Raise OSError). do 2 (split; [done|]).
    split; [by exists []|]. by apply Hf.
  - exists (mkWorld f' (f' :: seen w) fl (operation_lock w)), r. do 2 (split; [done|]). split; [|done].
    exists [f']. split; [done|]. by constructor.
Qed.

Lemma triple_bind {A B} P (m : IO A) (k : A → IO B) (R : A → fs → Prop) Q E :
  triple P m R E → (∀ a, triple (R a) (k a) Q E) → triple P (bind m k) Q E.
Proof.
  intros Hm Hk w Hw. destruct (Hm w Hw) as (w1&r&H1&Hl1&(n1&Hs1&Hi1)&Hr). unfold bind. rewrite H1.
  destruct r as [a|e].
  - destruct (Hk a w1 Hr) as (w2&r2&H2&Hl2&(n2&Hs2&Hi2)&Hr2). exists w2, r2. split; [done|]. split; [congruence|].
    split; [|done]. exists (n2 ++ n1). rewrite Hs2, Hs1, app_assoc. split; [done|]. by apply Forall_app.
  - exists w1, (Raise e). split; [done|]. split; [done|]. split; [by exists n1|done].
Qed.

Lemma triple_catch {A} P (m : IO A) (h : exn → IO A) (Q : A → fs → Prop) E F :
  triple P m Q F → (∀ e, triple (F e) (h e) Q E) → triple P (try_catch m h) Q E.
Proof.
  intros Hm Hh w Hw. destruct (Hm w Hw) as (w1&r&H1&Hl1&(n1&Hs1&Hi1)&Hr). unfold try_catch. rewrite H1.
  destruct r as [a|e].
  - exists w1, (Ok a). split; [done|]. split; [done|]. split; [by exists n1|done].
  - destruct (Hh e w1 Hr) as (w2&r2&H2&Hl2&(n2&Hs2&Hi2)&Hr2). exists w2, r2. split; [done|]. split; [congruence|].
    split; [|done]. exists (n2 ++ n1). rewrite Hs2, Hs1, app_assoc. split; [done|]. by apply Forall_app.
Qed.

(** The outcome before [finally] is known to the condition it runs under. *)
Lemma triple_finally {A} P (m : IO A) (fin : IO unit) (Q R : A → fs → Prop) (E F : exn → fs → Prop) :
  triple P m R F →
  (∀ a, triple (R a) fin (λ _, Q a) E) → (∀ e, triple (F e) fin (λ _, E e) E) →
  triple P (try_finally m fin) Q E.
Proof.
  intros Hm Hr He w Hw. destruct (Hm w Hw) as (w1&r&H1&Hl1&(n1&Hs1&Hi1)&Hr1). unfold try_finally. rewrite H1.
  assert (∃ w2 r2, fin w1 = (w2, r2) ∧ operation_lock w2 = operation_lock w1 ∧
    (∃ new, seen w2 = new ++ seen w1 ∧ Forall I new) ∧
    match r2 with Ok _ => match r with Ok a => Q a (files w2) | Raise e => E e (files w2) end
    | Raise e => E e (files w2) end) as (w2&r2&H2&Hl2&(n2&Hs2&Hi2)&Hr2).
  { destruct r as [a|e]; [destruct (Hr a w1 Hr1) as (w2&r2&?&?&?&?)|destruct (He e w1 Hr1) as (w2&r2&?&?&?&?)];
      by exists w2, r2. }
  rewrite H2. exists w2. destruct r2 as [[]|e2]; eexists; (split; [done|]); (split; [congruence|]);
    (split; [exists (n2 ++ n1); rewrite Hs2, Hs1, app_assoc; split; [done|by apply Forall_app]|done]).
Qed.

Lemma triple_weaken {A} P P' (m : IO A) (Q Q' : A → fs → Prop) (E E' : exn → fs → Prop) :
  triple P' m Q' E' → (∀ f, P f → P' f) → (∀ a f, Q' a f → Q a f) → (∀ e f, E' e f → E e f) → triple P m Q E.
Proof.
  intros Hm HP HQ HE w Hw. destruct (Hm w (HP _ Hw)) as (w'&r&H1&H2&H3&H4). exists w', r.
  do 3 (split; [done|]). destruct r; auto.
Qed.

(** A condition that does not depend on the files may be assumed. *)
Lemma triple_pure {A} P (φ : Prop) (m : IO A) Q E : (∀ f, P f → φ) → (φ → triple P m Q E) → triple P m Q E.
Proof. intros Hφ Hm w Hw. exact (Hm (Hφ _ Hw) w Hw). Qed.

(** *** Keeping a condition *)

(** [m] keeps [P], through every state, whatever fails. *)
Definition keeps {A} P (m : IO A) : Prop := triple P m (λ _, P) (λ _, P).

Lemma keeps_bind {A B} P (m : IO A) (k : A → IO B) : keeps P m → (∀ a, keeps P (k a)) → keeps P (bind m k).
Proof. intros Hm Hk. by eapply triple_bind. Qed.
Lemma keeps_ret {A} P (a : A) : keeps P (ret a).
Proof. by apply triple_ret. Qed.
Lemma keeps_raise {A} P e : keeps P (@raise world exn A e).
Proof. by apply triple_raise. Qed.
Lemma keeps_look {A} P (g : fs → A) : keeps P (look g).
Proof. by apply triple_look. Qed.
Lemma keeps_lift {A} P (r : result exn A) : keeps P (lift_result r).
Proof. apply triple_lift. by destruct r. Qed.
Lemma keeps_catch {A} P (m : IO A) (h : exn → IO A) : keeps P m → (∀ e, keeps P (h e)) → keeps P (try_catch m h).
Proof. intros Hm Hh. by eapply triple_catch. Qed.
Lemma keeps_finally {A} P (m : IO A) (fin : IO unit) : keeps P m → keeps P fin → keeps P (try_finally m fin).
Proof. intros Hm Hf. by eapply triple_finally. Qed.
Lemma keeps_io {A} P (op : fs → fs * result exn A) :
  (∀ f, P f → I (op f).1 ∧ P (op f).1) → keeps P (io op).
Proof.
  intros H. apply triple_io; [done|]. intros f f' r Hf E. specialize (H f Hf). rewrite E in H. destruct H. by destruct r.
Qed.
Lemma keeps_suppress P (m : IO unit) : keeps P m → keeps P (suppress_os m).
Proof. intros Hm. apply keeps_catch; [done|]. intros e. destruct (is_os_error e); [apply keeps_ret|apply keeps_raise]. Qed.
End triple.

(** * Frames and clean runs

    Three ways to reason about a run over the file system of [FileSystem]:
    [writes] says which paths a program may change, in any state it passes and
    whatever fails; [triple_and] and [triple_frame] combine that with a triple;
    [yields] evaluates a run in which no call fails. *)

(** ** Agreement outside some paths *)

Definition agree (W : path → Prop) (f f' : fs) : Prop := ∀ p, ¬ W p → f' !! p = f !! p.

#[global] Instance agree_preorder W : PreOrder (agree W).
Proof. split; [done|]. intros f g k H1 H2 p Hp. by rewrite H2, H1. Qed.

Lemma agree_weaken (W W' : path → Prop) f f' : (∀ p, W p → W' p) → agree W f f' → agree W' f f'.
Proof. intros H Ha p Hp. apply Ha. auto. Qed.
Lemma agree_insert (W : path → Prop) p n (f : fs) : W p → agree W f (<[p := n]> f).
Proof. intros H q Hq. rewrite lookup_insert_ne; [done|]. by intros <-. Qed.
Lemma agree_delete (W : path → Prop) p (f : fs) : W p → agree W f (delete p f).
Proof. intros H q Hq. rewrite lookup_delete_ne; [done|]. by intros <-. Qed.
Lemma agree_mkdir (W : path → Prop) p (f : fs) : W p → agree W f (mkdir_one p f).1.
Proof. intros H. unfold mkdir_one. destruct (f !! p) as [[| |[[]|]]|]; try done. by apply agree_insert. Qed.

(** ** What a program may change *)

Section writes.
Context (W : path → Prop).

Definition writes {A} (m : IO A) : Prop := ∀ f0, keeps (agree W f0) (agree W f0) m.

Lemma writes_io {A} (op : fs → fs * result exn A) : (∀ f, agree W f (op f).1) → writes (io op).
Proof. intros H f0. apply keeps_io. intros f Hf. split; (transitivity f; [exact Hf|apply H]). Qed.
Lemma writes_ret {A} (a : A) : writes (ret a).
Proof. intros f0. apply keeps_ret. Qed.
Lemma writes_raise {A} e : writes (@raise world exn A e).
Proof. intros f0. apply keeps_raise. Qed.
Lemma writes_look {A} (g : fs → A) : writes (look g).
Proof. intros f0. apply keeps_look. Qed.
Lemma writes_lift {A} (r : result exn A) : writes (lift_result r).
Proof. intros f0. apply keeps_lift. Qed.
Lemma writes_bind {A B} (m : IO A) (k : A → IO B) : writes m → (∀ a, writes (k a)) → writes (bind m k).
Proof. intros Hm Hk f0. apply keeps_bind; [apply Hm|intros a; apply Hk]. Qed.
Lemma writes_catch {A} (m : IO A) (k : exn → IO A) : writes m → (∀ e, writes (k e)) → writes (try_catch m k).
Proof. intros Hm Hk f0. apply keeps_catch; [apply Hm|intros a; apply Hk]. Qed.
Lemma writes_finally {A} (m : IO A) (fin : IO unit) : writes m → writes fin → writes (try_finally m fin).
Proof. intros Hm Hk f0. apply keeps_finally; [apply Hm|apply Hk]. Qed.
Lemma writes_suppress (m : IO unit) : writes m → writes (suppress_os m).
Proof. intros Hm f0. apply keeps_suppress, Hm. Qed.

Lemma writes_touch : writes touch_nothing.
Proof. by apply writes_io. Qed.
Lemma writes_put p c : W p → writes (put_file p c).
Proof. intros H. apply writes_io. intros f. by apply agree_insert. Qed.
Lemma writes_open p : W p → writes (open_new p).
Proof. intros H. apply writes_io. intros f. destruct (f !! p); [done|by apply agree_insert]. Qed.
Lemma writes_unlink b p : W p → writes (unlink b p).
Proof. intros H. apply writes_io. intros f. destruct (f !! p) as [[]|]; simpl; try done; by apply agree_delete. Qed.
Lemma writes_replace p q : W p → W q → writes (replace_file p q).
Proof.
  intros Hp Hq. apply writes_io. intros f. destruct (f !! p); [|done].
  destruct (f !! q) as [[]|]; simpl; try done; (transitivity (delete p f : fs); [by apply agree_delete|by apply agree_insert]).
Qed.
Lemma writes_mkdir p : W p → writes (mkdir p).
Proof. intros H. apply writes_io. intros f. by apply agree_mkdir. Qed.
Lemma writes_mkdir_new p : W p → writes (mkdir_new p).
Proof. intros H. apply writes_io. intros f. destruct (f !! p); [done|by apply agree_insert]. Qed.
End writes.

Lemma writes_weaken {A} (W W' : path → Prop) (m : IO A) : (∀ p, W p → W' p) → writes W m → writes W' m.
Proof.
  intros H Hm f0 w Hw. destruct (Hm (files w) w) as (w'&r&H1&H2&(new&H3&H4)&H5); [done|].
  assert (∀ f, agree W (files w) f → agree W' f0 f) as Hf.
  { intros f Hf. transitivity (files w); [exact Hw|]. by eapply agree_weaken. }
  exists w', r. do 2 (split; [done|]). split.
  - exists new. split; [done|]. eapply Forall_impl; [exact H4|]. exact Hf.
  - destruct r; by apply Hf.
Qed.

Create HintDb writes.
#[export] Hint Resolve writes_ret writes_raise writes_look writes_lift writes_bind writes_catch writes_finally
  writes_suppress writes_touch writes_put writes_open writes_unlink writes_replace writes_mkdir writes_mkdir_new : writes.

(** One step through a program; the side conditions are left to [tac]. *)
Ltac writes_step tac :=
  first [ solve [tac] | apply writes_ret | apply writes_raise | apply writes_look | apply writes_lift | apply writes_touch
    | apply writes_put | apply writes_open | apply writes_unlink | apply writes_replace | apply writes_mkdir
    | apply writes_mkdir_new | apply writes_suppress | apply writes_bind; [|intros ?] | apply writes_catch; [|intros ?]
    | apply writes_finally | match goal with |- writes _ (if ?b then _ else _) => destruct b end
    | match goal with |- writes _ (match ?x with _ => _ end) => destruct x end ].
Ltac writes_tac tac := repeat writes_step tac.

(** ** Combining *)

Lemma triple_inv {A} (I I' : fs → Prop) P (m : IO A) Q E : (∀ f, I f → I' f) → triple I P m Q E → triple I' P m Q E.
Proof.
  intros H Hm w Hw. destruct (Hm w Hw) as (w'&r&H1&H2&(new&H3&H4)&H5). exists w', r. do 2 (split; [done|]).
  split; [|done]. exists new. split; [done|]. by eapply Forall_impl.
Qed.

Lemma triple_and {A} (I1 I2 P1 P2 : fs → Prop) (m : IO A) Q1 Q2 E1 E2 :
  triple I1 P1 m Q1 E1 → triple I2 P2 m Q2 E2 →
  triple (λ f, I1 f ∧ I2 f) (λ f, P1 f ∧ P2 f) m (λ a f, Q1 a f ∧ Q2 a f) (λ e f, E1 e f ∧ E2 e f).
Proof.
  intros H1 H2 w [Hw1 Hw2]. destruct (H1 w Hw1) as (w1&r1&Hm1&Hl1&(n1&Hs1&Hi1)&Hr1).
  destruct (H2 w Hw2) as (w2&r2&Hm2&Hl2&(n2&Hs2&Hi2)&Hr2). rewrite Hm1 in Hm2. injection Hm2 as <- <-.
  rewrite Hs1 in Hs2. apply app_inv_tail in Hs2 as <-. exists w1, r1. do 2 (split; [done|]). split.
  - exists n1. split; [done|]. apply Forall_and. by split.
  - by destruct r1.
Qed.

(** A condition that only depends on paths [m] does not change is kept. *)
Lemma writes_keeps {A} W (m : IO A) (F : fs → Prop) :
  writes W m → (∀ f f', F f → agree W f f' → F f') → keeps F F m.
Proof.
  intros Hm HF w Hw. destruct (Hm (files w) w) as (w'&r&H1&H2&(new&H3&H4)&H5); [done|].
  exists w', r. do 2 (split; [done|]). split.
  - exists new. split; [done|]. eapply Forall_impl; [exact H4|]. intros f. by apply HF.
  - destruct r; by eapply HF.
Qed.

Lemma triple_frame {A} W (m : IO A) (I P F : fs → Prop) Q E :
  writes W m → (∀ f f', F f → agree W f f' → F f') → triple I P m Q E →
  triple (λ f, I f ∧ F f) (λ f, P f ∧ F f) m (λ a f, Q a f ∧ F f) (λ e f, E e f ∧ F f).
Proof. intros Hm HF Ht. apply triple_and; [done|]. by eapply writes_keeps. Qed.

(** Without a postcondition of its own. *)
Lemma triple_true {A} (m : IO A) W : writes W m → triple (λ _, True) (λ _, True) m (λ _ _, True) (λ _ _, True).
Proof.
  intros Hm w _. destruct (Hm (files w) w) as (w'&r&H1&H2&(new&H3&H4)&H5); [done|].
  exists w', r. do 2 (split; [done|]). split; [|by destruct r]. exists new. split; [done|]. by apply Forall_true.
Qed.

Lemma triple_pre {A} I P (φ : Prop) (m : IO A) Q E : (φ → triple I P m Q E) → triple I (λ f, P f ∧ φ) m Q E.
Proof. intros H w [Hw Hφ]. by apply H. Qed.
Lemma triple_ex {A B} I (P : B → fs → Prop) (m : IO A) Q E : (∀ b, triple I (P b) m Q E) → triple I (λ f, ∃ b, P b f) m Q E.
Proof. intros H w [b Hb]. by apply (H b). Qed.

(** Weakening one side. *)
Lemma triple_from {A} I P P' (m : IO A) Q E : (∀ f, P f → P' f) → triple I P' m Q E → triple I P m Q E.
Proof. intros H Hm. by eapply triple_weaken. Qed.
Lemma triple_to {A} I P (m : IO A) Q Q' E : triple I P m Q' E → (∀ a f, Q' a f → Q a f) → triple I P m Q E.
Proof. intros Hm H. by eapply triple_weaken. Qed.
(** The value is not used, or a program keeps what is known. *)
Lemma triple_seq {A B} I P R (m : IO A) (k : IO B) Q E :
  triple I P m (λ _, R) E → triple I R k Q E → triple I P (m ;; k) Q E.
Proof. intros Hm Hk. by eapply triple_bind. Qed.
Lemma triple_keep {A} I P (m : IO A) (E : exn → fs → Prop) : keeps I P m → (∀ e f, P f → E e f) → triple I P m (λ _, P) E.
Proof. intros Hm HE. by eapply triple_weaken. Qed.

(** ** Runs in which no call fails *)

Definition yields {A} (f : fs) (m : IO A) (a : A) (f' : fs) : Prop := ∀ w,
  files w = f → faults w = [] → ∃ w', m w = (w', Ok a) ∧ files w' = f' ∧ faults w' = [].

Lemma yields_ret {A} f (a : A) : yields f (ret a) a f.
Proof. intros w Hw Hf. by exists w. Qed.
Lemma yields_look {A} f (g : fs → A) : yields f (look g) (g f) f.
Proof. intros w <- Hf. by exists w. Qed.
Lemma yields_lift {A} f (a : A) : yields f (lift_result (Ok a)) a f.
Proof. intros w Hw Hf. by exists w. Qed.
Lemma yields_io {A} f (op : fs → fs * result exn A) a f' : op f = (f', Ok a) → yields f (io op) a f'.
Proof. intros H w <- Hf. unfold io. rewrite Hf, H. by eexists. Qed.
Lemma yields_bind {A B} f (m : IO A) (k : A → IO B) a f1 b f2 :
  yields f m a f1 → yields f1 (k a) b f2 → yields f (bind m k) b f2.
Proof.
  intros Hm Hk w Hw Hf. destruct (Hm w Hw Hf) as (w1&H1&Hw1&Hf1). destruct (Hk w1 Hw1 Hf1) as (w2&H2&Hw2&Hf2).
  exists w2. unfold bind. by rewrite H1.
Qed.
Lemma yields_catch {A} f (m : IO A) k a f1 : yields f m a f1 → yields f (try_catch m k) a f1.
Proof. intros Hm w Hw Hf. destruct (Hm w Hw Hf) as (w1&H1&Hw1&Hf1). exists w1. unfold try_catch. by rewrite H1. Qed.
Lemma yields_finally {A} f (m : IO A) fin a f1 f2 :
  yields f m a f1 → yields f1 fin tt f2 → yields f (try_finally m fin) a f2.
Proof.
  intros Hm Hk w Hw Hf. destruct (Hm w Hw Hf) as (w1&H1&Hw1&Hf1). destruct (Hk w1 Hw1 Hf1) as (w2&H2&Hw2&Hf2).
  exists w2. unfold try_finally. by rewrite H1, H2.
Qed.

Lemma yields_touch f : yields f touch_nothing tt f.
Proof. by apply yields_io. Qed.
Lemma yields_put (f : fs) p c : yields f (put_file p c) tt (<[p := File c]> f).
Proof. by apply yields_io. Qed.
Lemma yields_open (f : fs) p : f !! p = None → yields f (open_new p) tt (<[p := File Partial]> f).
Proof. intros H. apply yields_io. by rewrite H. Qed.
Lemma yields_replace (f : fs) p q c : f !! p = Some (File c) → f !! q ≠ Some Dir →
  yields f (replace_file p q) tt (<[q := File c]> (delete p f)).
Proof. intros Hp Hq. apply yields_io. rewrite Hp. by destruct (f !! q) as [[]|]. Qed.
Lemma yields_mkdir_new (f : fs) p : f !! p = None → yields f (mkdir_new p) tt (<[p := Dir]> f).
Proof. intros H. apply yields_io. by rewrite H. Qed.
Lemma yields_unlink_missing (f : fs) p : f !! p ≠ Some Dir → yields f (unlink true p) tt (delete p f).
Proof.
  intros H. apply yields_io. destruct (f !! p) as [[]|] eqn:E; try done. by rewrite delete_id.
Qed.
Lemma yields_unlink (f : fs) p c : f !! p = Some (File c) → yields f (unlink false p) tt (delete p f).
Proof. intros H. apply yields_io. by rewrite H. Qed.

(** [m] returns from every state of [P], if no call fails, in one of [Q]. *)
Definition total {A} (P : fs → Prop) (m : IO A) (Q : A → fs → Prop) : Prop := ∀ f, P f → ∃ a f', yields f m a f' ∧ Q a f'.

Lemma total_ret {A} P (a : A) (Q : A → fs → Prop) : (∀ f, P f → Q a f) → total P (ret a) Q.
Proof. intros H f Hf. exists a, f. split; [apply yields_ret|auto]. Qed.
Lemma total_look {A} P (g : fs → A) (Q : A → fs → Prop) : (∀ f, P f → Q (g f) f) → total P (look g) Q.
Proof. intros H f Hf. exists (g f), f. split; [apply yields_look|auto]. Qed.
Lemma total_lift {A} P (a : A) (Q : A → fs → Prop) : (∀ f, P f → Q a f) → total P (lift_result (Ok a)) Q.
Proof. intros H f Hf. exists a, f. split; [apply yields_lift|auto]. Qed.
Lemma total_io {A} P (op : fs → fs * result exn A) (Q : A → fs → Prop) :
  (∀ f, P f → ∃ a f', op f = (f', Ok a) ∧ Q a f') → total P (io op) Q.
Proof. intros H f Hf. destruct (H f Hf) as (a&f'&E&HQ). exists a, f'. split; [by apply yields_io|done]. Qed.
Lemma total_bind {A B} P (m : IO A) (k : A → IO B) R Q : total P m R → (∀ a, total (R a) (k a) Q) → total P (bind m k) Q.
Proof.
  intros Hm Hk f Hf. destruct (Hm f Hf) as (a&f1&H1&HR). destruct (Hk a f1 HR) as (b&f2&H2&HQ).
  exists b, f2. split; [by eapply yields_bind|done].
Qed.
Lemma total_seq {A B} P R (m : IO A) (k : IO B) Q : total P m (λ _, R) → total R k Q → total P (m ;; k) Q.
Proof. intros Hm Hk. by eapply total_bind. Qed.
Lemma total_catch {A} P (m : IO A) k Q : total P m Q → total P (try_catch m k) Q.
Proof. intros Hm f Hf. destruct (Hm f Hf) as (a&f1&H1&HR). exists a, f1. split; [by apply yields_catch|done]. Qed.
Lemma total_finally {A} P (m : IO A) (fin : IO unit) R Q :
  total P m R → (∀ a, total (R a) fin (λ _, Q a)) → total P (try_finally m fin) Q.
Proof.
  intros Hm Hk f Hf. destruct (Hm f Hf) as (a&f1&H1&HR). destruct (Hk a f1 HR) as ([]&f2&H2&HQ).
  exists a, f2. split; [by eapply yields_finally|done].
Qed.
Lemma total_from {A} P P' (m : IO A) Q : (∀ f, P f → P' f) → total P' m Q → total P m Q.
Proof. intros H Hm f Hf. by apply Hm, H. Qed.
Lemma total_to {A} P (m : IO A) Q Q' : total P m Q' → (∀ a f, Q' a f → Q a f) → total P m Q.
Proof. intros Hm H f Hf. destruct (Hm f Hf) as (a&f'&?&?). exists a, f'. auto. Qed.
Lemma total_pre {A} P (φ : Prop) (m : IO A) Q : (φ → total P m Q) → total (λ f, P f ∧ φ) m Q.
Proof. intros H f [Hf Hφ]. by apply H. Qed.
Lemma total_pure {A} P (φ : Prop) (m : IO A) Q : (∀ f, P f → φ) → (φ → total P m Q) → total P m Q.
Proof. intros Hφ H f Hf. by apply H; [eapply Hφ|]. Qed.

(** What a triple says of a run also holds of one in which no call fails. *)
Lemma total_triple {A} I P (m : IO A) R Q E : total P m R → triple I P m Q E → total P m (λ a f, R a f ∧ Q a f).
Proof.
  intros Hm Ht f Hf. destruct (Hm f Hf) as (a&f'&Hy&HR). exists a, f'. split; [done|]. split; [done|].
  destruct (Hy (mkWorld f [] [] false)) as (w'&E1&<-&_); [done..|].
  destruct (Ht (mkWorld f [] [] false) Hf) as (w2&r&E2&_&_&Hr). rewrite E1 in E2. by injection E2 as <- <-.
Qed.
Lemma total_keep {A} I P (m : IO A) Q E : total P m (λ _ _, True) → triple I P m Q E → total P m Q.
Proof. intros Hm Ht. eapply total_to; [by eapply total_triple|]. by intros a f [_ ?]. Qed.

Lemma total_run {A} P (m : IO A) Q w : total P m Q → P (files w) → faults w = [] →
  ∃ w' a, m w = (w', Ok a) ∧ Q a (files w').
Proof.
  intros Hm Hw Hf. destruct (Hm _ Hw) as (a&f'&Hy&HQ). destruct (Hy w) as (w'&E&<-&_); [done..|]. by exists w', a.
Qed.
