(* ===== verification/Backups.v ===== *)
(** * The backup catalog

    [persistence/backup.py] and [persistence/backup_catalog.py]: an online
    snapshot is staged, checked, renamed, inspected and only then published by
    its manifest; a snapshot is verified against its manifest before it is
    staged for a restore.  SQLite is outside: [open_db] says what a database
    file holds ([None] when SQLite raises), and what the online copy produced is
    an argument of the run.  [scan] is the order in which the system lists a
    directory. *)

From S2P Require Import Prelude PyStr PyText Sha256 Domain DateTime PyNum PyRepr Sql Store Transactions Port FileSystem.
Local Open Scope Z_scope.
Local Open Scope prog_scope.

(** What SQLite reads in a database file: the first row of each check, and,
    unless a table is missing, the schema version, the project ids in order and
    the numbers of memories and embeddings. *)
Record image := mkImage {
  img_quick : option string;
  img_integrity : option string;
  img_fk_violation : bool;
  img_rows : option (Z * list string * Z * Z);
}.

Abbreviation dict := (list (string * json)).
Definition LINE : string := of_chars [NEWLINE].

Definition catalog_error {A} : IO A := raise BackupCatalogError.

(** What one call of [create] finds outside the files: the size of the live
    database, the free space, the bytes the online copy produced, the clock and
    the random bytes of the id. *)
Record snapshot_env := mkEnv {
  db_size : result exn Z;
  disk_free : Z;
  copied : result exn string;
  stamp : Z;
  token : string;
  created : Z;
}.

(** [backup_catalog.py:40-48 BackupCatalog.__init__] *)
Record catalog := mkCatalog { root : path; root_absolute : bool; require_existing_root : bool; db_path : path }.

(** [backup_catalog.py:26-26 _MIN_FREE_MARGIN] *)
Definition MIN_FREE_MARGIN : Z := 1024 * 1024.

Section catalog.
Context (open_db : string → option image) (scan : fs → path → list string) (cat : catalog).

(** ** Staging and publication of one file *)

(** [persistence/backup.py:41-60 _validate_staged] *)
Definition validate_staged (tmp : path) : IO unit :=
  let* f := look (λ f, f) in
  match f !! tmp with
  | Some (File (Bytes s)) =>
      match open_db s with
      | Some img => if bool_decide (img_quick img = Some "ok"%string) then ret tt else raise BackupValidationError
      | None => raise BackupValidationError
      end
  | _ => raise BackupValidationError
  end.

(** [persistence/backup.py:63-116 backup_from_connection] *)
Definition backup_from_connection (copied : result exn string) (dest : path) : IO unit :=
  mkdirs (parent dest) ;;
  let tmp := suffixed dest ".tmp" in
  let* stale := look (λ f, exists_ f tmp) in
  (if (stale : bool) then unlink false tmp else ret tt) ;;
  try_catch
    (put_file tmp Partial ;;
     let* bytes := lift_result copied in
     put_file tmp (Bytes bytes) ;;
     try_catch (validate_staged tmp)
       (λ e,
         (if bool_decide (e = BackupValidationError)
          then suppress_os (replace_file tmp (suffixed dest ".failed-quick-check")) else ret tt) ;;
         raise e) ;;
     replace_file tmp dest)
    (λ e,
      let* left_over := look (λ f, exists_ f tmp) in
      (if (left_over : bool) then suppress_os (unlink false tmp) else ret tt) ;;
      raise e) ;;
  touch_nothing.

(** ** Identities *)

Definition KINDS : list string := ["auto"; "manual"]%string.
Definition is_hex_digit (c : ascii) : bool := is_digit c || bool_decide (c ∈ chars "abcdef").
(** [backup_catalog.py:25-25 _ID_RE] The part after the kind. *)
Definition id_name (l : list ascii) : bool :=
  (length l =? 35)%nat && forallb is_digit (take 8 l) && bool_decide (l !! 8%nat = Some "T"%char)
  && forallb is_digit (take 12 (drop 9 l)) && bool_decide (l !! 21%nat = Some "Z"%char)
  && bool_decide (l !! 22%nat = Some "-"%char) && forallb is_hex_digit (drop 23 l).
#[global] Arguments id_name : simpl never.
(** [backup_catalog.py:59-64 BackupCatalog._split_id] *)
Definition split_id (artifact_id : string) : result exn (string * string) :=
  let try kind := l ← eat (chars (kind +:+ ":")) (chars artifact_id); if id_name l then Some (kind, of_chars l) else None in
  match try "auto"%string, try "manual"%string with
  | Some r, _ | None, Some r => Ok r
  | None, None => Raise BackupCatalogError
  end.
(** [backup_catalog.py:66-70 BackupCatalog._paths] *)
Definition db_file (kind nm : string) : path := root cat ++ [kind; "openchronicle-" +:+ nm +:+ ".db"]%string.
Definition manifest_file (kind nm : string) : path := with_suffix (db_file kind nm) ".json".
Definition paths (artifact_id : string) : result exn (path * path) :=
  let? (kind, nm) := split_id artifact_id in Ok (db_file kind nm, manifest_file kind nm).

(** [backup_catalog.py:72-78 BackupCatalog._sha256] A digest of bytes: each
    character is one byte. *)
Definition sha256_hex (s : string) : string := hex (sha256 (map code (chars s))).

(** [backup_catalog.py:90-124 BackupCatalog._inspect] What it computes. *)
Definition inspection (f : fs) (p : path) : result exn dict :=
  match f !! p with
  | Some (File c) =>
      if exists_ f (suffixed p "-wal") || exists_ f (suffixed p "-shm") then Raise BackupCatalogError
      else match c with
      | Bytes s =>
          match open_db s with
          | None => Raise BackupCatalogError
          | Some img =>
              if negb (bool_decide (img_integrity img = Some "ok"%string)) || img_fk_violation img
              then Raise BackupCatalogError
              else match img_rows img with
              | None => Raise BackupCatalogError
              | Some (schema, ids, memories, embeddings) =>
                  Ok [("schema_version", JInt schema); ("project_count", JInt (Z.of_nat (length ids)));
                    ("project_identity_sha256", JStr (hash_content (py_join LINE ids))); ("memory_count", JInt memories);
                    ("embedding_count", JInt embeddings); ("size_bytes", JInt (str_len s)); ("sha256", JStr (sha256_hex s))]%string
              end
          end
      | _ => Raise BackupCatalogError
      end
  | _ => Raise BackupCatalogError
  end.
(** Its last two entries read the file again. *)
Definition inspect (p : path) : IO dict :=
  let* f := look (λ f, f) in
  let* r := lift_result (inspection f p) in
  touch_nothing ;; ret r.

Definition fsync : IO unit := touch_nothing.
(** [backup_catalog.py:126-138 BackupCatalog._publish_manifest] *)
Definition publish_manifest (p : path) (payload : dict) : IO unit :=
  let temp := with_suffix p ".json.tmp" in
  try_finally
    (open_new temp ;;
     put_file temp (Doc (JObj (sort_by key_leb payload))) ;;
     fsync ;;
     replace_file temp p ;;
     fsync)
    (unlink true temp).

(** ** Creation *)

(** [backup_catalog.py:50-57 BackupCatalog._check_root] *)
Definition check_root : IO unit :=
  let* bad := look (λ f, require_existing_root cat &&
    (negb (root_absolute cat) || is_symlink f (root cat) || negb (is_dir f (root cat)))) in
  if (bad : bool) then catalog_error else ret tt.

(** [strftime("%Y%m%dT%H%M%S%fZ")] *)
Definition stamp_text (t : Z) : string :=
  let '(y, m, d) := date_of (t / DAY) in
  let u := t mod DAY in
  of_chars (four y ++ two m ++ two d ++ ["T"%char] ++ two (u / HOUR) ++ two (u / MINUTE mod 60)
    ++ two (u / SECOND mod 60) ++ six (u mod SECOND) ++ ["Z"%char]).
Definition new_name (e : snapshot_env) : string := stamp_text (stamp e) +:+ "-" +:+ token e.

(** [backup_catalog.py:148-189 BackupCatalog.create] Under the lock. *)
Definition create_locked (kind : string) (e : snapshot_env) : IO dict :=
  check_root ;;
  let directory := root cat ++ [kind] in
  mkdirs directory ;;
  let* linked := look (λ f, is_symlink f directory) in
  if (linked : bool) then catalog_error
  else
    touch_nothing ;;
    let* size := lift_result (db_size e) in
    let expected_bytes := Z.max size MIN_FREE_MARGIN in
    touch_nothing ;;
    if disk_free e <? expected_bytes + MIN_FREE_MARGIN then catalog_error
    else
      let nm := new_name e in
      let db := db_file kind nm in
      backup_from_connection (copied e) db ;;
      fsync ;; fsync ;;
      let* inspected := try_catch (inspect db)
        (λ x,
          (if bool_decide (x = BackupCatalogError)
           then replace_file db (suffixed db ".failed-verify") ;; fsync else ret tt) ;;
          raise x) in
      let metadata := [("artifact_id", JStr (kind +:+ ":" +:+ nm)); ("created_at", JStr (isoformat (utc (created e))))]%string
        ++ inspected in
      try_catch (publish_manifest (manifest_file kind nm) metadata) (λ x, unlink true db ;; raise x) ;;
      ret metadata.

Definition set_lock (b : bool) (w : world) : world := mkWorld (files w) (seen w) (faults w) b.
(** [if not lock.acquire(...): raise] and the [finally] that releases it; a
    scheduled snapshot waits first, so for it the lock is taken only when it was
    still held after the wait. *)
Definition under_lock {A} (m : IO A) : IO A :=
  let* held := gets operation_lock in
  if (held : bool) then catalog_error
  else modify (set_lock true) ;; try_finally m (modify (set_lock false)).

(** [backup_catalog.py:140-189 BackupCatalog.create] *)
Definition create (kind : string) (e : snapshot_env) : IO dict := under_lock (create_locked kind e).

(** ** Reading the catalog *)

(** [backup_catalog.py:191-201 BackupCatalog._manifest] *)
Definition manifest (f : fs) (artifact_id : string) : result exn dict :=
  let? (db, mf) := paths artifact_id in
  if is_symlink f db || is_symlink f mf || negb (is_file f db) || negb (is_file f mf) then Raise BackupCatalogError
  else match f !! mf with
  | Some (File (Doc (JObj data))) =>
      match jget "artifact_id" data with
      | Some (JStr s) => if bool_decide (s = artifact_id) then Ok data else Raise BackupCatalogError
      | _ => Raise BackupCatalogError
      end
  | _ => Raise BackupCatalogError
  end.

Definition created_text (item : dict) : string := default ""%string (py_str <$> jget "created_at" item).
Definition newer_leb (a b : dict) : bool := str_leb (created_text b) (created_text a).
Definition is_manifest_name (n : string) : bool :=
  starts_with "openchronicle-" n && ends_with ".json" n && (19 <=? String.length n)%nat.
Definition ok_b {A} (r : result exn A) : bool := match r with Ok _ => true | Raise _ => false end.
Definition catalog_of_kind (f : fs) (kind : string) : list dict :=
  let directory := root cat ++ [kind] in
  if negb (is_dir f directory) || is_symlink f directory then []
  else omap (λ n, match manifest f (kind +:+ ":" +:+ removeprefix "openchronicle-" (py_stem n))%string with
    | Ok d => Some d | Raise _ => None end) (filter (λ n, is_manifest_name n = true) (scan f directory)).
(** [backup_catalog.py:203-219 BackupCatalog.list] *)
Definition list_artifacts (limit : Z) : IO (list dict) :=
  if negb ((1 <=? limit) && (limit <=? 500)) then catalog_error
  else
    let* f := look (λ f, f) in
    ret (take (Z.to_nat limit) (sort_by newer_leb (concat (map (catalog_of_kind f) KINDS)))).

(** [v != w] of what a manifest holds and what [inspection] returns. *)
Definition same_value (expected : option json) (actual : json) : bool :=
  match expected, actual with
  | Some v, JInt n => eq_int v n
  | Some (JStr a), JStr b => bool_decide (a = b)
  | _, _ => false
  end.
Definition matches (expected actual : dict) : bool := forallb (λ kv, same_value (jget kv.1 expected) kv.2) actual.
(** [{**d, k: v}] *)
Fixpoint dict_set (k : string) (v : json) (d : dict) : dict :=
  match d with
  | [] => [(k, v)]
  | (k', v') :: d' => if bool_decide (k' = k) then (k, v) :: d' else (k', v') :: dict_set k v d'
  end.
(** [backup_catalog.py:221-228 BackupCatalog.verify] *)
Definition verify (artifact_id : string) : IO dict :=
  let* f := look (λ f, f) in
  let* expected := lift_result (manifest f artifact_id) in
  let* (db, _) := lift_result (paths artifact_id) in
  let* actual := inspect db in
  if negb (matches expected actual) then catalog_error
  else ret (dict_set "verified" (JBool true) expected).

(** ** Restoring *)

Record identity := mkIdentity { schema_now : Z; ids_now : list string; identity_sha : string; memories_now : Z }.
(** [backup_catalog.py:230-238 BackupCatalog._current_identity] *)
Definition current_identity {S : Type} `{HF : FTS5} `{!MemoryStorePort S} (schema_version : Z) : SE S exn identity :=
  let* ps := st_list_projects None in
  let project_ids := sort_by str_leb (map project_key ps) in
  let* n := st_count_memory None in
  ret (mkIdentity schema_version project_ids (hash_content (py_join LINE project_ids)) n).

(** [backup_catalog.py:240-243 BackupCatalog._artifact_project_ids] *)
Definition artifact_project_ids (f : fs) (artifact_id : string) : result exn (gset string) :=
  let? (db, _) := paths artifact_id in
  match f !! db with
  | Some (File (Bytes s)) =>
      match open_db s with
      | Some img => match img_rows img with
        | Some (_, ids, _, _) => Ok (list_to_set ids)
        | None => Raise (OperationalError "no such table")
        end
      | None => Raise (OperationalError "not a database")
      end
  | _ => Raise (OperationalError "unable to open database file")
  end.

Inductive stop_reason := newer_schema | other_instance.
#[global] Instance stop_reason_eq_dec : EqDecision stop_reason.
Proof. solve_decision. Defined.
Record comparison := mkComparison {
  stop_reasons : list stop_reason;
  memory_delta : Z;
  projects_only_in_snapshot : Z;
  projects_only_in_current : Z;
}.
Definition int_entry (k : string) (d : dict) : result exn Z :=
  match jget k d with Some v => int_of_json v | None => Raise KeyError end.
(** [backup_catalog.py:245-266 BackupCatalog._comparison] *)
Definition compare_with (candidate : dict) (candidate_ids : gset string) (current : identity) : result exn comparison :=
  let current_ids : gset string := list_to_set (ids_now current) in
  let? schema := int_entry "schema_version" candidate in
  let? memories := int_entry "memory_count" candidate in
  Ok (mkComparison
    ((if schema_now current <? schema then [newer_schema] else [])
     ++ (if negb (bool_decide (candidate_ids = ∅)) && negb (bool_decide (current_ids = ∅))
            && bool_decide (candidate_ids ∩ current_ids = ∅) then [other_instance] else []))
    (memories - memories_now current) (Z.of_nat (size (candidate_ids ∖ current_ids)))
    (Z.of_nat (size (current_ids ∖ candidate_ids)))).

(** [backup_catalog.py:268-284 BackupCatalog.restore_plan] *)
Definition restore_plan (current : identity) (artifact_id : string) : IO (dict * comparison) :=
  let* candidate := verify artifact_id in
  let* f := look (λ f, f) in
  let* ids := lift_result (artifact_project_ids f artifact_id) in
  let* c := lift_result (compare_with candidate ids current) in
  ret (candidate, c).

Definition stage_dir : path := parent (db_path cat) ++ [".restore-stage"%string].
(** [backup_catalog.py:306-315 BackupCatalog.restore_stage] A temporary file
    that gets the bytes of the source. *)
Definition copy_to (source temp : path) : IO unit :=
  open_new temp ;;
  try_catch
    (let* f := look (λ f, f) in
     match f !! source with
     | Some (File c) => put_file temp c ;; fsync
     | _ => raise OSError
     end)
    (λ e, unlink true temp ;; raise e).

(** [backup_catalog.py:291-330 BackupCatalog.restore_stage] Under the lock. *)
Definition restore_stage_locked (current : identity) (artifact_id : string) (free : Z) (temp_token stage_id : string)
    : IO (path * dict) :=
  let* candidate := verify artifact_id in
  let* f := look (λ f, f) in
  let* ids := lift_result (artifact_project_ids f artifact_id) in
  let* c := lift_result (compare_with candidate ids current) in
  if negb (bool_decide (stop_reasons c = [])) then catalog_error
  else
    mkdir stage_dir ;;
    let* occupied := look (λ f, is_symlink f stage_dir || existsb (λ n, ends_with ".db" n) (scan f stage_dir)) in
    if (occupied : bool) then catalog_error
    else
      touch_nothing ;;
      let* size := lift_result (int_entry "size_bytes" candidate) in
      if free <? size + MIN_FREE_MARGIN then catalog_error
      else
        let* (source, _) := lift_result (paths artifact_id) in
        let final := stage_dir ++ ["candidate-" +:+ stage_id +:+ ".db"]%string in
        let temp := stage_dir ++ ["candidate-" +:+ temp_token +:+ ".tmp"]%string in
        copy_to source temp ;;
        let* actual := try_finally
          (let* actual := inspect temp in
           if negb (matches candidate actual) then catalog_error
           else replace_file temp final ;; fsync ;; ret actual)
          (unlink true temp) in
        ret (final, actual).
(** [backup_catalog.py:286-332 BackupCatalog.restore_stage] *)
Definition restore_stage (current : identity) (artifact_id : string) (free : Z) (temp_token stage_id : string)
    : IO (path * dict) := under_lock (restore_stage_locked current artifact_id free temp_token stage_id).
End catalog.
