(* ===== verification/BackupProps.v ===== *)
(** * Properties of the backup catalog

    Through every state a run of [create] passes, an artifact the catalog offers
    matches its manifest, whatever calls fail and wherever the process dies; and
    a restore stages only bytes that were verified. *)

From S2P Require Import Prelude PyStr PyText TextProps Sha256 Domain DateTime PyNum PyRepr FileSystem Backups.
Local Open Scope Z_scope.
Local Open Scope prog_scope.

(** ** Names of an artifact's files *)

Lemma splitext_app a e :
  Forall (λ c, is_dot c = false) e → Exists (λ c, is_dot c = false) a → splitext (a ++ "."%char :: e) = (a, "."%char :: e).
Proof.
  intros He Ha. unfold splitext. rewrite rev_app_distr. cbn [rev]. rewrite <- app_assoc. cbn [app].
  rewrite span_chars_app; [|apply Forall_rev; eapply Forall_impl; [exact He|]; intros c Hc; simpl; by rewrite Hc|done].
  assert (forallb is_dot (rev a) = false) as ->.
  { apply not_true_is_false. rewrite forallb_forall. intros H. apply Exists_exists in Ha as (c&Hc&Hd).
    rewrite (H c) in Hd; [done|]. apply in_rev. rewrite rev_involutive. by apply list_elem_of_In. }
  by rewrite !rev_involutive.
Qed.

Lemma str_app_nil_inj a b c : (a +:+ b = a +:+ c)%string → b = c.
Proof. intros E. apply (f_equal chars) in E. rewrite !chars_app in E. apply app_inv_head in E. by apply chars_inj. Qed.

Lemma path_name_app (p : path) n : path_name (p ++ [n]) = n.
Proof. unfold path_name. by rewrite last_snoc. Qed.
Lemma parent_app (p : path) n : parent (p ++ [n]) = p.
Proof. apply removelast_last. Qed.

Section artifact.
Context (open_db : string → option image) (cat : catalog).
Context (kind nm : string).

Definition directory : path := root cat ++ [kind].
Definition art (ext : string) : path := directory ++ ["openchronicle-" +:+ nm +:+ ext]%string.

Lemma art_inj e1 e2 : art e1 = art e2 → e1 = e2.
Proof.
  intros E. apply app_inj_tail in E as [_ E]. apply str_app_nil_inj in E. by apply str_app_nil_inj in E.
Qed.

Lemma db_art : db_file cat kind nm = art ".db".
Proof. unfold db_file, art, directory. by rewrite <- app_assoc. Qed.

Lemma suffixed_art e s : suffixed (art e) s = art (e +:+ s)%string.
Proof.
  unfold suffixed, with_name, art. rewrite parent_app, path_name_app. do 2 f_equal.
  apply chars_inj. by rewrite !chars_app, <- !app_assoc.
Qed.

Lemma with_suffix_art e s :
  Forall (λ c, is_dot c = false) (chars e) → with_suffix (art (String "."%char e)) s = art s.
Proof.
  intros He. unfold with_suffix, with_name, art. rewrite parent_app, path_name_app. do 2 f_equal.
  unfold py_stem. rewrite !chars_app. change (chars (String "." e)) with ("."%char :: chars e). rewrite app_assoc.
  rewrite splitext_app; [|done|by apply Exists_cons_hd]. cbn [fst]. rewrite <- chars_app, of_chars_chars.
  apply chars_inj. by rewrite !chars_app, <- app_assoc.
Qed.

Lemma manifest_art : manifest_file cat kind nm = art ".json".
Proof. unfold manifest_file. rewrite db_art. apply with_suffix_art. repeat constructor. Qed.
Lemma manifest_temp_art : with_suffix (art ".json") ".json.tmp" = art ".json.tmp".
Proof. apply with_suffix_art. repeat constructor. Qed.

(** ** What a run may change *)

Definition extensions : list string :=
  [".db"; ".db.tmp"; ".db.failed-quick-check"; ".db.failed-verify"; ".json"; ".json.tmp"]%string.

(** Every other path is as it was, or a directory that was missing. *)
Definition frame (f0 f : fs) : Prop := ∀ p, (∀ x, x ∈ extensions → p ≠ art x) →
  f !! p = f0 !! p ∨ (f0 !! p = None ∧ f !! p = Some Dir).

Definition artifact_id : string := (kind +:+ ":" +:+ nm)%string.

(** If the catalog offers the artifact, it matches its manifest. *)
Definition sound (f : fs) : Prop := ∀ data, manifest cat f artifact_id = Ok data →
  ∃ actual, inspection open_db f (art ".db") = Ok actual ∧ matches data actual = true.

Context (f0 : fs).
Definition safe (f : fs) : Prop := frame f0 f ∧ sound f.
(** Nothing is published yet. *)
Definition unpublished (f : fs) : Prop := frame f0 f ∧ f !! art ".json" = None.

Context (Hkind : kind ∈ KINDS) (Hname : id_name (chars nm) = true).

Lemma split_artifact_id : split_id artifact_id = Ok (kind, nm).
Proof.
  assert (∀ k, eat (chars (k +:+ ":")) (chars (k +:+ ":" +:+ nm)) = Some (chars nm)) as He.
  { intros k. apply eat_spec. by rewrite !chars_app, <- app_assoc. }
  unfold artifact_id, split_id. unfold KINDS in Hkind. rewrite !elem_of_cons in Hkind.
  destruct Hkind as [->|[->|H%elem_of_nil]]; [| |done].
  - rewrite (He "auto"%string). cbn [mbind option_bind]. by rewrite Hname, of_chars_chars.
  - rewrite (He "manual"%string). assert (eat (chars ("auto" +:+ ":")) (chars ("manual" +:+ ":" +:+ nm)) = None) as ->
      by reflexivity.
    cbn [mbind option_bind]. by rewrite Hname, of_chars_chars.
Qed.

Lemma paths_artifact : paths cat artifact_id = Ok (art ".db", art ".json").
Proof. unfold paths. rewrite split_artifact_id. simpl. by rewrite manifest_art, db_art. Qed.

Lemma unpublished_safe f : unpublished f → safe f.
Proof.
  intros [Hf Hm]. split; [done|]. intros data. unfold manifest. rewrite paths_artifact. simpl.
  unfold is_file at 2. rewrite Hm. rewrite orb_true_r. done.
Qed.

Lemma art_ne x y : bool_decide (x = y) = false → art x ≠ art y.
Proof. intros H E%art_inj. by apply bool_decide_eq_false in H. Qed.

Lemma frame_refl : frame f0 f0.
Proof. intros p _. by left. Qed.

Lemma frame_insert f x n : x ∈ extensions → frame f0 f → frame f0 (<[art x := n]> f).
Proof. intros Hx Hf p Hp. rewrite lookup_insert_ne; [by apply Hf|]. intros <-. by apply (Hp x). Qed.

Lemma frame_delete f x : x ∈ extensions → frame f0 f → frame f0 (delete (art x) f).
Proof. intros Hx Hf p Hp. rewrite lookup_delete_ne; [by apply Hf|]. intros <-. by apply (Hp x). Qed.

Lemma frame_mkdir f p : frame f0 f → frame f0 (mkdir_one p f).1.
Proof.
  intros Hf q Hq. unfold mkdir_one. destruct (f !! p) as [[| |[[]|]]|] eqn:Hp; try by apply Hf. simpl.
  destruct (decide (p = q)) as [->|Hne]; [|rewrite lookup_insert_ne by done; by apply Hf].
  rewrite lookup_insert_eq. right. split; [|done]. destruct (Hf q Hq) as [E|[E E']]; congruence.
Qed.

(** The files that decide whether the artifact is offered and sound. *)
Definition same_artifact (f f' : fs) : Prop :=
  ∀ x, x ∈ [".db"; ".json"; ".db-wal"; ".db-shm"]%string → f' !! art x = f !! art x.

Lemma same_artifact_manifest f f' : same_artifact f f' → manifest cat f' artifact_id = manifest cat f artifact_id.
Proof.
  intros H. unfold manifest. rewrite paths_artifact. simpl. unfold is_symlink, is_file.
  rewrite !H by set_solver. done.
Qed.
Lemma same_artifact_inspection f f' : same_artifact f f' → inspection open_db f' (art ".db") = inspection open_db f (art ".db").
Proof.
  intros H. unfold inspection, exists_. rewrite !suffixed_art.
  change (".db" +:+ "-wal")%string with ".db-wal"%string. change (".db" +:+ "-shm")%string with ".db-shm"%string.
  rewrite !H by set_solver. done.
Qed.
Lemma same_artifact_sound f f' : same_artifact f f' → sound f → sound f'.
Proof. intros H Hs data. rewrite (same_artifact_manifest _ _ H), (same_artifact_inspection _ _ H). apply Hs. Qed.

(** ** Before publication *)

Notation keeps_u := (keeps safe unpublished).

Lemma keeps_u_io {A} (op : fs → fs * result exn A) :
  (∀ f, unpublished f → unpublished (op f).1) → keeps_u (io op).
Proof. intros H. apply keeps_io. intros f Hf. split; [by apply unpublished_safe, H|by apply H]. Qed.

Lemma unpublished_insert f x n : x ∈ extensions → x ≠ ".json"%string → unpublished f → unpublished (<[art x := n]> f).
Proof.
  intros Hx Hne [Hf Hm]. split; [by apply frame_insert|]. rewrite lookup_insert_ne; [done|]. by intros E%art_inj.
Qed.
Lemma unpublished_delete f x : x ∈ extensions → unpublished f → unpublished (delete (art x) f).
Proof.
  intros Hx [Hf Hm]. split; [by apply frame_delete|]. apply lookup_delete_None. by right.
Qed.

Lemma keeps_touch : keeps_u touch_nothing.
Proof. by apply keeps_u_io. Qed.
Lemma keeps_put x c : x ∈ extensions → x ≠ ".json"%string → keeps_u (put_file (art x) c).
Proof. intros Hx Hne. apply keeps_u_io. intros f Hf. by apply unpublished_insert. Qed.
Lemma keeps_unlink b x : x ∈ extensions → keeps_u (unlink b (art x)).
Proof.
  intros Hx. apply keeps_u_io. intros f Hf. destruct (f !! art x) as [[]|]; simpl; try done; by apply unpublished_delete.
Qed.
Lemma keeps_open x : x ∈ extensions → x ≠ ".json"%string → keeps_u (open_new (art x)).
Proof.
  intros Hx Hne. apply keeps_u_io. intros f Hf. destruct (f !! art x); [done|]. by apply unpublished_insert.
Qed.
Lemma keeps_replace x y : x ∈ extensions → y ∈ extensions → y ≠ ".json"%string → keeps_u (replace_file (art x) (art y)).
Proof.
  intros Hx Hy Hne. apply keeps_u_io. intros f Hf. destruct (f !! art x); [|done].
  destruct (f !! art y) as [[]|]; try done; simpl; apply unpublished_insert; try done; by apply unpublished_delete.
Qed.

Lemma keeps_mkdir p : p ≠ art ".json" → keeps_u (mkdir p).
Proof.
  intros Hp. apply keeps_u_io. intros f [Hf Hm]. split; [by apply frame_mkdir|].
  unfold mkdir_one. destruct (f !! p) as [[| |[[]|]]|]; try done. simpl. by rewrite lookup_insert_ne.
Qed.
Lemma keeps_mkdirs above below : (length (above ++ below) ≤ length directory)%nat → keeps_u (mkdirs_from above below).
Proof.
  revert above. induction below as [|n below IH]; intros above H; simpl; [apply keeps_ret|].
  rewrite length_app in H. simpl in H. apply keeps_bind.
  - apply keeps_mkdir. intros E. apply (f_equal length) in E. unfold art in E. rewrite !length_app in E. simpl in E. lia.
  - intros _. apply IH. rewrite !length_app. simpl. lia.
Qed.
Ltac in_extensions := apply (bool_decide_unpack _); reflexivity.
Ltac not_manifest := discriminate.
(** One step through a program that keeps the unpublished state. *)
Ltac keeps_step :=
  first [ done | apply keeps_ret | apply keeps_raise | apply keeps_look | apply keeps_lift | apply keeps_touch
    | apply keeps_put; [in_extensions|not_manifest] | apply keeps_unlink; in_extensions
    | apply keeps_open; [in_extensions|not_manifest] | apply keeps_replace; [in_extensions|in_extensions|not_manifest]
    | apply keeps_suppress | apply keeps_bind; [|intros ?] | apply keeps_catch; [|intros ?] | apply keeps_finally
    | match goal with |- keeps _ _ (if ?b then _ else _) => destruct b end
    | match goal with |- keeps _ _ (match ?x with _ => _ end) => destruct x end ].

Lemma keeps_backup copied : keeps_u (backup_from_connection open_db copied (art ".db")).
Proof.
  unfold backup_from_connection, validate_staged, mkdirs. rewrite !suffixed_art.
  apply keeps_bind; [|intros _].
  { unfold parent, art. rewrite removelast_last. by apply keeps_mkdirs. }
  change (".db" +:+ ".tmp")%string with ".db.tmp"%string.
  change (".db" +:+ ".failed-quick-check")%string with ".db.failed-quick-check"%string.
  repeat keeps_step.
Qed.

(** ** Publication *)

Notation triple_s := (triple safe).

Lemma inspect_spec (P : fs → Prop) (x : string) :
  (∀ f, P f → safe f) →
  triple_s P (inspect open_db (art x)) (λ ins f, P f ∧ inspection open_db f (art x) = Ok ins) (λ _, P).
Proof.
  intros HP. unfold inspect. eapply (triple_bind _ _ _ _ (λ g f, P f ∧ g = f)); [by apply triple_look|]. intros g.
  eapply (triple_bind _ _ _ _ (λ ins f, P f ∧ inspection open_db f (art x) = Ok ins)).
  { apply triple_lift. intros f [Hf ->]. by destruct (inspection open_db f (art x)). }
  intros ins. eapply (triple_bind _ _ _ _ (λ _ f, P f ∧ inspection open_db f (art x) = Ok ins)); [|intros u; by apply triple_ret].
  apply triple_io; [by intros f [Hf _]|]. intros f f' r [Hf Hi] [= <- <-]. split; [by apply HP|done].
Qed.

(** What the manifest of an inspected snapshot holds. *)
Definition metadata_of (e : snapshot_env) (ins : dict) : dict :=
  [("artifact_id", JStr artifact_id); ("created_at", JStr (isoformat (utc (created e))))]%string ++ ins.

Lemma inspection_inv f p ins :
  inspection open_db f p = Ok ins →
  ∃ s a b c d k h g, f !! p = Some (File (Bytes s)) ∧
    ins = [("schema_version", JInt a); ("project_count", JInt b); ("project_identity_sha256", JStr h); ("memory_count", JInt c);
      ("embedding_count", JInt d); ("size_bytes", JInt k); ("sha256", JStr g)]%string.
Proof.
  unfold inspection. destruct (f !! p) as [[[s| |]| |]|]; try done; destruct (_ || _); try done.
  destruct (open_db s) as [img|]; [|done]. destruct (_ || _); [done|].
  destruct (img_rows img) as [[[[a ids] c] d]|]; [|done]. intros [= <-]. by repeat eexists.
Qed.

Lemma metadata_matches e f p ins :
  inspection open_db f p = Ok ins →
  matches (sort_by key_leb (metadata_of e ins)) ins = true ∧
  jget "artifact_id" (sort_by key_leb (metadata_of e ins)) = Some (JStr artifact_id).
Proof.
  intros (s&a&b&c&d&k&h&g&_&->)%inspection_inv. unfold metadata_of. generalize artifact_id (isoformat (utc (created e))).
  intros i u. cbn [app].
  match goal with |- context [sort_by key_leb ?l] => set (sorted := sort_by key_leb l) end.
  assert (sorted = [("artifact_id", JStr i); ("created_at", JStr u); ("embedding_count", JInt d); ("memory_count", JInt c);
    ("project_count", JInt b); ("project_identity_sha256", JStr h); ("schema_version", JInt a); ("sha256", JStr g);
    ("size_bytes", JInt k)]%string) as -> by reflexivity. split; [|done].
  transitivity ((a =? a) && ((b =? b) && (bool_decide (h = h) && ((c =? c) && ((d =? d) && ((k =? k) && (bool_decide (g = g) && true)))))));
    [reflexivity|].
  rewrite !Z.eqb_refl, !bool_decide_eq_true_2 by done. done.
Qed.

Definition inspected (ins : dict) (f : fs) : Prop := unpublished f ∧ inspection open_db f (art ".db") = Ok ins.
Definition staged_manifest (ins : dict) (j : json) (f : fs) : Prop :=
  inspected ins f ∧ f !! art ".json.tmp" = Some (File (Doc j)).
Definition published (data : dict) (f : fs) : Prop := safe f ∧ manifest cat f artifact_id = Ok data.

Lemma same_insert f x n : x ∉ [".db"; ".json"; ".db-wal"; ".db-shm"]%string → same_artifact f (<[art x := n]> f).
Proof. intros Hx y Hy. rewrite lookup_insert_ne; [done|]. intros ->%art_inj. done. Qed.
Lemma same_delete f x : x ∉ [".db"; ".json"; ".db-wal"; ".db-shm"]%string → same_artifact f (delete (art x) f).
Proof. intros Hx y Hy. rewrite lookup_delete_ne; [done|]. intros ->%art_inj. done. Qed.
Lemma same_refl f : same_artifact f f.
Proof. by intros x _. Qed.

Lemma temp_plain : ".json.tmp"%string ∉ [".db"; ".json"; ".db-wal"; ".db-shm"]%string ∧ ".json.tmp"%string ∈ extensions.
Proof. split; [apply (bool_decide_unpack _); reflexivity|in_extensions]. Qed.

Lemma inspected_temp ins f n :
  inspected ins f → inspected ins (<[art ".json.tmp" := n]> f).
Proof.
  intros [Hu Hi]. split; [apply unpublished_insert; [in_extensions|not_manifest|done]|].
  rewrite (same_artifact_inspection f); [done|]. apply same_insert, temp_plain.
Qed.

Lemma publish_rename e ins :
  triple_s (staged_manifest ins (JObj (sort_by key_leb (metadata_of e ins)))) (replace_file (art ".json.tmp") (art ".json"))
    (λ _, published (sort_by key_leb (metadata_of e ins))) (λ _, safe).
Proof.
  apply triple_io. { intros f [[Hu _] _]. by apply unpublished_safe. }
  intros f f' r [[[Hf Hm] Hi] Ht]. rewrite Ht, Hm. intros [= <- <-].
  set (g := <[art ".json" := _]> _).
  assert (Hj : g !! art ".json" = Some (File (Doc (JObj (sort_by key_leb (metadata_of e ins)))))) by apply lookup_insert_eq.
  assert (Ho : ∀ y, y ≠ ".json"%string → y ≠ ".json.tmp"%string → g !! art y = f !! art y).
  { intros y H1 H2. unfold g. rewrite lookup_insert_ne, lookup_delete_ne; [done| |]; by intros E%art_inj. }
  assert (Hg : inspection open_db g (art ".db") = Ok ins).
  { rewrite <- Hi. unfold inspection, exists_. rewrite !suffixed_art. rewrite !Ho by done. done. }
  destruct (metadata_matches e g _ ins Hg) as [Hmatch Hid].
  destruct (inspection_inv _ _ _ Hg) as (s&?&?&?&?&?&?&?&Hd&_).
  assert (Hman : manifest cat g artifact_id = Ok (sort_by key_leb (metadata_of e ins))).
  { unfold manifest. rewrite paths_artifact. cbn [result_bind]. unfold is_symlink, is_file. rewrite Hd, Hj.
    cbn [orb negb]. rewrite Hid. by rewrite bool_decide_eq_true_2. }
  assert (Hs : safe g).
  { split.
    - apply frame_insert; [in_extensions|]. apply frame_delete; [in_extensions|done].
    - intros data. rewrite Hman. intros [= <-]. by exists ins. }
  split; [done|]. by split.
Qed.

Lemma published_keeps (data : dict) (op : fs → fs * result exn unit) :
  (∀ f, frame f0 f → frame f0 (op f).1 ∧ same_artifact f (op f).1) →
  triple_s (published data) (io op) (λ _, published data) (λ _, published data).
Proof.
  intros H. apply keeps_io. intros f [[Hf Hs] Hm]. destruct (H f Hf) as [Hf' Hsame].
  assert (safe (op f).1) by (split; [done|by eapply same_artifact_sound]).
  split; [done|]. split; [done|]. by rewrite (same_artifact_manifest f).
Qed.

Lemma published_touch (data : dict) : triple_s (published data) touch_nothing (λ _, published data) (λ _, published data).
Proof. apply published_keeps. intros f Hf. split; [done|apply same_refl]. Qed.

Lemma published_unlink_temp (data : dict) :
  triple_s (published data) (unlink true (art ".json.tmp")) (λ _, published data) (λ _, published data).
Proof.
  apply published_keeps. intros f Hf.
  destruct (f !! art ".json.tmp") as [[]|]; simpl; (split; [|first [apply same_refl|apply same_delete, temp_plain]]);
    try done; apply frame_delete; by try in_extensions.
Qed.

Lemma safe_unlink_temp :
  triple_s safe (unlink true (art ".json.tmp")) (λ _, safe) (λ _, safe).
Proof.
  apply keeps_io. intros f [Hf Hs].
  assert (safe (delete (art ".json.tmp") f)).
  { split; [apply frame_delete; [in_extensions|done]|]. eapply same_artifact_sound; [apply same_delete, temp_plain|done]. }
  by destruct (f !! art ".json.tmp") as [[]|].
Qed.

(** A published snapshot that is taken back is no longer offered. *)
Lemma safe_unlink_db : triple_s safe (unlink true (art ".db")) (λ _, safe) (λ _, safe).
Proof.
  apply keeps_io. intros f [Hf Hs]. assert (safe (delete (art ".db") f)).
  { split; [apply frame_delete; [in_extensions|done]|]. intros data. unfold manifest. rewrite paths_artifact. cbn [result_bind].
    unfold is_file at 1. rewrite lookup_delete_eq. cbn [negb]. by rewrite orb_true_r. }
  by destruct (f !! art ".db") as [[]|].
Qed.

Lemma publish_spec e ins :
  triple_s (inspected ins) (publish_manifest (art ".json") (metadata_of e ins))
    (λ _, published (sort_by key_leb (metadata_of e ins))) (λ _, safe).
Proof.
  unfold publish_manifest. rewrite manifest_temp_art.
  eapply (triple_finally _ _ _ _ _ (λ _, published (sort_by key_leb (metadata_of e ins))) _ (λ _, safe)).
  2: { intros _. eapply triple_weaken; [apply published_unlink_temp|done|done|by intros _ f [? _]]. }
  2: { intros _. apply safe_unlink_temp. }
  assert (∀ f, inspected ins f → safe f) as Hsafe by (intros f [Hu _]; by apply unpublished_safe).
  eapply (triple_bind _ _ _ _ (λ _, inspected ins)).
  { apply triple_io; [done|]. intros f f' r Hf. destruct (f !! art ".json.tmp") as [n|]; intros [= <- <-]; [by split; apply Hsafe|].
    assert (inspected ins (<[art ".json.tmp" := File Partial]> f)) by (by apply inspected_temp). split; [by apply Hsafe|done]. }
  intros _. eapply (triple_bind _ _ _ _ (λ _, staged_manifest ins (JObj (sort_by key_leb (metadata_of e ins))))).
  { apply triple_io; [done|]. intros f f' r Hf [= <- <-].
    assert (inspected ins (<[art ".json.tmp" := File (Doc (JObj (sort_by key_leb (metadata_of e ins))))]> f)) as Hi
      by (by apply inspected_temp).
    split; [by apply Hsafe|]. split; [done|apply lookup_insert_eq]. }
  intros _. eapply (triple_bind _ _ _ _ (λ _, staged_manifest ins (JObj (sort_by key_leb (metadata_of e ins))))).
  { apply triple_io; [by intros f [Hf _]; apply Hsafe|]. intros f f' r Hf [= <- <-]. split; [|done]. apply Hsafe, Hf. }
  intros _. eapply (triple_bind _ _ _ _ (λ _, published (sort_by key_leb (metadata_of e ins)))); [apply publish_rename|].
  intros _. eapply triple_weaken; [apply published_touch|done|done|by intros _ f [? _]].
Qed.

(** ** The run *)

Lemma create_locked_spec e :
  new_name e = nm →
  triple_s unpublished (create_locked open_db cat kind e)
    (λ meta f, ∃ data, published data f ∧ ∃ ins, meta = metadata_of e ins ∧ data = sort_by key_leb meta) (λ _, safe).
Proof.
  intros Hnm. unfold create_locked. rewrite Hnm, db_art, manifest_art, suffixed_art.
  change (".db" +:+ ".failed-verify")%string with ".db.failed-verify"%string.
  assert (∀ A (m : IO A), keeps safe unpublished m → triple_s unpublished m (λ _, unpublished) (λ _, safe)) as Hkeep.
  { intros A m H. eapply triple_weaken; [exact H|done|done|]. intros x f. apply unpublished_safe. }
  assert (∀ A, triple_s unpublished (@catalog_error A) (λ _ _, False) (λ _, safe)) as Herr.
  { intros A. apply triple_raise, unpublished_safe. }
  eapply triple_bind; [apply Hkeep; unfold check_root, catalog_error; repeat keeps_step|]. intros ?.
  eapply triple_bind; [apply Hkeep; apply keeps_mkdirs; unfold directory; simpl; lia|]. intros ?.
  eapply triple_bind; [apply Hkeep; apply keeps_look|]. intros [|].
  { eapply triple_weaken; [apply Herr|done|done|done]. }
  eapply triple_bind; [apply Hkeep; apply keeps_touch|]. intros ?.
  eapply triple_bind; [apply Hkeep; apply keeps_lift|]. intros size.
  eapply triple_bind; [apply Hkeep; apply keeps_touch|]. intros ?.
  destruct (_ <? _). { eapply triple_weaken; [apply Herr|done|done|done]. }
  eapply triple_bind; [apply Hkeep; apply keeps_backup|]. intros ?.
  eapply triple_bind; [apply Hkeep; apply keeps_touch|]. intros ?.
  eapply triple_bind; [apply Hkeep; apply keeps_touch|]. intros ?.
  eapply (triple_bind _ _ _ _ inspected).
  { eapply (triple_catch _ _ _ _ _ _ (λ _, unpublished)); [apply inspect_spec, unpublished_safe|]. intros x.
    eapply (triple_bind _ _ _ _ (λ _, unpublished)).
    - apply Hkeep. unfold fsync. repeat keeps_step.
    - intros _. apply triple_raise, unpublished_safe. }
  intros ins. change ([("artifact_id", _); _] ++ ins)%list with (metadata_of e ins).
  eapply (triple_bind _ _ _ _ (λ _, published (sort_by key_leb (metadata_of e ins)))).
  - eapply (triple_catch _ _ _ _ _ _ (λ _, safe)); [apply publish_spec|]. intros x.
    eapply (triple_bind _ _ _ _ (λ _, safe)); [apply safe_unlink_db|]. intros _. by apply triple_raise.
  - intros _. apply triple_ret. intros f Hp. exists (sort_by key_leb (metadata_of e ins)). split; [done|]. by exists ins.
Qed.
End artifact.

(** ** Theorems *)

Section theorems.
Context (open_db : string → option image) (cat : catalog).

Lemma verify_ok (i : string) (db mf : path) (data actual : dict) (w : world) :
  paths cat i = Ok (db, mf) → manifest cat (files w) i = Ok data → inspection open_db (files w) db = Ok actual →
  matches data actual = true → faults w = [] →
  (verify open_db cat i w).2 = Ok (dict_set "verified" (JBool true) data).
Proof.
  intros Hp Hm Hi Hmatch Hf. unfold verify, inspect, look, gets, lift_result, touch_nothing, io, bind, ret, catalog_error, raise.
  rewrite Hm, Hp, Hi, Hf. cbn [update]. rewrite Hmatch. done.
Qed.

(** Under the lock a run is as without it, and the lock is free again. *)
Lemma under_lock_triple {A} (I P : fs → Prop) (m : IO A) Q E (w : world) :
  triple I P m Q E → P (files w) → operation_lock w = false →
  ∃ w' r new, under_lock m w = (w', r) ∧ operation_lock w' = false ∧ seen w' = new ++ seen w ∧ Forall I new ∧
    match r with Ok a => Q a (files w') | Raise e => E e (files w') end.
Proof.
  intros Hm HP Hl. destruct (Hm (set_lock true w) HP) as (w1&r&H1&_&(new&Hs&Hi)&Hr).
  exists (set_lock false w1), r, new. unfold under_lock, gets, bind, modify, try_finally. rewrite Hl, H1.
  destruct r; repeat (split; [done|]); done.
Qed.

(** C10. A snapshot is published last and matches its manifest.  Whatever calls
    to the operating system fail during [create], and in every state the files
    pass through, so wherever the process may die: every path but the new
    artifact's own files is as it was (a missing directory may have been made),
    and if the catalog offers the new artifact, inspecting its database gives
    what its manifest records.  The lock is given back on every path, and a
    snapshot that was reported as created verifies. *)
Theorem create_publishes_last (kind : string) (e : snapshot_env) (w : world) :
  kind ∈ KINDS → id_name (chars (new_name e)) = true → operation_lock w = false →
  files w !! manifest_file cat kind (new_name e) = None →
  ∃ w' r new, create open_db cat kind e w = (w', r) ∧ operation_lock w' = false ∧ seen w' = new ++ seen w ∧
    Forall (λ f, frame cat kind (new_name e) (files w) f ∧ sound open_db cat kind (new_name e) f) (files w' :: new) ∧
    match r with
    | Ok meta => ∀ w2, files w2 = files w' → faults w2 = [] →
        (verify open_db cat (artifact_id kind (new_name e)) w2).2 = Ok (dict_set "verified" (JBool true) (sort_by key_leb meta))
    | Raise _ => True
    end.
Proof.
  intros Hk Hn Hl Hm. rewrite manifest_art in Hm.
  destruct (under_lock_triple _ _ _ _ _ w (create_locked_spec open_db cat kind (new_name e) (files w) Hk Hn e eq_refl))
    as (w'&r&new&H1&H2&H3&H4&Hr); [by split; [apply frame_refl|]|done|].
  exists w', r, new. do 3 (split; [done|]). destruct r as [meta|x].
  - destruct Hr as (data&[Hs Hman]&ins&_&->). split; [by constructor|]. intros w2 Hf Hfl.
    destruct Hs as [_ Hs]. destruct (Hs _ Hman) as (actual&Ha&Hmatch). rewrite <- Hf in Hman, Ha.
    by eapply verify_ok; [apply paths_artifact|..].
  - split; [by constructor|done].
Qed.
End theorems.
