(* ===== verification/RestoreProps.v ===== *)
(** * Properties of staging a restore

    Only bytes that were verified are staged, and nothing but the staging
    directory changes. *)

From S2P Require Import Prelude PyStr PyText TextProps Sha256 Domain DateTime PyNum PyRepr FileSystem Backups BackupProps.
Local Open Scope Z_scope.
Local Open Scope prog_scope.

Section stage.
Context (open_db : string → option image) (scan : fs → path → list string) (cat : catalog).
Context (f0 : fs) (db mf : path) (i : string) (Hpaths : paths cat i = Ok (db, mf)).
Context (temp_token stage_id : string).

Definition temp_file : path := stage_dir cat ++ ["candidate-" +:+ temp_token +:+ ".tmp"]%string.
Definition staged_file : path := stage_dir cat ++ ["candidate-" +:+ stage_id +:+ ".db"]%string.

(** The bytes of a snapshot that matches its manifest. *)
Definition verified_bytes (s : string) : Prop := ∃ data actual,
  f0 !! db = Some (File (Bytes s)) ∧ manifest cat f0 i = Ok data ∧ inspection open_db f0 db = Ok actual ∧ matches data actual = true.

Definition elsewhere (f : fs) : Prop := ∀ p, p ≠ temp_file → p ≠ staged_file →
  f !! p = f0 !! p ∨ (f0 !! p = None ∧ f !! p = Some Dir).
(** What every state of a run satisfies. *)
Definition stage_safe (f : fs) : Prop :=
  elsewhere f ∧ (f !! staged_file = f0 !! staged_file ∨ ∃ s, verified_bytes s ∧ f !! staged_file = Some (File (Bytes s))).
Definition not_yet (f : fs) : Prop := elsewhere f ∧ f !! staged_file = f0 !! staged_file.

Lemma not_yet_safe f : not_yet f → stage_safe f.
Proof. intros [H1 H2]. split; [done|by left]. Qed.

Lemma candidate_ne : temp_file ≠ staged_file.
Proof.
  intros E. apply app_inj_tail in E as [_ E]. apply (f_equal (λ s, rev (chars s))) in E. rewrite !chars_app, !rev_app_distr in E.
  discriminate E.
Qed.

Lemma stage_dir_ne : stage_dir cat ≠ temp_file ∧ stage_dir cat ≠ staged_file.
Proof. split; intros E; apply (f_equal length) in E; unfold temp_file, staged_file in E; rewrite length_app in E; simpl in E; lia. Qed.

(** The snapshot is not a candidate. *)
Lemma db_ne : db ≠ temp_file ∧ db ≠ staged_file.
Proof.
  revert Hpaths. unfold paths. destruct (split_id i) as [[k n]|]; [|done]. simpl. intros [= <- _]. unfold db_file.
  split; intros E; change [k; ?x] with ([k] ++ [x]) in E; rewrite app_assoc in E; by apply app_inj_tail in E as [_ E].
Qed.

Notation T := (triple stage_safe).

Lemma elsewhere_temp f n : not_yet f → not_yet (<[temp_file := n]> f).
Proof.
  intros [He Hs]. split.
  - intros p H1 H2. rewrite lookup_insert_ne by done. by apply He.
  - by rewrite lookup_insert_ne by apply candidate_ne.
Qed.
Lemma elsewhere_drop f : stage_safe f → stage_safe (delete temp_file f).
Proof.
  intros [He Hs]. split.
  - intros p H1 H2. rewrite lookup_delete_ne by done. by apply He.
  - by rewrite lookup_delete_ne by apply candidate_ne.
Qed.
Lemma not_yet_drop f : not_yet f → not_yet (delete temp_file f).
Proof.
  intros [He Hs]. split.
  - intros p H1 H2. rewrite lookup_delete_ne by done. by apply He.
  - by rewrite lookup_delete_ne by apply candidate_ne.
Qed.
Lemma not_yet_db f x : not_yet f → f0 !! db = Some x → f !! db = Some x.
Proof. intros [He _] Hx. destruct (He db) as [E|[E _]]; [apply db_ne|apply db_ne|congruence|congruence]. Qed.

Lemma verify_spec :
  T (λ f, f = f0) (verify open_db cat i)
    (λ c f, f = f0 ∧ ∃ s data actual, c = dict_set "verified" (JBool true) data ∧ f0 !! db = Some (File (Bytes s)) ∧
       manifest cat f0 i = Ok data ∧ inspection open_db f0 db = Ok actual ∧ matches data actual = true)
    (λ _, not_yet).
Proof.
  assert (not_yet f0) as H0 by (split; [by intros p; left|done]).
  unfold verify. eapply (triple_bind _ _ _ _ (λ g f, f = f0 ∧ g = f0)); [by apply triple_look; intros f ->|]. intros g.
  eapply (triple_bind _ _ _ _ (λ d f, f = f0 ∧ manifest cat f0 i = Ok d)).
  { apply triple_lift. intros f [-> ->]. by destruct (manifest cat f0 i). }
  intros data. eapply (triple_bind _ _ _ _ (λ ps f, ps = (db, mf) ∧ f = f0 ∧ manifest cat f0 i = Ok data)).
  { rewrite Hpaths. apply triple_lift. by intros f [-> Hm]. }
  intros [db' mf']. apply (triple_pure _ _ (db' = db)); [by intros f [[= <- _] _]|]. intros ->.
  eapply (triple_bind _ _ _ _ (λ ins f, f = f0 ∧ manifest cat f0 i = Ok data ∧ inspection open_db f0 db = Ok ins)).
  { unfold inspect. eapply (triple_bind _ _ _ _ (λ g f, g = f0 ∧ f = f0 ∧ manifest cat f0 i = Ok data)).
    { apply triple_look. by intros f (_&->&Hm). }
    intros g'. eapply (triple_bind _ _ _ _ (λ ins f, f = f0 ∧ manifest cat f0 i = Ok data ∧ inspection open_db f0 db = Ok ins)).
    { apply triple_lift. intros f (->&->&Hm). by destruct (inspection open_db f0 db). }
    intros ins. eapply (triple_bind _ _ _ _ (λ _ f, f = f0 ∧ manifest cat f0 i = Ok data ∧ inspection open_db f0 db = Ok ins)).
    - apply triple_io; [by intros f [-> _]|]. intros f f' r (->&H) [= <- <-]. split; [by apply not_yet_safe|done].
    - intros _. by apply triple_ret. }
  intros actual. destruct (matches data actual) eqn:Hmatch; cbn [negb].
  - apply triple_ret. intros f (->&Hm&Hi). split; [done|]. destruct (inspection_inv _ _ _ _ Hi) as (s&_&_&_&_&_&_&_&Hs&_).
    by exists s, data, actual.
  - apply triple_raise. by intros f (->&_).
Qed.

(** A failing step before the copy is staged. *)
Lemma stage_copy s :
  f0 !! db = Some (File (Bytes s)) →
  T not_yet (copy_to db temp_file) (λ _ f, not_yet f ∧ f !! temp_file = Some (File (Bytes s))) (λ _, not_yet).
Proof.
  intros Hdb. unfold copy_to. eapply (triple_bind _ _ _ _ (λ _, not_yet)).
  { apply triple_io; [done|]. intros f f' r Hf. destruct (f !! temp_file); intros [= <- <-]; [by split; [apply not_yet_safe|]|].
    assert (not_yet (<[temp_file := File Partial]> f)) by (by apply elsewhere_temp). split; [by apply not_yet_safe|done]. }
  intros _. eapply (triple_catch _ _ _ _ _ _ (λ _, not_yet)).
  - eapply (triple_bind _ _ _ _ (λ g f, g = f ∧ not_yet f)); [by apply triple_look|]. intros g.
    apply (triple_pure _ _ (g !! db = Some (File (Bytes s)))); [intros f [-> Hf]; by apply not_yet_db|]. intros ->.
    eapply (triple_bind _ _ _ _ (λ _ f, not_yet f ∧ f !! temp_file = Some (File (Bytes s)))).
    + apply triple_io; [by intros f [_ Hf]|]. intros f f' r [_ Hf] [= <- <-].
      assert (not_yet (<[temp_file := File (Bytes s)]> f)) by (by apply elsewhere_temp).
      split; [by apply not_yet_safe|]. split; [done|apply lookup_insert_eq].
    + intros _. apply triple_io; [by intros f [Hf _]|]. intros f f' r [Hf Ht] [= <- <-]. split; [by apply not_yet_safe|done].
  - intros x. eapply (triple_bind _ _ _ _ (λ _, not_yet)); [|intros _; by apply triple_raise].
    apply keeps_io. intros f Hf. assert (not_yet (delete temp_file f)) by (by apply not_yet_drop).
    destruct (f !! temp_file) as [[]|]; simpl; (split; [apply not_yet_safe|]); done.
Qed.

Definition staged (s : string) (f : fs) : Prop := stage_safe f ∧ f !! staged_file = Some (File (Bytes s)).

Lemma safe_unlink_temp_file : T stage_safe (unlink true temp_file) (λ _, stage_safe) (λ _, stage_safe).
Proof.
  apply keeps_io. intros f Hf. assert (stage_safe (delete temp_file f)) by (by apply elsewhere_drop).
  by destruct (f !! temp_file) as [[]|].
Qed.
Lemma staged_unlink s : T (staged s) (unlink true temp_file) (λ _, staged s) (λ _, stage_safe).
Proof.
  assert (∀ f, staged s f → staged s (delete temp_file f)) as Hd.
  { intros f [Hf Hs]. split; [by apply elsewhere_drop|]. by rewrite lookup_delete_ne by apply candidate_ne. }
  apply triple_io; [by intros f [Hf _]|]. intros f f' r Hf.
  destruct (f !! temp_file) as [[]|]; intros [= <- <-]; (split; [first [apply Hf|apply Hd, Hf]|]);
    first [apply Hf|by apply Hd|done].
Qed.

Lemma stage_rename s :
  verified_bytes s →
  T (λ f, not_yet f ∧ f !! temp_file = Some (File (Bytes s))) (replace_file temp_file staged_file) (λ _, staged s) (λ _, stage_safe).
Proof.
  intros Hv. apply triple_io; [intros f [Hf _]; by apply not_yet_safe|]. intros f f' r [Hf Ht]. rewrite Ht.
  assert (staged s (<[staged_file := File (Bytes s)]> (delete temp_file f))) as Hs.
  { assert ((<[staged_file := File (Bytes s)]> (delete temp_file f)) !! staged_file = Some (File (Bytes s))) as Hl
      by apply lookup_insert_eq.
    split; [|done]. split; [|right; by exists s]. intros p H1 H2. rewrite lookup_insert_ne, lookup_delete_ne by done.
    by apply Hf. }
  destruct (f !! staged_file) as [[]|]; intros [= <- <-]; (split; [first [apply Hs|by apply not_yet_safe]|]);
    first [done|by apply not_yet_safe].
Qed.

Lemma stage_publish s data :
  verified_bytes s →
  T (λ f, not_yet f ∧ f !! temp_file = Some (File (Bytes s)))
    (try_finally
       (let* actual := inspect open_db temp_file in
        if negb (matches data actual) then catalog_error
        else replace_file temp_file staged_file ;; fsync ;; ret actual)
       (unlink true temp_file))
    (λ _, staged s) (λ _, stage_safe).
Proof.
  intros Hv. set (P := λ f, not_yet f ∧ f !! temp_file = Some (File (Bytes s))).
  assert (∀ f, P f → stage_safe f) as HP by (intros f [Hf _]; by apply not_yet_safe).
  eapply (triple_finally _ _ _ _ _ (λ _, staged s) _ (λ _, stage_safe));
    [|intros _; apply staged_unlink|intros _; apply safe_unlink_temp_file].
  eapply (triple_bind _ _ _ _ (λ _, P)).
  { unfold inspect. eapply (triple_bind _ _ _ _ (λ _, P)); [by apply triple_look|]. intros g.
    eapply (triple_bind _ _ _ _ (λ _, P)); [apply triple_lift; intros f Hf; destruct (inspection _ _ _); auto|]. intros r.
    eapply (triple_bind _ _ _ _ (λ _, P)); [|intros _; by apply triple_ret].
    apply triple_io; [done|]. intros f f' u Hf [= <- <-]. split; [by apply HP|done]. }
  intros actual. destruct (negb _); [by apply triple_raise|].
  eapply (triple_bind _ _ _ _ (λ _, staged s)); [by apply stage_rename|]. intros _.
  eapply (triple_bind _ _ _ _ (λ _, staged s)); [|intros _; by apply triple_ret].
  apply triple_io; [by intros f [Hf _]|]. intros f f' u Hf [= <- <-]. split; [apply Hf|done].
Qed.

(** Nothing stops the candidate. *)
Definition clears (current : identity) : Prop :=
  ∃ data ids c, manifest cat f0 i = Ok data ∧ artifact_project_ids open_db cat f0 i = Ok ids ∧
    compare_with (dict_set "verified" (JBool true) data) ids current = Ok c ∧ stop_reasons c = [].

Lemma stage_mkdir : T not_yet (mkdir (stage_dir cat)) (λ _, not_yet) (λ _, not_yet).
Proof.
  apply keeps_io. intros f [He Hs].
  assert (not_yet (mkdir_one (stage_dir cat) f).1) as Hf.
  { unfold mkdir_one. destruct (f !! stage_dir cat) as [[| |[[]|]]|] eqn:Hd; try done. split.
    - intros p H1 H2. simpl. destruct (decide (stage_dir cat = p)) as [<-|Hne].
      + rewrite lookup_insert_eq. right. split; [|done]. destruct (He _ H1 H2) as [E|[E _]]; congruence.
      + rewrite lookup_insert_ne by done. by apply He.
    - simpl. rewrite lookup_insert_ne; [done|]. apply stage_dir_ne. }
  split; [by apply not_yet_safe|done].
Qed.

Lemma stage_locked_spec current free :
  T (λ f, f = f0) (restore_stage_locked open_db scan cat current i free temp_token stage_id)
    (λ r f, r.1 = staged_file ∧ clears current ∧ ∃ s, verified_bytes s ∧ staged s f) (λ _, stage_safe).
Proof.
  unfold restore_stage_locked.
  assert (∀ f, f = f0 → not_yet f) as H0 by (intros f ->; split; [by intros p; left|done]).
  eapply triple_bind; [eapply triple_weaken; [apply verify_spec|done|done|intros x f; apply not_yet_safe]|]. intros candidate.
  eapply (triple_pure _ _ (∃ s data actual, candidate = dict_set "verified" (JBool true) data ∧ f0 !! db = Some (File (Bytes s)) ∧
    manifest cat f0 i = Ok data ∧ inspection open_db f0 db = Ok actual ∧ matches data actual = true)); [by intros f [_ H]|].
  intros (s&data&actual&->&Hdb&Hman&Hins&Hmatch).
  assert (verified_bytes s) as Hv by (by exists data, actual).
  eapply (triple_bind _ _ _ _ (λ g f, g = f0 ∧ f = f0)); [by apply triple_look; intros f [-> _]|]. intros g.
  apply (triple_pure _ _ (g = f0)); [by intros f [-> _]|]. intros ->.
  destruct (artifact_project_ids open_db cat f0 i) as [ids|x] eqn:Hids.
  2: { intros w Hw. exists w, (Raise x). split; [done|]. split; [done|]. split; [by exists []|]. apply not_yet_safe, H0, Hw. }
  destruct (compare_with (dict_set "verified" (JBool true) data) ids current) as [c|x] eqn:Hc.
  2: { intros w Hw. exists w, (Raise x). unfold bind, lift_result. rewrite Hc. split; [done|]. split; [done|].
       split; [by exists []|]. apply not_yet_safe, H0, Hw. }
  eapply (triple_bind _ _ _ _ (λ d f, d = ids ∧ f = f0)); [by apply triple_lift; intros f [_ ->]|]. intros d.
  apply (triple_pure _ _ (d = ids)); [by intros f [-> _]|]. intros ->. rewrite Hc.
  eapply (triple_bind _ _ _ _ (λ d f, d = c ∧ f = f0)); [by apply triple_lift; intros f [_ ->]|]. intros d.
  apply (triple_pure _ _ (d = c)); [by intros f [-> _]|]. intros ->.
  assert (∀ B (Q : B → fs → Prop) P, (∀ f, P f → not_yet f) → T P (@catalog_error B) Q (λ _, stage_safe)) as Herr.
  { intros B Q P HP. apply triple_raise. intros f Hf. by apply not_yet_safe, HP. }
  case_bool_decide as Hstop; cbn [negb]; [|by apply Herr; intros f [_ Hf]; apply H0].
  assert (clears current) as Hclear by (by exists data, ids, c).
  eapply (triple_bind _ _ _ _ (λ _, not_yet)).
  { eapply triple_weaken; [apply stage_mkdir|by intros f [_ Hf]; apply H0|done|intros x f; apply not_yet_safe]. }
  intros _. eapply (triple_bind _ _ _ _ (λ _, not_yet)); [by apply triple_look|]. intros [|]; [by apply Herr|].
  eapply (triple_bind _ _ _ _ (λ _, not_yet)).
  { apply triple_io; [apply not_yet_safe|]. intros f f' u Hf [= <- <-]. split; [by apply not_yet_safe|done]. }
  intros _. eapply (triple_bind _ _ _ _ (λ _, not_yet)).
  { apply triple_lift. intros f Hf. destruct (int_entry _ _); [done|by apply not_yet_safe]. }
  intros size. destruct (free <? _); [by apply Herr|].
  rewrite Hpaths. eapply (triple_bind _ _ _ _ (λ ps f, ps = (db, mf) ∧ not_yet f)); [by apply triple_lift|]. intros [db' mf'].
  apply (triple_pure _ _ (db' = db)); [by intros f [[= <- _] _]|]. intros ->.
  eapply (triple_bind _ _ _ _ (λ _ f, not_yet f ∧ f !! temp_file = Some (File (Bytes s)))).
  { eapply triple_weaken; [by apply stage_copy|by intros f [_ Hf]|done|intros x f; apply not_yet_safe]. }
  intros _. eapply (triple_bind _ _ _ _ (λ _, staged s)); [by apply stage_publish|]. intros r.
  apply triple_ret. intros f Hf. split; [done|]. split; [done|]. by exists s.
Qed.
End stage.

(** C11. A restore stages verified bytes or nothing.  Whatever calls fail while a
    candidate is staged, and in every state the files pass through: the live
    database, the snapshots and every other path are as they were (the staging
    directory may have been made), and the candidate's place is as it was or
    holds exactly the bytes of the snapshot, which match its manifest.  Success
    means that they are there, and that the candidate's schema is not newer and
    its projects are not foreign; a failure gives the lock back too. *)
Theorem restore_stages_verified (open_db : string → option image) (scan : fs → path → list string) (cat : catalog)
    (current : identity) (i : string) (free : Z) (temp_token stage_id : string) (w : world) (db mf : path) :
  paths cat i = Ok (db, mf) → operation_lock w = false →
  ∃ w' r new, restore_stage open_db scan cat current i free temp_token stage_id w = (w', r) ∧
    operation_lock w' = false ∧ seen w' = new ++ seen w ∧
    Forall (stage_safe open_db cat (files w) db i temp_token stage_id) (files w' :: new) ∧
    match r with
    | Ok (final, _) => clears open_db cat (files w) i current ∧ ∃ s, verified_bytes open_db cat (files w) db i s ∧
        final = staged_file cat stage_id ∧ files w' !! final = Some (File (Bytes s))
    | Raise _ => True
    end.
Proof.
  intros Hp Hl.
  destruct (under_lock_triple _ _ _ _ _ w (stage_locked_spec open_db scan cat (files w) db mf i Hp temp_token stage_id current free))
    as (w'&r&new&H1&H2&H3&H4&Hr); [done|done|].
  exists w', r, new. split; [exact H1|]. do 2 (split; [done|]). destruct r as [[final actual]|x].
  - destruct Hr as (E&Hc&s&Hv&[Hs Hf]). simpl in E. subst final. split; [by constructor|]. split; [done|]. by exists s.
  - split; [by constructor|done].
Qed.
