(* ===== verification/Snapshots.v ===== *)
(** * Which snapshots are kept and which are pushed

    The retention rule and the push selection of [maintenance/jobs.py]: both
    keep the newest few and the newest of each of the last few UTC days.  A
    timestamp is in microseconds; its UTC day is a day number, which orders like
    the [YYYY-MM-DD] text the code uses. *)

From S2P Require Import Prelude PyStr PyText Domain DateTime FileSystem.
Local Open Scope Z_scope.
Local Open Scope prog_scope.

(** [jobs.py:49-49 _BACKUP_RETENTION] *)
Definition BACKUP_RETENTION : nat := 7.
(** [jobs.py:60-60 _CLOUD_WINDOW] *)
Definition CLOUD_WINDOW : nat := 3.

(** [jobs.py:74-81 _is_published] *)
Definition is_published (f : fs) (p : path) : bool :=
  bool_decide (py_suffix (path_name p) = ".db"%string) && is_file f (with_suffix p ".json").

(** A snapshot with its time. *)
Abbreviation dated := (Z * list string)%type.
Definition day_of (t : Z) : Z := t / DAY.

(** [jobs.py:128-132 _retention_prune] Of snapshots given newest first, the
    first of each day, with the day. *)
Fixpoint newest_per_day (days : list Z) (l : list dated) : list dated :=
  match l with
  | [] => []
  | (t, p) :: l' =>
      if bool_decide (day_of t ∈ days) then newest_per_day days l'
      else (day_of t, p) :: newest_per_day (day_of t :: days) l'
  end.
Definition later_first (a b : dated) : bool := b.1 <=? a.1.
(** [jobs.py:127-134 _retention_prune] The union of the newest and the newest
    of each of the last days. *)
Definition keep_set (keep : nat) (newest_first : list dated) : list path :=
  map snd (take keep newest_first) ++ map snd (take keep (sort_by later_first (newest_per_day [] newest_first))).

Section retention.
Context (scan : fs → path → list string) (mtime : fs → path → result exn Z).

(** [sorted(..., key=mtime, reverse=True)]: the key may raise. *)
Fixpoint with_mtimes (f : fs) (ps : list path) : result exn (list dated) :=
  match ps with
  | [] => Ok []
  | p :: ps' => let? t := mtime f p in let? l := with_mtimes f ps' in Ok ((t, p) :: l)
  end.
(** [directory.glob("*.db")] *)
Definition glob_db (f : fs) (directory : path) : list path :=
  map (λ n, directory ++ [n]) (filter (λ n, ends_with ".db" n = true) (scan f directory)).
Definition published_in (f : fs) (directory : path) : list path :=
  filter (λ p, is_published f p = true) (glob_db f directory).

(** [jobs.py:138-142 _retention_prune] *)
Fixpoint prune_each (kept : list path) (l : list dated) : IO unit :=
  match l with
  | [] => ret tt
  | (_, p) :: l' =>
      (if bool_decide (p ∈ kept) then ret tt
       else suppress_os (unlink false p ;; unlink true (with_suffix p ".json"))) ;;
      prune_each kept l'
  end.

(** [jobs.py:103-142 _retention_prune] *)
Definition retention_prune (directory : path) (keep : nat) : IO unit :=
  let* f := look (λ f, f) in
  let* dated := lift_result (with_mtimes f (published_in f directory)) in
  let candidates := sort_by later_first dated in
  prune_each (keep_set keep candidates) candidates.
End retention.

(** ** Stamps in names *)

(** The values a directive of [strptime] may take at the front of a text, in
    the order the regular expression tries them, each with the rest. *)
Definition digits_exactly (n : nat) (l : list ascii) : option (Z * list ascii) :=
  if (n <=? length l)%nat && forallb is_digit (take n l) then Some (digits_value (take n l), drop n l) else None.
Definition between (lo hi : Z) (o : option (Z * list ascii)) : list (Z * list ascii) :=
  match o with Some (v, r) => if (lo <=? v) && (v <=? hi) then [(v, r)] else [] | None => [] end.
(** Two digits in a range, else one. *)
Definition one_or_two (lo hi low1 : Z) (l : list ascii) : list (Z * list ascii) :=
  between lo hi (digits_exactly 2 l) ++ between low1 9 (digits_exactly 1 l).
Definition dir_Y (l : list ascii) : list (Z * list ascii) := between 0 9999 (digits_exactly 4 l).
Definition dir_m := one_or_two 1 12 1.
(** [%d] also takes a space and a digit. *)
Definition dir_d (l : list ascii) : list (Z * list ascii) :=
  one_or_two 1 31 1 l ++ match l with c :: l' => if bool_decide (c = " "%char) then between 1 9 (digits_exactly 1 l') else [] | [] => [] end.
Definition dir_H := one_or_two 0 23 0.
Definition dir_M := one_or_two 0 59 0.
Definition dir_S := one_or_two 0 61 0.
(** [%f]: one to six digits, as many as possible, padded to microseconds. *)
Definition dir_f (l : list ascii) : list (Z * list ascii) :=
  concat (map (λ n, match digits_exactly n l with
    | Some (v, r) => [(v * 10 ^ Z.of_nat (6 - n), r)] | None => [] end) [6; 5; 4; 3; 2; 1]%nat).
Definition literal (c : ascii) (l : list ascii) : list (Z * list ascii) :=
  match l with d :: l' => if bool_decide (py_lower d = py_lower c) then [(0, l')] else [] | [] => [] end.

(** The values of the directives of a format in a text, the first way the
    expression matches. *)
Fixpoint match_format (ds : list (list ascii → list (Z * list ascii))) (l : list ascii) : option (list Z * list ascii) :=
  match ds with
  | [] => Some ([], l)
  | d :: ds' =>
      (fix first (alts : list (Z * list ascii)) : option (list Z * list ascii) :=
         match alts with
         | [] => None
         | (v, r) :: alts' => match match_format ds' r with Some (vs, r') => Some (v :: vs, r') | None => first alts' end
         end) (d l)
  end.

(** [jobs.py:66-66 _STAMP_FORMAT] *)
Definition STAMP_FORMAT : list (list ascii → list (Z * list ascii)) :=
  [dir_Y; dir_m; dir_d; literal "T"; dir_H; dir_M; dir_S; dir_f; literal "Z"].
(** [jobs.py:84-90 _snapshot_stamp] A leap second, a day its month lacks, text
    left over and the year 0 are all a [ValueError]. *)
Definition snapshot_stamp (p : path) : option Z :=
  let nm := removeprefix "openchronicle-" (py_stem (path_name p)) in
  match match_format STAMP_FORMAT (default [] (head (split_at "-"%char [] (chars nm)))) with
  | Some ([y; m; d; _; hh; mm; ss; us; _], []) =>
      if valid_date y m d && (ss <? 60) then Some (day_number y m d * DAY + hh * HOUR + mm * MINUTE + ss * SECOND + us) else None
  | _ => None
  end.

(** [(stamp, path) <= (stamp', path')]: paths of one directory compare by
    name. *)
Definition dated_leb (a b : dated) : bool :=
  (a.1 <? b.1) || (a.1 =? b.1) && str_leb (path_name a.2) (path_name b.2).
(** [jobs.py:93-100 _published_snapshots] *)
Definition published_snapshots (scan : fs → path → list string) (f : fs) (directory : path) : list dated :=
  sort_by dated_leb (omap (λ p, match snapshot_stamp p with
    | Some t => if is_published f p then Some (t, p) else None
    | None => None end) (glob_db scan f directory)).

(** [jobs.py:248-261 _select_for_push] *)
Definition select_for_push (published : list dated) : list path :=
  let newest_first := rev published in
  let chosen := keep_set CLOUD_WINDOW newest_first in
  filter (λ p, p ∈ chosen) (map snd published).

Example stamp_forms : map (λ n, snapshot_stamp ["d"; n]%string)
    ["openchronicle-20240102T030405000006Z-abc.db"; "openchronicle-20240230T030405000006Z-a.db"; "x.db"]%string
  = [Some (day_number 2024 1 2 * DAY + 3 * HOUR + 4 * MINUTE + 5 * SECOND + 6); None; None].
Proof. vm_compute. reflexivity. Qed.
