(* ===== verification/SnapshotProps.v ===== *)
(** * Properties of retention and of the push selection

    The newest snapshots and the newest of each recent day survive a prune,
    whatever deletions fail; nothing else but superseded snapshots is touched. *)

From S2P Require Import Prelude PyStr PyText TextProps Domain DateTime FileSystem BackupProps Snapshots.
Local Open Scope Z_scope.
Local Open Scope prog_scope.

Definition times_descend : list dated → Prop := StronglySorted (λ a b, b.1 ≤ a.1).
Definition days_of (l : list dated) : gset Z := list_to_set (map (λ x, day_of x.1) l).

Lemma StronglySorted_impl {A} (R R' : relation A) l : (∀ a b, R a b → R' a b) → StronglySorted R l → StronglySorted R' l.
Proof.
  intros HR. induction 1 as [|a l Hl IH Ha]; constructor; [done|]. eapply Forall_impl; [exact Ha|]. auto.
Qed.

Lemma day_of_mono a b : a ≤ b → day_of a ≤ day_of b.
Proof. intros H. unfold day_of. apply Z.div_le_mono; [|done]. unfold DAY, HOUR, MINUTE, SECOND. lia. Qed.

(** ** The newest of each day *)

Lemma newest_per_day_elem days l d p :
  (d, p) ∈ newest_per_day days l → ∃ pre t post, l = pre ++ (t, p) :: post ∧ day_of t = d ∧ d ∉ days ∧ d ∉ days_of pre.
Proof.
  revert days. induction l as [|[t q] l IH]; intros days; simpl; [by intros H%elem_of_nil|].
  case_bool_decide as Hd.
  - intros (pre&t'&post&->&<-&Hn&Hpre)%IH. exists ((t, q) :: pre), t', post. split; [done|]. split; [done|]. split; [done|].
    unfold days_of in *. simpl. rewrite elem_of_union, elem_of_singleton. intros [E|H]; [|done]. by rewrite E in Hn.
  - intros [[= -> ->]|(pre&t'&post&->&<-&Hn&Hpre)%IH]%elem_of_cons.
    + exists [], t, l. split; [done|]. split; [done|]. split; [done|]. unfold days_of. set_solver.
    + exists ((t, q) :: pre), t', post. split; [done|]. split; [done|]. split; [set_solver|].
      unfold days_of in *. simpl. set_solver.
Qed.

Lemma newest_per_day_in days pre t p post :
  day_of t ∉ days → day_of t ∉ days_of pre → (day_of t, p) ∈ newest_per_day days (pre ++ (t, p) :: post).
Proof.
  revert days. induction pre as [|[u q] pre IH]; intros days Hd Hp; simpl.
  - rewrite bool_decide_eq_false_2 by done. left.
  - unfold days_of in Hp. simpl in Hp. rewrite elem_of_union, elem_of_singleton in Hp.
    case_bool_decide; [apply IH; [done|]; unfold days_of; tauto|]. right. apply IH; [set_solver|]. unfold days_of. tauto.
Qed.

Lemma newest_per_day_days days l : NoDup (map fst (newest_per_day days l)) ∧ ∀ d, d ∈ map fst (newest_per_day days l) → d ∉ days.
Proof.
  revert days. induction l as [|[t q] l IH]; intros days; simpl; [by split; [constructor|intros d H%elem_of_nil]|].
  case_bool_decide as Hd; [apply IH|]. simpl. destruct (IH (day_of t :: days)) as [Hn Hi]. split.
  - constructor; [|done]. intros H. apply Hi in H. set_solver.
  - intros d [->|H]%elem_of_cons; [done|]. apply Hi in H. set_solver.
Qed.

Lemma later_first_total a b : later_first a b = false → later_first b a = true.
Proof. unfold later_first. rewrite Z.leb_le, Z.leb_gt. lia. Qed.
Lemma later_first_trans a b c : later_first a b = true → later_first b c = true → later_first a c = true.
Proof. unfold later_first. rewrite !Z.leb_le. lia. Qed.
Lemma later_first_sorted l : times_descend (sort_by later_first l).
Proof.
  eapply StronglySorted_impl; [|apply sort_by_strongly_sorted; [apply later_first_total|apply later_first_trans]].
  intros a b H. by apply Z.leb_le in H.
Qed.

(** ** What is kept *)

Lemma keep_newest keep pre x post : (length pre < keep)%nat → x.2 ∈ keep_set keep (pre ++ x :: post).
Proof.
  intros Hl. unfold keep_set. apply elem_of_app. left. apply list_elem_of_fmap_2.
  rewrite take_app_ge by lia. apply elem_of_app. right. destruct (keep - length pre)%nat eqn:E; [lia|]. left.
Qed.

Lemma days_le_size (l : list Z) (s : gset Z) : NoDup l → (∀ d, d ∈ l → d ∈ s) → (length l ≤ size s)%nat.
Proof.
  intros Hl Hs. rewrite <- (size_list_to_set (C := gset Z) l) by done. apply subseteq_size. intros d Hd.
  apply elem_of_list_to_set in Hd. auto.
Qed.

(** The newest snapshot of a day is kept when fewer than [keep] days after it
    have snapshots. *)
Lemma keep_daily keep pre t p post :
  times_descend (pre ++ (t, p) :: post) → day_of t ∉ days_of pre → (size (days_of pre) < keep)%nat →
  p ∈ keep_set keep (pre ++ (t, p) :: post).
Proof.
  intros Hs Hd Hsz. unfold keep_set. apply elem_of_app. right.
  set (l := pre ++ (t, p) :: post) in *. set (srt := sort_by later_first (newest_per_day [] l)).
  assert (Hin : (day_of t, p) ∈ srt) by (apply elem_of_sort_by, newest_per_day_in; [apply not_elem_of_nil|done]).
  apply list_elem_of_split in Hin as (a&b&E).
  assert (Hnd : NoDup (map fst srt)).
  { unfold srt. rewrite sort_by_perm. apply newest_per_day_days. }
  assert (Hdesc : times_descend srt) by apply later_first_sorted.
  assert (length a ≤ size (days_of pre))%nat as Hla.
  { rewrite <- (length_map fst a). apply days_le_size.
    - rewrite E, map_app in Hnd. by apply NoDup_app in Hnd as [? _].
    - intros d Hda. rewrite E, map_app in Hnd. apply NoDup_app in Hnd as (_&Hdis&_).
      assert (d ≠ day_of t) as Hne by (intros ->; apply (Hdis _ Hda); left).
      apply list_elem_of_fmap in Hda as ([d' q]&->&Hx). simpl in *.
      assert (day_of t ≤ d') as Hle.
      { rewrite E in Hdesc. exact (StronglySorted_app_1_elem_of _ _ _ _ (day_of t, p) Hdesc Hx (list_elem_of_here _ _)). }
      assert ((d', q) ∈ srt) as Hq by (rewrite E; apply elem_of_app; by left).
      apply elem_of_sort_by, newest_per_day_elem in Hq as (pre'&t'&post'&El&<-&_&_).
      assert ((t', q) ∈ l) as Hl by (rewrite El; apply elem_of_app; right; left).
      unfold l in Hl. apply elem_of_app in Hl as [Hl|[[= <- <-]|Hl]%elem_of_cons]; [|done|].
      + unfold days_of. apply elem_of_list_to_set, list_elem_of_fmap. by exists (t', q).
      + unfold times_descend, l in Hs. apply StronglySorted_app_1_r, StronglySorted_inv in Hs as [_ Hf].
        rewrite Forall_forall in Hf. pose proof (Hf _ Hl) as Ht. simpl in Ht.
        apply day_of_mono in Ht. lia. }
  apply (list_elem_of_fmap_2 snd _ (day_of t, p)). rewrite E. rewrite take_app_ge by lia. apply elem_of_app. right.
  destruct (keep - length a)%nat eqn:Ek; [lia|]. left.
Qed.

Lemma keep_set_length keep l : (length (keep_set keep l) ≤ 2 * keep)%nat.
Proof. unfold keep_set. rewrite length_app, !length_map, !length_take. lia. Qed.

(** ** Names of published snapshots *)

Lemma splitext_join l a e : splitext l = (a, e) → l = a ++ e.
Proof.
  unfold splitext. destruct (span_chars _ (rev l)) as [ext rest] eqn:Hs.
  pose proof (span_chars_spec (λ c, negb (is_dot c)) (rev l)) as (H1&_&H3). rewrite Hs in H1, H3. simpl in *.
  destruct rest as [|c before]; [intros [= <- <-]; by rewrite app_nil_r|].
  destruct (forallb is_dot before); intros [= <- <-]; [by rewrite app_nil_r|].
  apply (f_equal (@rev _)) in H1. rewrite rev_involutive, rev_app_distr in H1. simpl in H1.
  apply negb_false_iff, bool_decide_eq_true in H3. subst c. by rewrite <- app_assoc in H1.
Qed.

Lemma db_name n : py_suffix n = ".db"%string → n = (py_stem n +:+ ".db")%string.
Proof.
  unfold py_suffix, py_stem. destruct (splitext (chars n)) as [a e] eqn:Hn. simpl. intros He. apply splitext_join in Hn.
  apply chars_inj. rewrite chars_app, chars_of_chars. rewrite Hn. f_equal. rewrite <- He. by rewrite chars_of_chars.
Qed.

Section prune.
Context (scan : fs → path → list string) (mtime : fs → path → result exn Z) (directory : path).

Lemma published_elem f p : p ∈ published_in scan f directory →
  ∃ n, p = directory ++ [n] ∧ n ∈ scan f directory ∧ n = (py_stem n +:+ ".db")%string ∧
    with_suffix p ".json" = directory ++ [py_stem n +:+ ".json"]%string ∧ is_file f (with_suffix p ".json") = true.
Proof.
  unfold published_in, glob_db. intros [Hp H]%list_elem_of_filter. apply list_elem_of_fmap in H as (n&->&Hn).
  apply list_elem_of_filter in Hn as [_ Hn]. unfold is_published in Hp. apply andb_true_iff in Hp as [Hs Hf].
  apply bool_decide_eq_true in Hs. rewrite path_name_app in Hs. exists n. split; [done|]. split; [done|].
  split; [by apply db_name|]. split; [|done]. unfold with_suffix, with_name. by rewrite path_name_app, parent_app.
Qed.

Lemma published_apart f p q : p ∈ published_in scan f directory → q ∈ published_in scan f directory →
  q ≠ with_suffix p ".json" ∧ (p ≠ q → with_suffix q ".json" ≠ with_suffix p ".json").
Proof.
  intros (n&->&_&En&Ej&_)%published_elem (m&->&_&Em&Ek&_)%published_elem. rewrite Ej, Ek. split.
  - intros E. apply app_inj_tail in E as [_ E]. rewrite Em in E. apply (f_equal (λ s, rev (chars s))) in E.
    rewrite !chars_app, !rev_app_distr in E. discriminate E.
  - intros Hne E. apply Hne. apply app_inj_tail in E as [_ E]. rewrite En, Em. do 3 f_equal.
    apply (f_equal chars) in E. rewrite !chars_app in E. apply app_inv_tail in E. symmetry. by apply chars_inj.
Qed.

Lemma published_NoDup f : NoDup (scan f directory) → NoDup (published_in scan f directory).
Proof.
  intros H. unfold published_in, glob_db. apply NoDup_filter. apply NoDup_fmap; [intros x y E; by apply app_inj_tail in E as [_ ?]|].
  by apply NoDup_filter.
Qed.

Lemma with_mtimes_paths f ps l : with_mtimes mtime f ps = Ok l → map snd l = ps.
Proof.
  revert l. induction ps as [|p ps IH]; intros l; simpl; [by intros [= <-]|].
  destruct (mtime f p) as [t|]; [|done]. simpl. destruct (with_mtimes mtime f ps) as [l'|]; [|done]. simpl.
  intros [= <-]. simpl. by rewrite (IH l').
Qed.

(** Paths a prune of [l] does not touch. *)
Definition spared (kept : list path) (l : list dated) (q : path) : Prop :=
  ∀ p, p ∈ map snd l → p ∉ kept → q ≠ p ∧ q ≠ with_suffix p ".json".

Lemma unlink_spares (I : fs → Prop) b p (Q : path → Prop) (f0 : fs) :
  (∀ q, Q q → q ≠ p) → (∀ f : fs, (∀ q, Q q → f !! q = f0 !! q) → I f) →
  keeps I (λ f : fs, ∀ q, Q q → f !! q = f0 !! q) (unlink b p).
Proof.
  intros Hp HI. apply keeps_io. intros f Hf.
  assert (∀ q, Q q → delete p f !! q = f0 !! q) as Hd.
  { intros q Hq. rewrite lookup_delete_ne; [by apply Hf|]. intros <-. by apply (Hp p). }
  destruct (f !! p) as [[]|]; simpl; split; auto.
Qed.

Lemma prune_spares kept l (f0 : fs) :
  let P := λ f : fs, ∀ q, spared kept l q → f !! q = f0 !! q in
  keeps P P (prune_each kept l).
Proof.
  intros P. assert (∀ l', (∀ x, x ∈ l' → x ∈ l) → keeps P P (prune_each kept l')) as H; [|by apply H].
  induction l' as [|[t p] l' IH]; intros Hin; simpl; [apply keeps_ret|].
  apply keeps_bind; [|intros _; apply IH; intros x Hx; apply Hin; by right].
  case_bool_decide as Hk; [apply keeps_ret|]. apply keeps_suppress.
  assert (p ∈ map snd l) as Hp by (apply (list_elem_of_fmap_2 snd _ (t, p)), Hin; left).
  apply keeps_bind; [|intros _]; apply unlink_spares; auto; intros q Hq; by apply (Hq p).
Qed.

(** When no call fails, what is not kept and is not a directory is gone. *)
Lemma unlink_run b p w : faults w = [] → ∃ w' r, unlink b p w = (w', r) ∧ faults w' = [] ∧
  (∀ q, q ≠ p → files w' !! q = files w !! q) ∧ (files w !! p ≠ Some Dir → files w' !! p = None) ∧
  (files w !! p = Some Dir ∨ files w !! p = None ∧ b = false → r = Raise OSError ∧ files w' = files w) ∧
  (files w !! p ≠ Some Dir → (b = true ∨ files w !! p ≠ None) → r = Ok tt).
Proof.
  intros Hf. unfold unlink, io. rewrite Hf. destruct (files w !! p) as [n|] eqn:Hp.
  - destruct n; eexists _, _; (split; [done|]); simpl; (split; [done|]); (split; [by intros q Hq; rewrite ?lookup_delete_ne|]);
      (split; [try (intros _; apply lookup_delete_eq); try done|]); (split; [by intros [?|[? _]]|done]).
  - eexists _, _. split; [done|]. simpl. split; [done|]. split; [done|]. split; [done|]. split.
    + intros [H|[_ ->]]; done.
    + intros _ [->|H]; done.
Qed.

Lemma prune_removes kept l w :
  faults w = [] → NoDup (map snd l) → (∀ p, p ∈ map snd l → p ∈ published_in scan (files w) directory) →
  (∀ p, p ∈ map snd l → is_Some (files w !! p) ∧ files w !! p ≠ Some Dir) →
  ∀ w' r, prune_each kept l w = (w', r) → ∀ p, p ∈ map snd l → p ∉ kept → files w' !! p = None.
Proof.
  intros Hf Hnd Hpub Hdir.
  assert (∀ l' w1 w' r, faults w1 = [] → NoDup (map snd l') → (∀ p, p ∈ map snd l' → p ∈ map snd l) →
    (∀ p, p ∈ map snd l' → files w1 !! p = files w !! p) → prune_each kept l' w1 = (w', r) →
    (∀ p, p ∈ map snd l' → p ∉ kept → files w' !! p = None) ∧
    (∀ p, p ∈ map snd l → p ∉ map snd l' → files w1 !! p = None → files w' !! p = None)) as Hgo.
  2: { intros w' r Hrun p Hp Hk. destruct (Hgo l w w' r Hf Hnd) as [H _]; auto. }
  clear Hf Hnd. induction l' as [|[t p] l' IH]; intros w1 w' r Hf Hnd Hin Hsame Hrun.
  { injection Hrun as <- <-. split; [by intros p H%elem_of_nil|done]. }
  simpl in Hnd, Hrun. apply NoDup_cons in Hnd as [Hp Hnd].
  assert (∀ w2, faults w2 = [] → (∀ q, q ∈ map snd l → q ≠ p → files w2 !! q = files w1 !! q) →
    (p ∈ kept ∨ files w2 !! p = None) → (files w1 !! p = None → files w2 !! p = None) → prune_each kept l' w2 = (w', r) →
    (∀ q, q ∈ p :: map snd l' → q ∉ kept → files w' !! q = None) ∧
    (∀ q, q ∈ map snd l → q ∉ p :: map snd l' → files w1 !! q = None → files w' !! q = None)) as Hstep.
  { intros w2 Hf2 Hq2 Hp2 Hn2 Hr2. destruct (IH w2 w' r Hf2 Hnd) as [Ha Hb]; [intros q Hq; apply Hin; by right| |done|].
    { intros q Hq. rewrite Hq2; [apply Hsame; by right|apply Hin; by right|]. by intros ->. }
    split.
    - intros q [->|Hq]%elem_of_cons Hk; [|by apply Ha]. destruct Hp2 as [?|Hp2]; [done|]. apply Hb; [apply Hin; left|done|done].
    - intros q Hq [Hne Hnl]%not_elem_of_cons Hn. apply Hb; [done|done|]. by rewrite Hq2. }
  case_bool_decide as Hk.
  - unfold bind, ret in Hrun. apply (Hstep w1); auto.
  - assert (p ∈ map snd l) as Hpl by (apply Hin; left).
    destruct (Hdir p Hpl) as [[n Hn] Hd]. rewrite <- (Hsame p) in Hn, Hd by left.
    destruct (unlink_run false p w1 Hf) as (w2&r2&H2&Hf2&Ho2&Hg2&_&Hok2). specialize (Hg2 Hd).
    rewrite Hok2 in H2 by (first [done|right; by rewrite Hn]).
    destruct (unlink_run true (with_suffix p ".json") w2 Hf2) as (w3&r3&H3&Hf3&Ho3&Hg3&Hbad3&Hok3).
    assert (∀ q, q ∈ map snd l → files w3 !! q = files w2 !! q) as Ho.
    { intros q Hq. apply Ho3. by apply (published_apart (files w)); apply Hpub. }
    assert (suppress_os (unlink false p ;; unlink true (with_suffix p ".json")) w1 = (w3, Ok tt)) as Hs.
    { unfold suppress_os, try_catch, bind. rewrite H2, H3. destruct r3 as [[]|x]; [done|].
      destruct (files w2 !! with_suffix p ".json") as [[]|]; try by specialize (Hok3 ltac:(done) (or_introl eq_refl)).
      destruct Hbad3 as [[= ->] _]; [by left|done]. }
    unfold bind at 1 in Hrun. rewrite Hs in Hrun. apply (Hstep w3); [done| | | |done].
    + intros q Hq Hne. rewrite Ho by done. by apply Ho2.
    + right. by rewrite Ho.
    + intros _. by rewrite Ho.
Qed.
End prune.

(** C32. A prune never loses a snapshot the rule keeps.  Whatever deletions fail,
    in every state the files pass through: the [keep] newest published snapshots
    and, for each of the [keep] latest days that have one, the newest of the day
    are there with their manifests, and nothing but a superseded snapshot and
    its manifest is touched.  The rule keeps at most twice [keep], and when no
    call fails every other published snapshot is gone.  If a time cannot be
    read, nothing is deleted. *)
Theorem retention_keeps (scan : fs → path → list string) (mtime : fs → path → result exn Z) (directory : path)
    (keep : nat) (w : world) :
  NoDup (scan (files w) directory) →
  ∃ w' r new, retention_prune scan mtime directory keep w = (w', r) ∧ seen w' = new ++ seen w ∧
  match with_mtimes mtime (files w) (published_in scan (files w) directory) with
  | Raise e => r = Raise e ∧ files w' = files w ∧ new = []
  | Ok dated =>
      let l := sort_by later_first dated in
      (length (keep_set keep l) ≤ 2 * keep)%nat ∧
      Forall (λ f : fs,
        (∀ q, (∀ p, p ∈ published_in scan (files w) directory → p ∉ keep_set keep l → q ≠ p ∧ q ≠ with_suffix p ".json") →
           f !! q = files w !! q) ∧
        (∀ pre t p post, l = pre ++ (t, p) :: post →
           (length pre < keep)%nat ∨ day_of t ∉ days_of pre ∧ (size (days_of pre) < keep)%nat →
           f !! p = files w !! p ∧ f !! with_suffix p ".json" = files w !! with_suffix p ".json")) (files w' :: new) ∧
      (faults w = [] → (∀ p, p ∈ map snd l → is_Some (files w !! p) ∧ files w !! p ≠ Some Dir) →
       ∀ p, p ∈ map snd l → p ∉ keep_set keep l → files w' !! p = None)
  end.
Proof.
  intros Hscan. unfold retention_prune, look, gets, bind, lift_result.
  destruct (with_mtimes mtime (files w) (published_in scan (files w) directory)) as [dated|e] eqn:Hd.
  2: { exists w, (Raise e), []. done. }
  set (l := sort_by later_first dated). apply with_mtimes_paths in Hd.
  assert (Hl : ∀ p, p ∈ map snd l ↔ p ∈ published_in scan (files w) directory).
  { intros p. rewrite <- Hd. unfold l. by rewrite sort_by_perm. }
  destruct (prune_spares (keep_set keep l) l (files w) w ltac:(by intros q _)) as (w'&r&Hrun&_&(new&Hs&Hnew)&Hr).
  exists w', r, new. split; [done|]. split; [done|]. split; [apply keep_set_length|].
  assert (∀ q, spared (keep_set keep l) l q → files w' !! q = files w !! q) as Hw' by (destruct r; apply Hr).
  split.
  - apply (Forall_cons_2 (λ f : fs, ∀ q, spared (keep_set keep l) l q → f !! q = files w !! q) _ _ Hw') in Hnew.
    eapply Forall_impl; [exact Hnew|]. intros f Hf. split.
    { intros q Hq. apply Hf. intros p Hp. by apply Hq, Hl. }
    intros pre t p post El Hkeep.
    assert (p ∈ keep_set keep l) as Hk.
    { rewrite El. destruct Hkeep as [Hlt|[Hday Hsz]]; [by apply (keep_newest keep pre (t, p))|].
      apply keep_daily; [|done|done]. rewrite <- El. apply later_first_sorted. }
    assert (p ∈ map snd l) as Hp by (rewrite El, map_app; apply elem_of_app; right; left).
    split; apply Hf; intros q Hq Hnk.
    + split; [by intros ->|]. apply (published_apart scan directory (files w)); by apply Hl.
    + assert (p ≠ q) as Hne by (by intros ->).
      destruct (published_apart scan directory (files w) p q) as [H1 H2]; [by apply Hl..|].
      destruct (published_apart scan directory (files w) q p) as [H3 H4]; [by apply Hl..|].
      split; [by intros E; apply H1|]. apply H4. by intros ->.
  - intros Hf Hdir p Hp Hk. eapply (prune_removes scan directory (keep_set keep l) l w Hf); [|intros q; apply Hl|done|done|done|done].
    unfold l. rewrite sort_by_perm, Hd. by apply published_NoDup.
Qed.

(** ** The push *)

Lemma dated_leb_total a b : dated_leb a b = false → dated_leb b a = true.
Proof.
  unfold dated_leb. rewrite orb_false_iff, Z.ltb_ge. intros [H1 H2]. apply orb_true_iff.
  destruct (Z.eq_dec a.1 b.1) as [E|E]; [|left; apply Z.ltb_lt; lia]. right. rewrite E, Z.eqb_refl in *. simpl in *.
  destruct (str_leb_total (path_name b.2) (path_name a.2)); congruence.
Qed.
Lemma dated_leb_time a b : dated_leb a b = true → a.1 ≤ b.1.
Proof. unfold dated_leb. rewrite orb_true_iff, andb_true_iff, Z.ltb_lt, Z.eqb_eq. lia. Qed.
Lemma dated_leb_trans a b c : dated_leb a b = true → dated_leb b c = true → dated_leb a c = true.
Proof.
  unfold dated_leb. rewrite !orb_true_iff, !andb_true_iff, !Z.ltb_lt, !Z.eqb_eq.
  intros [?|[? ?]] [?|[? ?]]; try (left; lia). right. split; [lia|]. by eapply str_leb_trans.
Qed.

Lemma StronglySorted_reverse {A} (R : relation A) l : StronglySorted R l → StronglySorted (λ a b, R b a) (rev l).
Proof.
  induction 1 as [|a l Hl IH Ha]; simpl; [constructor|].
  apply StronglySorted_app_2; [|exact IH|constructor; [constructor|apply Forall_nil_2]].
  intros x y Hx ->%list_elem_of_singleton. rewrite elem_of_rev in Hx. rewrite Forall_forall in Ha. by apply Ha.
Qed.

Section push.
Context (scan : fs → path → list string) (f : fs) (directory : path).

Lemma snapshots_sorted : StronglySorted (λ a b, a.1 ≤ b.1) (published_snapshots scan f directory).
Proof.
  unfold published_snapshots. eapply StronglySorted_impl; [|apply sort_by_strongly_sorted; [apply dated_leb_total|apply dated_leb_trans]].
  intros a b. apply dated_leb_time.
Qed.

Lemma snapshots_elem t p : (t, p) ∈ published_snapshots scan f directory ↔
  p ∈ published_in scan f directory ∧ snapshot_stamp p = Some t.
Proof.
  unfold published_snapshots, published_in. rewrite elem_of_sort_by, list_elem_of_omap, list_elem_of_filter. split.
  - intros (q&Hq&H). destruct (snapshot_stamp q) as [u|] eqn:Hs; [|done]. destruct (is_published f q) eqn:Hp; [|done].
    injection H as -> ->. done.
  - intros [[Hp Hg] Hs]. exists p. by rewrite Hs, Hp.
Qed.

Lemma omap_paths_NoDup (g : path → option Z) (ps : list path) : NoDup ps →
  NoDup (map snd (omap (λ p, match g p with Some t => if is_published f p then Some (t, p) else None | None => None end) ps)).
Proof.
  induction 1 as [|p ps Hp Hnd IH]; simpl; [constructor|]. destruct (g p) as [t|]; [|done]. destruct (is_published f p); [|done].
  simpl. constructor; [|done]. intros ([u q]&->&H)%list_elem_of_fmap. apply list_elem_of_omap in H as (q'&Hq'&H).
  destruct (g q'), (is_published f q'); try done. injection H as -> ->. done.
Qed.

Lemma snapshots_NoDup : NoDup (scan f directory) → NoDup (map snd (published_snapshots scan f directory)).
Proof.
  intros H. unfold published_snapshots. rewrite sort_by_perm. apply omap_paths_NoDup.
  unfold glob_db. apply NoDup_fmap; [intros x y E; by apply app_inj_tail in E as [_ ?]|]. by apply NoDup_filter.
Qed.
End push.

(** A push holds the newest snapshots and one per recent day.  Of the
    published snapshots of a directory, the selection takes at most six, in
    their order from the oldest on, and always the newest one, the last three,
    and the newest of each of the three latest days that have one. *)
Theorem push_selection (scan : fs → path → list string) (f : fs) (directory : path) :
  NoDup (scan f directory) →
  let l := published_snapshots scan f directory in
  let s := select_for_push l in
  s `sublist_of` map snd l ∧ (length s ≤ 6)%nat ∧ StronglySorted (λ a b, a.1 ≤ b.1) l ∧
  (∀ p, p ∈ s → is_published f p = true ∧ is_Some (snapshot_stamp p)) ∧
  ∀ pre t p post, l = pre ++ (t, p) :: post →
    (length post < 3)%nat ∨ day_of t ∉ days_of post ∧ (size (days_of post) < 3)%nat → p ∈ s ∧ (post = [] → last s = Some p).
Proof.
  intros Hscan l s. pose proof (snapshots_NoDup scan f directory Hscan) as Hnd. fold l in Hnd.
  pose proof (snapshots_sorted scan f directory) as Hsort. fold l in Hsort.
  assert (Hsub : s `sublist_of` map snd l) by (unfold s, select_for_push; apply sublist_filter).
  split; [done|]. split; [|split; [done|split]].
  - assert (s ⊆+ keep_set CLOUD_WINDOW (rev l)) as Hk.
    { apply NoDup_submseteq; [by eapply sublist_NoDup|]. intros p. unfold s, select_for_push. by intros [? _]%list_elem_of_filter. }
    apply submseteq_length in Hk. pose proof (keep_set_length CLOUD_WINDOW (rev l)). unfold CLOUD_WINDOW in *. lia.
  - intros p Hp. assert (p ∈ map snd l) as Hl by (by eapply elem_of_sublist).
    apply list_elem_of_fmap in Hl as ([t q]&->&Hq). apply snapshots_elem in Hq as [Hq Hst]. simpl.
    apply list_elem_of_filter in Hq as [Hq _]. split; [done|by eexists].
  - intros pre t p post El Hor.
    assert (rev l = rev post ++ (t, p) :: rev pre) as Er by (rewrite El, rev_app_distr; simpl; by rewrite <- app_assoc).
    assert (days_of (rev post) = days_of post) as Ed.
    { apply set_eq. intros d. unfold days_of. rewrite !elem_of_list_to_set, !list_elem_of_fmap. by setoid_rewrite elem_of_rev. }
    assert (p ∈ keep_set CLOUD_WINDOW (rev l)) as Hk.
    { rewrite Er. destruct Hor as [Hlt|[Hd Hsz]].
      - apply (keep_newest _ _ (t, p)). by rewrite length_rev.
      - apply keep_daily; rewrite ?Ed; [|done|done]. rewrite <- Er. exact (StronglySorted_reverse _ _ Hsort). }
    assert (p ∈ s) as Hs.
    { unfold s, select_for_push. apply list_elem_of_filter. split; [done|]. rewrite El, map_app. apply elem_of_app. right. left. }
    split; [done|]. intros ->. unfold s, select_for_push. rewrite El, map_app, filter_app. simpl.
    rewrite filter_cons_True; [rewrite filter_nil; by rewrite last_snoc|]. by rewrite El in Hk.
Qed.
