(* ===== verification/Jobs.v ===== *)
(** * The maintenance jobs

    The handlers of [maintenance/jobs.py] and the offsite configuration of
    [config/offsite.py], over the snapshot catalog and the embedding service.
    The integrity check, the vacuum and the child processes are outside: what
    they answer are arguments.  Log lines are left out. *)

From S2P Require Import Prelude PyStr PyText Sha256 Domain DateTime PyNum PyRepr Sql Store Transactions Port FileSystem.
From S2P Require Import Backups Snapshots Embedding GitLog.
Local Open Scope Z_scope.
Local Open Scope prog_scope.

(** ** The offsite configuration *)

(** [offsite.py:22-29 CloudBackupConfig] *)
Record CloudBackupConfig := mkCloud { cloud_enabled : bool; remote : string; recipients : list string; problem : option string }.

Definition is_remote_name (c : ascii) : bool := is_alnum_ascii c || bool_decide (c ∈ chars "_.-").
Definition is_remote_path (c : ascii) : bool := is_remote_name c || bool_decide (c = "/"%char).
(** [offsite.py:19-19 _REMOTE_RE] *)
Definition remote_form (l : list ascii) : bool :=
  let (name, rest) := span_chars is_remote_name l in
  negb (bool_decide (name = [])) &&
  match rest with c :: p => bool_decide (c = ":"%char) && forallb is_remote_path p | [] => false end.

(** [offsite.py:35-57 read_cloud_backup_config] *)
Definition read_cloud_backup_config (environ : env) : CloudBackupConfig :=
  let remote := py_strip (default "" (environ !! "OC_CLOUD_REMOTE"))%string in
  let parts := map py_strip (py_split_on ","%char (default "" (environ !! "OC_CLOUD_AGE_RECIPIENTS")))%string in
  let recipients := filter (λ p, p ≠ ""%string) parts in
  if bool_decide (remote = "")%string then mkCloud false "" recipients None
  else if starts_with "-" remote || negb (remote_form (chars remote)) then
    mkCloud true "" recipients (Some "OC_CLOUD_REMOTE must be an rclone remote in name:path form, e.g. ocdrop:openchronicle/nas"%string)
  else if bool_decide (recipients = []) then
    mkCloud true remote [] (Some "OC_CLOUD_AGE_RECIPIENTS is empty while OC_CLOUD_REMOTE is set; refusing to push unencrypted"%string)
  else mkCloud true remote recipients None.

(** ** The container the jobs act on *)

Record container (S E : Type) := mkContainer {
  c_service : option (svc S E);
  c_world : world;
  c_degraded : bool;
  c_commands : list (list string);
}.
Arguments mkContainer {S E}. Arguments c_service {S E}. Arguments c_world {S E}. Arguments c_degraded {S E}. Arguments c_commands {S E}.

Section jobs.
Context {S E : Type} `{HF : FTS5} `{!MemoryStorePort S} `{!EmbeddingPort E}.
Context (open_db : string → option image) (scan : fs → path → list string) (mtime : fs → path → result exn Z) (cat : catalog).
Context (utc_now : nat → Z).
Notation Job A := (SE (container S E) exn A).

Definition on_files {A} (m : IO A) : Job A := λ c,
  let (w, r) := m (c_world c) in (mkContainer (c_service c) w (c_degraded c) (c_commands c), r).
Definition set_degraded (b : bool) (c : container S E) : container S E := mkContainer (c_service c) (c_world c) b (c_commands c).

(** [jobs.py:70-71 _auto_backup_dir] *)
Definition auto_backup_dir : path := root cat ++ ["auto"%string].

(** [jobs.py:145-158 db_backup] *)
Definition db_backup (e : snapshot_env) : Job json :=
  on_files (create open_db cat "auto" e) ;;
  on_files (retention_prune scan mtime auto_backup_dir BACKUP_RETENTION) ;;
  ret JNull.

(** [jobs.py:161-167 db_vacuum] *)
Definition db_vacuum (e : snapshot_env) (vacuum : result exn unit) : Job json :=
  db_backup e ;;
  lift_result vacuum ;;
  ret JNull.

(** [jobs.py:170-187 db_integrity_check] *)
Definition db_integrity_check (e : snapshot_env) (check : result exn string) : Job json :=
  let* answer := lift_result check in
  if negb (bool_decide (answer = "ok"%string)) then
    try_catch (db_backup e ;; ret tt) (λ _, ret tt) ;;
    modify (set_degraded true) ;;
    raise (RuntimeError ("integrity_check failed: " +:+ answer))
  else
    let* was := gets c_degraded in
    (if (was : bool) then modify (set_degraded false) else ret tt) ;;
    ret JNull.

Definition on_service {A} (m : SE (svc S E) exn A) (sv : svc S E) : Job A := λ c,
  let (sv', r) := m sv in (mkContainer (Some sv') (c_world c) (c_degraded c) (c_commands c), r).

(** [jobs.py:190-233 embedding_backfill] *)
Definition embedding_backfill : Job json :=
  let* service := gets c_service in
  match service with
  | None => ret JNull
  | Some sv =>
      let* result := on_service (generate_missing utc_now None false) sv in
      let summary := [("generated", JInt (generated result)); ("failed", JInt (failed result));
        ("tombstoned", JInt (tombstoned result))]%string in
      if skipped result then ret (JObj (summary ++ [("skipped"%string, JInt 1)]))
      else if bool_decide (outcome result = "failed"%string) then raise (RuntimeError "embedding_backfill: provider down?")
      else ret (JObj summary)
  end.

(** [jobs.py:236-245 git_onboard_resync] *)
Definition git_onboard_resync : Job json :=
  ret (JObj [("skipped", JInt 1); ("reason", JStr "not implemented yet")]%string).

(** ** The push *)

(** [jobs.py:54-54 _CLOUD_TIMEOUT_SECONDS] *)
Definition CLOUD_TIMEOUT : Z := 900 * SECOND.
(** [jobs.py:58-58 _CLOUD_SOURCE_MAX_AGE] *)
Definition CLOUD_SOURCE_MAX_AGE : Z := 26 * HOUR.
(** [jobs.py:59-59 _CLOUD_CLOCK_SKEW] *)
Definition CLOUD_CLOCK_SKEW : Z := 5 * MINUTE.
(** [jobs.py:61-61 _CLOUD_TMP_PREFIX] *)
Definition CLOUD_TMP_PREFIX : string := "cloud-push-".

(** A child process: what it answers given the commands run before it, its exit
    code and its error text, or that the time ran out while it ran. *)
Context (child : list (list string) → list string → result exn (Z * list ascii)).

Definition path_text (p : path) : string := ("/" +:+ py_join "/" p)%string.

(** [jobs.py:279-311 _run_captured] *)
Definition run_captured (argv : list string) : Job (Z * list ascii) := λ c,
  (mkContainer (c_service c) (c_world c) (c_degraded c) (c_commands c ++ [argv]), child (c_commands c) argv).

(** [jobs.py:318-336 _rclone_argv] *)
Definition rclone_argv (source : path) (remote : string) : list string :=
  ["rclone"; "copy"; "--ignore-existing"; "--transfers"; "1"; "--contimeout"; "30s"; "--stats"; "0"; "--ask-password=false";
   "--log-level"; "INFO"; "--"; path_text source;
   of_chars (rev (lstrip_chars (λ c, bool_decide (c = "/"%char)) (rev (chars remote)))) +:+ "/"]%string.
(** [jobs.py:403-409 cloud_backup] *)
Definition age_argv (recipients : list string) (out source : path) : list string :=
  "age"%string :: concat (map (λ k, ["-r"%string; k]) recipients)
  ++ ["-o"%string; path_text (out ++ [(path_name source +:+ ".age")%string]); path_text source].

Fixpoint has_prefix (p q : path) : bool :=
  match p, q with
  | [], _ => true
  | a :: p', b :: q' => bool_decide (a = b) && has_prefix p' q'
  | _ :: _, [] => false
  end.
Definition rmtree (p : path) : IO unit := io (update (filter (λ kv, has_prefix p kv.1 = false))).

(** [jobs.py:264-276 _sweep_stale_push_dirs] *)
Definition sweep_stale_push_dirs (now : Z) : IO unit :=
  let* f := look (λ f, f) in
  suppress_os
    ((fix each (ns : list string) : IO unit :=
        match ns with
        | [] => ret tt
        | n :: ns' =>
            let p := root cat ++ [n] in
            (if is_dir f p then
               let* t := lift_result (mtime f p) in
               if CLOUD_TIMEOUT <? now - t then suppress_os (rmtree p) else ret tt
             else ret tt) ;;
            each ns'
        end) (filter (λ n, starts_with CLOUD_TMP_PREFIX n = true) (scan f (root cat)))).

(** [jobs.py:393-396 cloud_backup] *)
Definition artifact_of (p : path) : string := ("auto:" +:+ removeprefix "openchronicle-" (py_stem (path_name p)))%string.
Fixpoint verify_each (ps : list path) : Job unit :=
  match ps with
  | [] => ret tt
  | p :: ps' => on_files (verify open_db cat (artifact_of p)) ;; verify_each ps'
  end.
Definition push_files (selected : list path) : list path := concat (map (λ p, [p; with_suffix p ".json"]) selected).
(** [jobs.py:404-411 cloud_backup] *)
Fixpoint encrypt_each (recipients : list string) (out : path) (sources : list path) : Job unit :=
  match sources with
  | [] => ret tt
  | s :: ss =>
      let* (rc, _) := run_captured (age_argv recipients out s) in
      if negb (rc =? 0) then raise (RuntimeError "cloud_backup: age exited") else encrypt_each recipients out ss
  end.
(** [jobs.py:426-428 cloud_backup] *)
Fixpoint log_manifests (ps : list path) : Job unit :=
  match ps with [] => ret tt | _ :: ps' => on_files touch_nothing ;; log_manifests ps' end.

(** [jobs.py:398-420 cloud_backup] *)
Definition push (cfg : CloudBackupConfig) (temp_token : string) (selected : list path) : Job unit :=
  let tmp := root cat ++ [CLOUD_TMP_PREFIX +:+ temp_token]%string in
  let out := tmp ++ ["out"%string] in
  on_files (mkdir_new tmp) ;;
  try_finally
    (on_files (mkdir_new out) ;;
     on_files (mkdir_new (tmp ++ ["cache"%string])) ;;
     encrypt_each (recipients cfg) out (push_files selected) ;;
     let* (rc, _) := run_captured (rclone_argv out (remote cfg)) in
     if negb (rc =? 0) then raise (RuntimeError "cloud_backup: rclone exited") else ret tt)
    (on_files (rmtree tmp)).

(** [jobs.py:339-429 cloud_backup] *)
Definition cloud_backup (environ : env) (euid : Z) (rclone_conf_present : bool) (now : Z) (temp_token : string) : Job json :=
  let cfg := read_cloud_backup_config environ in
  if negb (cloud_enabled cfg) then ret (JObj [("skipped", JInt 1); ("reason", JStr "OC_CLOUD_REMOTE is unset")]%string)
  else match problem cfg with
  | Some _ => raise ValueError
  | None =>
      if euid =? 0 then raise PermissionError
      else if negb rclone_conf_present then raise FileNotFoundError
      else
        on_files (sweep_stale_push_dirs now) ;;
        let* published := on_files (look (λ f, published_snapshots scan f auto_backup_dir)) in
        match last published with
        | None => raise (RuntimeError "cloud_backup: no published snapshot")
        | Some (newest, _) =>
            if now + CLOUD_CLOCK_SKEW <? newest then raise (RuntimeError "cloud_backup: newest snapshot is stamped in the future")
            else if CLOUD_SOURCE_MAX_AGE <? now - newest then raise (RuntimeError "cloud_backup: newest published snapshot is stale")
            else
              let selected := select_for_push published in
              verify_each selected ;;
              push cfg temp_token selected ;;
              log_manifests selected ;;
              ret (JObj [("selected"%string, JInt (Z.of_nat (length selected)))])
        end
  end.
End jobs.
