(* ===== verification/JobProps.v ===== *)
(** * Properties of the maintenance jobs

    What a push that reports success has done, to which files and by which commands,
    and what the loop records of a backfill. *)

From S2P Require Import Prelude PyStr PyText TextProps Sha256 Domain DateTime PyNum PyRepr Sql Store Transactions Port FileSystem.
From S2P Require Import Backups Snapshots SnapshotProps Embedding GitLog Jobs Maintenance.
Local Open Scope Z_scope.
Local Open Scope prog_scope.

(** ** The remote *)

(** A remote is a name, one colon and a path, over letters, digits and the
    characters [_ . -], and slashes in the path; it does not start with a dash. *)
Definition NAME_CHARS : list ascii := chars "abcdefghijklmnopqrstuvwxyzABCDEFGHIJKLMNOPQRSTUVWXYZ0123456789_.-".
Definition plain_remote (s : string) : Prop :=
  ∃ name p, chars s = name ++ ":"%char :: p ∧ name ≠ [] ∧ Forall (.∈ NAME_CHARS) name ∧
    Forall (λ c, c ∈ NAME_CHARS ∨ c = "/"%char) p ∧ starts_with "-" s = false.
Lemma remote_name_chars c : is_remote_name c = true → c ∈ NAME_CHARS.
Proof. intros Hc. apply (bool_decide_unpack _). revert Hc. destruct c as [[] [] [] [] [] [] [] []]; by vm_compute. Qed.

Lemma remote_form_spec l : remote_form l = true →
  ∃ name p, l = name ++ ":"%char :: p ∧ name ≠ [] ∧ Forall (λ c, is_remote_name c = true) name ∧ Forall (λ c, is_remote_path c = true) p.
Proof.
  unfold remote_form. pose proof (span_chars_spec is_remote_name l) as (El&Hn&_).
  destruct (span_chars is_remote_name l) as [name rest]. simpl in *. intros [Hne H]%andb_true_iff.
  destruct rest as [|c p]; [done|]. apply andb_true_iff in H as [Hc Hp]. apply bool_decide_eq_true in Hc. subst c.
  exists name, p. split; [done|]. split; [by intros ->|]. split; [done|]. apply Forall_forall. intros c Hc.
  rewrite forallb_forall in Hp. by apply Hp, list_elem_of_In.
Qed.

Lemma config_usable environ :
  let cfg := read_cloud_backup_config environ in
  cloud_enabled cfg = true → problem cfg = None → plain_remote (remote cfg) ∧ recipients cfg ≠ [].
Proof.
  unfold read_cloud_backup_config. case_bool_decide; [done|].
  destruct (starts_with "-" _) eqn:Hs; [done|]. destruct (remote_form _) eqn:Hf; [|done]. simpl. case_bool_decide; [done|].
  intros _ _. split; [|done]. apply remote_form_spec in Hf as (name&p&E&H1&H2&H3). exists name, p. split_and!; [done..| | |done].
  - eapply Forall_impl; [exact H2|]. apply remote_name_chars.
  - eapply Forall_impl; [exact H3|]. intros c [Hc|Hc%bool_decide_eq_true]%orb_true_iff; [left; by apply remote_name_chars|by right].
Qed.

Section jobs.
Context {S E : Type} `{HF : FTS5} `{!MemoryStorePort S} `{!EmbeddingPort E}.
Context (open_db : string → option image) (scan : fs → path → list string) (mtime : fs → path → result exn Z) (cat : catalog).
Context (utc_now : nat → Z) (child : list (list string) → list string → result exn (Z * list ascii)).
Implicit Types (c : container S E).

(** Every command run so far exited with 0. *)
Definition all_succeeded (cmds : list (list string)) : Prop :=
  ∀ k argv, cmds !! k = Some argv → ∃ err, child (take k cmds) argv = Ok (0, err).

Lemma all_succeeded_snoc cmds argv err :
  all_succeeded cmds → child cmds argv = Ok (0, err) → all_succeeded (cmds ++ [argv]).
Proof.
  intros Hall Hc k a Hk. destruct (decide (k < length cmds)%nat) as [Hlt|Hge].
  - rewrite lookup_app_l in Hk by done. rewrite take_app_le by lia. by apply Hall.
  - assert (k = length cmds) as -> by (apply lookup_lt_Some in Hk; rewrite length_app in Hk; simpl in Hk; lia).
    rewrite lookup_app_r, Nat.sub_diag in Hk by done. injection Hk as <-. rewrite take_app_length. by exists err.
Qed.

(** The commands of a push: a file is encrypted to every recipient, into the
    directory [out]; then that directory is copied, new files only, to the
    destination. *)
Definition age_command (recips : list string) (out source : path) : list string :=
  ["age"%string] ++ concat (map (λ k, ["-r"%string; k]) recips) ++
  ["-o"%string; path_text (out ++ [(path_name source +:+ ".age")%string]); path_text source].
Definition rclone_command (out : path) (destination : string) : list string :=
  ["rclone"; "copy"; "--ignore-existing"; "--transfers"; "1"; "--contimeout"; "30s"; "--stats"; "0"; "--ask-password=false";
   "--log-level"; "INFO"; "--"; path_text out; destination]%string.
Definition push_dir (temp_token : string) : path := root cat ++ [("cloud-push-" +:+ temp_token)%string; "out"%string].
(** A snapshot and its manifest. *)
Definition pair_of (p : path) : list path := [p; with_suffix p ".json"].
(** The remote with exactly one slash at its end. *)
Definition destination_of (remote destination : string) : Prop := ∃ base n,
  chars remote = base ++ repeat "/"%char n ∧ last base ≠ Some "/"%char ∧ chars destination = base ++ ["/"%char].
Definition push_commands (recips : list string) (destination : string) (temp_token : string) (selected : list path) : list (list string) :=
  map (age_command recips (push_dir temp_token)) (concat (map pair_of selected)) ++ [rclone_command (push_dir temp_token) destination].

Definition slash_end (remote : string) : string :=
  (of_chars (rev (lstrip_chars (λ c : ascii, bool_decide (c = "/"%char)) (rev (chars remote)))) +:+ "/")%string.
Lemma destination_slash remote : destination_of remote (slash_end remote).
Proof.
  unfold destination_of, slash_end. set (l := rev (chars remote)).
  assert (∃ n, l = repeat "/"%char n ++ lstrip_chars (λ c : ascii, bool_decide (c = "/"%char)) l ∧
    head (lstrip_chars (λ c : ascii, bool_decide (c = "/"%char)) l) ≠ Some "/"%char) as (n & Hl & Hh).
  { induction l as [|c l (n & IH & Hh)]; [by exists 0%nat|]. simpl. case_bool_decide as Hc; [|exists 0%nat; simpl; split; [done|congruence]].
    exists (Datatypes.S n). simpl. subst c. split; [by f_equal|done]. }
  exists (rev (lstrip_chars (λ c : ascii, bool_decide (c = "/"%char)) l)), n. split_and!.
  - rewrite <-(rev_involutive (chars remote)). fold l. rewrite Hl at 1. rewrite rev_app_distr. f_equal.
    by rewrite List.rev_repeat.
  - rewrite List.rev_alt. fold (reverse (lstrip_chars (λ c : ascii, bool_decide (c = "/"%char)) l)). by rewrite last_reverse.
  - by rewrite chars_app, chars_of_chars.
Qed.

(** A job leaves the commands alone. *)
Lemma on_files_commands {A} (m : IO A) c c' r : on_files m c = (c', r) → c_commands c' = c_commands c.
Proof. unfold on_files. destruct (m (c_world c)). by intros [= <- <-]. Qed.

Lemma encrypt_spec recips out ss c c' r :
  encrypt_each child recips out ss c = (c', r) → all_succeeded (c_commands c) →
  ∃ k, c_commands c' = c_commands c ++ take k (map (age_argv recips out) ss) ∧
    (r = Ok tt → c_commands c' = c_commands c ++ map (age_argv recips out) ss ∧ all_succeeded (c_commands c')).
Proof.
  revert c. induction ss as [|s ss IH]; intros c; simpl.
  { intros [= <- <-] Hall. exists 0%nat. simpl. rewrite app_nil_r. by split. }
  unfold bind, run_captured. destruct (child (c_commands c) (age_argv recips out s)) as [[rc err]|e] eqn:Hc.
  - destruct (rc =? 0) eqn:Hrc; cbn [negb].
    + apply Z.eqb_eq in Hrc. subst rc. intros Hrun Hall.
      destruct (IH _ Hrun) as (k&Hk&Hok); [simpl; by eapply all_succeeded_snoc|]. simpl in *.
      exists (Datatypes.S k). simpl. split; [by rewrite Hk, <- app_assoc|]. intros Hr. destruct (Hok Hr) as [H1 H2].
      split; [by rewrite H1, <- app_assoc|done].
    + intros [= <- <-] Hall. exists 1%nat. simpl. by rewrite take_0.
  - intros [= <- <-] Hall. exists 1%nat. simpl. by rewrite take_0.
Qed.

Lemma push_spec cfg temp_token selected c c' r :
  push cat child cfg temp_token selected c = (c', r) → c_commands c = [] →
  c_commands c' `prefix_of` push_commands (recipients cfg) (slash_end (remote cfg)) temp_token selected ∧
  (r = Ok tt → c_commands c' = push_commands (recipients cfg) (slash_end (remote cfg)) temp_token selected ∧ all_succeeded (c_commands c')).
Proof.
  intros Hrun Hc. unfold push in Hrun.
  assert ((root cat ++ [(CLOUD_TMP_PREFIX +:+ temp_token)%string]) ++ ["out"%string] = push_dir temp_token) as Eout
    by (unfold push_dir; by rewrite <- app_assoc).
  rewrite Eout in Hrun. unfold bind at 1 in Hrun.
  destruct (on_files (mkdir_new _) c) as [c1 [u1|e1]] eqn:H1; apply on_files_commands in H1.
  2: { injection Hrun as <- <-. rewrite H1, Hc. split; [apply prefix_nil|done]. }
  unfold try_finally in Hrun. destruct (bind _ _ c1) as [c5 r5] eqn:H5.
  destruct (on_files (rmtree _) c5) as [c6 r6] eqn:H6. apply on_files_commands in H6.
  assert (c_commands c5 `prefix_of` push_commands (recipients cfg) (slash_end (remote cfg)) temp_token selected ∧
    (r5 = Ok tt → c_commands c5 = push_commands (recipients cfg) (slash_end (remote cfg)) temp_token selected ∧ all_succeeded (c_commands c5))) as [Hp Hok].
  2: { destruct r6 as [u6|e6]; injection Hrun as <- <-; rewrite H6; auto. by split. }
  clear Hrun H6. unfold bind at 1 in H5.
  destruct (on_files (mkdir_new (push_dir temp_token)) c1) as [c2 [u2|e2]] eqn:H2; apply on_files_commands in H2.
  2: { injection H5 as <- <-. rewrite H2, H1, Hc. split; [apply prefix_nil|done]. }
  unfold bind at 1 in H5. destruct (on_files (mkdir_new _) c2) as [c3 [u3|e3]] eqn:H3; apply on_files_commands in H3.
  2: { injection H5 as <- <-. rewrite H3, H2, H1, Hc. split; [apply prefix_nil|done]. }
  assert (c_commands c3 = []) as Hc3 by congruence.
  unfold bind at 1 in H5. destruct (encrypt_each child _ _ _ c3) as [c4 r4] eqn:H4.
  apply encrypt_spec in H4 as (k&Hk&Hall); [|rewrite Hc3; intros k argv Hk; done]. rewrite Hc3 in Hk, Hall. simpl in Hk, Hall.
  destruct r4 as [[]|e4].
  - destruct (Hall eq_refl) as [Ec Hs]. unfold bind, run_captured in H5. unfold push_commands.
    destruct (child (c_commands c4) _) as [[rc err]|e] eqn:Hch.
    + destruct (rc =? 0) eqn:Hrc; injection H5 as <- <-; simpl; rewrite Ec in *; (split; [done|]); [|done].
      apply Z.eqb_eq in Hrc. subst rc. intros _. split; [done|]. by eapply all_succeeded_snoc.
    + injection H5 as <- <-. simpl. rewrite Ec. by split.
  - injection H5 as <- <-. split; [|done]. rewrite Hk. unfold push_commands. apply prefix_app_r, prefix_take.
Qed.

(** ** The checks before a push *)

(** A snapshot that matches its manifest, by the catalog's own check. *)
Definition matches_manifest (f : fs) (i : string) : Prop := ∃ db mf data actual,
  paths cat i = Ok (db, mf) ∧ manifest cat f i = Ok data ∧ inspection open_db f db = Ok actual ∧ matches data actual = true.

Lemma verify_inv i w w' r : verify open_db cat i w = (w', r) →
  files w' = files w ∧ ∀ d, r = Ok d → matches_manifest (files w) i.
Proof.
  unfold verify, inspect, look, gets, lift_result, touch_nothing, io, bind, ret, catalog_error, raise.
  destruct (manifest cat (files w) i) as [data|] eqn:Hm; [|by intros [= <- <-]].
  destruct (paths cat i) as [[db mf]|] eqn:Hp; [|by intros [= <- <-]].
  destruct (inspection open_db (files w) db) as [actual|] eqn:Hi; [|by intros [= <- <-]].
  destruct (faults w) as [|[|] fl]; simpl; destruct (matches data actual) eqn:Hmatch; simpl; intros [= <- <-];
    (split; [done|]); intros d ?; try done; by exists db, mf, data, actual.
Qed.

Lemma verify_each_spec ps c c' r :
  verify_each open_db cat ps c = (c', r) → c_commands c' = c_commands c ∧ files (c_world c') = files (c_world c) ∧
    (r = Ok tt → Forall (λ p, matches_manifest (files (c_world c)) (artifact_of p)) ps).
Proof.
  revert c. induction ps as [|p ps IH]; intros c; simpl; [intros [= <- <-]; by repeat split; auto|].
  unfold bind, on_files. destruct (verify open_db cat (artifact_of p) (c_world c)) as [w [d|e]] eqn:Hv; apply verify_inv in Hv as [Hf Hd].
  - intros Hr. destruct (IH _ Hr) as (H1&H2&H3). simpl in *. split; [done|]. split; [congruence|]. intros ->.
    constructor; [by eapply Hd|]. rewrite <- Hf. by apply H3.
  - intros [= <- <-]. by repeat split.
Qed.

Lemma log_manifests_commands ps c c' r : log_manifests ps c = (c', r) → c_commands c' = c_commands c.
Proof.
  revert c. induction ps as [|p ps IH]; intros c; simpl; [by intros [= <- <-]|]. unfold bind.
  destruct (on_files touch_nothing c) as [c1 [u|e]] eqn:H; apply on_files_commands in H.
  - intros Hr. apply IH in Hr. congruence.
  - by intros [= <- <-].
Qed.

(** ** What a push leaves alone *)

(** The files outside the directories of pushes are those of [f0]. *)
Definition temporary (p : path) : Prop := ∃ n rest, p = root cat ++ n :: rest ∧ starts_with "cloud-push-" n = true.
Definition same_elsewhere (f0 f : fs) : Prop := ∀ p, ¬ temporary p → f !! p = f0 !! p.

Lemma agree_io {A} f0 (op : fs → fs * result exn A) : (∀ f, same_elsewhere f0 f → same_elsewhere f0 (op f).1) → preserves (λ w, same_elsewhere f0 (files w)) (io op).
Proof. intros Hop w Hw. unfold io. specialize (Hop _ Hw). destruct (faults w) as [|[|] fl], (op (files w)); simpl; done. Qed.
Lemma has_prefix_spec p q : has_prefix p q = true → ∃ rest, q = p ++ rest.
Proof.
  revert q. induction p as [|a p IH]; intros [|b q]; simpl; [eauto..|done|]. intros [->%bool_decide_eq_true Hq]%andb_true_iff.
  destruct (IH _ Hq) as (rest & ->). by exists rest.
Qed.
Lemma push_rmtree f0 n : starts_with "cloud-push-" n = true → preserves (λ w, same_elsewhere f0 (files w)) (rmtree (root cat ++ [n])).
Proof.
  intros Hn. apply agree_io. intros f Hf p Hp. simpl. rewrite <-(Hf p Hp). destruct (f !! p) as [x|] eqn:Ex.
  - apply map_lookup_filter_Some. split; [done|]. simpl. destruct (has_prefix _ p) eqn:Hpre; [|done].
    apply has_prefix_spec in Hpre as (rest & ->). destruct Hp. exists n, rest. split; [by rewrite <-app_assoc|done].
  - apply map_lookup_filter_None. by left.
Qed.
Lemma push_mkdir f0 n rest : starts_with "cloud-push-" n = true → preserves (λ w, same_elsewhere f0 (files w)) (mkdir_new (root cat ++ n :: rest)).
Proof.
  intros Hn. apply agree_io. intros f Hf. destruct (f !! _); [done|]. intros p Hp. simpl. rewrite lookup_insert_ne; [by apply Hf|].
  intros <-. apply Hp. by exists n, rest.
Qed.
Lemma preserves_suppress {I} m : preserves I m → preserves I (suppress_os m).
Proof. intros Hm. apply preserves_try; [done|]. intros e. case_match; [apply preserves_ret|apply preserves_raise]. Qed.
Lemma agree_sweep f0 now : preserves (λ w, same_elsewhere f0 (files w)) (sweep_stale_push_dirs scan mtime cat now).
Proof.
  apply preserves_bind; [apply preserves_gets|]. intros f. apply preserves_suppress.
  assert (Forall (λ n, starts_with "cloud-push-" n = true) (filter (λ n, starts_with CLOUD_TMP_PREFIX n = true) (scan f (root cat)))) as Hall.
  { apply Forall_forall. by intros n [? _]%list_elem_of_filter. }
  revert Hall. generalize (filter (λ n, starts_with CLOUD_TMP_PREFIX n = true) (scan f (root cat))) as ns.
  induction 1 as [|n ns Hn Hns IH]; [apply preserves_ret|]. apply preserves_bind; [|intros _; apply IH].
  destruct (is_dir _ _); [|apply preserves_ret]. apply preserves_bind; [apply preserves_lift|]. intros t.
  destruct (_ <? _); [|apply preserves_ret]. by apply preserves_suppress, push_rmtree.
Qed.

Notation Agree f0 := (λ c : container S E, same_elsewhere f0 (files (c_world c))).
Lemma agree_on_files {A} f0 (m : IO A) : preserves (λ w, same_elsewhere f0 (files w)) m → preserves (Agree f0) (on_files m).
Proof. intros Hm c Hc. unfold on_files. specialize (Hm _ Hc). by destruct (m (c_world c)). Qed.
Lemma agree_run f0 argv : preserves (Agree f0) (run_captured child argv).
Proof. by intros c. Qed.
Lemma agree_encrypt f0 recips out ss : preserves (Agree f0) (encrypt_each child recips out ss).
Proof.
  induction ss as [|s ss IH]; [apply preserves_ret|]. apply preserves_bind; [apply agree_run|]. intros [rc err].
  destruct (negb _); [apply preserves_raise|apply IH].
Qed.
Lemma preserves_finally {St A} (I : St → Prop) (m : SE St exn A) fin : preserves I m → preserves I fin → preserves I (try_finally m fin).
Proof.
  intros Hm Hf s Hs. unfold try_finally. specialize (Hm s Hs). destruct (m s) as [s1 r]. specialize (Hf s1 Hm). by destruct (fin s1) as [s2 []].
Qed.
Lemma push_prefix temp_token : starts_with "cloud-push-" (CLOUD_TMP_PREFIX +:+ temp_token)%string = true.
Proof. unfold starts_with, CLOUD_TMP_PREFIX. rewrite chars_app. apply is_prefix_spec. eauto. Qed.
Lemma agree_push f0 cfg temp_token selected : preserves (Agree f0) (push cat child cfg temp_token selected).
Proof.
  pose proof (push_prefix temp_token) as Hn. unfold push. apply preserves_bind; [by apply agree_on_files, push_mkdir|]. intros _.
  apply preserves_finally; [|by apply agree_on_files, push_rmtree]. rewrite <-!app_assoc. simpl app.
  apply preserves_bind; [by apply agree_on_files, push_mkdir|]. intros _.
  apply preserves_bind; [by apply agree_on_files, push_mkdir|]. intros _.
  apply preserves_bind; [apply agree_encrypt|]. intros _. apply preserves_bind; [apply agree_run|]. intros [rc err].
  destruct (negb _); [apply preserves_raise|apply preserves_ret].
Qed.
Lemma agree_log f0 ps : preserves (Agree f0) (log_manifests ps).
Proof.
  induction ps as [|p ps IH]; [apply preserves_ret|]. apply preserves_bind; [|intros _; apply IH].
  apply agree_on_files, agree_io. done.
Qed.
Lemma agree_verify f0 ps : preserves (Agree f0) (verify_each open_db cat ps).
Proof. intros c Hc. destruct (verify_each open_db cat ps c) as [c' r] eqn:Hv. apply verify_each_spec in Hv as (_&Hf&_). simpl. by rewrite Hf. Qed.

(** The newest snapshot is selected, at most 26 hours old at [now] and not stamped more
    than 5 minutes after it. *)
Definition fresh (published : list dated) (now : Z) : Prop := ∃ newest p, last published = Some (newest, p) ∧
  newest ≤ now + 5 * MINUTE ∧ now - newest ≤ 26 * HOUR ∧ p ∈ select_for_push published.

Lemma newest_selected published newest p : last published = Some (newest, p) → p ∈ select_for_push published.
Proof.
  intros Hl. apply last_Some in Hl as [pre ->]. unfold select_for_push. rewrite rev_app_distr, map_app. simpl.
  rewrite filter_app. apply elem_of_app. right. rewrite filter_cons_True; [left|]. left.
Qed.

(** The run ends before any command. *)
Ltac no_push H :=
  injection H as <- <-; cbn [c_commands];
  match goal with |- context [c_commands ?x `prefix_of` _] => assert (c_commands x = []) as -> by congruence end;
  split; [apply prefix_nil|by split].

(** The commands and the result of a run, over the files its snapshots are read from. *)
Definition push_outcome (environ : env) (euid now : Z) (temp_token : string) (f : fs) (destination : string) c' (r : result exn json) : Prop :=
  let cfg := read_cloud_backup_config environ in
  let published := published_snapshots scan f (root cat ++ ["auto"%string]) in
  let selected := select_for_push published in
  let commands := push_commands (recipients cfg) destination temp_token selected in
  c_commands c' `prefix_of` commands ∧
  (c_commands c' ≠ [] → plain_remote (remote cfg) ∧ recipients cfg ≠ [] ∧ euid ≠ 0 ∧ fresh published now) ∧
  match r with
  | Ok v =>
      cloud_enabled cfg = false ∧ job_result_is_skipped v = true ∧ c_commands c' = [] ∨
      cloud_enabled cfg = true ∧ v = JObj [("selected"%string, JInt (Z.of_nat (length selected)))] ∧ fresh published now ∧
        Forall (λ p, matches_manifest f (artifact_of p)) selected ∧ c_commands c' = commands ∧ all_succeeded (c_commands c')
  | Raise _ => cloud_enabled cfg = true
  end.

Lemma cloud_backup_frame (environ : env) (euid : Z) (conf : bool) (now : Z) (temp_token : string) f0 :
  preserves (Agree f0) (cloud_backup open_db scan mtime cat child environ euid conf now temp_token).
Proof.
  unfold cloud_backup. destruct (negb _); [apply preserves_ret|]. destruct (problem _); [apply preserves_raise|].
  destruct (_ =? 0); [apply preserves_raise|]. destruct (negb conf); [apply preserves_raise|].
  apply preserves_bind; [apply agree_on_files, agree_sweep|]. intros _.
  apply preserves_bind; [apply agree_on_files, preserves_gets|]. intros published. destruct (last published) as [[newest p]|]; [|apply preserves_raise].
  destruct (_ <? newest); [apply preserves_raise|]. destruct (_ <? _); [apply preserves_raise|].
  apply preserves_bind; [apply agree_verify|]. intros _. apply preserves_bind; [apply agree_push|]. intros _.
  apply preserves_bind; [apply agree_log|]. intros _. apply preserves_ret.
Qed.

Lemma cloud_backup_outcome (environ : env) (euid : Z) (conf : bool) (now : Z) (temp_token : string) c c' r :
  c_commands c = [] → cloud_backup open_db scan mtime cat child environ euid conf now temp_token c = (c', r) →
  ∃ f, same_elsewhere (files (c_world c)) f ∧ push_outcome environ euid now temp_token f (slash_end (remote (read_cloud_backup_config environ))) c' r.
Proof.
  intros Hc Hrun. unfold push_outcome. set (cfg := read_cloud_backup_config environ). cbv zeta. unfold cloud_backup in Hrun. fold cfg in Hrun.
  assert (same_elsewhere (files (c_world c)) (files (c_world c))) as Hsame by done.
  destruct (cloud_enabled cfg) eqn:Hen; cbn [negb] in Hrun.
  2: { exists (files (c_world c)). split; [done|]. injection Hrun as <- <-. rewrite Hc. split; [apply prefix_nil|]. split; [done|]. by left. }
  destruct (problem cfg) as [pb|] eqn:Hpb.
  { exists (files (c_world c)). split; [done|]. no_push Hrun. }
  destruct (config_usable environ Hen Hpb) as [Hremote Hrec].
  destruct (euid =? 0) eqn:Heuid. { exists (files (c_world c)). split; [done|]. no_push Hrun. }
  apply Z.eqb_neq in Heuid.
  destruct conf; cbn [negb] in Hrun.
  2: { exists (files (c_world c)). split; [done|]. no_push Hrun. }
  unfold bind at 1 in Hrun. pose proof (agree_on_files _ _ (agree_sweep (files (c_world c)) now) c Hsame) as Hag.
  destruct (on_files (sweep_stale_push_dirs _ _ _ now) c) as [c1 [u1|e1]] eqn:H1; apply on_files_commands in H1; simpl in Hag;
    exists (files (c_world c1)); (split; [exact Hag|]).
  2: { no_push Hrun. }
  unfold bind at 1 in Hrun. cbn [on_files look gets] in Hrun. fold (auto_backup_dir cat).
  set (published := published_snapshots scan (files (c_world c1)) (auto_backup_dir cat)) in *.
  assert (c_commands c1 = []) as Hc1 by congruence.
  destruct (last published) as [[newest p]|] eqn:Hl.
  2: { no_push Hrun. }
  destruct (now + CLOUD_CLOCK_SKEW <? newest) eqn:Hskew.
  { no_push Hrun. }
  destruct (CLOUD_SOURCE_MAX_AGE <? now - newest) eqn:Hage.
  { no_push Hrun. }
  apply Z.ltb_ge in Hskew, Hage.
  assert (fresh published now) as Hfresh by (exists newest, p; repeat split; [done..|by eapply newest_selected]).
  unfold bind at 1 in Hrun. destruct (verify_each _ _ _ _) as [c2 r2] eqn:H2.
  apply verify_each_spec in H2 as (Hc2&_&Hv). simpl in Hc2, Hv. rewrite Hc1 in Hc2.
  destruct r2 as [[]|e2].
  2: { no_push Hrun. }
  unfold bind at 1 in Hrun. destruct (push _ _ _ _ _ c2) as [c3 r3] eqn:H3. apply push_spec in H3 as [Hp Hok]; [|done].
  destruct r3 as [[]|e3].
  2: { injection Hrun as <- <-. by repeat split. }
  destruct (Hok eq_refl) as [Ec Hall]. unfold bind at 1 in Hrun.
  destruct (log_manifests _ c3) as [c4 r4] eqn:H4. apply log_manifests_commands in H4.
  destruct r4; injection Hrun as <- <-; rewrite H4, Ec in *; repeat split; auto. right. by repeat split; auto.
Qed.

(** What a selection must hold of the published snapshots, oldest first: the last three
    and the newest of each of the three latest days that have one. *)
Definition keeps_recent (published : list dated) (selected : list path) : Prop := ∀ pre t p post,
  published = pre ++ (t, p) :: post →
  (length post < 3)%nat ∨ day_of t ∉ days_of post ∧ (size (days_of post) < 3)%nat → p ∈ selected.


(** ** The verdict of a backfill *)

(** The label of an observed run. *)
Definition metric_label (m : metric) : string :=
  match m with
  | m_success => "success" | m_partial => "partial" | m_failure => "failure" | m_overlap => "overlap" | m_cancel => "cancel"
  end.

Lemma outcome_cases (res : BackfillResult) :
  skipped res = true ∧ outcome res = "skipped"%string ∨
  skipped res = false ∧ failed res = 0 ∧ outcome res = "ok"%string ∨
  skipped res = false ∧ failed res ≠ 0 ∧ (outcome res = "failed"%string ∧ generated res = 0 ∨ outcome res = "partial"%string).
Proof.
  unfold outcome. destruct (skipped res); [by left|]. right. destruct (Z.eqb_spec (failed res) 0); [by left|].
  right. split; [done|]. split; [done|]. destruct (Z.eqb_spec (generated res) 0); auto.
Qed.

(** The maintenance loop's verdict on a backfill is the service's own.
    When the scheduled backfill ran, the outcome the loop observes is exactly
    the label the service maps the result's outcome to, and the job's last
    success moves to the end of the run when the outcome is ok or partial and
    not otherwise: a run that embedded nothing and failed, one that was skipped
    because another was running, and one that raised leave it as it was. *)
Theorem backfill_verdict c (sv : svc S E) (j : JobState) (now : datetime) (msg : string) :
  c_service c = Some sv →
  let '(c', r) := embedding_backfill utc_now c in
  let '(sv', g) := generate_missing utc_now None false sv in
  let '(j', m) := record_outcome (match r with Ok v => returned v | Raise _ => raised msg end) now j in
  c_service c' = Some sv' ∧
  match g with
  | Ok res => job_metric_outcome (outcome res) = Some (metric_label m) ∧
      last_success_at j' = if bool_decide (outcome res ∈ ["ok"; "partial"]%string) then Some now else last_success_at j
  | Raise e => r = Raise e ∧ m = m_failure ∧ last_success_at j' = last_success_at j
  end.
Proof.
  intros Hsv. unfold embedding_backfill, bind at 1, gets. rewrite Hsv. unfold bind, on_service.
  destruct (generate_missing utc_now None false sv) as [sv' [res|e]]; [|by simpl].
  destruct (outcome_cases res) as [[Hs Ho]|[(Hs&Hf&Ho)|(Hs&Hf&[[Ho Hg]|Ho])]]; rewrite Hs; [by rewrite Ho|rewrite Ho..].
  - unfold ret. simpl. unfold job_result_is_partial, job_result_is_skipped, mapping_flag. simpl. rewrite Hf. done.
  - done.
  - unfold ret. simpl. unfold job_result_is_partial, job_result_is_skipped, mapping_flag. simpl.
    rewrite (proj2 (Z.eqb_neq _ _) Hf). done.
Qed.
End jobs.
