(* ===== verification/BackupWitness.v ===== *)
(** * The backup and job properties on concrete runs

    A catalog under [/b] beside a database in [/d]; a database file is valid
    when its text starts with [DB]. *)

From S2P Require Import Prelude PyStr PyText Sha256 Domain DateTime PyNum PyRepr Sql Store Transactions Port StoreProps SearchProps FileSystem.
From S2P Require Import Backups BackupProps RestoreProps Snapshots SnapshotProps Embedding EmbeddingProps Backfill GitLog Jobs.
From S2P Require Import Maintenance JobProps.
Local Open Scope Z_scope.
#[local] Existing Instance substring_fts.
#[local] Existing Instance toy_port.

Definition toy_db (s : string) : option image :=
  if starts_with "DB" s then Some (mkImage (Some "ok") (Some "ok") false (Some (5, ["p"], 3, 2)))%string else None.
Definition children (f : fs) (d : path) : list string :=
  omap (λ kv : path * node, if bool_decide (parent kv.1 = d) then Some (path_name kv.1) else None) (map_to_list f).
Definition toy_catalog : catalog := mkCatalog ["b"%string] true true ["d"; "oc.db"]%string.
Definition toy_files : fs := list_to_map
  [(["b"], Dir); (["d"], Dir); (["d"; "oc.db"], File (Bytes "DB live"))]%string.

Definition second (n : Z) : Z := 63839761445 * SECOND + n * SECOND.
Definition toy_env (n : Z) (token : string) : snapshot_env :=
  mkEnv (Ok 7) (10 ^ 9) (Ok ("DB " +:+ token)%string) (second n) token (second n + 1).
(** The clean-up of the temporary manifest fails. *)
Definition toy_world : world := mkWorld toy_files [] [false; false; false; false; false; false; false] false.

Lemma create_publishes_last_witness :
  match create toy_db toy_catalog "auto" (toy_env 0 "0123456789ab") toy_world with
  | (w', Ok meta) => (verify toy_db toy_catalog "auto:20240102T030405000000Z-0123456789ab" (mkWorld (files w') [] [] false)).2
      = Ok (dict_set "verified" (JBool true) (sort_by key_leb meta))
  | _ => False
  end.
Proof.
  destruct (create_publishes_last toy_db toy_catalog "auto" (toy_env 0 "0123456789ab") toy_world)
    as (w'&r&new&H&_&_&_&Hr).
  - left.
  - vm_compute. reflexivity.
  - reflexivity.
  - vm_compute. reflexivity.
  - assert (Hok : match create toy_db toy_catalog "auto" (toy_env 0 "0123456789ab") toy_world with (_, Ok _) => True | _ => False end)
      by (vm_compute; exact I).
    rewrite H in Hok |- *. destruct r as [meta|x]; [|exact Hok].
    exact (Hr (mkWorld (files w') [] [] false) eq_refl eq_refl).
Defined.

Definition with_snapshot : world :=
  let w := (create toy_db toy_catalog "auto" (toy_env 0 "0123456789ab") toy_world).1 in mkWorld (files w) [] [] false.
Definition toy_id : string := "auto:20240102T030405000000Z-0123456789ab".
Definition live : identity := mkIdentity 5 ["p"; "q"]%string "" 9.

Lemma restore_stages_verified_witness :
  match restore_stage toy_db children toy_catalog live toy_id (10 ^ 9) "t1" "s1" with_snapshot with
  | (w', Ok (final, _)) => files w' !! final = Some (File (Bytes "DB 0123456789ab"))
  | _ => False
  end.
Proof.
  destruct (restore_stages_verified toy_db children toy_catalog live toy_id (10 ^ 9) "t1" "s1" with_snapshot
    ["b"; "auto"; "openchronicle-20240102T030405000000Z-0123456789ab.db"]%string
    ["b"; "auto"; "openchronicle-20240102T030405000000Z-0123456789ab.json"]%string) as (w'&r&new&H&_&_&_&Hr).
  - vm_compute. reflexivity.
  - reflexivity.
  - assert (Hok : match restore_stage toy_db children toy_catalog live toy_id (10 ^ 9) "t1" "s1" with_snapshot with (_, Ok _) => True | _ => False end)
      by (vm_compute; exact I).
    rewrite H in Hok |- *. destruct r as [[final actual]|x]; [|exact Hok].
    destruct Hr as (_&s&(data&ins&Hs&_)&_&Hf). rewrite Hf. do 3 f_equal.
    assert (Hb : files with_snapshot !! ["b"; "auto"; "openchronicle-20240102T030405000000Z-0123456789ab.db"]%string
      = Some (File (Bytes "DB 0123456789ab"))) by (vm_compute; reflexivity).
    rewrite Hb in Hs. injection Hs as <-. reflexivity.
Defined.

(** ** Retention and the push *)

Definition snap (name : string) : list (path * node) :=
  [(["b"; "auto"; name +:+ ".db"], File (Bytes "DB")); (["b"; "auto"; name +:+ ".json"], File (Doc JNull))]%string.
Definition names : list string :=
  ["openchronicle-20240101T000000000000Z-a"; "openchronicle-20240102T000000000000Z-b"; "openchronicle-20240102T010000000000Z-c";
   "openchronicle-20240102T020000000000Z-d"; "openchronicle-20240102T030000000000Z-e"]%string.
Definition full_files : fs := list_to_map ((["b"; "auto"]%string, Dir) :: concat (map snap names)).
Definition stamp_mtime (f : fs) (p : path) : result exn Z := match snapshot_stamp p with Some t => Ok t | None => Raise OSError end.
Definition auto_dir : path := ["b"; "auto"]%string.
Definition full_world : world := mkWorld full_files [] [] false.

(** With two kept, the newest two and the newest of the day before survive. *)
Lemma retention_keeps_witness :
  files (retention_prune children stamp_mtime auto_dir 2 full_world).1 !! ["b"; "auto"; "openchronicle-20240101T000000000000Z-a.db"]%string
    = Some (File (Bytes "DB")) ∧
  files (retention_prune children stamp_mtime auto_dir 2 full_world).1 !! ["b"; "auto"; "openchronicle-20240102T010000000000Z-c.db"]%string = None.
Proof.
  destruct (retention_keeps children stamp_mtime auto_dir 2 full_world) as (w'&r&new&H&_&Hr).
  - apply (bool_decide_unpack _). vm_compute. reflexivity.
  - rewrite H. cbn [fst].
    assert (∃ l, with_mtimes stamp_mtime (files full_world) (published_in children (files full_world) auto_dir) = Ok l ∧
      sort_by later_first l = map (λ n, (default 0 (snapshot_stamp ["b"; "auto"; n +:+ ".db"]), ["b"; "auto"; n +:+ ".db"]))%string (rev names))
      as (l&Hl&Hs) by (eexists; split; vm_compute; reflexivity).
    rewrite Hl in Hr. cbv zeta in Hr. rewrite Hs in Hr. destruct Hr as (_&Hall&Hgone).
    apply Forall_cons in Hall as [[_ Hkeep] _]. split.
    + match goal with |- files w' !! ?p = _ =>
        destruct (Hkeep (map (λ n, (default 0 (snapshot_stamp ["b"; "auto"; n +:+ ".db"]), ["b"; "auto"; n +:+ ".db"]))%string (rev (tail names)))
          (default 0 (snapshot_stamp p)) p []) as [E _] end.
      * vm_compute. reflexivity.
      * right. split; [apply (bool_decide_unpack _)|apply Nat.ltb_lt]; vm_compute; reflexivity.
      * rewrite E. vm_compute. reflexivity.
    + apply Hgone.
      * reflexivity.
      * intros p Hp. assert (Hf : forallb (λ p, match full_files !! p with Some (File _) => true | _ => false end)
          (map (λ n, ["b"; "auto"; n +:+ ".db"])%string (rev names)) = true) by (vm_compute; reflexivity).
        rewrite forallb_forall in Hf. rewrite map_map in Hp. apply list_elem_of_In, Hf in Hp. cbn [files full_world].
        destruct (full_files !! p) as [[]|]; try discriminate Hp. split; [by eexists|discriminate].
      * apply (bool_decide_unpack _). vm_compute. reflexivity.
      * apply (bool_decide_unpack _). vm_compute. reflexivity.
Defined.

Lemma push_selection_witness :
  (["b"; "auto"; "openchronicle-20240101T000000000000Z-a.db"] ∈ select_for_push (published_snapshots children full_files auto_dir))%string ∧
  length (select_for_push (published_snapshots children full_files auto_dir)) = 4%nat.
Proof.
  split; [|vm_compute; reflexivity].
  destruct (push_selection children full_files auto_dir) as (_&_&_&_&H).
  - apply (bool_decide_unpack _). vm_compute. reflexivity.
  - match goal with |- ?p ∈ _ => apply (H [] (default 0 (snapshot_stamp p)) p
      (map (λ n, (default 0 (snapshot_stamp ["b"; "auto"; n +:+ ".db"]), ["b"; "auto"; n +:+ ".db"]))%string (tail names))) end.
    + vm_compute. reflexivity.
    + right. split; [apply (bool_decide_unpack _)|apply Nat.ltb_lt]; vm_compute; reflexivity.
Defined.

(** ** Jobs *)

Definition cloud_env : env := list_to_map
  [("OC_CLOUD_REMOTE", " ocdrop:nas/oc/ "); ("OC_CLOUD_AGE_RECIPIENTS", "age1abc, ,age1def")]%string.
Definition quiet_child (past : list (list string)) (argv : list string) : result exn (Z * list ascii) := Ok (0, []).
Definition toy_container : container store nat := mkContainer (Some lone_service) with_snapshot false [].


Lemma backfill_verdict_witness :
  match (embedding_backfill clock toy_container).2 with
  | Ok v => last_success_at (record_outcome (returned v) (utc 7) (new_job "embedding_backfill" 60 true)).1 = Some (utc 7)
  | Raise _ => False
  end.
Proof.
  pose proof (@backfill_verdict store nat _ _ toy_port clock toy_container lone_service (new_job "embedding_backfill" 60 true) (utc 7)
    "" eq_refl) as H.
  assert (Hg : match (generate_missing clock None false lone_service).2 with Ok res => outcome res = "ok"%string | Raise _ => False end)
    by (vm_compute; reflexivity).
  assert (Hr : match (embedding_backfill clock toy_container).2 with Ok _ => True | Raise _ => False end) by (vm_compute; exact I).
  destruct (embedding_backfill clock toy_container) as [c' r]. destruct (generate_missing clock None false lone_service) as [sv' g].
  cbn [snd] in Hg, Hr |- *. destruct r as [v|e]; [|exact Hr]. destruct g as [res|e]; [|destruct Hg].
  destruct (record_outcome (returned v) (utc 7) (new_job "embedding_backfill" 60 true)) as [j' m].
  destruct H as (_&_&H). cbn [fst]. rewrite H, Hg. reflexivity.
Defined.
