(* ===== verification/ConfigProps.v ===== *)
(** * Properties of the configuration

    No value an operator can set gives a listener a port it cannot bind or the
    embedding settings a value they refuse; when loading those raises, and what it
    loads otherwise. *)

From S2P Require Import Prelude PyStr PyText Sha256 Domain PyNum PyRepr Config.
Local Open Scope Z_scope.
Local Open Scope prog_scope.

(** The port a text names. *)
Definition named_port (env_raw : option string) : option Z :=
  s ← env_raw; n ← py_int (py_strip s); if valid_port n then Some n else None.
Definition file_port (file_value : json) : option Z :=
  match file_value with JInt z => if valid_port z then Some z else None | _ => None end.

Lemma py_int_blank : py_int "" = None.
Proof. reflexivity. Qed.

Lemma resolve_port_spec env_raw file_value d :
  resolve_port env_raw file_value d =
    match named_port env_raw with Some n => n | None => match file_port file_value with Some n => n | None => d end end.
Proof.
  assert (∀ fb, match named_port env_raw with Some n => n | None => fb end =
    match (if bool_decide ((match env_raw with Some s => py_strip s | None => "" end) = ""%string) then None
           else py_int (match env_raw with Some s => py_strip s | None => "" end)) with
    | Some n => if valid_port n then n else fb | None => fb end) as H.
  { intros fb. unfold named_port. destruct env_raw as [s|]; simpl; [|done]. case_bool_decide as E.
    - rewrite E. by rewrite py_int_blank.
    - destruct (py_int (py_strip s)) as [n|]; simpl; [|done]. by destruct (valid_port n). }
  rewrite H. unfold resolve_port, file_port. destruct file_value; try done. by destruct (valid_port z).
Qed.

Lemma valid_port_range n : valid_port n = true ↔ 1 ≤ n ≤ 65535.
Proof. unfold valid_port. rewrite andb_true_iff, !Z.leb_le. done. Qed.

Lemma named_port_valid r n : named_port r = Some n → valid_port n = true.
Proof.
  unfold named_port. destruct r as [s|]; simpl; [|done]. destruct (py_int _) as [m|]; simpl; [|done].
  destruct (valid_port m) eqn:E; [|done]. by intros [= <-].
Qed.
Lemma file_port_valid v n : file_port v = Some n → valid_port n = true.
Proof. unfold file_port. destruct v; try done. destruct (valid_port z) eqn:E; [|done]. by intros [= <-]. Qed.

(** A listener always gets a port it can bind.  The port is the number the
    environment names when that is in 1 to 65535, else the whole number in that
    range the file holds, else the default; so for any environment and any
    section of core.json that is absent, empty or an object, the API settings
    are built, with a port in range, whatever the values are, and the mounted
    MCP settings fail only on a transport that is not one of the three. *)
Theorem ports_in_range (environ : environment) (file_config : json) (fc : list (string * json)) :
  section_of file_config = Ok fc →
  (∃ cfg, http_config environ file_config = Ok cfg ∧ 1 ≤ http_port cfg ≤ 65535 ∧
     http_port cfg = match named_port (environ !! "OC_API_PORT"%string) with
       | Some n => n | None => default 8000 (file_port (entry "port" fc)) end ∧ http_allowed_hosts cfg ≠ []) ∧
  (∀ binds, match mcp_config environ file_config binds with
   | Ok cfg => 1 ≤ mcp_port cfg ≤ 65535 ∧ mcp_transport cfg ∈ TRANSPORTS ∧
       (binds = false ∨ mcp_transport cfg = "stdio"%string → mcp_port cfg = 8080)
   | Raise e => e = ValueError ∧ env_or environ "OC_MCP_TRANSPORT" (str_or_default (entry "transport" fc) "stdio") ∉ TRANSPORTS
   end).
Proof.
  intros Hfc.
  assert (∀ r v d, valid_port d = true → valid_port (resolve_port r v d) = true) as Hvalid.
  { intros r v d Hd. rewrite resolve_port_spec. destruct (named_port r) as [n|] eqn:Hn; [by eapply named_port_valid|].
    destruct (file_port v) as [n|] eqn:Hv; [by eapply file_port_valid|done]. }
  assert (∀ l, (if bool_decide (l = []) then DEFAULT_ALLOWED_HOSTS else l) ≠ []) as Hne by (intros l; by case_bool_decide).
  assert (∀ e v, parse_allowed_hosts e v ≠ []) as Hhosts.
  { intros e v. unfold parse_allowed_hosts.
    assert (match v with JArr hosts => if bool_decide (non_blank (map py_str hosts) = []) then DEFAULT_ALLOWED_HOSTS
      else non_blank (map py_str hosts) | _ => DEFAULT_ALLOWED_HOSTS end ≠ []) as Hf by (by destruct v).
    destruct e as [s|]; [|done]. by destruct (blank s). }
  split.
  - unfold http_config. rewrite Hfc. cbn [result_bind]. rewrite Hvalid by done. cbn [negb].
    eexists. split; [done|]. cbn [http_port http_allowed_hosts]. split; [by apply valid_port_range, Hvalid|]. split; [|apply Hhosts].
    rewrite resolve_port_spec. destruct (named_port _); [done|]. by destruct (file_port _).
  - intros binds. unfold mcp_config. rewrite Hfc. cbn [result_bind]. case_bool_decide as Ht; cbn [negb]; [|done].
    cbn [mcp_port mcp_transport]. split; [|split; [done|]].
    + apply valid_port_range. destruct (_ && _); [by apply Hvalid|done].
    + intros [->| ->]; [done|]. rewrite bool_decide_eq_true_2 by done. by rewrite andb_false_r.
Qed.

(** ** Embedding settings *)

(** What the settings' own check accepts. *)
Definition settings_valid (s : EmbeddingSettings) : Prop :=
  provider s ∈ VALID_EMBEDDING_PROVIDERS ∧ (∀ d, dimensions s = Some d → 1 ≤ d) ∧ not_positive (timeout s) = false.

Lemma parse_float_raises v d e : parse_float v d = Raise e → e = OverflowError ∧ ∃ z, v = JInt z ∧ float_of_int z = Raise OverflowError.
Proof.
  unfold parse_float, float_of_int. destruct v; try done. destruct (f64_of_Z z) eqn:E; try done. intros [= <-].
  split; [done|]. exists z. by rewrite E.
Qed.

(** A section that is not set: missing, empty or false. *)
Definition unset (v : json) : Prop :=
  v ∈ [JNull; JBool false; JInt 0; JFloat "0.0"; JFloat "-0.0"; JStr ""; JArr []; JObj []]%string.
Inductive has_entries : json → list (string * json) → Prop :=
| object_entries l : has_entries (JObj l) l
| unset_entries v : unset v → has_entries v [].
(** The value in effect: a variable that is set and not blank, else the entry of the file. *)
Inductive in_effect (environ : environment) (name key : string) (l : list (string * json)) : json → Prop :=
| from_environment raw : environ !! name = Some raw → py_strip raw ≠ ""%string → in_effect environ name key l (JStr raw)
| from_file : (∀ raw, environ !! name = Some raw → py_strip raw = ""%string) →
    in_effect environ name key l (default JNull (jget key l)).
Definition names_int (v : json) (n : Z) : Prop := v = JInt n ∨ ∃ text, v = JStr text ∧ py_int (py_strip text) = Some n.
Inductive names_float : json → spec_float → Prop :=
| int_float z : names_float (JInt z) (f64_of_Z z)
| decimal_float s f : py_float s = Some f → names_float (JFloat s) f
| text_float s f : py_float (py_strip s) = Some f → names_float (JStr s) f.

(** What the loaded settings are, value by value. *)
Record loaded (environ : environment) (l : list (string * json)) (s : EmbeddingSettings) : Prop := {
  loaded_provider v : in_effect environ "OC_EMBEDDING_PROVIDER" "provider" l v →
    let p := str_lower (parse_str v "none") in provider s = if decide (p ∈ ["none"; "stub"; "openai"; "ollama"]%string) then p else "none"%string;
  loaded_model v : in_effect environ "OC_EMBEDDING_MODEL" "model" l v → model s = parse_str v "";
  loaded_dimensions v d : in_effect environ "OC_EMBEDDING_DIMENSIONS" "dimensions" l v →
    dimensions s = Some d ↔ 1 ≤ d ∧ names_int v d;
  loaded_api_key v : in_effect environ "OC_EMBEDDING_API_KEY" "api_key" l v → api_key s = parse_str v "";
  loaded_timeout v : in_effect environ "OC_EMBEDDING_TIMEOUT" "timeout" l v →
    (∀ f, names_float v f → not_positive f = false → timeout s = f) ∧
    ((∀ f, names_float v f → not_positive f = true) → timeout s = f64_of_Z 30);
}.

Lemma section_entries v l : section_of v = Ok l ↔ has_entries v l.
Proof.
  unfold section_of. split.
  - destruct (truthy v) eqn:E; simpl; [destruct v; try done; intros [= ->]; constructor|]. intros [= <-]. apply unset_entries.
    unfold unset. destruct v as [|[]|z|s|s|[]|[]]; try done; simpl in E.
    + by left.
    + by right; left.
    + destruct (Z.eqb_spec z 0); [subst; do 2 right; by left|done].
    + apply negb_false_iff, orb_true_iff in E as [->%bool_decide_eq_true| ->%bool_decide_eq_true]; set_solver.
    + apply negb_false_iff, bool_decide_eq_true in E as ->. set_solver.
    + set_solver.
    + set_solver.
  - intros [l'|v' Hv]; [by destruct l'|]. unfold unset in Hv. rewrite !elem_of_cons in Hv. by destruct Hv as [->|[->|[->|[->|[->|[->|[->|[->|[]%elem_of_nil]]]]]]]].
Qed.
Lemma section_raises v e : section_of v = Raise e → e = AttributeError.
Proof. unfold section_of. destruct (truthy v); [|done]. by destruct v; intros [= <-]. Qed.
Lemma env_override_effect environ name key l v : in_effect environ name key l v ↔ v = env_override environ name (entry key l).
Proof.
  unfold env_override, blank. split.
  - intros [raw Hr Hb|Hf]; [rewrite Hr; by rewrite bool_decide_eq_false_2|]. destruct (environ !! name) as [raw|] eqn:E; [|done].
    by rewrite bool_decide_eq_true_2 by auto.
  - intros ->. destruct (environ !! name) as [raw|] eqn:E; [|apply from_file; congruence].
    case_bool_decide; [apply from_file; congruence|by apply from_environment].
Qed.
Lemma parse_float_ok v d t : parse_float v d = Ok t ↔
  (∀ z b, v = JInt z → f64_of_Z z ≠ S754_infinity b) ∧ (names_float v t ∨ (∀ f, ¬ names_float v f) ∧ t = d).
Proof.
  unfold parse_float, float_of_int. split.
  - intros H. split.
    + intros z b -> E. by rewrite E in H.
    + destruct v; try (right; split; [by inversion 1|congruence]).
      * left. destruct (f64_of_Z z) eqn:E; simplify_eq; rewrite <-E; constructor.
      * destruct (py_float s) eqn:E; simplify_eq; [left; by constructor|right; split; [inversion 1; congruence|done]].
      * destruct (py_float (py_strip s)) eqn:E; simplify_eq; [left; by constructor|right; split; [inversion 1; congruence|done]].
  - intros [Hz [Hn|[Hno ->]]].
    + inversion Hn; subst; [|by rewrite H..]. destruct (f64_of_Z z) eqn:E; try done. by destruct (Hz _ _ eq_refl E).
    + destruct v; try done.
      * by destruct (Hno (f64_of_Z z)); constructor.
      * destruct (py_float s) eqn:E; [|done]. by destruct (Hno s0); constructor.
      * destruct (py_float (py_strip s)) eqn:E; [|done]. by destruct (Hno s0); constructor.
Qed.
Lemma names_float_fun v f g : names_float v f → names_float v g → f = g.
Proof. intros [] Hg; inversion Hg; congruence. Qed.

(** What loading computes once the section and the timeout are readable. *)
Lemma load_ok environ v l t : section_of v = Ok l →
  parse_float (env_override environ "OC_EMBEDDING_TIMEOUT" (entry "timeout" l)) (f64_of_Z 30) = Ok t →
  ∃ s, load_embedding_settings environ v = Ok s ∧ settings_valid s ∧ loaded environ l s.
Proof.
  intros Hl Ht. unfold load_embedding_settings. rewrite Hl. cbn [result_bind]. unfold THIRTY. rewrite Ht. cbn [result_bind]. unfold new_settings. cbn [provider dimensions timeout].
  set (dv := env_override environ "OC_EMBEDDING_DIMENSIONS" (entry "dimensions" l)).
  set (d := if parse_int dv 0 <? 0 then 0 else _).
  assert (∀ n, d = n ∧ 1 ≤ n ↔ 1 ≤ n ∧ names_int dv n) as Hdim.
  { intros n. assert (d = n ∧ 1 ≤ n ↔ 1 ≤ n ∧ parse_int dv 0 = n) as -> by (unfold d; destruct (Z.ltb_spec (parse_int dv 0) 0); lia).
    enough (1 ≤ n → (parse_int dv 0 = n ↔ names_int dv n)) by tauto. intros Hn. unfold names_int, parse_int. destruct dv; try (split; [lia|naive_solver]); [naive_solver|].
    destruct (py_int (py_strip s)) eqn:E; split; naive_solver lia. }
  assert (0 ≤ d) as Hd by (unfold d; destruct (Z.ltb_spec (parse_int dv 0) 0); lia).
  set (p := str_lower _). assert ((if bool_decide (p ∈ VALID_EMBEDDING_PROVIDERS) then p else "none"%string) ∈ VALID_EMBEDDING_PROVIDERS) as Hp.
  { case_bool_decide; [done|]. left. }
  rewrite (bool_decide_eq_true_2 _ Hp). cbn [negb].
  assert (not_positive (if not_positive t then f64_of_Z 30 else t) = false) as Hn by (destruct (not_positive t) eqn:E; [reflexivity|done]).
  assert (match (if d =? 0 then None else Some d) with Some d => d <? 1 | None => false end = false) as ->.
  { destruct (Z.eqb_spec d 0); [done|]. apply Z.ltb_ge. lia. }
  rewrite Hn. eexists. split; [reflexivity|]. split; [|split; cbn [provider model dimensions api_key timeout]].
  - split; [done|]. split; [|exact Hn]. cbn. intros d'. destruct (Z.eqb_spec d 0); [done|]. intros [= <-]. lia.
  - intros v' ->%env_override_effect. case_bool_decide; by case_decide.
  - by intros v' ->%env_override_effect.
  - intros v' n ->%env_override_effect. fold dv. rewrite <-Hdim. destruct (Z.eqb_spec d 0); split; try (intros [= <-]); intuition (congruence || lia).
  - by intros v' ->%env_override_effect.
  - intros v' ->%env_override_effect. apply parse_float_ok in Ht as [_ [Hf|[Hno ->]]].
    + split.
      * intros f Hf' Hpos. by rewrite (names_float_fun _ _ _ Hf Hf'), Hpos.
      * intros Hall. by rewrite (Hall _ Hf).
    + split; [intros f Hf; by destruct (Hno f)|done].
Qed.

(** C40. Loading the embedding settings is total but for two shapes of core.json.
    It raises an [AttributeError] exactly when the embedding section is set and is
    not an object, an [OverflowError] exactly when the timeout in effect is a JSON
    integer too large for a float, and nothing else.  Every other environment and
    section give settings that their own check accepts (a known provider,
    dimensions of at least one or none, a timeout that is not zero or less), each
    of them from the variable when that is set and not blank, else from the file:
    a provider, dimensions or timeout that cannot be used is [none], none or 30. *)
Theorem embedding_settings_total (environ : environment) (file_config : json) :
  let r := load_embedding_settings environ file_config in
  (r = Raise AttributeError ↔ ∀ l, ¬ has_entries file_config l) ∧
  (r = Raise OverflowError ↔ ∃ l z b, has_entries file_config l ∧
     in_effect environ "OC_EMBEDDING_TIMEOUT" "timeout" l (JInt z) ∧ f64_of_Z z = S754_infinity b) ∧
  (∀ e, r = Raise e → e = AttributeError ∨ e = OverflowError) ∧
  (∀ s, r = Ok s → settings_valid s ∧ ∃ l, has_entries file_config l ∧ loaded environ l s).
Proof.
  intros r. setoid_rewrite <-section_entries. setoid_rewrite env_override_effect. destruct (section_of file_config) as [l|e] eqn:Hl.
  - assert (r = Raise AttributeError → False) as Hno1.
    { unfold r. destruct (parse_float (env_override environ "OC_EMBEDDING_TIMEOUT" (entry "timeout" l)) (f64_of_Z 30)) as [t|e] eqn:Ht.
      - destruct (load_ok _ _ _ _ Hl Ht) as (s&->&_). done.
      - unfold load_embedding_settings, THIRTY. rewrite Hl. cbn [result_bind]. rewrite Ht. apply parse_float_raises in Ht as [-> _]. done. }
    split; [split; [done|intros H; by destruct (H l)]|].
    destruct (parse_float (env_override environ "OC_EMBEDDING_TIMEOUT" (entry "timeout" l)) (f64_of_Z 30)) as [t|e] eqn:Ht.
    + destruct (load_ok _ _ _ _ Hl Ht) as (s&Hs&Hv&Hld). unfold r. rewrite Hs. split_and!; [|done|intros ? [= <-]; eauto].
      split; [done|]. intros (?&z&b&[= <-]&Hz&Hb). apply parse_float_ok in Ht as [Hf _]. by destruct (Hf z b).
    + assert (r = Raise OverflowError) as Hr.
      { unfold r, load_embedding_settings, THIRTY. rewrite Hl. cbn [result_bind]. rewrite Ht. apply parse_float_raises in Ht as [-> _]. done. }
      apply parse_float_raises in Ht as [-> (z&Hz&Hf)]. split_and!; [|intros e; rewrite Hr; intros [= <-]; by right|by rewrite Hr].
      split; [|done]. intros _. exists l, z. unfold float_of_int in Hf. destruct (f64_of_Z z) eqn:E; try done. eauto.
  - apply section_raises in Hl as He. subst e. assert (r = Raise AttributeError) as -> by (unfold r, load_embedding_settings; by rewrite Hl).
    split_and!; naive_solver.
Qed.

Definition huge_timeout : json := JObj [("timeout"%string, JInt (10 ^ 400))].
Lemma ports_in_range_witness :
  match http_config (list_to_map [("OC_API_PORT", "70000"); ("OC_API_KEY", " k ")]%string) (JObj [("port"%string, JInt 9000)]) with
  | Ok cfg => http_port cfg = 9000 ∧ 1 ≤ http_port cfg ≤ 65535
  | Raise _ => False
  end.
Proof.
  destruct (proj1 (ports_in_range (list_to_map [("OC_API_PORT", "70000"); ("OC_API_KEY", " k ")]%string)
    (JObj [("port"%string, JInt 9000)]) [("port"%string, JInt 9000)] eq_refl)) as (cfg&H&Hr&Hp&_).
  rewrite H. split; [|exact Hr]. rewrite Hp. vm_compute. reflexivity.
Defined.
Example huge_timeout_raises : load_embedding_settings ∅ huge_timeout = Raise OverflowError.
Proof. vm_compute. reflexivity. Qed.
Example nan_timeout_accepted :
  match load_embedding_settings {["OC_EMBEDDING_TIMEOUT"%string := "nan"%string]} JNull with Ok s => timeout s = S754_nan | Raise _ => False end.
Proof. vm_compute. reflexivity. Qed.
