(* ===== verification/Http.v ===== *)
(** * The HTTP boundary

    The middleware of [interfaces/api/middleware] and the exception handlers of
    [interfaces/api/app.py].  A request is its path, its headers under
    lower-case names with their Latin-1 values, and the peer address; a response
    its status, payload and headers, without the explanatory texts.  Starlette's
    router, CORS and the metrics observer are outside; [call_next] is an
    argument.  The monotonic clock is an integer of nanoseconds. *)

From S2P Require Import Prelude PyStr PyText Sha256 Domain PyNum Config.
Local Open Scope Z_scope.
Local Open Scope prog_scope.

Record request := mkRequest {
  req_path : string;
  req_headers : list (string * string);
  req_client : option string;
}.
Inductive payload := error_payload (code : option error_code) | result_payload (body : json).
Record response := mkResponse { status : Z; body : payload; resp_headers : list (string * string) }.

(** [request.headers.get(name)]: the first header of that name. *)
Definition header (nm : string) (r : request) : option string :=
  (λ p, p.2.2) <$> list_find (λ kv : string * string, kv.1 = nm) (req_headers r).

Definition error_response (st : Z) (c : option error_code) : response := mkResponse st (error_payload c) [].

(** ** Errors to responses *)

(** [app.py:186-222 create_app] The handler of the nearest class. *)
Definition exception_response (e : exn) : response :=
  match e with
  | NotFoundError c => error_response 404 (Some c)
  | ValidationError c => error_response 422 (Some c)
  | FileNotFoundError => error_response 400 (Some FILE_NOT_FOUND)
  | _ => if is_provider_error e then error_response 502 (provider_error_code e)
         else error_response 500 (Some INTERNAL_ERROR)
  end.

(** ** Hosts *)

(** [host_allowlist.py:37-45 _ALWAYS_ALLOWED] *)
Definition ALWAYS_ALLOWED : list string :=
  ["127.0.0.1"; "127.0.0.1:*"; "localhost"; "localhost:*"; "[::1]"; "[::1]:*"; "testserver"]%string.
Definition SKIP_PREFIX : string := "/mcp".

(** [s[:-n]] *)
Definition drop_end (n : nat) (s : string) : string := of_chars (take (String.length s - n) (chars s)).

(** [host_allowlist.py:55-60 host_allowed] *)
Definition entry_matches (host entry : string) : bool :=
  bool_decide (host = entry)
  || (ends_with ":*" entry
      && (let base := drop_end 2 entry in bool_decide (host = base) || starts_with (base +:+ ":") host)).
(** [host_allowlist.py:50-61 host_allowed] *)
Definition host_allowed (host : option string) (allowed : list string) : bool :=
  match host with
  | None => false
  | Some h => if bool_decide (h = ""%string) then false else existsb (entry_matches h) allowed
  end.

(** ** Keys *)

(** [auth.py:80-88 _extract_key] *)
Definition extract_key (r : request) : option string :=
  let auth := default ""%string (header "authorization" r) in
  if starts_with "bearer " (str_lower auth) then Some (py_strip (of_chars (drop 7 (chars auth))))
  else header "x-api-key" r ≫= non_empty.

(** [auth.py:65-77 _key_matches] Header values are Latin-1, so their encoding never fails. *)
Definition key_matches (key api_key : string) : bool :=
  bool_decide (map code (chars key) = concat (map utf8 (chars api_key))).

(** [auth.py:56-62 request_has_key] *)
Definition request_has_key (r : request) (api_key : string) : bool :=
  match extract_key r with Some key => key_matches key api_key | None => false end.

(** [auth.py:13-13 _DOCS_PATHS] *)
Definition DOCS_PATHS : list string := ["/docs"; "/redoc"; "/openapi.json"]%string.
(** [middleware/__init__.py:20-20 _AUTH_EXEMPT_PATHS] *)
Definition AUTH_EXEMPT_PATHS : list string := ["/health"; "/api/v1/health"]%string.

(** ** The rate limiter *)

(** [rate_limit.py:16-16 _DEFAULT_RPM] *)
Definition DEFAULT_RPM : Z := 600.
(** [rate_limit.py:17-17 _DEFAULT_WINDOW_SECONDS] *)
Definition DEFAULT_WINDOW_SECONDS : Z := 60.
Definition SECOND : Z := 1000000000.
Definition WINDOW : Z := DEFAULT_WINDOW_SECONDS * SECOND.

Abbreviation requests := (gmap string (list Z)).
Inductive verdict := unlimited | limited (retry_after : Z) | admitted (remaining : Z).

Definition since (cutoff : Z) (ts : list Z) : list Z := filter (λ t, cutoff < t) ts.

(** [rate_limit.py:71-78 RateLimitMiddleware.dispatch] *)
Definition sweep (client : string) (cutoff : Z) (m : requests) : requests :=
  map_imap (λ k ts,
    if bool_decide (k = client) then Some ts
    else match since cutoff ts with [] => None | pruned => Some pruned end) m.

(** [rate_limit.py:39-78 RateLimitMiddleware.dispatch] *)
Definition try_admit (rpm now : Z) (client : string) (m : requests) : requests * verdict :=
  if rpm <=? 0 then (m, unlimited)
  else
    let cutoff := now - WINDOW in
    let timestamps := since cutoff (default [] (m !! client)) in
    if rpm <=? Z.of_nat (length timestamps) then
      (m, limited (Z.max ((default 0 (head timestamps) - cutoff) / SECOND + 1) 1))
    else
      let timestamps := timestamps ++ [now] in
      (sweep client cutoff (<[client := timestamps]> m), admitted (Z.max 0 (rpm - Z.of_nat (length timestamps)))).

(** ** The stack *)

(** The limiter's table, the reading of the clock, and the application behind. *)
Record edge (I : Type) := mkEdge { table : requests; monotonic : Z; inner : I }.
Arguments mkEdge {I}.
Arguments table {I}.
Arguments monotonic {I}.
Arguments inner {I}.

(** [response.headers[k] = v]: the first such header, the others removed. *)
Fixpoint put_header (k v : string) (l : list (string * string)) : list (string * string) :=
  match l with
  | [] => [(k, v)]
  | kv :: l' =>
      if bool_decide (str_lower kv.1 = str_lower k) then (kv.1, v) :: filter (λ x, str_lower x.1 ≠ str_lower k) l'
      else kv :: put_header k v l'
  end.
Definition set_header (k v : string) (p : response) : response :=
  mkResponse (status p) (body p) (put_header k v (resp_headers p)).

Section stack.
Context {I : Type}.
Notation App := (request → SE (edge I) exn response).

(** [host_allowlist.py:71-83 HostAllowlistMiddleware.dispatch] *)
Definition host_dispatch (allowed_hosts : list string) (call_next : App) : App := λ r,
  let path := req_path r in
  if bool_decide (path = SKIP_PREFIX) || starts_with (SKIP_PREFIX +:+ "/") path then call_next r
  else if negb (host_allowed (header "host" r) (ALWAYS_ALLOWED ++ allowed_hosts))
  then ret (error_response 421 (Some INVALID_HOST))
  else call_next r.

(** [auth.py:36-53 APIKeyMiddleware.dispatch] *)
Definition auth_dispatch (api_key : string) (exempt : list string) (call_next : App) : App := λ r,
  if bool_decide (req_path r ∈ DOCS_PATHS ++ exempt) then call_next r
  else match extract_key r with
    | None => ret (error_response 401 None)
    | Some key => if negb (key_matches key api_key) then ret (error_response 403 None) else call_next r
    end.


(** [rate_limit.py:38-83 RateLimitMiddleware.dispatch] *)
Definition rate_dispatch (rpm : Z) (call_next : App) : App := λ r s,
  let (t, v) := try_admit rpm (monotonic s) (default "unknown"%string (req_client r)) (table s) in
  let s := mkEdge t (monotonic s) (inner s) in
  match v with
  | unlimited => call_next r s
  | limited n => (s, Ok (mkResponse 429 (error_payload None) [("Retry-After"%string, str_of_Z n)]))
  | admitted remaining =>
      bind (call_next r) (λ p,
        ret (set_header "X-RateLimit-Remaining" (str_of_Z remaining)
              (set_header "X-RateLimit-Limit" (str_of_Z rpm) p))) s
  end.

(** [middleware/__init__.py:23-55 register_middleware] [cors] is Starlette's
    middleware where origins are configured. *)
Definition register_middleware (config : HTTPConfig) (rpm : Z) (cors : option (App → App)) (app : App) : App :=
  let app := match http_api_key config with Some k => auth_dispatch k AUTH_EXEMPT_PATHS app | None => app end in
  let app := match cors with Some f => f app | None => app end in
  host_dispatch (http_allowed_hosts config) (rate_dispatch rpm app).
End stack.

(** [rate_limit.py:29-36 RateLimitMiddleware.__init__] *)
Definition configured_rpm (environ : environment) : Z :=
  parse_int_env (Some (default ""%string (environ !! "OC_API_RATE_LIMIT_RPM"%string))) DEFAULT_RPM.
(** [middleware/__init__.py:38-44 register_middleware origins] *)
Definition cors_origins (environ : environment) : list string :=
  let v := py_strip (default ""%string (environ !! "OC_API_CORS_ORIGINS"%string)) in
  if bool_decide (v = ""%string) then [] else map py_strip (py_split_on ","%char v).
