(* ===== verification/HttpProps.v ===== *)
(** * Properties of the HTTP boundary

    The sliding window of the rate limiter against the history of admissions,
    and which requests the stack lets through to a handler. *)

From S2P Require Import Prelude PyStr PyText TextProps Sha256 Domain PyNum Config Http.
Local Open Scope Z_scope.
Local Open Scope prog_scope.

(** ** The sliding window *)

Lemma since_app cut l1 l2 : since cut (l1 ++ l2) = since cut l1 ++ since cut l2.
Proof. apply filter_app. Qed.
Lemma since_since cut cut' l : cut ≤ cut' → since cut' (since cut l) = since cut' l.
Proof.
  intros H. unfold since. rewrite list_filter_filter. apply list_filter_iff. intros t. lia.
Qed.
Lemma since_live cut l : Forall (λ t, cut < t) (since cut l).
Proof. apply Forall_forall. intros t. unfold since. by rewrite list_elem_of_filter; intros [? _]. Qed.
Lemma since_shrinks cut cut' l : cut ≤ cut' → (length (since cut' l) ≤ length (since cut l))%nat.
Proof. intros H. rewrite <- (since_since cut cut') by done. apply length_filter. Qed.

(** The times of a client's admissions, oldest first. *)
Definition times (c : string) (h : list (Z * string)) : list Z := map fst (filter (λ e, e.2 = c) h).

Lemma times_app c h h' : times c (h ++ h') = times c h ++ times c h'.
Proof. unfold times. by rewrite filter_app, map_app. Qed.
Lemma times_one c t c' : times c [(t, c')] = if bool_decide (c' = c) then [t] else [].
Proof. unfold times. rewrite filter_cons. simpl. by case_decide; case_bool_decide. Qed.

(** The admissions of [c] in the window that ends at [T]. *)
Definition in_window (T : Z) (c : string) (h : list (Z * string)) : list Z :=
  filter (λ t, T - WINDOW < t ≤ T) (times c h).

(** One request: the table and the history of admissions after it. *)
Definition arrive (rpm : Z) (x : requests * list (Z * string)) (e : Z * string) : requests * list (Z * string) :=
  let (m, v) := try_admit rpm e.1 e.2 x.1 in
  (m, match v with admitted _ => x.2 ++ [e] | _ => x.2 end).
Definition after_all (rpm : Z) (evs : list (Z * string)) : requests * list (Z * string) :=
  foldl (arrive rpm) (∅, []) evs.

Record window_inv (rpm last : Z) (m : requests) (h : list (Z * string)) : Prop := {
  tracked : ∀ c cut, last - WINDOW ≤ cut → since cut (default [] (m !! c)) = since cut (times c h);
  in_past : ∀ c, Forall (λ t, t ≤ last) (times c h);
  bounded : ∀ c T, Z.of_nat (length (in_window T c h)) ≤ rpm;
}.

Lemma lookup_sweep c cut m k :
  default [] (sweep c cut m !! k) =
  if bool_decide (k = c) then default [] (m !! k) else since cut (default [] (m !! k)).
Proof.
  unfold sweep. rewrite map_lookup_imap. destruct (m !! k) as [ts|]; simpl; [|by case_bool_decide].
  case_bool_decide; [done|]. by destruct (since cut ts).
Qed.

Lemma in_window_app T c h h' : in_window T c (h ++ h') = in_window T c h ++ in_window T c h'.
Proof. unfold in_window. by rewrite times_app, filter_app. Qed.
Lemma in_window_since T last c h :
  Forall (λ t, t ≤ last) (times c h) → last ≤ T → in_window T c h = since (T - WINDOW) (times c h).
Proof.
  intros H HT. unfold in_window, since. induction H as [|t l Ht _ IH]; [done|].
  rewrite !filter_cons, IH. repeat case_decide; try done; lia.
Qed.
Lemma in_window_future T now c c' h : T < now → in_window T c (h ++ [(now, c')]) = in_window T c h.
Proof.
  intros H. rewrite in_window_app. unfold in_window at 2. rewrite times_one.
  case_bool_decide; [|apply app_nil_r]. rewrite filter_cons_False by lia. apply app_nil_r.
Qed.

Section window.
Context (rpm : Z) (Hrpm : 0 < rpm).

Lemma window_inv_later last now m h : window_inv rpm last m h → last ≤ now → window_inv rpm now m h.
Proof.
  intros [Ht Hp Hb] Hn. split; [| |done].
  - intros c cut Hc. apply Ht. lia.
  - intros c. eapply Forall_impl; [apply Hp|]. simpl. lia.
Qed.

(** What a decision means in terms of the history. *)
Lemma admit_spec now c m h :
  window_inv rpm now m h →
  let recent := since (now - WINDOW) (times c h) in
  try_admit rpm now c m =
  if rpm <=? Z.of_nat (length recent)
  then (m, limited (Z.max ((default 0 (head recent) - (now - WINDOW)) / SECOND + 1) 1))
  else (sweep c (now - WINDOW) (<[c := recent ++ [now]]> m), admitted (rpm - Z.of_nat (length recent) - 1)).
Proof.
  intros [Ht _ _] recent. unfold try_admit. rewrite (proj2 (Z.leb_gt _ _)) by done.
  rewrite (Ht c) by lia. fold recent. destruct (rpm <=? _) eqn:E; [done|].
  apply Z.leb_gt in E. rewrite length_app. simpl. do 2 f_equal. lia.
Qed.

Lemma arrive_inv last now c m h :
  window_inv rpm last m h → last ≤ now →
  window_inv rpm now (arrive rpm (m, h) (now, c)).1 (arrive rpm (m, h) (now, c)).2.
Proof.
  intros Hi Hn. apply (window_inv_later _ now) in Hi; [|done]. unfold arrive. simpl.
  rewrite (admit_spec now c m h Hi). simpl. destruct (rpm <=? _) eqn:E; [done|]. apply Z.leb_gt in E.
  destruct Hi as [Ht Hp Hb]. simpl. split.
  - intros c' cut Hc. rewrite lookup_sweep, times_app, since_app, times_one.
    case_bool_decide as Hcc.
    + subst c'. rewrite lookup_insert_eq. simpl. rewrite since_app, bool_decide_eq_true_2 by done.
      by rewrite since_since.
    + rewrite lookup_insert_ne by done. rewrite since_since, Ht by lia.
      rewrite bool_decide_eq_false_2 by done. by rewrite app_nil_r.
  - intros c'. rewrite times_app. apply Forall_app_2; [apply Hp|]. rewrite times_one.
    case_bool_decide; repeat constructor; lia.
  - intros c' T. destruct (decide (T < now)); [by rewrite in_window_future|].
    rewrite in_window_app, length_app. destruct (decide (c' = c)) as [->|Hcc].
    + rewrite (in_window_since T now) by (done || lia).
      assert (length (in_window T c [(now, c)]) ≤ 1)%nat.
      { unfold in_window. rewrite times_one, bool_decide_eq_true_2 by done.
        etrans; [apply length_filter|done]. }
      pose proof (since_shrinks (now - WINDOW) (T - WINDOW) (times c h) ltac:(lia)). lia.
    + unfold in_window at 2. rewrite times_one, bool_decide_eq_false_2 by congruence. simpl.
      rewrite Nat.add_0_r. apply Hb.
Qed.

Lemma after_all_snoc evs e : after_all rpm (evs ++ [e]) = arrive rpm (after_all rpm evs) e.
Proof. unfold after_all. by rewrite foldl_app. Qed.

Lemma after_all_inv evs now :
  StronglySorted Z.le (map fst evs ++ [now]) →
  window_inv rpm now (after_all rpm evs).1 (after_all rpm evs).2.
Proof.
  revert now. induction evs as [|[t c] evs IH] using rev_ind; intros now Hs.
  - split; [done|constructor|]. intros c T. unfold after_all, in_window. simpl. lia.
  - rewrite map_app, <- app_assoc in Hs. simpl in Hs.
    assert (StronglySorted Z.le (map fst evs ++ [t]) ∧ t ≤ now) as [Hs1 Hle].
    { split.
      - rewrite cons_middle, app_assoc in Hs. by apply StronglySorted_app_1_l in Hs.
      - apply StronglySorted_app_1_r in Hs. inversion_clear Hs as [|?? _ HF]. by inversion_clear HF. }
    rewrite after_all_snoc. specialize (IH t Hs1). destruct (after_all rpm evs) as [m h]. simpl in IH.
    eapply window_inv_later; [by apply (arrive_inv t)|done].
Qed.

(** The wait a refusal asks for is at most a minute and is enough. *)
Lemma refusal_honest now c m h k :
  window_inv rpm now m h → (try_admit rpm now c m).2 = limited k →
  1 ≤ k ≤ 61 ∧ ∃ room, (try_admit rpm (now + k * SECOND) c m).2 = admitted room.
Proof.
  intros Hi. rewrite (admit_spec now c m h Hi). simpl. destruct (rpm <=? _) eqn:E; [|done].
  apply Z.leb_le in E. simpl. intros [= <-].
  destruct (since (now - WINDOW) (times c h)) as [|t0 rest] eqn:Hr; [simpl in E; lia|]. simpl in E |- *.
  set (k := Z.max _ _).
  assert (now - WINDOW < t0 ≤ now) as Ht0.
  { assert (t0 ∈ since (now - WINDOW) (times c h)) as Hin by (rewrite Hr; left).
    unfold since in Hin. rewrite list_elem_of_filter in Hin. destruct Hin as [? Hin].
    split; [done|]. by apply (proj1 (Forall_forall _ _) (in_past _ _ _ _ Hi c)). }
  assert (0 ≤ (t0 - (now - WINDOW)) / SECOND ≤ 60 ∧ t0 - (now - WINDOW) < ((t0 - (now - WINDOW)) / SECOND + 1) * SECOND)
    as [Hq Hk].
  { unfold WINDOW, DEFAULT_WINDOW_SECONDS, SECOND in *. split; [split|].
    - apply Z.div_pos; lia.
    - apply Z.lt_succ_r, Z.div_lt_upper_bound; lia.
    - pose proof (Z.mul_succ_div_gt (t0 - (now - 60 * 1000000000)) 1000000000). lia. }
  assert (1 ≤ k ≤ 61 ∧ t0 - (now - WINDOW) < k * SECOND) as [Hk1 Hk2] by (unfold k, SECOND in *; nia).
  split; [done|]. eapply window_inv_later in Hi as Hi'; [|exact (ltac:(unfold SECOND; lia) : now ≤ now + k * SECOND)].
  rewrite (admit_spec _ c m h Hi'). simpl.
  assert (length (since (now + k * SECOND - WINDOW) (times c h)) ≤ length rest)%nat as Hl.
  { rewrite <- (since_since (now - WINDOW)) by (unfold SECOND; lia). rewrite Hr. unfold since.
    rewrite filter_cons_False by lia. apply length_filter. }
  pose proof (bounded _ _ _ _ Hi c now) as Hb.
  rewrite (in_window_since now now) in Hb by (apply Hi || lia). rewrite Hr in Hb. simpl in Hb.
  rewrite (proj2 (Z.leb_gt _ _)) by lia. eauto.
Qed.
End window.

(** C23. The rate limiter admits at most [rpm] requests of a client in every
    window of sixty seconds, whatever the order in which clients arrive; it
    refuses a request exactly when the client has used its window up, leaves
    the table alone then, and the wait it names is at most 61 seconds and
    enough; after an admission the table holds nothing but live entries. *)
Theorem rate_limit_window (rpm now : Z) (c : string) (evs : list (Z * string)) (m : requests) (h : list (Z * string)) :
  0 < rpm → StronglySorted Z.le (map fst evs ++ [now]) → after_all rpm evs = (m, h) →
  (∀ c' T, Z.of_nat (length (in_window T c' h)) ≤ rpm) ∧
  match try_admit rpm now c m with
  | (m', admitted room) =>
      Z.of_nat (length (in_window now c h)) < rpm ∧ room = rpm - Z.of_nat (length (in_window now c h)) - 1 ∧
      map_Forall (λ _ ts, ts ≠ [] ∧ Forall (λ t, now - WINDOW < t) ts) m'
  | (m', limited k) =>
      Z.of_nat (length (in_window now c h)) = rpm ∧ m' = m ∧ 1 ≤ k ≤ 61 ∧ ∃ room, (try_admit rpm (now + k * SECOND) c m).2 = admitted room
  | (_, unlimited) => False
  end.
Proof.
  intros Hrpm Hs Hrun. pose proof (after_all_inv rpm Hrpm evs now Hs) as Hi. rewrite Hrun in Hi. simpl in Hi.
  pose proof (bounded _ _ _ _ Hi) as Hb. split; [done|].
  pose proof (λ k, refusal_honest rpm Hrpm now c m h k Hi) as Hh.
  specialize (Hb c now). rewrite (in_window_since now now) in Hb |- * by (apply Hi || lia).
  rewrite (admit_spec rpm Hrpm now c m h Hi) in Hh |- *. simpl in Hh |- *.
  destruct (rpm <=? _) eqn:E; [apply Z.leb_le in E|apply Z.leb_gt in E].
  - destruct (Hh _ eq_refl) as [??]. split_and!; [lia|done|lia..|done].
  - split_and!; [lia|done|]. intros k ts Hk.
    unfold sweep in Hk. rewrite map_lookup_imap in Hk. apply bind_Some in Hk as (ts0&Hl&Hk).
    case_bool_decide as Hkc.
    + simplify_map_eq. split; [by destruct (since _ _)|]. apply Forall_app_2; [apply since_live|].
      repeat constructor. unfold WINDOW, DEFAULT_WINDOW_SECONDS, SECOND. lia.
    + destruct (since (now - WINDOW) ts0) eqn:Hf; [done|]. simplify_eq. split; [done|].
      rewrite <- Hf. apply since_live.
Qed.

Definition arrivals : list (Z * string) := [(0, "a"); (5, "a"); (6, "b"); (7, "a")]%string.

Lemma rate_limit_window_witness :
  (after_all 2 arrivals).2 = [(0, "a"); (5, "a"); (6, "b")]%string ∧
  (∀ c' T, Z.of_nat (length (in_window T c' (after_all 2 arrivals).2)) ≤ 2) ∧
  match try_admit 2 9 "a" (after_all 2 arrivals).1 with (_, limited k) => k = 60 | _ => False end.
Proof.
  split; [vm_compute; reflexivity|].
  assert (StronglySorted Z.le (map fst arrivals ++ [9])) as Hs.
  { cbn. repeat first [lia | apply SSorted_nil | apply SSorted_cons | apply Forall_cons_2 | apply Forall_nil_2]. }
  assert (0 < 2) as H0 by lia.
  destruct (rate_limit_window 2 9 "a" arrivals _ _ H0 Hs (surjective_pairing _)) as [H _].
  split; [exact H|vm_compute; reflexivity].
Defined.

(** ** Who reaches a handler *)

Lemma drop_end_app n base tail : String.length tail = n → drop_end n (base +:+ tail) = base.
Proof.
  intros <-. apply chars_inj. unfold drop_end. rewrite chars_of_chars, <- !length_chars, chars_app, length_app.
  replace (length (chars base) + length (chars tail) - length (chars tail))%nat with (length (chars base)) by lia.
  by rewrite take_app_length.
Qed.
(** What an entry of the allowlist names. *)
Definition names_host (h entry : string) : Prop :=
  h = entry ∨ ∃ base, entry = base +:+ ":*" ∧ (h = base ∨ ∃ port, h = base +:+ ":" +:+ port).

Lemma entry_matches_spec h entry : entry_matches h entry = true ↔ names_host h entry.
Proof.
  unfold entry_matches, names_host.
  rewrite orb_true_iff, andb_true_iff, orb_true_iff, !bool_decide_eq_true, ends_with_spec, starts_with_spec.
  split; (intros [->|H]; [by left|right]).
  - destruct H as [[base ->] H]. exists base. rewrite (drop_end_app 2) in H by done. split; [done|].
    destruct H as [->|[port ->]]; [by left|right]. exists port. apply chars_inj. by rewrite !chars_app, <- app_assoc.
  - destruct H as [base [-> H]]. split; [by exists base|]. rewrite (drop_end_app 2) by done.
    destruct H as [->|[port ->]]; [by left|right]. exists port. apply chars_inj. by rewrite !chars_app, <- app_assoc.
Qed.

Definition host_named (allowed : list string) (r : request) : Prop :=
  ∃ h entry, header "host" r = Some h ∧ h ≠ ""%string ∧ entry ∈ allowed ∧ names_host h entry.
Lemma host_allowed_spec r allowed : host_allowed (header "host" r) allowed = true ↔ host_named allowed r.
Proof.
  unfold host_allowed, host_named. destruct (header "host" r) as [h|]; [|naive_solver].
  case_bool_decide; [naive_solver|]. rewrite existsb_exists. setoid_rewrite <- list_elem_of_In.
  setoid_rewrite entry_matches_spec. naive_solver.
Qed.

(** The path belongs to the MCP mount, which guards its own hosts. *)
Definition mcp_path (r : request) : Prop :=
  req_path r = SKIP_PREFIX ∨ ∃ k, req_path r = (SKIP_PREFIX +:+ "/") +:+ k.
#[global] Instance mcp_path_dec r : Decision (mcp_path r).
Proof.
  unfold mcp_path. apply or_dec; [apply _|]. destruct (starts_with (SKIP_PREFIX +:+ "/") (req_path r)) eqn:H.
  - left. by apply starts_with_spec.
  - right. rewrite <- starts_with_spec, H. done.
Defined.
#[global] Instance host_named_dec allowed r : Decision (host_named allowed r).
Proof.
  destruct (host_allowed (header "host" r) allowed) eqn:H; [left|right]; rewrite <- host_allowed_spec, H; done.
Defined.
(** The bytes of the key the request carries are those of the configured key. *)
Definition carries (api_key : string) (r : request) : Prop :=
  ∃ key, extract_key r = Some key ∧ map code (chars key) = concat (map utf8 (chars api_key)).
Definition public (r : request) : Prop := req_path r ∈ DOCS_PATHS ++ AUTH_EXEMPT_PATHS.
Definition host_permitted (config : HTTPConfig) (r : request) : Prop :=
  mcp_path r ∨ host_named (ALWAYS_ALLOWED ++ http_allowed_hosts config) r.
Definition key_permitted (config : HTTPConfig) (r : request) : Prop :=
  match http_api_key config with Some k => public r ∨ carries k r | None => True end.

Section stack.
Context {I : Type}.
Notation App := (request → SE (edge I) exn response).

Lemma host_dispatch_spec allowed (app : App) r s :
  (mcp_path r ∨ host_named (ALWAYS_ALLOWED ++ allowed) r → host_dispatch allowed app r s = app r s) ∧
  (¬ (mcp_path r ∨ host_named (ALWAYS_ALLOWED ++ allowed) r) →
    host_dispatch allowed app r s = (s, Ok (error_response 421 (Some INVALID_HOST)))).
Proof.
  unfold host_dispatch, mcp_path. rewrite <- host_allowed_spec.
  destruct (bool_decide _ || _) eqn:Hm; rewrite ?orb_true_iff, ?orb_false_iff, ?bool_decide_eq_true, ?starts_with_spec in Hm.
  - split; [done|tauto].
  - rewrite bool_decide_eq_false in Hm. destruct Hm as [Hm1 Hm2].
    assert (¬ ∃ k, req_path r = (SKIP_PREFIX +:+ "/") +:+ k) by (rewrite <- starts_with_spec; congruence).
    destruct (host_allowed _ _); simpl; split; try done; naive_solver.
Qed.

Lemma auth_dispatch_spec k (app : App) r s :
  (public r ∨ carries k r → auth_dispatch k AUTH_EXEMPT_PATHS app r s = app r s) ∧
  (¬ (public r ∨ carries k r) → ∃ st,
    auth_dispatch k AUTH_EXEMPT_PATHS app r s = (s, Ok (error_response st None)) ∧ (st = 401 ∨ st = 403)).
Proof.
  unfold auth_dispatch, public, carries, key_matches. case_bool_decide as Hp; [tauto|].
  destruct (extract_key r) as [key|]; [case_bool_decide; simpl|]; naive_solver.
Qed.

(** The outcome [o] of the application with the limiter's headers. *)
Definition relayed (o out : edge I * result exn response) : Prop :=
  out.1 = o.1 ∧
  match o.2 with
  | Ok p => ∃ hs, out.2 = Ok (mkResponse (status p) (body p) hs)
  | Raise e => out.2 = Raise e
  end.

Lemma rate_dispatch_spec rpm (app : App) r s :
  let out := rate_dispatch rpm app r s in
  match try_admit rpm (monotonic s) (default "unknown"%string (req_client r)) (table s) with
  | (_, limited n) =>
      out = (s, Ok (mkResponse 429 (error_payload None) [("Retry-After"%string, str_of_Z n)]))
  | (m, _) => relayed (app r (mkEdge m (monotonic s) (inner s))) out
  end.
Proof.
  simpl. unfold rate_dispatch, try_admit. destruct (rpm <=? 0).
  { unfold relayed. split; [done|]. destruct (app r _) as [? [[]|]]; simpl; eauto. }
  simpl. destruct (rpm <=? _); [by destruct s|]. unfold relayed, bind.
  destruct (app r _) as [? [[]|]]; simpl; eauto.
Qed.
Lemma relayed_refl o : relayed o o.
Proof. split; [done|]. destruct (o.2) as [[st b hs]|e]; [by exists hs|done]. Qed.
Lemma relayed_trans o1 o2 o3 : relayed o1 o2 → relayed o2 o3 → relayed o1 o3.
Proof.
  intros [H1 H1'] [H2 H2']. split; [congruence|]. destruct (o1.2) as [p|e]; [destruct H1' as [hs H1']|]; rewrite H1' in H2'; [|done].
  by destruct H2' as [hs' ->]; exists hs'.
Qed.

(** What Starlette's [CORSMiddleware] does: a preflight request (an [OPTIONS] request
    with an origin that asks for a method) it answers itself; any other request goes
    to the application, and only headers are added to the answer. *)
Record cors_behaviour (f : App → App) (preflight : request → bool) (answer : request → response) : Prop := {
  preflight_answered app r s : preflight r = true → f app r s = (s, Ok (answer r));
  other_relayed app r s : preflight r = false → relayed (app r s) (f app r s);
}.
(** CORS is off, and nothing is a preflight to it, or it behaves so. *)
Definition cors_as_documented (cors : option (App → App)) (preflight : request → bool) (answer : request → response) : Prop :=
  match cors with Some f => cors_behaviour f preflight answer | None => ∀ r, preflight r = false end.

(** The application behind its key. *)
Lemma guarded_spec config (app : App) r s :
  let guarded := match http_api_key config with Some k => auth_dispatch k AUTH_EXEMPT_PATHS app | None => app end in
  (key_permitted config r → guarded r s = app r s) ∧
  (¬ key_permitted config r → ∃ st, guarded r s = (s, Ok (error_response st None)) ∧ st ∈ [401; 403]).
Proof.
  simpl. unfold key_permitted. destruct (http_api_key config) as [k|]; [|done]. destruct (auth_dispatch_spec k app r s) as [H1 H2].
  split; [done|]. intros Hn. destruct (H2 Hn) as (st&->&Hst). exists st. split; [done|set_solver].
Qed.
Lemma behind_cors_spec cors preflight answer config (app : App) r s : cors_as_documented cors preflight answer →
  let guarded := match http_api_key config with Some k => auth_dispatch k AUTH_EXEMPT_PATHS app | None => app end in
  let behind := match cors with Some f => f guarded | None => guarded end in
  ∀ out, relayed (behind r s) out →
  (preflight r = true → relayed (s, Ok (answer r)) out) ∧
  (preflight r = false → ¬ key_permitted config r → ∃ st, relayed (s, Ok (error_response st None)) out ∧ st ∈ [401; 403]) ∧
  (preflight r = false → key_permitted config r → relayed (app r s) out).
Proof.
  simpl. destruct (guarded_spec config app r s) as [Hok Hno]. set (guarded := match http_api_key config with Some k => _ | None => app end) in *.
  assert (preflight r = false → cors_as_documented cors preflight answer →
    relayed (guarded r s) (match cors with Some f => f guarded | None => guarded end r s)) as Hrel.
  { destruct cors as [f|]; simpl; [|intros; apply relayed_refl]. intros H Hf. by apply (other_relayed _ _ _ Hf). }
  intros Hc out Hout. split_and!; intros Hp; [|intros Hk..].
  - destruct cors as [f|]; simpl in Hc; [|by rewrite Hc in Hp]. by rewrite (preflight_answered _ _ _ Hc) in Hout.
  - destruct (Hno Hk) as (st&E&Hst). exists st. rewrite <-E. split; [|done]. eapply relayed_trans; [by apply Hrel|done].
  - rewrite <-(Hok Hk). eapply relayed_trans; [by apply Hrel|done].
Qed.
End stack.


(** A CORS middleware that takes the requests with an origin for preflights. *)
Definition is_preflight (r : request) : bool := match header "origin" r with Some _ => true | None => false end.
Definition allow_all (r : request) : response := mkResponse 200 (error_payload None) [("Access-Control-Allow-Origin", "*")]%string.
Definition sample_cors (f : request → SE (edge nat) exn response) : request → SE (edge nat) exn response := λ r s,
  if is_preflight r then (s, Ok (allow_all r)) else f r s.
Definition sample_app : request → SE (edge nat) exn response := λ r s, (mkEdge (table s) (monotonic s) (S (inner s)), Ok (error_response 200 None)).
Definition KEYED : HTTPConfig := mkHTTP "127.0.0.1" 8000 (Some "k"%string) [].
Lemma sample_cors_documented : cors_as_documented (Some sample_cors) is_preflight allow_all.
Proof.
  split; intros app r s Hp; unfold sample_cors; rewrite Hp; [done|apply relayed_refl].
Qed.

(** A key that ends in a byte the Latin-1 reading takes for white space can
    never be presented as a bearer token, although its bytes are compared. *)
Example bearer_key_stripped :
  let key := of_chars [chr 0xE0] in
  let sent := of_chars (map chr (concat (map utf8 (chars key)))) in
  request_has_key (mkRequest "/" [("authorization", "Bearer " +:+ sent)]%string None) key = false ∧
  request_has_key (mkRequest "/" [("x-api-key"%string, sent)] None) key = true.
Proof. vm_compute. split; reflexivity. Qed.
Example rebinding_refused :
  host_allowed (Some "evil.example:8000"%string) ALWAYS_ALLOWED = false ∧
  host_allowed (Some "localhost:8000"%string) ALWAYS_ALLOWED = true ∧
  host_allowed (Some "localhost.evil.example"%string) ALWAYS_ALLOWED = false.
Proof. vm_compute. done. Qed.
