(* ===== verification/Serializers.v ===== *)
(** * Serializers

    [interfaces/serializers.py]: the JSON shapes of projects, memories and
    search hits, full and compact, with the rounding of the scores.  The relevance of a
    hit keeps its scores as floats. *)

From S2P Require Import Prelude PyStr PyText Sha256 Domain DateTime PyNum PyRepr Sql Store Transactions Port Embedding Search UseCases Envelope.
Local Open Scope Z_scope.

(** ** [round(x, 6)] *)

(** [n / d] to the nearest integer, a tie to the even one. *)
Definition div_half_even (n d : Z) : Z :=
  let q := n / d in
  let r := 2 * (n mod d) in
  if (d <? r) || ((r =? d) && Z.odd q) then q + 1 else q.
Definition MILLION : Z := 1000000.
Definition round6 (x : spec_float) : spec_float :=
  match x with
  | S754_finite s m e =>
      let n := if 0 <=? e then Z.pos m * 2 ^ e * MILLION else div_half_even (Z.pos m * MILLION) (2 ^ (- e)) in
      let f := if n =? 0 then S754_zero false else fratio n MILLION in
      if s then SFopp f else f
  | _ => x
  end.
Example round6_third : round6 (fratio 1 3) = fratio 333333 1000000 ∧ round6 (fratio 1 61) = fratio 16393 1000000.
Proof. vm_compute. split; reflexivity. Qed.

(** ** Shapes *)

(** [serializers.py:30-30 _COMPACT_PREVIEW_CHARS] *)
Definition COMPACT_PREVIEW_CHARS : Z := 120.
(** [serializers.py:33-37 content_preview] *)
Definition content_preview (text : string) : string :=
  if str_len text <=? COMPACT_PREVIEW_CHARS then text
  else of_chars (take (Z.to_nat COMPACT_PREVIEW_CHARS) (chars text)) +:+ "...".

(** [serializers.py:40-54 project_to_dict] *)
Definition project_to_dict (p : Project) (compact : bool) : row :=
  if compact then
    [("id", jstr (project_key p)); ("name", jstr (name p));
     ("metadata_keys", JArr (map jstr (sort_by str_leb (map fst (metadata p)))));
     ("metadata_size", JInt (str_len (json_dumps (JObj (metadata p)))));
     ("created_at", jstr (isoformat (project_created_at p)))]%string
  else
    [("id", jstr (project_key p)); ("name", jstr (name p)); ("metadata", JObj (metadata p));
     ("created_at", jstr (isoformat (project_created_at p)))]%string.

(** [serializers.py:57-79 memory_to_dict] *)
Definition memory_to_dict (m : MemoryItem) (compact : bool) : row :=
  let text := if compact
    then [("content_preview", jstr (content_preview (content m))); ("content_length", JInt (str_len (content m)))]%string
    else [("content"%string, jstr (content m))] in
  (("id"%string, jstr (id m)) :: text ++
   [("tags", JArr (map jstr (tags m))); ("pinned", JBool (pinned m)); ("project_id", jopt jstr (project_id m));
    ("source", jstr (source m)); ("created_at", jstr (isoformat (created_at m)));
    ("updated_at", jopt (λ t, jstr (isoformat t)) (updated_at m))]%string)%list.

Record Relevance := mkRelevance {
  rel_channel : Channel;
  rel_rrf_score : option spec_float;
  rel_similarity : option spec_float;
  rel_keyword_rank : option Z;
}.
(** [serializers.py:82-98 scored_memory_to_dict] *)
Definition scored_memory_to_dict (s : ScoredMemory) (compact : bool) : row * Relevance :=
  (memory_to_dict (sm_item s) compact,
   mkRelevance (sm_channel s) (round6 <$> sm_rrf_score s) (round6 <$> sm_similarity s) (sm_keyword_rank s)).

(** A compact row never holds the text of a memory under [content], nor the
    metadata of a project. *)
Lemma compact_omits m p :
  jget "content" (memory_to_dict m true) = None ∧ jget "metadata" (project_to_dict p true) = None.
Proof. done. Qed.
Lemma preview_bound text : str_len (content_preview text) ≤ COMPACT_PREVIEW_CHARS + 3.
Proof.
  unfold content_preview. destruct (_ <=? _) eqn:E; [apply Z.leb_le in E; unfold COMPACT_PREVIEW_CHARS in *; lia|].
  unfold str_len. assert (∀ s, String.length s = length (chars s)) as Hl.
  { intros s. induction s; simpl; [done|by f_equal]. }
  rewrite Hl, chars_app, length_app, chars_of_chars, length_take. change (length (chars "...")) with 3%nat. unfold COMPACT_PREVIEW_CHARS. lia.
Qed.
