(* ===== verification/Surfaces.v ===== *)
(** * The REST routes and the MCP tools

    [interfaces/api/routes/memory.py], [routes/project.py] and
    [interfaces/mcp/tools/memory.py], [tools/project.py], [tools/context.py]
    over the use cases.  A REST parameter out of its declared range is answered
    with 422 by the framework before the route runs; an exception of the route
    goes to the application's handlers.  A tool clamps or refuses its arguments
    itself and lets exceptions through.  A use case over the store alone is one
    step here: other threads come in before it.  [memory_embed]
    starts a background backfill and is in [Background]. *)

From S2P Require Import Prelude PyStr PyText Sha256 Domain DateTime PyNum PyRepr Sql Store Transactions Port Embedding Search Envelope Config Http Serializers UseCases.
Local Open Scope Z_scope.
Local Open Scope prog_scope.

(** What a route answers: the result with 200, or an error response. *)
Inductive reply (A : Type) := replied (a : A) | failed_with (p : response).
Arguments replied {A}.
Arguments failed_with {A}.

Definition within (lo hi v : Z) : bool := (lo <=? v) && (v <=? hi).
Definition sized (lo hi : Z) (s : string) : bool := within lo hi (str_len s).
Definition opt_all {A} (p : A → bool) (o : option A) : bool := match o with Some a => p a | None => true end.
Definition clamp (lo hi v : Z) : Z := Z.min (Z.max v lo) hi.
(** The length of an id in a path, the number of tags in a body. *)
Definition path_id (s : string) : bool := sized 1 200 s.
Definition tag_cap (l : list string) : bool := Z.of_nat (length l) <=? 50.

Definition mode_of (s : string) : Mode :=
  if bool_decide (s = "hybrid"%string) then hybrid
  else if bool_decide (s = "keyword"%string) then keyword
  else if bool_decide (s = "semantic"%string) then semantic else other_mode s.
Definition order_of (s : string) : OrderBy :=
  if bool_decide (s = "pinned_first"%string) then pinned_first
  else if bool_decide (s = "created_at"%string) then by_created_at else order_by_other s.
Definition MODES : list string := ["hybrid"; "keyword"; "semantic"]%string.
Definition ORDERS : list string := ["pinned_first"; "created_at"]%string.

Section surfaces.
Context {S E : Type} `{HF : FTS5} `{!MemoryStorePort S} `{!EmbeddingPort E}.
Context `{HN : Numpy} `{HO : SetOrder}.
Context (utc_now : nat → Z) (configured : bool).
Notation Sv A := (SE (svc S E) exn A).

(** A route: the framework's check of the declared parameters, the body, the
    exception handlers. *)
Definition route {A} (valid : bool) (m : Sv A) : Sv (reply A) :=
  if negb valid then ret (failed_with (error_response 422 None))
  else try_catch (let* a := m in ret (replied a)) (λ e, ret (failed_with (exception_response e))).

Definition map_ok {A B} (f : A → B) (m : Sv A) : Sv B := let* a := m in ret (f a).
(** [result.attr] of a use case that may return [None]. *)
Definition attribute {A B} (f : A → B) (m : Sv (option A)) : Sv B :=
  let* o := m in match o with Some a => ret (f a) | None => raise AttributeError end.

Definition search (query : string) (top_k : Z) (project_id : option string) (tags : option (list string)) (offset : Z)
    (compact : bool) (mode : string) (phrase : bool) (pinned_limit : Z) (include_pinned : bool) : Sv (list (row * Relevance)) :=
  map_ok (map (λ s, scored_memory_to_dict s compact))
    (execute_search utc_now configured query top_k project_id include_pinned tags offset (mode_of mode) phrase pinned_limit).

Definition listing (limit : option Z) (pinned_only : bool) (offset : Z) (project_id : option string) (compact : bool)
    (tags exclude_tags : option (list string)) (order_by : string) : Sv (list row) :=
  map_ok (map (λ m, memory_to_dict m compact))
    (on_store (execute_list_memory limit pinned_only offset project_id tags exclude_tags (order_of order_by))).

(** The timestamp of a save: absent, or an ISO 8601 text. *)
Definition parse_created_at (now : datetime) (text : option string) : result exn datetime :=
  match text with
  | None => Ok now
  | Some t => match fromisoformat t with Some d => Ok d | None => Raise invalid end
  end.
(** [routes/memory.py:112-132 memory_save] [new_id] and [now] are the defaults of
    [MemoryItem]. *)
Definition save_item (new_id : string) (now : datetime) (src text : string) (project_id : string)
    (ts : option (list string)) (pin : bool) (created : option string) : Sv row :=
  let* at_ := lift_result (parse_created_at now created) in
  map_ok (λ m, memory_to_dict m false)
    (execute_add_memory utc_now configured (mkMemoryItem new_id text (default [] ts) at_ pin (Some project_id) src None)).

Definition get_item (memory_id : string) : Sv row :=
  let* item := on_store (st_get_memory memory_id) in
  match item with
  | None => raise (NotFoundError MEMORY_NOT_FOUND)
  | Some m => ret (memory_to_dict m false)
  end.
Definition get_project_row (k : string) : Sv row :=
  let* project := on_store (st_get_project k) in
  match project with
  | None => raise (NotFoundError PROJECT_NOT_FOUND)
  | Some p => ret (project_to_dict p false)
  end.
Definition update_item (memory_id : string) (text : option string) (ts : option (list string)) : Sv row :=
  attribute (λ m, memory_to_dict m false) (execute_update_memory utc_now configured memory_id text ts).
Definition pin_item (memory_id : string) (pin : bool) : Sv (list (string * string)) :=
  map_ok (λ _, [("status", "ok"); ("memory_id", memory_id); ("pinned", if pin then "True" else "False")]%string)
    (on_store (pin_memory memory_id pin)).

(** ** REST *)

(** [routes/memory.py:36-78 memory_search] *)
Definition rest_memory_search (query : string) (top_k : Z) (project_id : option string) (tags : option string) (offset : Z)
    (compact : bool) (mode : string) (phrase : bool) (pinned_limit : Z) (include_pinned : bool)
    : Sv (reply (list (row * Relevance))) :=
  route ((1 <=? str_len query) && within 1 1000 top_k && (0 <=? offset) && bool_decide (mode ∈ MODES) && within 0 1000 pinned_limit)
    (search query top_k project_id (parse_csv_tags tags) offset compact mode phrase pinned_limit include_pinned).
(** [routes/memory.py:81-92 memory_stats] *)
Definition rest_memory_stats (project_id : option string) (top_tags : Z) : Sv (reply Stats) :=
  route (within 1 1000 top_tags) (on_store (stats_memory project_id top_tags)).
(** [routes/memory.py:95-132 memory_save] *)
Definition rest_memory_save (new_id : string) (now : datetime) (text project_id : string) (tags : option (list string))
    (pin : bool) (created : option string) : Sv (reply row) :=
  route (sized 1 MAX_CONTENT_CHARS text && sized 1 200 project_id && opt_all tag_cap tags)
    (save_item new_id now "api" text project_id tags pin created).
(** [routes/memory.py:135-165 memory_list] *)
Definition rest_memory_list (limit : option Z) (pinned_only : bool) (offset : Z) (project_id : option string) (compact : bool)
    (tags exclude_tags : option string) (order_by : string) : Sv (reply (list row)) :=
  route (opt_all (within 1 10000) limit && (0 <=? offset) && bool_decide (order_by ∈ ORDERS))
    (listing limit pinned_only offset project_id compact (parse_csv_tags tags) (parse_csv_tags exclude_tags) order_by).
(** [routes/memory.py:168-179 memory_get] *)
Definition rest_memory_get (memory_id : string) : Sv (reply row) := route (path_id memory_id) (get_item memory_id).
(** [routes/memory.py:182-202 memory_delete] *)
Definition rest_memory_delete (memory_id : string) (confirm : bool) : Sv (reply DeleteMemoryResult) :=
  route (path_id memory_id) (on_store (execute_delete_memory memory_id confirm)).
(** [routes/memory.py:205-221 memory_pin] *)
Definition rest_memory_pin (memory_id : string) (pin : bool) : Sv (reply (list (string * string))) :=
  route (path_id memory_id) (pin_item memory_id pin).
(** [routes/memory.py:224-243 memory_update] *)
Definition rest_memory_update (memory_id : string) (text : option string) (tags : option (list string)) : Sv (reply row) :=
  route (path_id memory_id && opt_all (sized 1 MAX_CONTENT_CHARS) text && opt_all tag_cap tags) (update_item memory_id text tags).

(** [routes/project.py:49-60 project_create] *)
Definition rest_project_create (new_id : string) (now : datetime) (nm : string) (md : option (list (string * json)))
    : Sv (reply row) :=
  route (sized 1 200 nm) (map_ok (λ p, project_to_dict p false) (on_store (create_project new_id now nm md))).
(** [routes/project.py:63-75 project_list] *)
Definition rest_project_list (name_contains : option string) (compact : bool) : Sv (reply (list row)) :=
  route true (map_ok (map (λ p, project_to_dict p compact)) (on_store (execute_list_projects name_contains))).
(** [routes/project.py:78-90 project_get] *)
Definition rest_project_get (k : string) : Sv (reply row) := route (path_id k) (get_project_row k).
(** [routes/project.py:93-110 project_update_route] *)
Definition rest_project_update (k : string) (nm : option string) (md : option (list (string * json))) : Sv (reply row) :=
  route (path_id k && opt_all (sized 1 200) nm && negb (bool_decide (nm = None) && match md with None => true | _ => false end))
    (map_ok (λ p, project_to_dict p false) (on_store (execute_update_project k nm md))).
(** [routes/project.py:113-131 project_delete_bulk] *)
Definition rest_project_delete_bulk (ids : list string) (confirm : bool) : Sv (reply DeleteProjectsResult) :=
  route (within 1 500 (Z.of_nat (length ids))) (on_store (execute_delete_projects ids confirm)).
(** [routes/project.py:134-155 project_delete] *)
Definition rest_project_delete (k : string) (confirm : bool) : Sv (reply DeleteProjectResult) :=
  route (path_id k) (on_store (execute_delete_project k confirm)).

(** ** MCP *)

(** [mcp/tools/memory.py:38-123 memory_search] *)
Definition tool_memory_search (query : string) (top_k : Z) (project_id : option string) (tags : option (list string))
    (offset : Z) (compact : bool) (mode : string) (phrase : bool) (pinned_limit : Z) (include_pinned : bool)
    : Sv (list (row * Relevance)) :=
  if blank query then raise invalid
  else search query (clamp 1 1000 top_k) project_id tags (Z.max offset 0) compact mode phrase (clamp 0 1000 pinned_limit) include_pinned.
(** [mcp/tools/memory.py:125-181 memory_save] *)
Definition tool_memory_save (new_id : string) (now : datetime) (text project_id : string) (tags : option (list string))
    (pin : bool) (created : option string) : Sv row :=
  if blank text then raise invalid
  else if too_long text then raise invalid
  else if bool_decide (project_id = ""%string) then raise invalid
  else save_item new_id now "mcp" text project_id tags pin created.
(** [mcp/tools/memory.py:183-254 memory_list] *)
Definition tool_memory_list (limit : option Z) (pinned_only : bool) (offset : Z) (project_id : option string) (compact : bool)
    (tags exclude_tags : option (list string)) (order_by : string) : Sv (list row) :=
  listing (clamp 1 10000 <$> limit) pinned_only (Z.max offset 0) project_id compact tags exclude_tags order_by.
(** [mcp/tools/memory.py:256-282 memory_pin] *)
Definition tool_memory_pin (memory_id : string) (pin : bool) : Sv (list (string * string)) := pin_item memory_id pin.
(** [mcp/tools/memory.py:284-318 memory_update] *)
Definition tool_memory_update (memory_id : string) (text : option string) (tags : option (list string)) : Sv row :=
  if negb (opt_all (λ c, negb (too_long c)) text) then raise invalid else update_item memory_id text tags.
(** [mcp/tools/memory.py:320-338 memory_get] *)
Definition tool_memory_get (memory_id : string) : Sv row := get_item memory_id.
(** [mcp/tools/memory.py:340-372 memory_delete] *)
Definition tool_memory_delete (memory_id : string) (confirm : bool) : Sv DeleteMemoryResult :=
  on_store (execute_delete_memory memory_id confirm).
(** [mcp/tools/memory.py:374-403 memory_stats] *)
Definition tool_memory_stats (project_id : option string) (top_tags : Z) : Sv Stats :=
  on_store (stats_memory project_id (clamp 1 1000 top_tags)).
(** [mcp/tools/project.py:30-54 project_create] *)
Definition tool_project_create (new_id : string) (now : datetime) (nm : string) (md : option (list (string * json))) : Sv row :=
  map_ok (λ p, project_to_dict p false) (on_store (create_project new_id now nm md)).
(** [mcp/tools/project.py:56-77 project_get] *)
Definition tool_project_get (k : string) : Sv row := get_project_row k.
(** [mcp/tools/project.py:79-111 project_list] *)
Definition tool_project_list (name_contains : option string) (compact : bool) : Sv (list row) :=
  map_ok (map (λ p, project_to_dict p compact)) (on_store (execute_list_projects name_contains)).
(** [mcp/tools/project.py:113-140 project_update] *)
Definition tool_project_update (k : string) (nm : option string) (md : option (list (string * json))) : Sv row :=
  map_ok (λ p, project_to_dict p false) (on_store (execute_update_project k nm md)).
(** [mcp/tools/project.py:142-174 project_delete] *)
Definition tool_project_delete (k : string) (confirm : bool) : Sv DeleteProjectResult :=
  on_store (execute_delete_project k confirm).
(** [mcp/tools/project.py:176-209 project_delete_bulk] *)
Definition tool_project_delete_bulk (ids : list string) (confirm : bool) : Sv DeleteProjectsResult :=
  on_store (execute_delete_projects ids confirm).

Inductive catch_up := found_hits (l : list (row * Relevance)) | recent_items (l : list row).
(** [mcp/tools/context.py:22-66 context_recent] *)
Definition context_recent (query : option string) (project_id : option string) (memory_limit : Z) (compact : bool) : Sv catch_up :=
  let memory_limit := clamp 1 1000 memory_limit in
  match query ≫= non_empty with
  | Some q =>
      map_ok found_hits
        (search q memory_limit project_id None 0 compact "hybrid" false DEFAULT_PINNED_LIMIT true)
  | None =>
      map_ok recent_items (listing (Some memory_limit) false 0 project_id compact None None "pinned_first")
  end.
End surfaces.
