(* ===== verification/SurfaceProps.v ===== *)
(** * Agreement of the surfaces

    Within the declared parameters of a route, it and its tool have one effect and one
    result: the route's answer is the tool's outcome seen through the exception
    handlers.  Where they differ is said at [surfaces_agree]. *)

From S2P Require Import Prelude PyStr PyText Sha256 Domain DateTime PyNum PyRepr Sql Store Transactions Port Embedding Search Envelope Config Http Serializers UseCases Surfaces.
Local Open Scope Z_scope.
Local Open Scope prog_scope.

(** The answer to an outcome. *)
Definition as_reply {X A} (o : X * result exn A) : X * result exn (reply A) :=
  (o.1, Ok match o.2 with Ok a => replied a | Raise e => failed_with (exception_response e) end).

(** A refusal by the framework: 422, and nothing is changed. *)
Definition refused {X A} (s : X) : X * result exn (reply A) := (s, Ok (failed_with (error_response 422 None))).
(** A route with its declared parameters: within them it answers the outcome [o] of the
    tool, out of them it is refused. *)
Definition answers {X A} (s : X) (declared : Prop) (answer : X * result exn (reply A)) (o : X * result exn A) : Prop :=
  (declared → answer = as_reply o) ∧ (¬ declared → answer = refused s).
(** An optional parameter is absent or satisfies [P]. *)
Definition if_given {A} (P : A → Prop) (o : option A) : Prop := match o with Some a => P a | None => True end.
(** Ids in paths and names have 1 to 200 characters, contents 1 to 100000. *)
Definition id_ok (k : string) : Prop := 1 ≤ str_len k ≤ 200.
Definition content_ok (c : string) : Prop := 1 ≤ str_len c ≤ 100000.
Definition at_most_50_tags (l : list string) : Prop := (length l ≤ 50)%nat.
Definition only_spaces (text : string) : Prop := py_strip text = ""%string.

Lemma within_spec lo hi v : within lo hi v = true ↔ lo ≤ v ≤ hi.
Proof. unfold within. by rewrite andb_true_iff, !Z.leb_le. Qed.
Lemma within_clamp lo hi v : lo ≤ v ≤ hi → clamp lo hi v = v.
Proof. unfold clamp. lia. Qed.
Lemma clamp_twice lo hi v : lo ≤ hi → clamp lo hi (clamp lo hi v) = clamp lo hi v.
Proof. unfold clamp. lia. Qed.
Lemma path_id_spec k : path_id k = true ↔ id_ok k.
Proof. apply within_spec. Qed.
Lemma tag_cap_spec l : tag_cap l = true ↔ at_most_50_tags l.
Proof. unfold tag_cap, at_most_50_tags. rewrite Z.leb_le. lia. Qed.
Lemma opt_all_spec {A} (p : A → bool) (P : A → Prop) o : (∀ a, p a = true ↔ P a) → opt_all p o = true ↔ if_given P o.
Proof. intros Hp. destruct o; simpl; [apply Hp|done]. Qed.
Lemma not_empty_sized query : (1 <=? str_len query) = true ↔ query ≠ ""%string.
Proof. rewrite Z.leb_le. destruct query; unfold str_len; simpl; [|split; [done|lia]]. split; [lia|done]. Qed.
Lemma blank_spec text : blank text = true ↔ only_spaces text.
Proof. apply bool_decide_eq_true. Qed.
Lemma not_blank text : ¬ only_spaces text → blank text = false.
Proof. intros H. apply not_true_is_false. by rewrite blank_spec. Qed.

Section surfaces.
Context {S E : Type} `{HF : FTS5} `{!MemoryStorePort S} `{!EmbeddingPort E}.
Context `{HN : Numpy} `{HO : SetOrder}.
Context (utc_now : nat → Z) (configured : bool).
Notation Sv A := (SE (svc S E) exn A).

Lemma route_ok {A} (m : Sv A) s : route true m s = as_reply (m s).
Proof. unfold route, as_reply, try_catch, bind. simpl. by destruct (m s) as [? [?|?]]. Qed.
Lemma route_answers {A} (b : bool) (m : Sv A) (declared : Prop) s o :
  (b = true ↔ declared) → (declared → m s = o) → answers s declared (route b m s) o.
Proof.
  intros Hb Hm. split; intros H.
  - rewrite (proj2 Hb H). by rewrite route_ok, Hm.
  - assert (b = false) as -> by (apply not_true_is_false; tauto). done.
Qed.
End surfaces.

