(* ===== verification/Migrator.v ===== *)
(** * Schema migrations

    [core/infrastructure/persistence/migrator.py]: the migration files of a
    directory, their statements, and the runner that applies the pending ones,
    each under a savepoint.  SQLite's execution of a statement is an argument;
    a statement that fails changes nothing.  The script of a connection lists
    the errors of the [RELEASE]s that commit changes ([None] is success); with
    nothing to write a commit does not fail. *)

From S2P Require Import Prelude PyStr PyText Sha256 Domain DateTime PyNum.
Local Open Scope Z_scope.
Local Open Scope prog_scope.

(** ** Files *)

(** A directory entry; reading it may fail. *)
Record migration_file := mkFile { mf_name : string; mf_is_file : bool; mf_text : result exn string }.

(** [migrator.py:41-41 _MIGRATION_FILENAME_RE] The version in a file name. *)
Definition migration_version (nm : string) : option Z :=
  let (ds, l) := span_chars is_digit (chars nm) in
  if (length ds <? 3)%nat then None
  else
    l ← eat ["_"%char] l;
    let (slug, l) := span_chars (λ c, is_alnum_ascii c || bool_decide (c = "_"%char)) l in
    l ← eat (chars ".sql") l;
    if bool_decide (slug = []) || negb (at_end l) then None else Some (digits_value ds).

Definition name_leb (a b : migration_file) : bool := str_leb (mf_name a) (mf_name b).
Definition version_leb (a b : Z * migration_file) : bool := a.1 <=? b.1.
Definition as_migration (f : migration_file) : option (Z * migration_file) :=
  if mf_is_file f then v ← migration_version (mf_name f); Some (v, f) else None.
(** [migrator.py:104-117 _discover_migrations] [None] is no directory. *)
Definition discover_migrations (directory : option (list migration_file)) : list (Z * migration_file) :=
  match directory with
  | None => []
  | Some entries => sort_by version_leb (omap as_migration (sort_by name_leb entries))
  end.

(** [str.splitlines()] *)
Definition is_line_break (c : ascii) : bool :=
  let n := code c in ((10 <=? n) && (n <=? 13) || (28 <=? n) && (n <=? 30) || (n =? 133))%N.
Fixpoint splitlines (cur l : list ascii) : list (list ascii) :=
  match l with
  | [] => match cur with [] => [] | _ => [rev cur] end
  | c :: l' =>
      if is_line_break c then
        rev cur :: match l' with
          | d :: l'' => if (code c =? 13)%N && (code d =? 10)%N then splitlines [] l'' else splitlines [] l'
          | [] => []
          end
      else splitlines (c :: cur) l'
  end.
Definition cut_comment (line : list ascii) : list ascii :=
  match partition_chars (chars "--") line with Some (before, _) => before | None => line end.
(** [migrator.py:76-91 _split_sql] *)
Definition split_sql (script : string) : list string :=
  let body := join_chars [NEWLINE] (map cut_comment (splitlines [] (chars script))) in
  filter (λ s, s ≠ ""%string) (map (λ s, py_strip (of_chars s)) (split_text [";"%char] body)).

(** ** Timestamps *)

Definition udf : Type := option string → result exn (option string).

(** [migrator.py:46-49 _utc_timestamp] *)
Definition utc_timestamp : udf := λ value,
  match value with
  | None => Ok None
  | Some t =>
      match fromisoformat t with
      | None => Raise ValueError
      | Some d => let? u := require_utc d in Ok (Some (isoformat u))
      end
  end.

(** ** The runner *)

(** The rows of [schema_version], [None] before the table exists, and the rest. *)
Record database (B : Type) := mkDatabase { versions : option (list (Z * string)); contents : B }.
Arguments mkDatabase {B}.
Arguments versions {B}.
Arguments contents {B}.

(** What the connection sees, whether that differs from what is committed, its
    savepoints (innermost first), the function [oc_normalize_utc] if one is
    registered, and the commits to come. *)
Record link (B : Type) := mkLink {
  sees : database B;
  unsaved : bool;
  saves : list (string * database B);
  registered : option udf;
  commits : list (option string);
}.
Arguments mkLink {B}.
Arguments sees {B}.
Arguments unsaved {B}.
Arguments saves {B}.
Arguments registered {B}.
Arguments commits {B}.

Section runner.
Context {B : Type}.
Context (exec : option udf → string → database B → result exn (database B)).
Context (select : string → string → database B → result exn (list (string * option string))).
Context (utc_now : Z → string).
Notation M A := (SE (link B) exn A).

Definition set_sees (d : database B) (b : bool) (c : link B) : link B := mkLink d b (saves c) (registered c) (commits c).
Definition run_statement (stmt : string) : M unit := λ c,
  match exec (registered c) stmt (sees c) with Ok d => (set_sees d true c, Ok tt) | Raise e => (c, Raise e) end.
Definition create_function (f : option udf) : M unit := λ c, (mkLink (sees c) (unsaved c) (saves c) f (commits c), Ok tt).

(** [SAVEPOINT n]; outside a transaction it opens one. *)
Definition open_savepoint (n : string) : M unit := λ c,
  (mkLink (sees c) (unsaved c) ((n, sees c) :: saves c) (registered c) (commits c), Ok tt).
Definition missing_savepoint (n : string) : exn := OperationalError ("no such savepoint: " +:+ n).
(** [RELEASE n]: of the outermost savepoint it commits. *)
Definition release (n : string) : M unit := λ c,
  match saves c with
  | (m, d) :: rest =>
      if bool_decide (m = n) then
        match rest, unsaved c, commits c with
        | _ :: _, _, _ => (mkLink (sees c) (unsaved c) rest (registered c) (commits c), Ok tt)
        | [], true, Some msg :: more => (mkLink (sees c) true (saves c) (registered c) more, Raise (OperationalError msg))
        | [], true, more => (mkLink (sees c) false [] (registered c) (tail more), Ok tt)
        | [], false, _ => (mkLink (sees c) false [] (registered c) (commits c), Ok tt)
        end
      else (c, Raise (missing_savepoint n))
  | [] => (c, Raise (missing_savepoint n))
  end.
Definition rollback_to (n : string) : M unit := λ c,
  match saves c with
  | (m, d) :: rest => if bool_decide (m = n) then (set_sees d false c, Ok tt) else (c, Raise (missing_savepoint n))
  | [] => (c, Raise (missing_savepoint n))
  end.

(** [INSERT INTO schema_version]: the version is the primary key. *)
Definition insert_version (version : Z) (applied_at : string) (d : database B) : result exn (database B) :=
  match versions d with
  | None => Raise (OperationalError "no such table: schema_version")
  | Some rows =>
      if bool_decide (version ∈ map fst rows) then Raise (IntegrityError "UNIQUE constraint failed: schema_version.version")
      else Ok (mkDatabase (Some (rows ++ [(version, applied_at)])) (contents d))
  end.
Definition record_version (version : Z) : M unit := λ c,
  match insert_version version (utc_now version) (sees c) with Ok d => (set_sees d true c, Ok tt) | Raise e => (c, Raise e) end.

(** [migrator.py:94-101 _read_current_version] *)
Definition read_current_version (d : database B) : Z :=
  match versions d with
  | None | Some [] => 0
  | Some (r :: rows) => foldl (λ m x, Z.max m x.1) r.1 rows
  end.

Definition LEGACY_COLUMNS : list (string * string) :=
  [("projects", "created_at"); ("memory_items", "created_at"); ("memory_items", "updated_at")]%string.
Definition bad_timestamp (column : string) (value : option string) : bool :=
  match value with
  | None => negb (bool_decide (column = "updated_at"%string))
  | Some _ =>
      match utc_timestamp value with
      | Raise (TypeError | ValueError | ValidationError _) => true
      | _ => false
      end
  end.
(** [migrator.py:52-73 _check_legacy_timestamps] *)
Definition check_legacy_timestamps : M unit :=
  let* invalid := map_m (λ tc : string * string, λ c,
    (c, match select tc.1 tc.2 (sees c) with
        | Ok rows => Ok (filter (λ x : string * option string, bad_timestamp tc.2 x.2 = true) rows)
        | Raise e => Raise e
        end)) LEGACY_COLUMNS in
  if bool_decide (concat invalid = []) then ret tt else raise ValueError.

(** [migrator.py:43-43 _TIMESTAMP_MIGRATION] *)
Definition TIMESTAMP_MIGRATION : string := "005_normalize_timestamps.sql".
Definition savepoint_name (version : Z) : string := "mig_" +:+ str_of_Z version.

Fixpoint run_statements (l : list string) : M unit :=
  match l with [] => ret tt | s :: l' => run_statement s ;; run_statements l' end.

(** [migrator.py:136-166 apply_pending] One migration. *)
Definition apply_one (version : Z) (path : migration_file) : M unit :=
  let* sql := lift_result (mf_text path) in
  let statements := split_sql sql in
  let sp := savepoint_name version in
  open_savepoint sp ;;
  let has_timestamp_udf := bool_decide (mf_name path = TIMESTAMP_MIGRATION) in
  try_finally
    (try_catch
      ((if has_timestamp_udf then check_legacy_timestamps ;; create_function (Some utc_timestamp) else ret tt) ;;
       run_statements statements ;;
       record_version version ;;
       release sp)
      (λ _, rollback_to sp ;; release sp ;; raise (ConfigError CONFIG_ERROR)))
    (if has_timestamp_udf then create_function None else ret tt).

Fixpoint apply_each (pending : list (Z * migration_file)) : M (list Z) :=
  match pending with
  | [] => ret []
  | (version, path) :: rest =>
      apply_one version path ;;
      let* applied := apply_each rest in
      ret (version :: applied)
  end.

Definition pending_after (v : Z) (l : list (Z * migration_file)) : list (Z * migration_file) := filter (λ p, v < p.1) l.
(** [migrator.py:120-173 apply_pending] *)
Definition apply_pending (directory : option (list migration_file)) : M (list Z) :=
  let* d := gets sees in
  apply_each (pending_after (read_current_version d) (discover_migrations directory)).
End runner.
