(* ===== verification/MigratorProps.v ===== *)
(** * Properties of the migration runner

    Every migration applies in full or not at all, in ascending order, and a
    later run takes up where an earlier one stopped. *)

From S2P Require Import Prelude PyStr PyText Sha256 Domain DateTime PyNum Migrator.
Local Open Scope Z_scope.
Local Open Scope prog_scope.

Section runner.
Context {B : Type}.
Context (exec : option udf → string → database B → result exn (database B)).
Context (select : string → string → database B → result exn (list (string * option string))).
Context (utc_now : Z → string).
Notation M A := (SE (link B) exn A).

(** ** The effect of a migration on the database *)

Fixpoint effects_of_statements (u : option udf) (l : list string) (d : database B) : result exn (database B) :=
  match l with [] => Ok d | s :: l' => let? d' := exec u s d in effects_of_statements u l' d' end.
Definition is_timestamp_migration (p : migration_file) : bool := bool_decide (mf_name p = TIMESTAMP_MIGRATION).
Definition effect (p : Z * migration_file) (d : database B) : result exn (database B) :=
  let? sql := mf_text p.2 in
  let? d' := effects_of_statements (if is_timestamp_migration p.2 then Some utc_timestamp else None) (split_sql sql) d in
  insert_version p.1 (utc_now p.1) d'.
Fixpoint effects (l : list (Z * migration_file)) (d : database B) : result exn (database B) :=
  match l with [] => Ok d | p :: l' => let? d' := effect p d in effects l' d' end.

Lemma effects_snoc l p d d' d'' : effects l d = Ok d' → effect p d' = Ok d'' → effects (l ++ [p]) d = Ok d''.
Proof.
  revert d. induction l as [|q l IH]; intros d; simpl.
  - intros [= ->] ->. done.
  - destruct (effect q d); simpl; [apply IH|done].
Qed.

(** Nothing open, nothing registered. *)
Definition quiet (c : link B) : Prop := saves c = [] ∧ registered c = None ∧ unsaved c = false.

(** ** One migration *)

(** [m] leaves the component [f] of the connection alone. *)
Definition spares {X A} (f : link B → X) (m : M A) : Prop := ∀ c, f (m c).1 = f c.
Section spares.
Context {X : Type} (f : link B → X) (Hf : ∀ d b c, f (set_sees d b c) = f c).
Lemma spares_bind {A C} (m : M A) (k : A → M C) : spares f m → (∀ a, spares f (k a)) → spares f (bind m k).
Proof. intros Hm Hk c. unfold bind. specialize (Hm c). destruct (m c) as [c1 [a|e]]; [|done]. by rewrite Hk. Qed.
Lemma spares_statements l : spares f (run_statements exec l).
Proof.
  induction l; [done|]. apply spares_bind; [|done]. intros c. unfold run_statement.
  destruct (exec _ _ _); [apply Hf|done].
Qed.
Lemma spares_record v : spares f (record_version utc_now v).
Proof. intros c. unfold record_version. destruct (insert_version _ _ _); [apply Hf|done]. Qed.
End spares.

Lemma run_statements_ok l c c' :
  run_statements exec l c = (c', Ok tt) →
  effects_of_statements (registered c) l (sees c) = Ok (sees c') ∧ registered c' = registered c.
Proof.
  revert c. induction l as [|s l IH]; intros c; simpl; [by intros [= ->]|].
  rewrite bind_ok. intros ([]&c1&H1&H2). unfold run_statement in H1.
  destruct (exec (registered c) s (sees c)) as [d|e]; simplify_eq. simpl. by apply IH in H2.
Qed.

(** The part of a migration under the handler, up to the release. *)
Definition guarded (ts : bool) (statements : list string) (version : Z) : M unit :=
  (if ts then check_legacy_timestamps select ;; create_function (Some utc_timestamp) else ret tt) ;;
  run_statements exec statements ;;
  record_version utc_now version.

Lemma check_stays c : ∃ r, check_legacy_timestamps select c = (c, r).
Proof.
  unfold check_legacy_timestamps, bind.
  set (f := λ tc : string * string, _). assert (∀ l, ∃ r, map_m f l c = (c, r)) as Hm.
  { induction l as [|x l IH]; simpl; [by eexists|]. unfold bind. destruct IH as [r IH]. unfold f at 1.
    destruct (select _ _ _); [|by eexists]. rewrite IH. destruct r; by eexists. }
  destruct (Hm LEGACY_COLUMNS) as [[l|e] ->]; [|by eexists]. case_bool_decide; by eexists.
Qed.

Lemma guarded_keeps {X} (f : link B → X) ts l v :
  (∀ d b c, f (set_sees d b c) = f c) → (ts = true → ∀ g, spares f (create_function g)) → spares f (guarded ts l v).
Proof.
  intros Hf Hc. apply spares_bind; [|intros _; apply spares_bind; [by apply spares_statements|intros _; by apply spares_record]].
  destruct ts; [|done]. apply spares_bind; [|by intros; apply Hc]. intros c. by destruct (check_stays c) as [r ->].
Qed.

Lemma guarded_ok ts l v c c' :
  registered c = None → guarded ts l v c = (c', Ok tt) →
  (let? d := effects_of_statements (if ts then Some utc_timestamp else None) l (sees c) in
   insert_version v (utc_now v) d) = Ok (sees c') ∧ unsaved c' = true ∧
  registered c' = (if ts then Some utc_timestamp else None).
Proof.
  intros Hr. unfold guarded. rewrite bind_ok. intros ([]&c1&H1&H2).
  assert (sees c1 = sees c ∧ registered c1 = if ts then Some utc_timestamp else None) as [Hs1 Hr1].
  { destruct ts; [|by injection H1 as <-]. apply bind_ok in H1 as ([]&c2&H1&H3).
    destruct (check_stays c) as [r Hc]. rewrite Hc in H1. unfold create_function in H3. by simplify_eq/=. }
  apply bind_ok in H2 as ([]&c3&H3&H4). apply run_statements_ok in H3 as [H3 Hr3].
  rewrite <- Hs1, <- Hr1, H3. simpl. unfold record_version in H4.
  destruct (insert_version _ _ _); simplify_eq/=. by rewrite Hr3.
Qed.

Lemma apply_one_text v p c sql :
  mf_text p = Ok sql →
  apply_one exec select utc_now v p c =
  try_finally
    (try_catch (bind (guarded (is_timestamp_migration p) (split_sql sql) v) (λ _, release (savepoint_name v)))
      (λ _, rollback_to (savepoint_name v) ;; release (savepoint_name v) ;; raise (ConfigError CONFIG_ERROR)))
    (if is_timestamp_migration p then create_function None else ret tt)
    (mkLink (sees c) (unsaved c) ((savepoint_name v, sees c) :: saves c) (registered c) (commits c)).
Proof.
  intros Hsql. unfold apply_one. rewrite Hsql. unfold bind at 1 2. simpl. unfold try_finally, try_catch.
  replace (is_timestamp_migration p) with (bool_decide (mf_name p = TIMESTAMP_MIGRATION)) by done.
  match goal with
  | |- (let (_, _) := (let (_, _) := ?x in _) in _) = (let (_, _) := (let (_, _) := ?y in _) in _) =>
      assert (x = y) as ->; [|done]
  end.
  unfold guarded, bind. by repeat case_match; simplify_eq.
Qed.

Lemma apply_one_spec v p c :
  quiet c →
  let out := apply_one exec select utc_now v p c in
  quiet out.1 ∧
  match out.2 with
  | Ok _ => effect (v, p) (sees c) = Ok (sees out.1)
  | Raise e => sees out.1 = sees c ∧ e = match mf_text p with Ok _ => ConfigError CONFIG_ERROR | Raise e => e end
  end.
Proof.
  intros (Hs&Hr&Hu). destruct c as [se un sa re co]. simpl in Hs, Hr, Hu. subst. cbv zeta.
  unfold effect. cbn [fst snd sees]. destruct (mf_text p) as [sql|e] eqn:Hsql; cycle 1.
  { unfold apply_one. by rewrite Hsql. }
  cbn [result_bind]. rewrite (apply_one_text v p _ sql Hsql). set (ts := is_timestamp_migration p). clearbody ts.
  set (sp := savepoint_name v). set (c0 := mkLink _ _ _ _ _).
  unfold try_finally, try_catch.
  set (back := rollback_to sp ;; release sp ;; @raise (link B) exn unit (ConfigError CONFIG_ERROR)).
  assert (∀ s, bind (guarded ts (split_sql sql) v) (λ _, release sp) s =
    match guarded ts (split_sql sql) v s with (s', Ok _) => release sp s' | (s', Raise e) => (s', Raise e) end)
    as Hrun by done.
  rewrite Hrun.
  pose proof (guarded_keeps saves ts (split_sql sql) v ltac:(done) ltac:(done) c0) as Hin.
  assert (ts = false → registered (guarded ts (split_sql sql) v c0).1 = None) as Hreg.
  { intros Hts. by rewrite (guarded_keeps registered ts) by (done || by rewrite Hts). }
  destruct (guarded ts (split_sql sql) v c0) as [c1 r1] eqn:Hg. simpl in Hin, Hreg.
  assert (∀ c2, saves c2 = [(sp, se)] → registered c2 = registered c1 →
    ∃ c3, back c2 = (c3, Raise (ConfigError CONFIG_ERROR)) ∧
      saves c3 = [] ∧ unsaved c3 = false ∧ sees c3 = se ∧ (ts = false → registered c3 = None)) as Hback.
  { intros c2 Hc2 Hr2. unfold back, bind, rollback_to. rewrite Hc2, bool_decide_eq_true_2 by done. simpl.
    unfold release, set_sees. simpl. rewrite Hc2, bool_decide_eq_true_2 by done. simpl. rewrite Hr2. by eexists. }
  destruct r1 as [[]|e1]; cycle 1.
  { destruct (Hback c1 Hin eq_refl) as (c3&->&Hs3&Hu3&He3&Hr3).
    destruct ts; repeat split; simpl; auto. }
  pose proof (guarded_ok ts (split_sql sql) v c0 c1 eq_refl Hg) as (Heff&Hu1&Hr1).
  assert (release sp c1 =
    match commits c1 with
    | Some msg :: more => (mkLink (sees c1) true (saves c1) (registered c1) more, Raise (OperationalError msg))
    | more => (mkLink (sees c1) false [] (registered c1) (tail more), Ok tt)
    end) as ->.
  { unfold release. by rewrite Hin, bool_decide_eq_true_2, Hu1 by done. }
  destruct (commits c1) as [|[msg|] more] eqn:Hcom.
  - destruct ts; repeat split; solve [exact Heff | simpl; auto].
  - match goal with |- context [mkLink ?a ?b ?d ?e ?g] => set (c2 := mkLink a b d e g) end.
    destruct (Hback c2 Hin eq_refl) as (c3&->&Hs3&Hu3&He3&Hr3).
    destruct ts; repeat split; simpl; auto.
  - destruct ts; repeat split; solve [exact Heff | simpl; auto].
Qed.

(** ** The loop *)

Lemma apply_each_spec l c :
  quiet c →
  let out := apply_each exec select utc_now l c in
  quiet out.1 ∧ ∃ done rest, l = done ++ rest ∧ effects done (sees c) = Ok (sees out.1) ∧
  match out.2 with
  | Ok vs => rest = [] ∧ vs = map fst done
  | Raise e => ∃ p, head rest = Some p ∧ e = match mf_text p.2 with Ok _ => ConfigError CONFIG_ERROR | Raise e => e end
  end.
Proof.
  revert c. induction l as [|[v p] l IH]; intros c Hq; simpl.
  { split; [done|]. by exists [], []. }
  destruct (apply_one_spec v p c Hq) as [Hq1 H1]. unfold bind.
  destruct (apply_one exec select utc_now v p c) as [c1 [[]|e]]; simpl in Hq1, H1 |- *; cycle 1.
  { destruct H1 as [<- ->]. split; [done|]. exists [], ((v, p) :: l). split; [done|]. split; [done|]. by exists (v, p). }
  destruct (IH c1 Hq1) as (Hq2&done_&rest&->&He&Hr).
  destruct (apply_each exec select utc_now (done_ ++ rest) c1) as [c2 [vs|e]]; simpl in Hq2, He, Hr |- *;
    (split; [done|]); exists ((v, p) :: done_), rest; (split; [done|]); (split; [by simpl; rewrite H1|]).
  - by destruct Hr as [-> ->].
  - done.
Qed.

(** ** Versions *)

Definition rows (d : database B) : list (Z * string) := default [] (versions d).

Lemma foldl_max_le (l : list (Z * string)) m : m ≤ foldl (λ m x, Z.max m x.1) m l.
Proof. revert m. induction l as [|x l IH]; intros m; simpl; [lia|]. etrans; [|apply IH]. lia. Qed.
Lemma foldl_max_in (l : list (Z * string)) m :
  foldl (λ m x, Z.max m x.1) m l = m ∨ foldl (λ m x, Z.max m x.1) m l ∈ map fst l.
Proof.
  revert m. induction l as [|x l IH]; intros m; simpl; [by left|].
  destruct (IH (Z.max m x.1)) as [->|H]; [|right; by right].
  destruct (Z.max_spec m x.1) as [[_ ->]|[_ ->]]; [right; left|by left].
Qed.
Lemma current_in d : rows d ≠ [] → read_current_version d ∈ map fst (rows d).
Proof.
  unfold rows, read_current_version. destruct (versions d) as [[|r l]|]; simpl; [done| |done].
  intros _. destruct (foldl_max_in l r.1) as [->|H]; [left|by right].
Qed.
Lemma current_snoc d d' v t :
  rows d' = rows d ++ [(v, t)] → (rows d ≠ [] → read_current_version d ≤ v) → read_current_version d' = v.
Proof.
  unfold rows, read_current_version. destruct (versions d') as [l'|]; simpl; [|by destruct (default [] (versions d))].
  intros ->. destruct (versions d) as [[|r l]|]; simpl; try done.
  intros H. rewrite foldl_app. simpl. specialize (H ltac:(done)). lia.
Qed.

Section kept.
Context (Hkeep : ∀ u s d d', exec u s d = Ok d' → rows d' = rows d).

Lemma effects_of_statements_rows u l d d' : effects_of_statements u l d = Ok d' → rows d' = rows d.
Proof.
  revert d. induction l as [|s l IH]; intros d; simpl; [by intros [= ->]|].
  destruct (exec u s d) as [d1|] eqn:He; simpl; [|done]. intros H%IH. by rewrite H, (Hkeep _ _ _ _ He).
Qed.
Lemma effect_rows p d d' :
  effect p d = Ok d' → p.1 ∉ map fst (rows d) ∧ rows d' = rows d ++ [(p.1, utc_now p.1)].
Proof.
  unfold effect. destruct (mf_text p.2); simpl; [|done].
  destruct (effects_of_statements _ _ d) as [d1|] eqn:He; simpl; [|done].
  apply effects_of_statements_rows in He. unfold insert_version, rows in *.
  destruct (versions d1) as [l|]; [|done]. case_bool_decide; [done|]. intros [= <-]. simpl in *. by subst.
Qed.

Lemma effects_versions l d d' :
  effects l d = Ok d' → StronglySorted Z.le (map fst l) → Forall (λ v, read_current_version d ≤ v) (map fst l) →
  read_current_version d' = default (read_current_version d) (last (map fst l)) ∧
  StronglySorted Z.lt (map fst l) ∧ (rows d ≠ [] → Forall (λ v, read_current_version d < v) (map fst l)).
Proof.
  revert d. induction l as [|p l IH]; intros d; simpl.
  { intros [= ->] _ _. repeat constructor. }
  destruct (effect p d) as [d1|] eqn:He; simpl; [|done]. apply effect_rows in He as [Hnew Hrows].
  intros Hl [Hs Hp]%StronglySorted_inv [Hc Hcl]%Forall_cons.
  assert (read_current_version d1 = p.1) as H1 by (by eapply current_snoc).
  destruct (IH d1 Hl Hs) as (IH1&IH2&IH3); [by rewrite H1|].
  assert (rows d1 ≠ []) as Hne by (rewrite Hrows; by destruct (rows d)). specialize (IH3 Hne). rewrite H1 in IH1, IH3.
  split_and!.
  - rewrite IH1, last_cons. by destruct (last (map fst l)).
  - by constructor.
  - intros Hd. assert (read_current_version d < p.1).
    { pose proof (current_in d Hd). destruct (decide (read_current_version d = p.1)); [congruence|lia]. }
    constructor; [done|]. eapply Forall_impl; [exact IH3|]. simpl. lia.
Qed.
End kept.
End runner.

Lemma discover_sorted directory : StronglySorted Z.le (map fst (discover_migrations directory)).
Proof.
  destruct directory as [l|]; simpl; [|constructor].
  pose proof (sort_by_strongly_sorted version_leb (omap as_migration (sort_by name_leb l))) as H.
  revert H. generalize (sort_by version_leb (omap as_migration (sort_by name_leb l))). intros k H.
  specialize (H ltac:(unfold version_leb; intros x y; rewrite Z.leb_le, Z.leb_gt; lia)
                ltac:(unfold version_leb; intros x y z; rewrite !Z.leb_le; lia)).
  induction H as [|x k _ IH Hx]; simpl; constructor; [done|]. apply Forall_fmap.
  eapply Forall_impl; [exact Hx|]. unfold version_leb. simpl. intros y. by rewrite Z.leb_le.
Qed.
Lemma filter_ascending P `{!∀ x, Decision (P x)} (l : list (Z * migration_file)) :
  StronglySorted Z.le (map fst l) → StronglySorted Z.le (map fst (filter P l)).
Proof.
  induction l as [|x l IH]; [done|]. simpl. intros [Hs Hx]%StronglySorted_inv. rewrite filter_cons.
  case_decide; [|by apply IH]. simpl. constructor; [by apply IH|].
  apply Forall_forall. intros v (y&->&[_ Hy]%list_elem_of_filter)%list_elem_of_fmap.
  by apply (proj1 (Forall_forall _ _) Hx), list_elem_of_fmap_2.
Qed.

Lemma pending_none v (l : list (Z * migration_file)) : Forall (λ x, x ≤ v) (map fst l) → pending_after v l = [].
Proof.
  induction l as [|p l IH]; simpl; [done|]. intros [Hp Hl]%Forall_cons. unfold pending_after.
  rewrite filter_cons_False by lia. by apply IH.
Qed.

(** C26. The runner applies a prefix of the pending migrations, in strictly
    ascending order and each in full: what it leaves is exactly their effect,
    with no savepoint open and no function registered, whatever statement,
    check, insertion or commit fails.  A normal return has applied them all,
    and running again from there does nothing; after a failure the next run
    starts from what is left. *)
Theorem migrations_resume {B : Type} (exec : option udf → string → database B → result exn (database B))
    (select : string → string → database B → result exn (list (string * option string))) (utc_now : Z → string)
    (directory : option (list migration_file)) (c : link B) :
  (∀ u s d d', exec u s d = Ok d' → rows d' = rows d) → quiet c →
  let todo := pending_after (read_current_version (sees c)) (discover_migrations directory) in
  let out := apply_pending exec select utc_now directory c in
  quiet out.1 ∧ ∃ done rest,
    todo = done ++ rest ∧ StronglySorted Z.lt (map fst done) ∧
    effects exec utc_now done (sees c) = Ok (sees out.1) ∧
    read_current_version (sees out.1) = default (read_current_version (sees c)) (last (map fst done)) ∧
    pending_after (read_current_version (sees out.1)) (discover_migrations directory) =
      pending_after (read_current_version (sees out.1)) rest ∧
    match out.2 with
    | Ok vs => vs = map fst todo ∧ rest = [] ∧ apply_pending exec select utc_now directory out.1 = (out.1, Ok [])
    | Raise e => ∃ p, head rest = Some p ∧ e = match mf_text p.2 with Ok _ => ConfigError CONFIG_ERROR | Raise e => e end
    end.
Proof.
  intros Hkeep Hq todo out.
  assert (out = apply_each exec select utc_now todo c) as Hout by done.
  pose proof (apply_each_spec exec select utc_now todo c Hq) as H. cbv zeta in H. rewrite <- Hout in H. clearbody out. clear Hout.
  destruct H as (Hq'&done_&rest&Htodo&Heff&Hr). split; [done|]. exists done_, rest. split; [done|].
  assert (StronglySorted Z.le (map fst todo)) as Hs by apply filter_ascending, discover_sorted.
  assert (Forall (λ v, read_current_version (sees c) < v) (map fst todo)) as Hlt.
  { apply Forall_fmap, Forall_forall. intros p [Hp _]%list_elem_of_filter. exact Hp. }
  pose proof Hlt as Hdone. rewrite Htodo, map_app in Hs, Hdone. apply Forall_app in Hdone as [Hdone Hrest].
  apply StronglySorted_app in Hs as (Hcross&Hs&_).
  destruct (effects_versions exec utc_now Hkeep done_ _ _ Heff Hs) as (Hcur&Hstrict&_).
  { eapply Forall_impl; [exact Hdone|]. simpl. lia. }
  assert (read_current_version (sees c) ≤ read_current_version (sees out.1) ∧
          Forall (λ v, v ≤ read_current_version (sees out.1)) (map fst done_)) as [Hge Hle].
  { rewrite Hcur. clear -Hs Hdone. induction done_ as [|p l IH]; simpl in *; [done|].
    apply StronglySorted_inv in Hs as [Hs Hp]. apply Forall_cons in Hdone as [Hd Hdone].
    destruct (IH Hs Hdone) as [IH1 IH2]. pose proof (last_cons p.1 (map fst l)) as Hl.
    simpl in Hl |- *. rewrite Hl. destruct (last (map fst l)) as [v|] eqn:Hv; simpl in *.
    - split; [done|]. constructor; [|done]. apply last_Some_elem_of in Hv. by apply (proj1 (Forall_forall _ _) Hp).
    - apply last_None in Hv. destruct l; [|done]. simpl. repeat constructor; lia. }
  assert (pending_after (read_current_version (sees out.1)) (discover_migrations directory) =
          pending_after (read_current_version (sees out.1)) rest) as Hnext.
  { transitivity (pending_after (read_current_version (sees out.1)) todo).
    - unfold todo, pending_after. rewrite list_filter_filter. apply list_filter_iff. intros p. lia.
    - rewrite Htodo. unfold pending_after. rewrite filter_app.
      by change (pending_after (read_current_version (sees out.1)) done_ ++ pending_after (read_current_version (sees out.1)) rest =
        pending_after (read_current_version (sees out.1)) rest); rewrite (pending_none _ done_). }
  split_and!; try done.
  destruct out.2 as [vs|e]; [|done]. destruct Hr as [-> ->]. rewrite app_nil_r in Htodo. rewrite Htodo. split_and!; try done.
  unfold apply_pending, bind, gets. simpl. rewrite Hnext. simpl. done.
Qed.

(** ** Runs *)

(** A toy engine: it creates the version table, logs other statements, and
    fails on one of them. *)
Definition demo_exec (u : option udf) (s : string) (d : database (list string)) : result exn (database (list string)) :=
  if bool_decide (s = "CREATE TABLE schema_version"%string) then Ok (mkDatabase (Some (rows d)) (contents d))
  else if bool_decide (s = "boom"%string) then Raise (OperationalError "boom")
  else Ok (mkDatabase (versions d) (contents d ++ [s])).
Definition demo_select (table column : string) (d : database (list string)) : result exn (list (string * option string)) :=
  Ok [("m1", Some "2024-01-01T00:00:00+01:00")]%string.
Definition file (nm text : string) : migration_file := mkFile nm true (Ok text).
Definition demo_files (third : string) : list migration_file :=
  [file "002_more.sql" "b"; file "README.md" "-"; file "003_bad.sql" third;
   file "001_init.sql" ("CREATE TABLE schema_version; -- not; a statement" +:+ of_chars [NEWLINE] +:+ " a ;")]%string.
Definition demo_link (commits : list (option string)) : link (list string) := mkLink (mkDatabase None []) false [] None commits.
Definition demo_run (third : string) (commits : list (option string)) :=
  apply_pending demo_exec demo_select (λ _, "now"%string) (Some (demo_files third)) (demo_link commits).

Lemma demo_keeps u s d d' : demo_exec u s d = Ok d' → rows d' = rows d.
Proof. unfold demo_exec. repeat case_bool_decide; [by intros [= <-]|done|by intros [= <-]]. Qed.

Lemma migrations_resume_witness :
  quiet (demo_run "c; boom" []).1 ∧
  (demo_run "c; boom" []).2 = Raise (ConfigError CONFIG_ERROR) ∧
  contents (sees (demo_run "c; boom" []).1) = ["a"; "b"]%string ∧
  versions (sees (demo_run "c; boom" []).1) = Some [(1, "now"); (2, "now")]%string.
Proof.
  split; [|vm_compute; done].
  destruct (migrations_resume demo_exec demo_select (λ _, "now"%string) (Some (demo_files "c; boom")) (demo_link [])
    demo_keeps) as [H _]; [by vm_compute|exact H].
Defined.

(** A commit that fails undoes its migration like a failing statement. *)
Example failed_commit :
  versions (sees (demo_run "c" [None; Some "database is locked"%string]).1) = Some [(1, "now"%string)].
Proof. vm_compute. reflexivity. Qed.

(** Two files with one number: the first start fails at the second of them, and
    the next start passes it over in silence. *)
Example duplicate_number_skipped :
  let files := [file "001_a.sql" "CREATE TABLE schema_version"; file "001_b.sql" "b"]%string in
  let first := apply_pending demo_exec demo_select (λ _, "now"%string) (Some files) (demo_link []) in
  let second := apply_pending demo_exec demo_select (λ _, "now"%string) (Some files) first.1 in
  first.2 = Raise (ConfigError CONFIG_ERROR) ∧ second.2 = Ok [] ∧ contents (sees second.1) = [].
Proof. vm_compute. done. Qed.

(** What the timestamp migration writes it would write again. *)
Lemma utc_timestamp_stable v t : utc_timestamp v = Ok (Some t) → utc_timestamp (Some t) = Ok (Some t).
Proof.
  unfold utc_timestamp. destruct v as [s|]; [|done]. destruct (fromisoformat s) as [d|]; [|done].
  unfold require_utc. destruct (utcoff d) as [off|]; simpl; [|done].
  case_bool_decide as Ht; simpl; [|done]. intros [= <-]. rewrite fromisoformat_isoformat by done. simpl.
  by rewrite bool_decide_eq_true_2, Z.sub_0_r by (rewrite Z.sub_0_r; done).
Qed.
