(* ===== verification/OfflineRestore.v ===== *)
(** * The offline restore helper

    [scripts/offline_restore.py]: a helper run while the service is stopped that
    stages a snapshot, archives the live database and swaps the snapshot in
    ([activate]), swaps the archived database back ([rollback]), and records
    its progress in [.recovery/<operation>/state.json], so that it can be
    resumed wherever it was interrupted.  It runs on the file system of
    [FileSystem], where every call may fail.  SQLite is outside: what it reads,
    copies and leaves beside a file it opens are fields of [sqlite]; what the
    operating system answers is the record [helper].  Absolute paths begin with
    the component [/], as in [Path.parts]. *)

From S2P Require Import Prelude PyStr PyText Sha256 Domain DateTime PyNum PyRepr FileSystem Backups.
Local Open Scope Z_scope.
Local Open Scope prog_scope.

(** ** What is outside *)

(** A [sqlite3.DatabaseError]. *)
Record sql_error := mkSqlError { err_code : option Z; err_name : string; err_text : string }.
(** [origin.backup(destination)]: the bytes of the copy, or what a failed copy
    left of it. *)
Inductive copy_result := Copied (s : string) | NotCopied (e : sql_error) (remains : option string).
Record sqlite := mkSqlite {
  (** the first row of each check, and the four queries of an identity: the
      schema version, the project ids in order, the memories, the embeddings *)
  integrity_row : string → sql_error + option string;
  fk_row : string → sql_error + bool;
  identity_of : string → sql_error + (Z * list string * Z * Z);
  (** a database with its [-wal] and its [-shm] *)
  backup_of : string → option string → option string → copy_result;
  (** what opening a database for reading leaves beside it *)
  opened : path → fs → fs;
  (** a write transaction that is rolled back *)
  write_lock : path → fs → fs * option sql_error;
}.
Record helper := mkHelper {
  linux : bool;
  euid : Z;
  helper_variable : option string;  (** [OC_OFFLINE_RESTORE] *)
  pid1 : string;  (** [/proc/1/cmdline] *)
  writable : fs → path → bool;  (** [os.access(p, os.W_OK)] *)
  resolved : fs → path → path;  (** [p.resolve()] *)
  free_bytes : Z;
  same_device : bool;
  now : Z;
  token : nat → string;  (** the random names of one run, in order *)
  torn : string;  (** what a file being written holds when the process dies *)
  os_text : exn → string;  (** [str] of an exception of the system *)
}.

(** ** Paths as text *)

(** [str(p)] *)
Definition path_str (p : path) : string :=
  match p with
  | [] => "."
  | root :: rest => if starts_with "/" root then root +:+ py_join "/" rest else py_join "/" p
  end.
(** [Path(s)] *)
Definition path_of_str (s : string) : path :=
  let parts := List.filter (λ n, negb (bool_decide (n = ""%string) || bool_decide (n = "."%string))) (py_split_on "/"%char s) in
  if starts_with "///" s || (starts_with "/" s && negb (starts_with "//" s)) then "/"%string :: parts
  else if starts_with "//" s then "//"%string :: parts
  else parts.
Definition is_absolute (p : path) : bool := match p with root :: _ => starts_with "/" root | [] => false end.
Definition below (top p : path) : bool := bool_decide (take (length top) p = top).

Example path_forms : map path_of_str ["/data/openchronicle.db"; "a//b/./c"; "//x"; ""]%string
    = [["/"; "data"; "openchronicle.db"]; ["a"; "b"; "c"]; ["//"; "x"]; []]%string
  ∧ map path_str [["/"; "data"; "openchronicle.db"]; ["a"; "b"]; []; ["/"]]%string = ["/data/openchronicle.db"; "a/b"; "."; "/"]%string.
Proof. vm_compute. done. Qed.

Definition is_name_char (c : ascii) : bool := is_lower_ascii c || is_digit c.
(** [scripts/offline_restore.py:28-28 _ID] *)
Definition id_ok (s : string) : bool :=
  match chars s with
  | c :: l => is_name_char c && forallb (λ d, is_name_char d || bool_decide (d = "-"%char)) l
      && (3 <=? length l)%nat && (length l <=? 63)%nat
  | [] => false
  end.
Definition hex_run (n : nat) (l : list ascii) : bool := (length l =? n)%nat && forallb is_hex_digit l.
(** [scripts/offline_restore.py:29-29 _CANDIDATE] *)
Definition candidate_ok (name : string) : bool :=
  match eat (chars "candidate-") (chars name) with
  | Some l => hex_run 24 (take 24 l) && bool_decide (drop 24 l = chars ".db")
  | None => false
  end.
(** [scripts/offline_restore.py:30-30 _MARGIN] *)
Definition MARGIN : Z := 16 * 1024 * 1024.
(** [scripts/offline_restore.py:33-33 _SQLITE_CORRUPT] *)
Definition NOT_A_DATABASE : list Z := [11; 26].
(** [scripts/offline_restore.py:35-39 _ARCHIVING_NOTE] *)
Definition ARCHIVING_NOTE : string :=
  "Activation stopped before the main database file was replaced; there is nothing to roll back. " +:+
  "The helper reads the live family only by byte copy, so it is unchanged; raw-old holds a copy. " +:+
  "Start the service, or activate again under a new operation ID.".
(** [scripts/offline_restore.py:233-233 _HELD] *)
Definition HELD : list string := ["SQLITE_BUSY"; "SQLITE_LOCKED"]%string.
(** [scripts/offline_restore.py:236-236 _PROBE_PENDING] *)
Definition PROBE_PENDING : string :=
  "pending: the installed file has not been probed; run `probe` after checking why the helper stopped".
(** [scripts/offline_restore.py:238-238 _PROBE_STALE] *)
Definition PROBE_STALE : string :=
  "stale: the installed file was written since the swap; this result does not describe it".

(** ** JSON documents *)

(** [json.dump(v, sort_keys=True)] writes the keys of every object in order. *)
Fixpoint sorted_keys (v : json) : json :=
  match v with
  | JArr l => JArr (map sorted_keys l)
  | JObj l => JObj (sort_by key_leb (map (λ kv, (kv.1, sorted_keys kv.2)) l))
  | _ => v
  end.
(** [a == b] of two dictionaries, where [b] is a value of [inspect_file]. *)
Definition same_info (a b : dict) : bool := (length a =? length b)%nat && matches a b.
(** [(v or {}).get(k)] *)
Definition get_in (v : option json) (k : string) : result exn (option json) :=
  match v with
  | Some (JObj l) => Ok (jget k l)
  | Some w => if truthy w then Raise AttributeError else Ok None
  | None => Ok None
  end.
(** Whether a value is this text. *)
Definition is_text (v : option json) (s : string) : bool :=
  match v with Some (JStr t) => bool_decide (t = s) | _ => false end.
Definition recorded_text (v : option json) : string := match v with Some j => py_str j | None => "" end.

Definition refuse {A} (msg : string) : IO A := raise (RestoreError msg).
Definition refuse_if (b : bool) (msg : string) : IO unit := if b then refuse msg else ret tt.
Definition refuse_when (g : fs → bool) (msg : string) : IO unit := let* b := look g in refuse_if b msg.
(** A call that reads. *)
Definition reading {A} (g : fs → result exn A) : IO A := io (λ f, (f, g f)).
(** An SQLite call that meets a failing system call. *)
Definition as_sqlite {A} (m : IO A) : IO A :=
  try_catch m (λ e, if is_os_error e then raise (SqliteError (Some 10) "SQLITE_IOERR" "disk I/O error") else raise e).
Definition fail_sql {A} (e : sql_error) : IO A := raise (SqliteError (err_code e) (err_name e) (err_text e)).

(** [scripts/offline_restore.py:63-70 _fsync_dir] *)
Definition fsync_dir (p : path) : IO unit := touch_nothing.

Definition wal_of (p : path) : path := suffixed p "-wal".
Definition shm_of (p : path) : path := suffixed p "-shm".
Definition sidecars (p : path) : list path := [wal_of p; shm_of p].
(** [scripts/offline_restore.py:147-148 _family] *)
Definition family (f : fs) (db : path) : list path :=
  List.filter (λ p, exists_ f p || is_symlink f p) (db :: sidecars db).
(** [scripts/offline_restore.py:118-119 _state_path] *)
Definition state_path (recovery : path) : path := recovery ++ ["state.json"%string].

(** [scripts/offline_restore.py:73-75 _regular] *)
Definition regular (p : path) : IO unit :=
  refuse_when (λ f, is_symlink f p || negb (is_file f p)) ("Missing or non-regular file: " +:+ path_str p).

Section helper.
Context (sq : sqlite) (scan : fs → path → list string) (h : helper).

Definition text_of (c : content) : string :=
  match c with Bytes s => s | Doc j => json_dumps j +:+ LINE | Partial => torn h end.
Definition read_content (p : path) : IO content :=
  reading (λ f, match f !! p with Some (File c) => Ok c | Some _ => Raise OSError | None => Raise FileNotFoundError end).
(** [scripts/offline_restore.py:55-60 _sha256] *)
Definition file_sha (p : path) : IO string := let* c := read_content p in ret (sha256_hex (text_of c)).
(** [p.stat().st_size] *)
Definition size_of (p : path) : IO Z := let* c := read_content p in ret (str_len (text_of c)).

(** ** Looking at a database *)

(** [scripts/offline_restore.py:97-104 _inspect] The identity. *)
Definition identity_entries (r : Z * list string * Z * Z) : dict :=
  let '(schema, ids, memories, embeddings) := r in
  [("schema_version", JInt schema); ("project_identity_sha256", JStr (hash_content (py_join LINE ids)));
   ("project_count", JInt (Z.of_nat (length ids))); ("memory_count", JInt memories); ("embedding_count", JInt embeddings)]%string.

(** [scripts/offline_restore.py:84-96 _inspect] The queries. *)
Definition inspect_rows (p : path) (s : string) : result exn (Z * list string * Z * Z) :=
  let cannot := Raise (RestoreError ("Cannot inspect OpenChronicle database: " +:+ path_str p)) in
  match integrity_row sq s with
  | inl _ => cannot
  | inr row =>
      if negb (bool_decide (row = Some "ok"%string)) then Raise (RestoreError ("SQLite integrity_check failed: " +:+ path_str p))
      else match fk_row sq s with
      | inl _ => cannot
      | inr true => Raise (RestoreError ("SQLite foreign_key_check failed: " +:+ path_str p))
      | inr false => match identity_of sq s with inl _ => cannot | inr r => Ok r end
      end
  end.
(** [scripts/offline_restore.py:78-104 _inspect] *)
Definition inspect_file (p : path) : IO dict :=
  regular p ;;
  refuse_when (λ f, existsb (exists_ f) (sidecars p)) ("Expected a standalone SQLite file without sidecars: " +:+ path_str p) ;;
  let* c := try_catch (read_content p) (λ _, refuse ("Cannot inspect OpenChronicle database: " +:+ path_str p)) in
  let* r := lift_result (inspect_rows p (text_of c)) in
  let* sha := file_sha p in
  ret (("sha256"%string, JStr sha) :: identity_entries r).

(** [scripts/offline_restore.py:107-115 _copy_durable] *)
Definition copy_durable (source target : path) : IO unit :=
  regular source ;;
  let* c := read_content source in
  open_new target ;;
  put_file target c ;;
  fsync ;;
  fsync_dir (parent target).

(** ** The recovery state *)

(** [scripts/offline_restore.py:122-134 _save_state] *)
Definition save_state (recovery : path) (tok : string) (state : dict) : IO unit :=
  let temp := recovery ++ ["state-" +:+ tok +:+ ".tmp"]%string in
  try_finally
    (open_new temp ;;
     put_file temp (Doc (sorted_keys (JObj state))) ;;
     fsync ;;
     replace_file temp (state_path recovery))
    (unlink true temp) ;;
  fsync_dir recovery.

(** [scripts/offline_restore.py:137-144 _load_state] *)
Definition load_state (recovery : path) : IO dict :=
  let* c := try_catch (read_content (state_path recovery)) (λ _, refuse "Recovery state is missing or unreadable") in
  match c with
  | Doc (JObj l) => ret l
  | Doc _ => refuse "Recovery state is malformed"
  | _ => refuse "Recovery state is missing or unreadable"
  end.

Definition recovery_of (db : path) (operation_id : string) : path := parent db ++ [".recovery"%string; operation_id].
(** [scripts/offline_restore.py:151-157 _recovery_dir] *)
Definition recovery_dir (db : path) (operation_id : string) : IO path :=
  refuse_if (negb (id_ok operation_id)) "Invalid operation ID" ;;
  refuse_when (λ f, is_symlink f (parent db ++ [".recovery"%string])) "Recovery root cannot be a symlink" ;;
  ret (recovery_of db operation_id).

Definition has_text (k s : string) (state : dict) : bool := is_text (jget k state) s.
Definition belongs (db : path) (operation_id : string) (state : dict) : IO unit :=
  refuse_if (negb (has_text "db" (path_str db) state && has_text "operation_id" operation_id state))
    "Recovery state belongs to a different database or operation".
Definition phase_in (l : list string) (state : dict) : bool :=
  match jget "phase" state with Some (JStr s) => bool_decide (s ∈ l) | _ => false end.
Definition phase_repr (state : dict) : string := py_repr (default JNull (jget "phase" state)).

Definition stage_of (db : path) : path := parent db ++ [".restore-stage"%string].
Definition expect_db_name : string := "openchronicle.db".
Definition name_is_db (db : path) : bool := bool_decide (path_name db = expect_db_name).

Record expectation := mkExpectation { e_sha : string; e_schema : Z; e_project : string }.
(** [scripts/offline_restore.py:160-180 _preflight] *)
Definition preflight (db candidate : path) (e : expectation) : IO dict :=
  refuse_if (negb (is_absolute db) || negb (is_absolute candidate) || negb (name_is_db db))
    "Use absolute paths and the expected openchronicle.db name" ;;
  regular db ;;
  refuse_when (λ f, is_symlink f (parent db) || is_symlink f (parent candidate))
    "Database and stage directories cannot be symlinks" ;;
  refuse_if (negb (bool_decide (parent candidate = stage_of db)) || negb (candidate_ok (path_name candidate)))
    "Candidate must be a generated file in the database's .restore-stage directory" ;;
  regular candidate ;;
  touch_nothing ;;
  refuse_if (negb (same_device h)) "Candidate must be on the database filesystem" ;;
  refuse_when (λ f, existsb (exists_ f) (sidecars candidate)) "Candidate has SQLite sidecars; stage a standalone snapshot" ;;
  let* actual := inspect_file candidate in
  refuse_if (negb (is_text (jget "sha256" actual) (e_sha e)
      && match jget "schema_version" actual with Some (JInt n) => n =? e_schema e | _ => false end
      && is_text (jget "project_identity_sha256" actual) (e_project e)))
    "Candidate hash, schema or project identity differs from expected" ;;
  ret actual.

(** ** Consolidation of the old state *)

Definition content_at (f : fs) (p : path) : option string :=
  match f !! p with Some (File c) => Some (text_of c) | _ => None end.
(** [scripts/offline_restore.py:183-197 _consolidate] *)
Definition consolidate (source target : path) : IO unit :=
  regular source ;;
  as_sqlite (
    let* f := look (λ f, f) in
    io (update (opened sq source)) ;;
    match backup_of sq (default "" (content_at f source))%string (content_at f (wal_of source)) (content_at f (shm_of source)) with
    | Copied s => put_file target Partial ;; put_file target (Bytes s)
    | NotCopied e remains =>
        (match remains with Some s => put_file target (Bytes s) | None => ret tt end) ;; fail_sql e
    end) ;;
  touch_nothing ;;
  fsync_dir (parent target).

Definition check_of (what : sql_error + string) : string :=
  match what with inl e => "raised " +:+ err_name e | inr s => s end.
(** [scripts/offline_restore.py:338-380 _describe] *)
Definition describe (p : path) : IO dict :=
  let* sha := file_sha p in
  let* size := size_of p in
  let* c := as_sqlite (read_content p) in
  let s := text_of c in
  let integrity := check_of (match integrity_row sq s with
    | inl e => inl e | inr row => inr (default "no result" row) end) in
  let foreign_keys := check_of (match fk_row sq s with
    | inl e => inl e | inr violated => inr (if violated : bool then "violations" else "ok") end) in
  let '(identity, identity_ok) := match identity_of sq s with
    | inl e => ([("identity_error"%string, JStr (err_name e +:+ ": " +:+ err_text e))], false)
    | inr r => (identity_entries r, 0 <? r.1.1.1)
    end in
  ret (("sha256"%string, JStr sha) :: ("size_bytes"%string, JInt size) :: identity ++
    [("checks", JObj [("integrity", JStr integrity); ("foreign_keys", JStr foreign_keys)]);
     ("rollback_available", JBool identity_ok);
     ("verified", JBool (identity_ok && bool_decide (integrity = "ok") && bool_decide (foreign_keys = "ok")))]%string).

(** [scripts/offline_restore.py:394-395 _assess_old_state] *)
Fixpoint copy_all (from to : path) (names : list string) : IO unit :=
  match names with
  | [] => ret tt
  | n :: names' => copy_durable (from ++ [n]) (to ++ [n]) ;; copy_all from to names'
  end.
(** [shutil.rmtree(d, ignore_errors=True)] of a directory that holds files. *)
Definition rmdir (d : path) : IO unit :=
  io (λ f, match f !! d with
    | Some Dir => if bool_decide (scan f d = []) then (delete d f, Ok tt) else (f, Raise OSError)
    | _ => (f, Raise OSError)
    end).
Fixpoint unlink_all (d : path) (names : list string) : IO unit :=
  match names with
  | [] => ret tt
  | n :: names' => suppress_os (unlink false (d ++ [n])) ;; unlink_all d names'
  end.
Definition rmtree (d : path) : IO unit :=
  let* names := look (λ f, scan f d) in unlink_all d names ;; suppress_os (rmdir d).

(** [scripts/offline_restore.py:399-401 _assess_old_state] *)
Definition not_a_database (code : option Z) : bool :=
  match code with Some c => bool_decide (Z.land c 255 ∈ NOT_A_DATABASE) | None => false end.
(** [scripts/offline_restore.py:383-411 _assess_old_state] *)
Definition assess_old_state (recovery raw : path) (db_name : string) : IO dict :=
  let scratch := recovery ++ ["consolidate-source"%string] in
  let target := recovery ++ ["old-consistent.db"%string] in
  mkdir_new scratch ;;
  let* unreadable := try_finally
    (let* names := reading (λ f, Ok (scan f raw)) in
     copy_all raw scratch names ;;
     try_catch (consolidate (scratch ++ [db_name]) target ;; ret None)
       (λ e, match e with
         | SqliteError code name text =>
             if not_a_database code
             then unlink true target ;;
               ret (Some [("readable", JBool false); ("rollback_available", JBool false); ("verified", JBool false);
                 ("error", JStr (name +:+ ": " +:+ text))]%string)
             else raise e
         | _ => raise e
         end))
    (rmtree scratch) in
  match unreadable with
  | Some info => ret info
  | None => let* info := describe target in ret (("readable"%string, JBool true) :: info)
  end.

(** ** The write probe *)

(** [scripts/offline_restore.py:204-230 _probe_writable] *)
Definition probe_writable (db : path) : IO string :=
  let* f := look (λ f, f) in
  match List.find (λ p, negb (writable h f p)) (family f db) with
  | Some p => ret ("failed: EACCES: " +:+ path_name p +:+ " is not writable by this user")%string
  | None =>
      let* failure := try_catch (io (λ f, let (f', e) := write_lock sq db f in (f', Ok e)))
        (λ _, ret (Some (mkSqlError (Some 10) "SQLITE_IOERR" "disk I/O error"))) in
      ret (match failure with
        | Some e => "failed: " +:+ err_name e +:+ ": " +:+ err_text e
        | None => "ok" end)%string
  end.
(** [scripts/offline_restore.py:243-263 _require_writable] *)
Definition require_writable (recovery : path) (tok : string) (state : dict) (db : path) (operation_id then_ : string) : IO dict :=
  let* probe := probe_writable db in
  let state := dict_set "write_probe" (JStr probe) state in
  save_state recovery tok state ;;
  let recheck := ("run `probe --operation-id " +:+ operation_id +:+ "`")%string in
  if bool_decide (probe = "ok"%string) then ret state
  else if existsb (λ code, contains code probe) HELD then
    refuse ("Another process holds the installed database (" +:+ probe +:+ "). Keep the service stopped; find what still "
      +:+ "has /data open and stop it, then " +:+ recheck +:+ "; " +:+ then_)%string
  else
    refuse ("The installed database is not writable by this user (" +:+ probe +:+ "). Keep the service stopped; make "
      +:+ path_name db +:+ ", any " +:+ path_name db +:+ "-wal or -shm, and " +:+ path_str (parent db)
      +:+ " writable for uid 1000, then " +:+ recheck +:+ "; " +:+ then_)%string.

(** [scripts/offline_restore.py:266-279 _foreign_sidecar] The sidecars in the
    order of their names. *)
Definition foreign_sidecar (f : fs) (db : path) : option path :=
  let extras := List.filter (λ p, bool_decide (p ∈ family f db)) [shm_of db; wal_of db] in
  match List.find (is_symlink f) extras with
  | Some p => Some p
  | None => if bool_decide (shm_of db ∈ extras) && negb (bool_decide (wal_of db ∈ extras)) then Some (shm_of db) else None
  end.
(** [scripts/offline_restore.py:282-296 _unchanged_since_swap] *)
Definition unchanged_since_swap (db : path) (expected_sha : string) : IO bool :=
  if bool_decide (expected_sha = ""%string) then ret false
  else
    let* logged := look (λ f, exists_ f (wal_of db)) in
    let* size := (if logged : bool then size_of (wal_of db) else ret 0) in
    if negb (size =? 0) then ret false
    else let* sha := file_sha db in ret (bool_decide (sha = expected_sha)).

(** [scripts/offline_restore.py:734-738 _refuse_root] *)
Definition refuse_root : IO unit :=
  refuse_if (linux h && (euid h =? 0)) "Run the helper as the service user (--user 1000:1000), not root".

(** [scripts/offline_restore.py:299-335 probe] *)
Definition probe (db : path) (operation_id : string) : IO dict :=
  refuse_root ;;
  regular db ;;
  let* recovery := recovery_dir db operation_id in
  let* state := load_state recovery in
  belongs db operation_id state ;;
  refuse_if (negb (phase_in ["activated"; "rolled_back"] state))%string
    ("Nothing installed to probe in phase " +:+ phase_repr state) ;;
  let activated := phase_in ["activated"%string] state in
  let installed := jget (if activated then "candidate_info" else "old_state") state in
  let* sha := lift_result (get_in installed "sha256") in
  let expected_sha := recorded_text sha in
  let* foreign := look (λ f, foreign_sidecar f db) in
  match foreign with
  | Some p =>
      refuse (path_name p +:+ " is not something SQLite leaves (a symlink, or a -shm without its -wal). Keep the "
        +:+ "service stopped; remove it, then run `probe --operation-id " +:+ operation_id +:+ "`.")%string
  | None =>
      let* unchanged := unchanged_since_swap db expected_sha in
      if negb unchanged then
        save_state recovery (token h 0) (dict_set "write_probe" (JStr PROBE_STALE) state) ;;
        refuse ("The installed database was written since the swap, so this operation's result no longer "
          +:+ "describes it. Keep the service stopped; "
          +:+ (if activated then "roll back " +:+ operation_id +:+ ", or " else "")
          +:+ "activate a verified artifact again under a new operation ID.")%string
      else
        let then_ := (if activated then "start the service, or roll back " +:+ operation_id else "start the service")%string in
        let* state := require_writable recovery (token h 0) state db operation_id then_ in
        ret [("action", JStr "probe"); ("phase", default JNull (jget "phase" state));
          ("write_probe", default JNull (jget "write_probe" state))]%string
  end.

(** ** Staging *)

Definition incoming_of (db : path) (operation_id : string) : path :=
  parent db ++ [(".incoming-" +:+ operation_id +:+ ".db")%string].
(** [scripts/offline_restore.py:414-423 _remove_incoming] *)
Definition remove_incoming (db : path) (operation_id candidate_sha256 : string) : IO json :=
  let incoming := incoming_of db operation_id in
  let left_over := JStr ("left " +:+ path_name incoming +:+ ": it does not match the staged candidate")%string in
  let* f := look (λ f, f) in
  if negb (exists_ f incoming) && negb (is_symlink f incoming) then ret JNull
  else if is_symlink f incoming || negb (is_file f incoming) then ret left_over
  else
    let* sha := file_sha incoming in
    if negb (bool_decide (sha = candidate_sha256)) then ret left_over
    else unlink false incoming ;; fsync_dir (parent db) ;; ret (JStr ("removed " +:+ path_name incoming)%string).

(** [scripts/offline_restore.py:426-474 stage] *)
Definition stage (db source : path) (expected_sha256 : string) (apply : bool) : IO dict :=
  refuse_if (negb (is_absolute db) || negb (name_is_db db) || negb (is_absolute source))
    "Use absolute paths and the expected openchronicle.db name" ;;
  refuse_if (negb (hex_run 64 (chars expected_sha256)))
    "--expected-sha256 must be 64 lowercase hex characters from an independent record" ;;
  let stage_dir := stage_of db in
  let recovery_root := parent db ++ [".recovery"%string] in
  let* f := look (λ f, f) in
  let source' := resolved h f source in
  refuse_if (below (resolved h f stage_dir) source' || below (resolved h f recovery_root) source')
    "Stage a snapshot, not a file from .restore-stage or .recovery" ;;
  refuse_if (bool_decide (source' ∈ map (resolved h f) (db :: sidecars db))
      || starts_with ".incoming-" (path_name source) || starts_with ".rollback-" (path_name source))
    "The live database family cannot be staged; stage a verified snapshot" ;;
  let* info := inspect_file source in
  refuse_if (negb (is_text (jget "sha256" info) expected_sha256))
    "Snapshot digest differs from the independently recorded SHA-256" ;;
  refuse_when (λ f, is_symlink f stage_dir) "Stage directory cannot be a symlink" ;;
  refuse_when (λ f, exists_ f stage_dir && existsb (ends_with ".db") (scan f stage_dir))
    "A restore candidate is already staged; activate it or retire it first" ;;
  touch_nothing ;;
  let* size := size_of source in
  refuse_if (free_bytes h <? size + MARGIN) "Insufficient space to stage the snapshot" ;;
  if negb apply then
    ret [("action", JStr "stage"); ("applied", JBool false); ("source", JStr (path_str source)); ("candidate", JObj info)]%string
  else
    mkdir stage_dir ;;
    let name := ("candidate-" +:+ token h 0)%string in
    let temp := stage_dir ++ [name +:+ ".tmp"]%string in
    let final := stage_dir ++ [name +:+ ".db"]%string in
    try_finally
      (copy_durable source temp ;;
       let* sha := file_sha temp in
       refuse_if (negb (bool_decide (sha = expected_sha256))) "Staged copy differs from the verified snapshot" ;;
       replace_file temp final ;;
       fsync_dir stage_dir)
      (unlink true temp) ;;
    let* staged := inspect_file final in
    if negb (same_info staged info) then
      unlink true final ;; refuse "Staged candidate failed re-verification"
    else
      ret [("action", JStr "stage"); ("applied", JBool true); ("stage_path", JStr (path_str final)); ("candidate", JObj staged)]%string.

(** ** Activation *)

Fixpoint sizes (l : list path) : IO Z :=
  match l with [] => ret 0 | p :: l' => let* a := size_of p in let* b := sizes l' in ret (a + b) end.
(** [scripts/offline_restore.py:533-539 activate] The loop over the live family,
    here and in [rollback]: [copy] archives one file and returns its digest. *)
Fixpoint archive (copy : path → IO string) (live : list path) (recorded : dict) : IO dict :=
  match live with
  | [] => ret recorded
  | source :: live' =>
      let* digest := copy source in
      archive copy live' (dict_set (path_name source) (JStr digest) recorded)
  end.
(** [scripts/offline_restore.py:533-539 activate] One file of the loop. *)
Definition archive_one (raw source : path) : IO string :=
  let target := raw ++ [path_name source] in
  let* before := file_sha source in
  copy_durable source target ;;
  let* copied := file_sha target in
  let* after := (if bool_decide (copied = before) then file_sha source else ret copied) in
  refuse_if (negb (bool_decide (copied = before) && bool_decide (after = before)))
    "Live database changed while archiving; keep the service stopped" ;;
  ret before.
(** [scripts/offline_restore.py:552-554 activate] *)
Fixpoint displace (to : path) (l : list path) : IO unit :=
  match l with
  | [] => ret tt
  | s :: l' =>
      let* there := look (λ f, exists_ f s) in
      (if there : bool then replace_file s (to ++ [("displaced-" +:+ path_name s)%string]) else ret tt) ;;
      displace to l'
  end.
Definition not_regular (f : fs) (l : list path) : bool := existsb (λ p, is_symlink f p || negb (is_file f p)) l.

(** [scripts/offline_restore.py:529-543 activate] The old family is archived, and
    consolidated into one database. *)
Definition archive_old (db recovery : path) (live_files : list path) (state : dict) : IO dict :=
  save_state recovery (token h 0) state ;;
  let raw := recovery ++ ["raw-old"%string] in
  mkdir_new raw ;;
  let* raw_files := archive (archive_one raw) live_files [] in
  let state := dict_set "raw_files" (JObj raw_files) state in
  save_state recovery (token h 1) state ;;
  let* old_state := assess_old_state recovery raw (path_name db) in
  let state := dict_set "old_state" (JObj old_state) state in
  save_state recovery (token h 2) state ;;
  ret state.
(** [scripts/offline_restore.py:544-561 activate] The swap. *)
Definition install_candidate (db candidate recovery : path) (operation_id : string) (candidate_info state : dict) : IO dict :=
  let incoming := incoming_of db operation_id in
  copy_durable candidate incoming ;;
  let* sha := file_sha incoming in
  refuse_if (negb (is_text (jget "sha256" candidate_info) sha)) "Incoming copy differs from the staged candidate" ;;
  let state := dict_set "write_probe" (JStr PROBE_PENDING) (dict_set "phase" (JStr "prepared") state) in
  save_state recovery (token h 3) state ;;
  displace recovery (sidecars db) ;;
  fsync_dir recovery ;;
  fsync_dir (parent db) ;;
  replace_file incoming db ;;
  fsync_dir (parent db) ;;
  let state := dict_set "phase" (JStr "activated") state in
  save_state recovery (token h 4) state ;;
  require_writable recovery (token h 5) state db operation_id ("then start the service, or roll back " +:+ operation_id +:+ ".").
(** [scripts/offline_restore.py:477-566 activate] *)
Definition activate (db candidate : path) (operation_id : string) (expected : expectation) (apply : bool) : IO dict :=
  refuse_root ;;
  let* candidate_info := preflight db candidate expected in
  let* recovery := recovery_dir db operation_id in
  refuse_when (λ f, exists_ f recovery) "Operation ID already has recovery state; inspect or rollback it" ;;
  let* live_files := look (λ f, family f db) in
  refuse_when (λ f, not_regular f live_files) "Live database family contains a non-regular file" ;;
  let* old_size := sizes live_files in
  let* candidate_size := size_of candidate in
  let needed := 4 * old_size + 2 * candidate_size + MARGIN in
  touch_nothing ;;
  refuse_if (free_bytes h <? needed) "Insufficient space for raw and consolidated rollback copies plus incoming candidate" ;;
  if negb apply then
    ret [("action", JStr "activate"); ("applied", JBool false); ("recovery_dir", JStr (path_str recovery));
      ("candidate", JObj candidate_info);
      ("old_state", JStr "assessed during apply; a damaged old state does not block activation")]%string
  else
    mkdir (parent recovery) ;;
    mkdir_new recovery ;;
    fsync_dir (parent recovery) ;;
    let state := [("operation_id", JStr operation_id); ("created_at", JStr (isoformat (utc (now h))));
      ("phase", JStr "archiving"); ("db", JStr (path_str db)); ("candidate", JStr (path_str candidate));
      ("candidate_info", JObj candidate_info); ("raw_files", JObj [])]%string in
    let* state := archive_old db recovery live_files state in
    let* state := install_candidate db candidate recovery operation_id candidate_info state in
    ret [("action", JStr "activate"); ("applied", JBool true); ("recovery_dir", JStr (path_str recovery)); ("state", JObj state)]%string.

(** ** Rollback *)

(** [scripts/offline_restore.py:622-627 rollback] One file of the loop. *)
Definition archive_current (forward source : path) : IO string :=
  let target := forward ++ [path_name source] in
  copy_durable source target ;;
  let* digest := file_sha source in
  let* copied := file_sha target in
  refuse_if (negb (bool_decide (copied = digest))) "Forward archive differs from current database" ;;
  ret digest.
(** [scripts/offline_restore.py:611-633 rollback] The first attempt: the
    database it replaces is archived before the phase is recorded. *)
Definition begin_rollback (db recovery old : path) (state : dict) : IO dict :=
  let forward := recovery ++ ["forward-state"%string] in
  refuse_when (λ f, exists_ f forward) "Incomplete forward archive exists; inspect it before retrying rollback" ;;
  let* live_files := look (λ f, family f db) in
  refuse_when (λ f, not_regular f live_files) "Current database family contains a non-regular file" ;;
  let* live_size := sizes live_files in
  let* old_size := size_of old in
  touch_nothing ;;
  refuse_if (free_bytes h <? live_size + old_size + MARGIN) "Insufficient space to retain forward state and install rollback copy" ;;
  mkdir_new forward ;;
  let* forward_files := archive (archive_current forward) live_files [] in
  let state := dict_set "write_probe" (JStr PROBE_PENDING) (dict_set "phase" (JStr "rolling_back")
    (dict_set "forward_files" (JObj forward_files) state)) in
  save_state recovery (token h 0) state ;;
  ret state.

(** [scripts/offline_restore.py:640-645 rollback] The archive a resumed rollback
    finds. *)
Fixpoint check_archive (forward : path) (members : list string) (recorded : dict) : IO unit :=
  match recorded with
  | [] => ret tt
  | (name, digest) :: recorded' =>
      refuse_if (negb (bool_decide (name ∈ members))) "Forward archive contains an unexpected member" ;;
      let archived := forward ++ [name] in
      regular archived ;;
      let* sha := file_sha archived in
      refuse_if (negb (is_text (Some digest) sha)) "Forward archive differs from recorded checksum" ;;
      check_archive forward members recorded'
  end.
Definition digest_of (name : string) (recorded : dict) : option json :=
  match jget name recorded with Some JNull => None | v => v end.
(** [scripts/offline_restore.py:650-661 rollback] *)
Fixpoint check_sidecars (forward : path) (l : list path) (recorded : dict) : IO unit :=
  match l with
  | [] => ret tt
  | s :: l' =>
      let displaced := forward ++ [("displaced-" +:+ path_name s)%string] in
      refuse_when (λ f, is_symlink f s || is_symlink f displaced) "Rollback sidecar path cannot be a symlink" ;;
      let* f := look (λ f, f) in
      (match digest_of (path_name s) recorded with
       | None => refuse_if (exists_ f s || exists_ f displaced) "Unexpected sidecar appeared during rollback"
       | Some expected =>
           if exists_ f s then
             let* changed := (if exists_ f displaced then ret true
               else let* sha := file_sha s in ret (negb (is_text (Some expected) sha))) in
             refuse_if changed "Current sidecar changed during rollback; keep the service stopped"
           else
             let* lost := (if negb (is_file f displaced) then ret true
               else let* sha := file_sha displaced in ret (negb (is_text (Some expected) sha))) in
             refuse_if lost "Displaced sidecar is missing or changed; keep the service stopped"
       end) ;;
      check_sidecars forward l' recorded
  end.
(** [scripts/offline_restore.py:635-649 rollback] A resumed attempt. *)
Definition resume_rollback (db recovery : path) (old_digest : string) (state : dict) : IO unit :=
  let forward := recovery ++ ["forward-state"%string] in
  refuse_when (λ f, negb (is_dir f forward) || is_symlink f forward) "Verified forward archive is missing" ;;
  match jget "forward_files" state with
  | Some (JObj (kv :: l)) =>
      let recorded := kv :: l in
      let name := path_name db in
      check_archive forward [name; (name +:+ "-wal")%string; (name +:+ "-shm")%string] recorded ;;
      let* current := file_sha db in
      refuse_if (negb (is_text (jget name recorded) current || bool_decide (current = old_digest)))
        "Current database changed during rollback; keep the service stopped" ;;
      check_sidecars forward (sidecars db) recorded
  | _ => refuse "Forward archive has no recorded checksums"
  end.

(** [scripts/offline_restore.py:667-672 rollback] The loop that moves the sidecars
    away. *)
Fixpoint displace_once (to : path) (l : list path) : IO unit :=
  match l with
  | [] => ret tt
  | s :: l' =>
      let displaced := to ++ [("displaced-" +:+ path_name s)%string] in
      let* f := look (λ f, f) in
      (if exists_ f s then
         refuse_if (exists_ f displaced) "A sidecar reappeared after being displaced; keep the service stopped" ;;
         replace_file s displaced
       else ret tt) ;;
      displace_once to l'
  end.
Definition rollback_copy (db : path) (operation_id : string) : path :=
  parent db ++ [(".rollback-" +:+ operation_id +:+ ".db")%string].
(** [scripts/offline_restore.py:662-681 rollback] Both attempts end with the
    swap. *)
Definition install_old (db recovery old : path) (operation_id old_digest candidate_sha : string) (state : dict) : IO dict :=
  let forward := recovery ++ ["forward-state"%string] in
  let incoming := rollback_copy db operation_id in
  unlink true incoming ;;
  copy_durable old incoming ;;
  let* sha := file_sha incoming in
  refuse_if (negb (bool_decide (sha = old_digest))) "Rollback copy differs from archived old state" ;;
  displace_once forward (sidecars db) ;;
  fsync_dir forward ;;
  fsync_dir (parent db) ;;
  replace_file incoming db ;;
  fsync_dir (parent db) ;;
  let state := dict_set "phase" (JStr "rolled_back") state in
  save_state recovery (token h 1) state ;;
  let* cleanup := remove_incoming db operation_id candidate_sha in
  let* state := require_writable recovery (token h 2) state db operation_id "then start the service." in
  ret [("action", JStr "rollback"); ("applied", JBool true); ("recovery_dir", JStr (path_str recovery));
    ("state", JObj state); ("cleanup", cleanup)]%string.

Definition no_target : string :=
  ("The old state was not a readable OpenChronicle database, so there is no automated rollback target. " +:+
   "It is preserved byte-exact in raw-old. To leave this state, activate another verified artifact " +:+
   "under a new operation ID.")%string.
(** [scripts/offline_restore.py:569-634 rollback] *)
Definition rollback (db : path) (operation_id : string) (apply : bool) : IO dict :=
  refuse_root ;;
  regular db ;;
  let* recovery := recovery_dir db operation_id in
  let* state := load_state recovery in
  belongs db operation_id state ;;
  let* sha := lift_result (get_in (jget "candidate_info" state) "sha256") in
  let candidate_sha := recorded_text sha in
  if phase_in ["archiving"%string] state then
    if negb apply then
      ret [("action", JStr "rollback"); ("applied", JBool false); ("phase", JStr "archiving"); ("note", JStr ARCHIVING_NOTE)]%string
    else
      let* cleanup := remove_incoming db operation_id candidate_sha in
      save_state recovery (token h 0) (dict_set "phase" (JStr "abandoned") state) ;;
      ret [("action", JStr "rollback"); ("applied", JBool true); ("phase", JStr "abandoned"); ("note", JStr ARCHIVING_NOTE);
        ("cleanup", cleanup)]%string
  else
    refuse_if (negb (phase_in ["prepared"; "activated"; "rolling_back"]%string state))
      ("Nothing to roll back in phase " +:+ phase_repr state) ;;
    match jget "old_state" state with
    | Some (JObj old_state) =>
        if negb (match jget "rollback_available" old_state with Some v => truthy v | None => false end) then refuse no_target
        else
          let old := recovery ++ ["old-consistent.db"%string] in
          regular old ;;
          match jget "sha256" old_state with
          | None => raise KeyError
          | Some d =>
              let old_digest := py_str d in
              let* actual := file_sha old in
              refuse_if (negb (bool_decide (actual = old_digest))) "Consolidated rollback snapshot differs from its recorded identity" ;;
              if negb apply then
                ret [("action", JStr "rollback"); ("applied", JBool false); ("recovery_dir", JStr (path_str recovery));
                  ("old", JObj old_state)]%string
              else
                let* state := (if phase_in ["rolling_back"%string] state
                  then resume_rollback db recovery old_digest state ;; ret state
                  else begin_rollback db recovery old state) in
                install_old db recovery old operation_id old_digest candidate_sha state
          end
    | _ => refuse no_target
    end.

(** ** Release of the stage *)

(** [scripts/offline_restore.py:684-723 retire_stage] *)
Definition retire_stage (db : path) (operation_id : string) (apply : bool) : IO dict :=
  let* recovery := recovery_dir db operation_id in
  let* state := load_state recovery in
  belongs db operation_id state ;;
  refuse_if (negb (phase_in ["activated"; "rolled_back"; "abandoned"]%string state))
    "Cannot retire a stage before activation or rollback completes" ;;
  let candidate := path_of_str (recorded_text (jget "candidate" state)) in
  refuse_when (λ f, negb (bool_decide (parent candidate = stage_of db)) || is_symlink f (parent candidate)
    || negb (candidate_ok (path_name candidate))) "Recorded staged path is invalid" ;;
  match jget "candidate_info" state with
  | Some (JObj recorded) =>
      match jget "sha256" recorded with
      | Some (JStr recorded_sha) =>
          let retirement := default JNull (jget "stage_retirement" state) in
          let in_progress := is_text (Some retirement) "in_progress" in
          let* there := look (λ f, exists_ f candidate) in
          if is_text (Some retirement) "done" then
            refuse_if there "Retired staged file unexpectedly reappeared" ;;
            ret [("action", JStr "retire-stage"); ("applied", JBool false); ("stage_retired", JBool true)]%string
          else
            refuse_if (match retirement with JNull => false | _ => negb in_progress end) "Unrecognized stage retirement state" ;;
            (if there then
               let* info := inspect_file candidate in
               refuse_if (negb (same_info recorded info)) "Staged candidate changed before retirement"
             else refuse_if (negb in_progress) "Staged candidate is missing without a recorded retirement") ;;
            if negb apply then
              ret [("action", JStr "retire-stage"); ("applied", JBool false); ("candidate", JStr (path_str candidate))]%string
            else
              let state := dict_set "stage_retirement" (JStr "in_progress") state in
              save_state recovery (token h 0) state ;;
              unlink true candidate ;;
              fsync_dir (parent candidate) ;;
              save_state recovery (token h 1) (dict_set "stage_retirement" (JStr "done") state) ;;
              let* cleanup := remove_incoming db operation_id recorded_sha in
              ret [("action", JStr "retire-stage"); ("applied", JBool true); ("stage_retired", JBool true); ("cleanup", cleanup)]%string
      | _ => refuse "Recorded candidate identity is invalid"
      end
  | _ => refuse "Recorded candidate identity is invalid"
  end.

(** ** The command *)

(** [scripts/offline_restore.py:726-731 _require_helper] *)
Definition require_helper : IO unit :=
  refuse_if (negb (bool_decide (helper_variable h = Some "1"%string)))
    "Set OC_OFFLINE_RESTORE=1 only in the stopped-volume helper container" ;;
  (if linux h then
     touch_nothing ;;
     refuse_if (negb (contains "offline_restore.py" (pid1 h))) "Run as PID 1 of a disposable helper, not docker exec in the live service"
   else ret tt) ;;
  refuse_root.

Inductive action := Stage | Activate | Rollback | Probe | RetireStage | Status.
Definition action_name (a : action) : string :=
  match a with
  | Stage => "stage" | Activate => "activate" | Rollback => "rollback" | Probe => "probe"
  | RetireStage => "retire-stage" | Status => "status"
  end.
(** What [argparse] makes of the command line. *)
Record arguments := mkArguments {
  a_action : action;
  a_db : path;
  a_operation : option string;
  a_source : option path;
  a_candidate : option path;
  a_sha256 : option string;
  a_schema : option Z;
  a_project : option string;
  a_apply : bool;
}.
(** A string option that is neither missing nor empty. *)
Definition given (s : option string) : option string := x ← s; if bool_decide (x = ""%string) then None else Some x.
Definition run_action (a : arguments) (operation_id : string) : IO dict :=
  let db := a_db a in
  match a_action a with
  | Activate =>
      match a_candidate a, given (a_sha256 a), a_schema a, given (a_project a) with
      | Some c, Some sha, Some schema, Some project =>
          refuse_if (schema =? 0) "Activation requires candidate, digest, schema and project identity" ;;
          activate db c operation_id (mkExpectation sha schema project) (a_apply a)
      | _, _, _, _ => refuse "Activation requires candidate, digest, schema and project identity"
      end
  | Rollback => rollback db operation_id (a_apply a)
  | Probe =>
      refuse_if (a_apply a) "Probe takes no --apply: it changes nothing but its recorded result" ;;
      probe db operation_id
  | RetireStage => retire_stage db operation_id (a_apply a)
  | _ =>
      refuse_if (a_apply a) "Status is read-only" ;;
      let* recovery := recovery_dir db operation_id in
      let* state := load_state recovery in
      ret [("action", JStr "status"); ("state", JObj state)]%string
  end.
Definition error_text (e : exn) : string :=
  match e with RestoreError m => m | SqliteError _ _ t => t | _ => os_text h e end.
Definition is_caught (e : exn) : bool :=
  is_os_error e || match e with RestoreError _ | SqliteError _ _ _ => true | _ => false end.
(** [scripts/offline_restore.py:741-796 main] The exit status, what is printed
    on the output and what on the error output. *)
Definition main (a : arguments) : IO (Z * option json * option json) :=
  try_catch
    (require_helper ;;
     refuse_if (negb (bool_decide (a_db a = ["/"; "data"; "openchronicle.db"]%string))) "Helper commands require --db /data/openchronicle.db" ;;
     let* result := (match a_action a with
       | Stage =>
           match a_source a, given (a_sha256 a) with
           | Some source, Some sha => stage (a_db a) source sha (a_apply a)
           | _, _ => refuse "Staging requires --source and --expected-sha256 from an independent record"
           end
       | act =>
           match given (a_operation a) with
           | Some op => run_action a op
           | None => refuse (action_name act +:+ " requires --operation-id")%string
           end
       end) in
     ret (0, Some (sorted_keys (JObj result)), None))
    (λ e,
      if is_caught e then
        ret (1, None, Some (JObj (("error", JStr (error_text e)) ::
          match a_action a with Stage => [] | _ => [("service_must_remain_stopped", JBool true)] end)%string))
      else raise e).
End helper.
