(* ===== verification/OfflineFrames.v ===== *)
(** * What the steps of the offline helper may change

    For each step of [OfflineRestore] the paths it writes ([writes]), what a
    durable copy and a saved state leave behind, in every state of a failing
    run, and what a saved state reads back as. *)

From S2P Require Import Prelude PyStr PyText TextProps Sha256 Domain DateTime PyNum PyRepr FileSystem Backups BackupProps OfflineRestore.
Local Open Scope Z_scope.
Local Open Scope prog_scope.

(** ** Saved dictionaries *)

Lemma jget_insert_by k (x : string * json) l : jget k (insert_by key_leb x l) = jget k (x :: l).
Proof.
  induction l as [|y l IH]; [done|]. cbn [insert_by]. destruct (key_leb x y) eqn:E; [done|].
  cbn [jget]. rewrite IH. destruct x as [a u], y as [b v]. cbn [jget]. repeat case_bool_decide; try done. subst.
  unfold key_leb in E. cbn in E. by rewrite str_leb_refl in E.
Qed.
Lemma jget_sort k (l : dict) : jget k (sort_by key_leb l) = jget k l.
Proof.
  unfold sort_by. induction l as [|[a v] l IH]; [done|]. cbn [foldr]. rewrite jget_insert_by. cbn [jget]. by rewrite IH.
Qed.
Lemma jget_sorted k (l : dict) :
  jget k (sort_by key_leb (map (λ kv, (kv.1, sorted_keys kv.2)) l)) = sorted_keys <$> jget k l.
Proof.
  rewrite jget_sort. induction l as [|[a v] l IH]; [done|]. cbn [map jget fst snd]. by case_bool_decide.
Qed.
Lemma jget_set k k' v (l : dict) : jget k (dict_set k' v l) = if bool_decide (k' = k) then Some v else jget k l.
Proof.
  induction l as [|[a u] l IH]; cbn [dict_set jget]; [done|].
  destruct (decide (a = k')) as [->|Hne].
  - rewrite (bool_decide_eq_true_2 (k' = k')) by done. cbn [jget]. by case_bool_decide.
  - rewrite (bool_decide_eq_false_2 (a = k')) by done. cbn [jget]. rewrite IH. repeat case_bool_decide; congruence.
Qed.
Lemma elem_of_dict_set (k k' : string) (v v' : json) (l : dict) : (k, v) ∈ dict_set k' v' l → (k, v) = (k', v') ∨ (k, v) ∈ l.
Proof.
  induction l as [|[a u] l IH]; cbn [dict_set]; [by intros ->%list_elem_of_singleton; left|].
  case_bool_decide; rewrite !elem_of_cons; [intros [?|?]; auto|]. intros [?|[?|?]%IH]; auto.
Qed.
(** A dictionary as it is read back. *)
Definition read_back (l : dict) : dict := sort_by key_leb (map (λ kv, (kv.1, sorted_keys kv.2)) l).
Lemma jget_text k s (l : dict) : jget k l = Some (JStr s) → jget k (read_back l) = Some (JStr s).
Proof. intros H. unfold read_back. by rewrite jget_sorted, H. Qed.

Lemma elem_of_read_back k v (l : dict) : (k, v) ∈ read_back l → ∃ u, (k, u) ∈ l ∧ v = sorted_keys u.
Proof.
  unfold read_back. rewrite elem_of_sort_by. intros ([a u]&E&Hu)%list_elem_of_fmap. simplify_eq/=. by exists u.
Qed.

Definition state_of (R : path) (f : fs) : option dict :=
  match f !! state_path R with Some (File (Doc (JObj l))) => Some l | _ => None end.

(** ** Frames *)

Section frames.
Context (sq : sqlite) (scan : fs → path → list string) (h : helper).
Implicit Types (W : path → Prop).

Lemma writes_refuse_if W b msg : writes W (refuse_if b msg).
Proof. unfold refuse_if, refuse. writes_tac fail. Qed.
Lemma writes_refuse_when W g msg : writes W (refuse_when g msg).
Proof. unfold refuse_when. apply writes_bind; [apply writes_look|intros b; apply writes_refuse_if]. Qed.
Lemma writes_reading {A} W (g : fs → result exn A) : writes W (reading g).
Proof. by apply writes_io. Qed.
Lemma writes_read W p : writes W (read_content p).
Proof. apply writes_reading. Qed.
Ltac ro := first [apply writes_refuse_if | apply writes_refuse_when | apply writes_reading | apply writes_read | done].
Lemma writes_sha W p : writes W (file_sha h p).
Proof. unfold file_sha. writes_tac ro. Qed.
Lemma writes_size W p : writes W (size_of h p).
Proof. unfold size_of. writes_tac ro. Qed.
Lemma writes_as_sqlite {A} W (m : IO A) : writes W m → writes W (as_sqlite m).
Proof. intros H. unfold as_sqlite. writes_tac ro. Qed.
Ltac ro' := first [ro | apply writes_sha | apply writes_size].
Lemma writes_inspect W p : writes W (inspect_file sq h p).
Proof. unfold inspect_file, regular, refuse. writes_tac ro'. Qed.
Lemma writes_describe W p : writes W (describe sq h p).
Proof. unfold describe. writes_tac ltac:(first [ro'|apply writes_as_sqlite; ro']). Qed.
Lemma writes_load W R : writes W (load_state R).
Proof. unfold load_state, refuse. writes_tac ro'. Qed.
Lemma writes_recovery_dir W db op : writes W (recovery_dir db op).
Proof. unfold recovery_dir. writes_tac ro'. Qed.
Lemma writes_preflight W db c e : writes W (preflight sq h db c e).
Proof. unfold preflight, regular. writes_tac ltac:(first [ro'|apply writes_inspect]). Qed.
Lemma writes_sizes W l : writes W (sizes h l).
Proof. induction l as [|p l IH]; simpl; writes_tac ltac:(first [ro'|exact IH]). Qed.
Lemma writes_check_archive W d ms l : writes W (check_archive h d ms l).
Proof. induction l as [|[n v] l IH]; simpl; unfold regular; writes_tac ltac:(first [ro'|exact IH]). Qed.
Lemma writes_check_sidecars W d l r : writes W (check_sidecars h d l r).
Proof. induction l as [|p l IH]; simpl; writes_tac ltac:(first [ro'|exact IH]). Qed.
Lemma writes_resume W db R d st : writes W (resume_rollback h db R d st).
Proof.
  unfold resume_rollback, refuse.
  writes_tac ltac:(first [ro'|apply writes_check_archive|apply writes_check_sidecars]).
Qed.
Lemma writes_unchanged W db s : writes W (unchanged_since_swap h db s).
Proof. unfold unchanged_since_swap. writes_tac ro'. Qed.

Lemma writes_copy W s t : W t → writes W (copy_durable s t).
Proof. intros H. unfold copy_durable, regular, fsync_dir, fsync. writes_tac ltac:(first [ro'|exact H]). Qed.
Lemma writes_save W R tok st : W (R ++ ["state-" +:+ tok +:+ ".tmp"]%string) → W (state_path R) → writes W (save_state R tok st).
Proof. intros H1 H2. unfold save_state, fsync_dir, fsync. writes_tac ltac:(first [ro'|done]). Qed.
Lemma writes_copy_all W a b ns : (∀ n, n ∈ ns → W (b ++ [n])) → writes W (copy_all a b ns).
Proof.
  induction ns as [|n ns IH]; intros H; simpl; [apply writes_ret|].
  apply writes_bind; [apply writes_copy, H; left|]. intros _. apply IH. intros m Hm. apply H. by right.
Qed.
Lemma writes_rmtree W d : W d → (∀ n, W (d ++ [n])) → writes W (rmtree scan d).
Proof.
  intros Hd H. unfold rmtree. apply writes_bind; [apply writes_look|]. intros ns. apply writes_bind.
  - induction ns as [|n ns IH]; simpl; writes_tac ltac:(first [exact IH|apply H]).
  - intros _. apply writes_suppress, writes_io. intros f. destruct (f !! d) as [[]|]; try done.
    case_bool_decide; [by apply agree_delete|done].
Qed.

(** SQLite only touches the sidecars of a database it opens. *)
Context (Hopened : ∀ p f, agree (λ q, q ∈ sidecars p) f (opened sq p f)).
Context (Hlock : ∀ p f, agree (λ q, q ∈ sidecars p) f (write_lock sq p f).1).

Lemma writes_consolidate W s t : W t → (∀ q, q ∈ sidecars s → W q) → writes W (consolidate sq h s t).
Proof.
  intros Ht Hs. unfold consolidate, regular, fsync_dir, fail_sql.
  apply writes_bind; [ro|]. intros _. apply writes_bind.
  - apply writes_as_sqlite. apply writes_bind; [apply writes_look|]. intros f. apply writes_bind.
    + apply writes_io. intros g. eapply agree_weaken; [exact Hs|]. apply Hopened.
    + intros _. writes_tac ltac:(first [ro'|exact Ht]).
  - intros _. writes_tac ltac:(first [ro'|exact Ht]).
Qed.

Lemma writes_assess W R raw n :
  (∀ l, W (R ++ "consolidate-source"%string :: l)) → W (R ++ ["old-consistent.db"%string]) →
  writes W (assess_old_state sq scan h R raw n).
Proof.
  intros H Ht. assert (∀ m, W ((R ++ ["consolidate-source"%string]) ++ [m])) as Hm by (intros m; rewrite <- app_assoc; apply H).
  unfold assess_old_state. apply writes_bind; [apply writes_mkdir_new, H|]. intros _. apply writes_bind.
  - apply writes_finally; [|apply writes_rmtree; [apply H|exact Hm]].
    apply writes_bind; [apply writes_reading|]. intros ns. apply writes_bind; [apply writes_copy_all; intros m _; apply Hm|].
    intros _. apply writes_catch.
    + apply writes_bind; [|intros; apply writes_ret]. apply writes_consolidate; [exact Ht|].
      intros q Hq. unfold sidecars, wal_of, shm_of, suffixed, with_name in Hq. rewrite parent_app in Hq.
      rewrite !elem_of_cons in Hq. destruct Hq as [->|[->|Hq%elem_of_nil]]; [apply Hm..|done].
    + intros e. writes_tac ltac:(first [ro'|exact Ht]).
  - intros u. writes_tac ltac:(first [ro'|apply writes_describe]).
Qed.

Lemma writes_archive W copy l r : (∀ s, s ∈ l → writes W (copy s)) → writes W (archive copy l r).
Proof.
  revert r. induction l as [|s l IH]; intros r H; simpl; [apply writes_ret|].
  apply writes_bind; [apply H; left|]. intros digest. apply IH. intros q Hq. apply H. by right.
Qed.
Lemma writes_archive_one W raw s : W (raw ++ [path_name s]) → writes W (archive_one h raw s).
Proof. intros H. unfold archive_one. writes_tac ltac:(first [ro'|by apply writes_copy]). Qed.
Lemma writes_archive_current W d s : W (d ++ [path_name s]) → writes W (archive_current h d s).
Proof. intros H. unfold archive_current. writes_tac ltac:(first [ro'|by apply writes_copy]). Qed.
Lemma writes_displace W d l :
  (∀ s, s ∈ l → W s ∧ W (d ++ ["displaced-" +:+ path_name s]%string)) → writes W (displace d l).
Proof.
  intros Hl. induction l as [|s l IH]; simpl; [apply writes_ret|]. destruct (Hl s) as [Hs Hd]; [left|].
  apply writes_bind; [apply writes_look|]. intros b. apply writes_bind.
  - destruct b; [|apply writes_ret]. by apply writes_replace.
  - intros _. apply IH. intros q Hq. apply Hl. by right.
Qed.
Lemma writes_displace_once W d l :
  (∀ s, s ∈ l → W s ∧ W (d ++ ["displaced-" +:+ path_name s]%string)) → writes W (displace_once d l).
Proof.
  intros Hl. induction l as [|s l IH]; simpl; [apply writes_ret|]. destruct (Hl s) as [Hs Hd]; [left|].
  apply writes_bind; [apply writes_look|]. intros b. apply writes_bind.
  - destruct (exists_ b s); [|apply writes_ret]. apply writes_bind; [ro|]. intros _.
    by apply writes_replace.
  - intros _. apply IH. intros q Hq. apply Hl. by right.
Qed.
Lemma writes_probe_writable W db : (∀ q, q ∈ sidecars db → W q) → writes W (probe_writable sq h db).
Proof.
  intros H. unfold probe_writable. apply writes_bind; [apply writes_look|]. intros f.
  destruct (List.find _ _); [apply writes_ret|]. apply writes_bind; [|intros; apply writes_ret].
  apply writes_catch; [|intros; apply writes_ret]. apply writes_io. intros g. specialize (Hlock db g).
  destruct (write_lock sq db g) as [g' e]. eapply agree_weaken; [exact H|exact Hlock].
Qed.
Lemma writes_require W R tok st db op t :
  (∀ q, q ∈ sidecars db → W q) → W (R ++ ["state-" +:+ tok +:+ ".tmp"]%string) → W (state_path R) →
  writes W (require_writable sq h R tok st db op t).
Proof.
  intros H1 H2 H3. unfold require_writable, refuse. apply writes_bind; [by apply writes_probe_writable|]. intros pr.
  apply writes_bind; [by apply writes_save|]. intros _. writes_tac ro.
Qed.
Lemma writes_remove_incoming W db op s : W (incoming_of db op) → writes W (remove_incoming h db op s).
Proof. intros H. unfold remove_incoming, fsync_dir. writes_tac ltac:(first [ro'|exact H]). Qed.
End frames.

(** ** What the steps leave behind *)

Section steps.
Context (h : helper).
Implicit Types (I P : fs → Prop).

Definition sha_of (c : content) : string := sha256_hex (text_of h c).

Lemma refuse_if_spec I P b msg : triple I P (refuse_if b msg) (λ _ f, P f ∧ b = false) (λ _, P).
Proof. destruct b; [by apply triple_raise|by apply triple_ret]. Qed.
Lemma refuse_when_spec I P g msg : triple I P (refuse_when g msg) (λ _ f, P f ∧ g f = false) (λ _, P).
Proof.
  unfold refuse_when. eapply (triple_bind _ _ _ _ (λ b f, P f ∧ g f = b)); [by apply triple_look|].
  intros b. destruct b; [by apply triple_raise; intros f [? _]|by apply triple_ret].
Qed.
Lemma reading_spec {A} I P (g : fs → result exn A) : (∀ f, P f → I f) →
  triple I P (reading g) (λ a f, P f ∧ g f = Ok a) (λ _, P).
Proof. intros H. apply triple_io; [done|]. intros f f' r Hf [= <- <-]. split; [auto|]. by destruct (g f). Qed.
Lemma touch_spec I P : (∀ f, P f → I f) → triple I P touch_nothing (λ _, P) (λ _, P).
Proof. intros H. apply triple_io; [done|]. intros f f' r Hf [= <- <-]. auto. Qed.
Lemma read_spec I P p : (∀ f, P f → I f) →
  triple I P (read_content p) (λ c f, P f ∧ f !! p = Some (File c)) (λ _, P).
Proof.
  intros H. eapply triple_weaken; [by apply reading_spec|done| |done]. intros c f [Hf Hc]. split; [done|].
  destruct (f !! p) as [[]|]; try done. by injection Hc as ->.
Qed.
Lemma sha_spec I P p : (∀ f, P f → I f) →
  triple I P (file_sha h p) (λ a f, P f ∧ ∃ c, f !! p = Some (File c) ∧ a = sha_of c) (λ _, P).
Proof.
  intros H. eapply triple_bind; [by apply read_spec|]. intros c. apply triple_ret. intros f [? ?]. eauto.
Qed.
Lemma size_spec I P p : (∀ f, P f → I f) → triple I P (size_of h p) (λ _, P) (λ _, P).
Proof.
  intros H. eapply triple_bind; [by apply read_spec|]. intros c. apply triple_ret. by intros f [? ?].
Qed.
Lemma regular_spec I P p :
  triple I P (regular p) (λ _ f, P f ∧ ∃ c, f !! p = Some (File c)) (λ _, P).
Proof.
  eapply triple_weaken; [by apply refuse_when_spec|done| |done]. intros u f [Hf Hg]. split; [done|].
  unfold is_symlink, is_file in Hg. destruct (f !! p) as [[c| |[[]|]]|]; try done. by exists c.
Qed.

Lemma inspect_file_spec sq I P p : (∀ f, P f → I f) →
  triple I P (inspect_file sq h p) (λ info f, P f ∧ ∃ c, f !! p = Some (File c) ∧ jget "sha256" info = Some (JStr (sha_of c))) (λ _, P).
Proof.
  intros HI. unfold inspect_file.
  eapply triple_bind; [eapply triple_to; [apply (regular_spec I P)|]|intros u].
  { intros u f [Hf _]. exact Hf. }
  eapply triple_bind; [eapply triple_to; [apply (refuse_when_spec I P)|]|intros u'].
  { intros u' f [Hf _]. exact Hf. }
  eapply (triple_bind _ _ _ _ (λ _, P)).
  { eapply triple_catch; [eapply triple_to; [by apply read_spec|by intros c f [? _]]|]. intros e. by apply triple_raise. }
  intros c. eapply (triple_bind _ _ _ _ (λ _, P)); [apply triple_lift; intros f Hf; by destruct (inspect_rows _ _ _)|].
  intros r. eapply triple_bind; [by apply sha_spec|]. intros sha. apply triple_ret. intros f [Hf (c'&Hc&->)].
  split; [done|]. by exists c'.
Qed.

(** What a reading program returns is only known from the files. *)
Lemma reads_spec {A} I P (m : IO A) : writes (λ _, False) m → (∀ f, P f → I f) → triple I P m (λ _, P) (λ _, P).
Proof.
  intros Hm H. eapply (triple_inv P); [done|]. eapply writes_keeps; [done|]. intros f f' Hf Ha.
  assert (f' = f) as -> by (apply map_eq; intros p; apply Ha; by intros []). done.
Qed.

(** A durable copy leaves the content it read; nothing else is at the target. *)
Lemma copy_spec I P s t c :
  (∀ f, P f → I f) → (∀ f c', P f → P (<[t := File c']> f)) → (∀ f, P f → f !! s = Some (File c)) → s ≠ t →
  triple I P (copy_durable s t) (λ _ f, P f ∧ f !! t = Some (File c)) (λ _, P).
Proof.
  intros HI Hput Hs Hne. unfold copy_durable.
  apply (triple_seq _ _ P); [eapply (triple_weaken _ _ _ _ (λ _, P)); [apply (regular_spec I P)|done|by intros u f [Hf _]|done]|].
  eapply (triple_bind _ _ _ _ (λ c' f, P f ∧ c' = c)).
  { eapply triple_weaken; [by apply read_spec|done| |done]. intros c' f [Hf Hc]. split; [done|]. rewrite (Hs f Hf) in Hc. by injection Hc. }
  intros c'. apply triple_pre. intros ->.
  eapply (triple_bind _ _ _ _ (λ _, P)).
  { apply triple_io; [done|]. intros f f' r Hf E. destruct (f !! t); injection E as <- <-; auto. }
  intros _. eapply (triple_bind _ _ _ _ (λ _ f, P f ∧ f !! t = Some (File c))).
  { apply triple_io; [done|]. intros f f' r Hf [= <- <-]. split; [auto|]. split; [auto|]. apply lookup_insert_eq. }
  intros _. unfold fsync, fsync_dir.
  assert (keeps I (λ f, P f ∧ f !! t = Some (File c)) touch_nothing) as Hk by (apply touch_spec; naive_solver).
  eapply triple_seq; (eapply triple_keep; [exact Hk|]); naive_solver.
Qed.

(** Whatever is at the source. *)
Lemma copy_any_spec I P s t x :
  (∀ f, P f → I f) → (∀ f c', P f → P (<[t := File c']> f)) → (∀ f, P f → f !! s = x) → s ≠ t →
  triple I P (copy_durable s t) (λ _ f, P f ∧ f !! t = x ∧ ∃ c, x = Some (File c)) (λ _, P).
Proof.
  intros HI Hput Hs Hne. assert ((∃ c, x = Some (File c)) ∨ ∀ c, x ≠ Some (File c)) as [[c ->]|Hno] by (destruct x as [[]|]; eauto).
  - eapply triple_to; [apply (copy_spec I P s t c); done|]. intros _ f [Hf Ht]. eauto.
  - unfold copy_durable. apply (triple_seq _ _ (λ _, False)).
    + eapply triple_to; [apply (regular_spec I P)|]. intros _ f [Hf (c&Hc)]. apply (Hno c). by rewrite <- (Hs f Hf).
    + intros w [].
Qed.

(** A saved state replaces the previous one at once: a reader finds one or the
    other. *)
Definition holds_state (R : path) (st : dict) (f : fs) : Prop := f !! state_path R = Some (File (Doc (JObj (read_back st)))).

Lemma temp_ne R tok : R ++ ["state-" +:+ tok +:+ ".tmp"]%string ≠ state_path R.
Proof. intros E%app_inv_head. simplify_eq. Qed.

Lemma save_spec (I P N : fs → Prop) R tok st :
  let temp := R ++ ["state-" +:+ tok +:+ ".tmp"]%string in
  (∀ f, P f → I f) → (∀ f, N f → I f) →
  (∀ f n, P f → P (<[temp := n]> f)) → (∀ f, P f → P (delete temp f)) → (∀ f, N f → N (delete temp f)) →
  (∀ f, P f → N (<[state_path R := File (Doc (JObj (read_back st)))]> f)) →
  triple I P (save_state R tok st) (λ _ f, N f ∧ holds_state R st f) (λ _ f, P f ∨ N f).
Proof.
  intros temp HP HN Hput Hdel Hdel' Hnew. unfold save_state. fold temp.
  assert (temp ≠ state_path R) as Hne by apply temp_ne.
  eapply (triple_bind _ _ _ _ (λ _ f, N f ∧ holds_state R st f)).
  - eapply (triple_finally _ _ _ _ _ (λ _ f, N f ∧ holds_state R st f) _ (λ _, P)).
    + eapply (triple_bind _ _ _ _ (λ _, P)).
      { apply triple_io; [done|]. intros f f' r Hf E. destruct (f !! temp); injection E as <- <-; auto. }
      intros _. eapply (triple_bind _ _ _ _ (λ _ f, P f ∧ f !! temp = Some (File (Doc (JObj (read_back st)))))).
      { apply triple_io; [done|]. intros f f' r Hf [= <- <-]. do 2 (split; [auto|]). apply lookup_insert_eq. }
      intros _. eapply triple_seq.
      { apply (triple_keep I (λ f, P f ∧ f !! temp = Some (File (Doc (JObj (read_back st)))))); [apply touch_spec; naive_solver|].
        by intros e f [? _]. }
      apply triple_io; [by intros f [? _]|]. intros f f' r [Hf Ht]. rewrite Ht.
      destruct (f !! state_path R) as [[]|]; intros [= <- <-]; auto; (split; [apply HN|split]);
        first [apply Hnew; auto|apply lookup_insert_eq].
    + intros _. apply triple_io; [naive_solver|]. intros f f' r [Hf Ht].
      assert (holds_state R st (delete temp f)) by (unfold holds_state; by rewrite lookup_delete_ne).
      destruct (f !! temp) as [[]|]; intros [= <- <-]; auto 10.
    + intros e. apply triple_io; [auto|]. intros f f' r Hf.
      destruct (f !! temp) as [[]|]; intros [= <- <-]; auto 10.
  - intros _. unfold fsync_dir. eapply triple_weaken; [apply (touch_spec I (λ f, N f ∧ holds_state R st f))|..]; naive_solver.
Qed.

Lemma holds_state_of R st f : holds_state R st f → state_of R f = Some (read_back st).
Proof. unfold holds_state, state_of. by intros ->. Qed.

(** A state that decodes is what [load_state] returns. *)
Lemma load_spec I P (E : exn → fs → Prop) R st :
  (∀ f, P f → I f) → (∀ f, P f → state_of R f = Some st) → (∀ e f, P f → E e f) →
  triple I P (load_state R) (λ st' f, P f ∧ st' = st) E.
Proof.
  intros HI Hst HE. unfold load_state, refuse. eapply (triple_bind _ _ _ _ (λ c f, P f ∧ c = Doc (JObj st))).
  { eapply (triple_catch _ _ _ _ _ _ (λ _, P)); [|intros e; apply triple_raise; auto].
    eapply triple_to; [by apply read_spec|]. intros c f [Hf Hc]. split; [done|]. specialize (Hst f Hf). unfold state_of in Hst.
    rewrite Hc in Hst. destruct c as [|[]|]; by simplify_eq. }
  intros c. apply triple_pre. intros ->. by apply triple_ret.
Qed.
End steps.
