(* ===== verification/ActivateProps.v ===== *)
(** * Activation of a staged snapshot

    [activate] of [OfflineRestore]: wherever it is interrupted, and whatever
    call fails, the live family is untouched, or the swap is under way and the
    old database is archived byte for byte, with a recovery state that names it.
    The file says so of every state the run passes ([activate_spec]). *)

From S2P Require Import Prelude PyStr PyText TextProps Sha256 Domain DateTime PyNum PyRepr FileSystem Backups BackupProps OfflineRestore OfflineFrames.
Local Open Scope Z_scope.
Local Open Scope prog_scope.

(** A step that keeps [F] because it writes elsewhere, and does what [Q] says. *)
Lemma triple_step {A} W (I P F : fs → Prop) (m : IO A) Q E :
  writes W m → (∀ f f', F f → agree W f f' → F f') → (∀ f, F f → I f) → triple (λ _, True) P m Q (λ _ _, True) →
  (∀ e f, F f → E e f) → triple I (λ f, P f ∧ F f) m (λ a f, Q a f ∧ F f) E.
Proof.
  intros Hw HF HI Ht HE. eapply triple_weaken; [eapply triple_inv; [|by eapply triple_frame]|done|done|naive_solver].
  naive_solver.
Qed.
Lemma triple_quiet {A} W (I F : fs → Prop) (m : IO A) E :
  writes W m → (∀ f f', F f → agree W f f' → F f') → (∀ f, F f → I f) → (∀ e f, F f → E e f) →
  triple I F m (λ _, F) E.
Proof. intros Hw HF HI HE. eapply triple_keep; [|done]. eapply triple_inv; [exact HI|]. by eapply writes_keeps. Qed.

Section places.
Context (D : path) (op : string).

Definition db : path := D ++ [expect_db_name].
Definition R : path := D ++ [".recovery"; op]%string.
Definition raw : path := R ++ ["raw-old"%string].
Definition scratch : path := R ++ ["consolidate-source"%string].
Definition old : path := R ++ ["old-consistent.db"%string].
Definition forward : path := R ++ ["forward-state"%string].
Definition incoming : path := D ++ [(".incoming-" +:+ op +:+ ".db")%string].
Definition backing : path := D ++ [(".rollback-" +:+ op +:+ ".db")%string].
Definition wal : path := D ++ ["openchronicle.db-wal"%string].
Definition shm : path := D ++ ["openchronicle.db-shm"%string].
Definition names : list string := [expect_db_name; "openchronicle.db-wal"; "openchronicle.db-shm"]%string.

Lemma parent_db : parent db = D. Proof. apply parent_app. Qed.
Lemma name_db : path_name db = expect_db_name. Proof. apply path_name_app. Qed.
Lemma wal_db : wal_of db = wal.
Proof. unfold wal_of, suffixed, with_name. by rewrite parent_db, name_db. Qed.
Lemma shm_db : shm_of db = shm.
Proof. unfold shm_of, suffixed, with_name. by rewrite parent_db, name_db. Qed.
Lemma name_wal : path_name wal = "openchronicle.db-wal"%string. Proof. apply path_name_app. Qed.
Lemma name_shm : path_name shm = "openchronicle.db-shm"%string. Proof. apply path_name_app. Qed.
Lemma sidecars_db : sidecars db = [wal; shm].
Proof. unfold sidecars. by rewrite wal_db, shm_db. Qed.
Lemma recovery_db : recovery_of db op = R.
Proof. unfold recovery_of. by rewrite parent_db. Qed.
Lemma incoming_db : incoming_of db op = incoming.
Proof. unfold incoming_of. by rewrite parent_db. Qed.
Lemma backing_db : rollback_copy db op = backing.
Proof. unfold rollback_copy. by rewrite parent_db. Qed.
Lemma family_elem (f : fs) p : p ∈ family f db → p ∈ map (λ n, D ++ [n]) names.
Proof.
  unfold family. rewrite sidecars_db, list_elem_of_In, List.filter_In. intros [H _]. by apply list_elem_of_In.
Qed.
Lemma family_regular (f : fs) : not_regular f (family f db) = false →
  ∀ n, n ∈ names → (D ++ [n] ∈ family f db ∧ ∃ c, f !! (D ++ [n]) = Some (File c)) ∨ (D ++ [n] ∉ family f db ∧ f !! (D ++ [n]) = None).
Proof.
  intros Hr n Hn. destruct (decide (D ++ [n] ∈ family f db)) as [Hin|Hout].
  - left. split; [done|]. unfold not_regular in Hr.
    assert ((λ p, is_symlink f p || negb (is_file f p)) (D ++ [n]) = false) as H.
    { apply not_true_is_false. intros H. apply not_true_iff_false in Hr. apply Hr, existsb_exists.
      exists (D ++ [n]). split; [by apply list_elem_of_In|done]. }
    cbv beta in H. unfold is_symlink, is_file in H. destruct (f !! (D ++ [n])) as [[c| |[[]|]]|]; try done. by exists c.
  - right. split; [done|]. destruct (f !! (D ++ [n])) as [x|] eqn:E; [|done]. destruct Hout.
    unfold family. rewrite sidecars_db. apply list_elem_of_In, List.filter_In. split.
    + apply list_elem_of_In. unfold names, db, wal, shm in *. rewrite !elem_of_cons in Hn.
      destruct Hn as [->|[->|[->|Hn%elem_of_nil]]]; [set_solver..|done].
    + unfold exists_, is_symlink. rewrite E. by destruct x as [| |[[]|]].
Qed.
End places.

(** Paths below one directory are told apart by what follows it. *)
Ltac apart_in H :=
  repeat match type of H with _ ∨ _ => destruct H as [H|H] | ∃ _, _ => let x := fresh in destruct H as [x H] end;
  unfold db, raw, scratch, old, forward, incoming, backing, wal, shm, state_path, expect_db_name, R in H;
  rewrite <- ?app_assoc in H; try apply app_inv_head in H; cbn [app] in H; try (by simplify_eq).
Ltac apart := let H := fresh in intros H; apart_in H.

Ltac aparts := first [solve [apart] | intros ?; solve [apart]].

(** ** An archive of the live family *)

Section archive.
Context (h : helper) (D : path) (f0 : fs) (d : path) (copy : path → IO string).
Notation T := (λ _ : fs, True).
Notation done_ := (λ _ _, True).
Context (Hd : ∀ n m, n ∈ names → D ++ [n] ≠ d ++ [m]).
Context (Hwrites : ∀ s, writes (λ q, q = d ++ [path_name s]) (copy s)).
Context (Hcopy : ∀ n c (P : fs → Prop), (∀ f c', P f → P (<[d ++ [n] := File c']> f)) → (∀ f, P f → f !! (D ++ [n]) = Some (File c)) →
  D ++ [n] ≠ d ++ [n] → triple T P (copy (D ++ [n])) (λ a f, (P f ∧ f !! (d ++ [n]) = Some (File c)) ∧ a = sha_of h c) done_).

(** The files the archive copies are still as they were. *)
Definition sources_kept (l : list path) (f : fs) : Prop := ∀ p, p ∈ l → ∃ c, f0 !! p = Some (File c) ∧ f !! p = Some (File c).
(** A directory that holds the old family and nothing else. *)
Definition mirror (f : fs) : Prop := ∀ n, f !! (d ++ [n]) = if bool_decide (n ∈ names) then f0 !! (D ++ [n]) else None.

Lemma archive_spec l sums :
  (∀ p, p ∈ l → ∃ n, n ∈ names ∧ p = D ++ [n]) →
  triple T (sources_kept l) (archive copy l sums)
    (λ sums' f, ∀ n, (D ++ [n] ∈ l → f !! (d ++ [n]) = f0 !! (D ++ [n]) ∧ (∀ c, f0 !! (D ++ [n]) = Some (File c) → jget n sums' = Some (JStr (sha_of h c))))
      ∧ (D ++ [n] ∉ l → jget n sums' = jget n sums)
      ∧ ∀ v, (n, v) ∈ sums' → (n, v) ∈ sums ∨ (D ++ [n] ∈ l ∧ ∃ c, f0 !! (D ++ [n]) = Some (File c) ∧ v = JStr (sha_of h c))) done_.
Proof.
  revert sums. induction l as [|p l IH]; intros sums Hl; cbn [archive].
  { apply triple_ret. intros f _ n. split; [by intros H%elem_of_nil|]. split; [done|]. by left. }
  destruct (Hl p) as (m&Hm&->); [left|].
  apply (triple_from _ _ (λ f, ∃ c, f0 !! (D ++ [m]) = Some (File c) ∧ f !! (D ++ [m]) = Some (File c) ∧ sources_kept l f)).
  { intros f Hs. destruct (Hs (D ++ [m])) as (c&H1&H2); [left|]. exists c. do 2 (split; [done|]). intros q Hq. apply Hs. by right. }
  apply triple_ex. intros c.
  apply (triple_pure _ _ (f0 !! (D ++ [m]) = Some (File c))); [by intros f (?&_)|]. intros Hc.
  rewrite path_name_app. set (P := λ f, f !! (D ++ [m]) = Some (File c) ∧ sources_kept l f).
  eapply (triple_bind _ _ _ _ (λ a f, (P f ∧ f !! (d ++ [m]) = Some (File c)) ∧ a = sha_of h c)).
  { apply (triple_from _ _ P); [by intros f (_&?&?)|]. apply Hcopy; [|by intros f [? _]|by apply Hd].
    intros f c' [H1 H2]. split; [rewrite lookup_insert_ne; [done|]; intros E; by apply (Hd m m)|].
    intros q Hq. destruct (H2 q Hq) as (c2&?&?). exists c2. split; [done|]. rewrite lookup_insert_ne; [done|].
    destruct (Hl q) as (n&Hn&->); [by right|]. intros E. by apply (Hd n m). }
  intros digest. apply triple_pre. intros ->.
  set (F := λ f : fs, D ++ [m] ∉ l → f !! (d ++ [m]) = Some (File c)).
  apply (triple_from _ _ (λ f, sources_kept l f ∧ F f)); [intros f [[H1 H2] H3]; split; [exact H2|intros _; exact H3]|].
  eapply triple_to; [eapply (triple_step (λ q, ∃ s, s ∈ l ∧ q = d ++ [path_name s]) T _ F); [| |done|apply IH; intros q Hq; apply Hl; by right|done]|].
  - apply writes_archive. intros q Hq. eapply writes_weaken; [|apply Hwrites]. intros r ->. by exists q.
  - intros f f' Hf Ha Hn. rewrite (Ha (d ++ [m])); [by apply Hf|]. intros (q&Hq&E). destruct (Hl q) as (k&_&->); [by right|].
    rewrite path_name_app in E. apply app_inv_head in E. by simplify_eq.
  - intros sums' f [H HF] n. destruct (H n) as (H1&H2&H3). split; [|split].
    + intros Hn. destruct (decide (D ++ [n] ∈ l)) as [Hin|Hout]; [by apply H1|].
      apply elem_of_cons in Hn as [Hn|Hn]; [|done]. apply app_inv_head in Hn. simplify_eq.
      split; [by rewrite HF|]. intros c' Hc'. rewrite (H2 Hout), jget_set, bool_decide_eq_true_2 by done. congruence.
    + intros Hn. rewrite not_elem_of_cons in Hn. destruct Hn as [Hn Hout]. rewrite (H2 Hout), jget_set.
      rewrite bool_decide_eq_false_2; [done|]. intros ->. done.
    + intros v Hv. destruct (H3 v Hv) as [Hs|(Hin&?)]; [|right; split; [by right|done]].
      apply elem_of_dict_set in Hs as [[= -> ->]|Hs]; [|by left]. right. split; [by left|]. by exists c.
Qed.

Context (Hlive : not_regular f0 (family f0 (db D)) = false).
Notation L := (family f0 (db D)).

Lemma live_names p : p ∈ L → ∃ n, n ∈ names ∧ p = D ++ [n].
Proof. intros Hp%family_elem. apply list_elem_of_fmap in Hp as (n&->&Hn). by exists n. Qed.

Lemma same_sources f : (∀ n, n ∈ names → f !! (D ++ [n]) = f0 !! (D ++ [n])) → sources_kept L f.
Proof.
  intros Hf p Hp. destruct (live_names p Hp) as (n&Hn&->).
  destruct (family_regular D f0 Hlive n Hn) as [[_ (c&Hc)]|[Hout _]]; [|done].
  exists c. by rewrite Hf.
Qed.

Lemma archive_mirror :
  triple T (λ f, sources_kept L f ∧ ∀ n, f !! (d ++ [n]) = None) (archive copy L [])
    (λ sums f, mirror f ∧ ∀ n, n ∈ names → (∀ c, f0 !! (D ++ [n]) = Some (File c) → jget n sums = Some (JStr (sha_of h c))) ∧
      (f0 !! (D ++ [n]) = None → jget n sums = None) ∧
      (∀ k v, (k, v) ∈ sums → k ∈ names ∧ ∃ c, f0 !! (D ++ [k]) = Some (File c) ∧ v = JStr (sha_of h c))) done_.
Proof.
  set (F := λ f : fs, ∀ n, D ++ [n] ∉ L → f !! (d ++ [n]) = None).
  apply (triple_from _ _ (λ f, sources_kept L f ∧ F f)); [by intros f [? H]; split; [|intros n _; apply H]|].
  eapply triple_to; [eapply (triple_step (λ p, ∃ s, s ∈ L ∧ p = d ++ [path_name s]) T _ F); [| |done|apply archive_spec, live_names|done]|].
  - apply writes_archive. intros s Hs. eapply writes_weaken; [|apply Hwrites]. intros q ->. by exists s.
  - intros f f' Hf Ha n Hn. rewrite (Ha (d ++ [n])); [by apply Hf|]. intros (s&Hs&E).
    destruct (live_names s Hs) as (m&_&->). rewrite path_name_app in E. apply app_inv_head in E. by simplify_eq.
  - intros sums f [H HF]. split.
    + intros n. case_bool_decide as Hn.
      * destruct (family_regular D f0 Hlive n Hn) as [[Hin _]|[Hout ->]]; [by apply H|by apply HF].
      * apply HF. intros Hin. destruct (live_names _ Hin) as (m&Hm&E). apply app_inv_head in E. by simplify_eq.
    + intros n Hn. destruct (H n) as (H1&H2&_).
      assert (∀ k v, (k, v) ∈ sums → k ∈ names ∧ ∃ c, f0 !! (D ++ [k]) = Some (File c) ∧ v = JStr (sha_of h c)) as Hel.
      { intros k v Hv. destruct (H k) as (_&_&H3). destruct (H3 v Hv) as [?%elem_of_nil|[Hin Hc]]; [done|].
        split; [|done]. destruct (live_names _ Hin) as (m&Hm&E). apply app_inv_head in E. by simplify_eq. }
      destruct (family_regular D f0 Hlive n Hn) as [[Hin (c&Hc)]|[Hout Hnone]]; (split; [|split; [|exact Hel]]).
      * by apply H1.
      * by rewrite Hc.
      * by rewrite Hnone.
      * intros _. by rewrite H2.
Qed.
End archive.

(** Both loops of the helper archive in this way. *)
Lemma archive_one_spec h D d n c (P : fs → Prop) :
  (∀ f c', P f → P (<[d ++ [n] := File c']> f)) → (∀ f, P f → f !! (D ++ [n]) = Some (File c)) → D ++ [n] ≠ d ++ [n] →
  triple (λ _, True) P (archive_one h d (D ++ [n])) (λ a f, (P f ∧ f !! (d ++ [n]) = Some (File c)) ∧ a = sha_of h c) (λ _ _, True).
Proof.
  intros HP Hc Hne. unfold archive_one. rewrite path_name_app.
  eapply (triple_bind _ _ _ _ (λ a f, P f ∧ a = sha_of h c)).
  { eapply triple_weaken; [by apply (sha_spec h (λ _, True) P)|done| |done]. intros a f [Hf (c'&Hc'&->)].
    split; [done|]. rewrite (Hc f Hf) in Hc'. by injection Hc' as ->. }
  intros before. apply triple_pre. intros ->. set (G := λ f : fs, P f ∧ f !! (d ++ [n]) = Some (File c)).
  apply (triple_seq _ _ G); [eapply triple_weaken; [by apply (copy_spec (λ _, True) P (D ++ [n]) (d ++ [n]) c)|done..]|].
  eapply (triple_bind _ _ _ _ (λ _, G)); [by apply triple_keep; [apply reads_spec; [apply writes_sha|]|]|]. intros copied.
  eapply (triple_bind _ _ _ _ (λ _, G)).
  { apply triple_keep; [apply reads_spec; [|done]|done]. destruct (bool_decide _); [apply writes_sha|apply writes_ret]. }
  intros after. apply (triple_seq _ _ G); [by apply triple_keep; [apply reads_spec; [apply writes_refuse_if|done]|]|].
  by apply triple_ret.
Qed.
Lemma archive_current_spec h D d n c (P : fs → Prop) :
  (∀ f c', P f → P (<[d ++ [n] := File c']> f)) → (∀ f, P f → f !! (D ++ [n]) = Some (File c)) → D ++ [n] ≠ d ++ [n] →
  triple (λ _, True) P (archive_current h d (D ++ [n])) (λ a f, (P f ∧ f !! (d ++ [n]) = Some (File c)) ∧ a = sha_of h c) (λ _ _, True).
Proof.
  intros HP Hc Hne. unfold archive_current. rewrite path_name_app. set (G := λ f : fs, P f ∧ f !! (d ++ [n]) = Some (File c)).
  apply (triple_seq _ _ G); [eapply triple_weaken; [by apply (copy_spec (λ _, True) P (D ++ [n]) (d ++ [n]) c)|done..]|].
  eapply (triple_bind _ _ _ _ (λ a f, G f ∧ a = sha_of h c)).
  { eapply triple_weaken; [by apply (sha_spec h (λ _, True) G)|done| |done]. intros a f [Hf (c'&Hc'&->)].
    split; [done|]. destruct Hf as [Hf _]. rewrite (Hc f Hf) in Hc'. by injection Hc' as ->. }
  intros digest. apply triple_pre. intros ->.
  eapply (triple_bind _ _ _ _ (λ _, G)); [by apply triple_keep; [apply reads_spec; [apply writes_sha|]|]|]. intros copied.
  apply (triple_seq _ _ G); [by apply triple_keep; [apply reads_spec; [apply writes_refuse_if|done]|]|].
  by apply triple_ret.
Qed.

Section activate.
Context (sq : sqlite) (scan : fs → path → list string) (h : helper).
Context (Hopened : ∀ p f, agree (λ q, q ∈ sidecars p) f (opened sq p f)).
Context (Hlock : ∀ p f, agree (λ q, q ∈ sidecars p) f (write_lock sq p f).1).
Context (Hscan : ∀ f d n, n ∈ scan f d ↔ f !! (d ++ [n]) ≠ None).
Context (D : path) (op : string) (f0 : fs) (candidate : path) (expected : expectation).
Notation db := (db D). Notation R := (R D op). Notation raw := (raw D op). Notation scratch := (scratch D op).
Notation old := (old D op). Notation incoming := (incoming D op). Notation wal := (wal D). Notation shm := (shm D).

(** ** What a run may change before the swap *)

Definition private (p : path) : Prop := p = D ++ [".recovery"%string] ∨ (∃ l, p = R ++ l) ∨ p = incoming.
Definition quiet (W : path → Prop) : Prop := ∀ p, W p → private p ∧ p ≠ state_path R.

Lemma live_not_private n : n ∈ names → ¬ private (D ++ [n]).
Proof.
  unfold names, private. rewrite !elem_of_cons. intros [->|[->|[->|H%elem_of_nil]]]; [apart..|done].
Qed.
Lemma candidate_not_private n : ¬ private (D ++ [".restore-stage"%string; n]).
Proof. unfold private. apart. Qed.

Definition unproved (f : fs) : Prop := ∀ st, state_of R f = Some st → jget "write_probe" st ≠ Some (JStr "ok").
Definition archiving (f : fs) : Prop := ∀ st, state_of R f = Some st → jget "phase" st = Some (JStr "archiving").
Definition before (f : fs) : Prop := agree private f0 f ∧ unproved f ∧ archiving f.

Lemma before_quiet W f f' : quiet W → before f → agree W f f' → before f'.
Proof.
  intros Hq (Ha&Hu&Hr) Hw. assert (f' !! state_path R = f !! state_path R) as Hs by (apply Hw; by intros [_ []]%Hq).
  split; [|split; intros st; unfold state_of; rewrite Hs; [apply Hu|apply Hr]].
  transitivity f; [done|]. eapply agree_weaken; [|exact Hw]. intros p Hp. by apply Hq.
Qed.
Lemma before_live f n : before f → n ∈ names → f !! (D ++ [n]) = f0 !! (D ++ [n]).
Proof. intros [Ha _] Hn. by apply Ha, live_not_private. Qed.

(** ** What a run leaves behind *)

(** What SQLite makes of the old database. *)
Definition consolidated (s : string) : Prop :=
  backup_of sq (default "" (content_at h f0 db))%string (content_at h f0 wal) (content_at h f0 shm) = Copied s.
Notation mirror := (mirror D f0).
Definition old_kept (info : dict) (f : fs) : Prop := ∃ b, jget "rollback_available" info = Some (JBool b) ∧
  (b = true → ∃ s, consolidated s ∧ jget "sha256" info = Some (JStr (sha256_hex s)) ∧ f !! old = Some (File (Bytes s))).

(** The recovery state once the archive is complete. *)
Definition recorded (phase : string) (st : dict) : Prop :=
  jget "phase" st = Some (JStr phase) ∧ jget "db" st = Some (JStr (path_str db)) ∧ jget "operation_id" st = Some (JStr op) ∧
  (∃ info, jget "candidate_info" st = Some (JObj info) ∧ jget "sha256" info = Some (JStr (e_sha expected))) ∧
  (∃ sums, jget "raw_files" st = Some (JObj sums) ∧
    ∀ n c, n ∈ names → f0 !! (D ++ [n]) = Some (File c) → jget n sums = Some (JStr (sha_of h c))).
Definition secured (f : fs) : Prop := ∃ st phase info, phase ∈ ["prepared"; "activated"]%string ∧ state_of R f = Some st ∧
  recorded phase st ∧ mirror raw f ∧ jget "old_state" st = Some (JObj info) ∧ old_kept info f.

Definition probe_fresh (f : fs) : Prop := ∀ st, state_of R f = Some st → jget "write_probe" st = Some (JStr "ok") →
  state_of R f = state_of R f0 ∨ f !! db = f0 !! candidate.
Definition same_live (f : fs) : Prop := ∀ n, n ∈ names → f !! (D ++ [n]) = f0 !! (D ++ [n]).
(** A phase from which a rollback starts is only named once the archive is
    complete. *)
Definition named (f : fs) : Prop := ∀ st p, state_of R f = Some st → jget "phase" st = Some (JStr p) →
  p ∈ ["prepared"; "activated"]%string → state_of R f = state_of R f0 ∨ secured f.
Definition safe (f : fs) : Prop := probe_fresh f ∧ named f ∧
  (same_live f ∨ (secured f ∧ (f !! db = f0 !! db ∨ f !! db = f0 !! candidate))).

Lemma before_safe f : before f → safe f.
Proof.
  intros Hb. pose proof Hb as (_&Hu&Hr). split; [|split].
  - intros st Hs Ho. by destruct (Hu st Hs).
  - intros st p Hs Hp Hin. rewrite (Hr st Hs) in Hp. injection Hp as <-. set_solver.
  - left. intros n Hn. by apply before_live.
Qed.

Notation done_ := (λ _ _, True).
Notation T := (λ _ : fs, True).

(** ** The consolidated copy *)

Lemma copy_all_spec a b (g : string → option node) ns :
  (∀ n m, a ++ [n] ≠ b ++ [m]) →
  triple T (λ f, ∀ n, f !! (a ++ [n]) = g n) (copy_all a b ns) (λ _ f, ∀ n, n ∈ ns → f !! (b ++ [n]) = g n) done_.
Proof.
  intros Hab. induction ns as [|m ns IH]; cbn [copy_all]; [apply triple_ret; by intros f _ n ?%elem_of_nil|].
  set (P := λ f : fs, ∀ n, f !! (a ++ [n]) = g n).
  assert (∀ f n, P f → P (<[b ++ [m] := n]> f)) as HP.
  { intros f n Hf k. rewrite lookup_insert_ne; [apply Hf|]. intros E. by destruct (Hab k m). }
  apply (triple_seq _ _ (λ f, P f ∧ f !! (b ++ [m]) = g m)).
  { eapply triple_weaken; [apply (copy_any_spec T P (a ++ [m]) (b ++ [m]) (g m)); done || (intros f; apply HP) || auto|done| |done].
    by intros _ f (?&?&_). }
  set (F := λ f : fs, m ∉ ns → f !! (b ++ [m]) = g m). set (W := λ p : path, ∃ n, n ∈ ns ∧ p = b ++ [n]).
  apply (triple_from _ _ (λ f, P f ∧ F f)); [intros f [H1 H2]; split; [exact H1|intros _; exact H2]|].
  eapply triple_to; [eapply (triple_step W T _ F); [| |done|exact IH|done]|].
  - apply writes_copy_all. intros n Hn. by exists n.
  - intros f f' Hf Ha Hn. rewrite (Ha (b ++ [m])); [by apply Hf|]. intros (n&Hin&E). apply app_inv_head in E. by simplify_eq.
  - intros _ f [H HF] n Hn. destruct (decide (n ∈ ns)) as [Hin|Hout]; [by apply H|].
    apply elem_of_cons in Hn as [->|?]; [by apply HF|done].
Qed.

Lemma consolidate_spec s t (x w y : option string) :
  t ∉ sidecars s →
  triple T (λ f, content_at h f s = x ∧ content_at h f (wal_of s) = w ∧ content_at h f (shm_of s) = y) (consolidate sq h s t)
    (λ _ f, ∃ out, backup_of sq (default "" x)%string w y = Copied out ∧ f !! t = Some (File (Bytes out))) done_.
Proof.
  intros Ht. unfold consolidate. set (P := λ f : fs, content_at h f s = x ∧ _).
  apply (triple_seq _ _ P); [eapply triple_weaken; [apply (regular_spec T P)|done|by intros _ f [? _]|done]|].
  set (Q := λ f : fs, ∃ out, backup_of sq (default "" x)%string w y = Copied out ∧ f !! t = Some (File (Bytes out))).
  assert (keeps T Q touch_nothing) as Hq by by apply touch_spec.
  apply (triple_seq _ _ Q); [|apply (triple_seq _ _ Q); [by apply triple_keep|eapply triple_to; [by apply triple_keep|done]]].
  unfold as_sqlite. eapply (triple_catch _ _ _ _ _ _ done_); [|intros e; destruct (is_os_error e); by apply triple_raise].
  eapply (triple_bind _ _ _ _ (λ g f, g = f ∧ P g)); [by apply triple_look|]. intros g.
  apply (triple_seq _ _ (λ _, P g)). { apply triple_io; [done|]. by intros f f' r [-> Hg] [= <- <-]. }
  apply (triple_pure _ _ (P g)); [done|]. intros (->&->&->). apply (triple_from _ _ T); [done|].
  destruct (backup_of sq _ w y) as [out|e remains] eqn:E.
  - apply (triple_seq _ _ T); [by apply (triple_true _ (λ _, True)), writes_put|]. apply triple_io; [done|]. intros f f' r _ [= <- <-]. split; [done|].
    exists out. split; [done|]. apply lookup_insert_eq.
  - apply (triple_seq _ _ T); [|by apply triple_raise]. apply (triple_true _ (λ _, True)). destruct remains; [by apply writes_put|apply writes_ret].
Qed.

Lemma describe_spec p (s : string) :
  triple T (λ f, f !! p = Some (File (Bytes s))) (describe sq h p)
    (λ info f, f !! p = Some (File (Bytes s)) ∧ jget "sha256" info = Some (JStr (sha256_hex s)) ∧
      ∃ b, jget "rollback_available" info = Some (JBool b)) done_.
Proof.
  set (P := λ f : fs, f !! p = Some (File (Bytes s))). unfold describe.
  eapply (triple_bind _ _ _ _ (λ a f, P f ∧ a = sha256_hex s)).
  { eapply triple_weaken; [by apply (sha_spec h T P)|done| |done]. intros a f [Hf (c&Hc&->)]. split; [done|].
    unfold P in Hf. rewrite Hf in Hc. injection Hc as <-. done. }
  intros sha. apply triple_pre. intros ->.
  eapply (triple_bind _ _ _ _ (λ _, P)); [by apply triple_keep; [by apply size_spec|]|]. intros size.
  eapply (triple_bind _ _ _ _ (λ _, P)).
  { apply triple_keep; [|done]. apply reads_spec; [|done]. apply writes_as_sqlite, writes_read. }
  intros c. set (text := text_of h c). destruct (identity_of sq text) as [e|r].
  - apply triple_ret. intros f Hf. split; [done|]. split; [done|]. by exists false.
  - apply triple_ret. intros f Hf. split; [done|]. split; [done|]. destruct r as [[[? ?] ?] ?]. cbn. by eexists.
Qed.

(** The copy of the archive that SQLite opens. *)
Lemma scratch_spec ns :
  triple T (λ f, (mirror raw f ∧ ∀ n, f !! (scratch ++ [n]) = None) ∧ ns = scan f raw) (copy_all raw scratch ns)
    (λ _ f, mirror scratch f) done_.
Proof.
  set (g := λ n, if bool_decide (n ∈ names) then f0 !! (D ++ [n]) else None).
  apply (triple_pure _ _ (∀ n, n ∈ ns ↔ g n ≠ None)).
  { intros f [[Hm _] ->] n. rewrite Hscan. by rewrite (Hm n). }
  intros Hns. set (F := λ f : fs, ∀ n, n ∉ ns → f !! (scratch ++ [n]) = None).
  apply (triple_from _ _ (λ f, (∀ n, f !! (raw ++ [n]) = g n) ∧ F f)); [intros f [[Hm He] _]; split; [exact Hm|intros n _; apply He]|].
  eapply triple_to.
  { eapply (triple_step (λ p, ∃ n, n ∈ ns ∧ p = scratch ++ [n]) T _ F); [| |done|apply copy_all_spec; intros n m; apart|done].
    - apply writes_copy_all. intros n Hn. by exists n.
    - intros f f' Hf Ha n Hn. rewrite (Ha (scratch ++ [n])); [by apply Hf|]. intros (m&Hm&E). apply app_inv_head in E. by simplify_eq. }
  intros _ f [H HF] n. fold (g n). destruct (decide (n ∈ ns)) as [Hin|Hout]; [by apply H|].
  rewrite (HF n Hout). destruct (g n) eqn:E; [|done]. destruct Hout. apply Hns. by rewrite E.
Qed.

Lemma mirror_content d f n : n ∈ names → mirror d f → content_at h f (d ++ [n]) = content_at h f0 (D ++ [n]).
Proof. intros Hn Hm. unfold content_at. by rewrite (Hm n), bool_decide_eq_true_2. Qed.

Lemma scratch_sidecars : sidecars (scratch ++ [expect_db_name]) = [scratch ++ ["openchronicle.db-wal"%string]; scratch ++ ["openchronicle.db-shm"%string]].
Proof. unfold sidecars, wal_of, shm_of, suffixed, with_name. by rewrite parent_app, path_name_app. Qed.

Definition copy_made (u : option dict) (f : fs) : Prop :=
  match u with
  | Some info => old_kept info f
  | None => ∃ s, consolidated s ∧ f !! old = Some (File (Bytes s))
  end.

Lemma consolidate_old :
  triple T (mirror scratch) (consolidate sq h (scratch ++ [expect_db_name]) old) (λ _, copy_made None) done_.
Proof.
  pose proof scratch_sidecars as Hs. unfold sidecars in Hs. injection Hs as Hw Hh.
  eapply triple_from; [|eapply triple_to; [eapply consolidate_spec|by intros []]]; [intros f Hm|].
  2: rewrite scratch_sidecars, !elem_of_cons, elem_of_nil; apart.
  rewrite Hw, Hh. split; [|split]; (apply mirror_content; [unfold names; set_solver|done]).
Qed.

Lemma assess_spec :
  triple T (λ f, mirror raw f ∧ ∀ n, f !! (scratch ++ [n]) = None) (assess_old_state sq scan h R raw expect_db_name)
    (λ info f, old_kept info f) done_.
Proof.
  unfold assess_old_state. fold scratch old.
  set (P := λ f : fs, mirror raw f ∧ ∀ n, f !! (scratch ++ [n]) = None).
  apply (triple_seq _ _ P).
  { eapply (triple_quiet (λ p, p = scratch)); [by apply writes_mkdir_new| |done|done]. intros f f' [H1 H2] Ha. split.
    - intros n. rewrite (Ha (raw ++ [n])); [apply H1|]. apart.
    - intros n. rewrite (Ha (scratch ++ [n])); [apply H2|]. apart. }
  eapply (triple_bind _ _ _ _ copy_made).
  2:{ intros [info|]; [by apply triple_ret|]. apply triple_ex. intros s.
    apply (triple_from _ _ (λ f, f !! old = Some (File (Bytes s)) ∧ consolidated s)); [by intros f [? ?]|].
    apply triple_pre. intros Hs. eapply triple_bind; [apply describe_spec|]. intros info. apply triple_ret.
    intros f (Hf&Hsha&b&Hb). exists b. split; [done|]. intros _. by exists s. }
  eapply (triple_finally _ _ _ _ _ copy_made _ done_).
  - eapply (triple_bind _ _ _ _ (λ ns f, P f ∧ ns = scan f raw)).
    { eapply triple_weaken; [by apply (reading_spec T P)|done| |done]. intros ns f [Hf E]. by injection E as ->. }
    intros ns. apply (triple_seq _ _ (mirror scratch)); [apply scratch_spec|].
    eapply triple_catch; [apply (triple_seq _ _ (copy_made None)); [apply consolidate_old|by apply triple_ret]|].
    intros [] ; try by apply triple_raise. destruct (not_a_database _); [|by apply triple_raise].
    apply (triple_seq _ _ T); [by apply (triple_true _ (λ _, True)), writes_unlink|]. apply triple_ret. intros f _. by exists false.
  - intros u. apply triple_keep; [|done]. eapply (triple_inv (copy_made u)); [done|].
    apply (writes_keeps (λ p, p = scratch ∨ ∃ n, p = scratch ++ [n])).
    + apply writes_rmtree; [by left|]. intros n. right. by exists n.
    + intros f f' Hf Ha.
      assert (f' !! old = f !! old) as Ho by (apply Ha; apart).
      destruct u as [info|]; [|by unfold copy_made; rewrite Ho]. unfold copy_made, old_kept. by rewrite Ho.
  - intros e. apply (triple_true _ (λ _, True)), writes_rmtree; done.
Qed.

(** ** The checks *)

Context (cname : string) (cc : content) (Hcand : candidate = D ++ [".restore-stage"%string; cname])
  (Hcc : f0 !! candidate = Some (File cc)) (Hsha : sha_of h cc = e_sha expected).

Lemma before_candidate f : before f → f !! candidate = Some (File cc).
Proof. intros [Ha _]. rewrite Ha; [done|]. rewrite Hcand. apply candidate_not_private. Qed.

(** ** Steps before the swap *)

Definition stable (W : path → Prop) (G : fs → Prop) : Prop := ∀ f f', G f → agree W f f' → G f'.
Definition saving (tok : string) (p : path) : Prop := p = R ++ ["state-" +:+ tok +:+ ".tmp"]%string ∨ p = state_path R.
Notation stops := (λ (_ : exn) f, safe f).

Lemma quiet_step {A} W (G : fs → Prop) (m : IO A) : writes W m → quiet W → stable W G →
  triple safe (λ f, before f ∧ G f) m (λ _ f, before f ∧ G f) stops.
Proof.
  intros Hm Hq HG. apply (triple_quiet W); [done| | |].
  - intros f f' [Hb Hg] Ha. split; [by eapply before_quiet|by eapply HG].
  - intros f [Hb _]. by apply before_safe.
  - intros _ f [Hb _]. by apply before_safe.
Qed.
Lemma spec_step {A} W (P G : fs → Prop) (m : IO A) Q : writes W m → quiet W → stable W G → triple T P m Q done_ →
  triple safe (λ f, P f ∧ before f ∧ G f) m (λ a f, Q a f ∧ before f ∧ G f) stops.
Proof.
  intros Hm Hq HG HQ. apply (triple_step W safe); [done| | |done|].
  - intros f f' [Hb Hg] Ha. split; [by eapply before_quiet|by eapply HG].
  - intros f [Hb _]. by apply before_safe.
  - intros _ f [Hb _]. by apply before_safe.
Qed.

Lemma jget_text_inv k s (l : dict) : jget k (read_back l) = Some (JStr s) → jget k l = Some (JStr s).
Proof. unfold read_back. rewrite jget_sorted. destruct (jget k l) as [[]|]; try done. Qed.
Lemma jget_obj k (l m : dict) : jget k l = Some (JObj m) → jget k (read_back l) = Some (JObj (read_back m)).
Proof. intros H. unfold read_back. by rewrite jget_sorted, H. Qed.
Lemma jget_bool k b (l : dict) : jget k l = Some (JBool b) → jget k (read_back l) = Some (JBool b).
Proof. intros H. unfold read_back. by rewrite jget_sorted, H. Qed.

Lemma saved_before f n tok : before f → before (<[R ++ ["state-" +:+ tok +:+ ".tmp"]%string := n]> f).
Proof.
  intros Hb. eapply (before_quiet (λ p, p = R ++ ["state-" +:+ tok +:+ ".tmp"]%string)); [|done|by apply agree_insert].
  intros p ->. split; [right; left; by eexists|apply temp_ne].
Qed.
Lemma dropped_before f tok : before f → before (delete (R ++ ["state-" +:+ tok +:+ ".tmp"]%string) f).
Proof.
  intros Hb. eapply (before_quiet (λ p, p = R ++ ["state-" +:+ tok +:+ ".tmp"]%string)); [|done|by apply agree_delete].
  intros p ->. split; [right; left; by eexists|apply temp_ne].
Qed.
Lemma stated_before f st : jget "write_probe" st ≠ Some (JStr "ok") → jget "phase" st = Some (JStr "archiving") → before f →
  before (<[state_path R := File (Doc (JObj (read_back st)))]> f).
Proof.
  intros Hst Hp (Ha&Hu&Hr). split; [|split; intros st'; unfold state_of; rewrite lookup_insert_eq; intros [= <-]].
  - transitivity f; [done|]. apply agree_insert. right. left. by eexists.
  - intros Ho. by apply Hst, jget_text_inv.
  - by apply jget_text.
Qed.

Lemma save_before G tok st : stable (saving tok) G → jget "write_probe" st ≠ Some (JStr "ok") →
  jget "phase" st = Some (JStr "archiving") →
  triple safe (λ f, before f ∧ G f) (save_state R tok st) (λ _ f, holds_state R st f ∧ before f ∧ G f) stops.
Proof.
  intros HG Hst Hp. set (P := λ f, before f ∧ G f).
  assert (∀ f, P f → safe f) as HP by (intros f [Hb _]; by apply before_safe).
  eapply triple_weaken; [apply (save_spec safe P P R tok st)|done| |].
  - done.
  - done.
  - intros f n [Hb Hg]. split; [by apply saved_before|]. eapply HG; [exact Hg|]. apply agree_insert. by left.
  - intros f [Hb Hg]. split; [by apply dropped_before|]. eapply HG; [exact Hg|]. apply agree_delete. by left.
  - intros f [Hb Hg]. split; [by apply dropped_before|]. eapply HG; [exact Hg|]. apply agree_delete. by left.
  - intros f [Hb Hg]. split; [by apply stated_before|]. eapply HG; [exact Hg|]. apply agree_insert. by right.
  - intros _ f [? ?]. done.
  - intros _ f [?|?]; by apply HP.
Qed.

(** ** The archive as a whole *)

(** What the state says from the start. *)
Definition base (st : dict) : Prop :=
  jget "db" st = Some (JStr (path_str db)) ∧ jget "operation_id" st = Some (JStr op) ∧
  ∃ info, jget "candidate_info" st = Some (JObj info) ∧ jget "sha256" info = Some (JStr (e_sha expected)).
Definition sums_kept (st : dict) : Prop := ∃ sums, jget "raw_files" st = Some (JObj sums) ∧
  ∀ n c, n ∈ names → f0 !! (D ++ [n]) = Some (File c) → jget n sums = Some (JStr (sha_of h c)).
Definition archived (st : dict) (f : fs) : Prop := base st ∧ sums_kept st ∧ mirror raw f ∧
  ∃ info, jget "old_state" st = Some (JObj info) ∧ old_kept info f.

Definition unprobed (st : dict) : Prop := jget "write_probe" st ≠ Some (JStr "ok").
Lemma unprobed_set k v st : k ≠ "write_probe"%string → unprobed st → unprobed (dict_set k v st).
Proof. intros Hk. unfold unprobed. by rewrite jget_set, bool_decide_eq_false_2. Qed.

Lemma base_set k v st : k ∉ ["db"; "operation_id"; "candidate_info"]%string → base st → base (dict_set k v st).
Proof.
  rewrite !not_elem_of_cons. intros (?&?&?&_). unfold base. rewrite !jget_set, !bool_decide_eq_false_2 by done. done.
Qed.
Lemma sums_set k v st : k ≠ "raw_files"%string → sums_kept st → sums_kept (dict_set k v st).
Proof. intros Hk. unfold sums_kept. by rewrite jget_set, bool_decide_eq_false_2 by done. Qed.

Lemma mirror_stable d W : (∀ n, ¬ W (d ++ [n])) → stable W (mirror d).
Proof. intros HW f f' Hm Ha n. by rewrite (Ha _ (HW n)). Qed.
Lemma none_stable d W : (∀ n, ¬ W (d ++ [n])) → stable W (λ f, ∀ n, f !! (d ++ [n]) = None).
Proof. intros HW f f' Hm Ha n. by rewrite (Ha _ (HW n)). Qed.
Lemma old_stable info W : ¬ W old → stable W (old_kept info).
Proof. intros HW f f' (b&Hb&Hs) Ha. exists b. split; [done|]. by rewrite (Ha _ HW). Qed.
Lemma stable_and W (G H : fs → Prop) : stable W G → stable W H → stable W (λ f, G f ∧ H f).
Proof. intros HG HH f f' [? ?] Ha. split; [by eapply HG|by eapply HH]. Qed.
Lemma stable_pure W (φ : Prop) : stable W (λ _, φ).
Proof. by intros f f' ? _. Qed.

Context (Hlive : not_regular f0 (family f0 db) = false).
Notation L := (family f0 db).

Definition empty_archive (f : fs) : Prop := (∀ n, f !! (raw ++ [n]) = None) ∧ ∀ n, f !! (scratch ++ [n]) = None.

Lemma archive_old_spec st : base st → unprobed st → jget "phase" st = Some (JStr "archiving") →
  triple safe (λ f, before f ∧ empty_archive f) (archive_old sq scan h db R L st) (λ st' f, (before f ∧ archived st' f) ∧ unprobed st') stops.
Proof.
  intros Hst Hu Hph. unfold archive_old. fold raw.
  assert (∀ tok, stable (saving tok) (λ f, ∀ n, f !! (scratch ++ [n]) = None)) as Hs1 by (intros tok; apply none_stable; intros n; unfold saving; apart).
  assert (∀ tok, stable (saving tok) (mirror raw)) as Hs2 by (intros tok; apply mirror_stable; intros n; unfold saving; apart).
  apply (triple_seq _ _ (λ f, before f ∧ empty_archive f)).
  { eapply triple_to; [apply save_before; [|exact Hu|exact Hph]|by intros u f (_&?)].
    apply stable_and; [|done]. apply none_stable; intros n; unfold saving; apart. }
  apply (triple_seq _ _ (λ f, before f ∧ empty_archive f)).
  { apply (quiet_step (λ p, p = raw)); [by apply writes_mkdir_new| |].
    - intros p ->. split; [right; left; by eexists|apart].
    - apply stable_and; apply none_stable; intros n; apart. }
  eapply triple_bind.
  { apply (triple_from _ _ (λ f, (sources_kept f0 L f ∧ ∀ n, f !! (raw ++ [n]) = None) ∧ before f ∧ ∀ n, f !! (scratch ++ [n]) = None)).
    { intros f [Hb [H1 H2]]. split; [split; [apply same_sources; [done|intros n Hn; by apply before_live]|done]|done]. }
    apply (spec_step (λ p, ∃ s, s ∈ L ∧ p = raw ++ [path_name s])); [| | |apply (archive_mirror h D f0 raw (archive_one h raw)); [intros n m _; apart|intros s; by apply writes_archive_one|intros n c P; apply archive_one_spec|done]].
    - apply writes_archive. intros s Hs. apply writes_archive_one. by exists s.
    - intros p (s&Hs&->). split; [right; left; exists ["raw-old"%string; path_name s]; exact (eq_sym (app_assoc R ["raw-old"%string] [path_name s]))|apart].
    - apply none_stable. intros n (s&Hs&E). apart_in E. }
  intros sums. apply (triple_from _ _ (λ f, (before f ∧ mirror raw f ∧ (∀ n, f !! (scratch ++ [n]) = None)) ∧
    ∀ n c, n ∈ names → f0 !! (D ++ [n]) = Some (File c) → jget n sums = Some (JStr (sha_of h c)))); [naive_solver|].
  apply triple_pre. intros Hsums.
  set (st1 := dict_set "raw_files" (JObj sums) st).
  assert (base st1) as Hb1 by (apply base_set; [set_solver|done]).
  assert (sums_kept st1) as Hk1 by (exists sums; unfold st1; by rewrite jget_set, bool_decide_eq_true_2).
  apply (triple_seq _ _ (λ f, before f ∧ mirror raw f ∧ (∀ n, f !! (scratch ++ [n]) = None))).
  { eapply triple_to; [apply save_before; [by apply stable_and|by apply unprobed_set|by unfold st1; rewrite jget_set]|by intros u f (_&?)]. }
  rewrite name_db. eapply triple_bind.
  { apply (triple_from _ _ (λ f, (mirror raw f ∧ ∀ n, f !! (scratch ++ [n]) = None) ∧ before f ∧ mirror raw f)); [naive_solver|].
    apply (spec_step (λ p, (∃ l, p = R ++ "consolidate-source"%string :: l) ∨ p = old)); [| | |apply assess_spec].
    - apply writes_assess; [done| |by right]. intros l. left. by eexists.
    - intros p [[l ->]| ->]; (split; [right; left; by eexists|apart]).
    - apply mirror_stable. intros n. apart. }
  intros info. set (st2 := dict_set "old_state" (JObj info) st1).
  assert (base st2) as Hb2 by (apply base_set; [set_solver|done]).
  assert (sums_kept st2) as Hk2 by by apply sums_set.
  assert (unprobed st2) as Hu2 by (apply unprobed_set; [done|]; by apply unprobed_set).
  apply (triple_seq _ _ (λ f, before f ∧ mirror raw f ∧ old_kept info f)).
  { eapply triple_from; [|eapply triple_to; [apply (save_before (λ f, mirror raw f ∧ old_kept info f)); [|exact Hu2|by unfold st2, st1; rewrite !jget_set]|]].
    - naive_solver.
    - apply stable_and; [done|]. apply old_stable. unfold saving. apart.
    - naive_solver. }
  apply triple_ret. intros f (Hbf&Hm&Ho). split; [|exact Hu2]. split; [done|]. do 3 (split; [done|]). exists info.
  unfold st2. by rewrite jget_set, bool_decide_eq_true_2.
Qed.

(** ** The swap *)

Definition swapping (phase : string) (f : fs) : Prop := mirror raw f ∧
  ∃ st info, state_of R f = Some st ∧ recorded phase st ∧ jget "old_state" st = Some (JObj info) ∧ old_kept info f.

Lemma swapping_stable phase W : ¬ W (state_path R) → ¬ W old → (∀ n, ¬ W (raw ++ [n])) → stable W (swapping phase).
Proof.
  intros Hs Ho Hr f f' (Hm&st&info&Hst&Hrec&Hold&Hk) Ha. split; [by eapply mirror_stable|]. exists st, info.
  unfold state_of. rewrite (Ha _ Hs). do 3 (split; [done|]). by eapply old_stable.
Qed.
Lemma unproved_stable W : ¬ W (state_path R) → stable W unproved.
Proof. intros Hs f f' Hu Ha st. unfold state_of. rewrite (Ha _ Hs). apply Hu. Qed.
Lemma at_stable p x W : ¬ W p → stable W (λ f, f !! p = x).
Proof. intros Hp f f' Hf Ha. by rewrite (Ha _ Hp). Qed.

Lemma swapping_secured phase f : phase ∈ ["prepared"; "activated"]%string → swapping phase f → secured f.
Proof. intros Hp (Hm&st&info&Hst&Hr&Ho&Hk). by exists st, phase, info. Qed.
Lemma prepared_safe f : swapping "prepared" f → unproved f → f !! db = f0 !! db → safe f.
Proof.
  intros Hs Hu Hd. assert (secured f) as Hsec by (eapply swapping_secured; [|done]; left).
  split; [|split].
  - intros st Hst Ho. by destruct (Hu st Hst).
  - intros st p _ _ _. by right.
  - right. split; [done|by left].
Qed.
Lemma swapped_safe phase f : phase ∈ ["prepared"; "activated"]%string → swapping phase f → f !! db = f0 !! candidate → safe f.
Proof.
  intros Hp Hs Hd. assert (secured f) as Hsec by by eapply swapping_secured.
  split; [by intros st _ _; right|]. split; [by intros st p _ _ _; right|]. right. split; [done|by right].
Qed.

(** What a saved state with these fields reads back as. *)
Lemma archived_swapping phase st f :
  archived st f → jget "phase" st = Some (JStr phase) → holds_state R st f → swapping phase f.
Proof.
  intros ((Hdb&Hop&info&Hi&Hs)&(sums&Hr&Hsums)&Hm&oinfo&Ho&(b&Hb&Hk)) Hph Hst%holds_state_of.
  split; [done|]. exists (read_back st), (read_back oinfo). split; [done|]. split.
  - do 3 (split; [by apply jget_text|]). split.
    + exists (read_back info). split; [by apply jget_obj|by apply jget_text].
    + exists (read_back sums). split; [by apply jget_obj|]. intros n c Hn Hc. by apply jget_text, Hsums.
  - split; [by apply jget_obj|]. exists b. split; [by apply jget_bool|]. intros E. destruct (Hk E) as (s&?&?&?).
    exists s. split; [done|]. split; [by apply jget_text|done].
Qed.

Definition keeps_fields (st st' : dict) : Prop :=
  (base st → base st') ∧ (sums_kept st → sums_kept st') ∧ jget "old_state" st' = jget "old_state" st.
Lemma archived_fields st st' f : keeps_fields st st' → archived st f → archived st' f.
Proof. intros (Hb&Hs&Ho) (?&?&?&?). do 2 (split; [auto|]). rewrite Ho. done. Qed.
Lemma phase_fields phase st : keeps_fields st (dict_set "phase" (JStr phase) st).
Proof.
  split; [apply base_set; set_solver|]. split; [by apply sums_set|]. by rewrite jget_set.
Qed.
Lemma probe_fields v st : keeps_fields st (dict_set "write_probe" v st).
Proof. split; [apply base_set; set_solver|]. split; [by apply sums_set|]. by rewrite jget_set. Qed.

Lemma archived_stable st W : ¬ W old → (∀ n, ¬ W (raw ++ [n])) → stable W (archived st).
Proof.
  intros Ho Hr. do 2 (apply stable_and; [apply stable_pure|]). apply stable_and; [by apply mirror_stable|].
  intros f f' (info&?&?) Ha. exists info. split; [done|]. by eapply old_stable.
Qed.

Notation st_prepared st := (dict_set "write_probe" (JStr PROBE_PENDING) (dict_set "phase" (JStr "prepared") st)).

(** Up to the state that says the swap may begin. *)
Lemma prepare_spec st :
  unprobed st →
  triple safe (λ f, f !! incoming = Some (File cc) ∧ before f ∧ archived st f) (save_state R (token h 3) (st_prepared st))
    (λ _ f, swapping "prepared" f ∧ unproved f ∧ f !! db = f0 !! db ∧ f !! incoming = Some (File cc)) stops.
Proof.
  intros Hu. set (st' := st_prepared st). set (tok := token h 3).
  set (G := λ f, archived st' f ∧ f !! incoming = Some (File cc)). set (P := λ f, before f ∧ G f).
  set (N := λ f, swapping "prepared" f ∧ unproved f ∧ f !! db = f0 !! db ∧ f !! incoming = Some (File cc)).
  assert (stable (λ p, p = R ++ ["state-" +:+ tok +:+ ".tmp"]%string) N) as HNt.
  { apply stable_and; [apply swapping_stable; aparts|]. apply stable_and; [apply unproved_stable; aparts|].
    apply stable_and; apply at_stable; aparts. }
  assert (stable (λ p, p = R ++ ["state-" +:+ tok +:+ ".tmp"]%string ∨ p = state_path R) G) as HGt.
  { apply stable_and; [apply archived_stable; aparts|apply at_stable; apart]. }
  eapply triple_weaken; [apply (save_spec safe P N R tok st')| |by intros _ f [? _]|].
  - intros f [Hb _]. by apply before_safe.
  - intros f (?&?&?&_). by apply prepared_safe.
  - intros f n [Hb Hg]. split; [by apply saved_before|]. eapply HGt; [exact Hg|]. apply agree_insert. by left.
  - intros f [Hb Hg]. split; [by apply dropped_before|]. eapply HGt; [exact Hg|]. apply agree_delete. by left.
  - intros f Hf. eapply HNt; [exact Hf|]. by apply agree_delete.
  - intros f [Hb Hg]. set (f' := <[state_path R := _]> f).
    assert (agree (λ p, p = state_path R) f f') as Hag by by apply agree_insert.
    assert (G f') as [Ha' Hi'] by (eapply HGt; [exact Hg|apply agree_insert; by right]).
    split; [|split; [|split; [|exact Hi']]].
    + eapply archived_swapping; [exact Ha'|by unfold st'; rewrite !jget_set|apply lookup_insert_eq].
    + intros st2. unfold f', state_of. rewrite lookup_insert_eq. intros [= <-] Ho. apply jget_text_inv in Ho.
      unfold st' in Ho. by rewrite jget_set in Ho.
    + rewrite (Hag db) by aparts. apply (before_live f expect_db_name); [done|]. unfold names. left.
  - intros f (Hi&Hb&Ha). split; [exact Hb|]. split; [|exact Hi].
    eapply archived_fields; [apply probe_fields|]. eapply archived_fields; [apply phase_fields|done].
  - intros _ f [[Hb _]|(?&?&?&_)]; [by apply before_safe|by apply prepared_safe].
Qed.


(** From the candidate in place to a state that says so. *)
Lemma save_swapped tok phase phase' st :
  phase ∈ ["prepared"; "activated"]%string → phase' ∈ ["prepared"; "activated"]%string → jget "phase" st = Some (JStr phase') →
  triple safe (λ f, swapping phase f ∧ archived st f ∧ f !! db = f0 !! candidate) (save_state R tok st)
    (λ _ f, (archived st f ∧ swapping phase' f ∧ f !! db = f0 !! candidate) ∧ holds_state R st f) stops.
Proof.
  intros Hp Hp' Hst. set (temp := R ++ ["state-" +:+ tok +:+ ".tmp"]%string).
  set (P := λ f, swapping phase f ∧ archived st f ∧ f !! db = f0 !! candidate).
  set (N := λ f, archived st f ∧ swapping phase' f ∧ f !! db = f0 !! candidate).
  assert (∀ f, P f → safe f) as HP by (intros f (?&_&?); by apply (swapped_safe phase)).
  assert (∀ f, N f → safe f) as HN by (intros f (_&?&?); by apply (swapped_safe phase')).
  assert (stable (λ p, p = temp) P) as HPt.
  { apply stable_and; [apply swapping_stable; unfold temp; aparts|].
    apply stable_and; [apply archived_stable; unfold temp; aparts|apply at_stable; unfold temp; apart]. }
  assert (stable (λ p, p = temp) N) as HNt.
  { apply stable_and; [apply archived_stable; unfold temp; aparts|].
    apply stable_and; [apply swapping_stable; unfold temp; aparts|apply at_stable; unfold temp; apart]. }
  eapply triple_weaken; [apply (save_spec safe P N R tok st)|done|done|]; [done|done| | | | |].
  - intros f n Hf. eapply HPt; [exact Hf|]. by apply agree_insert.
  - intros f Hf. eapply HPt; [exact Hf|]. by apply agree_delete.
  - intros f Hf. eapply HNt; [exact Hf|]. by apply agree_delete.
  - intros f (_&Ha&Hd). set (f' := <[state_path R := _]> f).
    assert (agree (λ p, p = state_path R) f f') as Hag by by apply agree_insert.
    assert (archived st f') as Ha' by (eapply archived_stable; [| |exact Ha|exact Hag]; aparts).
    split; [done|]. split; [|by rewrite (Hag db) by apart].
    eapply archived_swapping; [done|done|]. apply lookup_insert_eq.
  - intros _ f [?|?]; auto.
Qed.

Lemma displace_spec st :
  let S1 f := (swapping "prepared" f ∧ unproved f ∧ f !! db = f0 !! db ∧ f !! incoming = Some (File cc)) ∧ archived st f in
  triple safe S1 (displace R (sidecars db)) (λ _, S1) stops.
Proof.
  intros S1. assert (∀ f, S1 f → safe f) as HS by (intros f [(?&?&?&_) _]; by apply prepared_safe).
  apply (triple_quiet (λ p, p = wal ∨ p = shm ∨ p = R ++ ["displaced-openchronicle.db-wal"%string] ∨ p = R ++ ["displaced-openchronicle.db-shm"%string]));
    [| |done|by intros _].
  - rewrite sidecars_db. apply writes_displace. intros s. rewrite !elem_of_cons, elem_of_nil.
    intros [-> |[-> |[]]]; rewrite ?name_wal, ?name_shm; auto.
  - apply stable_and; [|apply archived_stable; aparts].
    apply stable_and; [apply swapping_stable; aparts|].
    apply stable_and; [apply unproved_stable; apart|]. apply stable_and; apply at_stable; apart.
Qed.

Definition activated_state (st : dict) (f : fs) : Prop :=
  f !! db = f0 !! candidate ∧ secured f ∧ state_of R f = Some (read_back st) ∧
  jget "phase" st = Some (JStr "activated") ∧ jget "write_probe" st = Some (JStr "ok").

Lemma require_spec st t :
  jget "phase" st = Some (JStr "activated") →
  triple safe (λ f, archived st f ∧ swapping "activated" f ∧ f !! db = f0 !! candidate) (require_writable sq h R (token h 5) st db op t)
    (λ st' f, activated_state st' f) stops.
Proof.
  intros Hst. unfold require_writable. set (P := λ f, archived st f ∧ swapping "activated" f ∧ f !! db = f0 !! candidate).
  assert ("activated"%string ∈ ["prepared"; "activated"]%string) as Hin by set_solver.
  assert (∀ f, P f → safe f) as HP by (intros f (_&?&?); by apply (swapped_safe "activated")).
  eapply (triple_bind _ _ _ _ (λ _, P)).
  { apply (triple_quiet (λ p, p = wal ∨ p = shm)); [| |done|by intros _].
    - apply writes_probe_writable; [done|]. intros q. rewrite sidecars_db, !elem_of_cons, elem_of_nil. naive_solver.
    - apply stable_and; [apply archived_stable; aparts|].
      apply stable_and; [apply swapping_stable; aparts|apply at_stable; apart]. }
  intros pr. set (st' := dict_set "write_probe" (JStr pr) st).
  assert (jget "phase" st' = Some (JStr "activated")) as Hst' by (unfold st'; by rewrite jget_set).
  set (Q := λ f, (archived st' f ∧ swapping "activated" f ∧ f !! db = f0 !! candidate) ∧ holds_state R st' f).
  assert (∀ f, Q f → safe f) as HQ by (intros f [(_&?&?) _]; by apply (swapped_safe "activated")).
  apply (triple_seq _ _ Q).
  { eapply triple_from; [|by apply (save_swapped (token h 5) "activated")]. intros f (Ha&Hs&Hd). split; [done|]. split; [|done].
    eapply archived_fields; [apply probe_fields|done]. }
  case_bool_decide as Hok; [|destruct (existsb _ _); apply triple_raise; auto].
  apply triple_ret. intros f ((_&Hs&Hd)&Hst2). split; [done|]. split; [by apply (swapping_secured "activated")|].
  split; [by apply holds_state_of|]. split; [done|]. subst pr. unfold st'. by rewrite jget_set.
Qed.

Lemma prepare_archived st : unprobed st →
  triple safe (λ f, f !! incoming = Some (File cc) ∧ before f ∧ archived st f) (save_state R (token h 3) (st_prepared st))
    (λ _ f, (swapping "prepared" f ∧ unproved f ∧ f !! db = f0 !! db ∧ f !! incoming = Some (File cc)) ∧ archived (st_prepared st) f) stops.
Proof.
  intros Hu. eapply triple_weaken; [apply (triple_inv (λ f, safe f ∧ archived (st_prepared st) f)); [by intros f [? _]|]|..].
  - apply (triple_frame (saving (token h 3))); [apply writes_save; [by left|by right]| |by apply (prepare_spec st)].
    apply archived_stable; unfold saving; aparts.
  - intros f (Hi&Hb&Ha). split; [done|]. eapply archived_fields; [apply probe_fields|]. eapply archived_fields; [apply phase_fields|done].
  - by intros _ f [? ?].
  - by intros e f [? _].
Qed.

Lemma replace_spec st1 :
  triple safe (λ f, (swapping "prepared" f ∧ unproved f ∧ f !! db = f0 !! db ∧ f !! incoming = Some (File cc)) ∧ archived st1 f)
    (replace_file incoming db) (λ _ f, swapping "prepared" f ∧ archived st1 f ∧ f !! db = f0 !! candidate) stops.
Proof.
  apply triple_io; [intros f [(?&?&?&_) _]; by apply prepared_safe|].
  intros f f' r [(Hs&Hu&Hd&Hi) Ha]. rewrite Hi. intros E.
  assert (∃ f'', f' = f ∧ r = Raise OSError ∨ f'' = f' ∧ f'' = <[db := File cc]> (delete incoming f) ∧ r = Ok tt) as (f''&[[-> ->]|(<-&->&->)]).
  { exists f'. destruct (f !! db) as [[]|]; injection E as <- <-; auto. }
  { split; by apply prepared_safe. }
  assert (agree (λ p, p = incoming ∨ p = db) f (<[db := File cc]> (delete incoming f))) as Hag.
  { transitivity (delete incoming f : fs); [apply agree_delete; by left|apply agree_insert; by right]. }
  assert (swapping "prepared" (<[db := File cc]> (delete incoming f))) as Hs' by (eapply swapping_stable; [| | |exact Hs|exact Hag]; aparts).
  assert (<[db := File cc]> (delete incoming f) !! db = f0 !! candidate) as Hd' by (by rewrite lookup_insert_eq, Hcc).
  split; [by apply (swapped_safe "prepared"); [set_solver|..]|]. split; [done|]. split; [|done].
  eapply archived_stable; [| |exact Ha|exact Hag]; aparts.
Qed.

Lemma install_spec st info :
  unprobed st →
  triple safe (λ f, before f ∧ archived st f) (install_candidate sq h db candidate R op info st) activated_state stops.
Proof.
  intros Hu. unfold install_candidate. rewrite incoming_db.
  apply (triple_seq _ _ (λ f, f !! incoming = Some (File cc) ∧ before f ∧ archived st f)).
  { eapply triple_from; [|apply (spec_step (λ p, p = incoming) (λ f, f !! candidate = Some (File cc)))].
    - intros f [Hb Ha]. split; [by apply before_candidate|exact (conj Hb Ha)].
    - by apply writes_copy.
    - intros p ->. split; [by right; right|apart].
    - apply archived_stable; aparts.
    - eapply triple_weaken; [apply (copy_spec T (λ f, f !! candidate = Some (File cc)) candidate incoming cc)|done| |done]; try done.
      + intros f n Hf. rewrite lookup_insert_ne; [done|]. rewrite Hcand. apart.
      + rewrite Hcand. apart.
      + by intros _ f [_ ?]. }
  set (K := λ f, f !! incoming = Some (File cc) ∧ before f ∧ archived st f).
  assert (∀ f, K f → safe f) as HK by (intros f (_&?&_); by apply before_safe).
  eapply (triple_bind _ _ _ _ (λ _, K)); [apply triple_keep; [apply reads_spec; [apply writes_sha|done]|auto]|]. intros sha.
  apply (triple_seq _ _ K); [apply triple_keep; [apply reads_spec; [apply writes_refuse_if|done]|auto]|].
  set (st1 := st_prepared st).
  set (S1 := λ f, (swapping "prepared" f ∧ unproved f ∧ f !! db = f0 !! db ∧ f !! incoming = Some (File cc)) ∧ archived st1 f).
  assert (∀ f, S1 f → safe f) as HS by (intros f [(?&?&?&_) _]; by apply prepared_safe).
  apply (triple_seq _ _ S1); [by apply prepare_archived|].
  apply (triple_seq _ _ S1); [apply displace_spec|].
  do 2 (apply (triple_seq _ _ S1); [by apply triple_keep; [apply touch_spec|intros _]|]).
  set (S2 := λ f, swapping "prepared" f ∧ archived st1 f ∧ f !! db = f0 !! candidate).
  assert ("prepared"%string ∈ ["prepared"; "activated"]%string) as Hin by set_solver.
  assert (∀ f, S2 f → safe f) as HS2 by (intros f (?&_&?); by apply (swapped_safe "prepared")).
  apply (triple_seq _ _ S2); [by apply replace_spec|].
  apply (triple_seq _ _ S2); [by apply triple_keep; [apply touch_spec|intros _]|].
  set (st2 := dict_set "phase" (JStr "activated") st1).
  apply (triple_seq _ _ (λ f, archived st2 f ∧ swapping "activated" f ∧ f !! db = f0 !! candidate)); [|by apply require_spec; unfold st2; rewrite jget_set].
  eapply triple_to; [eapply triple_from; [|apply (save_swapped (token h 4) "prepared" "activated" st2)]|].
  - intros f (Hs&Ha&Hd). split; [exact Hs|]. split; [|exact Hd]. eapply archived_fields; [apply phase_fields|exact Ha].
  - done.
  - set_solver.
  - unfold st2. by rewrite jget_set.
  - by intros _ f [? _].
Qed.

Context (Htree : f0 !! R = None → ∀ l, f0 !! (R ++ l) = None).

Lemma start_safe f : agree (λ p, p = D ++ [".recovery"%string]) f0 f → safe f.
Proof.
  intros Ha. assert (state_of R f = state_of R f0) as Hs by (unfold state_of; rewrite Ha; [done|]; apart).
  split; [by intros st _ _; left|]. split; [by intros st p _ _ _; left|]. left. intros n Hn. apply Ha. intros E. apply app_inv_head in E. simplify_eq. unfold names in Hn.
    rewrite !elem_of_cons, elem_of_nil in Hn. by destruct Hn as [?|[?|[?|[]]]].
Qed.

Lemma parent_R : parent R = D ++ [".recovery"%string].
Proof.
  assert (R = (D ++ [".recovery"%string]) ++ [op]) as -> by (rewrite <- app_assoc; done). apply parent_app.
Qed.

Notation started := (agree (λ p, p = D ++ [".recovery"%string]) f0).
Lemma make_root : triple safe (λ f, f = f0) (mkdir (parent R)) (λ _, started) stops.
Proof.
  rewrite parent_R. apply triple_io; [intros f ->; by apply start_safe|]. intros f f' r -> E.
  assert (f' = (mkdir_one (D ++ [".recovery"%string]) f0).1) as -> by (by rewrite E).
  assert (started (mkdir_one (D ++ [".recovery"%string]) f0).1) by by apply agree_mkdir.
  split; [by apply start_safe|]. destruct r; [done|by apply start_safe].
Qed.
Lemma make_recovery : triple safe started (mkdir_new R) (λ _ f, before f ∧ empty_archive f) stops.
Proof.
  apply triple_io; [intros f Hf; by apply start_safe|]. intros f f' r Hf E.
  destruct (f !! R) as [x|] eqn:HR; injection E as <- <-; [by split; apply start_safe|].
  assert (∀ l, f0 !! (R ++ l) = None) as Hnone.
  { apply Htree. rewrite <- HR. symmetry. apply Hf. apart. }
  assert (∀ x l, f !! (R ++ x :: l) = None) as Hnone'.
  { intros x l. rewrite Hf; [apply Hnone|]. apart. }
  assert (before (<[R := Dir]> f)) as Hb.
  { split.
    - transitivity f; [eapply agree_weaken; [|exact Hf]; intros p ->; by left|]. apply agree_insert. right. left. exists []. by rewrite app_nil_r.
    - split; intros st; unfold state_of; rewrite lookup_insert_ne by apart; unfold state_path; by rewrite Hnone'. }
  split; [by apply before_safe|]. split; [done|].
  split; intros n; rewrite lookup_insert_ne by apart; unfold raw, scratch; rewrite <- app_assoc; apply Hnone'.
Qed.

(** The result names the state the files hold. *)
Definition activated_result (res : dict) (f : fs) : Prop := ∃ st, jget "state" res = Some (JObj st) ∧ activated_state st f.

Lemma apply_spec info :
  jget "sha256" info = Some (JStr (e_sha expected)) →
  triple safe (λ f, f = f0)
    (mkdir (parent R) ;; mkdir_new R ;; fsync_dir (parent R) ;;
     let* state := archive_old sq scan h db R L [("operation_id", JStr op); ("created_at", JStr (isoformat (utc (now h))));
      ("phase", JStr "archiving"); ("db", JStr (path_str db)); ("candidate", JStr (path_str candidate));
      ("candidate_info", JObj info); ("raw_files", JObj [])]%string in
     let* state := install_candidate sq h db candidate R op info state in
     ret [("action", JStr "activate"); ("applied", JBool true); ("recovery_dir", JStr (path_str R)); ("state", JObj state)]%string)
    activated_result stops.
Proof.
  intros Hi. apply (triple_seq _ _ started); [apply make_root|].
  apply (triple_seq _ _ (λ f, before f ∧ empty_archive f)); [apply make_recovery|].
  assert (∀ f, before f ∧ empty_archive f → safe f) as HB by (intros f [? _]; by apply before_safe).
  apply (triple_seq _ _ (λ f, before f ∧ empty_archive f)); [by apply triple_keep; [apply touch_spec|auto]|].
  eapply triple_bind; [apply archive_old_spec; [|done|done]|].
  { do 2 (split; [done|]). by exists info. }
  intros st. apply triple_pre. intros Hu.
  eapply triple_bind; [by apply install_spec|]. intros st'. apply triple_ret. intros f Hf. by exists st'.
Qed.

End activate.

(** ** The whole command *)

Section whole.
Context (sq : sqlite) (scan : fs → path → list string) (h : helper).
Context (D : path) (op : string) (f0 : fs) (candidate : path) (expected : expectation).
Notation db := (db D). Notation R := (R D op). Notation safe := (safe sq h D op f0 candidate expected).

Lemma safe_start : safe f0.
Proof. split; [intros st _ _; by left|]. split; [intros st p _ _ _; by left|]. left. by intros n _. Qed.

(** What the checks let through. *)
Definition fit (info : dict) : Prop := ∃ n c, candidate = D ++ [".restore-stage"%string; n] ∧ f0 !! candidate = Some (File c) ∧
  sha_of h c = e_sha expected ∧ jget "sha256" info = Some (JStr (e_sha expected)).

Lemma preflight_spec : triple safe (λ f, f = f0) (preflight sq h db candidate expected) (λ info f, f = f0 ∧ fit info) (λ _, safe).
Proof.
  set (P := λ f : fs, f = f0). assert (∀ f, P f → safe f) as HP by (intros f ->; apply safe_start).
  assert (∀ b msg (φ : Prop), (b = false → φ) → triple safe P (refuse_if b msg) (λ _ f, P f ∧ φ) (λ _, safe)) as Hif.
  { intros b msg φ Hφ. eapply triple_weaken; [apply (refuse_if_spec safe P)|done|intros _ f [? ?]; auto|auto]. }
  assert (∀ g msg, triple safe P (refuse_when g msg) (λ _, P) (λ _, safe)) as Hwhen.
  { intros g msg. apply triple_keep; [by apply reads_spec; [apply writes_refuse_when|]|auto]. }
  assert (∀ p, triple safe P (regular p) (λ _, P) (λ _, safe)) as Hreg by (intros p; apply Hwhen).
  unfold preflight.
  apply (triple_seq _ _ P); [eapply triple_to; [by apply (Hif _ _ True)|by intros _ f [? _]]|].
  apply (triple_seq _ _ P); [apply Hreg|]. apply (triple_seq _ _ P); [apply Hwhen|].
  set (φ := candidate = D ++ [".restore-stage"%string; path_name candidate]).
  apply (triple_seq _ _ (λ f, P f ∧ φ)).
  { apply Hif. intros [Hs%negb_false_iff%bool_decide_eq_true _]%orb_false_iff. unfold stage_of in Hs. rewrite parent_db in Hs.
    unfold φ, path_name. destruct candidate as [|x l] using rev_ind; [by destruct D|].
    rewrite parent_app in Hs. subst l. rewrite last_snoc. cbn. by rewrite <- app_assoc. }
  apply triple_pre. intros Hφ.
  apply (triple_seq _ _ P); [apply Hreg|]. apply (triple_seq _ _ P); [by apply triple_keep; [apply touch_spec|auto]|].
  apply (triple_seq _ _ P); [eapply triple_to; [by apply (Hif _ _ True)|by intros _ f [? _]]|].
  apply (triple_seq _ _ P); [apply Hwhen|].
  eapply triple_bind; [eapply triple_weaken; [by apply (inspect_file_spec h sq safe P)|done|intros info f Hf; exact Hf|by intros _ f ->; apply safe_start]|].
  intros info. apply (triple_from _ _ (λ f, ∃ c, P f ∧ f0 !! candidate = Some (File c) ∧ jget "sha256" info = Some (JStr (sha_of h c)))).
  { intros f [-> (c&?&?)]. by exists c. }
  apply triple_ex. intros c. apply triple_pre. intros [Hc Hs].
  apply (triple_seq _ _ (λ f, P f ∧ sha_of h c = e_sha expected)).
  { apply Hif. intros [[Ht _]%andb_true_iff _]%negb_false_iff%andb_true_iff. rewrite Hs in Ht. by apply bool_decide_eq_true in Ht. }
  apply triple_ret. intros f [Hf E]. split; [exact Hf|]. exists (path_name candidate), c. by rewrite <- E.
Qed.

Context (Hopened : ∀ p f, agree (λ q, q ∈ sidecars p) f (opened sq p f)).
Context (Hlock : ∀ p f, agree (λ q, q ∈ sidecars p) f (write_lock sq p f).1).
Context (Hscan : ∀ f d n, n ∈ scan f d ↔ f !! (d ++ [n]) ≠ None).
Context (Htree : f0 !! R = None → ∀ l, f0 !! (R ++ l) = None).

Lemma activate_spec :
  triple safe (λ f, f = f0) (activate sq scan h db candidate op expected true) (activated_result sq h D op f0 candidate expected) (λ _, safe).
Proof.
  set (P := λ f : fs, f = f0). assert (∀ f, P f → safe f) as HP by (intros f ->; apply safe_start).
  assert (∀ {A} (m : IO A), writes (λ _, False) m → triple safe P m (λ _, P) (λ _, safe)) as Hread.
  { intros A m Hm. apply triple_keep; [by apply reads_spec|auto]. }
  unfold activate. apply (triple_seq _ _ P); [apply Hread, writes_refuse_if|].
  eapply triple_bind; [apply preflight_spec|]. intros info. apply triple_pre. intros (n&c&Hcand&Hcc&Hsha&Hinfo).
  eapply (triple_bind _ _ _ _ (λ R' f, P f ∧ R' = R)).
  { unfold recovery_dir. apply (triple_seq _ _ P); [apply Hread, writes_refuse_if|].
    apply (triple_seq _ _ P); [apply Hread, writes_refuse_when|]. apply triple_ret. intros f Hf. by rewrite recovery_db. }
  intros R'. apply triple_pre. intros ->. apply (triple_seq _ _ P); [apply Hread, writes_refuse_when|].
  eapply (triple_bind _ _ _ _ (λ L f, P f ∧ L = family f0 db)); [apply triple_look; by intros f ->|].
  intros L. apply triple_pre. intros ->.
  apply (triple_seq _ _ (λ f, P f ∧ not_regular f0 (family f0 db) = false)).
  { eapply triple_weaken; [apply (refuse_when_spec safe P)|done|by intros _ f [-> ?]|auto]. }
  apply triple_pre. intros Hlive.
  eapply triple_bind; [apply Hread, writes_sizes|]. intros old_size. eapply triple_bind; [apply Hread, writes_size|]. intros size.
  apply (triple_seq _ _ P); [apply Hread, writes_touch|]. apply (triple_seq _ _ P); [apply Hread, writes_refuse_if|].
  cbn [negb]. by eapply apply_spec.
Qed.
End whole.
