(* ===== verification/RollbackProps.v ===== *)
(** * Rollback, interrupted and resumed

    [rollback] of [OfflineRestore], run after an activation and interrupted any
    number of times: the database it replaces is archived before anything
    moves, the file in place is always that database or the consolidated old
    one, and once the phase [rolling_back] is recorded another run finishes. *)

From S2P Require Import Prelude PyStr PyText Sha256 Domain DateTime PyNum TextProps PyRepr FileSystem Backups BackupProps OfflineRestore OfflineFrames.
From S2P Require Import ActivateProps.
Local Open Scope Z_scope.
Local Open Scope prog_scope.

Section rollback.
Context (sq : sqlite) (h : helper).
Context (Hlock : ∀ p f, agree (λ q, q ∈ sidecars p) f (write_lock sq p f).1).
Context (D : path) (op : string) (f0 : fs) (co : content).
Notation db := (db D). Notation R := (R D op). Notation old := (old D op). Notation forward := (forward D op).
Notation incoming := (incoming D op). Notation backing := (backing D op). Notation wal := (wal D). Notation shm := (shm D).

(** ** The states of a rollback *)

(** What the recovery state says about the target. *)
Definition target_recorded (st : dict) : Prop :=
  jget "db" st = Some (JStr (path_str db)) ∧ jget "operation_id" st = Some (JStr op) ∧
  (∃ ci, jget "candidate_info" st = Some (JObj ci)) ∧
  ∃ info, jget "old_state" st = Some (JObj info) ∧ jget "rollback_available" info = Some (JBool true) ∧
    jget "sha256" info = Some (JStr (sha_of h co)).

Lemma target_read_back st : target_recorded st → target_recorded (read_back st).
Proof.
  intros (?&?&(ci&?)&info&?&?&?). do 2 (split; [by apply jget_text|]). split; [exists (read_back ci); by apply jget_obj|].
  exists (read_back info). split; [by apply jget_obj|]. split; [by apply jget_bool|by apply jget_text].
Qed.
Lemma target_set k v st : k ∉ ["db"; "operation_id"; "candidate_info"; "old_state"]%string → target_recorded st → target_recorded (dict_set k v st).
Proof. rewrite !not_elem_of_cons. intros (?&?&?&?&_). unfold target_recorded. by rewrite !jget_set, !bool_decide_eq_false_2 by done. Qed.

Definition state_temp (p : path) : Prop := ∃ tok, p = R ++ ["state-" +:+ tok +:+ ".tmp"]%string.
Definition forward_part (p : path) : Prop := ∃ l, p = forward ++ l.
Definition whole_forward (f : fs) : Prop := f !! forward = None → ∀ l, f !! (forward ++ l) = None.
(** Nothing has moved. *)
Definition waiting (f : fs) : Prop := agree (λ p, forward_part p ∨ state_temp p) f0 f ∧ whole_forward f.

(** What the archive holds under a name. *)
Definition live_node (n : string) : option node := f0 !! (D ++ [n]).
Definition displaced_at (n : string) : path := forward ++ [("displaced-" +:+ n)%string].
Definition SIDECARS : list string := ["openchronicle.db-wal"; "openchronicle.db-shm"]%string.

Definition sums_of (sums : dict) : Prop :=
  (∀ k v, (k, v) ∈ sums → k ∈ names ∧ ∃ c, live_node k = Some (File c) ∧ v = JStr (sha_of h c)) ∧
  (∀ n, n ∈ names → (∃ c, live_node n = Some (File c) ∧ jget n sums = Some (JStr (sha_of h c))) ∨ (live_node n = None ∧ jget n sums = None)).
(** A sidecar is in its place or has been moved away. *)
Definition sidecar_moved (f : fs) (n : string) : Prop :=
  (f !! (D ++ [n]) = live_node n ∧ f !! displaced_at n = None) ∨ (f !! (D ++ [n]) = None ∧ f !! displaced_at n = live_node n).
Definition archive_kept (f : fs) : Prop := f !! forward = Some Dir ∧ ∀ n, n ∈ names → f !! (forward ++ [n]) = live_node n.
Definition archive_complete : Prop := ∀ n, n ∈ names → (∃ c, live_node n = Some (File c)) ∨ live_node n = None.

(** The swap back is under way. *)
Definition mid (f : fs) : Prop :=
  (∃ st sums, state_of R f = Some st ∧ target_recorded st ∧ jget "phase" st = Some (JStr "rolling_back") ∧
    jget "write_probe" st = Some (JStr PROBE_PENDING) ∧ jget "forward_files" st = Some (JObj sums) ∧ sums_of sums) ∧
  archive_kept f ∧ (∃ c, live_node expect_db_name = Some (File c)) ∧
  f !! old = Some (File co) ∧ (f !! db = live_node expect_db_name ∨ f !! db = Some (File co)) ∧
  (∀ n, n ∈ SIDECARS → sidecar_moved f n).
Definition moving (f : fs) : Prop := mid f ∧ f !! backing ≠ Some Dir.
(** The old database is in place. *)
Definition finished (f : fs) : Prop :=
  (∃ st, state_of R f = Some st ∧ jget "phase" st = Some (JStr "rolled_back")) ∧ archive_kept f ∧ f !! db = Some (File co).

Definition any_stage (f : fs) : Prop := waiting f ∨ moving f ∨ finished f.

(** ** Stability *)

Lemma mid_stable W : ¬ W (state_path R) → ¬ W old → (∀ l, ¬ W (forward ++ l)) → (∀ n, n ∈ names → ¬ W (D ++ [n])) → stable W mid.
Proof.
  intros Hs Ho Hf Hn f f' ((st&sums&Hst&H)&(Hd&Ha)&Hc&Hold&Hdb&Hside) Hag.
  assert (f' !! forward = f !! forward) as Hd' by (rewrite <- (app_nil_r forward); apply Hag, Hf).
  assert (∀ l, f' !! (forward ++ l) = f !! (forward ++ l)) as Hl by (intros l; apply Hag, Hf).
  assert (∀ n, n ∈ names → f' !! (D ++ [n]) = f !! (D ++ [n])) as Hln by (intros n ?; by apply Hag, Hn).
  split; [exists st, sums; unfold state_of; by rewrite (Hag _ Hs)|]. split; [split; [by rewrite Hd'|intros n ?; rewrite Hl; auto]|].
  split; [done|]. split; [by rewrite (Hag _ Ho)|]. split; [unfold db; rewrite Hln; [exact Hdb|unfold names; left]|].
  intros n Hin. unfold sidecar_moved, displaced_at. rewrite Hl, Hln; [by apply Hside|]. unfold names. by right.
Qed.
Lemma finished_stable W : ¬ W (state_path R) → (∀ l, ¬ W (forward ++ l)) → ¬ W db → stable W finished.
Proof.
  intros Hs Hf Hdb f f' ((st&Hst&Hp)&(Hd&Ha)&Hc) Hag. split; [exists st; unfold state_of; by rewrite (Hag _ Hs)|].
  split; [|by rewrite (Hag _ Hdb)]. split.
  - rewrite <- Hd. rewrite <- (app_nil_r forward). apply Hag, Hf.
  - intros n Hn. rewrite (Hag _ (Hf [n])). auto.
Qed.

(** ** The swap back *)

Notation T := (λ _ : fs, True).
Notation done_ := (λ _ _, True).
Notation stops := (λ (_ : exn) f, moving f ∨ finished f).
Notation I := (λ f, moving f ∨ finished f).

Ltac not_live := let n := fresh in let Hn := fresh in
  intros n Hn; unfold names in Hn; rewrite !elem_of_cons, elem_of_nil in Hn; destruct Hn as [->|[->|[->|[]]]]; aparts.
Ltac mid_stable_tac := apply mid_stable; [aparts|aparts|aparts|not_live].

Lemma moving_stable W : ¬ W backing → stable W mid → stable W moving.
Proof. intros Hb Hm. apply stable_and; [done|]. intros f f' Hf Ha. by rewrite (Ha _ Hb). Qed.

Lemma mid_backing f x : mid f → mid (<[backing := x]> f).
Proof.
  intros Hm. assert (stable (λ p, p = backing) mid) as Hs by mid_stable_tac. eapply Hs; [exact Hm|]. by apply agree_insert.
Qed.
Lemma mid_drop f : mid f → mid (delete backing f).
Proof.
  intros Hm. assert (stable (λ p, p = backing) mid) as Hs by mid_stable_tac. eapply Hs; [exact Hm|]. by apply agree_delete.
Qed.

Lemma copy_back_spec :
  triple I moving (unlink true backing ;; copy_durable old backing) (λ _ f, moving f ∧ f !! backing = Some (File co)) stops.
Proof.
  apply (triple_seq _ _ moving).
  - apply triple_io; [by left|]. intros f f' r [Hm Hb] E.
    assert (moving (delete backing f)) as Hd by (split; [by apply mid_drop|by rewrite lookup_delete_eq]).
    assert (moving f) as HM by by split.
    destruct (f !! backing) as [[]|]; try congruence; injection E as <- <-; (split; [by left|]); first [exact Hd|exact HM].
  - eapply triple_weaken; [apply (copy_spec I moving old backing co)|done|done|by left].
    + by left.
    + intros f c' [Hm Hb]. split; [by apply mid_backing|by rewrite lookup_insert_eq].
    + by intros f [(_&_&_&?&_) _].
    + apart.
Qed.

Lemma sidecar_name n : n ∈ SIDECARS → n ∈ names.
Proof. unfold names. intros Hn. by right. Qed.

Lemma moved_away g n c :
  n ∈ SIDECARS → moving g ∧ g !! backing = Some (File co) → g !! (D ++ [n]) = Some (File c) → live_node n = Some (File c) →
  moving (<[displaced_at n := File c]> (delete (D ++ [n]) g)) ∧
  <[displaced_at n := File c]> (delete (D ++ [n]) g) !! backing = Some (File co).
Proof.
  intros Hn [[(Hst&(Hd&Ha)&Hc&Hold&Hdb&Hside) Hbd] Hbk] Hin Hx.
  set (f' := <[displaced_at n := File c]> (delete (D ++ [n]) g)).
  assert (∀ p, p ≠ displaced_at n → p ≠ D ++ [n] → f' !! p = g !! p) as Hsame.
  { intros p H1 H2. unfold f'. by rewrite lookup_insert_ne, lookup_delete_ne by done. }
  assert (n = "openchronicle.db-wal"%string ∨ n = "openchronicle.db-shm"%string) as Hcase by (unfold SIDECARS in Hn; set_solver).
  assert (f' !! backing = Some (File co)) as Hbk'.
  { rewrite Hsame; [done| |]; destruct Hcase as [->| ->]; unfold displaced_at; aparts. }
  split; [|done]. split; [|by rewrite Hbk']. split.
  { destruct Hst as (st&sums&Hst&?). exists st, sums. split; [|done]. unfold state_of. rewrite Hsame; [done| |];
      destruct Hcase as [->| ->]; unfold displaced_at; aparts. }
  split.
  { split; [rewrite Hsame; [done| |]; destruct Hcase as [->| ->]; unfold displaced_at; aparts|].
    intros m Hm. rewrite Hsame; [by apply Ha| |]; unfold names in Hm; rewrite !elem_of_cons, elem_of_nil in Hm;
      destruct Hm as [->|[->|[->|[]]]]; destruct Hcase as [->| ->]; unfold displaced_at; aparts. }
  split; [done|]. split; [rewrite Hsame; [done| |]; destruct Hcase as [->| ->]; unfold displaced_at; aparts|].
  split; [rewrite Hsame; [done| |]; destruct Hcase as [->| ->]; unfold displaced_at; aparts|].
  intros m Hm. destruct (decide (m = n)) as [->|Hne].
  - right. unfold f'. rewrite lookup_insert_eq. split; [|done]. rewrite lookup_insert_ne, lookup_delete_eq; [done|].
    destruct Hcase as [->| ->]; unfold displaced_at; aparts.
  - unfold sidecar_moved. rewrite !Hsame; [by apply Hside|..]; unfold SIDECARS in Hm; rewrite !elem_of_cons, elem_of_nil in Hm;
      destruct Hm as [->|[->|[]]]; destruct Hcase as [->| ->]; unfold displaced_at; try done; aparts.
Qed.

(** One sidecar is moved away, or was already. *)
Lemma displace_one n :
  n ∈ SIDECARS →
  let P f := moving f ∧ f !! backing = Some (File co) in
  triple I P
    (let* f := look (λ f, f) in
     if exists_ f (D ++ [n]) then
       refuse_if (exists_ f (displaced_at n)) "A sidecar reappeared after being displaced; keep the service stopped" ;;
       replace_file (D ++ [n]) (displaced_at n)
     else ret tt)
    (λ _ f, P f ∧ f !! (D ++ [n]) = None) stops.
Proof.
  intros Hn P. assert (∀ f, P f → I f) as HP by (intros f [? _]; by left).
  assert (backing ≠ D ++ [n] ∧ backing ≠ displaced_at n) as [Hb1 Hb2].
  { unfold SIDECARS in Hn. rewrite !elem_of_cons, elem_of_nil in Hn. destruct Hn as [->|[->|[]]]; (split; [apart|unfold displaced_at; apart]). }
  eapply (triple_bind _ _ _ _ (λ g f, g = f ∧ P f)); [by apply triple_look|]. intros g.
  apply (triple_pure _ _ (P g)); [by intros f [-> ?]|]. intros [[Hm Hbd] Hbk].
  destruct Hm as (Hst&Ha&Hc&Hold&Hdb&Hside). destruct (Hside n Hn) as [[Hin Hout]|[Hin Hout]].
  - destruct (live_node n) as [x|] eqn:Hx.
    2:{ assert (exists_ g (D ++ [n]) = false) as -> by (unfold exists_; by rewrite Hin).
        apply triple_ret. by intros f [-> ?]. }
    assert (∃ c, x = File c) as [c ->].
    { destruct Hst as (st&sums&_&_&_&_&_&_&Hs). destruct (Hs n) as [(c&Hc'&_)|[Hc' _]]; [by apply sidecar_name| |]; rewrite Hx in Hc'; [by simplify_eq; eauto|done]. }
    assert (exists_ g (D ++ [n]) = true) as -> by (unfold exists_; by rewrite Hin).
    assert (exists_ g (displaced_at n) = false) as -> by (unfold exists_; by rewrite Hout). cbn [refuse_if].
    apply (triple_seq _ _ (λ f, g = f ∧ P f)); [by apply triple_ret|].
    apply triple_io; [by intros f [_ [? _]]; left|]. intros f f' r [<- HPf]. rewrite Hin, Hout. intros [= <- <-].
    set (f' := <[displaced_at n := File c]> (delete (D ++ [n]) g)).
    assert (P f' ∧ f' !! (D ++ [n]) = None) as [HP' HN].
    { split; [|unfold f'; rewrite lookup_insert_ne by (unfold displaced_at; intros E; symmetry in E; apart_in E); apply lookup_delete_eq].
      by apply moved_away. }
    split; [by apply HP|by split].
  - assert (exists_ g (D ++ [n]) = false) as -> by (unfold exists_; by rewrite Hin).
    apply triple_ret. by intros f [-> ?].
Qed.

Lemma displace_all :
  triple I (λ f, moving f ∧ f !! backing = Some (File co)) (displace_once forward (sidecars db))
    (λ _ f, moving f ∧ f !! backing = Some (File co)) stops.
Proof.
  rewrite sidecars_db. cbn [displace_once]. rewrite name_wal, name_shm.
  set (P := λ f, moving f ∧ f !! backing = Some (File co)).
  assert (∀ n (k : fs → IO unit) (k' : IO unit), n ∈ SIDECARS →
    triple I P k' (λ _, P) stops →
    triple I P (let* f := look (λ f, f) in
      (if exists_ f (D ++ [n]) then
        refuse_if (exists_ f (displaced_at n)) "A sidecar reappeared after being displaced; keep the service stopped" ;;
        replace_file (D ++ [n]) (displaced_at n) else ret tt) ;; k') (λ _, P) stops) as Hstep.
  { intros n _ k' Hn Hk. pose proof (displace_one n Hn) as H1. cbv zeta in H1. intros w Hw.
    destruct (H1 w Hw) as (w1&r&E1&Hl1&(new1&Hs1&Hi1)&Hr). unfold bind, look, gets in E1 |- *. cbn in E1 |- *.
    rewrite E1. destruct r as [u|e]; [|exists w1, (Raise e); repeat (split; [done|]); split; [by exists new1|done]].
    destruct (Hk w1 (proj1 Hr)) as (w2&r2&E2&Hl2&(new2&Hs2&Hi2)&Hr2). exists w2, r2. split; [done|].
    split; [by rewrite Hl2|]. split; [|done]. exists (new2 ++ new1). split; [by rewrite Hs2, Hs1, app_assoc|by apply Forall_app]. }
  apply (Hstep "openchronicle.db-wal"%string (λ _, ret tt)); [by left|].
  apply (Hstep "openchronicle.db-shm"%string (λ _, ret tt)); [by right; left|]. by apply triple_ret.
Qed.

Lemma replace_back :
  triple I (λ f, moving f ∧ f !! backing = Some (File co)) (replace_file backing db)
    (λ _ f, moving f ∧ f !! db = Some (File co)) stops.
Proof.
  apply triple_io; [by intros f [? _]; left|]. intros f f' r [[Hm Hb] Hbk]. rewrite Hbk. intros E.
  assert (moving f) as HM by by split.
  set (g := <[db := File co]> (delete backing f)).
  assert (f !! db ≠ Some Dir) as Hdir.
  { destruct Hm as (_&_&(c&Hc)&_&[Hd|Hd]&_); rewrite Hd; [by rewrite Hc|done]. }
  assert (f' = g ∧ r = Ok tt) as [-> ->] by (destruct (f !! db) as [[]|]; try congruence; by injection E as <- <-).
  assert (∀ p, p ≠ db → p ≠ backing → g !! p = f !! p) as Hsame by (intros p ? ?; unfold g; by rewrite lookup_insert_ne, lookup_delete_ne).
  assert (moving g ∧ g !! db = Some (File co)) as Hg; [|split; [left; apply Hg|exact Hg]].
  assert (g !! db = Some (File co)) as Hdb by apply lookup_insert_eq. split; [|done].
  assert (g !! backing = None) as Hbn by (unfold g; rewrite lookup_insert_ne by apart; apply lookup_delete_eq).
  split; [|by rewrite Hbn]. destruct Hm as ((st&sums&Hst&?)&(Hd&Ha)&Hc&Hold&_&Hside).
  split; [exists st, sums; unfold state_of; by rewrite Hsame by aparts|].
  split; [split; [by rewrite Hsame by aparts|intros n Hn; rewrite Hsame by aparts; auto]|].
  split; [done|]. split; [by rewrite Hsame by aparts|]. split; [by right|].
  intros n Hn. unfold sidecar_moved. rewrite !Hsame; [by apply Hside|unfold displaced_at; aparts|unfold displaced_at; aparts| |];
    unfold SIDECARS in Hn; rewrite !elem_of_cons, elem_of_nil in Hn; destruct Hn as [->|[->|[]]]; aparts.
Qed.

Notation temp tok := (R ++ ["state-" +:+ tok +:+ ".tmp"]%string).
(** The state that ends the swap, saved once the old database is in place. *)
Lemma save_phase P tok st :
  (∀ f, P f → I f) → stable (λ p, p = temp tok) P → (∀ f, P f → archive_kept f ∧ f !! db = Some (File co)) →
  jget "phase" st = Some (JStr "rolled_back") →
  triple I P (save_state R tok st) (λ _ f, finished f ∧ holds_state R st f) stops.
Proof.
  intros HP HPt HPk Hp. assert (stable (λ p, p = temp tok) finished) as HNt by (apply finished_stable; aparts).
  eapply triple_weaken; [apply (save_spec I P finished R tok st)|done|done|intros _ f [?|?]; auto].
  - done.
  - by right.
  - intros f n Hf. eapply HPt; [exact Hf|]. by apply agree_insert.
  - intros f Hf. eapply HPt; [exact Hf|]. by apply agree_delete.
  - intros f Hf. eapply HNt; [exact Hf|]. by apply agree_delete.
  - intros f Hf. destruct (HPk f Hf) as [(Hd&Ha)Hdb]. set (f' := <[state_path R := _]> f).
    assert (agree (λ p, p = state_path R) f f') as Hag by by apply agree_insert.
    split; [exists (read_back st); split; [unfold f', state_of; by rewrite lookup_insert_eq|by apply jget_text]|].
    split; [|by rewrite (Hag db) by aparts]. split; [by rewrite (Hag forward) by aparts|].
    intros n Hn. rewrite (Hag (forward ++ [n])) by aparts. auto.
Qed.

Lemma save_finished tok st : jget "phase" st = Some (JStr "rolled_back") →
  triple I (λ f, moving f ∧ f !! db = Some (File co)) (save_state R tok st) (λ _ f, finished f ∧ holds_state R st f) stops.
Proof.
  apply save_phase; [by intros f [? _]; left| |intros f [[(_&?&_) _] ?]; by split].
  apply stable_and; [apply moving_stable; [aparts|]|apply at_stable; aparts]. mid_stable_tac.
Qed.
Lemma save_done tok st : jget "phase" st = Some (JStr "rolled_back") →
  triple I finished (save_state R tok st) (λ _ f, finished f ∧ holds_state R st f) stops.
Proof. apply save_phase; [by right|apply finished_stable; aparts|by intros f (_&?&?)]. Qed.

Definition rolled_back (res : dict) (f : fs) : Prop := finished f ∧
  ∃ st, jget "state" res = Some (JObj st) ∧ state_of R f = Some (read_back st) ∧ jget "write_probe" st = Some (JStr "ok").

Lemma require_done st t :
  jget "phase" st = Some (JStr "rolled_back") →
  triple I finished (require_writable sq h R (token h 2) st db op t)
    (λ st' f, finished f ∧ state_of R f = Some (read_back st') ∧ jget "write_probe" st' = Some (JStr "ok")) stops.
Proof.
  intros Hp. unfold require_writable. eapply (triple_bind _ _ _ _ (λ _, finished)).
  { apply (triple_quiet (λ p, p = wal ∨ p = shm)); [|apply finished_stable; aparts|by right|by right].
    apply writes_probe_writable; [done|]. intros q. rewrite sidecars_db, !elem_of_cons, elem_of_nil. naive_solver. }
  intros pr. set (st' := dict_set "write_probe" (JStr pr) st).
  apply (triple_seq _ _ (λ f, finished f ∧ holds_state R st' f)); [apply save_done; unfold st'; by rewrite jget_set|].
  case_bool_decide as Hok; [|destruct (existsb _ _); apply triple_raise; intros f [? _]; by right].
  apply triple_ret. intros f [Hf Hst]. split; [done|]. split; [by apply holds_state_of|]. subst pr. unfold st'. by rewrite jget_set.
Qed.

Lemma install_old_spec st candidate_sha :
  triple I moving (install_old sq h db R old op (sha_of h co) candidate_sha st) rolled_back stops.
Proof.
  unfold install_old. rewrite backing_db.
  set (P := λ f, moving f ∧ f !! backing = Some (File co)). assert (∀ f, P f → I f) as HP by (intros f [? _]; by left).
  assert (∀ (m : IO dict), triple I moving ((unlink true backing ;; copy_durable old backing) ;; m) rolled_back stops →
    triple I moving (unlink true backing ;; copy_durable old backing ;; m) rolled_back stops) as Hassoc.
  { intros m Hm w Hw. destruct (Hm w Hw) as (w'&r&E&H). exists w', r. split; [|done]. rewrite <- E. unfold bind.
    by destruct (unlink true backing w) as [w1 []]. }
  apply Hassoc. apply (triple_seq _ _ P); [apply copy_back_spec|].
  eapply (triple_bind _ _ _ _ (λ _, P)); [by apply triple_keep; [apply reads_spec; [apply writes_sha|]|]|]. intros sha.
  apply (triple_seq _ _ P); [by apply triple_keep; [apply reads_spec; [apply writes_refuse_if|]|]|].
  apply (triple_seq _ _ P); [apply displace_all|].
  do 2 (apply (triple_seq _ _ P); [by apply triple_keep; [apply touch_spec|]|]).
  set (Q := λ f, moving f ∧ f !! db = Some (File co)). assert (∀ f, Q f → I f) as HQ by (intros f [? _]; by left).
  apply (triple_seq _ _ Q); [apply replace_back|].
  apply (triple_seq _ _ Q); [by apply triple_keep; [apply touch_spec|]|].
  set (st' := dict_set "phase" (JStr "rolled_back") st).
  assert (jget "phase" st' = Some (JStr "rolled_back")) as Hp by (unfold st'; by rewrite jget_set).
  apply (triple_seq _ _ finished); [eapply triple_to; [by apply save_finished|by intros _ f [? _]]|].
  eapply (triple_bind _ _ _ _ (λ _, finished)).
  { apply (triple_quiet (λ p, p = incoming)); [apply writes_remove_incoming; by rewrite incoming_db|apply finished_stable; aparts|by right|by right]. }
  intros cleanup. eapply triple_bind; [by apply require_done|]. intros st2. apply triple_ret.
  intros f (Hf&Hst&Hok). split; [done|]. by exists st2.
Qed.

(** ** The archive of the replaced database *)

Context (st0 : dict) (Hst0 : state_of R f0 = Some st0) (Htarget : target_recorded st0).
Context (Hold : f0 !! old = Some (File co)) (Hback : f0 !! backing ≠ Some Dir).

Notation stops' := (λ (_ : exn) f, any_stage f).

Lemma waiting_same f p : waiting f → (∀ l, p ≠ forward ++ l) → (∀ tok, p ≠ temp tok) → f !! p = f0 !! p.
Proof. intros [Ha _] Hf Ht. apply Ha. intros [[l ->]|[tok ->]]; [by apply (Hf l)|by apply (Ht tok)]. Qed.
Lemma waiting_live f n : waiting f → n ∈ names → f !! (D ++ [n]) = live_node n.
Proof.
  intros Hw Hn. apply waiting_same; [done|..]; unfold names in Hn; rewrite !elem_of_cons, elem_of_nil in Hn;
    destruct Hn as [->|[->|[->|[]]]]; aparts.
Qed.
Lemma waiting_state f : waiting f → state_of R f = Some st0.
Proof. intros Hw. unfold state_of. rewrite (waiting_same f) by (done || aparts). exact Hst0. Qed.
Lemma waiting_old f : waiting f → f !! old = Some (File co).
Proof. intros Hw. rewrite (waiting_same f) by (done || aparts). exact Hold. Qed.

Lemma family_same f : waiting f → family f db = family f0 db ∧ not_regular f (family f db) = not_regular f0 (family f0 db).
Proof.
  intros Hw.
  assert (∀ p, p ∈ [db; wal; shm] → f !! p = f0 !! p) as Hp.
  { intros p. rewrite !elem_of_cons, elem_of_nil. intros [->|[->|[->|[]]]]; apply (waiting_live f); try done; unfold names; set_solver. }
  assert (family f db = family f0 db) as ->.
  { unfold family. rewrite sidecars_db. apply List.filter_ext_in. intros p Hin. apply list_elem_of_In in Hin.
    unfold exists_, is_symlink. by rewrite Hp. }
  split; [done|]. unfold not_regular. apply eq_true_iff_eq. rewrite !existsb_exists.
  split; intros (p&Hin&E); exists p; (split; [done|]); rewrite <- E;
    (assert (p ∈ [db; wal; shm]) as Hin' by (apply list_elem_of_In in Hin; apply family_elem in Hin; by apply Hin));
    unfold is_symlink, is_file; by rewrite Hp.
Qed.

(** The archive is being filled. *)
Definition filling (f : fs) : Prop := agree (λ p, forward_part p ∨ state_temp p) f0 f ∧ f !! forward = Some Dir.
Lemma filling_waiting f : filling f → waiting f.
Proof. intros [Ha Hd]. split; [done|]. intros E. by rewrite E in Hd. Qed.
Lemma filling_stable W : (∀ p, W p → (∃ x l, p = forward ++ x :: l) ∨ state_temp p) → stable W filling.
Proof.
  intros HW f f' [Ha Hd] Hag. split.
  - transitivity f; [done|]. eapply agree_weaken; [|exact Hag]. intros p Hp. destruct (HW p Hp) as [(x&l&->)|?]; [left; by eexists|by right].
  - rewrite (Hag forward); [done|]. intros Hf. destruct (HW _ Hf) as [(x&l&E)|[tok E]]; apart_in E.
Qed.

Definition forward_sums (sums : dict) : Prop := ∀ n, n ∈ names →
  (∀ c, live_node n = Some (File c) → jget n sums = Some (JStr (sha_of h c))) ∧ (live_node n = None → jget n sums = None) ∧
  (∀ k v, (k, v) ∈ sums → k ∈ names ∧ ∃ c, live_node k = Some (File c) ∧ v = JStr (sha_of h c)).

Definition live_regular : Prop := not_regular f0 (family f0 db) = false.

Lemma forward_sums_read_back sums : live_regular → forward_sums sums → sums_of (read_back sums).
Proof.
  intros Hlive Hs. split.
  - intros k v (u&Hu&->)%elem_of_read_back. destruct (Hs expect_db_name) as (_&_&H); [by left|].
    destruct (H k u Hu) as (?&c&?&->). eauto.
  - intros n Hn. destruct (Hs n Hn) as (H1&H2&_). destruct (family_regular D f0 Hlive n Hn) as [[_ (c&Hc)]|[_ Hnone]].
    + left. exists c. split; [done|]. apply jget_text. by apply H1.
    + right. split; [done|]. unfold read_back. rewrite jget_sorted. by rewrite H2.
Qed.

Lemma begin_fill : live_regular →
  triple any_stage (λ f, filling f ∧ ∀ n, f !! (forward ++ [n]) = None) (archive (archive_current h forward) (family f0 db) [])
    (λ sums f, (mirror D f0 forward f ∧ forward_sums sums) ∧ filling f) stops'.
Proof.
  intros Hlive. assert (∀ f, filling f → any_stage f) as HF by (intros f Hf; left; by apply filling_waiting).
  apply (triple_from _ _ (λ f, (sources_kept f0 (family f0 db) f ∧ ∀ n, f !! (forward ++ [n]) = None) ∧ filling f)).
  { intros f [Hf Hn]. split; [split; [|done]|done]. apply (same_sources D f0); [done|]. intros n ?. apply waiting_live; [by apply filling_waiting|done]. }
  apply (triple_step (λ p, ∃ s, s ∈ family f0 db ∧ p = forward ++ [path_name s])); [| |done| |by intros _].
  - apply writes_archive. intros s Hs. apply writes_archive_current. by exists s.
  - apply filling_stable. intros p (s&_&->). left. by eexists _, [].
  - eapply triple_to; [apply (archive_mirror h D f0 forward (archive_current h forward)); [intros n m _; apart| | |done]|done].
    + intros s. by apply writes_archive_current.
    + intros n c P. apply archive_current_spec.
Qed.

Lemma begin_saved f st sums :
  live_regular → filling f → mirror D f0 forward f → forward_sums sums → target_recorded st → jget "phase" st = Some (JStr "rolling_back") →
  jget "write_probe" st = Some (JStr PROBE_PENDING) → jget "forward_files" st = Some (JObj sums) →
  (∃ c, live_node expect_db_name = Some (File c)) →
  moving (<[state_path R := File (Doc (JObj (read_back st)))]> f).
Proof.
  intros Hlive Hf Hm Hs Ht Hp Hw Hfs Hdb. assert (waiting f) as Hwait by by apply filling_waiting.
  set (g := <[state_path R := _]> f).
  assert (∀ p, p ≠ state_path R → g !! p = f !! p) as Hsame by (intros p ?; unfold g; by rewrite lookup_insert_ne).
  assert (∀ n, n ∈ names → D ++ [n] ≠ state_path R) as Hne.
  { intros n Hn. unfold names in Hn. rewrite !elem_of_cons, elem_of_nil in Hn. destruct Hn as [->|[->|[->|[]]]]; apart. }
  split; [split|].
  - exists (read_back st), (read_back sums). unfold g, state_of. rewrite lookup_insert_eq. split; [done|].
    split; [by apply target_read_back|]. do 2 (split; [by apply jget_text|]). split; [by apply jget_obj|by apply forward_sums_read_back].
  - split; [split; [rewrite Hsame by aparts; apply Hf|intros n Hn; rewrite Hsame by aparts; rewrite (Hm n), bool_decide_eq_true_2 by done; done]|].
    split; [done|]. split; [rewrite Hsame by aparts; by apply waiting_old|].
    split; [left; rewrite Hsame by aparts; apply (waiting_live f); [done|by left]|].
    intros n Hn. left. split.
    + rewrite Hsame by (by apply Hne, sidecar_name). apply waiting_live; [done|by apply sidecar_name].
    + rewrite Hsame by (unfold displaced_at; aparts). unfold displaced_at. rewrite (Hm _), bool_decide_eq_false_2; [done|].
      unfold names. rewrite !elem_of_cons, elem_of_nil. intros [E|[E|[E|[]]]]; by simplify_eq.
  - rewrite Hsame by aparts. rewrite (waiting_same f) by (done || aparts). done.
Qed.

Lemma begin_spec f1 c :
  waiting f1 → f1 !! db = Some (File c) →
  triple any_stage (λ f, f = f1) (begin_rollback h db R old st0) (λ _ f, moving f) stops'.
Proof.
  intros Hw Hdb. set (P := λ f : fs, f = f1). assert (∀ f, P f → any_stage f) as HP by (intros f ->; by left).
  assert (∀ {A} (m : IO A), writes (λ _, False) m → triple any_stage P m (λ _, P) stops') as Hread.
  { intros A m Hm. apply triple_keep; [by apply reads_spec|auto]. }
  unfold begin_rollback. fold forward. apply (triple_seq _ _ P); [apply Hread, writes_refuse_when|].
  destruct (family_same f1 Hw) as [Hfam Hreg].
  eapply (triple_bind _ _ _ _ (λ L f, P f ∧ L = family f0 db)); [apply triple_look; by intros f ->|].
  intros L. apply triple_pre. intros ->.
  apply (triple_seq _ _ (λ f, P f ∧ live_regular)).
  { eapply triple_weaken; [apply (refuse_when_spec any_stage P)|done| |auto]. intros _ f [-> E]. split; [done|].
    unfold live_regular. by rewrite <- Hreg, Hfam. }
  apply triple_pre. intros Hlive.
  eapply triple_bind; [apply Hread, writes_sizes|]. intros live_size. eapply triple_bind; [apply Hread, writes_size|]. intros old_size.
  apply (triple_seq _ _ P); [apply Hread, writes_touch|]. apply (triple_seq _ _ P); [apply Hread, writes_refuse_if|].
  apply (triple_seq _ _ (λ f, filling f ∧ ∀ n, f !! (forward ++ [n]) = None)).
  { apply triple_io; [auto|]. intros f f' r -> E. destruct (f1 !! forward) as [x|] eqn:Hx; injection E as <- <-; [split; by apply HP|].
    destruct Hw as [Ha Hwf]. assert (filling (<[forward := Dir]> f1)) as Hfill.
    { split; [|apply lookup_insert_eq]. transitivity f1; [done|]. apply agree_insert. left. exists []. by rewrite app_nil_r. }
    split; [left; by apply filling_waiting|]. split; [done|]. intros n. rewrite lookup_insert_ne by apart. by apply Hwf. }
  eapply triple_bind; [by apply begin_fill|]. intros sums.
  apply (triple_from _ _ (λ f, (filling f ∧ mirror D f0 forward f) ∧ forward_sums sums)); [by intros f [[? ?] ?]|].
  apply triple_pre. intros Hs. set (st' := dict_set "write_probe" _ _).
  set (P1 := λ f, filling f ∧ mirror D f0 forward f).
  assert (stable (λ p, p = temp (token h 0)) P1) as HPt.
  { apply stable_and; [apply filling_stable; intros p ->; right; by eexists|apply mirror_stable; intros n; apart]. }
  apply (triple_seq _ _ moving); [|by apply triple_ret].
  assert (∃ c, live_node expect_db_name = Some (File c)) as Hc.
  { exists c. rewrite <- (waiting_live f1 expect_db_name); [exact Hdb|done|by left]. }
  assert (stable (λ p, p = temp (token h 0)) moving) as HNt by (apply moving_stable; [aparts|mid_stable_tac]).
  eapply triple_weaken; [apply (save_spec any_stage P1 moving R (token h 0) st')|done|by intros _ f [? _]|].
  - intros f [? _]. left. by apply filling_waiting.
  - intros f ?. by right; left.
  - intros f n Hf. eapply HPt; [exact Hf|]. by apply agree_insert.
  - intros f Hf. eapply HPt; [exact Hf|]. by apply agree_delete.
  - intros f Hf. eapply HNt; [exact Hf|]. by apply agree_delete.
  - intros f [Hf Hm]. apply (begin_saved f st' sums); try done; unfold st'; rewrite ?jget_set; try done.
    do 3 (apply target_set; [set_solver|]). exact Htarget.
  - intros _ f [[Hf _]|Hf]; [left; by apply filling_waiting|by right; left].
Qed.

(** ** The whole command *)

Context (Hphase : jget "phase" st0 = Some (JStr "prepared") ∨ jget "phase" st0 = Some (JStr "activated")).

Lemma phase_in_text l p st : jget "phase" st = Some (JStr p) → phase_in l st = bool_decide (p ∈ l).
Proof. intros H. unfold phase_in. by rewrite H. Qed.

(** What follows once the target has been checked. *)
Definition after_checks (st : dict) (candidate_sha : string) : IO dict :=
  let* state := (if phase_in ["rolling_back"%string] st then resume_rollback h db R (sha_of h co) st ;; ret st
    else begin_rollback h db R old st) in
  install_old sq h db R old op (sha_of h co) candidate_sha state.

Lemma checks_spec f1 st p Q :
  any_stage f1 → state_of R f1 = Some st → target_recorded st → jget "phase" st = Some (JStr p) →
  p ∈ ["prepared"; "activated"; "rolling_back"]%string → f1 !! old = Some (File co) →
  (∀ c candidate_sha, f1 !! db = Some (File c) → triple any_stage (λ f, f = f1) (after_checks st candidate_sha) Q stops') →
  triple any_stage (λ f, f = f1) (rollback sq h db op true) Q stops'.
Proof.
  intros Hany Hst (Hdb&Hop&(ci&Hci)&info&Hinfo&Hav&Hsha) Hp Hin Hco Hrest.
  set (P := λ f : fs, f = f1). assert (∀ f, P f → any_stage f) as HP by by intros f ->.
  assert (∀ {A} (m : IO A), writes (λ _, False) m → triple any_stage P m (λ _, P) stops') as Hread.
  { intros A m Hm. apply triple_keep; [by apply reads_spec|auto]. }
  unfold rollback. apply (triple_seq _ _ P); [apply Hread, writes_refuse_if|].
  apply (triple_seq _ _ (λ f, P f ∧ ∃ c, f1 !! db = Some (File c))).
  { eapply triple_weaken; [apply (regular_spec any_stage P)|done|by intros _ f [-> ?]|auto]. }
  apply triple_pre. intros [c Hc].
  eapply (triple_bind _ _ _ _ (λ R' f, P f ∧ R' = R)).
  { unfold recovery_dir. apply (triple_seq _ _ P); [apply Hread, writes_refuse_if|].
    apply (triple_seq _ _ P); [apply Hread, writes_refuse_when|]. apply triple_ret. intros f Hf. by rewrite recovery_db. }
  intros R'. apply triple_pre. intros ->.
  eapply (triple_bind _ _ _ _ (λ st' f, P f ∧ st' = st)).
  { apply load_spec; [auto|intros f ->; exact Hst|auto]. }
  intros st'. apply triple_pre. intros ->. apply (triple_seq _ _ P); [apply Hread, writes_refuse_if|].
  rewrite Hci. cbn [get_in]. eapply (triple_bind _ _ _ _ (λ _, P)); [by apply triple_lift|]. intros sha.
  rewrite !(phase_in_text _ p) by done.
  assert (p ≠ "archiving"%string) as Hna by (rewrite !elem_of_cons, elem_of_nil in Hin; destruct Hin as [->|[->|[->|[]]]]; done).
  rewrite (bool_decide_eq_false_2 (p ∈ ["archiving"%string])) by (by rewrite list_elem_of_singleton).
  rewrite (bool_decide_eq_true_2 (p ∈ ["prepared"; "activated"; "rolling_back"]%string)) by done. cbn [negb].
  apply (triple_seq _ _ P); [apply Hread, writes_refuse_if|]. rewrite Hinfo, Hav. cbn [truthy negb].
  apply (triple_seq _ _ P); [apply Hread, writes_refuse_when|]. rewrite Hsha. cbn [py_str].
  eapply (triple_bind _ _ _ _ (λ _, P)); [apply Hread, writes_sha|]. intros actual.
  apply (triple_seq _ _ P); [apply Hread, writes_refuse_if|].
  specialize (Hrest c (recorded_text sha) Hc). unfold after_checks in Hrest. by rewrite (phase_in_text _ p) in Hrest.
Qed.

Lemma rollback_waiting f1 : waiting f1 → triple any_stage (λ f, f = f1) (rollback sq h db op true) rolled_back stops'.
Proof.
  intros Hw. assert (∀ f, moving f ∨ finished f → any_stage f) as HI by (intros f [?|?]; [by right; left|by right; right]).
  assert (∃ p, jget "phase" st0 = Some (JStr p) ∧ p ∈ ["prepared"; "activated"]%string) as (p&Hp&Hin).
  { destruct Hphase; eexists; (split; [done|]); set_solver. }
  apply (checks_spec f1 st0 p); [by left|by apply waiting_state|done|done|set_solver|by apply waiting_old|].
  intros c sha Hc. unfold after_checks. rewrite (phase_in_text _ p) by done.
  rewrite bool_decide_eq_false_2 by (rewrite list_elem_of_singleton; intros ->; rewrite !elem_of_cons, elem_of_nil in Hin; naive_solver).
  eapply triple_bind; [by eapply begin_spec|]. intros st. eapply triple_weaken; [|done|done|intros e; exact HI].
  eapply triple_inv; [exact HI|]. apply install_old_spec.
Qed.

Lemma rollback_moving f1 : moving f1 → triple any_stage (λ f, f = f1) (rollback sq h db op true) rolled_back stops'.
Proof.
  intros Hm. assert (∀ f, moving f ∨ finished f → any_stage f) as HI by (intros f [?|?]; [by right; left|by right; right]).
  assert (any_stage f1) as Hany by by right; left.
  pose proof Hm as [((st&sums&Hst&Ht&Hp&_)&_&_&Ho&_) _].
  apply (checks_spec f1 st "rolling_back"); [done..|set_solver|done|].
  intros c sha Hc. unfold after_checks. rewrite (phase_in_text _ "rolling_back") by done. cbn [bool_decide].
  eapply (triple_bind _ _ _ _ (λ _, moving)).
  { rewrite bool_decide_eq_true_2 by (by left). apply (triple_seq _ _ (λ f, f = f1)).
    - apply triple_keep; [|by intros e f ->]. apply reads_spec; [apply writes_resume|by intros f ->].
    - apply triple_ret. by intros f ->. }
  intros st'. eapply triple_weaken; [|done|done|intros e; exact HI]. eapply triple_inv; [exact HI|]. apply install_old_spec.
Qed.
End rollback.

(** * A rollback that is run again finishes

    From any state in which the swap back is under way, a run in which no call
    fails and the database can be written ends with the old database in place
    ([total]); and every state that any number of interrupted runs can reach
    is one of the stages of [RollbackProps]. *)

(** ** Single steps *)

Section steps.
Context (h : helper).
Implicit Types (P : fs → Prop).

Lemma total_refuse_if P b msg : b = false → total P (refuse_if b msg) (λ _, P).
Proof. intros ->. by apply total_ret. Qed.
Lemma total_refuse_when P g msg : (∀ f, P f → g f = false) → total P (refuse_when g msg) (λ _, P).
Proof.
  intros H. eapply (total_bind _ _ _ (λ b f, P f ∧ b = false)); [apply total_look; auto|].
  intros b. apply total_pre. intros ->. by apply total_ret.
Qed.
Lemma total_regular P p : (∀ f, P f → ∃ c, f !! p = Some (File c)) → total P (regular p) (λ _, P).
Proof.
  intros H. apply total_refuse_when. intros f Hf. destruct (H f Hf) as (c&Hc). unfold is_symlink, is_file. by rewrite Hc.
Qed.
Lemma total_touch P : total P touch_nothing (λ _, P).
Proof. apply total_io. intros f Hf. by exists tt, f. Qed.
Lemma total_sha P p c : (∀ f, P f → f !! p = Some (File c)) → total P (file_sha h p) (λ a f, P f ∧ a = sha_of h c).
Proof.
  intros H. eapply (total_bind _ _ _ (λ a f, P f ∧ a = c)).
  - apply total_io. intros f Hf. exists c, f. by rewrite (H f Hf).
  - intros a. apply total_pre. intros ->. by apply total_ret.
Qed.

Lemma total_copy (P Q : fs → Prop) s t c :
  (∀ f, P f → f !! s = Some (File c) ∧ f !! t = None) → (∀ f, P f → Q (<[t := File c]> f)) → total P (copy_durable s t) (λ _, Q).
Proof.
  intros H HQ f Hf. destruct (H f Hf) as [Hs Ht]. exists tt, (<[t := File c]> f). split; [|auto].
  unfold copy_durable. eapply yields_bind.
  { unfold regular, refuse_when. eapply yields_bind; [apply yields_look|]. unfold is_symlink, is_file. rewrite Hs. apply yields_ret. }
  eapply yields_bind; [apply yields_io; by rewrite Hs|]. eapply yields_bind; [by apply yields_open|].
  eapply yields_bind; [apply yields_put|]. rewrite insert_insert_eq.
  eapply yields_bind; [apply yields_touch|]. apply yields_touch.
Qed.

Lemma yields_save (f : fs) R tok st :
  f !! (R ++ ["state-" +:+ tok +:+ ".tmp"]%string) = None → f !! state_path R ≠ Some Dir →
  yields f (save_state R tok st) tt (<[state_path R := File (Doc (JObj (read_back st)))]> f).
Proof.
  intros Ht Hs. set (temp := R ++ ["state-" +:+ tok +:+ ".tmp"]%string) in *. pose proof (temp_ne R tok) as Hne. fold temp in Hne.
  unfold save_state. fold temp. set (doc := Doc (JObj (read_back st))).
  set (f1 := <[state_path R := File doc]> (delete temp (<[temp := File doc]> (<[temp := File Partial]> f)))).
  assert (<[state_path R := File doc]> f = delete temp f1) as ->.
  { apply map_eq. intros p. unfold f1. destruct (decide (p = temp)) as [->|H1].
    - by rewrite lookup_delete_eq, lookup_insert_ne.
    - rewrite lookup_delete_ne by done. destruct (decide (p = state_path R)) as [->|H2]; [by rewrite !lookup_insert_eq|].
      rewrite !(lookup_insert_ne _ (state_path R)), lookup_delete_ne, !lookup_insert_ne; done. }
  eapply yields_bind; [|apply yields_touch]. eapply (yields_finally _ _ _ _ f1).
  - eapply yields_bind; [by apply yields_open|]. eapply yields_bind; [apply yields_put|]. eapply yields_bind; [apply yields_touch|].
    apply (yields_replace _ temp (state_path R) doc); [apply lookup_insert_eq|]. by rewrite !lookup_insert_ne.
  - apply yields_unlink_missing. unfold f1. rewrite lookup_insert_ne by done. by rewrite lookup_delete_eq.
Qed.
Lemma total_save (P Q : fs → Prop) R tok st :
  (∀ f, P f → f !! (R ++ ["state-" +:+ tok +:+ ".tmp"]%string) = None ∧ f !! state_path R ≠ Some Dir) →
  (∀ f, P f → Q (<[state_path R := File (Doc (JObj (read_back st)))]> f)) → total P (save_state R tok st) (λ _, Q).
Proof. intros H HQ f Hf. destruct (H f Hf). eexists _, _. split; [by apply yields_save|auto]. Qed.
End steps.

Section resume.
Context (sq : sqlite) (h : helper).
Context (Hlock : ∀ p f, agree (λ q, q ∈ sidecars p) f (write_lock sq p f).1).
Context (D : path) (op : string) (f0 : fs) (co : content).
Notation db := (db D). Notation R := (R D op). Notation old := (old D op). Notation forward := (forward D op).
Notation incoming := (incoming D op). Notation backing := (backing D op). Notation wal := (wal D). Notation shm := (shm D).
Notation temp tok := (R ++ ["state-" +:+ tok +:+ ".tmp"]%string).
Notation moving := (moving h D op f0 co). Notation finished := (finished D op f0 co). Notation live_node := (live_node D f0).
Notation displaced_at := (displaced_at D op).

(** What the system must grant the run. *)
Context (Hroot : linux h && (euid h =? 0) = false) (Hid : id_ok op = true).
Context (Hwritable : ∀ f p, writable h f p = true) (Hfree : ∀ f, (write_lock sq db f).2 = None).

(** The names of the run are unused, and the recovery root is a directory. *)
Definition fresh (f : fs) : Prop := (∀ i, f !! temp (token h i) = None) ∧ is_symlink f (D ++ [".recovery"%string]) = false.
Lemma fresh_stable W : (∀ i, ¬ W (temp (token h i))) → ¬ W (D ++ [".recovery"%string]) → stable W fresh.
Proof.
  intros Ht Hr f f' [H1 H2] Ha. split; [intros i; by rewrite (Ha _ (Ht i))|]. unfold is_symlink in *. by rewrite (Ha _ Hr).
Qed.

(** ** The checks of a resumed run *)

Lemma check_archive_total (sums : dict) f1 :
  (∀ k v, (k, v) ∈ sums → k ∈ names ∧ ∃ c, f1 !! (forward ++ [k]) = Some (File c) ∧ v = JStr (sha_of h c)) →
  total (λ f, f = f1) (check_archive h forward names sums) (λ _ f, f = f1).
Proof.
  induction sums as [|[k v] sums IH]; intros H; cbn [check_archive]; [by apply total_ret|].
  destruct (H k v) as (Hk&c&Hc&->); [left|].
  apply (total_seq _ (λ f, f = f1)); [apply total_refuse_if; by rewrite bool_decide_eq_true_2|].
  apply (total_seq _ (λ f, f = f1)); [apply total_regular; intros f ->; by exists c|].
  eapply total_bind; [apply (total_sha h _ _ c); by intros f ->|]. intros sha. apply total_pre. intros ->.
  apply (total_seq _ (λ f, f = f1)); [apply total_refuse_if; cbn; by rewrite bool_decide_eq_true_2|].
  apply IH. intros k' v' Hin. apply H. by right.
Qed.

Lemma check_sidecars_total (sums : dict) f1 ns :
  (∀ n, n ∈ ns → n ∈ names ∧ sidecar_moved D op f0 f1 n) → sums_of h D f0 sums →
  total (λ f, f = f1) (check_sidecars h forward (map (λ n, D ++ [n]) ns) sums) (λ _ f, f = f1).
Proof.
  intros Hns Hs. induction ns as [|n ns IH]; cbn [map check_sidecars]; [by apply total_ret|].
  destruct (Hns n) as [Hn Hm]; [left|]. rewrite path_name_app. fold (displaced_at n).
  assert (∃ c, (live_node n = Some (File c) ∧ digest_of n sums = Some (JStr (sha_of h c))) ∨ (live_node n = None ∧ digest_of n sums = None)) as (c&Hc).
  { destruct Hs as [_ Hs]. unfold digest_of. destruct (Hs n Hn) as [(c&Hc&->)|[Hc ->]]; [by exists c; left|by exists Partial; right]. }
  assert (∀ x, x = None ∨ x = Some (File c) → f1 !! (D ++ [n]) = x → is_symlink f1 (D ++ [n]) = false) as Hl1.
  { intros x [->| ->] E; unfold is_symlink; by rewrite E. }
  apply (total_seq _ (λ f, f = f1)).
  { apply total_refuse_when. intros f ->. unfold is_symlink.
    destruct Hc as [[Hc _]|[Hc _]]; destruct Hm as [[-> ->]|[-> ->]]; by rewrite Hc. }
  eapply (total_bind _ _ _ (λ g f, f = f1 ∧ g = f1)); [by apply total_look; intros f ->|]. intros g. apply total_pre. intros ->.
  apply (total_seq _ (λ f, f = f1)); [|apply IH; intros m Hin; apply Hns; by right].
  destruct Hc as [[Hc ->]|[Hc ->]].
  2:{ apply total_refuse_if. unfold exists_. destruct Hm as [[-> ->]|[-> ->]]; by rewrite Hc. }
  destruct Hm as [[H1 H2]|[H1 H2]]; rewrite Hc in *.
  - unfold exists_. rewrite H1, H2. eapply (total_bind _ _ _ (λ b f, f = f1 ∧ b = false)).
    + eapply total_bind; [apply (total_sha h _ _ c); by intros f ->|]. intros sha. apply total_ret. intros f [-> ->].
      split; [done|]. cbn. by rewrite bool_decide_eq_true_2.
    + intros b. apply total_pre. intros ->. by apply total_refuse_if.
  - unfold exists_, is_file. rewrite H1, H2. cbn [negb]. eapply (total_bind _ _ _ (λ b f, f = f1 ∧ b = false)).
    + eapply total_bind; [apply (total_sha h _ _ c); by intros f ->|]. intros sha. apply total_ret. intros f [-> ->].
      split; [done|]. cbn. by rewrite bool_decide_eq_true_2.
    + intros b. apply total_pre. intros ->. by apply total_refuse_if.
Qed.

Lemma resume_total f1 st sums :
  moving f1 → state_of R f1 = Some st → jget "forward_files" st = Some (JObj sums) → sums_of h D f0 sums →
  total (λ f, f = f1) (resume_rollback h db R (sha_of h co) st) (λ _ f, f = f1).
Proof.
  intros [(_&(Hd&Ha)&(cd&Hcd)&_&Hdb&Hside) _] Hst Hff Hs. unfold resume_rollback. fold forward.
  apply (total_seq _ (λ f, f = f1)).
  { apply total_refuse_when. intros f ->. unfold is_dir, is_symlink. by rewrite Hd. }
  rewrite Hff. assert (jget expect_db_name sums = Some (JStr (sha_of h cd))) as Hj.
  { destruct Hs as [_ Hs]. destruct (Hs expect_db_name) as [(c&Hc&->)|[Hc _]]; [by left| |by rewrite Hcd in Hc]. rewrite Hcd in Hc. by simplify_eq. }
  destruct sums as [|kv sums]; [done|]. rewrite name_db.
  apply (total_seq _ (λ f, f = f1)).
  { apply check_archive_total. intros k v Hin. destruct Hs as [Hs _]. destruct (Hs k v Hin) as (Hk&c&Hc&->).
    split; [done|]. exists c. by rewrite Ha. }
  assert (∃ c, f1 !! db = Some (File c) ∧ (c = cd ∨ c = co)) as (c&Hc&Hor) by (destruct Hdb as [Hdb|Hdb]; rewrite ?Hcd in Hdb; eauto).
  eapply total_bind; [apply (total_sha h _ _ c); by intros f ->|]. intros cur. apply total_pre. intros ->.
  apply (total_seq _ (λ f, f = f1)).
  { apply total_refuse_if. rewrite Hj. apply negb_false_iff, orb_true_iff. cbn.
    destruct Hor as [->| ->]; [left|right]; by apply bool_decide_eq_true_2. }
  rewrite sidecars_db. apply (check_sidecars_total _ f1 SIDECARS); [|done]. intros n Hn. split; [by apply sidecar_name|auto].
Qed.

(** ** The swap back *)

Notation P := (λ f, (moving f ∧ fresh f) ∧ f !! backing = Some (File co)).

Lemma displace_one_total n : n ∈ SIDECARS →
  total P (let* f := look (λ f, f) in
     if exists_ f (D ++ [n]) then
       refuse_if (exists_ f (displaced_at n)) "A sidecar reappeared after being displaced; keep the service stopped" ;;
       replace_file (D ++ [n]) (displaced_at n)
     else ret tt) (λ _, P).
Proof.
  intros Hn f [[Hm Hfr] Hb]. pose proof Hm as [((st&sums&_&_&_&_&_&[_ Hs])&_&_&_&_&Hside) _].
  destruct (Hs n (sidecar_name n Hn)) as [(c&Hc&_)|[Hc _]].
  - destruct (Hside n Hn) as [[H1 H2]|[H1 H2]]; rewrite Hc in *.
    + set (g := <[displaced_at n := File c]> (delete (D ++ [n]) f)). exists tt, g. split.
      { eapply yields_bind; [apply yields_look|]. unfold exists_. rewrite H1, H2. cbn [refuse_if].
        eapply yields_bind; [apply yields_ret|]. apply yields_replace; [done|by rewrite H2]. }
      destruct (moved_away sq h Hlock D op f0 co f n c Hn (conj Hm Hb) H1 Hc) as [Hm' Hb']. split; [split; [exact Hm'|]|exact Hb'].
      eapply (fresh_stable (λ p, p = D ++ [n] ∨ p = displaced_at n)); [| |exact Hfr|].
      1,2: unfold SIDECARS in Hn; rewrite !elem_of_cons, elem_of_nil in Hn; destruct Hn as [->|[->|[]]]; unfold RollbackProps.displaced_at; aparts.
      transitivity (delete (D ++ [n]) f : fs); [apply agree_delete; by left|apply agree_insert; by right].
    + exists tt, f. split; [|done]. eapply yields_bind; [apply yields_look|]. unfold exists_. rewrite H1. apply yields_ret.
  - exists tt, f. split; [|done]. eapply yields_bind; [apply yields_look|]. unfold exists_.
    destruct (Hside n Hn) as [[-> _]|[-> _]]; rewrite ?Hc; apply yields_ret.
Qed.

Lemma displace_total : total P (displace_once forward (sidecars db)) (λ _, P).
Proof.
  rewrite sidecars_db. cbn [displace_once]. rewrite name_wal, name_shm.
  intros f Hf. destruct (displace_one_total "openchronicle.db-wal"%string ltac:(by left) f Hf) as ([]&f1&Hy1&H1).
  destruct (displace_one_total "openchronicle.db-shm"%string ltac:(by right; left) f1 H1) as ([]&f2&Hy2&H2).
  exists tt, f2. split; [|done].
  assert (∀ (g : fs) n (k : IO unit) g1 g2, yields g (let* f := look (λ f, f) in
     if exists_ f (D ++ [n]) then
       refuse_if (exists_ f (displaced_at n)) "A sidecar reappeared after being displaced; keep the service stopped" ;;
       replace_file (D ++ [n]) (displaced_at n) else ret tt) tt g1 → yields g1 k tt g2 →
    yields g (let* f := look (λ f, f) in
     (if exists_ f (D ++ [n]) then
       refuse_if (exists_ f (displaced_at n)) "A sidecar reappeared after being displaced; keep the service stopped" ;;
       replace_file (D ++ [n]) (displaced_at n) else ret tt) ;; k) tt g2) as Hassoc.
  { intros g n k g1 g2 Ha Hk w Hw Hfl. destruct (Ha w Hw Hfl) as (w1&E1&Hw1&Hfl1). destruct (Hk w1 Hw1 Hfl1) as (w2&E2&Hw2&Hfl2).
    exists w2. unfold bind, look, gets in *. cbn in *. by rewrite E1. }
  apply (Hassoc f "openchronicle.db-wal"%string _ f1); [exact Hy1|].
  apply (Hassoc f1 "openchronicle.db-shm"%string _ f2); [exact Hy2|]. apply yields_ret.
Qed.

(** Once the old database is in place only the state is written. *)
Definition settled (f : fs) : Prop := fresh f ∧ f !! state_path R ≠ Some Dir.
Lemma settled_stable W : (∀ i, ¬ W (temp (token h i))) → ¬ W (D ++ [".recovery"%string]) → ¬ W (state_path R) → stable W settled.
Proof.
  intros H1 H2 H3. apply stable_and; [by apply fresh_stable|]. intros f f' Hf Ha. by rewrite (Ha _ H3).
Qed.
Lemma settled_save i st : total settled (save_state R (token h i) st) (λ _, settled).
Proof.
  apply total_save; [by intros f [[H1 _] H2]|]. intros f [Hf _]. split; [|by rewrite lookup_insert_eq].
  eapply (fresh_stable (λ p, p = state_path R)); [| |exact Hf|by apply agree_insert].
  - intros j E. by apply (temp_ne R (token h j)).
  - apart.
Qed.

Lemma settled_remove sha : total settled (remove_incoming h db op sha) (λ _, settled).
Proof.
  unfold remove_incoming. rewrite incoming_db.
  eapply (total_bind _ _ _ (λ g f, settled f ∧ g = f)); [by apply total_look|]. intros g.
  destruct (negb (exists_ g incoming) && negb (is_symlink g incoming)); [by apply total_ret; intros f [? _]|].
  destruct (is_symlink g incoming || negb (is_file g incoming)) eqn:E; [by apply total_ret; intros f [? _]|].
  assert (∃ c, g !! incoming = Some (File c)) as (c&Hc).
  { unfold is_symlink, is_file in E. destruct (g !! incoming) as [[c| |[[]|]]|]; try done. by exists c. }
  eapply (total_bind _ _ _ (λ a f, (settled f ∧ g = f) ∧ a = sha_of h c)); [apply total_sha; by intros f [_ <-]|].
  intros a. apply total_pre. intros ->. destruct (negb (bool_decide (sha_of h c = sha))); [by apply total_ret; intros f [? _]|].
  apply (total_seq _ settled); [|apply (total_seq _ settled); [apply total_touch|by apply total_ret]].
  intros f [Hf <-]. exists tt, (delete incoming g). split; [by eapply yields_unlink|].
  eapply (settled_stable (λ p, p = incoming)); [aparts..|exact Hf|by apply agree_delete].
Qed.

Lemma settled_require st i t : total settled (require_writable sq h R (token h i) st db op t) (λ _, settled).
Proof.
  unfold require_writable, probe_writable.
  eapply (total_bind _ _ _ (λ a f, settled f ∧ a = "ok"%string)).
  - eapply total_bind; [by apply (total_look _ _ (λ _, settled))|]. intros g.
    assert (List.find (λ p, negb (writable h g p)) (family g db) = None) as ->.
    { induction (family g db) as [|p l IH]; [done|]. cbn. by rewrite Hwritable. }
    eapply (total_bind _ _ _ (λ a f, settled f ∧ a = None)).
    + apply total_catch, total_io. intros f Hf. specialize (Hlock db f). specialize (Hfree f). destruct (write_lock sq db f) as [f' e]. cbn in *.
      exists None, f'. split; [by subst e|]. split; [|done]. rewrite sidecars_db in Hlock.
      eapply (settled_stable (λ q, q ∈ [wal; shm])); [| | |exact Hf|exact Hlock].
      1,2,3: intros; rewrite !elem_of_cons, elem_of_nil; aparts.
    + intros a. apply total_pre. intros ->. by apply total_ret.
  - intros a. apply total_pre. intros ->. apply (total_seq _ settled); [apply settled_save|].
    rewrite bool_decide_eq_true_2 by done. by apply total_ret.
Qed.

Lemma install_returns st sha : total (λ f, moving f ∧ fresh f) (install_old sq h db R old op (sha_of h co) sha st) (λ _, settled).
Proof.
  unfold install_old. rewrite backing_db. fold forward.
  apply (total_seq _ (λ f, (moving f ∧ fresh f) ∧ f !! backing = None)).
  { intros f [[Hm Hb] Hf]. exists tt, (delete backing f). split; [by apply yields_unlink_missing|].
    assert (delete backing f !! backing = None) as Hn by apply lookup_delete_eq.
    split; [|done]. split; [split; [by apply mid_drop|by rewrite Hn]|].
    eapply (fresh_stable (λ p, p = backing)); [aparts..|exact Hf|by apply agree_delete]. }
  apply (total_seq _ P).
  { apply (total_copy _ _ _ _ co).
    - intros f [[[(_&_&_&Ho&_) _] _] Hn]. by split.
    - intros f [[[Hm _] Hf] _]. assert (<[backing := File co]> f !! backing = Some (File co)) as Hn by apply lookup_insert_eq.
      split; [|done]. split; [split; [by apply mid_backing|by rewrite Hn]|].
      eapply (fresh_stable (λ p, p = backing)); [aparts..|exact Hf|by apply agree_insert]. }
  eapply total_bind; [apply (total_sha h P backing co); by intros f [_ ?]|]. intros a. apply total_pre. intros ->.
  apply (total_seq _ P); [apply total_refuse_if; by rewrite bool_decide_eq_true_2|].
  apply (total_seq _ P); [apply displace_total|]. do 2 (apply (total_seq _ P); [apply total_touch|]).
  apply (total_seq _ settled).
  { intros f [[Hm Hf] Hb]. exists tt, (<[db := File co]> (delete backing f)). split.
    - apply yields_replace; [done|]. destruct Hm as [(_&_&(c&Hc)&_&[Hd|Hd]&_) _]; rewrite Hd, ?Hc; done.
    - assert (agree (λ p, p = backing ∨ p = db) f (<[db := File co]> (delete backing f))) as Hag.
      { transitivity (delete backing f : fs); [apply agree_delete; by left|apply agree_insert; by right]. }
      eapply settled_stable; [| | | |exact Hag]; [aparts..|]. split; [exact Hf|].
      destruct Hm as [((s&?&Hs&_)&_) _]. unfold state_of in Hs. by destruct (f !! state_path R) as [[]|]. }
  apply (total_seq _ settled); [apply total_touch|]. apply (total_seq _ settled); [apply settled_save|].
  eapply total_bind; [apply settled_remove|]. intros cleanup. eapply total_bind; [apply settled_require|]. intros st'.
  by apply total_ret.
Qed.

(** ** The whole command *)

Lemma rollback_returns f1 : moving f1 → fresh f1 → total (λ f, f = f1) (rollback sq h db op true) (λ _ _, True).
Proof.
  intros Hm Hfr. pose proof Hm as [((st&sums&Hst&(Hdb&Hop&(ci&Hci)&info&Hinfo&Hav&Hsha)&Hp&_&Hff&Hs)&_&(cd&Hcd)&Ho&Hlive&_) _].
  assert (∃ c, f1 !! db = Some (File c)) as (c&Hc) by (destruct Hlive as [E|E]; rewrite ?Hcd in E; eauto).
  set (P1 := λ f : fs, f = f1). unfold rollback.
  apply (total_seq _ P1); [by apply total_refuse_if|]. apply (total_seq _ P1); [apply total_regular; intros f ->; eauto|].
  eapply (total_bind _ _ _ (λ R' f, P1 f ∧ R' = R)).
  { unfold recovery_dir. apply (total_seq _ P1); [apply total_refuse_if; by rewrite Hid|].
    apply (total_seq _ P1); [apply total_refuse_when; intros f ->; rewrite parent_db; by destruct Hfr|].
    apply total_ret. intros f Hf. by rewrite recovery_db. }
  intros R'. apply total_pre. intros ->. eapply (total_bind _ _ _ (λ st' f, P1 f ∧ st' = st)).
  { unfold load_state. eapply (total_bind _ _ _ (λ a f, P1 f ∧ a = Doc (JObj st))).
    - apply total_catch, total_io. intros f ->. unfold state_of in Hst. destruct (f1 !! state_path R) as [[x| |]|]; try done.
      exists x, f1. split; [done|]. split; [done|]. destruct x as [|[]|]; by simplify_eq.
    - intros a. apply total_pre. intros ->. by apply total_ret. }
  intros st'. apply total_pre. intros ->.
  apply (total_seq _ P1). { apply total_refuse_if. unfold has_text, is_text. rewrite Hdb, Hop. by rewrite !bool_decide_eq_true_2. }
  rewrite Hci. cbn [get_in]. eapply (total_bind _ _ _ (λ _, P1)); [by apply total_lift|]. intros sha.
  rewrite !(phase_in_text _ "rolling_back") by done. cbn [negb].
  rewrite (bool_decide_eq_false_2 ("rolling_back"%string ∈ ["archiving"%string])) by (by rewrite list_elem_of_singleton).
  apply (total_seq _ P1); [apply total_refuse_if; apply negb_false_iff, bool_decide_eq_true_2; set_solver|].
  rewrite Hinfo, Hav. cbn [truthy negb].
  apply (total_seq _ P1); [apply total_regular; intros f ->; by exists co|]. rewrite Hsha. cbn [py_str].
  eapply total_bind; [apply (total_sha h P1 _ co); by intros f ->|]. intros a. apply total_pre. intros ->.
  apply (total_seq _ P1); [apply total_refuse_if; by rewrite bool_decide_eq_true_2|].
  rewrite bool_decide_eq_true_2 by (by left).
  eapply (total_bind _ _ _ (λ _ f, moving f ∧ fresh f)).
  { apply (total_seq _ P1); [by eapply resume_total|]. apply total_ret. by intros f ->. }
  intros st1. eapply total_to; [apply install_returns|done].
Qed.
End resume.
