(* ===== verification/OfflineProps.v ===== *)
(** * What the offline restore helper guarantees

    The theorems about [OfflineRestore], over [ActivateProps], [RollbackProps]
    and a small world in which they are applied. *)

From stdpp Require Import relations.
From S2P Require Import Prelude PyStr PyText TextProps Sha256 Domain DateTime PyNum PyRepr FileSystem Backups BackupProps OfflineRestore OfflineFrames ActivateProps RollbackProps.
Local Open Scope Z_scope.
Local Open Scope prog_scope.

(** What SQLite may change beside a database it opens or locks. *)
Definition sqlite_tidy (sq : sqlite) : Prop :=
  (∀ p f, agree (λ q, q ∈ sidecars p) f (opened sq p f)) ∧ (∀ p f, agree (λ q, q ∈ sidecars p) f (write_lock sq p f).1).
(** A directory listing holds the names below the directory. *)
Definition lists_names (scan : fs → path → list string) : Prop := ∀ f d n, n ∈ scan f d ↔ f !! (d ++ [n]) ≠ None.
(** Nothing is below a path that does not exist. *)
Definition hangs_together (f : fs) (p : path) : Prop := f !! p = None → ∀ l, f !! (p ++ l) = None.

(** Every state of a run, the last one first. *)
Definition states {A} (r : world * result exn A) : list fs := files r.1 :: seen r.1.
Definition run_on {A} (m : IO A) (f : fs) (fl : list bool) : world * result exn A := m (mkWorld f [] fl false).

Lemma triple_states {A} I P (m : IO A) Q E f fl :
  triple I P m Q E → P f → (∀ a f, Q a f → I f) → (∀ e f, E e f → I f) →
  Forall I (states (run_on m f fl)) ∧ ∀ a, (run_on m f fl).2 = Ok a → Q a (files (run_on m f fl).1).
Proof.
  intros Hm Hf HQ HE. destruct (Hm (mkWorld f [] fl false) Hf) as (w'&r&E1&_&(new&Hs&Hi)&Hr).
  unfold states, run_on. rewrite E1. cbn in *. rewrite app_nil_r in Hs. split.
  - constructor; [destruct r; eauto|by rewrite Hs].
  - by intros a ->.
Qed.

Lemma reads_states {A} (m : IO A) f fl : writes (λ _, False) m → Forall (λ g, g = f) (states (run_on m f fl)).
Proof. intros Hm. eapply (triple_states (λ g, g = f)); [by apply (reads_spec (λ g, g = f) (λ g, g = f))|done..]. Qed.

(** ** Activation *)

Lemma result_safe sq h D op f0 candidate expected res f :
  activated_result sq h D op f0 candidate expected res f → safe sq h D op f0 candidate expected f.
Proof.
  intros (st&_&Hdb&Hsec&Hst&Hp&_). split; [by intros st' _ _; right|].
  split; [by intros st' p _ _ _; right|]. right. split; [done|by right].
Qed.

(** C12. Wherever an activation is interrupted, and whatever call fails, either
    the database and its sidecars are as they were, or every file of the old
    family is in the archive, byte for byte and with its digest recorded, the
    recovery state says so, and the database in place is the old one or the
    verified candidate; and a write probe is recorded as passed only of the
    candidate in place.  A run that returns ends with the candidate. *)
Theorem activate_crash_safe (sq : sqlite) (scan : fs → path → list string) (h : helper) (D candidate : path) (op : string)
    (expected : expectation) (f0 : fs) (fl : list bool) :
  sqlite_tidy sq → lists_names scan → hangs_together f0 (R D op) →
  let run := run_on (activate sq scan h (db D) candidate op expected true) f0 fl in
  Forall (safe sq h D op f0 candidate expected) (states run) ∧
  ∀ res, run.2 = Ok res → activated_result sq h D op f0 candidate expected res (files run.1).
Proof.
  intros [Ho Hl] Hs Ht. apply (triple_states _ (λ f, f = f0) _ _ (λ _, safe sq h D op f0 candidate expected)); [|done|apply result_safe|done].
  by apply activate_spec.
Qed.

(** ** Rollback *)

Definition with_token (h : helper) (tok : nat → string) : helper :=
  mkHelper (linux h) (euid h) (helper_variable h) (pid1 h) (writable h) (resolved h) (free_bytes h) (same_device h) (now h) tok
    (torn h) (os_text h).

(** A run of the command that ends, or dies, in [f']. *)
Definition rollback_attempt (sq : sqlite) (h : helper) (D : path) (op : string) (f f' : fs) : Prop :=
  ∃ tok fl, f' ∈ states (run_on (rollback sq (with_token h tok) (db D) op true) f fl).

(** What a run needs of the system: another user than root, a writable database
    that no one holds, and unused names. *)
Definition granted (sq : sqlite) (h : helper) (D : path) (op : string) (f : fs) : Prop :=
  linux h && (euid h =? 0) = false ∧ id_ok op = true ∧ (∀ f p, writable h f p = true) ∧
  (∀ f, (write_lock sq (db D) f).2 = None) ∧ fresh h D op f.

(** What activation left: a state in a phase from which a rollback starts, a
    recorded target and the target itself. *)
Definition undoable (h : helper) (D : path) (op : string) (f : fs) (st : dict) (co : content) : Prop :=
  state_of (R D op) f = Some st ∧ target_recorded h D op co st ∧
  (jget "phase" st = Some (JStr "prepared") ∨ jget "phase" st = Some (JStr "activated")) ∧
  f !! old D op = Some (File co) ∧ f !! backing D op ≠ Some Dir ∧ hangs_together f (forward D op).

Definition phase_of (D : path) (op : string) (f : fs) : option json := st ← state_of (R D op) f; jget "phase" st.

Section attempts.
Context (sq : sqlite) (h : helper) (D : path) (op : string) (f0 : fs) (st0 : dict) (co : content).
Context (Htidy : sqlite_tidy sq) (Hundo : undoable h D op f0 st0 co).
Notation stage := (any_stage h D op f0 co).

Lemma start_stage : stage f0.
Proof. destruct Hundo as (_&_&_&_&_&Hf). left. split; [done|]. exact Hf. Qed.

Lemma finished_refuses tok f1 : finished D op f0 co f1 →
  triple stage (λ f, f = f1) (rollback sq (with_token h tok) (db D) op true) (λ _ f, f = f1) (λ _ f, f = f1).
Proof.
  intros Hf. assert (stage f1) as Hs by by right; right. set (P := λ f : fs, f = f1).
  assert (∀ f, P f → stage f) as HP by by intros f ->.
  assert (∀ {A} (m : IO A), writes (λ _, False) m → triple stage P m (λ _, P) (λ _, P)) as Hread.
  { intros A m Hm. by apply triple_keep; [apply reads_spec|]. }
  unfold rollback. apply (triple_seq _ _ P); [apply Hread, writes_refuse_if|]. apply (triple_seq _ _ P); [apply Hread, writes_refuse_when|].
  eapply (triple_bind _ _ _ _ (λ R' f, P f ∧ R' = R D op)).
  { unfold recovery_dir. apply (triple_seq _ _ P); [apply Hread, writes_refuse_if|].
    apply (triple_seq _ _ P); [apply Hread, writes_refuse_when|]. apply triple_ret. intros f Hp. by rewrite recovery_db. }
  intros R'. apply triple_pre. intros ->. destruct Hf as ((st&Hst&Hp)&_).
  eapply (triple_bind _ _ _ _ (λ st' f, P f ∧ st' = st)); [apply load_spec; [done|by intros f ->|done]|].
  intros st'. apply triple_pre. intros ->. apply (triple_seq _ _ P); [apply Hread, writes_refuse_if|].
  eapply (triple_bind _ _ _ _ (λ _, P)); [apply Hread, writes_lift|]. intros sha.
  rewrite !(phase_in_text _ "rolled_back") by done.
  rewrite !bool_decide_eq_false_2 by (rewrite ?list_elem_of_singleton, ?elem_of_cons, ?elem_of_nil; naive_solver).
  apply (triple_seq _ _ (λ _, False)); [by apply triple_raise|by intros w []].
Qed.

Lemma attempt_stage f f' : stage f → rollback_attempt sq h D op f f' → stage f'.
Proof.
  intros Hf (tok&fl&Hin). destruct Hundo as (Hst&Ht&Hph&Ho&Hb&Hh). destruct Htidy as [_ Hlock].
  assert (Forall stage (states (run_on (rollback sq (with_token h tok) (db D) op true) f fl))) as Hall.
  { destruct Hf as [Hw|[Hm|Hd]].
    - eapply (triple_states stage (λ g, g = f) _ (λ _, stage) (λ _, stage)); [|done..].
      eapply triple_to; [eapply (rollback_waiting sq (with_token h tok)); done|]. intros res g [? _]. by right; right.
    - eapply (triple_states stage (λ g, g = f) _ (λ _, stage) (λ _, stage)); [|done..].
      eapply triple_to; [eapply (rollback_moving sq (with_token h tok)); done|]. intros res g [? _]. by right; right.
    - eapply (triple_states stage (λ g, g = f) _ (λ _ g, g = f) (λ _ g, g = f)); [by apply finished_refuses|done| |];
        (intros x g ->; by right; right). }
  by eapply Forall_forall.
Qed.
End attempts.

(** C13. However often a rollback is interrupted and run again, every state on
    the way is one of three: nothing has moved; or the replaced database is
    archived with its digests and the database in place is that one or the old
    one; or the old one is in place.  Once the phase [rolling_back] is recorded,
    a run in which no call fails returns with the old database installed and
    proved writable. *)
Theorem rollback_resumes (sq : sqlite) (h : helper) (D : path) (op : string) (f0 f : fs) (st0 : dict) (co : content) :
  sqlite_tidy sq → undoable h D op f0 st0 co → rtc (rollback_attempt sq h D op) f0 f →
  any_stage h D op f0 co f ∧
  ∀ tok, phase_of D op f = Some (JStr "rolling_back") → granted sq (with_token h tok) D op f →
    ∃ res, (run_on (rollback sq (with_token h tok) (db D) op true) f []).2 = Ok res ∧
      rolled_back D op f0 co res (files (run_on (rollback sq (with_token h tok) (db D) op true) f []).1).
Proof.
  intros Htidy Hundo Hr. assert (any_stage h D op f0 co f) as Hs.
  { assert (∀ x, rtc (rollback_attempt sq h D op) x f → any_stage h D op f0 co x → any_stage h D op f0 co f) as Hstep.
    { clear Hr. intros x. induction 1 as [|x y z Hxy _ IH]; [done|]. intros Hx. apply IH. by eapply attempt_stage. }
    apply (Hstep f0); [done|]. by eapply start_stage. }
  split; [done|]. intros tok Hp (Hroot&Hid&Hw&Hl&Hfr). pose proof Hundo as (Hst&Ht0&Hph&Ho&Hb&Hh). destruct Htidy as [_ Hlock].
  assert (moving h D op f0 co f) as Hm.
  { destruct Hs as [Hwait|[?|((st&Hst'&Hp')&_)]]; [|done|]; unfold phase_of in Hp.
    - erewrite waiting_state in Hp by done. simpl in Hp. destruct Hph; congruence.
    - rewrite Hst' in Hp. simpl in Hp. congruence. }
  assert (total (λ g, g = f) (rollback sq (with_token h tok) (db D) op true) (λ res g, rolled_back D op f0 co res g)) as Ht.
  { eapply total_keep; [apply (rollback_returns sq (with_token h tok) Hlock D op f0 co); done|].
    by eapply (rollback_moving sq (with_token h tok)). }
  destruct (total_run _ _ _ (mkWorld f [] [] false) Ht) as (w'&res&E&Hres); [done..|].
  exists res. unfold run_on. by rewrite E.
Qed.

(** ** Activation, then rollback *)

(** An interrupted activation can be undone: in every state in which it named a
    phase a rollback starts from, the target of that rollback is in place if
    the old family was a readable database, and it is what SQLite makes of that
    family. *)
Theorem activation_can_be_undone (sq : sqlite) (scan : fs → path → list string) (h : helper) (D candidate : path) (op : string)
    (expected : expectation) (f0 f : fs) (fl : list bool) (st info : dict) (p : string) :
  sqlite_tidy sq → lists_names scan → hangs_together f0 (R D op) → f0 !! R D op = None →
  f ∈ states (run_on (activate sq scan h (db D) candidate op expected true) f0 fl) →
  state_of (R D op) f = Some st → jget "phase" st = Some (JStr p) → p ∈ ["prepared"; "activated"]%string →
  jget "old_state" st = Some (JObj info) → jget "rollback_available" info = Some (JBool true) →
  f !! backing D op ≠ Some Dir → hangs_together f (forward D op) →
  ∃ s, consolidated sq h D f0 s ∧ undoable h D op f st (Bytes s).
Proof.
  intros Htidy Hscan Htree Hnew Hin Hst Hp Hpin Hold Hav Hback Hh.
  assert (safe sq h D op f0 candidate expected f) as (_&Hn&_).
  { destruct Htidy as [Ho Hl]. eapply Forall_forall in Hin; [exact Hin|].
    eapply (triple_states _ (λ f, f = f0)); [by apply activate_spec|done|apply result_safe|done]. }
  assert (state_of (R D op) f0 = None) as Hnone.
  { unfold state_of, state_path. by rewrite (Htree Hnew). }
  destruct (Hn st p Hst Hp Hpin) as [Hbad|(st'&phase&info'&Hph&Hst'&(Hp'&Hdb&Hop&(ci&Hci&_)&_)&_&Hold'&(b&Hb&Hk))]; [congruence|].
  rewrite Hst in Hst'. injection Hst' as <-. rewrite Hold in Hold'. injection Hold' as <-. rewrite Hav in Hb. injection Hb as <-.
  destruct (Hk eq_refl) as (s&Hs&Hsha&Ho). exists s. split; [done|]. split; [done|]. split.
  - do 2 (split; [done|]). split; [by exists ci|]. by exists info.
  - split; [|done]. rewrite !elem_of_cons, elem_of_nil in Hpin. destruct Hpin as [->|[->|[]]]; auto.
Qed.

(** ** Dry runs *)

Section dry.
Context (sq : sqlite) (scan : fs → path → list string) (h : helper).
Notation reads m := (writes (λ _, False) m).

Ltac dry_step := first [apply writes_refuse_if|apply writes_refuse_when|apply writes_reading|apply writes_read|apply writes_sha
  |apply writes_size|apply writes_inspect|apply writes_load|apply writes_recovery_dir|apply writes_preflight|apply writes_sizes].
Lemma dry_activate db candidate op e : reads (activate sq scan h db candidate op e false).
Proof. unfold activate, refuse_root. cbn [negb]. writes_tac dry_step. Qed.
Lemma dry_rollback db op : reads (rollback sq h db op false).
Proof. unfold rollback, refuse_root, belongs, refuse, regular. cbn [negb]. writes_tac dry_step. Qed.
Lemma dry_stage db source sha : reads (stage sq scan h db source sha false).
Proof. unfold stage. cbn [negb]. writes_tac dry_step. Qed.
Lemma dry_retire db op : reads (retire_stage sq h db op false).
Proof. unfold retire_stage, belongs, refuse. cbn [negb]. writes_tac dry_step. Qed.
End dry.

(** Without [--apply] no command changes a file, in any state it passes and
    whatever fails. *)
Theorem dry_runs_change_nothing (sq : sqlite) (scan : fs → path → list string) (h : helper) (db candidate source : path) (op sha : string)
    (e : expectation) (f : fs) (fl : list bool) :
  Forall (λ g, g = f) (states (run_on (activate sq scan h db candidate op e false) f fl)) ∧
  Forall (λ g, g = f) (states (run_on (rollback sq h db op false) f fl)) ∧
  Forall (λ g, g = f) (states (run_on (stage sq scan h db source sha false) f fl)) ∧
  Forall (λ g, g = f) (states (run_on (retire_stage sq h db op false) f fl)).
Proof.
  split; [apply reads_states, dry_activate|]. split; [apply reads_states, dry_rollback|].
  split; [apply reads_states, dry_stage|apply reads_states, dry_retire].
Qed.

(** ** Staging *)

Section stage.
Context (sq : sqlite) (scan : fs → path → list string) (h : helper) (D source : path) (sha : string) (f0 : fs).
Context (Hscan : lists_names scan) (Htree : hangs_together f0 (stage_of (db D))).
Notation S := (D ++ [".restore-stage"%string]).
Definition staged_temp : path := S ++ [(("candidate-" +:+ token h 0) +:+ ".tmp")%string].
Definition staged_file : path := S ++ [(("candidate-" +:+ token h 0) +:+ ".db")%string].

(** Only the stage changes, and what appears in it is the source. *)
Definition stage_clean (f : fs) : Prop := agree (λ p, p = S ∨ p = staged_temp) f0 f.
Definition stage_full (f : fs) : Prop := agree (λ p, p = S ∨ p = staged_temp ∨ p = staged_file) f0 f ∧
  f !! staged_file = f0 !! source ∧ ∃ c, f0 !! source = Some (File c) ∧ sha_of h c = sha.
Definition stage_sound (f : fs) : Prop := stage_clean f ∨ stage_full f.

Lemma staged_ne : staged_temp ≠ staged_file.
Proof. intros E%app_inv_head. injection E as E. by apply str_app_nil_inj in E. Qed.
Lemma stage_ne n : S ++ [n] ≠ S.
Proof. intros E. apply (f_equal length) in E. rewrite !length_app in E. simpl in E. lia. Qed.

Lemma stage_clean_stable : stable (λ p, p = S ∨ p = staged_temp) stage_clean.
Proof. intros f f' Hf Ha. unfold stage_clean in *. by transitivity f. Qed.
Lemma stage_full_stable : stable (λ p, p = S ∨ p = staged_temp) stage_full.
Proof.
  intros f f' (Hf&Hd&Hc) Ha. split; [|split; [|done]].
  - transitivity f; [done|]. eapply agree_weaken; [|exact Ha]. naive_solver.
  - rewrite (Ha staged_file); [done|]. intros [E|E]; [by apply stage_ne in E|by apply staged_ne].
Qed.

Context (Htemp : f0 !! staged_temp = None).
Notation I := stage_sound.
Notation stops := (λ (_ : exn) f, stage_sound f).

Lemma unstaged : exists_ f0 S && existsb (ends_with ".db") (scan f0 S) = false → is_symlink f0 S = false → f0 !! staged_file = None.
Proof.
  intros E Hl. destruct (f0 !! S) as [x|] eqn:HS.
  - apply andb_false_iff in E as [E|E]; [unfold exists_, is_symlink in *; rewrite HS in *; by destruct x as [| |[]]|].
    destruct (f0 !! staged_file) eqn:Hf; [|done]. apply not_true_iff_false in E. destruct E. apply existsb_exists.
    exists (("candidate-" +:+ token h 0) +:+ ".db")%string. split.
    + apply list_elem_of_In, Hscan. fold staged_file. by rewrite Hf.
    + apply ends_with_spec. by exists ("candidate-" +:+ token h 0)%string.
  - unfold staged_file. assert (stage_of (db D) = S) as HSt by (unfold stage_of; by rewrite parent_db).
    rewrite HSt in Htree. by apply Htree.
Qed.

Lemma copy_stage c :
  f0 !! source = Some (File c) → sha_of h c = sha →
  triple I (λ f, stage_clean f ∧ f !! source = Some (File c))
    (try_finally
      (copy_durable source staged_temp ;;
       let* got := file_sha h staged_temp in
       refuse_if (negb (bool_decide (got = sha))) "Staged copy differs from the verified snapshot" ;;
       replace_file staged_temp staged_file ;;
       fsync_dir S)
      (unlink true staged_temp)) (λ _, stage_full) stops.
Proof.
  intros Hc Hsha. set (P := λ f, stage_clean f ∧ f !! source = Some (File c)).
  assert (∀ f, P f → I f) as HP by (intros f [? _]; by left).
  assert (source ≠ staged_temp) as Hne by (intros E; by rewrite <- E, Hc in Htemp).
  assert (∀ G : fs → Prop, stable (λ p, p = S ∨ p = staged_temp) G → (∀ f, G f → I f) → keeps I G (unlink true staged_temp)) as Hkeep.
  { intros G HG HI. eapply triple_inv; [exact HI|]. eapply (writes_keeps (λ p, p = S ∨ p = staged_temp)); [apply writes_unlink; by right|exact HG]. }
  eapply (triple_finally _ _ _ _ _ (λ _, stage_full) _ stops).
  - apply (triple_seq _ _ (λ f, P f ∧ f !! staged_temp = Some (File c))).
    { eapply triple_weaken; [apply (copy_spec I P source staged_temp c)|done|done|auto]; [done| |by intros f [_ ?]|done].
      intros f c' [Hf Hs]. split; [|by rewrite lookup_insert_ne].
      eapply stage_clean_stable; [exact Hf|]. apply agree_insert. by right. }
    set (G := λ f, P f ∧ f !! staged_temp = Some (File c)). assert (∀ f, G f → I f) as HG by (intros f [? _]; auto).
    eapply (triple_bind _ _ _ _ (λ _, G)); [apply triple_keep; [by apply reads_spec; [apply writes_sha|]|auto]|]. intros got.
    apply (triple_seq _ _ G); [apply triple_keep; [by apply reads_spec; [apply writes_refuse_if|]|auto]|].
    apply (triple_seq _ _ stage_full); [|apply triple_keep; [by apply touch_spec; right|by right]].
    apply triple_io; [auto|]. intros f f' r [[Hf Hs] Ht]. rewrite Ht. intros E.
    set (g := <[staged_file := File c]> (delete staged_temp f)).
    assert (stage_full g) as Hg.
    { split; [|split; [|by exists c]].
      - transitivity f; [eapply agree_weaken; [|exact Hf]; naive_solver|].
        transitivity (delete staged_temp f : fs); [apply agree_delete|apply agree_insert]; auto.
      - unfold g. by rewrite lookup_insert_eq, Hc. }
    destruct (f !! staged_file) as [[]|]; injection E as <- <-; (split; [first [by right|by left]|first [done|by left]]).
  - intros _. apply triple_keep; [|by right]. apply Hkeep; [apply stage_full_stable|by right].
  - intros e. apply Hkeep; [|done].
    intros f f' [Hf|Hf] Ha; [left; by eapply stage_clean_stable|right; by eapply stage_full_stable].
Qed.

Lemma stage_spec :
  triple I (λ f, f = f0) (stage sq scan h (db D) source sha true)
    (λ res f, stage_full f ∧ jget "stage_path" res = Some (JStr (path_str staged_file))) stops.
Proof.
  set (P := λ f : fs, f = f0). assert (stage_clean f0) as Hclean by done.
  assert (∀ f, P f → I f) as HP by (intros f ->; by left).
  assert (∀ {A} (m : IO A), writes (λ _, False) m → triple I P m (λ _, P) stops) as Hread.
  { intros A m Hm. apply triple_keep; [by apply reads_spec|auto]. }
  unfold stage. assert (stage_of (db D) = S) as -> by (unfold stage_of; by rewrite parent_db).
  fold staged_temp staged_file.
  do 2 (apply (triple_seq _ _ P); [apply Hread, writes_refuse_if|]).
  eapply (triple_bind _ _ _ _ (λ _, P)); [apply Hread, writes_look|]. intros g.
  do 2 (apply (triple_seq _ _ P); [apply Hread, writes_refuse_if|]).
  eapply triple_bind; [eapply triple_weaken; [by apply (inspect_file_spec h sq I P)|done|intros info f Hf; exact Hf|by intros _ f ->; left]|].
  intros info. apply (triple_from _ _ (λ f, ∃ c, P f ∧ f0 !! source = Some (File c) ∧ jget "sha256" info = Some (JStr (sha_of h c)))).
  { intros f [-> (c&?&?)]. by exists c. }
  apply triple_ex. intros c. apply triple_pre. intros [Hc Hinfo].
  apply (triple_seq _ _ (λ f, P f ∧ sha_of h c = sha)).
  { eapply triple_weaken; [apply (refuse_if_spec I P)|done| |auto]. intros _ f [Hf E]. split; [done|].
    rewrite Hinfo in E. cbn in E. by apply negb_false_iff, bool_decide_eq_true in E. }
  apply triple_pre. intros Hsha.
  apply (triple_seq _ _ (λ f, P f ∧ is_symlink f0 S = false)).
  { eapply triple_weaken; [apply (refuse_when_spec I P)|done|by intros _ f [-> ?]|auto]. }
  apply triple_pre. intros Hlink.
  apply (triple_seq _ _ (λ f, P f ∧ f0 !! staged_file = None)).
  { eapply triple_weaken; [apply (refuse_when_spec I P)|done| |auto]. intros _ f [-> E]. split; [done|]. by apply unstaged. }
  apply triple_pre. intros Hnone.
  apply (triple_seq _ _ P); [apply Hread, writes_touch|]. eapply triple_bind; [apply Hread, writes_size|]. intros size.
  apply (triple_seq _ _ P); [apply Hread, writes_refuse_if|]. cbn [negb].
  apply (triple_seq _ _ (λ f, stage_clean f ∧ f !! source = Some (File c))).
  { apply triple_io; [auto|]. intros f f' r -> E. unfold mkdir_one in E.
    assert (f0 !! S = None → stage_clean (<[S := Dir]> f0) ∧ <[S := Dir]> f0 !! source = Some (File c)) as Hmk.
    { intros HS. split; [apply agree_insert; by left|]. rewrite lookup_insert_ne; [done|]. intros E'. by rewrite E', Hc in HS. }
    destruct (f0 !! S) as [[| |[[]|]]|]; injection E as <- <-; try (by split; [left|]); try (split; [by left|by left]).
    destruct Hmk as [? ?]; [done|]. split; [by left|by split]. }
  apply (triple_seq _ _ stage_full); [by apply copy_stage|].
  eapply (triple_bind _ _ _ _ (λ _, stage_full)); [apply triple_keep; [by apply reads_spec; [apply writes_inspect|right]|by right]|].
  intros staged. destruct (negb (same_info staged info)); [|by apply triple_ret].
  apply (triple_seq _ _ stage_clean); [|by apply triple_raise; left].
  apply triple_io; [by right|]. intros f f' r (Hf&Hd2&Hd3) E. assert (f !! staged_file = Some (File c)) as Hx by (by rewrite Hd2).
  assert (stage_clean (delete staged_file f)) as Hd.
  { intros p Hp. destruct (decide (p = staged_file)) as [->|Hne]; [by rewrite lookup_delete_eq|].
    rewrite lookup_delete_ne by done. apply Hf. naive_solver. }
  rewrite Hx in E. injection E as <- <-. split; [by left|done].
Qed.
End stage.

(** Staging changes nothing but the stage, in any state it passes and whatever
    fails, and a staged candidate is the source byte for byte, with the digest
    that was recorded independently. *)
Theorem stage_installs_verified (sq : sqlite) (scan : fs → path → list string) (h : helper) (D source : path) (sha : string) (f0 : fs)
    (fl : list bool) :
  lists_names scan → hangs_together f0 (stage_of (db D)) → f0 !! staged_temp h D = None →
  let run := run_on (stage sq scan h (db D) source sha true) f0 fl in
  Forall (stage_sound h D source sha f0) (states run) ∧
  ∀ res, run.2 = Ok res → stage_full h D source sha f0 (files run.1) ∧ jget "stage_path" res = Some (JStr (path_str (staged_file h D))).
Proof.
  intros Hs Ht Hn. apply (triple_states (stage_sound h D source sha f0) (λ f, f = f0) _
    (λ res f, stage_full h D source sha f0 f ∧ jget "stage_path" res = Some (JStr (path_str (staged_file h D))))
    (λ _, stage_sound h D source sha f0)); [by apply stage_spec|done| |done].
  intros res f [? _]. by right.
Qed.
