(* ===== verification/OfflineWitness.v ===== *)
(** * The offline restore helper in a small world

    A database with a log, a staged candidate, and an SQLite that appends a log
    to its database: the theorems of [OfflineProps] are applied to an
    activation, to rollbacks of it, one of them interrupted, and to a staging. *)

From stdpp Require Import relations.
From S2P Require Import Prelude PyStr PyText TextProps Sha256 Domain DateTime PyNum PyRepr FileSystem Backups BackupProps OfflineRestore OfflineFrames ActivateProps RollbackProps OfflineProps.
Local Open Scope Z_scope.
Local Open Scope prog_scope.

Definition D0 : path := ["/"; "data"]%string.
Definition op0 : string := "op-1".
Definition candidate0 : path := D0 ++ [".restore-stage"; "candidate-0123456789abcdef01234567.db"]%string.
Definition backup0 : path := ["/"; "backups"; "kept.db"]%string.
Definition files0 : fs := list_to_map [(["/"]%string, Dir); (D0, Dir); (db D0, File (Bytes "old")); (wal D0, File (Bytes "log"));
  (parent candidate0, Dir); (candidate0, File (Bytes "new")); (backup0, File (Bytes "new"))].
(** The same without a stage. *)
Definition files1 : fs := delete candidate0 (delete (parent candidate0) files0).

Definition tiny : sqlite := mkSqlite (λ _, inr (Some "ok"%string)) (λ _, inr false)
  (λ s, if bool_decide (s = "new"%string) then inr (4, ["p"%string], 2, 1) else inr (4, ["q"%string], 3, 1))
  (λ s w _, Copied (s +:+ "+" +:+ default "" w)%string) (λ _ f, f) (λ _ f, (f, None)).
Definition scan0 (f : fs) (d : path) : list string :=
  omap (λ q, if bool_decide (q = parent q ++ [path_name q] ∧ parent q = d) then Some (path_name q) else None) (map fst (map_to_list f)).
Definition h0 : helper := mkHelper true 1000 (Some "1"%string) "python offline_restore.py" (λ _ _, true) (λ _ p, p) (10 ^ 9) true 0
  (λ n, of_chars [ascii_of_nat (97 + n)]) "torn" (λ _, "").
Definition expected0 : expectation := mkExpectation (sha256_hex "new") 4 (hash_content "p").

Lemma tiny_tidy : sqlite_tidy tiny.
Proof. split; intros p f; done. Qed.
Lemma scan0_lists : lists_names scan0.
Proof.
  intros f d n. unfold scan0. rewrite list_elem_of_omap. split.
  - intros (q&Hq&Hn). apply list_elem_of_fmap in Hq as ([q' x]&->&Hx). cbn in Hn. case_bool_decide as H; [|done].
    destruct H as [H1 H2]. simplify_eq. apply elem_of_map_to_list in Hx. rewrite <- H1. by rewrite Hx.
  - intros Hf. destruct (f !! (d ++ [n])) as [x|] eqn:Hx; [|done]. exists (d ++ [n]). split.
    + apply list_elem_of_fmap. exists (d ++ [n], x). split; [done|]. by apply elem_of_map_to_list.
    + rewrite parent_app, path_name_app. by rewrite bool_decide_eq_true_2.
Qed.
Definition nothing_below (f : fs) (p : path) : bool := forallb (λ kv, negb (below p kv.1)) (map_to_list f).
Lemma nothing_below_spec f p : nothing_below f p = true → ∀ l, f !! (p ++ l) = None.
Proof.
  intros H l. destruct (f !! (p ++ l)) as [x|] eqn:Hx; [|done]. unfold nothing_below in H. rewrite forallb_forall in H.
  specialize (H (p ++ l, x)). unfold below in H. cbn in H. rewrite take_app_length, bool_decide_eq_true_2 in H by done.
  discriminate H. apply list_elem_of_In. by apply elem_of_map_to_list.
Qed.

(** ** Activation *)

Definition activation (fl : list bool) : world * result exn dict :=
  run_on (activate tiny scan0 h0 (db D0) candidate0 op0 expected0 true) files0 fl.
Definition answers {A} (r : result exn A) : bool := match r with Ok _ => true | Raise _ => false end.
Lemma activation_answers : answers (activation []).2 = true.
Proof. vm_compute. reflexivity. Qed.
Lemma files0_new : nothing_below files0 (R D0 op0) = true.
Proof. vm_compute. reflexivity. Qed.

(** With the call that replaces the database failing, and with none failing. *)
Lemma activate_crash_safe_witness :
  safe tiny h0 D0 op0 files0 candidate0 expected0 (files (activation (repeat false 83 ++ [true])).1) ∧
  files (activation []).1 !! db D0 = Some (File (Bytes "new")).
Proof.
  pose proof (nothing_below_spec _ _ files0_new) as Hn.
  destruct (activate_crash_safe tiny scan0 h0 D0 candidate0 op0 expected0 files0 (repeat false 83 ++ [true]) tiny_tidy scan0_lists (λ _, Hn)) as [H1 _].
  destruct (activate_crash_safe tiny scan0 h0 D0 candidate0 op0 expected0 files0 [] tiny_tidy scan0_lists (λ _, Hn)) as [_ H2].
  split; [exact (Forall_inv H1)|]. pose proof activation_answers as Ha. unfold activation in *.
  destruct (run_on _ files0 []).2 as [res|e] eqn:E; [|done]. destruct (H2 res eq_refl) as (st&_&Hd&_). rewrite Hd. reflexivity.
Defined.

(** ** Rollback *)

Definition activated0 : fs := files (activation []).1.
Definition state0 : dict := Eval vm_compute in default [] (state_of (R D0 op0) activated0).
Definition info0 : dict := match jget "old_state" state0 with Some (JObj l) => l | _ => [] end.
Lemma activation_can_be_undone_witness : ∃ s, s = "old+log"%string ∧ undoable h0 D0 op0 activated0 state0 (Bytes s).
Proof.
  pose proof (nothing_below_spec _ _ files0_new) as Hn.
  destruct (activation_can_be_undone tiny scan0 h0 D0 candidate0 op0 expected0 files0 activated0 [] state0 info0 "activated"
    tiny_tidy scan0_lists (λ _, Hn)) as (s&Hs&Hu).
  - vm_compute. reflexivity.
  - apply elem_of_cons. left. reflexivity.
  - vm_compute. reflexivity.
  - vm_compute. reflexivity.
  - apply (bool_decide_unpack _). vm_compute. exact I.
  - vm_compute. reflexivity.
  - vm_compute. reflexivity.
  - apply (bool_decide_unpack _). vm_compute. exact I.
  - intros _. apply nothing_below_spec. vm_compute. reflexivity.
  - exists s. split; [|exact Hu]. unfold consolidated in Hs. vm_compute in Hs. by injection Hs as <-.
Defined.

(** A rollback that dies with the swap under way: once its phase is recorded, the
    next call fails. *)
Definition undone (tok : nat → string) (f : fs) (fl : list bool) : world * result exn dict :=
  run_on (rollback tiny (with_token h0 tok) (db D0) op0 true) f fl.
Definition other_names : nat → string := λ n, of_chars [ascii_of_nat (107 + n)].
Definition halfway0 : fs := files (undone (token h0) activated0 (repeat false 30 ++ [true])).1.
Definition last0 : world * result exn dict := undone other_names halfway0 [].

Lemma activated0_undoable : undoable h0 D0 op0 activated0 state0 (Bytes "old+log").
Proof.
  split; [vm_compute; reflexivity|]. split.
  - split; [vm_compute; reflexivity|]. split; [vm_compute; reflexivity|]. split; [eexists; vm_compute; reflexivity|].
    exists info0. split; [vm_compute; reflexivity|]. split; vm_compute; reflexivity.
  - split; [right; vm_compute; reflexivity|]. split; [vm_compute; reflexivity|].
    split; [apply (bool_decide_unpack _); vm_compute; exact I|]. intros _. apply nothing_below_spec. vm_compute. reflexivity.
Qed.
Lemma halfway0_reached : rollback_attempt tiny h0 D0 op0 activated0 halfway0.
Proof. exists (token h0), (repeat false 30 ++ [true]). apply elem_of_cons. by left. Qed.
Lemma halfway0_granted : granted tiny (with_token h0 other_names) D0 op0 halfway0.
Proof.
  do 4 (split; [done|]). split; [|vm_compute; reflexivity]. intros i.
  assert (halfway0 !! (R D0 op0 ++ ["state-" +:+ token (with_token h0 other_names) i +:+ ".tmp"]%string) = None) as E; [|exact E].
  assert (forallb (λ kv, negb (below (R D0 op0) kv.1) || negb (starts_with "state-" (path_name kv.1))) (map_to_list halfway0) = true) as H
    by (vm_compute; reflexivity).
  rewrite forallb_forall in H. destruct (halfway0 !! _) as [x|] eqn:Hx; [|done]. apply elem_of_map_to_list, list_elem_of_In in Hx.
  specialize (H _ Hx). cbn [fst] in H. unfold below in H. rewrite take_app_length, bool_decide_eq_true_2 in H by done.
  rewrite path_name_app in H. discriminate H.
Qed.
Lemma halfway0_phase : phase_of D0 op0 halfway0 = Some (JStr "rolling_back").
Proof. vm_compute. reflexivity. Qed.

Lemma rollback_resumes_witness : ∃ res, last0.2 = Ok res ∧ files last0.1 !! db D0 = Some (File (Bytes "old+log")).
Proof.
  destruct (rollback_resumes tiny h0 D0 op0 activated0 halfway0 state0 (Bytes "old+log") tiny_tidy activated0_undoable
    (rtc_once _ _ halfway0_reached)) as [_ H].
  destruct (H other_names halfway0_phase halfway0_granted) as (res&E&(_&_&Hd)&_). exists res. split; [exact E|exact Hd].
Defined.

(** ** Staging *)

Definition staging : world * result exn dict := run_on (stage tiny scan0 h0 (db D0) backup0 (sha256_hex "new") true) files1 [].
Lemma staging_answers : answers staging.2 = true.
Proof. vm_compute. reflexivity. Qed.
Lemma files1_unstaged : nothing_below files1 (stage_of (db D0)) = true.
Proof. vm_compute. reflexivity. Qed.
Lemma staged_unused : files1 !! staged_temp h0 D0 = None.
Proof. vm_compute. reflexivity. Qed.

Lemma stage_installs_verified_witness : files staging.1 !! staged_file h0 D0 = Some (File (Bytes "new")).
Proof.
  destruct (stage_installs_verified tiny scan0 h0 D0 backup0 (sha256_hex "new") files1 [] scan0_lists
    (λ _, nothing_below_spec _ _ files1_unstaged) staged_unused) as [_ H].
  pose proof staging_answers as Ha. unfold staging in *. destruct (run_on _ files1 []).2 as [res|e] eqn:E; [|done].
  destruct (H res eq_refl) as [(_&Hd&_) _]. rewrite Hd. reflexivity.
Defined.
