(* ===== verification/Vectors.v ===== *)
(** * Embedding responses

    [response_validation.py], [vector_norm.py] and [embedding_fingerprint.py]:
    what the adapters make of the vectors of a response.  A component of a
    decoded vector is an integer or a binary64 number; the arithmetic on them
    is that of Python, its [sum] included. *)

From S2P Require Import Prelude PyStr PyText Sha256 Domain PyNum PyRepr Config.
Local Open Scope Z_scope.
Local Open Scope prog_scope.

(** ** Numbers *)

Inductive num := NInt (z : Z) | NFloat (f : spec_float).

Definition fmul (x y : spec_float) : spec_float := SFmul 53 1024 x y.
Definition fsub (x y : spec_float) : spec_float := SFsub 53 1024 x y.
Definition fsqrt (x : spec_float) : spec_float := SFsqrt 53 1024 x.
Definition f_finite (f : spec_float) : bool := match f with S754_zero _ | S754_finite _ _ _ => true | _ => false end.
Definition f_is_zero (f : spec_float) : bool := match f with S754_zero _ => true | _ => false end.

(** [float(x)] *)
Definition as_float (x : num) : result exn spec_float := match x with NInt z => float_of_int z | NFloat f => Ok f end.
(** [x * x] *)
Definition square (x : num) : num := match x with NInt z => NInt (z * z) | NFloat f => NFloat (fmul f f) end.
(** [x + y] *)
Definition num_add (x y : num) : result exn num :=
  match x, y with
  | NInt a, NInt b => Ok (NInt (a + b))
  | _, _ => let? f := as_float x in let? g := as_float y in Ok (NFloat (fadd f g))
  end.

(** ** [sum]

    CPython adds leading integers in a machine word; from the first float on it
    keeps a compensation term next to the running sum; once the integers leave
    the word it adds item by item. *)
Definition LONG_MAX : Z := 2 ^ 63 - 1.
Definition is_long (z : Z) : bool := (- LONG_MAX - 1 <=? z) && (z <=? LONG_MAX).
Definition compensated (hi lo x : spec_float) : spec_float * spec_float :=
  let t := fadd hi x in
  let c := if SFleb (SFabs x) (SFabs hi) then fadd (fsub hi t) x else fadd (fsub x t) hi in
  (t, fadd lo c).
Definition compensate (hi lo : spec_float) : spec_float := if negb (f_is_zero lo) && f_finite lo then fadd hi lo else hi.
Fixpoint sum_floats (hi lo : spec_float) (l : list num) : result exn num :=
  match l with
  | [] => Ok (NFloat (compensate hi lo))
  | x :: l' => let? f := as_float x in let (hi', lo') := compensated hi lo f in sum_floats hi' lo' l'
  end.
Fixpoint sum_plain (acc : num) (l : list num) : result exn num :=
  match l with
  | [] => Ok acc
  | x :: l' => let? acc' := num_add acc x in sum_plain acc' l'
  end.
Fixpoint sum_ints (acc : Z) (l : list num) : result exn num :=
  match l with
  | [] => Ok (NInt acc)
  | NInt z :: l' => if is_long z && is_long (acc + z) then sum_ints (acc + z) l' else sum_plain (NInt (acc + z)) l'
  | NFloat f :: l' => let? a := float_of_int acc in sum_floats (fadd a f) (S754_zero false) l'
  end.
Definition py_sum (l : list num) : result exn num := sum_ints 0 l.

Definition f64 (s : string) : spec_float := default S754_nan (py_float s).
Example sum_forms :
  py_sum (map NFloat [f64 "0.1"; f64 "0.2"; f64 "0.3"]) = Ok (NFloat (f64 "0.6"))
  ∧ py_sum [NFloat (f64 "1.0"); NFloat (f64 "1e100"); NInt 1; NFloat (f64 "-1e100")] = Ok (NFloat (f64 "2.0"))
  ∧ py_sum [NInt LONG_MAX; NInt 1] = Ok (NInt (2 ^ 63)).
Proof. split_and!; vm_compute; reflexivity. Qed.

(** ** Normalisation *)

Fixpoint each {A B} (f : A → result exn B) (l : list A) : result exn (list B) :=
  match l with
  | [] => Ok []
  | x :: l' => let? y := f x in let? ys := each f l' in Ok (y :: ys)
  end.

(** [math.sqrt(sum(x * x for x in vec))] *)
Definition magnitude (vec : list num) : result exn spec_float :=
  let? s := py_sum (map square vec) in
  let? f := as_float s in
  Ok (fsqrt f).
(** [vector_norm.py:17-22 normalize_unit] The vector that passes through is
    read as floats, as the store packs it. *)
Definition normalize_unit (vec : list num) : result exn (list spec_float) :=
  let? mag := magnitude vec in
  let? fs := each as_float vec in
  if SFeqb mag (S754_zero false) then Ok fs else Ok (map (λ x, fdiv x mag) fs).

(** ** The boundary check *)

(** [isinstance(x, (int, float))]: a [bool] is an [int]. *)
Definition is_number (v : json) : bool := match v with JBool _ | JInt _ | JFloat _ => true | _ => false end.
Definition is_jbool (v : json) : bool := match v with JBool _ => true | _ => false end.
Definition num_of (v : json) : num := match v with JBool b => NInt (if b then 1 else 0) | JInt z => NInt z | JFloat s => NFloat (f64 s) | _ => NInt 0 end.
Definition nums_of (v : json) : list num := match v with JArr l => map num_of l | _ => [] end.
(** [math.isfinite(x)] takes an integer as a float. *)
Definition isfinite (x : num) : result exn bool := let? f := as_float x in Ok (f_finite f).
Fixpoint all_finite (l : list json) : result exn bool :=
  match l with
  | [] => Ok true
  | x :: l' => if is_number x then (let? b := isfinite (num_of x) in if (b : bool) then all_finite l' else Ok false) else Ok false
  end.
Definition invalid {A} : result exn A := Raise (ProviderError PROVIDER_ERROR).
Fixpoint check_vectors (first_len : option nat) (l : list json) : result exn (option nat) :=
  match l with
  | [] => Ok first_len
  | JArr vec :: l' =>
      let n := length vec in
      if (n =? 0)%nat then invalid
      else if negb (n =? default n first_len)%nat then invalid
      else if existsb is_jbool vec then invalid
      else let? finite := all_finite vec in if (finite : bool) then check_vectors (Some (default n first_len)) l' else invalid
  | _ => invalid
  end.
(** [response_validation.py:22-65 validate_embeddings] *)
Definition validate_embeddings (embeddings : json) (expected : nat) (requested_dimensions : option Z) : result exn unit :=
  match embeddings with
  | JArr l =>
      if negb (length l =? expected)%nat then invalid
      else
        let? first_len := check_vectors None l in
        match requested_dimensions with
        | Some d => if bool_decide (Z.of_nat <$> first_len = Some d) then Ok tt else invalid
        | None => Ok tt
        end
  | _ => invalid
  end.

Arguments validate_embeddings : simpl never.

(** ** Settings *)

(** [embedding_fingerprint.py:23-26 settings_fingerprint] *)
Definition settings_fingerprint (options : list (string * json)) : string :=
  hash_content (dumps_with "," ":" (JObj (sort_by key_leb options))).

(** ** Facts *)

Lemma each_length {A B} (f : A → result exn B) l r : each f l = Ok r → length r = length l.
Proof.
  revert r. induction l as [|x l IH]; intros r; simpl; [by intros [= <-]|]. unfold result_bind. case_all. intros [= <-].
  simpl. by erewrite IH.
Qed.
Lemma each_lookup {A B} (f : A → result exn B) l r i y : each f l = Ok r → r !! i = Some y → ∃ x, l !! i = Some x ∧ f x = Ok y.
Proof.
  revert r i. induction l as [|x l IH]; intros r i; simpl; [by intros [= <-]|]. unfold result_bind. case_all. intros [= <-].
  destruct i as [|i]; simpl; [intros [= <-]; eauto|]. by apply IH.
Qed.

Lemma normalize_length vec r : normalize_unit vec = Ok r → length r = length vec.
Proof.
  unfold normalize_unit, result_bind. destruct (magnitude vec) as [m|]; [|done].
  destruct (each as_float vec) as [fs|] eqn:E; [|done]. apply each_length in E.
  case_match; intros [= <-]; [done|]. by rewrite length_map.
Qed.

(** What the check lets through: numbers that are finite as floats, no booleans. *)
Definition finite_number (v : json) : Prop :=
  is_jbool v = false ∧ is_number v = true ∧ ∃ f, as_float (num_of v) = Ok f ∧ f_finite f = true.
Definition good_vector (n : nat) (v : json) : Prop := ∃ l, v = JArr l ∧ length l = n ∧ Forall finite_number l.
(** A response to [expected] texts, by the vectors' length. *)
Definition good_response (v : json) (expected : nat) (requested : option Z) : Prop :=
  ∃ l, v = JArr l ∧ length l = expected ∧
    match l with
    | [] => requested = None
    | _ => ∃ n, n ≠ 0%nat ∧ Forall (good_vector n) l ∧ ∀ d, requested = Some d → Z.of_nat n = d
    end.

Lemma finite_number_ok x : is_jbool x = false → finite_number x ↔ is_number x = true ∧ isfinite (num_of x) = Ok true.
Proof.
  intros Hb. unfold finite_number, isfinite, result_bind. split.
  - by intros (_&Hn&f&->&->).
  - intros [Hn H]. do 2 (split; [done|]). destruct (as_float (num_of x)) as [f|]; [|done]. injection H as H. eauto.
Qed.
Lemma all_finite_ok l : existsb is_jbool l = false → all_finite l = Ok true ↔ Forall finite_number l.
Proof.
  induction l as [|x l IH]; simpl; [split; eauto|]. intros [Hx Hl]%orb_false_iff.
  rewrite Forall_cons, <-IH, finite_number_ok by done. unfold result_bind.
  destruct (is_number x); [|split; [done|by intros [[? _] _]]].
  destruct (isfinite (num_of x)) as [[]|]; split; try done; try (by intros [[_ ?] _]). by intros [_ ?].
Qed.
Lemma no_bools l : Forall finite_number l → existsb is_jbool l = false.
Proof. induction 1 as [|x l (Hx&_) _ IH]; simpl; [done|]. by rewrite Hx. Qed.

(** One step of the check. *)
Lemma check_vectors_cons first v l r : check_vectors first (v :: l) = Ok r ↔
  ∃ n, n ≠ 0%nat ∧ (∀ m, first = Some m → n = m) ∧ good_vector n v ∧ check_vectors (Some n) l = Ok r.
Proof.
  split.
  - simpl. destruct v as [| | | | |vec|]; try done. destruct (Nat.eqb_spec (length vec) 0) as [|Hne]; [done|].
    destruct (Nat.eqb_spec (length vec) (default (length vec) first)) as [Hn|]; simpl; [|done].
    destruct (existsb is_jbool vec) eqn:Hb; [done|]. unfold result_bind.
    destruct (all_finite vec) as [[]|] eqn:Hf; [|done|done]. apply all_finite_ok in Hf; [|done]. rewrite <-Hn.
    intros Hr. exists (length vec). split; [done|]. split; [intros m ->; by simpl in Hn|]. split; [by exists vec|done].
  - intros (n&Hne&Hfirst&(vec&->&<-&Hf)&Hr). simpl. rewrite (proj2 (Nat.eqb_neq _ _) Hne).
    assert (default (length vec) first = length vec) as ->.
    { destruct first as [m|]; [|done]. by rewrite (Hfirst m eq_refl). }
    rewrite Nat.eqb_refl. pose proof (no_bools _ Hf) as Hb. rewrite Hb. apply all_finite_ok in Hf; [|done]. by rewrite Hf.
Qed.
Lemma check_vectors_some n l r : n ≠ 0%nat → check_vectors (Some n) l = Ok r ↔ r = Some n ∧ Forall (good_vector n) l.
Proof.
  intros Hn. induction l as [|v l IH].
  { simpl. split; [intros [= <-]; eauto|by intros [-> _]]. }
  rewrite check_vectors_cons, Forall_cons. split.
  - intros (m&_&Hm&Hv&Hl). rewrite (Hm n eq_refl) in *. apply IH in Hl as [? ?]. done.
  - intros (->&Hv&Hl). exists n. repeat split; try done; [by intros m [= <-]|]. by apply IH.
Qed.

(** The check accepts exactly the good responses. *)
Lemma validate_ok v expected requested : validate_embeddings v expected requested = Ok tt ↔ good_response v expected requested.
Proof.
  unfold validate_embeddings, good_response. destruct v as [| | | | |l|]; try (split; [done|by intros (?&?&_)]).
  destruct (Nat.eqb_spec (length l) expected) as [He|]; simpl; [|split; [done|intros (?&[= <-]&?&_); done]].
  transitivity (match l with [] => requested = None
    | _ => ∃ n, n ≠ 0%nat ∧ Forall (good_vector n) l ∧ ∀ d, requested = Some d → Z.of_nat n = d end);
    [|split; [by exists l|by intros (?&[= <-]&_&?)]].
  destruct l as [|v l]; [destruct requested as [d|]; [by split|done]|]. split.
  - unfold result_bind. destruct (check_vectors None (v :: l)) as [r|] eqn:E; [|done]. apply check_vectors_cons in E as (n&Hn&_&Hv&Hl).
    apply check_vectors_some in Hl as [-> Hl]; [|done]. intros Hr. exists n. repeat split; [done|by constructor|].
    intros d ->. case_bool_decide; simplify_eq/=. congruence.
  - intros (n&Hn&[Hv Hl]%Forall_cons&Hd). rewrite (proj2 (check_vectors_cons _ _ _ (Some n))).
    + simpl. destruct requested as [d|]; [|done]. rewrite bool_decide_eq_true_2; [done|]. f_equal. by apply Hd.
    + exists n. repeat split; try done. by apply check_vectors_some.
Qed.
Lemma all_finite_raises l e : all_finite l = Raise e → e = OverflowError.
Proof.
  induction l as [|x l IH]; simpl; [done|]. destruct (is_number x); [|done]. unfold isfinite, result_bind.
  destruct (as_float (num_of x)) as [f|e'] eqn:E; [by destruct (f_finite f)|]. intros [= <-].
  destruct (num_of x); simpl in E; [|done]. unfold float_of_int in E. by destruct (f64_of_Z z); simplify_eq.
Qed.
(** A refusal is a provider error, or that of an integer no float can hold. *)
Lemma validate_raises v expected requested e :
  validate_embeddings v expected requested = Raise e → e = ProviderError PROVIDER_ERROR ∨ e = OverflowError.
Proof.
  assert (∀ first l, check_vectors first l = Raise e → e = ProviderError PROVIDER_ERROR ∨ e = OverflowError) as H.
  { intros first l. revert first. induction l as [|v' l IH]; intros first; simpl; [done|]. unfold invalid, result_bind.
    destruct v' as [| | | | |vec|]; try (intros [= <-]; by left). repeat (case_match; [intros [= <-]; by left|]).
    destruct (all_finite vec) as [[]|] eqn:E; [apply IH|intros [= <-]; by left|]. intros [= <-]. right. by eapply all_finite_raises. }
  unfold validate_embeddings, invalid, result_bind. destruct v as [| | | | |l|]; try (intros [= <-]; by left).
  case_match; [intros [= <-]; by left|]. destruct (check_vectors None l) eqn:E; [|intros [= <-]; by eapply H].
  destruct requested; [|done]. case_bool_decide; [done|]. intros [= <-]. by left.
Qed.
