(* ===== verification/Adapters.v ===== *)
(** * The embedding adapters

    [ollama_adapter.py], [openai_adapter.py] and [stub_adapter.py] behind the
    embedding port.  The network, the clocks and the other threads are outside:
    [Outside] answers a request, reads a clock and says what other threads did to
    the adapter meanwhile.  The probe lock keeps two probes apart, so that
    another thread's probe may end while this one waits for the lock or while an
    embedding is under way, and not during this thread's own probe. *)

From S2P Require Import Prelude PyStr PyText Sha256 Domain PyNum PyRepr Config Vectors Sql Embedding.
Local Open Scope Z_scope.
Local Open Scope prog_scope.

(** ** Outside *)

(** An [httpx.Response]; [json_body] is [None] where [json()] raises. *)
Record response := mkResponse { status_code : Z; json_body : option json; text : string }.
Inductive http_outcome := Answered (r : response) | ConnectError | TimeoutException | OtherFailure.
Inductive request :=
| Post (url : string) (body : json) (verify_tls : bool)
| Get (url : string) (verify_tls : bool).
(** What another thread did to the adapter: its probe found the model, or
    failed, or its embedding was answered. *)
Inductive act := Probed (digest : option string) (now : Z) | ProbeFailed (now : Z) | EmbedAnswered.
Definition is_embedding (a : act) : bool := match a with EmbedAnswered => true | _ => false end.

Class Outside (W : Type) := {
  send : request → W → W * http_outcome;
  acts : W → W * list act;
  (** [lock.acquire(timeout=...)] *)
  acquire : W → W * bool;
  (** in nanoseconds; in microseconds *)
  monotonic : W → W * Z;
  utc_clock : W → W * Z;
}.

(** [response.is_success] *)
Definition is_success (r : response) : bool := (200 <=? status_code r) && (status_code r <=? 299).

(** ** Names and messages *)

(** [s.rstrip("/")] *)
Definition rstrip_slash (s : string) : string :=
  of_chars (rev (lstrip_chars (λ c, bool_decide (c = "/"%char)) (rev (chars s)))).
(** [ollama_adapter.py:319-332 _normalize_host] *)
Definition normalize_host (raw : string) : string :=
  let raw := rstrip_slash (py_strip raw) in
  if contains "://" raw then raw else "http://" +:+ raw.
(** [ollama_adapter.py:335-347 _is_context_length_rejection] *)
Definition is_context_length_rejection (status : Z) (message : string) : bool :=
  (status =? 400) && contains "context length" (str_lower message).
(** [ollama_adapter.py:45-45 _ERROR_BODY_LIMIT] *)
Definition ERROR_BODY_LIMIT : nat := 300.
(** [ollama_adapter.py:350-365 _upstream_error] *)
Definition upstream_error (r : response) : string :=
  let message := match json_body r with
    | Some (JObj l) => match jget "error" l with Some (JStr s) => s | _ => "" end
    | _ => ""
    end%string in
  let message := if bool_decide (message = ""%string)
    then (if bool_decide (text r = ""%string) then "(no error body)"%string else text r) else message in
  of_chars (take ERROR_BODY_LIMIT (chars message)).
(** [name.rsplit("/", 1)[-1]] *)
Definition last_segment (s : string) : string := default ""%string (last (py_split_on "/"%char s)).
(** [ollama_adapter.py:368-379 _canonical_model_name] *)
Definition canonical_model_name (name : string) : string :=
  let name := str_casefold (py_strip name) in
  let name := removeprefix "library/" (removeprefix "registry.ollama.ai/" name) in
  if contains ":" (last_segment name) then name else name +:+ ":latest".

Definition nonempty_text (v : option json) : option string :=
  match v with Some (JStr s) => if bool_decide (s = ""%string) then None else Some s | _ => None end.
Definition entry_names (l : list (string * json)) : list string :=
  omap nonempty_text [jget "name" l; jget "model" l].
Fixpoint find_entry (wanted : string) (names : list string) (models : list json) : bool * option string * list string :=
  match models with
  | [] => (false, None, names)
  | JObj l :: models' =>
      let names := names ++ take 1 (entry_names l) in
      if existsb (λ n, bool_decide (canonical_model_name n = wanted)) (entry_names l)
      then (true, nonempty_text (jget "digest" l), names)
      else find_entry wanted names models'
  | _ :: models' => find_entry wanted names models'
  end.
(** [ollama_adapter.py:382-404 _find_model] *)
Definition find_model (payload : json) (model : string) : option (bool * option string * list string) :=
  match payload with
  | JObj l =>
      match jget "models" l with
      | Some (JArr models) => Some (find_entry (canonical_model_name model) [] models)
      | _ => None
      end
  | _ => None
  end.

Example canonical_forms : map canonical_model_name ["Nomic-Embed-Text"; "registry.ollama.ai/library/nomic-embed-text:latest"; "host:5000/m"; "m:v1"]%string
  = ["nomic-embed-text:latest"; "nomic-embed-text:latest"; "host:5000/m:latest"; "m:v1"]%string.
Proof. vm_compute. reflexivity. Qed.

(** [[normalize_unit(vec) for vec in embeddings]] *)
Definition normalize_all (embeddings : list json) : result exn (list (list spec_float)) :=
  each (λ v, normalize_unit (nums_of v)) embeddings.
(** An error that is not a provider's becomes one. *)
Definition as_provider_error {S A} (m : SE S exn A) : SE S exn A :=
  try_catch m (λ e, if is_provider_error e then raise e else raise (ProviderError PROVIDER_ERROR)).
Definition first_of {S A} (l : list A) : SE S exn A := match l with x :: _ => ret x | [] => raise IndexError end.

(** ** Ollama *)

(** [ollama_adapter.py:76-109 OllamaEmbeddingAdapter.__init__] The settings. *)
Record ollama_settings := mkOllama {
  o_model : string;
  requested_dimensions : option Z;
  host : string;
  verify_tls : bool;
}.
(** The state, what is outside, and the requests made so far. *)
Record ollama (W : Type) := Ollama {
  revision : RevisionSnapshot;
  probe_failures : Z;
  last_probe_failure : option Z;
  last_probe_warning : option Z;
  sent : list request;
  outside : W;
}.
Arguments Ollama {W}. Arguments revision {W}. Arguments probe_failures {W}. Arguments last_probe_failure {W}.
Arguments last_probe_warning {W}. Arguments sent {W}. Arguments outside {W}.

(** [a or b or ...] of strings that may be missing *)
Definition given (s : option string) : option string := x ← s; if bool_decide (x = ""%string) then None else Some x.
Definition or_else (a b : option string) : option string := match given a with Some x => Some x | None => given b end.
(** [ollama_adapter.py:76-109 OllamaEmbeddingAdapter.__init__] *)
Definition new_ollama_settings (environ : environment) (model : string) (dimensions : option Z) (host : option string) : ollama_settings :=
  let raw_host := default "http://localhost:11434"%string
    (or_else host (or_else (environ !! "OLLAMA_HOST"%string) (environ !! "OLLAMA_BASE_URL"%string))) in
  mkOllama model dimensions (normalize_host raw_host)
    (negb (bool_decide (str_lower (py_strip (default ""%string (environ !! "OLLAMA_VERIFY_TLS"%string))) ∈ FALSE_WORDS))).
Definition new_ollama {W} (w : W) : ollama W := Ollama UNKNOWN_REVISION 0 None None [] w.

(** Seconds in nanoseconds. *)
Definition SECOND : Z := 10 ^ 9.
(** [ollama_adapter.py:56-56 PROBE_COOLDOWN_SECONDS] *)
Definition PROBE_COOLDOWN : Z := 30 * SECOND.
(** [ollama_adapter.py:60-60 _KNOWN_FAILURES_BEFORE_WARNING] *)
Definition KNOWN_FAILURES_BEFORE_WARNING : Z := 3.
(** [ollama_adapter.py:61-61 _KNOWN_REMINDER_SECONDS] *)
Definition KNOWN_REMINDER : Z := 3600 * SECOND.
(** [ollama_adapter.py:62-62 _UNKNOWN_REMINDER_SECONDS] *)
Definition UNKNOWN_REMINDER : Z := 900 * SECOND.

Section ollama.
Context {W : Type} `{!Outside W} (cfg : ollama_settings).
Notation O := (ollama W).
Notation M A := (SE O exn A).

Definition with_outside (w : W) (s : O) : O :=
  Ollama (revision s) (probe_failures s) (last_probe_failure s) (last_probe_warning s) (sent s) w.
Definition log_request (r : request) (s : O) : O :=
  Ollama (revision s) (probe_failures s) (last_probe_failure s) (last_probe_warning s) (sent s ++ [r]) (outside s).
(** [ollama_adapter.py:145-147 OllamaEmbeddingAdapter.embed_batch] *)
Definition end_cooldown (s : O) : O :=
  Ollama (revision s) (probe_failures s) None (last_probe_warning s) (sent s) (outside s).

(** [ollama_adapter.py:261-279 OllamaEmbeddingAdapter._probe_succeeded] *)
Definition probe_succeeded (digest : option string) (now : Z) (s : O) : O :=
  Ollama (mkSnapshot true digest (Some now)) 0 None None (sent s) (outside s).
(** [ollama_adapter.py:291-298 OllamaEmbeddingAdapter._probe_failed] *)
Definition warning_due (known : bool) (failures : Z) (last_warning : option Z) (now : Z) : bool :=
  let quiet reminder := match last_warning with Some t => negb (reminder <=? now - t) | None => false end in
  if known then (KNOWN_FAILURES_BEFORE_WARNING <=? failures) && negb (quiet KNOWN_REMINDER)
  else negb (quiet UNKNOWN_REMINDER).
(** [ollama_adapter.py:281-308 OllamaEmbeddingAdapter._probe_failed] *)
Definition probe_failed (now : Z) (s : O) : O :=
  let failures := probe_failures s + 1 in
  Ollama (revision s) failures (Some now)
    (if warning_due (known (revision s)) failures (last_probe_warning s) now then Some now else last_probe_warning s)
    (sent s) (outside s).

Definition do_act (s : O) (a : act) : O :=
  match a with
  | Probed d now => probe_succeeded d now s
  | ProbeFailed now => probe_failed now s
  | EmbedAnswered => end_cooldown s
  end.
(** Other threads run; [allowed] says what the locks let them do. *)
Definition meanwhile (allowed : act → bool) (s : O) : O :=
  let (w, l) := acts (outside s) in foldl do_act (with_outside w s) (List.filter allowed l).

Definition call_http (allowed : act → bool) (r : request) (s : O) : O * http_outcome :=
  let (w, out) := send r (outside s) in (meanwhile allowed (with_outside w (log_request r s)), out).
Definition read_monotonic (s : O) : O * Z := let (w, t) := monotonic (outside s) in (with_outside w s, t).
Definition read_utc (s : O) : O * Z := let (w, t) := utc_clock (outside s) in (with_outside w s, t).

Definition api_url (path : string) : string := rstrip_slash (host cfg) +:+ path.
(** [ollama_adapter.py:119-128 OllamaEmbeddingAdapter.embed_batch] The body. *)
Definition embed_body (texts : list string) : json :=
  JObj ([("model", JStr (o_model cfg)); ("input", JArr (map JStr texts)); ("truncate", JBool false)]%string
    ++ match requested_dimensions cfg with Some d => [("dimensions"%string, JInt d)] | None => [] end).

(** [ollama_adapter.py:132-144 OllamaEmbeddingAdapter.embed_batch] The checked
    vectors of a successful response. *)
Definition response_embeddings (r : response) (expected : nat) : result exn (list json) :=
  let? data := (match json_body r with Some d => Ok d | None => Raise ValueError end) in
  let? embeddings := (match data with JObj l => Ok (default JNull (jget "embeddings" l)) | _ => Raise AttributeError end) in
  let? _ := validate_embeddings embeddings expected (requested_dimensions cfg) in
  match embeddings with JArr l => Ok l | _ => Raise TypeError end.
(** [ollama_adapter.py:131-148 OllamaEmbeddingAdapter.embed_batch] *)
Definition read_embeddings (r : response) (expected : nat) : M (list (list spec_float)) :=
  let* embeddings := lift_result (response_embeddings r expected) in
  modify end_cooldown ;;
  lift_result (normalize_all embeddings).
(** [ollama_adapter.py:149-182 OllamaEmbeddingAdapter.embed_batch] Its errors. *)
Definition embed_error (out : http_outcome) : error_code :=
  match out with
  | Answered r => if is_context_length_rejection (status_code r) (upstream_error r) then CONTENT_TOO_LONG else PROVIDER_ERROR
  | ConnectError => CONNECTION_ERROR
  | TimeoutException => TIMEOUT
  | OtherFailure => PROVIDER_ERROR
  end.
(** [ollama_adapter.py:114-182 OllamaEmbeddingAdapter.embed_batch] *)
Definition ollama_embed_batch (texts : list string) : M (list (list spec_float)) :=
  match texts with
  | [] => ret []
  | _ =>
      let* out := (λ s, let (s', out) := call_http (λ _, true) (Post (api_url "/api/embed") (embed_body texts) (verify_tls cfg)) s in
        (s', Ok out)) in
      match out with
      | Answered r => if is_success r then as_provider_error (read_embeddings r (length texts)) else raise (ProviderError (embed_error out))
      | _ => raise (ProviderError (embed_error out))
      end
  end.
(** [ollama_adapter.py:111-112 OllamaEmbeddingAdapter.embed] *)
Definition ollama_embed (t : string) : M (list spec_float) := let* l := ollama_embed_batch [t] in first_of l.

(** [ollama_adapter.py:184-188 OllamaEmbeddingAdapter.dimensions] *)
Definition ollama_dimensions : Z := default 768 (requested_dimensions cfg).
(** [ollama_adapter.py:204-217 OllamaEmbeddingAdapter.model_revision] *)
Definition model_revision (s : O) : result exn (option string) :=
  if negb (known (revision s)) then Raise RevisionUnknownError else Ok (value (revision s)).

(** [ollama_adapter.py:236-238 OllamaEmbeddingAdapter._in_cooldown] *)
Definition in_cooldown (s : O) : O * bool :=
  match last_probe_failure s with
  | None => (s, false)
  | Some failed_at => let (s', now) := read_monotonic s in (s', now - failed_at <? PROBE_COOLDOWN)
  end.
(** What a probe found: the digest of the listed model. *)
Definition listed_digest (out : http_outcome) : option (option string) :=
  match out with
  | Answered r =>
      if is_success r then
        payload ← json_body r;
        '(listed, digest, _) ← find_model payload (o_model cfg);
        if (listed : bool) then Some digest else None
      else None
  | _ => None
  end.
(** [ollama_adapter.py:240-259 OllamaEmbeddingAdapter._probe] *)
Definition probe (s : O) : O * RevisionSnapshot :=
  let (s, out) := call_http is_embedding (Get (api_url "/api/tags") (verify_tls cfg)) s in
  let s := match listed_digest out with
    | Some digest => let (s, now) := read_utc s in probe_succeeded digest now s
    | None => let (s, now) := read_monotonic s in probe_failed now s
    end in
  (s, revision s).
(** [ollama_adapter.py:219-234 OllamaEmbeddingAdapter.refresh_revision] *)
Definition ollama_refresh_revision (force : bool) (s : O) : O * RevisionSnapshot :=
  let (w, acquired) := acquire (outside s) in
  let s := meanwhile (λ _, true) (with_outside w s) in
  if negb acquired then (s, revision s)
  else
    let (s, skip) := (if force then (s, false) else if known (revision s) then (s, true) else in_cooldown s) in
    if (skip : bool) then (s, revision s) else probe s.

(** [ollama_adapter.py:310-316 OllamaEmbeddingAdapter.settings_fingerprint] *)
Definition ollama_fingerprint : string :=
  settings_fingerprint [("dimensions", match requested_dimensions cfg with Some d => JInt d | None => JNull end); ("truncate", JBool false)]%string.

Definition ollama_port : EmbeddingPort O := {|
  ep_embed := ollama_embed;
  ep_embed_batch := ollama_embed_batch;
  ep_model_name := o_model cfg;
  ep_provider_name := "ollama";
  ep_settings_fingerprint := ollama_fingerprint;
  ep_tracks_revision := true;
  ep_revision_snapshot := revision;
  ep_refresh_revision := ollama_refresh_revision;
|}.
End ollama.

(** ** OpenAI *)

(** An exception of the SDK: its [code], [status_code], [message] and text. *)
Record sdk_error := mkSdkError { x_code : option string; x_status : option Z; x_message : option string; x_text : string }.
(** [openai_adapter.py:28-28 _OVERLENGTH_MESSAGE_MARKERS] *)
Definition OVERLENGTH_MARKERS : list string := ["context length"; "maximum input length"]%string.
(** [openai_adapter.py:31-52 _classify_error] *)
Definition classify_error (e : sdk_error) : error_code :=
  if bool_decide (x_code e = Some "context_length_exceeded"%string) then CONTENT_TOO_LONG
  else match x_status e with
  | Some status =>
      if (400 <=? status) && (status <? 500) then
        let message := str_lower (default (x_text e) (given (x_message e))) in
        if existsb (λ m, contains m message) OVERLENGTH_MARKERS then CONTENT_TOO_LONG else PROVIDER_ERROR
      else PROVIDER_ERROR
  | None => PROVIDER_ERROR
  end.

Record openai_settings := mkOpenAI { a_model : string; a_dimensions : Z; a_key : option string; base_url : string }.
(** [openai_adapter.py:18-18 DEFAULT_OPENAI_BASE_URL] *)
Definition DEFAULT_OPENAI_BASE_URL : string := "https://api.openai.com/v1".
(** [openai_adapter.py:62-94 OpenAIEmbeddingAdapter.__init__] [installed]: the
    [openai] package can be imported. *)
Definition new_openai_settings (environ : environment) (installed : bool) (model : string) (dimensions : Z) (api_key base_url : option string)
    : result exn openai_settings :=
  let cfg := mkOpenAI model dimensions (or_else api_key (environ !! "OPENAI_API_KEY"%string))
    (default DEFAULT_OPENAI_BASE_URL (or_else base_url (environ !! "OPENAI_BASE_URL"%string))) in
  if installed then Ok cfg else Raise (ProviderError MISSING_PACKAGE).

(** [client.embeddings.create(...)]: the embedding of every item. *)
Class Client (W : Type) := create : list string → string → Z → W → W * (sdk_error + list json).
#[global] Arguments create : simpl never.

Section openai.
Context {W : Type} `{!Client W} (cfg : openai_settings).

(** [openai_adapter.py:99-127 OpenAIEmbeddingAdapter.embed_batch] *)
Definition openai_embed_batch (texts : list string) : SE W exn (list (list spec_float)) :=
  let* response := (λ w, let (w', r) := create texts (a_model cfg) (a_dimensions cfg) w in (w', Ok r)) in
  match response with
  | inl e => raise (ProviderError (classify_error e))
  | inr embeddings =>
      as_provider_error (
        lift_result (validate_embeddings (JArr embeddings) (length texts) None) ;;
        lift_result (normalize_all embeddings))
  end.
(** [openai_adapter.py:96-97 OpenAIEmbeddingAdapter.embed] *)
Definition openai_embed (t : string) : SE W exn (list spec_float) := let* l := openai_embed_batch [t] in first_of l.
(** [openai_adapter.py:142-150 OpenAIEmbeddingAdapter.settings_fingerprint] *)
Definition openai_fingerprint : string :=
  settings_fingerprint [("dimensions", JInt (a_dimensions cfg)); ("base_url", JStr (base_url cfg))]%string.
(** [embedding_port.py:64-70 EmbeddingPort.revision_snapshot] The default. *)
Definition no_revision : RevisionSnapshot := mkSnapshot true None None.
Definition openai_port : EmbeddingPort W := {|
  ep_embed := openai_embed;
  ep_embed_batch := openai_embed_batch;
  ep_model_name := a_model cfg;
  ep_provider_name := "openai";
  ep_settings_fingerprint := openai_fingerprint;
  ep_tracks_revision := false;
  ep_revision_snapshot _ := no_revision;
  ep_refresh_revision _ w := (w, no_revision);
|}.
End openai.

(** ** The stub *)

(** [struct.pack(">I", n)]; it raises beyond 32 bits, which the counter does not reach. *)
Definition be_bytes (n : N) : list N := bytes_of_word 4 n.
(** [(val / 0xFFFFFFFF) * 2 - 1] *)
Definition stub_component (w : N) : spec_float :=
  fsub (fmul (if (w =? 0)%N then S754_zero false else fratio (Z.of_N w) 0xFFFFFFFF) (f64_of_Z 2)) (f64_of_Z 1).
(** The [while] loop: every block adds eight components until [dims] are there. *)
Fixpoint stub_fill (fuel : nat) (digest : list N) (counter : N) (dims : nat) (raw : list spec_float) : list spec_float :=
  match fuel with
  | O => raw
  | S fuel =>
      if (dims <=? length raw)%nat then raw
      else
        let block := sha256 (digest ++ be_bytes counter) in
        stub_fill fuel digest (counter + 1) dims (raw ++ take (dims - length raw) (map stub_component (words_of block)))
  end.
(** [stub_adapter.py:23-38 StubEmbeddingAdapter.embed] A loop of [dims] rounds is
    enough. *)
Definition stub_embed (dims : Z) (t : string) : result exn (list spec_float) :=
  let digest := sha256 (concat (map utf8 (chars t))) in
  normalize_unit (map NFloat (stub_fill (Z.to_nat dims) digest 0 (Z.to_nat dims) [])).
(** [stub_adapter.py:40-41 StubEmbeddingAdapter.embed_batch] *)
Definition stub_embed_batch (dims : Z) (texts : list string) : result exn (list (list spec_float)) := each (stub_embed dims) texts.
(** [stub_adapter.py:55-58 StubEmbeddingAdapter.settings_fingerprint] *)
Definition stub_fingerprint (dims : Z) : string := settings_fingerprint [("dimensions", JInt dims)]%string.
Definition stub_port (dims : Z) : EmbeddingPort unit := {|
  ep_embed t := lift_result (stub_embed dims t);
  ep_embed_batch ts := lift_result (stub_embed_batch dims ts);
  ep_model_name := "stub";
  ep_provider_name := "stub";
  ep_settings_fingerprint := stub_fingerprint dims;
  ep_tracks_revision := false;
  ep_revision_snapshot _ := no_revision;
  ep_refresh_revision _ w := (w, no_revision);
|}.

(** Finite components may still leave the unit sphere: the squares overflow or
    vanish. *)
Example norm_overflows : normalize_unit [NFloat (f64 "1e200"); NFloat (f64 "1e200")] = Ok [S754_zero false; S754_zero false].
Proof. vm_compute. reflexivity. Qed.
Example norm_underflows : normalize_unit [NFloat (f64 "1e-200")] = Ok [f64 "1e-200"].
Proof. vm_compute. reflexivity. Qed.
