(* ===== verification/AdapterProps.v ===== *)
(** * Properties of the embedding adapters

    What each operation of the Ollama adapter does, request by request; that a
    revision is only ever learned from a listing of the model and never lost;
    and the laws of the embedding port for the three adapters, which give the
    service's attribution theorem over each of them. *)

From S2P Require Import Prelude PyStr PyText Sha256 Domain PyNum PyRepr Config Vectors Sql Store Transactions Port StoreProps SearchProps.
From S2P Require Import Embedding EmbeddingProps Adapters.
Local Open Scope Z_scope.
Local Open Scope prog_scope.

(** ** Vectors *)

(** What a good response becomes. *)
Lemma normalized_ok l n r :
  Forall (good_vector n) l → normalize_all l = Ok r → Forall (λ v, length v = n) r.
Proof.
  unfold normalize_all. intros Hl. revert r. induction Hl as [|v l (vec&->&<-&_) Hl IH]; intros r; simpl; [by intros [= <-]|].
  unfold result_bind. destruct (normalize_unit (map num_of vec)) as [y|] eqn:Hy; [|done].
  destruct (each (λ v, normalize_unit (nums_of v)) l) as [ys|]; [|done]. intros [= <-].
  apply normalize_length in Hy. rewrite length_map in Hy. constructor; [done|by apply IH].
Qed.
Lemma as_provider_error_ok {S A} (m : SE S exn A) s s' a : as_provider_error m s = (s', Ok a) ↔ m s = (s', Ok a).
Proof. unfold as_provider_error, try_catch. destruct (m s) as [s1 [x|e]]; [done|]. by destruct (is_provider_error e). Qed.
Lemma as_provider_error_raise {S A} (m : SE S exn A) s s' e : as_provider_error m s = (s', Raise e) →
  ∃ e0, m s = (s', Raise e0) ∧ e = if is_provider_error e0 then e0 else ProviderError PROVIDER_ERROR.
Proof.
  unfold as_provider_error, try_catch. destruct (m s) as [s1 [x|e0]]; [done|].
  destruct (is_provider_error e0) eqn:E; intros [= <- <-]; exists e0; by rewrite E.
Qed.
Lemma as_float_raises x e : as_float x = Raise e → e = OverflowError.
Proof. destruct x; simpl; [|done]. unfold float_of_int. case_match; by intros [= <-]. Qed.
Lemma each_raises {A B} (f : A → result exn B) (P : exn → Prop) l e :
  (∀ x e, f x = Raise e → P e) → each f l = Raise e → P e.
Proof.
  intros Hf. induction l as [|x l IH]; simpl; [done|]. unfold result_bind. destruct (f x) eqn:E; [|intros [= <-]; eauto].
  destruct (each f l); [done|]. intros [= <-]. by apply IH.
Qed.
Lemma sum_floats_raises hi lo l e : sum_floats hi lo l = Raise e → e = OverflowError.
Proof.
  revert hi lo. induction l as [|x l IH]; intros hi lo; simpl; [done|]. unfold result_bind.
  destruct (as_float x) eqn:E; [|intros [= <-]; by eapply as_float_raises]. apply IH.
Qed.
Lemma sum_plain_raises acc l e : sum_plain acc l = Raise e → e = OverflowError.
Proof.
  revert acc. induction l as [|x l IH]; intros acc; simpl; [done|]. unfold result_bind at 1.
  destruct (num_add acc x) eqn:E; [apply IH|]. intros [= <-]. unfold num_add in E.
  destruct acc, x; simplify_eq; unfold result_bind in E; repeat case_match; simplify_eq;
    by match goal with H : as_float _ = Raise _ |- _ => apply as_float_raises in H end.
Qed.
Lemma py_sum_raises acc l e : sum_ints acc l = Raise e → e = OverflowError.
Proof.
  revert acc. induction l as [|[z|f] l IH]; intros acc; cbn [sum_ints]; [done| |].
  - case_match; [apply IH|apply sum_plain_raises].
  - unfold result_bind. destruct (float_of_int acc) eqn:E; [apply sum_floats_raises|]. intros [= <-].
    by apply (as_float_raises (NInt acc)).
Qed.
Lemma normalize_raises vec e : normalize_unit vec = Raise e → e = OverflowError.
Proof.
  unfold normalize_unit, magnitude, py_sum, result_bind.
  destruct (sum_ints 0 (map square vec)) eqn:E; [|intros [= <-]; by eapply py_sum_raises].
  destruct (as_float a) eqn:E2; [|intros [= <-]; by eapply as_float_raises].
  destruct (each as_float vec) eqn:E3; [by case_match|]. intros [= <-].
  by eapply (each_raises _ (λ e, e = OverflowError)); [apply as_float_raises|].
Qed.

(** ** The Ollama adapter *)

Section ollama.
Context {W : Type} `{!Outside W} (cfg : ollama_settings).
Implicit Types (s : ollama W).

(** Some listing, by this thread's probe or another's, showed the model with
    this digest. *)
Definition Listed (d : option string) : Prop :=
  (∃ r w, listed_digest cfg (send r w).2 = Some d) ∨ (∃ w t, Probed d t ∈ (acts w).2).
(** A revision stays as it is, or is one a listing showed. *)
Definition keeps (a b : RevisionSnapshot) : Prop := b = a ∨ ∃ d t, b = mkSnapshot true d (Some t) ∧ Listed d.

#[local] Instance keeps_refl : Reflexive keeps.
Proof. intros a. by left. Qed.
#[local] Instance keeps_trans : Transitive keeps.
Proof. intros a b c Hab [->|?]; [done|by right]. Qed.

Lemma meanwhile_sent allowed s : sent (meanwhile allowed s) = sent s.
Proof.
  unfold meanwhile. destruct (acts (outside s)) as [w l]. change (sent s) with (sent (with_outside w s)).
  generalize (with_outside w s) as x. induction (List.filter allowed l) as [|a l' IH]; intros x; simpl; [done|].
  rewrite IH. by destruct a.
Qed.
Lemma meanwhile_keeps allowed s : keeps (revision s) (revision (meanwhile allowed s)).
Proof.
  unfold meanwhile. destruct (acts (outside s)) as [w l] eqn:E. change (revision s) with (revision (with_outside w s)).
  generalize (with_outside w s) as x.
  assert (∀ a, a ∈ List.filter allowed l → a ∈ l) as Hin.
  { intros a. rewrite !list_elem_of_In, filter_In. by intros [? _]. }
  induction (List.filter allowed l) as [|a l' IH]; intros x; simpl; [done|].
  transitivity (revision (do_act x a)); [|apply IH; intros b Hb; apply Hin; by right].
  destruct a as [d t|t|]; simpl; [|done|done]. right. exists d, t. split; [done|]. right. exists (outside s), t.
  rewrite E. apply Hin. by left.
Qed.
(** During this thread's own probe the lock keeps the others' away. *)
Lemma meanwhile_embedding s : revision (meanwhile is_embedding s) = revision s.
Proof.
  unfold meanwhile. destruct (acts (outside s)) as [w l]. change (revision s) with (revision (with_outside w s)).
  generalize (with_outside w s) as x. induction l as [|a l IH]; intros x; simpl; [done|].
  destruct a; simpl; [apply IH|apply IH|]. by rewrite IH.
Qed.
Lemma end_cooldown_frame s : revision (end_cooldown s) = revision s ∧ sent (end_cooldown s) = sent s.
Proof. done. Qed.

(** ** Embedding *)

Definition adapter_error (e : exn) : Prop := e = ProviderError PROVIDER_ERROR ∨ is_provider_error e = false.

Lemma normalize_all_raises l e : normalize_all l = Raise e → adapter_error e.
Proof.
  intros H. right. assert (e = OverflowError) as -> by (eapply (each_raises _ (λ e, e = OverflowError)); [|exact H]; intros x e'; apply normalize_raises).
  done.
Qed.
Lemma response_embeddings_ok r n l : response_embeddings cfg r n = Ok l → good_response (JArr l) n (requested_dimensions cfg).
Proof.
  unfold response_embeddings, result_bind. destruct (json_body r) as [[]|]; try done.
  destruct (validate_embeddings _ _ _) as [[]|] eqn:E; [|done]. apply validate_ok in E. by case_match; intros [= <-].
Qed.
Lemma response_embeddings_raises r n e : response_embeddings cfg r n = Raise e → adapter_error e.
Proof.
  unfold response_embeddings, adapter_error, result_bind. destruct (json_body r) as [[]|]; try (intros [= <-]; by right).
  destruct (validate_embeddings _ _ _) as [u|e'] eqn:E; [case_match; intros [= <-]; by right|]. intros [= <-].
  apply validate_raises in E as [-> | ->]; auto.
Qed.

(** The shape of a vector: at least one component, and as many as were asked for. *)
Definition shaped (v : list spec_float) : Prop := v ≠ [] ∧ ∀ d, requested_dimensions cfg = Some d → Z.of_nat (length v) = d.

Lemma good_response_shaped l n r : good_response (JArr l) n (requested_dimensions cfg) → normalize_all l = Ok r →
  length r = n ∧ Forall shaped r ∧ ∃ m, Forall (λ v, length v = m) r.
Proof.
  intros (l'&[= <-]&Hn&Hd) Hr. pose proof Hr as Hlen%each_length. rewrite <-Hn. split; [done|]. destruct l as [|x l].
  { destruct r; [|done]. split; [constructor|]. by exists 0%nat. }
  destruct Hd as (m&Hm&Hl&Hd). pose proof (normalized_ok _ _ _ Hl Hr) as H. split; [|by exists m].
  eapply Forall_impl; [exact H|]. intros v Hv. simpl in Hv. split; [by intros ->|]. intros d Hreq. rewrite Hv. by apply Hd.
Qed.

Lemma end_cooldown_keeps s : keeps (revision s) (revision (end_cooldown s)).
Proof. by left. Qed.

(** The request of a batch. *)
Definition embed_request (texts : list string) : request := Post (api_url cfg "/api/embed") (embed_body cfg texts) (verify_tls cfg).

Lemma read_embeddings_frame r n s :
  keeps (revision s) (revision (read_embeddings cfg r n s).1) ∧ sent (read_embeddings cfg r n s).1 = sent s.
Proof. unfold read_embeddings, bind, lift_result, modify. by destruct (response_embeddings cfg r n). Qed.
Lemma read_embeddings_result r n s :
  match (as_provider_error (read_embeddings cfg r n) s).2 with
  | Ok vs => length vs = n ∧ Forall shaped vs ∧ ∃ m, Forall (λ v, length v = m) vs
  | Raise e => e = ProviderError PROVIDER_ERROR
  end.
Proof.
  destruct (as_provider_error _ s) as [s' [vs|e]] eqn:E; simpl.
  - rewrite as_provider_error_ok in E. unfold read_embeddings, bind, lift_result, modify in E.
    destruct (response_embeddings cfg r n) as [l|] eqn:Hl; [|by simplify_eq/=]. apply response_embeddings_ok in Hl.
    injection E as <- E. by eapply good_response_shaped.
  - apply as_provider_error_raise in E as (e0&E&->). unfold read_embeddings, bind, lift_result, modify in E.
    assert (adapter_error e0) as [-> | ->]; [|done|done].
    destruct (response_embeddings cfg r n) as [l|e1] eqn:Hl.
    + injection E as <- E. by eapply normalize_all_raises.
    + injection E as <- <-. by eapply response_embeddings_raises.
Qed.
Lemma as_provider_error_state {S A} (m : SE S exn A) (s : S) : (as_provider_error m s).1 = (m s).1.
Proof. unfold as_provider_error, try_catch. destruct (m s) as [s1 [x|e]]; [done|]. by destruct (is_provider_error e). Qed.

Lemma embed_batch_frame texts s :
  keeps (revision s) (revision (ollama_embed_batch cfg texts s).1) ∧
  sent (ollama_embed_batch cfg texts s).1 = sent s ++ (if decide (texts = []) then [] else [embed_request texts]).
Proof.
  destruct texts as [|t texts]; simpl; [rewrite app_nil_r; split; [by left|done]|]. unfold bind, call_http.
  fold (embed_request (t :: texts)). destruct (send (embed_request (t :: texts)) (outside s)) as [w out].
  set (s1 := meanwhile _ _).
  assert (keeps (revision s) (revision s1) ∧ sent s1 = sent s ++ [embed_request (t :: texts)]) as [Hk Hs].
  { unfold s1. split; [|by rewrite meanwhile_sent]. by etransitivity; [|apply meanwhile_keeps]. }
  destruct out as [r| | |]; [|done..]. destruct (is_success r); [|done]. rewrite as_provider_error_state.
  destruct (read_embeddings_frame r (length (t :: texts)) s1) as [Hk' Hs']. split; [by etransitivity|]. by rewrite <-Hs, <-Hs'.
Qed.

(** What the adapter reports of a failed answer: the text of its [error] entry,
    else its body, else a fixed phrase; at most 300 characters of it. *)
Definition error_entry (resp : response) (m : string) : Prop :=
  ∃ l, json_body resp = Some (JObj l) ∧ jget "error" l = Some (JStr m) ∧ m ≠ ""%string.
Definition reported (resp : response) (m : string) : Prop :=
  ∃ full, m = of_chars (take 300 (chars full)) ∧
    (error_entry resp full ∨
     (¬ ∃ e, error_entry resp e) ∧ full = (if bool_decide (text resp = ""%string) then "(no error body)"%string else text resp)).
Lemma upstream_error_reported resp m : reported resp m ↔ m = upstream_error resp.
Proof.
  assert (∀ e, error_entry resp e → e = match json_body resp with
    | Some (JObj l) => match jget "error" l with Some (JStr s) => s | _ => "" end | _ => "" end%string) as Hfun.
  { intros e (l&->&->&_). done. }
  unfold reported, upstream_error. split.
  - intros (full&->&[He|[Hno ->]]).
    + pose proof (Hfun _ He) as <-. destruct He as (l&_&_&Hne). by rewrite bool_decide_eq_false_2.
    + set (e := match json_body resp with Some (JObj l) => _ | _ => _ end). assert (e = ""%string) as ->; [|done].
      apply dec_stable. intros Hne. apply Hno. exists e. unfold error_entry, e in *.
      destruct (json_body resp) as [[| | | | |?|l]|] eqn:Hb; try done. destruct (jget "error" l) as [[| | | |s|?|?]|] eqn:Hj; try done.
      by exists l.
  - intros ->. eexists. split; [reflexivity|]. case_bool_decide as Hm.
    + right. split; [|done]. intros (e&He). pose proof (Hfun _ He) as He'. destruct He as (?&_&_&?). congruence.
    + left. destruct (json_body resp) as [[| | | | |?|l]|] eqn:Hb; try done. destruct (jget "error" l) as [[| | | |s|?|?]|] eqn:Hj; try done.
      by exists l.
Qed.

(** C14. An embedding call of the Ollama adapter makes no request for no texts,
    and else exactly one: a POST to [/api/embed] of the host (its trailing slashes
    dropped) whose body names the model, holds every text whole and in order, sets
    [truncate] to false and names the dimensions exactly when they are configured.
    What it returns is one vector per text, all of one length, not empty and as long
    as requested; and whatever the server does, the only exceptions are provider
    errors: over-length content exactly for a 400 whose reported message says
    context length, a connection error or a time-out exactly for one. *)
Theorem ollama_embed_contract (texts : list string) s :
  let req := Post (rstrip_slash (host cfg) +:+ "/api/embed")
    (JObj ([("model", JStr (o_model cfg)); ("input", JArr (map JStr texts)); ("truncate", JBool false)]%string
       ++ match requested_dimensions cfg with Some d => [("dimensions"%string, JInt d)] | None => [] end))
    (verify_tls cfg) in
  let out := (send req (outside s)).2 in
  let (s', r) := ollama_embed_batch cfg texts s in
  sent s' = sent s ++ (if decide (texts = []) then [] else [req]) ∧
  match r with
  | Ok vs => length vs = length texts ∧ Forall shaped vs ∧ ∃ m, Forall (λ v, length v = m) vs
  | Raise e => ∃ c, e = ProviderError c ∧ c ∈ [CONTENT_TOO_LONG; PROVIDER_ERROR; CONNECTION_ERROR; TIMEOUT]
  end ∧
  (r = Raise (ProviderError CONTENT_TOO_LONG) ↔ texts ≠ [] ∧ ∃ resp m, out = Answered resp ∧ status_code resp = 400 ∧
    reported resp m ∧ contains "context length" (str_lower m) = true) ∧
  (r = Raise (ProviderError CONNECTION_ERROR) ↔ texts ≠ [] ∧ out = ConnectError) ∧
  (r = Raise (ProviderError TIMEOUT) ↔ texts ≠ [] ∧ out = TimeoutException).
Proof.
  intros req out. change req with (embed_request texts) in *. clear req. unfold out. clear out.
  pose proof (embed_batch_frame texts s) as [_ Hs]. destruct (ollama_embed_batch cfg texts s) as [s' r] eqn:E.
  split; [exact Hs|]. clear Hs. destruct texts as [|t texts].
  { injection E as <- <-. simpl. split; [|naive_solver]. split; [done|]. split; [constructor|]. by exists 0%nat. }
  cbn [ollama_embed_batch] in E. unfold bind, call_http in E. fold (embed_request (t :: texts)) in E.
  destruct (send (embed_request (t :: texts)) (outside s)) as [w out]. simpl.
  assert (∀ c, c ∈ [CONTENT_TOO_LONG; PROVIDER_ERROR; CONNECTION_ERROR; TIMEOUT] →
    ∃ c', ProviderError c = ProviderError c' ∧ c' ∈ [CONTENT_TOO_LONG; PROVIDER_ERROR; CONNECTION_ERROR; TIMEOUT]) as Hc by eauto.
  destruct out as [resp| | |]; cbn [embed_error] in E; [|injection E as <- <-; split; [apply Hc; set_solver|naive_solver]..].
  destruct (is_success resp) eqn:Hok.
  - pose proof (read_embeddings_result resp (length (t :: texts)) (meanwhile (λ _, true) (with_outside w (log_request (embed_request (t :: texts)) s)))) as H.
    rewrite E in H. simpl in H. assert (status_code resp ≠ 400) as Hne by (unfold is_success in Hok; lia).
    destruct r as [vs|e]; [split; [done|naive_solver]|]. subst e. split; [apply Hc; set_solver|naive_solver].
  - injection E as <- <-. unfold is_context_length_rejection.
    assert ((status_code resp =? 400) && contains "context length" (str_lower (upstream_error resp)) = true ↔
      ∃ r m, Answered resp = Answered r ∧ status_code r = 400 ∧ reported r m ∧ contains "context length" (str_lower m) = true) as Hm.
    { setoid_rewrite upstream_error_reported. rewrite andb_true_iff, Z.eqb_eq. naive_solver. }
    destruct (_ && _) eqn:Eb.
    + split; [apply Hc; set_solver|]. split; [split; [intros _; split; [done|by apply Hm]|done]|split; (split; [done|by intros [_ ?]])].
    + split; [apply Hc; set_solver|]. split; [split; [done|by intros [_ ?%Hm]]|split; (split; [done|by intros [_ ?]])].
Qed.

(** ** The revision *)

Definition tags_request : request := Get (api_url cfg "/api/tags") (verify_tls cfg).
Definition cooling s : bool :=
  match last_probe_failure s with Some t => (monotonic (outside s)).2 - t <? PROBE_COOLDOWN | None => false end.

Lemma in_cooldown_frame s s' b : in_cooldown s = (s', b) →
  b = cooling s ∧ ∃ w, s' = with_outside w s.
Proof.
  unfold in_cooldown, cooling, read_monotonic. destruct (last_probe_failure s) as [t|] eqn:E.
  - destruct (monotonic (outside s)) as [w now]. intros [= <- <-]. split; [done|]. by exists w.
  - intros [= <- <-]. split; [done|]. exists (outside s). by destruct s.
Qed.

(** What a probe leaves, by what the listing shows. *)
Definition probe_result (out : http_outcome) s s' : Prop :=
  match listed_digest cfg out with
  | Some d => probe_failures s' = 0 ∧ last_probe_failure s' = None ∧ ∃ t, revision s' = mkSnapshot true d (Some t)
  | None => revision s' = revision s ∧ ∃ t, last_probe_failure s' = Some t
  end.
Lemma probe_spec s : let (s', sn) := probe cfg s in
  sn = revision s' ∧ sent s' = sent s ++ [tags_request] ∧ probe_result (send tags_request (outside s)).2 s s'
  ∧ keeps (revision s) (revision s').
Proof.
  unfold probe, call_http. fold tags_request. destruct (send tags_request (outside s)) as [w out] eqn:Hw.
  set (s1 := meanwhile _ _). unfold probe_result. cbn [snd].
  assert (revision s1 = revision s ∧ sent s1 = sent s ++ [tags_request]) as [Hr Hs].
  { unfold s1. by rewrite meanwhile_embedding, meanwhile_sent. }
  destruct (listed_digest cfg out) as [d|] eqn:Hd.
  - unfold read_utc. destruct (utc_clock (outside s1)) as [w' t]. simpl. rewrite Hs. do 2 (split; [done|]). split; [eauto|].
    right. exists d, t. split; [done|]. left. exists tags_request, (outside s). by rewrite Hw.
  - unfold read_monotonic. destruct (monotonic (outside s1)) as [w' t]. simpl. rewrite Hs, Hr.
    do 2 (split; [done|]). split; [eauto|done].
Qed.

(** The adapter once the lock was waited for. *)
Definition after_wait s : ollama W := meanwhile (λ _, true) (with_outside (acquire (outside s)).1 s).
(** Whether this refresh probes. *)
Definition probes (force : bool) s : bool :=
  (acquire (outside s)).2 && (force || negb (known (revision (after_wait s)) || cooling (after_wait s))).

(** A refresh is a probe, or nothing but a wait and a look at the clock. *)
Lemma refresh_split (force : bool) s : ∃ w, let s1 := with_outside w (after_wait s) in
  ollama_refresh_revision cfg force s = if probes force s then probe cfg s1 else (s1, revision s1).
Proof.
  unfold ollama_refresh_revision, probes, after_wait. destruct (acquire (outside s)) as [w0 got]. cbn [fst snd].
  set (s1 := meanwhile _ _). assert (s1 = with_outside (outside s1) s1) as Hself by (by destruct s1).
  destruct got; simpl; [|by exists (outside s1); rewrite <-Hself]. destruct force; simpl; [by exists (outside s1); rewrite <-Hself|].
  destruct (known (revision s1)); simpl; [by exists (outside s1); rewrite <-Hself|].
  destruct (in_cooldown s1) as [s2 b] eqn:Hc. apply in_cooldown_frame in Hc as (->&w&->). exists w. by destruct (cooling s1).
Qed.
Lemma after_wait_frame s : sent (after_wait s) = sent s ∧ keeps (revision s) (revision (after_wait s)).
Proof. unfold after_wait. rewrite meanwhile_sent. split; [done|]. apply (meanwhile_keeps _ (with_outside _ s)). Qed.
Lemma refresh_keeps force s : let (s', sn) := ollama_refresh_revision cfg force s in sn = revision s' ∧ keeps (revision s) sn.
Proof.
  destruct (refresh_split force s) as [w ->]. destruct (after_wait_frame s) as [_ Hk]. destruct (probes force s); [|done].
  pose proof (probe_spec (with_outside w (after_wait s))) as H. destruct (probe cfg _) as [s' sn].
  destruct H as (->&_&_&Hk'). split; [done|]. by transitivity (revision (after_wait s)).
Qed.

(** A refresh sends exactly one request, to list the models, when it got the
    lock and is forced, or the revision is unknown and no probe failed in the last
    thirty seconds, and none otherwise; the revision it returns and leaves is the
    listed digest when the model is listed and is unchanged when anything else
    happens, so that a verified revision is never lost and never made up. *)
Theorem refresh_outcome (force : bool) s :
  let (s', sn) := ollama_refresh_revision cfg force s in
  sn = revision s' ∧ keeps (revision s) sn ∧
  if probes force s
  then sent s' = sent s ++ [tags_request] ∧ ∃ w, probe_result (send tags_request w).2 (after_wait s) s'
  else sent s' = sent s ∧ sn = revision (after_wait s).
Proof.
  pose proof (refresh_keeps force s) as Hk. destruct (refresh_split force s) as [w E]. rewrite E in Hk |- *.
  destruct (after_wait_frame s) as [Hs _]. destruct (probes force s); [|by destruct Hk].
  pose proof (probe_spec (with_outside w (after_wait s))) as H. destruct (probe cfg _) as [s' sn].
  destruct H as (_&Hsent&Hr&_). destruct Hk as [-> Hk]. do 2 (split; [done|]). split; [by rewrite Hsent, <-Hs|]. by exists w.
Qed.
End ollama.

(** ** Probes of refused writes

    A write that finds the revision unknown asks for a refresh.  While the server
    does not list the model, such refreshes probe at most every thirty seconds. *)
Section cooldown.
Context {W : Type} `{!Outside W} (cfg : ollama_settings) (time : W → Z).
(** Time does not run backwards, and a clock shows it. *)
Record steady : Prop := mkSteady {
  steady_send r w : time w ≤ time (send r w).1;
  steady_acts w : time w ≤ time (acts w).1 ∧ (acts w).2 = [];
  steady_acquire w : time w ≤ time (acquire w).1;
  steady_clock w : time w ≤ (monotonic w).2 ≤ time (monotonic w).1;
}.
Context (Hsteady : steady) (Hdown : ∀ r w, listed_digest cfg (send r w).2 = None).
Implicit Types (s : ollama W).

Fixpoint refreshes (n : nat) s : ollama W :=
  match n with O => s | S n => refreshes n (ollama_refresh_revision cfg false s).1 end.

Lemma alone_meanwhile allowed s : ∃ w, meanwhile allowed s = with_outside w s ∧ time (outside s) ≤ time w.
Proof.
  unfold meanwhile. destruct (steady_acts Hsteady (outside s)) as [Ht Ha]. destruct (acts (outside s)) as [w l]. simpl in *. subst l.
  by exists w.
Qed.
(** [k] probes since the time [t0]: the last one failed at least
    [(k - 1)] cooldowns later. *)
Definition spaced (t0 : Z) (k : nat) s : Prop :=
  known (revision s) = false ∧ t0 ≤ time (outside s) ∧
  match k with
  | O => True
  | S k => ∃ t, last_probe_failure s = Some t ∧ t0 + PROBE_COOLDOWN * Z.of_nat k ≤ t ≤ time (outside s)
  end.
Lemma spaced_later t0 k s w : time (outside s) ≤ time w → spaced t0 k s → spaced t0 k (with_outside w s).
Proof.
  intros Hw (Hk&Ht&Hl). split; [done|]. simpl. split; [lia|]. destruct k as [|k]; [done|]. destruct Hl as (t&->&?).
  exists t. split; [done|lia].
Qed.

Lemma failed_probe_spaced t0 k s : spaced t0 k s →
  (∀ t, last_probe_failure s = Some t → t + PROBE_COOLDOWN ≤ time (outside s)) →
  spaced t0 (S k) (probe cfg s).1 ∧ sent (probe cfg s).1 = sent s ++ [tags_request cfg].
Proof.
  intros Hs Hc. unfold probe, call_http. fold (tags_request cfg). pose proof (Hdown (tags_request cfg) (outside s)) as Hd.
  pose proof (steady_send Hsteady (tags_request cfg) (outside s)) as Hw. destruct (send (tags_request cfg) (outside s)) as [w out].
  simpl in Hd, Hw. rewrite Hd. destruct (alone_meanwhile is_embedding (with_outside w (log_request (tags_request cfg) s))) as (w'&->&Hw').
  unfold read_monotonic. cbn [outside with_outside]. pose proof (steady_clock Hsteady w') as Hm.
  destruct (monotonic w') as [w'' now]. simpl in *. split; [|done].
  destruct Hs as (Hk&Ht&Hl). split; [done|]. simpl. split; [lia|]. exists now. split; [done|]. destruct k as [|k]; [lia|].
  destruct Hl as (t&Hf&Ht1). specialize (Hc t Hf). lia.
Qed.
Lemma refresh_spaced t0 k s : spaced t0 k s → ∃ j, (j ≤ 1)%nat ∧
  spaced t0 (k + j) (ollama_refresh_revision cfg false s).1 ∧
  sent (ollama_refresh_revision cfg false s).1 = sent s ++ replicate j (tags_request cfg).
Proof.
  intros Hs. unfold ollama_refresh_revision. pose proof (steady_acquire Hsteady (outside s)) as Ha.
  destruct (acquire (outside s)) as [w0 got]. simpl in Ha.
  destruct (alone_meanwhile (λ _, true) (with_outside w0 s)) as (w&->&Hw). cbn [outside with_outside] in Hw.
  change (with_outside w (with_outside w0 s)) with (with_outside w s).
  assert (spaced t0 k (with_outside w s)) as Hs1 by (apply spaced_later; [lia|done]).
  assert (∃ j, (j ≤ 1)%nat ∧ spaced t0 (k + j) (with_outside w s) ∧ sent s = sent s ++ replicate j (tags_request cfg)) as Hnone.
  { exists 0%nat. rewrite Nat.add_0_r, app_nil_r. by split; [lia|]. }
  destruct got; simpl; [|done]. destruct Hs as (Hk&_). rewrite Hk. unfold in_cooldown, read_monotonic. simpl.
  destruct (last_probe_failure s) as [t|] eqn:Ef.
  - pose proof (steady_clock Hsteady w) as Hm. destruct (monotonic w) as [w' now]. simpl in Hm.
    change (with_outside w' (with_outside w s)) with (with_outside w' s).
    assert (spaced t0 k (with_outside w' s)) as Hs2 by (apply (spaced_later _ _ (with_outside w s)); [simpl; lia|done]).
    destruct (now - t <? PROBE_COOLDOWN) eqn:Ec; simpl.
    { exists 0%nat. rewrite Nat.add_0_r, app_nil_r. by split; [lia|]. }
    exists 1%nat. rewrite Nat.add_1_r. split; [done|]. apply (failed_probe_spaced _ _ _ Hs2).
    simpl. rewrite Ef. intros t' [= <-]. lia.
  - exists 1%nat. rewrite Nat.add_1_r. split; [done|]. apply (failed_probe_spaced _ _ _ Hs1). simpl. by rewrite Ef.
Qed.

(** While the server does not list the model, writes that ask again and again
    for its revision probe it at most once every thirty seconds: after any number
    of unforced refreshes, the cooldowns between the probes sent fit in the time
    that passed, and every request sent is a probe. *)
Theorem unforced_probes_spaced (n : nat) s :
  known (revision s) = false →
  ∃ k, sent (refreshes n s) = sent s ++ replicate k (tags_request cfg) ∧
    PROBE_COOLDOWN * (Z.of_nat k - 1) ≤ time (outside (refreshes n s)) - time (outside s) ∧
    known (revision (refreshes n s)) = false.
Proof.
  intros Hk. assert (∀ k x, spaced (time (outside s)) k x → ∃ j, sent (refreshes n x) = sent x ++ replicate j (tags_request cfg) ∧
    spaced (time (outside s)) (k + j) (refreshes n x)) as H.
  { induction n as [|n IH]; intros k x Hx; simpl.
    { exists 0%nat. by rewrite Nat.add_0_r, app_nil_r. }
    destruct (refresh_spaced _ _ _ Hx) as (j&_&Hj&Hsent). destruct (IH _ _ Hj) as (j'&Hsent'&Hj').
    exists (j + j')%nat. rewrite replicate_add, app_assoc, <-Hsent, Nat.add_assoc. done. }
  destruct (H 0%nat s) as (k&Hsent&Hk'&Ht&Hl); [by split; [|split; [lia|]]|]. exists k. split; [done|]. split; [|done].
  destruct k as [|k]; simpl in Hl; [unfold PROBE_COOLDOWN, SECOND; lia|]. destruct Hl as (t&_&?). lia.
Qed.
End cooldown.

(** ** The laws of the port *)

(** Known revisions are listed ones. *)
Definition only_listed {W} `{!Outside W} (cfg : ollama_settings) (sn : RevisionSnapshot) : Prop :=
  known sn = true → Listed cfg (value sn).
Lemma only_listed_keeps {W} `{!Outside W} (cfg : ollama_settings) a b : keeps cfg a b → only_listed cfg a → only_listed cfg b.
Proof. intros [->|(d&t&->&Hd)] Ha; [done|]. by intros _. Qed.

Lemma first_of_ok {S A} (m : SE S exn (list A)) s v :
  ((let* l := m in first_of l) s).2 = Ok v → ∃ vs, (m s).2 = Ok vs ∧ v ∈ vs.
Proof.
  unfold bind, first_of. destruct (m s) as [s' [[|x vs]|e]]; simpl; [done| |done]. intros [= <-]. exists (x :: vs).
  split; [done|by left].
Qed.
Lemma first_of_state {S A} (m : SE S exn (list A)) s : ((let* l := m in first_of l) s).1 = (m s).1.
Proof. unfold bind, first_of. by destruct (m s) as [s' [[|x vs]|e]]. Qed.

Lemma ollama_batch_shaped {W} `{!Outside W} cfg texts (s : ollama W) vs :
  (ollama_embed_batch cfg texts s).2 = Ok vs → Forall (shaped cfg) vs.
Proof.
  destruct texts as [|t texts]; [intros [= <-]; constructor|]. unfold ollama_embed_batch, bind, call_http.
  destruct (send _ _) as [w out]. destruct out as [r| | |]; try done. destruct (is_success r); [|done].
  match goal with |- (as_provider_error ?m ?s).2 = _ → _ => pose proof (read_embeddings_result cfg r (length (t :: texts)) s) as H end.
  intros Hv. rewrite Hv in H. apply H.
Qed.
#[export] Program Instance ollama_laws {W} `{!Outside W} (cfg : ollama_settings) : @ProviderLaws (ollama W) (ollama_port cfg) := {|
  port_inv s := only_listed cfg (revision s); verified := Listed cfg; sound := shaped cfg |}.
Next Obligation.
  intros W HW cfg t s Hs. simpl. unfold ollama_embed. split.
  - rewrite first_of_state. by eapply only_listed_keeps; [apply embed_batch_frame|].
  - intros v (vs&Hvs&Hv)%first_of_ok. eapply Forall_forall; [by eapply ollama_batch_shaped|done].
Qed.
Next Obligation.
  intros W HW cfg ts s Hs. simpl. split; [by eapply only_listed_keeps; [apply embed_batch_frame|]|].
  intros vs. apply ollama_batch_shaped.
Qed.
Next Obligation.
  intros W HW cfg f s Hs. simpl. pose proof (refresh_keeps cfg f s) as H. destruct (ollama_refresh_revision cfg f s) as [s' sn].
  simpl. destruct H as [-> Hk]. split; by eapply only_listed_keeps.
Qed.
Next Obligation. intros W HW cfg s Hs. exact Hs. Qed.

(** OpenAI has no revision to verify. *)
Lemma openai_batch_sound {W} `{!Client W} cfg texts (w : W) vs :
  (openai_embed_batch cfg texts w).2 = Ok vs → Forall (λ v, v ≠ []) vs.
Proof.
  unfold openai_embed_batch, bind. destruct (create _ _ _ w) as [w' [e|l]]; [done|].
  match goal with |- (as_provider_error ?m ?s).2 = _ → _ => destruct (as_provider_error m s) as [w2 r] eqn:E end.
  intros Hr. simpl in Hr. subst r. rewrite as_provider_error_ok in E. unfold bind, lift_result in E.
  destruct (validate_embeddings _ _ _) as [[]|] eqn:Hv; [|done]. apply validate_ok in Hv as (l'&[= <-]&_&Hl).
  injection E as _ E. destruct l as [|v l]; [injection E as <-; constructor|]. destruct Hl as (n&Hn&Hl&_).
  eapply Forall_impl; [by eapply normalized_ok|]. intros x Hx ->. by destruct n.
Qed.
#[export] Program Instance openai_laws {W} `{!Client W} (cfg : openai_settings) : @ProviderLaws W (openai_port cfg) := {|
  port_inv _ := True; verified rv := rv = None; sound v := v ≠ [] |}.
Next Obligation.
  intros W HW cfg t w _. simpl. split; [done|]. unfold openai_embed. intros v (vs&Hvs&Hv)%first_of_ok.
  eapply (proj1 (Forall_forall (λ v, v ≠ []) vs)); [by eapply openai_batch_sound|done].
Qed.
Next Obligation. intros W HW cfg ts w _. simpl. split; [done|]. intros vs. apply openai_batch_sound. Qed.
Next Obligation. done. Qed.
Next Obligation. done. Qed.

(** An embedding call of the OpenAI adapter returns one vector per text, all
    of one length and not empty; and whatever the SDK raises or returns, the only
    exceptions are provider errors, over-length content being reported exactly
    where the error's code or a client error's message says so. *)
Theorem openai_embed_contract {W : Type} `{!Client W} (cfg : openai_settings) (texts : list string) (w : W) :
  let answer := (create texts (a_model cfg) (a_dimensions cfg) w).2 in
  match (openai_embed_batch cfg texts w).2 with
  | Ok vs => length vs = length texts ∧ ∃ n, Forall (λ v, length v = n) vs ∧ (texts ≠ [] → n ≠ 0%nat)
  | Raise e => e = ProviderError PROVIDER_ERROR ∨ e = ProviderError CONTENT_TOO_LONG ∧
      ∃ x, answer = inl x ∧
        (x_code x = Some "context_length_exceeded"%string ∨
         ∃ status m, x_status x = Some status ∧ 400 ≤ status < 500 ∧ m ∈ OVERLENGTH_MARKERS ∧
           contains m (str_lower (default (x_text x) (given (x_message x)))) = true)
  end.
Proof.
  unfold openai_embed_batch, bind. destruct (create texts (a_model cfg) (a_dimensions cfg) w) as [w' [x|l]]; simpl.
  - unfold classify_error. case_bool_decide as Hc; [right; eauto 10|].
    destruct (x_status x) as [status|] eqn:Hst; [|by left]. destruct (_ && _) eqn:Hr; [|by left].
    destruct (existsb _ OVERLENGTH_MARKERS) eqn:Hm; [|by left]. right. split; [done|]. exists x. split; [done|]. right.
    apply existsb_exists in Hm as (m&Hin%list_elem_of_In&Hm). exists status, m. split; [done|]. split; [lia|]. done.
  - match goal with |- match (as_provider_error ?m ?s).2 with _ => _ end => destruct (as_provider_error m s) as [w2 r] eqn:E end.
    destruct r as [vs|e]; simpl.
    + rewrite as_provider_error_ok in E. unfold bind, lift_result in E.
      destruct (validate_embeddings _ _ _) as [[]|] eqn:Hv; [|done]. apply validate_ok in Hv as (l'&[= <-]&Hn&Hl).
      injection E as _ E. pose proof E as Hlen%each_length. split; [congruence|]. destruct l as [|v l].
      * injection E as <-. exists 0%nat. split; [constructor|]. by destruct texts.
      * destruct Hl as (n&Hne&Hl&_). exists n. split; [by eapply normalized_ok|done].
    + left. apply as_provider_error_raise in E as (e0&E&->). unfold bind, lift_result in E.
      assert (adapter_error e0) as [-> | ->]; [|done|done]. destruct (validate_embeddings _ _ _) as [u|e1] eqn:Hv.
      * injection E as _ E. by eapply normalize_all_raises.
      * injection E as _ <-. apply validate_raises in Hv as [-> | ->]; [by left|by right].
Qed.
