(* ===== verification/AdapterRuns.v ===== *)
(** * The service over the adapters

    The stub's loop, its laws, and the service running over the Ollama adapter:
    every row it leaves is stamped with a revision that a listing showed. *)

From S2P Require Import Prelude PyStr PyText Sha256 Domain PyNum Sql Store Transactions Port StoreProps SearchProps Embedding EmbeddingProps.
From S2P Require Import PyRepr Config Vectors Adapters AdapterProps.
Local Open Scope Z_scope.
Local Open Scope prog_scope.

(** ** The length of a digest *)

Lemma sha_round_length st kw : length st = 8%nat → length (sha_round st kw) = 8%nat.
Proof. intros H. unfold sha_round. by do 9 (destruct st as [|? st]; [done|]). Qed.
Lemma compress_length h b : length h = 8%nat → length (compress h b) = 8%nat.
Proof.
  intros H. unfold compress. rewrite length_zip_with, H.
  assert (∀ l st, length st = 8%nat → length (foldl sha_round st l) = 8%nat) as Hf.
  { induction l as [|x l IH]; intros st Hst; simpl; [done|]. by apply IH, sha_round_length. }
  by rewrite Hf.
Qed.
Lemma sha256_length msg : length (sha256 msg) = 32%nat.
Proof.
  unfold sha256. set (bs := blocks_of _ _). assert (∀ st, length st = 8%nat → length (foldl compress st bs) = 8%nat) as H.
  { induction bs as [|b bs IH]; intros st Hst; simpl; [done|]. by apply IH, compress_length. }
  specialize (H initial_hash eq_refl). remember (foldl compress initial_hash bs) as l eqn:E. clear E.
  do 8 (destruct l as [|? l]; [done|]). by destruct l.
Qed.
Lemma words_length l k : length l = (4 * k)%nat → length (words_of l) = k.
Proof.
  revert l. induction k as [|k IH]; intros l Hl; [by destruct l|].
  do 4 (destruct l as [|? l]; [simpl in Hl; lia|]). simpl in Hl |- *. f_equal. apply IH. lia.
Qed.

(** ** The stub *)

Lemma stub_fill_length fuel digest c dims raw :
  (length raw ≤ dims)%nat → (dims ≤ fuel + length raw)%nat → length (stub_fill fuel digest c dims raw) = dims.
Proof.
  revert c raw. induction fuel as [|fuel IH]; intros c raw Hle Hf; cbn [stub_fill]; [lia|].
  destruct (Nat.leb_spec dims (length raw)); [lia|].
  assert (length (map stub_component (words_of (sha256 (digest ++ be_bytes c)))) = 8%nat) as H8.
  { rewrite length_map. apply words_length. by rewrite sha256_length. }
  apply IH; rewrite length_app, length_take, H8; lia.
Qed.

Lemma sum_floats_total hi lo l : ∃ f, sum_floats hi lo (map NFloat l) = Ok (NFloat f).
Proof. revert hi lo. induction l as [|x l IH]; intros hi lo; simpl; [eauto|apply IH]. Qed.
Lemma normalize_floats l : ∃ r, normalize_unit (map NFloat l) = Ok r ∧ length r = length l.
Proof.
  assert (∃ m, magnitude (map NFloat l) = Ok m) as [m Hm].
  { unfold magnitude, py_sum. destruct l as [|x l]; [eexists; reflexivity|]. cbn [map square sum_ints].
    assert (float_of_int 0 = Ok (S754_zero false)) as -> by reflexivity. cbn [result_bind].
    assert (map square (map NFloat l) = map NFloat (map (λ f, fmul f f) l)) as -> by by rewrite !map_map.
    destruct (sum_floats_total (fadd (S754_zero false) (fmul x x)) (S754_zero false) (map (λ f, fmul f f) l)) as [f ->].
    simpl. eauto. }
  assert (each as_float (map NFloat l) = Ok l) as He by (clear; induction l as [|x l IH]; simpl; [done|by rewrite IH]).
  unfold normalize_unit. rewrite Hm, He. cbn [result_bind]. destruct (SFeqb m (S754_zero false)); [by exists l|].
  eexists. split; [reflexivity|]. by rewrite length_map.
Qed.

(** The stub's loop ends and fills every dimension: it returns, for any text
    and any number of dimensions, a vector of exactly that length, and a batch of
    them for a batch of texts. *)
Theorem stub_total (dims : Z) (t : string) (texts : list string) :
  (∃ v, stub_embed dims t = Ok v ∧ length v = Z.to_nat dims) ∧
  ∃ vs, stub_embed_batch dims texts = Ok vs ∧ length vs = length texts ∧ Forall (λ v, length v = Z.to_nat dims) vs.
Proof.
  assert (∀ t, ∃ v, stub_embed dims t = Ok v ∧ length v = Z.to_nat dims) as H.
  { intros t'. unfold stub_embed. set (l := stub_fill _ _ _ _ _). destruct (normalize_floats l) as (r&->&Hr).
    exists r. split; [done|]. rewrite Hr. unfold l. apply stub_fill_length; simpl; lia. }
  split; [apply H|]. induction texts as [|x l IH]; simpl; [by exists []|]. destruct (H x) as (v&Hv&Hlen).
  destruct IH as (vs&Hvs&Hl&HF). unfold stub_embed_batch in *. simpl. rewrite Hv, Hvs. cbn [result_bind].
  exists (v :: vs). simpl. split; [done|]. split; [by f_equal|]. by constructor.
Qed.

(** ** Ollama *)

Section ollama_service.
Context {S W : Type} `{HF : FTS5} `{!MemoryStorePort S} `{!Outside W} (cfg : ollama_settings).
Context (utc_now : nat → Z).
#[local] Instance adapter : EmbeddingPort (ollama W) := ollama_port cfg.
#[local] Instance adapter_laws : ProviderLaws (ollama W) := ollama_laws cfg.
Notation Sv := (svc S (ollama W)).

(** Everything the service does that may write a vector, in any order. *)
Inductive service_step : Sv → Sv → Prop :=
| step_generate s k c force : service_step s (generate_for_memory utc_now k c force s).1
| step_backfill s pid force : service_step s (generate_missing utc_now pid force s).1.

(** C8. The service over Ollama never makes a revision up: started with no stored
    vectors and an adapter that knows nothing, through any sequence of saves and
    backfills and whatever the server, the network and the other threads do,
    every row in Ollama's space is stamped with a digest that some listing
    showed for the model, and every vector has the requested number of
    components, at least one. *)
Theorem ollama_stamps_listed (t : S) (w : W) (others : list (S → S)) (s : Sv) :
  st_ok t → wf (st_view t) → Forall good_thread others → embeddings (st_view t) = ∅ →
  rtc service_step (new_service t (new_ollama w) others) s →
  ∀ k r, embeddings (st_view (sv_store s)) !! k = Some r →
    e_provider r = "ollama"%string → e_model r = o_model cfg → e_settings_fingerprint r = ollama_fingerprint cfg →
    Listed cfg (e_model_revision r) ∧
    (e_status r = "ok"%string → e_embedding r ≠ [] ∧
      ∀ d, requested_dimensions cfg = Some d → Z.of_nat (length (e_embedding r)) = d).
Proof.
  intros Hok Hw Ho He Hr. assert (svc_attributed s) as (_&_&Ha).
  { assert (∀ x, rtc service_step x s → svc_attributed x → svc_attributed s) as H.
    { clear Hr. intros x. induction 1 as [|x y z Hxy _ IH]; [done|]. intros Hx. apply IH.
      destruct Hxy; [by apply (attributed_generate utc_now _ _ _ s)|by apply (attributed_missing utc_now _ _ s)]. }
    apply (H _ Hr). split; [done|]. split; [done|]. simpl. intros k r Hk. by rewrite He in Hk. }
  intros k r Hk Hp Hm Hf. destruct (Ha k r Hk Hp Hm Hf) as [Hv Hst]. split; [done|]. intros [c (v&_&[[Hne Hd] _]&Hpack)]%Hst.
  assert (length (e_embedding r) = length v) as Hlen.
  { clear -Hpack. revert Hpack. generalize (e_embedding r). induction v as [|x v IH]; intros b; simpl; [by intros [= <-]|].
    unfold result_bind. destruct (round_f32 x); [|done]. destruct (pack_floats v) as [ys|]; [|done]. intros [= <-].
    simpl. f_equal. by apply IH. }
  rewrite Hlen. split; [|done]. intros E. destruct v; [done|]. by rewrite E in Hlen.
Qed.
End ollama_service.

(** * The adapters on a concrete server

    A server that answers every request one second later, and lists the model or
    refuses; the clock is the state of the world.  The properties of the adapters
    that have hypotheses are applied here. *)

#[local] Existing Instance substring_fts.

Definition toy_settings : ollama_settings := mkOllama "nomic" (Some 2) "http://localhost:11434" true.
Definition listing : json := JObj [("models", JArr [JObj [("name", JStr "nomic:latest"); ("digest", JStr "d1")]])]%string.
Definition toy_response (r : request) : response :=
  match r with
  | Get _ _ => mkResponse 200 (Some listing) ""
  | Post _ _ _ => mkResponse 200 (Some (JObj [("embeddings", JArr [JArr [JFloat "3.0"; JInt 4]])]%string)) ""
  end.
Definition slow (answer : request → http_outcome) : Outside Z := {|
  send r w := (w + SECOND, answer r);
  acts w := (w, []);
  acquire w := (w, true);
  monotonic w := (w, w);
  utc_clock w := (w, w);
|}.
Definition good_server : Outside Z := slow (λ r, Answered (toy_response r)).
Definition dead_server : Outside Z := slow (λ _, ConnectError).

Lemma dead_steady : @steady Z dead_server (λ w, w).
Proof. split; intros; simpl; unfold SECOND; first [lia|split; [lia|done]]. Qed.

Lemma unforced_probes_spaced_witness :
  ∃ k, sent (@refreshes Z dead_server toy_settings 40 (new_ollama 0)) = replicate k (tags_request toy_settings) ∧
    PROBE_COOLDOWN * (Z.of_nat k - 1) ≤ outside (@refreshes Z dead_server toy_settings 40 (new_ollama 0)) - 0.
Proof.
  destruct (@unforced_probes_spaced Z dead_server toy_settings (λ w, w) dead_steady (λ _ _, eq_refl) 40 (new_ollama 0) eq_refl)
    as (k&Hk&Ht&_).
  exists k. split; [exact Hk|exact Ht].
Defined.

Definition after_save := (@generate_for_memory store (ollama Z) substring_fts SqliteStore (@ollama_port Z good_server toy_settings)
  (λ n, 1000 + Z.of_nat n) "m1" "note m1" false (new_service sample_store (new_ollama 0) [])).1.

Lemma ollama_stamps_listed_witness :
  ∃ r, embeddings (view (sv_store after_save)) !! "m1"%string = Some r ∧
    @Listed Z good_server toy_settings (e_model_revision r) ∧ e_model_revision r = Some "d1"%string ∧ length (e_embedding r) = 2%nat.
Proof.
  assert (Hr : match embeddings (view (sv_store after_save)) !! "m1"%string with
    | Some r => e_provider r = "ollama"%string ∧ e_model r = "nomic"%string ∧ e_settings_fingerprint r = ollama_fingerprint toy_settings
        ∧ e_status r = "ok"%string ∧ e_model_revision r = Some "d1"%string
    | None => False end) by (vm_compute; repeat split; reflexivity).
  destruct (embeddings (view (sv_store after_save)) !! "m1"%string) as [r|] eqn:E; [|destruct Hr].
  destruct Hr as (Hp&Hm&Hf&Hst&Hrev). exists r. split; [reflexivity|].
  destruct (@ollama_stamps_listed store Z substring_fts SqliteStore good_server toy_settings (λ n, 1000 + Z.of_nat n) sample_store 0 [] after_save
    ready_sample wf_sample (List.Forall_nil _) ltac:(vm_compute; reflexivity)
    (rtc_once _ _ (step_generate _ _ _ "m1" "note m1" false)) "m1"%string r E Hp Hm Hf) as [Hl Hv].
  split; [exact Hl|]. split; [exact Hrev|]. destruct (Hv Hst) as [_ Hd]. specialize (Hd 2 eq_refl). lia.
Defined.
