(* ===== verification/Background.v ===== *)
(** * The background backfill and the revision refresher

    [embedding_service.py] where it runs by itself: a backfill on a worker
    thread that nothing waits for, and the refresher that re-probes the model's
    revision and starts a backfill when it changed; with [memory_embed], which
    starts one for an operator.  The event loop runs one handler at a time, so a
    handler is one step; a run of [generate_missing] is one step as well, and a
    run in progress elsewhere is a caller that holds the backfill lock.  A task
    that is cancelled leaves its worker thread to finish. *)

From S2P Require Import Prelude PyStr Sha256 Domain Sql Store Transactions Port Embedding Search Envelope Config Http Serializers UseCases Surfaces.
Local Open Scope Z_scope.
Local Open Scope prog_scope.

(** ** How a run ended *)

Inductive task_end := Cancelled | Excepted (e : exn) | Returned (r : BackfillResult).
(** [type(exc).__name__] *)
Definition exn_type (e : exn) : string :=
  match e with
  | NotFoundError _ => "NotFoundError" | ValidationError _ => "ValidationError" | ConfigError _ => "ConfigError"
  | ProviderError _ => "ProviderError" | RevisionUnknownError => "RevisionUnknownError"
  | RevisionChangedError => "RevisionChangedError" | ValueError => "ValueError" | TypeError => "TypeError"
  | KeyError => "KeyError" | IndexError => "IndexError" | AssertionError => "AssertionError"
  | RuntimeError _ => "RuntimeError" | OverflowError => "OverflowError" | UnicodeError => "UnicodeError"
  | FileNotFoundError => "FileNotFoundError" | OSError => "OSError" | TimeoutError => "TimeoutError"
  | TimeoutExpired => "TimeoutExpired" | PermissionError => "PermissionError" | AttributeError => "AttributeError"
  | BackupValidationError => "BackupValidationError" | BackupCatalogError => "BackupCatalogError"
  | IntegrityError _ => "IntegrityError" | OperationalError _ => "OperationalError"
  | SqliteError _ _ _ => "DatabaseError" | RestoreError _ => "RestoreError"
  end%string.
(** The entry health shows. *)
Record background_outcome := mkOutcome {
  bo_outcome : string;
  bo_trigger : string;
  bo_finished_at : Z;
  bo_error_type : option string;
  bo_counts : option (Z * Z * Z);
}.
(** [embedding_service.py:172-210 EmbeddingService._record_background_outcome] *)
Definition record_background_outcome (t : task_end) (trigger : string) (finished_at : Z) : background_outcome :=
  match t with
  | Cancelled => mkOutcome "cancelled" trigger finished_at None None
  | Excepted e => mkOutcome "error" trigger finished_at (Some (exn_type e)) None
  | Returned r => mkOutcome (outcome r) trigger finished_at None (Some (generated r, failed r, tombstoned r))
  end.
Definition ended (r : result exn BackfillResult) : task_end := match r with Ok b => Returned b | Raise e => Excepted e end.
(** [embedding_service.py:212-225 EmbeddingService._run_background_backfill] The
    outcome label of the job metric. *)
Definition run_metric (t : task_end) : option string :=
  match t with Cancelled => Some "cancel"%string | Excepted _ => Some "failure"%string | Returned r => job_metric_outcome (outcome r) end.

(** ** State *)

(** Where the refresher's loop is; a sleep is in seconds. *)
Inductive refresher := Off | Probing | Verified (sn : RevisionSnapshot) | Sleeping (seconds : Z).
(** [embedding_service.py:120-138 EmbeddingService.__init__] *)
Record background := mkBackground {
  b_task : option (bool * string);  (** [force] and the trigger of the running task *)
  b_orphans : list bool;  (** worker threads of cancelled tasks *)
  b_last : option background_outcome;
  b_auto : bool;
  b_refresher : refresher;
  b_held : bool;  (** another caller is inside [generate_missing] *)
}.
Definition new_background : background := mkBackground None [] None false Off false.
(** [embedding_service.py:46-46 _REVISION_REFRESH_KNOWN_SECONDS] *)
Definition REFRESH_KNOWN : Z := 300.
(** [embedding_service.py:47-47 _REVISION_REFRESH_UNKNOWN_SECONDS] *)
Definition REFRESH_UNKNOWN : Z := 30.

Definition with_task (t : option (bool * string)) (b : background) : background :=
  mkBackground t (b_orphans b) (b_last b) (b_auto b) (b_refresher b) (b_held b).
Definition with_orphans (l : list bool) (b : background) : background :=
  mkBackground (b_task b) l (b_last b) (b_auto b) (b_refresher b) (b_held b).
Definition with_last (o : background_outcome) (b : background) : background :=
  mkBackground (b_task b) (b_orphans b) (Some o) (b_auto b) (b_refresher b) (b_held b).
Definition with_auto (a : bool) (b : background) : background :=
  mkBackground (b_task b) (b_orphans b) (b_last b) a (b_refresher b) (b_held b).
Definition with_refresher (r : refresher) (b : background) : background :=
  mkBackground (b_task b) (b_orphans b) (b_last b) (b_auto b) r (b_held b).
Definition with_held (h : bool) (b : background) : background :=
  mkBackground (b_task b) (b_orphans b) (b_last b) (b_auto b) (b_refresher b) h.

Section background.
Context {S E : Type} `{HF : FTS5} `{!MemoryStorePort S} `{!EmbeddingPort E}.
Context (utc_now : nat → Z).
Notation B := (svc S E * background)%type.

Definition on_bg (f : background → background) (x : B) : B := (x.1, f x.2).
(** A part of the service's work. *)
Definition serve {A} (m : SE (svc S E) exn A) (x : B) : B * result exn A := let (s, r) := m x.1 in ((s, x.2), r).

(** [embedding_service.py:140-144 EmbeddingService.backfill_running] *)
Definition backfill_running (x : B) : bool :=
  match b_task x.2 with Some _ => true | None => false end || backfill_locked x.1.
(** [embedding_service.py:151-170 EmbeddingService.start_background_backfill] *)
Definition start_background_backfill (force : bool) (trigger : string) (x : B) : B * bool :=
  if backfill_running x then (x, false) else (on_bg (with_task (Some (force, trigger))) x, true).
Definition finish (t : task_end) (trigger : string) (x : B) : B :=
  let (x, at_) := serve (read_clock utc_now) x in
  match at_ with
  | Ok now => on_bg (with_last (record_background_outcome t trigger now)) (on_bg (with_task None) x)
  | Raise _ => x
  end.
(** [embedding_service.py:212-218 EmbeddingService._run_background_backfill] The
    worker thread runs, and the task ends with what it returned or raised. *)
Definition run_background_backfill (x : B) : B :=
  match b_task x.2 with
  | Some (force, trigger) => let (x, r) := serve (generate_missing utc_now None force) x in finish (ended r) trigger x
  | None => x
  end.
(** The task is cancelled: its thread goes on. *)
Definition cancel_background (x : B) : B :=
  match b_task x.2 with
  | Some (force, trigger) => finish Cancelled trigger (on_bg (λ b, with_orphans (force :: b_orphans b) b) x)
  | None => x
  end.

(** [embedding_service.py:229-248 EmbeddingService.start_revision_refresher] *)
Definition start_revision_refresher (auto_backfill : bool) (x : B) : B * bool :=
  match b_refresher x.2 with
  | Off => if negb ep_tracks_revision then (x, false) else (on_bg (λ b, with_refresher Probing (with_auto auto_backfill b)) x, true)
  | _ => (x, false)
  end.
(** [embedding_service.py:250-256 EmbeddingService.stop_revision_refresher] *)
Definition stop_revision_refresher (x : B) : B := on_bg (with_refresher Off) x.
(** [embedding_service.py:281-288 EmbeddingService._reconcile] *)
Definition reconcile (snapshot : RevisionSnapshot) (x : B) : B :=
  if should_reconcile (b_auto x.2) (backfill_running x) x.1 snapshot
  then (start_background_backfill false "reconcile" x).1 else x.
Definition refresh_delay (snapshot : RevisionSnapshot) : Z := if known snapshot then REFRESH_KNOWN else REFRESH_UNKNOWN.
(** [embedding_service.py:268-279 EmbeddingService._refresh_revision_forever] One
    move of the loop: probe on a worker thread; reconcile, and sleep; wake up.
    Neither the port's refresh nor the reconciliation raises. *)
Definition refresher_move (x : B) : B :=
  match b_refresher x.2 with
  | Off => x
  | Probing =>
      let (x, r) := serve (refresh_revision true) x in
      match r with Ok sn => on_bg (with_refresher (Verified sn)) x | Raise _ => x end
  | Verified sn => on_bg (with_refresher (Sleeping (refresh_delay sn))) (reconcile sn x)
  | Sleeping _ => on_bg (with_refresher Probing) x
  end.

(** ** Everything that happens to the service *)

Inductive background_step : B → B → Prop :=
| bg_start x force : background_step x (start_background_backfill force "operator" x).1
| bg_run x : background_step x (run_background_backfill x)
| bg_cancel x : background_step x (cancel_background x)
| bg_orphan x force l1 l2 : b_orphans x.2 = l1 ++ force :: l2 →
    background_step x (on_bg (with_orphans (l1 ++ l2)) (serve (generate_missing utc_now None force) x).1)
| bg_refresher_start x auto : background_step x (start_revision_refresher auto x).1
| bg_refresher_stop x : background_step x (stop_revision_refresher x)
| bg_refresher x : background_step x (refresher_move x)
(** another caller: a run of its own, a run in progress, and its end *)
| bg_other x pid force : background_step x (serve (generate_missing utc_now pid force) x).1
| bg_hold x : backfill_locked x.1 = false → background_step x (with_lock true x.1, with_held true x.2)
| bg_release x : b_held x.2 = true → background_step x (with_lock false x.1, with_held false x.2)
(** a save *)
| bg_save x k c force : background_step x (serve (generate_for_memory utc_now k c force) x).1.

(** ** [memory_embed] *)

(** [embed_memory.py:20-46 execute_background] *)
Definition execute_background (configured force : bool) (x : B) : B * result exn EmbedOutcome :=
  if negb configured then (x, Ok (mkEmbedOutcome "not_configured" None None))
  else
    let (x, started) := start_background_backfill force "operator" x in
    serve (let* status := embedding_status in
           ret (mkEmbedOutcome (if (started : bool) then "started" else "already_running") None (Some status))) x.
(** [interfaces/mcp/tools/memory.py:443-446 memory_embed] *)
Definition tool_memory_embed (configured force background : bool) (x : B) : B * result exn EmbedOutcome :=
  if background then execute_background configured force x else serve (execute_embed utc_now configured force) x.
(** [interfaces/api/routes/memory.py:263-274 memory_embed] *)
Definition rest_memory_embed (configured force background : bool) (x : B) : B * reply EmbedOutcome :=
  let (x, r) := (if background then execute_background configured force x else serve (execute_embed utc_now configured force) x) in
  (x, match r with Ok a => replied a | Raise e => failed_with (exception_response e) end).
End background.
