(* ===== verification/BackgroundProps.v ===== *)
(** * Properties of the background backfill

    What a run leaves behind, whatever happens to it; that the lock is never
    leaked and nothing unverified is ever reconciled; and that a changed revision
    is noticed and the corpus re-embedded without anybody asking. *)

From S2P Require Import Prelude PyStr Sha256 Domain Sql Store Transactions Port StoreProps SearchProps Embedding EmbeddingProps Backfill Search.
From S2P Require Import UseCases Envelope Config Http Serializers Surfaces Background.
Local Open Scope Z_scope.
Local Open Scope prog_scope.

Section background.
Context {S E : Type} `{HF : FTS5} `{!MemoryStorePort S} `{!EmbeddingPort E} `{!ProviderLaws E}.
Context (utc_now : nat → Z).
Notation B := (svc S E * background)%type.
Implicit Types (x : B).

(** ** One run *)

(** Whose turn it is when the run asks for the revision. *)
Definition probed x : RevisionSnapshot := (ep_refresh_revision true (sv_port x.1)).2.

(** However a background run ends, its task is over, the lock is as it was,
    and health shows how it ended, under its trigger: skipped when another
    backfill holds the lock, with nothing done; the unverified revision's error
    when the probe verified none, with nothing reconciled; and otherwise a
    verdict that agrees with the counts shown beside it, the verified revision
    being reconciled. *)
Theorem background_run_recorded x (force : bool) (trigger : string) :
  svc_ok x.1 → b_task x.2 = Some (force, trigger) →
  let x' := run_background_backfill utc_now x in
  b_task x'.2 = None ∧ backfill_locked x'.1 = backfill_locked x.1 ∧
  ∃ o, b_last x'.2 = Some o ∧ bo_trigger o = trigger ∧
    if backfill_locked x.1 then
      bo_outcome o = "skipped"%string ∧ bo_counts o = Some (0, 0, 0) ∧ the_db x'.1 = the_db x.1 ∧
      reconciled_revision x'.1 = reconciled_revision x.1
    else if known (probed x) then
      reconciled_revision x'.1 = Some (value (probed x)) ∧ bo_error_type o = None ∧
      ∃ g f t, bo_counts o = Some (g, f, t) ∧ 0 ≤ g ∧ 0 ≤ f ∧ 0 ≤ t ∧
        bo_outcome o = (if (f =? 0)%Z then "ok" else if (g =? 0)%Z then "failed" else "partial")%string
    else
      bo_outcome o = "error"%string ∧ bo_error_type o = Some "RevisionUnknownError"%string ∧
      reconciled_revision x'.1 = reconciled_revision x.1.
Proof.
  intros Hs Ht. destruct x as [s b]. cbn [fst snd] in *. unfold run_background_backfill. cbn [fst snd]. rewrite Ht.
  destruct (backfill_guard utc_now s None force Hs) as [Hlocked Hfree]. unfold serve, probed. cbn [fst snd].
  destruct (backfill_locked s) eqn:Hl.
  - rewrite Hlocked by done. simpl. rewrite Hl. split; [done|]. split; [done|]. eexists. split; [reflexivity|]. done.
  - specialize (Hfree eq_refl). destruct (ep_refresh_revision true (sv_port s)) as [p sn]. cbn [fst snd].
    destruct (generate_missing utc_now None force s) as [s' r]. destruct Hfree as (Hl'&Hrec&Hunk&Hkn). cbn [finish].
    simpl. split; [done|]. split; [done|]. eexists. split; [reflexivity|]. split; [by destruct r|].
    destruct (known sn).
    + destruct (Hkn eq_refl) as ([g f t sk]&->&Hsk&?&?&?). simpl in Hsk. subst sk. split; [done|]. split; [done|].
      exists g, f, t. split; [done|]. repeat split; done.
    + destruct (Hunk eq_refl) as [-> _]. done.
Qed.

(** ** Every state *)

Lemma framed_generate locked rec k c force :
  preserves (framed locked rec) (generate_for_memory utc_now k c force : SE (svc S E) exn unit).
Proof.
  unfold generate_for_memory. apply preserves_bind; [by intros s|]. intros sn. apply preserves_bind.
  { destruct (known sn); [apply preserves_ret|]. intros s Hs. exact (framed_interfere _ _ (with_port _ s) Hs). }
  intros sn'. destruct (negb (known sn')); [apply preserves_raise|]. apply preserves_bind.
  { destruct force; [apply preserves_ret|apply (framed_is_current utc_now)]. }
  intros []; [apply preserves_ret|]. apply preserves_bind.
  - apply preserves_try; [apply preserves_bind; [apply framed_on_port|intros v; apply preserves_ret]|]. intros e.
    destruct (is_content_too_long e); (apply preserves_bind; [|intros _]);
      [apply framed_save|apply preserves_ret|apply framed_record_failure|apply preserves_raise].
  - intros [v|]; [|apply preserves_ret]. apply preserves_bind; [apply framed_save|]. intros _. apply framed_record_success.
Qed.

(** What holds at every moment. *)
Definition sane x : Prop :=
  svc_attributed x.1 ∧ backfill_locked x.1 = b_held x.2 ∧
  (∀ v, reconciled_revision x.1 = Some v → verified v) ∧
  (∀ sn, b_refresher x.2 = Verified sn → vouched sn) ∧
  ∀ o, b_last x.2 = Some o → bo_outcome o ∈ ["ok"; "partial"; "failed"; "skipped"; "error"; "cancelled"]%string ∧
    (bo_outcome o = "error"%string ↔ bo_error_type o ≠ None).

(** The part of it that the service's state carries. *)
Definition sane_svc (held : bool) (s : svc S E) : Prop :=
  svc_attributed s ∧ backfill_locked s = held ∧ ∀ v, reconciled_revision s = Some v → verified v.

Lemma missing_sane held pid force s : sane_svc held s → sane_svc held (generate_missing utc_now pid force s).1.
Proof.
  intros (Ha&Hl&Hr). split; [by apply (attributed_missing utc_now pid force s)|].
  destruct (backfill_guard utc_now s pid force (proj1 Ha)) as [Hlocked Hfree]. destruct (backfill_locked s) eqn:El; subst held.
  - by rewrite Hlocked.
  - specialize (Hfree eq_refl). pose proof (law_refresh true (sv_port s) (proj1 (proj2 Ha))) as [_ Hv].
    destruct (ep_refresh_revision true (sv_port s)) as [p sn]. destruct (generate_missing utc_now pid force s) as [s' r].
    destruct Hfree as (Hl'&Hrec&_). split; [done|]. simpl. rewrite Hrec. intros v. destruct (known sn) eqn:Hk; [|by apply Hr].
    case_bool_decide; [|by apply Hr]. simpl. intros [= <-]. by apply Hv.
Qed.
Lemma generate_sane held k c force s : sane_svc held s → sane_svc held (generate_for_memory utc_now k c force s).1.
Proof.
  intros (Ha&Hl&Hr). split; [by apply (attributed_generate utc_now k c force s)|].
  destruct (framed_generate held (reconciled_revision s) k c force s) as [? Hrec]; [done|]. split; [done|]. by rewrite Hrec.
Qed.

Lemma recorded_outcome t trigger now : let o := record_background_outcome t trigger now in
  bo_outcome o ∈ ["ok"; "partial"; "failed"; "skipped"; "error"; "cancelled"]%string ∧
  (bo_outcome o = "error"%string ↔ bo_error_type o ≠ None).
Proof.
  destruct t as [|e|r]; simpl; [split; [set_solver|done]|split; [set_solver|done]|]. unfold outcome.
  destruct (skipped r), (failed r =? 0), (generated r =? 0); (split; [set_solver|done]).
Qed.
Lemma sane_split x : sane x ↔ sane_svc (b_held x.2) x.1 ∧ (∀ sn, b_refresher x.2 = Verified sn → vouched sn) ∧
  ∀ o, b_last x.2 = Some o → bo_outcome o ∈ ["ok"; "partial"; "failed"; "skipped"; "error"; "cancelled"]%string ∧
    (bo_outcome o = "error"%string ↔ bo_error_type o ≠ None).
Proof. unfold sane, sane_svc. tauto. Qed.
Lemma finish_sane t trigger x : sane x → sane (finish utc_now t trigger x).
Proof.
  rewrite !sane_split. intros (Hs&Hr&_). split; [exact Hs|]. split; [exact Hr|].
  intros o [= <-]. apply recorded_outcome.
Qed.
Lemma start_sane force trigger x : sane x → sane (start_background_backfill force trigger x).1.
Proof. unfold start_background_backfill. by destruct (backfill_running x). Qed.
Lemma serve_sane {A} (m : SE (svc S E) exn A) x :
  (∀ s, sane_svc (b_held x.2) s → sane_svc (b_held x.2) (m s).1) → sane x → sane (serve m x).1.
Proof.
  intros Hm. rewrite !sane_split. intros (Hs&Hr&Hl). unfold serve. specialize (Hm x.1 Hs). destruct (m x.1) as [s' r]. done.
Qed.

Lemma step_sane x x' : background_step utc_now x x' → sane x → sane x'.
Proof.
  intros Hstep Hs. destruct Hstep.
  - by apply start_sane.
  - unfold run_background_backfill. destruct (b_task x.2) as [[force trigger]|]; [|done].
    pose proof (serve_sane (generate_missing utc_now None force) x (missing_sane _ None force) Hs) as H.
    destruct (serve _ x) as [x' r]. by apply finish_sane.
  - unfold cancel_background. destruct (b_task x.2) as [[force trigger]|]; [|done]. by apply finish_sane.
  - apply (serve_sane (generate_missing utc_now None force) x (missing_sane _ None force) Hs).
  - unfold start_revision_refresher. destruct (b_refresher x.2); try done. destruct (negb ep_tracks_revision); [done|].
    apply sane_split in Hs as (?&_&?). by apply sane_split.
  - apply sane_split in Hs as (?&_&?). by apply sane_split.
  - unfold refresher_move. destruct (b_refresher x.2) eqn:Er; [done| | |].
    + pose proof (serve_sane (refresh_revision true) x) as H.
      assert (∀ s, sane_svc (b_held x.2) s → sane_svc (b_held x.2) (refresh_revision true s).1) as H1.
      { intros s (Ha&Hl&Hr). split; [by apply (ensures_refresh true s)|].
        destruct (framed_interfere (b_held x.2) (reconciled_revision s) (with_port (ep_refresh_revision true (sv_port s)).1 s)) as [? Hrec];
          [done|]. split; [done|]. intros v. unfold refresh_revision. cbn [fst]. rewrite Hrec. apply Hr. }
      specialize (H H1 Hs). unfold serve in *. pose proof (proj2 (ensures_refresh true x.1 (proj1 Hs))) as Hv.
      destruct (refresh_revision true x.1) as [s' [sn|e]]; [|done]. apply sane_split in H as (?&_&?). apply sane_split.
      split; [done|]. split; [|done]. intros sn' [= <-]. by apply Hv.
    + assert (sane (reconcile sn x)) as H by (unfold reconcile; destruct (should_reconcile _ _ _ _); [by apply start_sane|done]).
      apply sane_split in H as (?&_&?). by apply sane_split.
    + apply sane_split in Hs as (?&_&?). by apply sane_split.
  - by apply (serve_sane _ x (missing_sane _ pid force)).
  - destruct Hs as (?&?&?&?). by split.
  - destruct Hs as (?&?&?&?). by split.
  - by apply (serve_sane _ x (generate_sane _ k c force)).
Qed.

(** At every moment, whatever starts, ends, is cancelled or raises, in any
    order: the backfill lock is held only by a caller inside a backfill, the
    revision the refresher takes for reconciled is one the provider verified, as
    is the one it is about to reconcile, every stored vector is attributed, and
    the outcome health shows is one of the six, with an error type exactly for an
    error. *)
Theorem background_sane (t : S) (p : E) (others : list (S → S)) x :
  st_ok t → wf (st_view t) → Forall good_thread others → attributed (st_view t) → port_inv p →
  rtc (background_step utc_now) (new_service t p others, new_background) x → sane x.
Proof.
  intros Hok Hw Ho Ha Hp Hr. assert (∀ y, rtc (background_step utc_now) y x → sane y → sane x) as H.
  { clear Hr. intros y. induction 1 as [|y z x Hyz _ IH]; [done|]. intros Hy. by eapply IH, step_sane. }
  by apply (H _ Hr).
Qed.

(** ** A re-pull *)

Lemma probing_alone x : alone x.1 → b_refresher x.2 = Probing →
  refresher_move x = (with_port (ep_refresh_revision true (sv_port x.1)).1 x.1,
    with_refresher (Verified (ep_refresh_revision true (sv_port x.1)).2) x.2).
Proof.
  intros [_ Ho] Hp. unfold refresher_move. rewrite Hp. unfold serve, refresh_revision. simpl.
  unfold interfere. simpl. by rewrite Ho.
Qed.

(** C7. A re-pulled model is noticed and the corpus re-embedded without anybody
    asking.  With the refresher on, idle, and a server that now shows a revision
    other than the reconciled one: its next probe starts one backfill; that run
    works off every memory without a current vector, once each; if none failed,
    every memory ends current under the new revision; the revision counts as
    reconciled, and the next round of the refresher starts nothing. *)
Theorem repull_reembeds x (v : option string) :
  (∀ p, known (ep_refresh_revision true p).2 = true ∧ value (ep_refresh_revision true p).2 = v) →
  alone x.1 → backfill_locked x.1 = false → reconciled_revision x.1 ≠ Some v →
  b_task x.2 = None → b_auto x.2 = true → b_refresher x.2 = Probing →
  let x1 := refresher_move (refresher_move x) in
  let x2 := run_background_backfill utc_now x1 in
  let x3 := refresher_move (refresher_move (refresher_move x2)) in
  b_task x1.2 = Some (false, "reconcile"%string) ∧ b_refresher x1.2 = Sleeping 300 ∧
  (b_task x2.2 = None ∧ reconciled_revision x2.1 = Some v ∧ memories (the_db x2.1) = memories (the_db x.1) ∧
   ∃ g f t at_, b_last x2.2 = Some (mkOutcome (outcome (mkBackfill g f t false)) "reconcile" at_ None (Some (g, f, t))) ∧
     g + f + t = Z.of_nat (length (candidates v false (the_db x.1) (listed (the_db x.1)))) ∧
     (f = 0 → ∀ k, cur v (the_db x2.1) k = true)) ∧
  b_task x3.2 = None ∧ the_db x3.1 = the_db x2.1 ∧ b_refresher x3.2 = Sleeping 300.
Proof.
  intros Hst Ha Hl Hrec Ht Hauto Hp. cbv zeta. rewrite (probing_alone x Ha Hp). destruct x as [s b]. cbn [fst snd] in *.
  destruct (Hst (sv_port s)) as [Hk Hv]. destruct (ep_refresh_revision true (sv_port s)) as [p sn]. cbn [fst snd] in *.
  set (s1 := with_port p s).
  assert (refresher_move (s1, with_refresher (Verified sn) b) =
    (s1, with_refresher (Sleeping 300) (with_task (Some (false, "reconcile"%string)) (with_refresher (Verified sn) b)))) as ->.
  { unfold refresher_move, reconcile, should_reconcile, start_background_backfill, backfill_running, refresh_delay. simpl.
    rewrite Ht, Hl, Hauto, Hk. simpl. by rewrite bool_decide_eq_false_2 by congruence. }
  cbn [snd]. split; [done|]. split; [done|].
  destruct (Hst p) as [Hk1 Hv1]. destruct (ep_refresh_revision true p) as [p1 sn1] eqn:Href. cbn [fst snd] in *.
  destruct (generate_missing_alone utc_now s1 false p1 sn1 Ha Hl Href Hk1) as (s'&g&f&t&Hrun&Ha'&Hl'&Hrec'&Hprog&_).
  rewrite Hv1 in Hprog, Hrec'. set (b1 := with_refresher (Sleeping 300) _).
  assert (run_background_backfill utc_now (s1, b1) = (tick s', with_last
    (mkOutcome (outcome (mkBackfill g f t false)) "reconcile" (utc_now (sv_ticks s')) None (Some (g, f, t))) (with_task None b1))) as ->.
  { unfold run_background_backfill, serve. cbn [b_task with_refresher with_task fst snd b1]. by rewrite Hrun. }
  set (b2 := with_last _ _). assert (b_refresher b2 = Sleeping 300 ∧ b_task b2 = None ∧ b_auto b2 = true) as (Hr2&Ht2&Ha2) by done.
  assert (reconciled_revision (tick s') = Some v ∧ backfill_locked (tick s') = false ∧ alone (tick s')) as (Hrec2&Hl2&Hal2) by done.
  split.
  { split; [done|]. split; [exact Hrec2|]. pose proof Hprog as (Hm&_&Htot&_). split; [exact Hm|]. exists g, f, t. eexists.
    split; [reflexivity|]. simpl in Htot. rewrite length_map in Htot. split; [exact Htot|]. by eapply progress_current. }
  set (s2 := tick s') in *. assert (refresher_move (s2, b2) = (s2, with_refresher Probing b2)) as ->.
  { unfold refresher_move. cbn [snd]. by rewrite Hr2. }
  rewrite (probing_alone (s2, with_refresher Probing b2)) by done. cbn [fst snd].
  destruct (Hst (sv_port s2)) as [Hk3 Hv3]. destruct (ep_refresh_revision true (sv_port s2)) as [p3 sn3]. cbn [fst snd] in *.
  unfold refresher_move, reconcile, should_reconcile, refresh_delay. cbn [fst snd b_refresher with_refresher].
  assert (reconciled_revision (with_port p3 s2) = Some v) as Hr3 by done. rewrite Hr3, Hk3, Hv3.
  rewrite bool_decide_eq_true_2 by done. rewrite andb_false_r. done.
Qed.
End background.

(** * The background backfill on the sample store

    The provider and the store of [Backfill], with the refresher on. *)

#[local] Existing Instance toy_port.
#[local] Existing Instance toy_laws.
#[local] Existing Instance substring_fts.

Definition started : svc store nat * background :=
  (busy_service, with_task (Some (false, "operator"%string)) new_background).

Lemma background_run_recorded_witness :
  b_task (run_background_backfill clock started).2 = None ∧
  ∃ o, b_last (run_background_backfill clock started).2 = Some o ∧ bo_trigger o = "operator"%string.
Proof.
  destruct (@background_run_recorded store nat substring_fts SqliteStore toy_port toy_laws clock started false "operator" busy_ok eq_refl)
    as (Ht&_&o&Ho&Htr&_).
  split; [exact Ht|]. exists o. split; [exact Ho|exact Htr].
Defined.

Lemma background_sane_witness :
  sane (run_background_backfill clock (start_background_backfill true "operator" (new_service sample_store 1%nat [rewriter], new_background)).1).
Proof.
  apply (@background_sane store nat substring_fts SqliteStore toy_port toy_laws clock sample_store 1%nat [rewriter] _
    ready_sample wf_sample (proj2 (proj2 busy_ok)) attributed_sample I).
  eapply rtc_l; [apply (bg_start clock _ true)|]. eapply rtc_l; [apply bg_run|]. apply rtc_refl.
Defined.

Definition watching : svc store nat * background :=
  (lone_service, with_refresher Probing (with_auto true new_background)).

Lemma repull_reembeds_witness :
  reconciled_revision (run_background_backfill clock (refresher_move (refresher_move watching))).1 = Some (Some "r1"%string) ∧
  ∃ g f t, g + f + t = 3 ∧
    bo_counts <$> b_last (run_background_backfill clock (refresher_move (refresher_move watching))).2 = Some (Some (g, f, t)).
Proof.
  destruct (@repull_reembeds store nat substring_fts SqliteStore toy_port clock watching (Some "r1"%string)
    (λ p, conj eq_refl eq_refl) alone_lone eq_refl ltac:(discriminate) eq_refl eq_refl eq_refl)
    as (_&_&(_&Hrec&_&g&f&t&at_&Hl&Hsum&_)&_).
  split; [exact Hrec|]. exists g, f, t. split; [rewrite Hsum; vm_compute; reflexivity|]. rewrite Hl. reflexivity.
Defined.
