(* ===== verification/Health.v ===== *)
(** * Health

    [diagnose_runtime.py], the embedding status of [container.py] and the health
    route: what an operator sees.  The file system's answers about the database
    file, the package's version and the build are arguments, as are the parts of
    the container that other files model as state.  An age is kept in
    microseconds; the payload shows it in hours to one decimal. *)

From S2P Require Import Prelude PyStr PyText Sha256 Domain DateTime PyNum PyRepr Sql Store Transactions Port Embedding Config GitLog Jobs.
From S2P Require Import Maintenance Background Http.
Local Open Scope Z_scope.
Local Open Scope prog_scope.

(** ** The maintenance state file *)

(** [diagnose_runtime.py:63-70 _read_state] *)
Definition read_state (f : state_file) : option (list (string * json)) :=
  match f with holds (JObj l) => Some l | _ => None end.
(** [raw.get(key, {}).get(job)] *)
Definition stamp_entry (raw : list (string * json)) (key job : string) : result exn json :=
  match jget key raw with
  | None => Ok JNull
  | Some (JObj m) => Ok (default JNull (jget job m))
  | Some _ => Raise AttributeError
  end.
(** [diagnose_runtime.py:73-83 _last_run_failed] *)
Definition last_run_failed (f : state_file) (job : string) : bool :=
  let raw := default [] (read_state f) in
  let stamps :=
    let? run := stamp_entry raw "last_run_at" job in
    let? success := stamp_entry raw "last_success_at" job in
    Ok (parse_state_timestamp run, parse_state_timestamp success) in
  match stamps with
  | Raise _ | Ok (None, _) => false
  | Ok (Some run, None) => true
  | Ok (Some run, Some success) => instant success <? instant run
  end.
(** [diagnose_runtime.py:34-46 _integrity_failure_persisted] *)
Definition integrity_failure_persisted (f : state_file) : bool := last_run_failed f "db_integrity_check".
(** [diagnose_runtime.py:49-60 _backup_failure_persisted] *)
Definition backup_failure_persisted (f : state_file) : bool := last_run_failed f "db_backup".

(** [diagnose_runtime.py:87-87 _CLOUD_STALE_AFTER] *)
Definition CLOUD_STALE_AFTER : Z := 48 * 3600 * 1000000.
Record cloud_status := mkCloudStatus { cs_status : string; cs_last_success_at : option datetime; cs_age : option Z }.
(** [diagnose_runtime.py:102-106 _cloud_backup_status] The last push. *)
Definition last_push (f : state_file) : option datetime :=
  let v := default JNull (jget "last_success_at" (default [] (read_state f))) in
  if negb (truthy v) then None
  else match v with JObj m => parse_state_timestamp (default JNull (jget "cloud_backup" m)) | _ => None end.
(** [diagnose_runtime.py:90-117 _cloud_backup_status] *)
Definition cloud_backup_status (environ : env) (f : state_file) (now : datetime) : cloud_status :=
  let config := read_cloud_backup_config environ in
  if negb (cloud_enabled config) then mkCloudStatus "disabled" None None
  else
    let last := last_push f in
    let age := (λ t, elapsed now t) <$> last in
    let status :=
      if match problem config with Some p => negb (bool_decide (p = ""%string)) | None => false end then "misconfigured"
      else match age with
      | None => "stale"
      | Some a => if (CLOUD_STALE_AFTER <? a)%Z then "stale" else "ok"
      end%string in
    mkCloudStatus status last age.

(** ** The embedding subsystem *)

(** [content_egress] and [port.dimensions()] come from the container and the
    adapter. *)
Record embedding_report := mkEmbeddingReport {
  er_status : string;
  er_provider : string;
  er_model : string;
  er_dimensions : Z;
  er_configured_dimensions : option Z;
  er_stored_dimensions : list Z;
  er_model_revision : option string;
  er_model_revision_state : string;
  er_verified_at : option Z;
  er_timeout : spec_float;
  er_failure_count : Z;
  er_last_failure_at : option Z;
  er_last_failure_op : option string;
  er_search_failure_count : Z;
  er_last_search_failure_at : option Z;
  er_last_background : option background_outcome;
  er_content_egress : string;
  er_coverage : EmbeddingStatus;
}.
Inductive embedding_health := disabled | failed_to_start (provider : string) | reported (r : embedding_report).

Section embedding.
Context {S E : Type} `{HF : FTS5} `{!MemoryStorePort S} `{!EmbeddingPort E}.

(** [container.py:183-242 CoreContainer.embedding_status_dict] [started]: the
    service exists. *)
Definition embedding_status_dict (settings : EmbeddingSettings) (started : bool) (dims : Z) (stored : list Z) (remote : bool)
    (bg : background) : SE (svc S E) exn embedding_health :=
  if bool_decide (provider settings = "none"%string) then ret disabled
  else if negb started then ret (failed_to_start (provider settings))
  else
    let* coverage := embedding_status in
    let* s := get_st in
    let sn := ep_revision_snapshot (sv_port s) in
    ret (reported (mkEmbeddingReport
      (if negb (failure_count s =? 0)%Z || negb (known sn) then "degraded" else "active")
      (provider settings) ep_model_name dims (Config.dimensions settings) stored
      (value sn) (snapshot_state sn) (verified_at sn) (timeout settings)
      (failure_count s) (last_failure_at s) (last_failure_op s) (search_failure_count s) (last_search_failure_at s)
      (b_last bg) (if remote then "remote" else "local") coverage)).
End embedding.

(** ** The runtime *)

(** [db_path.startswith("/data")] and the like, over characters. *)
Definition has_backslash (s : string) : bool := existsb (λ c, bool_decide (c = chr 92)) (chars s).
(** [diagnose_runtime.py:190-195 _detect_container] *)
Definition detect_container (dockerenv : bool) (environ : environment) : bool :=
  dockerenv || starts_with "/data" (default "data/openchronicle.db"%string (environ !! "OC_DB_PATH"%string)).
(** [diagnose_runtime.py:198-208 _infer_persistence_hint] *)
Definition infer_persistence_hint (db_path : string) (in_container : bool) : string :=
  let posix := of_chars (map (λ c, if bool_decide (c = chr 92) then "/"%char else c) (chars db_path)) in
  if in_container && starts_with "/data" posix then
    "DB configured for container volume at /data. If you expect a host file, ensure a bind-mount overlay is used."
  else if has_backslash db_path || bool_decide (take 2 (drop 1 (chars db_path)) = [":"%char; chr 92])
      || ((2 <? length (chars db_path))%nat && bool_decide (chars db_path !! 1%nat = Some ":"%char)) then
    "DB appears to be on a Windows bind-mount path."
  else "Persistence mode unknown.".

(** What the file system says: a path exists; the size of a file, and its
    modification time as a [datetime]. *)
Record runtime := mkRuntime {
  rt_exists : string → bool;
  rt_size : string → result exn Z;
  rt_modified : string → result exn datetime;
  rt_dockerenv : bool;
  rt_now : datetime;
  rt_package_version : string;
  rt_build_revision : string;
}.
(** What the report says beside the two paths. *)
Record runtime_facts := mkFacts {
  rf_timestamp_utc : datetime;
  rf_db_exists : bool;
  rf_db_size_bytes : option Z;
  rf_db_modified_utc : option datetime;
  rf_config_dir_exists : bool;
  rf_running_in_container_hint : bool;
  rf_persistence_hint : string;
  rf_package_version : string;
  rf_build_revision : string;
}.
(** [diagnostics_report.py:17-30 DiagnosticsReport] *)
Record diagnostics := mkDiagnostics { dr_db_path : string; dr_config_dir : string; dr_facts : runtime_facts }.
(** [str(path)], where both sides are kept as the text they were given. *)
Definition path_text (p : pypath) : string :=
  match p with Path s => s | Below d s => d +:+ "/" +:+ s end.
(** [except OSError, ValueError] *)
Definition is_os_or_value_error (e : exn) : bool :=
  match e with
  | ValueError | UnicodeError | FileNotFoundError | OSError | TimeoutError | PermissionError => true
  | _ => false
  end.
(** [diagnose_runtime.py:147-187 execute] *)
Definition diagnose (rt : runtime) (environ : environment) : result exn diagnostics :=
  let '(db, config, _) := resolve_paths environ None None None in
  let db_path := path_text db in
  let exists_ := rt_exists rt db_path in
  let? (size, modified) :=
    (if exists_ then
       match rt_size rt db_path with
       | Raise e => if is_os_or_value_error e then Ok (None, None) else Raise e
       | Ok n =>
           match rt_modified rt db_path with
           | Raise e => if is_os_or_value_error e then Ok (Some n, None) else Raise e
           | Ok t => Ok (Some n, Some t)
           end
       end
     else Ok (None, None)) in
  let in_container := detect_container (rt_dockerenv rt) environ in
  Ok (mkDiagnostics db_path (path_text config) (mkFacts (rt_now rt) exists_ size modified (rt_exists rt (path_text config))
    in_container (infer_persistence_hint db_path in_container) (rt_package_version rt) (rt_build_revision rt))).

(** ** The payload *)

(** [diagnostics_report.py:17-43 DiagnosticsReport] As both surfaces serve it. *)
Record health_payload := mkHealth {
  hp_facts : runtime_facts;
  hp_db_path : option string;  (** absent when taken out *)
  hp_config_dir : option string;
  hp_embedding : embedding_health;
  hp_schema_version : Z;
  hp_maintenance_degraded : bool;
  hp_backup_last_run_failed : bool;
  hp_cloud : cloud_status;
  hp_fts5_active : bool;
}.
(** The container's side of it. *)
Record container_view := mkView {
  cv_embedding : embedding_health;
  cv_schema_version : Z;
  cv_degraded : bool;
  cv_fts5_active : bool;
}.
(** [diagnose_runtime.py:120-144 build_health_payload] *)
Definition build_health_payload (rt : runtime) (environ : environment) (f : state_file) (v : container_view) : result exn health_payload :=
  let? report := diagnose rt environ in
  Ok (mkHealth (dr_facts report) (Some (dr_db_path report)) (Some (dr_config_dir report)) (cv_embedding v) (cv_schema_version v)
    (cv_degraded v || integrity_failure_persisted f) (backup_failure_persisted f)
    (cloud_backup_status environ f (rt_now rt)) (cv_fts5_active v)).
(** [routes/system.py:24-32 health] *)
Definition rest_health (rt : runtime) (environ : environment) (f : state_file) (v : container_view) (api_key : option string) (r : request)
    : result exn health_payload :=
  let? p := build_health_payload rt environ f v in
  let hide := match api_key with
    | Some k => negb (bool_decide (k = ""%string)) && negb (request_has_key r k)
    | None => false
    end in
  Ok (if (hide : bool) then
    mkHealth (hp_facts p) None None (hp_embedding p) (hp_schema_version p) (hp_maintenance_degraded p)
      (hp_backup_last_run_failed p) (hp_cloud p) (hp_fts5_active p)
  else p).
(** [routes/system.py:35-41 maintenance_status] *)
Definition rest_maintenance_status (l : option loop) : bool * list json :=
  match l with None => (false, []) | Some l => (true, Maintenance.status l) end.
