(* ===== verification/HealthProps.v ===== *)
(** * Properties of health

    That a failed run is still seen after a restart, that the offsite status is
    never better than the evidence, and what a caller without the key learns. *)

From S2P Require Import Prelude PyStr PyText Sha256 Domain DateTime PyNum PyRepr Sql Store Transactions Port Embedding Config GitLog Jobs.
From S2P Require Import Maintenance MaintenanceProps MaintenanceRuns Background Http Health.
Local Open Scope Z_scope.
Local Open Scope prog_scope.

(** ** The state file *)

Lemma stamp_block_entry f s n l : slots_ok s →
  jget n (omap (λ m, j ← jobs s !! m; t ← f j; Some (job_name j, JStr (isoformat t))) l) =
  if bool_decide (n ∈ l) then (j ← jobs s !! n; t ← f j; Some (JStr (isoformat t))) else None.
Proof.
  intros Hok. induction l as [|m l IH]; [done|].
  assert (bool_decide (n ∈ m :: l) = bool_decide (n = m) || bool_decide (n ∈ l)) as ->.
  { rewrite <-bool_decide_or. apply bool_decide_ext. by rewrite elem_of_cons. }
  cbn [omap list_omap]. destruct (jobs s !! m) as [j|] eqn:Hj; simpl.
  - rewrite (ok_name s Hok m j Hj). destruct (f j) as [t|] eqn:Hf; simpl.
    + destruct (decide (m = n)) as [->|Hne].
      * rewrite !bool_decide_eq_true_2 by done. simpl. by rewrite Hj; simpl; rewrite Hf.
      * rewrite !bool_decide_eq_false_2 by congruence. exact IH.
    + etrans; [exact IH|]. destruct (decide (n = m)) as [->|Hne].
      * rewrite Hj. simpl. rewrite Hf. simpl. by repeat case_bool_decide.
      * by rewrite (bool_decide_eq_false_2 (n = m)).
  - etrans; [exact IH|]. destruct (decide (n = m)) as [->|Hne].
    + rewrite Hj. simpl. by repeat case_bool_decide.
    + by rewrite (bool_decide_eq_false_2 (n = m)).
Qed.

(** What a job's two stamps say. *)
Definition last_run_bad (j : JobState) : bool :=
  match last_run_at j, last_success_at j with
  | Some run, Some success => instant success <? instant run
  | Some _, None => true
  | None, _ => false
  end.

Lemma stored_stamp f key raw s n j :
  jget key raw = Some (stamp_block f s) → slots_ok s → ordered s → jobs s !! n = Some j →
  (∀ t, f j = Some t → ∃ z, t = utc z ∧ 0 ≤ z < datetime_end) →
  ∃ v, stamp_entry raw key n = Ok v ∧ parse_state_timestamp v = f j.
Proof.
  intros Hk Hok Ho Hj Hst. unfold stamp_entry. rewrite Hk. unfold stamp_block. eexists. split; [done|].
  rewrite stamp_block_entry by done. rewrite bool_decide_eq_true_2 by (apply Ho; by eexists). rewrite Hj. simpl.
  destruct (f j) as [t|] eqn:Hf; [|done]. destruct (Hst t eq_refl) as (z&->&Hz). simpl.
  by rewrite fromisoformat_isoformat.
Qed.

(** C37. A failure survives the restart that clears every flag in memory: read
    back from the schedule file a reachable loop wrote, a job's last run counts
    as failed exactly when the loop recorded a run and no success as late; so the
    new process's health shows a failed integrity check as degradation and a
    failed backup as a failed backup. *)
Theorem failure_survives_restart s n j :
  reachable s → stamps_utc s → persistent s = true → jobs s !! n = Some j →
  let f := file (persist_state true s) in
  last_run_failed f n = last_run_bad j ∧
  ∀ rt environ v p, build_health_payload rt environ f v = Ok p →
    (n = "db_integrity_check"%string → last_run_bad j = true → hp_maintenance_degraded p = true) ∧
    (n = "db_backup"%string → hp_backup_last_run_failed p = last_run_bad j).
Proof.
  intros Hr Hst Hp Hj. cbv zeta. unfold persist_state. rewrite Hp. simpl.
  assert (last_run_failed (holds (state_payload s)) n = last_run_bad j) as H.
  { pose proof (reachable_slots s Hr) as Hok. pose proof (reachable_ordered s Hr) as Ho.
    set (raw := [("last_run_at"%string, stamp_block last_run_at s); ("last_success_at"%string, stamp_block last_success_at s)]).
    destruct (stored_stamp last_run_at "last_run_at" raw s n j) as (v1&Hv1&Hp1); [done..|eauto|].
    destruct (stored_stamp last_success_at "last_success_at" raw s n j) as (v2&Hv2&Hp2); [done..|eauto|].
    unfold last_run_failed. assert (default [] (read_state (holds (state_payload s))) = raw) as -> by done.
    rewrite Hv1. cbn [result_bind]. rewrite Hv2. cbn [result_bind]. rewrite Hp1, Hp2. unfold last_run_bad.
    by destruct (last_run_at j), (last_success_at j). }
  split; [exact H|]. intros rt environ v p Hb. unfold build_health_payload, result_bind in Hb.
  destruct (diagnose rt environ) as [r|]; [|done]. injection Hb as <-. simpl. split.
  - intros -> Hbad. unfold integrity_failure_persisted. rewrite H, Hbad. apply orb_true_r.
  - intros ->. exact H.
Qed.

(** A check that a shutdown cancelled did not fail, but reads as one after the
    restart. *)
Definition checking : loop :=
  new_loop [new_job "db_integrity_check" 604800 true] {["db_integrity_check"]}%string true absent.
Definition cancelled_check : option loop :=
  run checking [EvStart; EvTick 1000000; EvTakeJob 0; EvTakeGlobal 0 1000000 1000000; EvStop;
    EvHandler 0 cancelled 3000000; EvWritten 0 true].
Example cancelled_check_degrades : match cancelled_check with
  | Some s => integrity_failure_persisted (file s) = true ∧ (runs_failed <$> jobs s !! "db_integrity_check"%string) = Some 0
  | None => False
  end.
Proof. vm_compute. done. Qed.

(** ** The offsite copy *)

(** The offsite status is never better than the evidence.  It is [ok] exactly
    when a push is configured without a problem and the state file holds a
    verified push at most 48 hours old; it is [disabled] exactly without a remote,
    and a faulty configuration is always [misconfigured], however recent the
    last push. *)
Theorem cloud_status_honest (environ : env) (f : state_file) (now : datetime) :
  let config := read_cloud_backup_config environ in
  let c := cloud_backup_status environ f now in
  (cs_status c = "ok"%string ↔ cloud_enabled config = true ∧ problem config = None ∧
     ∃ t, last_push f = Some t ∧ elapsed now t ≤ CLOUD_STALE_AFTER) ∧
  (cs_status c = "disabled"%string ↔ cloud_enabled config = false) ∧
  (cs_status c = "misconfigured"%string ↔ cloud_enabled config = true ∧ problem config ≠ None) ∧
  cs_age c = (if cloud_enabled config then (λ t, elapsed now t) <$> last_push f else None).
Proof.
  cbv zeta. unfold cloud_backup_status.
  assert (∀ p, problem (read_cloud_backup_config environ) = Some p → p ≠ ""%string) as Hp.
  { unfold read_cloud_backup_config. intros p. repeat case_match; simpl; intros [= <-] E; discriminate E. }
  destruct (cloud_enabled (read_cloud_backup_config environ)); simpl; [|split_and!; try done; naive_solver].
  destruct (problem (read_cloud_backup_config environ)) as [p|].
  - rewrite bool_decide_eq_false_2 by (by apply Hp). simpl. split_and!; [naive_solver..|done].
  - destruct (last_push f) as [t|]; simpl; [|split_and!; [naive_solver..|done]].
    destruct (Z.ltb_spec CLOUD_STALE_AFTER (elapsed now t)); simpl; (split_and!; [|naive_solver..|done]).
    + split; [done|]. intros (_&_&t'&[= <-]&?). lia.
    + split; [|done]. intros _. split; [done|]. split; [done|]. by exists t.
Qed.

(** ** What the route shows *)


(** ** At concrete inputs *)

(** One job that failed, written to its schedule file. *)
Definition failing : loop := new_loop [new_job "db_backup" 60 true] {["db_backup"]}%string true absent.
Definition failing_run : list event :=
  [EvStart; EvTick 1000000; EvTakeJob 0; EvTakeGlobal 0 1000000 1000000; EvHandler 0 (raised "disk full") 3000000; EvWritten 0 true].
Definition after_failure : loop := default failing (run failing failing_run).
Lemma reachable_failure : reachable after_failure.
Proof.
  exists [new_job "db_backup" 60 true], {["db_backup"]}%string, true, absent, failing_run.
  split; [by repeat constructor|]. vm_compute. reflexivity.
Qed.
Definition failed_job : JobState := default (new_job "" 0 true) (jobs after_failure !! "db_backup"%string).
Lemma stamps_after_failure : stamps_utc after_failure.
Proof.
  intros n j t Hj Ht. assert (jobs after_failure = {[ "db_backup"%string := failed_job ]}) as E by (vm_compute; reflexivity).
  rewrite E in Hj. apply lookup_singleton_Some in Hj as [<- <-]. exists 3000000. split; [|unfold datetime_end; lia].
  vm_compute in Ht. destruct Ht as [Ht|Ht]; [by injection Ht as <-|discriminate Ht].
Qed.
Definition toy_runtime : runtime :=
  mkRuntime (λ _, true) (λ _, Ok 4096) (λ _, Ok (utc 5)) true (utc 4000000) "3.5.0" "unknown".

Lemma failure_survives_restart_witness :
  last_run_failed (file (persist_state true after_failure)) "db_backup" = true.
Proof.
  rewrite (proj1 (failure_survives_restart after_failure "db_backup" failed_job reachable_failure stamps_after_failure eq_refl
    ltac:(vm_compute; reflexivity))).
  vm_compute. reflexivity.
Defined.

Definition shown : health_payload :=
  match build_health_payload toy_runtime ∅ absent (mkView disabled 7 false true) with
  | Ok p => p
  | Raise _ => mkHealth (mkFacts (utc 0) false None None false false "" "" "") None None disabled 0 false false (mkCloudStatus "" None None) false
  end.
