(* ===== verification/Metrics.v ===== *)
(** * Metrics

    The metrics port, its recorder over prometheus-client
    ([prometheus_recorder.py]), the recorder that does nothing, and the two places
    that observe from outside: the HTTP middleware ([middleware/metrics.py]) and
    the wrapper of the MCP tools ([mcp/server.py]); with the scrape slot.
    prometheus-client itself is the class [Prometheus].  Run times are
    arguments.  A call of the recorder is one step here. *)

From S2P Require Import Prelude PyStr PyText Sha256 Domain PyNum Config Http.
Local Open Scope Z_scope.
Local Open Scope prog_scope.

(** ** The port *)

(** [metrics_port.py:11-56 MetricsRecorder] The operations act on the metrics' own
    state [M]. *)
Class MetricsRecorder (M : Type) := {
  enabled : bool;
  inflight_inc : string → SE M exn unit;
  inflight_dec : string → SE M exn unit;
  observe_http : string → string → Z → spec_float → SE M exn unit;
  observe_mcp : string → string → spec_float → SE M exn unit;
  observe_store_lock : string → spec_float → spec_float → SE M exn unit;
  observe_embedding : string → string → string → spec_float → SE M exn unit;
  observe_search_stage : string → spec_float → SE M exn unit;
  observe_search_fallback : string → SE M exn unit;
  observe_job : string → string → option spec_float → SE M exn unit;
  set_job_last_success : string → spec_float → SE M exn unit;
  observe_backfill_item : string → SE M exn unit;
}.

(** [null_recorder.py:8-58 NullMetricsRecorder] *)
Definition NullMetricsRecorder (M : Type) : MetricsRecorder M := {|
  enabled := false;
  inflight_inc _ := ret tt; inflight_dec _ := ret tt; observe_http _ _ _ _ := ret tt; observe_mcp _ _ _ := ret tt;
  observe_store_lock _ _ _ := ret tt; observe_embedding _ _ _ _ := ret tt; observe_search_stage _ _ := ret tt;
  observe_search_fallback _ := ret tt; observe_job _ _ _ := ret tt; set_job_last_success _ _ := ret tt;
  observe_backfill_item _ := ret tt |}.

(** [factory.py:17-19 metrics_enabled_from_env] *)
Definition metrics_enabled_from_env (environ : environment) : bool :=
  parse_bool_env (environ !! "OC_METRICS_ENABLED"%string) false.
(** [factory.py:23-35 create_metrics] [prometheus]: the recorder, where
    prometheus-client is installed; the flag says whether there is an exporter. *)
Definition create_metrics {M} (environ : environment) (prometheus : option (MetricsRecorder M)) : result exn (MetricsRecorder M * bool) :=
  if negb (metrics_enabled_from_env environ) then Ok (NullMetricsRecorder M, false)
  else match prometheus with Some r => Ok (r, true) | None => Raise (ConfigError CONFIG_ERROR) end.

(** ** Labels *)

Definition UNKNOWN : string := "__unknown__".
(** [prometheus_recorder.py:44-44 _HTTP_METHODS] *)
Definition HTTP_METHODS : list string := ["GET"; "POST"; "PUT"; "DELETE"; "PATCH"; "OPTIONS"; "HEAD"]%string.
(** [prometheus_recorder.py:45-73 _MCP_TOOLS] *)
Definition MCP_TOOLS : list string :=
  ["health"; "project_create"; "project_get"; "project_list"; "project_update"; "project_delete"; "project_delete_bulk";
   "onboard_git"; "memory_search"; "memory_save"; "memory_list"; "memory_pin"; "memory_update"; "memory_get";
   "memory_delete"; "memory_stats"; "memory_embed"; "context_recent"; "db_backup_create"; "db_backup_list";
   "db_backup_verify"; "db_restore_plan"; "db_restore_stage"]%string.
Definition PROVIDERS : list string := ["none"; "stub"; "openai"; "ollama"]%string.
Definition EMBEDDING_OPERATIONS : list string := ["single"; "batch"]%string.
(** [prometheus_recorder.py:76-78 _EMBEDDING_OUTCOMES] *)
Definition EMBEDDING_OUTCOMES : list string := ["success"; "transient_failure"; "permanent_rejection"; "other_error"]%string.
Definition MCP_OUTCOMES : list string := ["ok"; "started"; "partial"; "rejected"; "error"; "cancelled"]%string.
(** [prometheus_recorder.py:80-82 _SEARCH_STAGES] *)
Definition SEARCH_STAGES : list string :=
  ["keyword_lookup"; "vector_loading"; "candidate_prep_scoring"; "fusion_materialization"]%string.
Definition FALLBACK_REASONS : list string := ["provider_failure"; "over_length_query"; "revision_churn"]%string.
(** [prometheus_recorder.py:84-97 _JOB_NAMES] *)
Definition JOB_NAMES : list string :=
  ["db_vacuum"; "db_integrity_check"; "embedding_backfill"; "db_backup"; "git_onboard_resync"; "cloud_backup";
   "operator_backfill"; "reconcile_backfill"]%string.
Definition JOB_OUTCOMES : list string := ["success"; "partial"; "failure"; "cancel"; "overlap"]%string.
Definition BACKFILL_OUTCOMES : list string := ["generated"; "failed"; "tombstoned"]%string.
Definition SURFACES : list string := ["rest"; "mcp"]%string.
Definition LOCK_KINDS : list string := ["read"; "write"; "maintenance"]%string.

(** [prometheus_recorder.py:104-105 _bounded] *)
Definition bounded (value : string) (allowed : list string) : string :=
  if bool_decide (value ∈ allowed) then value else UNKNOWN.

Definition FZERO : spec_float := S754_zero false.
(** [prometheus_recorder.py:108-112 _duration] of a float; [max] keeps its first
    argument unless the second is greater, so a NaN is no time. *)
Definition duration_of (value : spec_float) : spec_float := if SFltb FZERO value then value else FZERO.

Definition UNOBSERVED : list string :=
  ["/health"; "/api/v1/health"; "/docs"; "/docs/"; "/docs/oauth2-redirect"; "/redoc"; "/redoc/"; "/openapi.json";
   "/metrics"; "/metrics/"]%string.
Definition FIXED_ROUTES : list string :=
  ["/api/v1/memory"; "/api/v1/memory/search"; "/api/v1/memory/stats"; "/api/v1/memory/embed"; "/api/v1/project"]%string.
(** [prometheus_recorder.py:115-148 normalize_http_route] *)
Definition normalize_http_route (path : string) : option string :=
  if bool_decide (path ∈ UNOBSERVED) then None
  else if bool_decide (path ∈ FIXED_ROUTES) then Some path
  else if starts_with "/api/v1/memory/" path then Some "/api/v1/memory/{memory_id}"%string
  else if starts_with "/api/v1/project/" path then Some "/api/v1/project/{project_id}"%string
  else if bool_decide (path ∈ ["/mcp"; "/mcp/"]%string) then Some "/mcp"%string
  else Some UNKNOWN.

(** [prometheus_recorder.py:151-154 _status_class] *)
Definition status_class (status_code : Z) : string :=
  if (100 <=? status_code) && (status_code <=? 599) then str_of_Z (status_code / 100) +:+ "xx" else "other".

(** ** prometheus-client *)

Inductive family :=
| http_requests | http_duration | mcp_executions | mcp_duration | inflight | lock_wait | lock_hold
| embedding_operations | embedding_duration | search_stage_duration | search_fallbacks | job_runs | job_duration
| job_last_success | backfill_items | recorder_healthy | recorder_errors | build_info.
#[export] Instance family_eq_dec : EqDecision family.
Proof. solve_decision. Defined.
#[export] Instance family_countable : Countable family.
Proof.
  set (all := [http_requests; http_duration; mcp_executions; mcp_duration; inflight; lock_wait; lock_hold;
    embedding_operations; embedding_duration; search_stage_duration; search_fallbacks; job_runs; job_duration;
    job_last_success; backfill_items; recorder_healthy; recorder_errors; build_info]).
  refine (inj_countable (λ f, default 0%nat (fst <$> list_find (eq f) all)) (λ n, all !! n) _).
  by intros [].
Defined.
Inductive action := inc | dec | observe (v : spec_float) | set_to (v : spec_float).

Definition decimals (l : list (Z * Z)) : list spec_float := map (λ x, f64_of_decimal x.1 x.2) l.
(** [prometheus_recorder.py:24-39 REQUEST_BUCKETS] *)
Definition REQUEST_BUCKETS : list spec_float :=
  decimals [(1, -3); (5, -3); (1, -2); (25, -3); (5, -2); (1, -1); (25, -2); (5, -1); (1, 0); (25, -1); (5, 0); (10, 0); (30, 0); (60, 0)].
(** [prometheus_recorder.py:40-40 LOCK_BUCKETS] *)
Definition LOCK_BUCKETS : list spec_float :=
  decimals [(1, -4); (5, -4); (1, -3); (5, -3); (1, -2); (5, -2); (1, -1); (5, -1); (1, 0); (5, 0); (30, 0)].
(** [prometheus_recorder.py:41-41 JOB_BUCKETS] *)
Definition JOB_BUCKETS : list spec_float :=
  decimals [(1, -2); (1, -1); (5, -1); (1, 0); (5, 0); (30, 0); (60, 0); (300, 0); (900, 0); (3600, 0)].

Inductive instrument :=
| Counter (name : string) (label_names : list string)
| Gauge (name : string) (label_names : list string)
| Histogram (name : string) (label_names : list string) (buckets : list spec_float).
Definition label_names (i : instrument) : list string :=
  match i with Counter _ l | Gauge _ l | Histogram _ l _ => l end.
(** [prometheus_recorder.py:176-289 PrometheusMetricsRecorder.__init__] The
    instruments the recorder registers, without their documentation. *)
Definition instrument_of (f : family) : instrument :=
  match f with
  | http_requests => Counter "oc_http_requests_total" ["route"; "method"; "status_class"]
  | http_duration => Histogram "oc_http_request_duration_seconds" ["route"; "method"] REQUEST_BUCKETS
  | mcp_executions => Counter "oc_mcp_executions_total" ["tool"; "outcome"]
  | mcp_duration => Histogram "oc_mcp_execution_duration_seconds" ["tool"] REQUEST_BUCKETS
  | inflight => Gauge "oc_requests_inflight" ["surface"]
  | lock_wait => Histogram "oc_store_lock_wait_seconds" ["kind"] LOCK_BUCKETS
  | lock_hold => Histogram "oc_store_lock_hold_seconds" ["kind"] REQUEST_BUCKETS
  | embedding_operations => Counter "oc_embedding_operations_total" ["provider"; "operation"; "outcome"]
  | embedding_duration => Histogram "oc_embedding_operation_duration_seconds" ["provider"; "operation"] REQUEST_BUCKETS
  | search_stage_duration => Histogram "oc_search_stage_duration_seconds" ["stage"] REQUEST_BUCKETS
  | search_fallbacks => Counter "oc_search_fallbacks_total" ["reason"]
  | job_runs => Counter "oc_job_runs_total" ["job"; "outcome"]
  | job_duration => Histogram "oc_job_duration_seconds" ["job"] JOB_BUCKETS
  | job_last_success => Gauge "oc_job_last_success_timestamp_seconds" ["job"]
  | backfill_items => Counter "oc_backfill_items_total" ["outcome"]
  | recorder_healthy => Gauge "oc_metrics_recorder_healthy" []
  | recorder_errors => Counter "oc_metrics_recorder_errors_total" ["operation"]
  | build_info => Gauge "oc_build_info" ["version"; "revision"]
  end%string.

(** [instrument.labels(...)], the child it returns and what is done to it;
    an instrument without labels is its own child.  Any of them may raise. *)
Class Prometheus (W Child : Type) := {
  labels : family → list string → SE W exn Child;
  bare : family → Child;
  act : Child → action → SE W exn unit;
}.
#[global] Arguments labels : simpl never.
#[global] Arguments act : simpl never.

(** ** The recorder *)

(** [prometheus_recorder.py:292-314 PrometheusMetricsRecorder.__init__] The fields: caches
    of children under their labels, the health last published, the slot of a scrape
    and whether a warning was logged. *)
Record recorder (Child : Type) := mkRecorder {
  healthy : bool;
  inflight_children : gmap string Child;
  lock_children : gmap string (Child * Child);
  stage_children : gmap string Child;
  http_request_children : gmap (string * string * string) Child;
  http_duration_children : gmap (string * string) Child;
  embedding_operation_children : gmap (string * string * string) Child;
  embedding_duration_children : gmap (string * string) Child;
  scrape_slot : bool;
  warning_emitted : bool;
}.
#[global] Arguments mkRecorder {Child}.
#[global] Arguments healthy {Child}.
#[global] Arguments inflight_children {Child}.
#[global] Arguments lock_children {Child}.
#[global] Arguments stage_children {Child}.
#[global] Arguments http_request_children {Child}.
#[global] Arguments http_duration_children {Child}.
#[global] Arguments embedding_operation_children {Child}.
#[global] Arguments embedding_duration_children {Child}.
#[global] Arguments scrape_slot {Child}.
#[global] Arguments warning_emitted {Child}.

Section recorder.
Context {W Child : Type} `{!Prometheus W Child}.
Notation Rec := (recorder Child).
Notation M := (SE (Rec * W) exn).

(** A field that is a cache. *)
Record cache (K V : Type) `{Countable K} := mkCache { entries : Rec → gmap K V; set_entries : gmap K V → Rec → Rec }.
#[global] Arguments mkCache {K V _ _}.
#[global] Arguments entries {K V _ _}.
#[global] Arguments set_entries {K V _ _}.

Definition inflight_cache : cache string Child := mkCache inflight_children
  (λ m r, mkRecorder (healthy r) m (lock_children r) (stage_children r) (http_request_children r)
    (http_duration_children r) (embedding_operation_children r) (embedding_duration_children r) (scrape_slot r) (warning_emitted r)).
Definition lock_cache : cache string (Child * Child) := mkCache lock_children
  (λ m r, mkRecorder (healthy r) (inflight_children r) m (stage_children r) (http_request_children r)
    (http_duration_children r) (embedding_operation_children r) (embedding_duration_children r) (scrape_slot r) (warning_emitted r)).
Definition stage_cache : cache string Child := mkCache stage_children
  (λ m r, mkRecorder (healthy r) (inflight_children r) (lock_children r) m (http_request_children r)
    (http_duration_children r) (embedding_operation_children r) (embedding_duration_children r) (scrape_slot r) (warning_emitted r)).
Definition http_request_cache : cache (string * string * string) Child := mkCache http_request_children
  (λ m r, mkRecorder (healthy r) (inflight_children r) (lock_children r) (stage_children r) m
    (http_duration_children r) (embedding_operation_children r) (embedding_duration_children r) (scrape_slot r) (warning_emitted r)).
Definition http_duration_cache : cache (string * string) Child := mkCache http_duration_children
  (λ m r, mkRecorder (healthy r) (inflight_children r) (lock_children r) (stage_children r) (http_request_children r)
    m (embedding_operation_children r) (embedding_duration_children r) (scrape_slot r) (warning_emitted r)).
Definition embedding_operation_cache : cache (string * string * string) Child := mkCache embedding_operation_children
  (λ m r, mkRecorder (healthy r) (inflight_children r) (lock_children r) (stage_children r) (http_request_children r)
    (http_duration_children r) m (embedding_duration_children r) (scrape_slot r) (warning_emitted r)).
Definition embedding_duration_cache : cache (string * string) Child := mkCache embedding_duration_children
  (λ m r, mkRecorder (healthy r) (inflight_children r) (lock_children r) (stage_children r) (http_request_children r)
    (http_duration_children r) (embedding_operation_children r) m (scrape_slot r) (warning_emitted r)).
Definition set_healthy (b : bool) (r : Rec) : Rec :=
  mkRecorder b (inflight_children r) (lock_children r) (stage_children r) (http_request_children r)
    (http_duration_children r) (embedding_operation_children r) (embedding_duration_children r) (scrape_slot r) (warning_emitted r).
Definition set_slot (b : bool) (r : Rec) : Rec :=
  mkRecorder (healthy r) (inflight_children r) (lock_children r) (stage_children r) (http_request_children r)
    (http_duration_children r) (embedding_operation_children r) (embedding_duration_children r) b (warning_emitted r).
Definition set_warned (b : bool) (r : Rec) : Rec :=
  mkRecorder (healthy r) (inflight_children r) (lock_children r) (stage_children r) (http_request_children r)
    (http_duration_children r) (embedding_operation_children r) (embedding_duration_children r) (scrape_slot r) b.

Definition on_lib {A} (m : SE W exn A) : M A := λ s, let (w, r) := m s.2 in ((s.1, w), r).
Definition on_rec (f : Rec → Rec) : M unit := modify (λ s, (f s.1, s.2)).
(** [with suppress(Exception): m] *)
Definition suppress (m : M unit) : M unit := try_catch m (λ _, ret tt).
(** A child from its cache, or made and remembered. *)
Definition cached {K V} `{Countable K} (c : cache K V) (k : K) (make : M V) : M V :=
  let* s := get_st in
  match entries c s.1 !! k with
  | Some v => ret v
  | None => let* v := make in on_rec (λ r, set_entries c (<[k := v]> (entries c r)) r) ;; ret v
  end.

(** [prometheus_recorder.py:290-314 PrometheusMetricsRecorder.__init__] *)
Definition new_recorder (version revision : string) : SE W exn Rec :=
  let* c := labels build_info [version; revision] in
  act c (set_to (f64_of_Z 1)) ;;
  act (bare recorder_healthy) (set_to (f64_of_Z 1)) ;;
  ret (mkRecorder true ∅ ∅ ∅ ∅ ∅ ∅ ∅ false false).

(** [prometheus_recorder.py:326-331 _mark_error] What it does under the health lock. *)
Definition publish_failure : M unit :=
  on_rec (set_healthy false) ;;
  suppress (on_lib (act (bare recorder_healthy) (set_to FZERO))).
(** [prometheus_recorder.py:322-337 _mark_error] *)
Definition mark_error (operation : string) : M unit :=
  publish_failure ;;
  suppress (let* c := on_lib (labels recorder_errors [operation]) in on_lib (act c inc)) ;;
  on_rec (set_warned true).
(** [prometheus_recorder.py:339-343 _mark_success] *)
Definition mark_success : M unit :=
  let* s := get_st in
  if healthy s.1 then ret tt
  else on_lib (act (bare recorder_healthy) (set_to (f64_of_Z 1))) ;; on_rec (set_healthy true).
(** [prometheus_recorder.py:345-350 _safe] *)
Definition safe (operation : string) (callback : M unit) : M unit :=
  try_catch (callback ;; mark_success) (λ _, mark_error operation).

(** [prometheus_recorder.py:358-363 _inflight_child] *)
Definition inflight_child (surface : string) : M Child := cached inflight_cache surface (on_lib (labels inflight [surface])).
(** [prometheus_recorder.py:352-353 inflight_inc] *)
Definition prom_inflight_inc (surface : string) : M unit :=
  safe "inflight_inc" (let* c := inflight_child (bounded surface SURFACES) in on_lib (act c inc)).
(** [prometheus_recorder.py:355-356 inflight_dec] *)
Definition prom_inflight_dec (surface : string) : M unit :=
  safe "inflight_dec" (let* c := inflight_child (bounded surface SURFACES) in on_lib (act c dec)).
(** [prometheus_recorder.py:365-395 observe_http] *)
Definition prom_observe_http (path method : string) (status_code : Z) (duration_seconds : spec_float) : M unit :=
  match normalize_http_route path with
  | None => ret tt
  | Some route =>
      let bounded_method := bounded method HTTP_METHODS in
      let duration := duration_of duration_seconds in
      safe "http" (
        let cl := status_class status_code in
        let* counter := cached http_request_cache (route, bounded_method, cl)
          (on_lib (labels http_requests [route; bounded_method; cl])) in
        on_lib (act counter inc) ;;
        let* histogram := cached http_duration_cache (route, bounded_method)
          (on_lib (labels http_duration [route; bounded_method])) in
        on_lib (act histogram (observe duration)))
  end.
(** [prometheus_recorder.py:397-406 observe_mcp] *)
Definition prom_observe_mcp (tool outcome : string) (duration_seconds : spec_float) : M unit :=
  let bounded_tool := bounded tool MCP_TOOLS in
  let bounded_outcome := bounded outcome MCP_OUTCOMES in
  let duration := duration_of duration_seconds in
  safe "mcp" (
    let* c := on_lib (labels mcp_executions [bounded_tool; bounded_outcome]) in
    on_lib (act c inc) ;;
    let* h := on_lib (labels mcp_duration [bounded_tool]) in
    on_lib (act h (observe duration))).
(** [prometheus_recorder.py:408-421 observe_store_lock] *)
Definition prom_observe_store_lock (kind : string) (wait_seconds hold_seconds : spec_float) : M unit :=
  let bounded_kind := bounded kind LOCK_KINDS in
  let wait := duration_of wait_seconds in
  let hold := duration_of hold_seconds in
  safe "store_lock" (
    let* children := cached lock_cache bounded_kind (
      let* w := on_lib (labels lock_wait [bounded_kind]) in
      let* h := on_lib (labels lock_hold [bounded_kind]) in ret (w, h)) in
    on_lib (act children.1 (observe wait)) ;;
    on_lib (act children.2 (observe hold))).
(** [prometheus_recorder.py:423-450 observe_embedding] *)
Definition prom_observe_embedding (provider operation outcome : string) (duration_seconds : spec_float) : M unit :=
  let bounded_provider := bounded provider PROVIDERS in
  let bounded_operation := bounded operation EMBEDDING_OPERATIONS in
  let bounded_outcome := bounded outcome EMBEDDING_OUTCOMES in
  let duration := duration_of duration_seconds in
  safe "embedding" (
    let* counter := cached embedding_operation_cache (bounded_provider, bounded_operation, bounded_outcome)
      (on_lib (labels embedding_operations [bounded_provider; bounded_operation; bounded_outcome])) in
    on_lib (act counter inc) ;;
    let* histogram := cached embedding_duration_cache (bounded_provider, bounded_operation)
      (on_lib (labels embedding_duration [bounded_provider; bounded_operation])) in
    on_lib (act histogram (observe duration))).
(** [prometheus_recorder.py:452-461 observe_search_stage] *)
Definition prom_observe_search_stage (stage : string) (duration_seconds : spec_float) : M unit :=
  safe "search_stage" (
    let bounded_stage := bounded stage SEARCH_STAGES in
    let* child := cached stage_cache bounded_stage (on_lib (labels search_stage_duration [bounded_stage])) in
    on_lib (act child (observe (duration_of duration_seconds)))).
(** [prometheus_recorder.py:463-467 observe_search_fallback] *)
Definition prom_observe_search_fallback (reason : string) : M unit :=
  safe "search_fallback" (let* c := on_lib (labels search_fallbacks [bounded reason FALLBACK_REASONS]) in on_lib (act c inc)).
(** [prometheus_recorder.py:469-478 observe_job] *)
Definition prom_observe_job (name outcome : string) (duration_seconds : option spec_float) : M unit :=
  let bounded_name := bounded name JOB_NAMES in
  let bounded_outcome := bounded outcome JOB_OUTCOMES in
  safe "job" (
    let* c := on_lib (labels job_runs [bounded_name; bounded_outcome]) in
    on_lib (act c inc) ;;
    match duration_seconds with
    | Some d => let* h := on_lib (labels job_duration [bounded_name]) in on_lib (act h (observe (duration_of d)))
    | None => ret tt
    end).
(** [prometheus_recorder.py:480-486 set_job_last_success] [max] as in [_duration]. *)
Definition prom_set_job_last_success (name : string) (timestamp_seconds : spec_float) : M unit :=
  safe "job_last_success" (
    let* c := on_lib (labels job_last_success [bounded name JOB_NAMES]) in
    on_lib (act c (set_to (duration_of timestamp_seconds)))).
(** [prometheus_recorder.py:488-492 observe_backfill_item] *)
Definition prom_observe_backfill_item (outcome : string) : M unit :=
  safe "backfill_item" (let* c := on_lib (labels backfill_items [bounded outcome BACKFILL_OUTCOMES]) in on_lib (act c inc)).

(** The recorder as an instance of the port. *)
#[export] Instance PrometheusMetricsRecorder : MetricsRecorder (Rec * W) := {|
  enabled := true;
  inflight_inc := prom_inflight_inc; inflight_dec := prom_inflight_dec; observe_http := prom_observe_http;
  observe_mcp := prom_observe_mcp; observe_store_lock := prom_observe_store_lock;
  observe_embedding := prom_observe_embedding; observe_search_stage := prom_observe_search_stage;
  observe_search_fallback := prom_observe_search_fallback; observe_job := prom_observe_job;
  set_job_last_success := prom_set_job_last_success; observe_backfill_item := prom_observe_backfill_item |}.

(** ** Scrapes *)

Inductive scrape_error := MetricsScrapeBusyError | MetricsScrapeError.
(** [prometheus_recorder.py:494-501 _render_owned] on the worker, which owns the
    slot; [generate_latest] is the exporter. *)
Definition render_owned (generate_latest : SE W exn string) : SE (Rec * W) scrape_error string := λ s,
  let (s1, r) := on_lib generate_latest s in
  match r with
  | Ok b => ((set_slot false s1.1, s1.2), Ok b)
  | Raise _ => let s2 := (mark_error "scrape" s1).1 in ((set_slot false s2.1, s2.2), Raise MetricsScrapeError)
  end.
(** [prometheus_recorder.py:503-514 render] up to the worker; [spawned]: the
    creation of its task did not raise. *)
Definition begin_render (spawned : bool) : SE (Rec * W) (option scrape_error) unit := λ s,
  if scrape_slot s.1 then (s, Raise (Some MetricsScrapeBusyError))
  else if spawned then ((set_slot true s.1, s.2), Ok tt) else ((set_slot false s.1, s.2), Raise None).
End recorder.

(** * What observes, and what is served beside the routes

    [middleware/metrics.py] around every HTTP exchange, the wrapper of
    [mcp/server.py] around every tool with its refusal of undeclared arguments,
    and the scrape route and the exact [/mcp] route of [api/app.py].  The metrics'
    state [M] is apart from the state [I] of the application.  An ASGI application
    yields the messages it sent, in order, and how it ended; the middleware
    forwards each message as it is. *)

Inductive raised := ExceptionRaised (e : exn) | CancelledError.

Record scope := mkScope { scope_type : string; scope_path : string; scope_method : string }.
(** [response_start]: the [status] of the message, where it is an [int]. *)
Inductive message := response_start (status : option Z) | other_message.

Section observers.
Context {M I : Type} `{!MetricsRecorder M}.
Notation ASGIApp := (scope → M * I → (M * I) * (list message * option raised)).

(** [middleware/metrics.py:59-63 _safe_call] *)
Definition safe_call (callback : SE M exn unit) (s : M * I) : M * I := ((callback s.1).1, s.2).

(** [middleware/metrics.py:35-40 send_wrapper] over the messages of an exchange. *)
Definition seen_status (sent : list message) : Z :=
  foldl (λ status_code m, match m with response_start (Some raw_status) => raw_status | _ => status_code end) 500 sent.

(** [middleware/metrics.py:24-56 MetricsMiddleware.__call__] *)
Definition metrics_middleware (elapsed : spec_float) (app : ASGIApp) : ASGIApp := λ sc s,
  if negb (bool_decide (scope_type sc = "http"%string)) then app sc s
  else
    let s := safe_call (inflight_inc "rest") s in
    let '(s, (sent, e)) := app sc s in
    let s := safe_call (inflight_dec "rest") s in
    let s := safe_call (observe_http (scope_path sc) (scope_method sc) (seen_status sent) elapsed) s in
    (s, (sent, e)).

(** ** Tools *)

(** [mcp/server.py:30-42 _mcp_outcome] A list or an object has no hash to look
    up in a set. *)
Definition mcp_outcome (result : json) : Prelude.result exn string :=
  match result with
  | JObj l =>
      match default JNull (jget "status" l) with
      | JStr status =>
          Ok (if bool_decide (status = "started"%string) then "started"%string
              else if bool_decide (status = "partial"%string) then "partial"%string
              else if bool_decide (status ∈ ["already_running"; "rejected"]%string) then "rejected"%string
              else if bool_decide (status ∈ ["error"; "failed"]%string) then "error"%string else "ok"%string)
      | JArr _ | JObj _ => Raise TypeError
      | _ => Ok "ok"%string
      end
  | _ => Ok "ok"%string
  end.

(** [mcp/server.py:83-138 MetricsFastMCP._wrap_handler] [coroutine]: the handler is
    a coroutine function, and cancelling it is told apart. *)
Definition wrap_handler {A} (coroutine : bool) (elapsed : spec_float) (fn : A → SE (M * I) raised json) (tool_name : string)
    : A → SE (M * I) raised json :=
  if negb enabled then fn
  else λ a s,
    let s := safe_call (inflight_inc "mcp") s in
    let (s, r) := fn a s in
    let '(outcome, r) := match r with
      | Ok v => match mcp_outcome v with
          | Ok o => (o, Ok v)
          | Raise e => ("error"%string, Raise (ExceptionRaised e)) end
      | Raise CancelledError => (if coroutine then "cancelled"%string else "error"%string, r)
      | Raise (ExceptionRaised _) => ("error"%string, r)
      end in
    let s := safe_call (observe_mcp tool_name outcome elapsed) s in
    let s := safe_call (inflight_dec "mcp") s in
    (s, r).
End observers.

Record tool := mkTool { tool_name : string; model_fields : list (string * option string) }.
(** [info.alias or field_name] *)
Definition accepted_name (f : string * option string) : string :=
  match f.2 ≫= non_empty with Some alias => alias | None => f.1 end.
(** [mcp/server.py:179-184 _reject_unknown_arguments] The undeclared keys. *)
Definition unknown_arguments (t : tool) (arguments : list string) : list string :=
  merge_sort str_leb (filter (λ key, key ∉ map accepted_name (model_fields t) ++ map fst (model_fields t)) arguments).

Inductive tool_error := UnknownArguments (tool : string) (keys : list string) | Dispatched (e : raised).
(** [mcp/server.py:147-160 MetricsFastMCP.call_tool] *)
Definition call_tool {S R} (tools : gmap string tool) (dispatch : string → list (string * json) → SE S raised R)
    (name : string) (arguments : list (string * json)) : SE S tool_error R := λ s,
  let go := let (s', r) := dispatch name arguments s in
            (s', match r with Ok v => Ok v | Raise e => Raise (Dispatched e) end) in
  match tools !! name with
  | Some t => match unknown_arguments t (map fst arguments) with [] => go | keys => (s, Raise (UnknownArguments (tool_name t) keys)) end
  | None => go
  end.

(** ** Routes of the application itself *)

(** [app.py:36-52 _ServeExactMcpPath] *)
Definition serve_exact_mcp_path {R} (router : scope → R) (sc : scope) : R :=
  router (mkScope (scope_type sc) "/mcp/" (scope_method sc)).

(** [app.py:253-260 create_app metrics] What [render] gave: the body, or its error. *)
Definition metrics_route (content_type : string) (rendered : result scrape_error string) : Z * option string * list (string * string) :=
  match rendered with
  | Ok body => (200, Some body, [("content-type"%string, content_type)])
  | Raise MetricsScrapeBusyError => (503, None, [("Retry-After"%string, "1"%string)])
  | Raise MetricsScrapeError => (503, None, [])
  end.
