(* ===== verification/MetricsProps.v ===== *)
(** * What the metrics guarantee

    Series stay within the fixed label values, whatever strings observations
    carry; the caches of children change nothing that is recorded; a failing
    prometheus-client is never noticed by the callers; one scrape runs at a time.
    prometheus-client enters through [PrometheusLaws]. *)

From S2P Require Import Prelude PyStr PyText Sha256 Domain PyNum Config Http Metrics.
Local Open Scope Z_scope.
Local Open Scope prog_scope.

(** ** prometheus-client *)

Abbreviation series := (family * list string)%type.
Abbreviation entry := (series * action)%type.
(** [log]: what the instruments were told, in order.  Looking up a child records
    nothing and yields the child of its labels; an action either records itself or
    raises and records nothing. *)
Class PrometheusLaws (W Child : Type) `{!Prometheus W Child} := {
  log : W → list entry;
  child_of : Child → series;
  labels_log : ∀ f ls w, log (labels f ls w).1 = log w;
  labels_child : ∀ f ls w c, (labels f ls w).2 = Ok c → child_of c = (f, ls);
  bare_child : ∀ f, child_of (bare f) = (f, []);
  act_ok : ∀ c a w, (act c a w).2 = Ok tt → log (act c a w).1 = log w ++ [(child_of c, a)];
  act_raised : ∀ c a w e, (act c a w).2 = Raise e → log (act c a w).1 = log w;
}.

(** ** Label spaces *)

Definition with_unknown (l : list string) : list string := UNKNOWN :: l.
Definition ROUTES : list string :=
  with_unknown (FIXED_ROUTES ++ ["/api/v1/memory/{memory_id}"; "/api/v1/project/{project_id}"; "/mcp"]%string).
Definition STATUS_CLASSES : list string := ["1xx"; "2xx"; "3xx"; "4xx"; "5xx"; "other"]%string.
Definition OPERATIONS : list string :=
  ["inflight_inc"; "inflight_dec"; "http"; "mcp"; "store_lock"; "embedding"; "search_stage"; "search_fallback"; "job";
   "job_last_success"; "backfill_item"; "scrape"]%string.

Fixpoint tuples (ls : list (list string)) : list (list string) :=
  match ls with [] => [[]] | l :: ls => x ← l; map (cons x) (tuples ls) end.
(** The label values a family may carry. *)
Definition label_values (f : family) : list (list string) :=
  match f with
  | http_requests => [ROUTES; with_unknown HTTP_METHODS; STATUS_CLASSES]
  | http_duration => [ROUTES; with_unknown HTTP_METHODS]
  | mcp_executions => [with_unknown MCP_TOOLS; with_unknown MCP_OUTCOMES]
  | mcp_duration => [with_unknown MCP_TOOLS]
  | inflight => [with_unknown SURFACES]
  | lock_wait | lock_hold => [with_unknown LOCK_KINDS]
  | embedding_operations => [with_unknown PROVIDERS; with_unknown EMBEDDING_OPERATIONS; with_unknown EMBEDDING_OUTCOMES]
  | embedding_duration => [with_unknown PROVIDERS; with_unknown EMBEDDING_OPERATIONS]
  | search_stage_duration => [with_unknown SEARCH_STAGES]
  | search_fallbacks => [with_unknown FALLBACK_REASONS]
  | job_runs => [with_unknown JOB_NAMES; with_unknown JOB_OUTCOMES]
  | job_duration | job_last_success => [with_unknown JOB_NAMES]
  | backfill_items => [with_unknown BACKFILL_OUTCOMES]
  | recorder_healthy => []
  | recorder_errors => [OPERATIONS]
  | build_info => []
  end.
Definition in_space (x : series) : Prop := Forall2 (λ v l, v ∈ l) x.2 (label_values x.1).

Lemma tuples_spec ls t : t ∈ tuples ls ↔ Forall2 (λ v l, v ∈ l) t ls.
Proof.
  revert t. induction ls as [|l ls IH]; intros t; simpl.
  - rewrite list_elem_of_singleton. split; [intros ->; constructor|by inversion 1].
  - rewrite list_elem_of_bind. setoid_rewrite list_elem_of_fmap. setoid_rewrite IH. split.
    + intros (x & (t' & -> & Ht) & Hx). by constructor.
    + inversion 1; subst. eauto 6.
Qed.

Lemma bounded_in value allowed : bounded value allowed ∈ with_unknown allowed.
Proof. unfold bounded, with_unknown. case_bool_decide; by constructor. Qed.

Lemma route_in path r : normalize_http_route path = Some r → r ∈ ROUTES.
Proof.
  unfold normalize_http_route, ROUTES, with_unknown. intros H.
  repeat (case_match; simplify_eq/=; try done); try set_solver.
  rename select (bool_decide (_ ∈ FIXED_ROUTES) = true) into Hr. apply bool_decide_eq_true in Hr. set_solver.
Qed.

Lemma status_class_in n : status_class n ∈ STATUS_CLASSES.
Proof.
  unfold status_class. destruct ((100 <=? n) && (n <=? 599)) eqn:E; [|set_solver].
  assert (1 ≤ n / 100 ≤ 5) as H by (split; [apply Z.div_le_lower_bound|apply Z.lt_succ_r, Z.div_lt_upper_bound]; lia).
  assert (n / 100 = 1 ∨ n / 100 = 2 ∨ n / 100 = 3 ∨ n / 100 = 4 ∨ n / 100 = 5) as [->|[->|[->|[->| ->]]]] by lia;
    vm_compute; repeat constructor.
Qed.

Create HintDb labels.
#[export] Hint Resolve bounded_in route_in status_class_in : labels.

(** ** Sequences of observations *)

Inductive call :=
| CInc (surface : string) | CDec (surface : string)
| CHttp (path method : string) (status_code : Z) (seconds : spec_float)
| CMcp (tool outcome : string) (seconds : spec_float)
| CLock (kind : string) (wait hold : spec_float)
| CEmbedding (provider operation outcome : string) (seconds : spec_float)
| CStage (stage : string) (seconds : spec_float)
| CFallback (reason : string)
| CJob (name outcome : string) (seconds : option spec_float)
| CLastSuccess (name : string) (timestamp : spec_float)
| CBackfill (outcome : string).
Definition perform {M} `{!MetricsRecorder M} (c : call) : SE M exn unit :=
  match c with
  | CInc s => inflight_inc s | CDec s => inflight_dec s
  | CHttp p m n d => observe_http p m n d | CMcp t o d => observe_mcp t o d | CLock k w h => observe_store_lock k w h
  | CEmbedding p o u d => observe_embedding p o u d | CStage s d => observe_search_stage s d
  | CFallback r => observe_search_fallback r | CJob n o d => observe_job n o d
  | CLastSuccess n t => set_job_last_success n t | CBackfill o => observe_backfill_item o
  end.

(** What a call records, without caches and failures. *)
Definition observations (c : call) : list entry :=
  match c with
  | CInc s => [((inflight, [bounded s SURFACES]), inc)]
  | CDec s => [((inflight, [bounded s SURFACES]), dec)]
  | CHttp p m n d =>
      match normalize_http_route p with
      | None => []
      | Some r => [((http_requests, [r; bounded m HTTP_METHODS; status_class n]), inc);
                   ((http_duration, [r; bounded m HTTP_METHODS]), observe (duration_of d))]
      end
  | CMcp t o d => [((mcp_executions, [bounded t MCP_TOOLS; bounded o MCP_OUTCOMES]), inc);
                   ((mcp_duration, [bounded t MCP_TOOLS]), observe (duration_of d))]
  | CLock k w h => [((lock_wait, [bounded k LOCK_KINDS]), observe (duration_of w));
                    ((lock_hold, [bounded k LOCK_KINDS]), observe (duration_of h))]
  | CEmbedding p o u d =>
      [((embedding_operations, [bounded p PROVIDERS; bounded o EMBEDDING_OPERATIONS; bounded u EMBEDDING_OUTCOMES]), inc);
       ((embedding_duration, [bounded p PROVIDERS; bounded o EMBEDDING_OPERATIONS]), observe (duration_of d))]
  | CStage s d => [((search_stage_duration, [bounded s SEARCH_STAGES]), observe (duration_of d))]
  | CFallback r => [((search_fallbacks, [bounded r FALLBACK_REASONS]), inc)]
  | CJob n o d => ((job_runs, [bounded n JOB_NAMES; bounded o JOB_OUTCOMES]), inc) ::
      match d with Some d => [((job_duration, [bounded n JOB_NAMES]), observe (duration_of d))] | None => [] end
  | CLastSuccess n t => [((job_last_success, [bounded n JOB_NAMES]), set_to (duration_of t))]
  | CBackfill o => [((backfill_items, [bounded o BACKFILL_OUTCOMES]), inc)]
  end.

Definition key3 (k : string * string * string) : list string := [k.1.1; k.1.2; k.2].
Definition key2 (k : string * string) : list string := [k.1; k.2].
Ltac space := cbv [in_space key3 key2 fst snd label_values]; repeat (constructor; [by eauto with labels|]); constructor.

Section laws.
Context {W Child : Type} `{!Prometheus W Child} `{!PrometheusLaws W Child}.
Notation Rec := (recorder Child).
Notation St := (Rec * W)%type.

(** ** Caches hold the children of their keys *)

Definition holds (f : family) (ls : list string) (c : Child) : Prop := child_of c = (f, ls) ∧ in_space (f, ls).
Definition entries_ok {K V} `{Countable K} (P : K → V → Prop) (m : gmap K V) : Prop := map_Forall P m.
Definition caches_ok (r : Rec) : Prop :=
  map_Forall (λ k, holds inflight [k]) (inflight_children r) ∧
  map_Forall (λ k cs, holds lock_wait [k] cs.1 ∧ holds lock_hold [k] cs.2) (lock_children r) ∧
  map_Forall (λ k, holds search_stage_duration [k]) (stage_children r) ∧
  map_Forall (λ k, holds http_requests (key3 k)) (http_request_children r) ∧
  map_Forall (λ k, holds http_duration (key2 k)) (http_duration_children r) ∧
  map_Forall (λ k, holds embedding_operations (key3 k)) (embedding_operation_children r) ∧
  map_Forall (λ k, holds embedding_duration (key2 k)) (embedding_duration_children r).

(** The seven caches, each with what its entries satisfy. *)
Class CacheOk {K V} `{Countable K} (c : cache K V) (P : K → V → Prop) := {
  cache_get : ∀ r k v, caches_ok r → entries c r !! k = Some v → P k v;
  cache_put : ∀ r k v, caches_ok r → P k v → caches_ok (set_entries c (<[k := v]> (entries c r)) r);
  cache_healthy : ∀ r m, healthy (set_entries c m r) = healthy r;
}.
Ltac solve_cache := split; [ intros r k v (?&?&?&?&?&?&?) Hl; simpl in Hl;
    match goal with H : map_Forall _ ?m |- _ =>
      lazymatch type of Hl with m !! _ = _ => exact (map_Forall_lookup_1 _ _ _ _ H Hl) end end
  | intros r k v (?&?&?&?&?&?&?) ?; unfold caches_ok; simpl; split_and!; by try apply map_Forall_insert_2
  | done ].
#[export] Instance inflight_ok : CacheOk inflight_cache (λ k, holds inflight [k]).
Proof. solve_cache. Qed.
#[export] Instance lock_ok : CacheOk lock_cache (λ k cs, holds lock_wait [k] cs.1 ∧ holds lock_hold [k] cs.2).
Proof. solve_cache. Qed.
#[export] Instance stage_ok : CacheOk stage_cache (λ k, holds search_stage_duration [k]).
Proof. solve_cache. Qed.
#[export] Instance http_request_ok : CacheOk http_request_cache (λ k, holds http_requests (key3 k)).
Proof. solve_cache. Qed.
#[export] Instance http_duration_ok : CacheOk http_duration_cache (λ k, holds http_duration (key2 k)).
Proof. solve_cache. Qed.
#[export] Instance embedding_operation_ok : CacheOk embedding_operation_cache (λ k, holds embedding_operations (key3 k)).
Proof. solve_cache. Qed.
#[export] Instance embedding_duration_ok : CacheOk embedding_duration_cache (λ k, holds embedding_duration (key2 k)).
Proof. solve_cache. Qed.

Definition remember {K V} `{Countable K} (c : cache K V) (k : K) (make : SE St exn V) : SE St exn V :=
  (let* v := make in on_rec (λ r, set_entries c (<[k := v]> (entries c r)) r) ;; ret v)%prog.
Lemma cached_eq {K V} `{Countable K} (c : cache K V) (k : K) make s :
  cached c k make s = match entries c s.1 !! k with Some v => (s, Ok v) | None => remember c k make s end.
Proof. unfold cached, bind at 1, get_st. by destruct (entries c s.1 !! k). Qed.
Lemma mark_success_eq s :
  mark_success s = if healthy s.1 then (s, Ok tt)
    else (on_lib (act (bare recorder_healthy) (set_to (f64_of_Z 1))) ;; on_rec (set_healthy true)) s.
Proof. unfold mark_success, bind at 1, get_st. by destruct (healthy s.1). Qed.

(** ** The invariant of any run *)

Definition recorder_inv (base : list entry) (s : St) : Prop :=
  caches_ok s.1 ∧ ∃ l, log s.2 = base ++ l ∧ Forall (λ e, in_space e.1) l.
Section inv.
Context (base : list entry).
Notation Inv := (recorder_inv base).

Lemma inv_lib (w w' : W) r l : Inv (r, w) → log w' = log w ++ l → Forall (λ e, in_space e.1) l → Inv (r, w').
Proof.
  intros [? (l0 & Hl & ?)] Hw ?. simpl in *. split; [done|]. exists (l0 ++ l). simpl.
  by rewrite Hw, Hl, <-app_assoc, Forall_app.
Qed.

Lemma ensures_labels f ls : in_space (f, ls) → ensures Inv (on_lib (labels f ls)) (holds f ls).
Proof.
  intros Hsp [r w] Hi. unfold on_lib. simpl. pose proof (labels_log f ls w) as Hl. pose proof (labels_child f ls w) as Hc.
  destruct (labels f ls w) as [w' res]; simpl in *. split; [|intros c ->; split; eauto].
  eapply (inv_lib _ _ _ []); [done| |done]. by rewrite app_nil_r.
Qed.

Lemma ensures_act c a : in_space (child_of c) → ensures Inv (on_lib (act c a)) (λ _, True).
Proof.
  intros Hc [r w] Hi. unfold on_lib. simpl. split; [|done].
  pose proof (act_ok c a w) as Hok. pose proof (act_raised c a w) as Hr. destruct (act c a w) as [w' [[]|e]]; simpl in *.
  - eapply inv_lib; eauto.
  - eapply (inv_lib _ _ _ []); [done| |done]. rewrite app_nil_r. by eapply Hr.
Qed.

Lemma ensures_on_rec f : (∀ r, caches_ok r → caches_ok (f r)) → ensures Inv (on_rec f) (λ _, True).
Proof. intros Hf. apply ensures_modify. intros [r w] [??]. split; [by apply Hf|done]. Qed.

Lemma ensures_cached {K V} `{Countable K} (c : cache K V) (P : K → V → Prop) `{!CacheOk c P} k (make : SE St exn V) :
  ensures Inv make (P k) → ensures Inv (cached c k make) (P k).
Proof.
  intros Hm s Hi. rewrite cached_eq. destruct (entries c s.1 !! k) as [v|] eqn:E.
  - apply (ensures_ret (recorder_inv base) v); [|done]. destruct Hi as [? _]. by eapply cache_get.
  - eapply ensures_bind; [done| |done]. intros v Hv.
    eapply (ensures_bind _ _ _ (λ _, True)); [|by intros _ _; apply ensures_ret].
    apply ensures_on_rec. intros r Hr. by apply cache_put.
Qed.

Lemma ensures_suppress m : ensures Inv m (λ _, True) → ensures Inv (suppress m) (λ _, True).
Proof. intros Hm. apply ensures_try; [done|]. intros _. by apply ensures_ret. Qed.

Lemma ensures_mark_error op : op ∈ OPERATIONS → ensures Inv (mark_error op) (λ _, True).
Proof.
  intros Hop. assert (in_space (recorder_errors, [op])) by (by constructor).
  unfold mark_error, publish_failure.
  eapply (ensures_bind _ _ _ (λ _, True)).
  - eapply (ensures_bind _ _ _ (λ _, True)); [by apply ensures_on_rec|]. intros _ _.
    apply ensures_suppress, ensures_act. rewrite bare_child. constructor.
  - intros _ _. eapply (ensures_bind _ _ _ (λ _, True)); [|intros _ _; by apply ensures_on_rec].
    apply ensures_suppress. eapply ensures_bind; [by apply ensures_labels|].
    intros c [Hc ?]. apply ensures_act. by rewrite Hc.
Qed.

Lemma ensures_mark_success : ensures Inv mark_success (λ _, True).
Proof.
  intros s Hi. rewrite mark_success_eq. destruct (healthy s.1); [done|].
  eapply (ensures_bind _ _ _ (λ _, True)); [|by intros _ _; apply ensures_on_rec|done].
  apply ensures_act. rewrite bare_child. constructor.
Qed.

Lemma ensures_safe op callback :
  op ∈ OPERATIONS → ensures Inv callback (λ _, True) → ensures Inv (safe op callback) (λ _, True).
Proof.
  intros Hop Hc. apply ensures_try; [|intros _; by apply ensures_mark_error].
  eapply ensures_bind; [done|]. intros _ _. apply ensures_mark_success.
Qed.

(** A body that gets children and acts on them. *)
Ltac act_holds := match goal with H : holds _ _ ?c |- ensures _ (on_lib (act ?c _)) _ => apply ensures_act; destruct H as [-> ?]; done end.
Ltac child := first
  [ eapply ensures_bind; [by eapply ensures_cached; [typeclasses eauto|apply ensures_labels; space]|let H := fresh in intros ? H; cbv beta in H]
  | eapply ensures_bind; [by apply ensures_labels; space|intros ? ?]
  | eapply (ensures_bind _ _ _ (λ _, True)); [act_holds|intros _ _]
  | act_holds ].
Ltac in_operations := vm_compute; repeat first [apply list_elem_of_here|apply list_elem_of_further].
Ltac safely := apply ensures_safe; [in_operations|repeat child].

Lemma ensures_perform c : ensures Inv (perform c) (λ _, True).
Proof.
  destruct c; simpl.
  - safely.
  - safely.
  - unfold prom_observe_http. destruct (normalize_http_route path) eqn:?; [|by apply ensures_ret]. safely.
  - safely.
  - apply ensures_safe; [in_operations|].
    eapply ensures_bind.
    { eapply ensures_cached; [typeclasses eauto|]. child. eapply ensures_bind; [by apply ensures_labels; space|].
      intros h Hh. apply ensures_ret. by split. }
    intros ch [??]. cbv beta in *. repeat child.
  - safely.
  - safely.
  - safely.
  - apply ensures_safe; [in_operations|]. do 2 child. destruct seconds; [repeat child|by apply ensures_ret].
  - safely.
  - safely.
Qed.
End inv.

(** ** How many series there are *)

Definition perform_all (calls : list call) : SE St exn unit := map_m perform calls ;; ret tt.
Lemma ensures_perform_all base calls : ensures (recorder_inv base) (perform_all calls) (λ _, True).
Proof.
  eapply (ensures_bind _ _ _ (λ _, True)); [|by intros _ _; apply ensures_ret].
  induction calls as [|c calls IH]; simpl; [by apply ensures_ret|].
  eapply ensures_bind; [apply ensures_perform|]. intros ? _.
  eapply ensures_bind; [apply IH|]. intros ? _. by apply ensures_ret.
Qed.

Definition series_of (f : family) (l : list entry) : list (list string) :=
  remove_dups (snd <$> filter (λ x : series, x.1 = f) (fst <$> l)).
(** The numbers of the comment above the caches, and those of the other families. *)
Definition series_limit (f : family) : nat :=
  match f with
  | http_requests => 432 | http_duration => 72 | mcp_executions => 168 | mcp_duration => 24 | inflight => 3
  | lock_wait | lock_hold => 4 | embedding_operations => 75 | embedding_duration => 15 | search_stage_duration => 5
  | search_fallbacks => 4 | job_runs => 54 | job_duration | job_last_success => 9 | backfill_items => 4
  | recorder_healthy | build_info => 1 | recorder_errors => 12
  end.
Lemma series_limit_eq f : length (tuples (label_values f)) = series_limit f.
Proof. by destruct f; vm_compute. Qed.
Lemma within_limit f (l : list (list string)) :
  NoDup l → (∀ ls, ls ∈ l → in_space (f, ls)) → (length l ≤ series_limit f)%nat.
Proof.
  intros Hnd Hl. rewrite <-series_limit_eq. apply submseteq_length, NoDup_submseteq; [done|].
  intros ls Hls. apply tuples_spec. by apply (Hl ls).
Qed.
Lemma series_of_limit f l : Forall (λ e : entry, in_space e.1) l → (length (series_of f l) ≤ series_limit f)%nat.
Proof.
  intros Hl. apply within_limit; [apply NoDup_remove_dups|]. intros ls. unfold series_of.
  rewrite elem_of_remove_dups, list_elem_of_fmap. intros ([f' ls'] & -> & [Hf ([x a] & Hxa & Hx)%list_elem_of_fmap]%list_elem_of_filter).
  simpl in *. subst.
  rewrite Forall_forall in Hl. apply (Hl _ Hx).
Qed.
Lemma cache_size {K V} `{Countable K} (enc : K → list string) `{!Inj (=) (=) enc} f (m : gmap K V) :
  map_Forall (λ k _, in_space (f, enc k)) m → (size m ≤ series_limit f)%nat.
Proof.
  intros Hm. rewrite <-length_map_to_list, <-(length_fmap (enc ∘ fst)). apply within_limit.
  - rewrite list_fmap_compose. apply NoDup_fmap_2; [done|]. apply NoDup_fst_map_to_list.
  - intros ls ([k v] & -> & Hk)%list_elem_of_fmap. apply elem_of_map_to_list in Hk. apply (Hm _ _ Hk).
Qed.
#[local] Instance key3_inj : Inj (=) (=) key3.
Proof. by intros [[??]?] [[??]?] [= -> -> ->]. Qed.
#[local] Instance key2_inj : Inj (=) (=) key2.
Proof. by intros [??] [??] [= -> ->]. Qed.
#[local] Instance key1_inj : Inj (=) (=) (λ k : string, [k]).
Proof. by intros ?? [= ->]. Qed.
Lemma holds_space {K V} `{Countable K} (P : K → V → Prop) (enc : K → list string) f (m : gmap K V) :
  (∀ k v, P k v → in_space (f, enc k)) → map_Forall P m → map_Forall (λ k _, in_space (f, enc k)) m.
Proof. intros HP Hm k v Hk. by eapply HP, Hm. Qed.

Lemma new_recorder_empty v rev w w' r :
  new_recorder v rev w = (w', Ok r) → r = mkRecorder true ∅ ∅ ∅ ∅ ∅ ∅ ∅ false false.
Proof.
  unfold new_recorder. intros (?&?&_&H)%bind_ok. apply bind_ok in H as (?&?&_&H).
  apply bind_ok in H as (?&?&_&H). by injection H as <- <-.
Qed.

(** C24. The number of series is fixed: whatever paths, methods, tools, statuses and
    names the observations carry, and however often prometheus-client fails, a new
    recorder never speaks to more children than its label values allow, and each of
    its caches stays within the number the code states. *)
Theorem series_bounded (version revision : string) (w w0 : W) (r : Rec) (calls : list call) :
  new_recorder version revision w = (w0, Ok r) →
  let s := (perform_all calls (r, w0)).1 in
  (∃ l, log s.2 = log w0 ++ l ∧ ∀ f, (length (series_of f l) ≤ series_limit f)%nat) ∧
  (size (inflight_children s.1) ≤ 3)%nat ∧ (size (lock_children s.1) ≤ 4)%nat ∧ (size (stage_children s.1) ≤ 5)%nat ∧
  (size (http_request_children s.1) ≤ 432)%nat ∧ (size (http_duration_children s.1) ≤ 72)%nat ∧
  (size (embedding_operation_children s.1) ≤ 75)%nat ∧ (size (embedding_duration_children s.1) ≤ 15)%nat.
Proof.
  intros Hr%new_recorder_empty s.
  assert (recorder_inv (log w0) s) as [(H1&H2&H3&H4&H5&H6&H7) (l & Hl & Hsp)].
  { apply ensures_perform_all. subst r. split; [|exists []; by rewrite app_nil_r].
    unfold caches_ok; simpl; split_and!; apply map_Forall_empty. }
  split; [eauto using series_of_limit|].
  split_and!; [eapply (cache_size (λ k, [k]) inflight)|eapply (cache_size (λ k, [k]) lock_wait)
    |eapply (cache_size (λ k, [k]) search_stage_duration)|eapply (cache_size key3 http_requests)
    |eapply (cache_size key2 http_duration)|eapply (cache_size key3 embedding_operations)
    |eapply (cache_size key2 embedding_duration)]; (eapply holds_space; [|eassumption]); intros k v; unfold holds; tauto.
Qed.

(** ** What is recorded when nothing fails *)

Class Faultless := {
  labels_total : ∀ f ls w, ∃ c, (labels f ls w).2 = Ok c;
  act_total : ∀ c a w, (act c a w).2 = Ok tt;
}.
Section faultless.
Context `{!Faultless}.

(** [m] succeeds, records [l] and leaves the health alone. *)
Definition records {A} (l : list entry) (m : SE St exn A) (Q : A → Prop) : Prop :=
  ∀ s, caches_ok s.1 → ∃ s' a, m s = (s', Ok a) ∧ caches_ok s'.1 ∧ log s'.2 = log s.2 ++ l ∧ healthy s'.1 = healthy s.1 ∧ Q a.

Lemma records_ret {A} (a : A) (Q : A → Prop) : Q a → records [] (ret a) Q.
Proof. intros HQ s Hs. exists s, a. by rewrite app_nil_r. Qed.
Lemma records_bind {A B} l1 l2 (m : SE St exn A) (k : A → SE St exn B) Q R :
  records l1 m Q → (∀ a, Q a → records l2 (k a) R) → records (l1 ++ l2) (bind m k) R.
Proof.
  intros Hm Hk s Hs. destruct (Hm s Hs) as (s1 & a & H1 & Hc1 & Hl1 & Hh1 & HQ).
  destruct (Hk a HQ s1 Hc1) as (s2 & b & H2 & Hc2 & Hl2 & Hh2 & HR).
  exists s2, b. unfold bind. rewrite H1. split_and!; [done|done| |congruence|done]. by rewrite Hl2, Hl1, app_assoc.
Qed.
Lemma records_labels f ls : in_space (f, ls) → records [] (on_lib (labels f ls)) (holds f ls).
Proof.
  intros Hsp [r w] Hs. unfold on_lib. simpl. destruct (labels_total f ls w) as [c Hc].
  pose proof (labels_log f ls w) as Hl. pose proof (labels_child f ls w c Hc). destruct (labels f ls w) as [w' ?]; simpl in *; subst.
  exists (r, w'), c. simpl. by rewrite app_nil_r.
Qed.
Lemma records_act f ls c a : holds f ls c → records [((f, ls), a)] (on_lib (act c a)) (λ _, True).
Proof.
  intros [Hc _] [r w] Hs. unfold on_lib. simpl. pose proof (act_total c a w) as Ha. pose proof (act_ok c a w Ha) as Hl.
  destruct (act c a w) as [w' ?]; simpl in *; subst. exists (r, w'), tt. simpl. by rewrite Hl, Hc.
Qed.
Lemma records_cached {K V} `{Countable K} (c : cache K V) (P : K → V → Prop) `{!CacheOk c P} k (make : SE St exn V) :
  records [] make (P k) → records [] (cached c k make) (P k).
Proof.
  intros Hm s Hs. rewrite cached_eq. destruct (entries c s.1 !! k) as [v|] eqn:E.
  - exists s, v. rewrite app_nil_r. split_and!; [done..|]. by eapply cache_get.
  - apply (records_bind [] [] make _ (P k)); [done| |done]. intros v Hv [r w] Hr. simpl in *.
    exists (set_entries c (<[k:=v]> (entries c r)) r, w), v. unfold bind, on_rec, modify. simpl.
    rewrite app_nil_r, cache_healthy. split_and!; try done. by apply cache_put.
Qed.

(** An operation that records [l], and the health that becomes good again. *)
Definition recovers (s : St) : list entry := if healthy s.1 then [] else [((recorder_healthy, []), set_to (f64_of_Z 1))].
Lemma safe_records op l callback s :
  records l callback (λ _, True) → caches_ok s.1 →
  ∃ s', safe op callback s = (s', Ok tt) ∧ caches_ok s'.1 ∧ log s'.2 = log s.2 ++ l ++ recovers s ∧ healthy s'.1 = true.
Proof.
  intros Hc Hs. destruct (Hc s Hs) as (s1 & [] & H1 & Hc1 & Hl1 & Hh1 & _).
  unfold safe, try_catch, bind at 1, recovers. rewrite H1, mark_success_eq, <-Hh1.
  destruct (healthy s1.1) eqn:Eh.
  - exists s1. by rewrite app_nil_r.
  - destruct s1 as [r1 w1]. unfold bind, on_lib, on_rec, modify. simpl in *.
    pose proof (act_total (bare recorder_healthy) (set_to (f64_of_Z 1)) w1) as Ha. pose proof (act_ok _ _ _ Ha) as Hl.
    destruct (act (bare recorder_healthy) _ w1) as [w2 ?]; simpl in *; subst.
    eexists. split_and!; [done|done| |done]. simpl. by rewrite Hl, Hl1, bare_child, <-app_assoc.
Qed.

Definition ready (s : St) : Prop := caches_ok s.1 ∧ healthy s.1 = true.
Lemma safe_ready op l callback s :
  records l callback (λ _, True) → ready s →
  ∃ s', safe op callback s = (s', Ok tt) ∧ ready s' ∧ log s'.2 = log s.2 ++ l.
Proof.
  intros Hc [Hs Hh]. destruct (safe_records op l callback s) as (s' & ? & ? & Hl & ?); [done..|].
  exists s'. split_and!; [done|done|]. unfold recovers in Hl. by rewrite Hh, app_nil_r in Hl.
Qed.

Ltac got := let H := fresh in intros ? H; cbv beta in H.
Ltac rec_child := first
  [ eapply (records_bind []); [by eapply records_cached; [typeclasses eauto|apply records_labels; space]|got]
  | eapply (records_bind []); [by apply records_labels; space|got]
  | eapply (records_bind [_]); [by eapply records_act|intros _ _]
  | by eapply records_act ].
Ltac readily := apply safe_ready; [repeat rec_child|done].

Lemma perform_records c s : ready s → ∃ s', perform c s = (s', Ok tt) ∧ ready s' ∧ log s'.2 = log s.2 ++ observations c.
Proof.
  intros Hs. destruct c; simpl.
  - readily.
  - readily.
  - unfold prom_observe_http. destruct (normalize_http_route path) eqn:?; [readily|].
    exists s. by rewrite app_nil_r.
  - readily.
  - apply safe_ready; [|done]. eapply (records_bind []).
    { eapply records_cached; [typeclasses eauto|]. rec_child. eapply (records_bind []); [by apply records_labels; space|].
      intros h Hh. apply records_ret. by split. }
    intros ch [??]. cbv beta in *. repeat rec_child.
  - readily.
  - readily.
  - readily.
  - apply safe_ready; [|done]. do 2 rec_child. destruct seconds; [repeat rec_child|by apply records_ret].
  - readily.
  - readily.
Qed.

Lemma perform_all_records calls s :
  ready s → ∃ s', perform_all calls s = (s', Ok tt) ∧ ready s' ∧ log s'.2 = log s.2 ++ concat (map observations calls).
Proof.
  assert (∀ s, ready s → ∃ s' us, map_m perform calls s = (s', Ok us) ∧ ready s' ∧
    log s'.2 = log s.2 ++ concat (map observations calls)) as Hgo.
  { induction calls as [|c calls IH]; intros s0 Hs; simpl; [by exists s0, []; rewrite app_nil_r|].
    destruct (perform_records c s0 Hs) as (s1 & H1 & Hr1 & Hl1). destruct (IH s1 Hr1) as (s2 & us & H2 & Hr2 & Hl2).
    exists s2, (tt :: us). unfold bind. rewrite H1, H2. split_and!; [done|done|]. by rewrite Hl2, Hl1, app_assoc. }
  intros Hs. destruct (Hgo s Hs) as (s' & us & Hm & ?). exists s'. unfold perform_all, bind. by rewrite Hm.
Qed.

Lemma new_recorder_ready v rev w w0 r : new_recorder v rev w = (w0, Ok r) → ready (r, w0).
Proof.
  intros ->%new_recorder_empty. split; [|done]. unfold caches_ok; simpl; split_and!; apply map_Forall_empty.
Qed.

(** The caches of children change nothing: while prometheus-client does not fail,
    what a new recorder records over any sequence of observations is what the
    observations would record one by one without any cache. *)
Theorem caches_transparent (version revision : string) (w w0 : W) (r : Rec) (calls : list call) :
  new_recorder version revision w = (w0, Ok r) →
  ∃ s, perform_all calls (r, w0) = (s, Ok tt) ∧ log s.2 = log w0 ++ concat (map observations calls).
Proof.
  intros Hr%new_recorder_ready. destruct (perform_all_records calls _ Hr) as (s & ? & _ & ?). eauto.
Qed.

(** ** An exchange and its traces *)

Lemma safe_call_records {I} c (s : St * I) :
  ready s.1 → ready (safe_call (perform c) s).1 ∧ (safe_call (perform c) s).2 = s.2 ∧
  log (safe_call (perform c) s).1.2 = log s.1.2 ++ observations c.
Proof.
  intros Hs. unfold safe_call. destruct (perform_records c s.1 Hs) as (s' & -> & ? & ?). by split_and!.
Qed.

(** [app] keeps the recorder ready and adds to its record. *)
Definition only_adds {I} (app : scope → St * I → (St * I) * (list message * option raised)) (sc : scope) : Prop :=
  ∀ s, ready s.1 → ready (app sc s).1.1 ∧ ∃ l, log (app sc s).1.1.2 = log s.1.2 ++ l.

(** Every HTTP exchange is measured once, however the application ended: around
    what the application itself records, the gauge goes up and down by one, and then
    the exchange is counted under its route, method and status class, with 500 for one
    that sent no status. *)
Theorem exchange_measured {I} elapsed (app : scope → St * I → (St * I) * (list message * option raised)) sc (s : St * I) :
  ready s.1 → only_adds app sc → scope_type sc = "http"%string →
  let '(s', (sent, e)) := metrics_middleware elapsed app sc s in
  ∃ inside, log s'.1.2 = log s.1.2 ++ [((inflight, ["rest"%string]), inc)] ++ inside ++ [((inflight, ["rest"%string]), dec)] ++
    observations (CHttp (scope_path sc) (scope_method sc) (seen_status sent) elapsed).
Proof.
  intros Hs Happ Hsc. unfold metrics_middleware. rewrite Hsc, bool_decide_eq_true_2 by done. cbv zeta beta. simpl negb.
  destruct (safe_call_records (CInc "rest") s Hs) as (Hr1 & _ & Hl1).
  change (perform (CInc "rest")) with (inflight_inc (M:=St) "rest") in Hr1, Hl1.
  destruct (Happ _ Hr1) as (Hr2 & l & Hl2). cbv iota.
  destruct (app sc (safe_call (inflight_inc "rest") s)) as [s2 [sent e]]. cbn [fst] in Hr2, Hl2.
  destruct (safe_call_records (CDec "rest") s2 Hr2) as (Hr3 & _ & Hl3).
  destruct (safe_call_records (CHttp (scope_path sc) (scope_method sc) (seen_status sent) elapsed) _ Hr3) as (_ & _ & Hl4).
  exists l. etrans; [exact Hl4|]. etrans; [by rewrite Hl3, Hl2|].
  etrans; [by rewrite Hl1|]. by rewrite <-!app_assoc.
Qed.
End faultless.
End laws.

(** ** Metrics never interfere *)

(** [m] cannot raise. *)
Definition silent {M} (m : SE M exn unit) : Prop := ∀ s, (m s).2 = Ok tt.

Section silent.
Context {W Child : Type} `{!Prometheus W Child}.
Lemma suppress_silent (m : SE (recorder Child * W) exn unit) : silent (suppress m).
Proof. intros s. unfold suppress, try_catch. by destruct (m s) as [? [[]|?]]. Qed.
Lemma silent_bind (m k : SE (recorder Child * W) exn unit) : silent m → silent k → silent (m ;; k).
Proof. intros Hm Hk s. unfold bind. specialize (Hm s). destruct (m s) as [s' [[]|?]]; [apply Hk|done]. Qed.
Lemma mark_error_silent op : silent (mark_error op).
Proof.
  repeat first [apply silent_bind|apply suppress_silent|by intros s].
Qed.
Lemma safe_silent op (callback : SE (recorder Child * W) exn unit) : silent (safe op callback).
Proof.
  intros s. unfold safe, try_catch. destruct ((callback ;; mark_success) s) as [s' [[]|e]]; [done|].
  apply mark_error_silent.
Qed.
Lemma perform_silent c : silent (perform (M:=recorder Child * W) c).
Proof.
  destruct c; simpl; try apply safe_silent.
  unfold prom_observe_http. destruct (normalize_http_route path); [apply safe_silent|done].
Qed.
End silent.

Section interfere.
Context {M I : Type} `{!MetricsRecorder M}.
Notation ASGIApp := (scope → M * I → (M * I) * (list message * option raised)).

(** What the application does to its own state, what it sends and how it ends are
    [core]'s, whatever the metrics' state is. *)
Definition behaves {A R} (core : A → I → I * R) (f : A → M * I → (M * I) * R) : Prop :=
  ∀ a m i, ∃ m', f a (m, i) = ((m', (core a i).1), (core a i).2).
(** A result that is an object whose [status] is a list or an object. *)
Definition unhashable_status (v : json) : bool :=
  match v with
  | JObj l => match jget "status" l with Some (JArr _ | JObj _) => true | _ => false end
  | _ => false
  end.
(** A wrapped tool has [core]'s effects, and ends as [core] does but for such a result. *)
Definition tool_behaves {A} (core : A → I → I * result raised json) (f : A → SE (M * I) raised json) : Prop :=
  ∀ a m i, ∃ m' r, f a (m, i) = ((m', (core a i).1), r) ∧
    match (core a i).2 with
    | Ok v => r = if unhashable_status v then Raise (ExceptionRaised TypeError) else Ok v
    | Raise e => r = Raise e
    end.

Lemma middleware_behaves elapsed core (app : ASGIApp) : behaves core app → behaves core (metrics_middleware elapsed app).
Proof.
  intros H sc m i. unfold metrics_middleware, safe_call. destruct (bool_decide (scope_type sc = "http"%string)); [|apply H]. simpl.
  destruct (H sc (inflight_inc "rest" m).1 i) as (m' & ->). destruct (core sc i) as [i' [sent e]]. simpl. eauto.
Qed.
Lemma mcp_outcome_raises v : match mcp_outcome v with
  | Ok _ => unhashable_status v = false | Raise e => e = TypeError ∧ unhashable_status v = true end.
Proof. destruct v as [| | | | |?|l]; simpl; try done. by destruct (jget "status" l) as [[]|]. Qed.
Lemma wrapper_behaves {A} coroutine elapsed (core : A → I → I * result raised json) fn name :
  enabled = true → behaves core fn → tool_behaves core (wrap_handler coroutine elapsed fn name).
Proof.
  intros He H a m i. unfold wrap_handler, safe_call. rewrite He. simpl.
  destruct (H a (inflight_inc "mcp" m).1 i) as (m' & ->). destruct (core a i) as [i' [v|[e|]]]; simpl; [|eauto..].
  pose proof (mcp_outcome_raises v) as Hv. destruct (mcp_outcome v); [rewrite Hv; eauto|destruct Hv as [-> ->]; eauto].
Qed.
Lemma wrapper_disabled {A} coroutine elapsed (fn : A → SE (M * I) raised json) name :
  enabled = false → wrap_handler coroutine elapsed fn name = fn.
Proof. intros He. unfold wrap_handler. by rewrite He. Qed.
End interfere.

(** C39. Metrics never interfere.  No observation of the recorder raises, whatever
    prometheus-client does; and over any recorder at all, one that always raises
    included, the HTTP middleware leaves an application's effects, messages and end
    as they are.  The wrapper of a tool is the tool itself when the metrics are off;
    when they are on it keeps the tool's effects, its exception and its result, but
    for a result that is an object whose [status] is a list or an object, and only
    that: the call then ends in a [TypeError]. *)
Theorem metrics_never_interfere :
  (∀ W Child (P : Prometheus W Child) c, silent (perform (M:=recorder Child * W) c)) ∧
  (∀ M I (R : MetricsRecorder M) elapsed core (app : scope → M * I → (M * I) * (list message * option raised)),
    behaves core app → behaves core (metrics_middleware elapsed app)) ∧
  (∀ M I (R : MetricsRecorder M) A coroutine elapsed (core : A → I → I * result raised json) fn name,
    enabled = true → behaves core fn → tool_behaves core (wrap_handler coroutine elapsed fn name)) ∧
  (∀ M I (R : MetricsRecorder M) A coroutine elapsed (fn : A → SE (M * I) raised json) name,
    enabled = false → wrap_handler coroutine elapsed fn name = fn).
Proof.
  split_and!; intros; [apply perform_silent|by apply middleware_behaves|by apply wrapper_behaves|by apply wrapper_disabled].
Qed.

(** ** Scrapes *)

Section scrapes.
Context {W Child : Type} `{!Prometheus W Child}.
Notation St := (recorder Child * W)%type.

(** The recorder and how many workers are rendering. *)
Record scrapes := mkScrapes { srecorder : St; workers : nat }.
Inductive scrape_step : scrapes → scrapes → Prop :=
| scrape_begins spawned s n s' r : begin_render spawned s = (s', r) →
    scrape_step (mkScrapes s n) (mkScrapes s' (match r with Ok _ => S n | Raise _ => n end))
| worker_ends gl s n : scrape_step (mkScrapes s (S n)) (mkScrapes (render_owned gl s).1 n)
| observes c s n : scrape_step (mkScrapes s n) (mkScrapes (perform c s).1 n).

(** Recording leaves the slot alone. *)
Notation Slot b := (λ s : St, scrape_slot s.1 = b).
Lemma slot_lib {A} (m : SE W exn A) b : preserves (Slot b) (on_lib m).
Proof. intros [r w] Hs. unfold on_lib. simpl. by destruct (m w). Qed.
Lemma slot_rec f b : (∀ r, scrape_slot (f r) = scrape_slot r) → preserves (E:=exn) (Slot b) (on_rec f).
Proof. intros Hf [r w] Hs. simpl in *. by rewrite Hf. Qed.
Lemma slot_cached {K V} `{Countable K} (c : cache K V) k (make : SE St exn V) b :
  (∀ r m, scrape_slot (set_entries c m r) = scrape_slot r) → preserves (Slot b) make → preserves (Slot b) (cached c k make).
Proof.
  intros Hc Hm. apply preserves_bind; [by intros s|]. intros s0. destruct (entries c s0.1 !! k); [apply preserves_ret|].
  apply preserves_bind; [done|]. intros v. apply preserves_bind; [by apply slot_rec|]. intros _. apply preserves_ret.
Qed.
Lemma slot_mark_error op b : preserves (Slot b) (mark_error op).
Proof.
  unfold mark_error, publish_failure, suppress.
  repeat first [apply preserves_bind|apply preserves_try|apply slot_lib|by apply slot_rec|apply preserves_ret|intros ?].
Qed.
Lemma slot_safe op callback b : preserves (Slot b) callback → preserves (Slot b) (safe op callback).
Proof.
  intros Hc. unfold safe, mark_success. apply preserves_try; [|intros _; apply slot_mark_error].
  apply preserves_bind; [done|]. intros _. apply preserves_bind; [by intros s|]. intros s0.
  destruct (healthy s0.1); [apply preserves_ret|].
  apply preserves_bind; [apply slot_lib|]. intros _. by apply slot_rec.
Qed.
Ltac slot := repeat lazymatch goal with
  | |- preserves _ (cached _ _ _) => apply slot_cached; [done|]
  | |- preserves _ (on_lib _) => apply slot_lib
  | |- preserves _ (ret _) => apply preserves_ret
  | |- preserves _ (bind _ _) => apply preserves_bind; [|intros ?]
  | |- preserves _ (inflight_child _) => apply slot_cached; [done|]
  | |- preserves _ (let _ := _ in _) => cbv zeta
  | |- preserves _ (match ?o with Some _ => _ | None => _ end) => destruct o
  end.
Lemma slot_perform c b : preserves (Slot b) (perform c).
Proof.
  destruct c; simpl; try (unfold prom_observe_http; destruct (normalize_http_route path); [|apply preserves_ret]);
    apply slot_safe; slot.
Qed.
Lemma render_frees gl s : scrape_slot (render_owned gl s).1.1 = false.
Proof. unfold render_owned. by destruct (on_lib gl s) as [s1 [?|?]]. Qed.

(** C25. One scrape at a time, and none for ever: whatever scrapes begin, are refused,
    end or fail, with observations in between, the slot is taken exactly while one
    worker renders, so that a scrape is refused as busy only then, and the end of a
    worker, an error of the exporter included, frees it. *)
Theorem one_scrape (s s' : scrapes) :
  scrape_slot (srecorder s).1 = false → workers s = 0%nat → rtc scrape_step s s' →
  (workers s' ≤ 1)%nat ∧ (scrape_slot (srecorder s').1 = true ↔ workers s' = 1%nat) ∧
  ∀ gl, scrape_slot (render_owned gl (srecorder s')).1.1 = false.
Proof.
  intros Hs Hw Hrun.
  assert (workers s' = if scrape_slot (srecorder s').1 then 1%nat else 0%nat) as Hinv.
  { assert (workers s = if scrape_slot (srecorder s).1 then 1%nat else 0%nat) as H0 by (by rewrite Hs, Hw).
    clear Hs Hw. induction Hrun as [|s1 s2 s3 Hstep _ IH]; [done|]. apply IH. clear IH.
    destruct Hstep as [spawned s n s2 r Hb|gl s n|c s n]; simpl in *.
    - unfold begin_render in Hb. destruct (scrape_slot s.1) eqn:E; [by simplify_eq; rewrite E|].
      destruct spawned; by simplify_eq/=.
    - rewrite render_frees. destruct (scrape_slot s.1); lia.
    - by rewrite (slot_perform c (scrape_slot s.1) s eq_refl). }
  rewrite Hinv. split_and!; [by case_match; lia|by case_match|intros gl; apply render_frees].
Qed.
End scrapes.
