(* ===== verification/Exposition.v ===== *)
(** * The text exposition

    [cached_exporter.py]: the Prometheus text format with the line prefixes kept
    between scrapes within two limits.  A name or label is a string, or an instance
    of a subclass of [str], which compares like its string.  What prometheus-client
    does itself is an argument: the families of a registry, the text of a float
    ([floatToGoString]) and the standard exporter ([generate_latest]).  Latin-1 text
    always has a UTF-8 encoding. *)

From S2P Require Import Prelude PyStr PyText Sha256 Domain PyNum TextProps Config.
Local Open Scope Z_scope.
Local Open Scope prog_scope.

Inductive part := Str (s : string) | StrSubclass (s : string).
Definition part_text (p : part) : string := match p with Str s | StrSubclass s => s end.
Definition exactly_str (p : part) : bool := match p with Str _ => true | StrSubclass _ => false end.
(** [labels]: [None] where [sorted(sample.labels.items())] raises [TypeError] or
    [AttributeError]. *)
Record sample := mkSample {
  sample_name : part;
  sample_labels : option (list (part * part));
  sample_value : spec_float;
  sample_timestamp : option spec_float;
}.
Record metric := mkMetric { metric_type : string; metric_name : part; documentation : string; samples : list sample }.

(** ** Names *)

Definition is_alpha (c : ascii) : bool := is_upper_ascii c || is_lower_ascii c.
Definition label_start (c : ascii) : bool := is_alpha c || bool_decide (c = "_"%char).
Definition label_char (c : ascii) : bool := label_start c || is_digit c.
Definition metric_start (c : ascii) : bool := label_start c || bool_decide (c = ":"%char).
Definition metric_char (c : ascii) : bool := metric_start c || is_digit c.
Definition full_match (start more : ascii → bool) (s : string) : bool :=
  match chars s with c :: l => start c && forallb more l | [] => false end.
(** [cached_exporter.py:25-25 _METRIC_NAME] *)
Definition is_metric_name (s : string) : bool := full_match metric_start metric_char s.
(** [cached_exporter.py:26-26 _LABEL_NAME] *)
Definition is_label_name (s : string) : bool := full_match label_start label_char s.

(** ** Prefixes *)

(** [_UseStandard], or another exception. *)
Inductive trouble := UseStandard | Raised (e : exn).
(** [cached_exporter.py:27-27 PrefixKey] *)
Abbreviation prefix_key := (string * list (string * string))%type.

Definition BACKSLASH : ascii := chr 92.
Definition QUOTE : ascii := chr 34.
Definition escape_lines (l : list ascii) : list ascii :=
  replace_char NEWLINE [BACKSLASH; "n"%char] (replace_char BACKSLASH [BACKSLASH; BACKSLASH] l).
Definition escape_value (l : list ascii) : list ascii := replace_char QUOTE [BACKSLASH; QUOTE] (escape_lines l).

Fixpoint escape_labels (labels : list (string * string)) : result trouble (list (list ascii)) :=
  match labels with
  | [] => Ok []
  | (label, value) :: labels =>
      if negb (is_label_name label) then Raise UseStandard
      else let? escaped := escape_labels labels in
           Ok ((chars label ++ "="%char :: QUOTE :: escape_value (chars value) ++ [QUOTE]) :: escaped)
  end.
Definition SPACE : ascii := " "%char.
(** [cached_exporter.py:54-64 CachedPrefixExporter._make_prefix] *)
Definition make_prefix (key : prefix_key) : result trouble (list ascii) :=
  if negb (is_metric_name key.1) then Raise UseStandard
  else let? escaped := escape_labels key.2 in
       Ok (chars key.1 ++ (if bool_decide (escaped = []) then [] else "{"%char :: join_chars [","%char] escaped ++ ["}"%char]) ++ [SPACE]).

(** The fields of [CachedPrefixExporter]. *)
Record exporter := mkExporter {
  max_entries : Z;
  max_payload_bytes : Z;
  prefixes : gmap prefix_key (list ascii);
  payload_bytes : Z;
}.
(** [cached_exporter.py:45-51 CachedPrefixExporter.__init__] *)
Definition new_exporter (entries payload : Z) : result exn exporter :=
  if (entries <? 0) || (payload <? 0) then Raise ValueError else Ok (mkExporter entries payload ∅ 0).

(** [len(text.encode("utf-8", errors="surrogatepass"))] *)
Definition utf8_len (l : list ascii) : Z := Z.of_nat (length (concat (map utf8 l))).
Definition entry_size (key : prefix_key) (prefix : list ascii) : Z :=
  utf8_len (chars key.1) + utf8_len prefix
  + foldr Z.add 0 (concat (map (λ kv : string * string, [utf8_len (chars kv.1); utf8_len (chars kv.2)]) key.2)).

Section exporter.
Context (floatToGoString : spec_float → result exn string) (standard : metric → result exn string).
Notation M := (SE exporter trouble).

(** The key of a sample, or [_UseStandard]. *)
Definition sample_key (s : sample) : result trouble prefix_key :=
  match sample_labels s with
  | None => Raise UseStandard
  | Some items =>
      let labels := sort_by (λ a b, str_leb (part_text a.1) (part_text b.1)) items in
      if negb (exactly_str (sample_name s)) || negb (forallb (λ kv, exactly_str kv.1 && exactly_str kv.2) labels)
      then Raise UseStandard
      else Ok (part_text (sample_name s), map (λ kv, (part_text kv.1, part_text kv.2)) labels)
  end.

(** [cached_exporter.py:66-88 CachedPrefixExporter._prefix] *)
Definition prefix_of (s : sample) : M (list ascii) :=
  let* key := lift_result (sample_key s) in
  let* x := get_st in
  match prefixes x !! key with
  | Some prefix => ret prefix
  | None =>
      let* prefix := lift_result (make_prefix key) in
      (if Z.of_nat (size (prefixes x)) <? max_entries x then
         let sz := entry_size key prefix in
         if payload_bytes x + sz <=? max_payload_bytes x
         then put_st (mkExporter (max_entries x) (max_payload_bytes x) (<[key := prefix]> (prefixes x)) (payload_bytes x + sz))
         else ret tt
       else ret tt) ;;
      ret prefix
  end.

(** [cached_exporter.py:91-93 CachedPrefixExporter._header] *)
Definition header_of (name kind doc : string) : list ascii :=
  chars "# HELP " ++ chars name ++ SPACE :: escape_lines (chars doc) ++ NEWLINE ::
  chars "# TYPE " ++ chars name ++ SPACE :: chars kind ++ [NEWLINE].

(** [int(x)] of a float *)
Definition trunc_float (f : spec_float) : result exn Z :=
  match f with
  | S754_zero _ => Ok 0
  | S754_infinity _ => Raise OverflowError
  | S754_nan => Raise ValueError
  | S754_finite s m e => Ok (signed s (if 0 <=? e then Z.pos m * 2 ^ e else Z.pos m / 2 ^ (- e)))
  end.
(** [f" {int(float(sample.timestamp) * 1000)}"] *)
Definition timestamp_text (t : option spec_float) : result exn (list ascii) :=
  match t with
  | None => Ok []
  | Some t => let? n := trunc_float (SFmul 53 1024 t (f64_of_Z 1000)) in Ok (SPACE :: chars (str_of_Z n))
  end.
Definition or_raised {A} (r : result exn A) : result trouble A :=
  match r with Ok a => Ok a | Raise e => Raise (Raised e) end.

(** A line with the name of its sample. *)
Definition line_of (s : sample) : M (string * list ascii) :=
  let* prefix := prefix_of s in
  let* timestamp := lift_result (or_raised (timestamp_text (sample_timestamp s))) in
  let* value := lift_result (or_raised (floatToGoString (sample_value s))) in
  ret (part_text (sample_name s), prefix ++ chars value ++ timestamp ++ [NEWLINE]).

Definition METRIC_TYPES : list string := ["counter"; "gauge"; "histogram"]%string.
Definition extra_names (name : string) : list string := [name +:+ "_created"; name +:+ "_gsum"; name +:+ "_gcount"]%string.
(** [cached_exporter.py:95-117 CachedPrefixExporter._family] The lines of an extra
    name stay in order under one header each, the names in order. *)
Definition family_text (m : metric) : M (list ascii) :=
  if negb (bool_decide (metric_type m ∈ METRIC_TYPES)) || negb (exactly_str (metric_name m))
     || negb (is_metric_name (part_text (metric_name m)))
  then raise UseStandard
  else
    let base := part_text (metric_name m) in
    let name := if bool_decide (metric_type m = "counter"%string) then base +:+ "_total" else base in
    let* lines := map_m line_of (samples m) in
    let own := filter (λ l, l.1 ∉ extra_names base) lines in
    let extra := sort_by str_leb (filter (λ n, n ∈ map fst lines) (extra_names base)) in
    ret (header_of name (metric_type m) (documentation m) ++ concat (map snd own) ++
         concat (map (λ n, header_of n "gauge" (documentation m) ++ concat (map snd (filter (λ l, l.1 = n) lines))) extra)).

(** [cached_exporter.py:120-130 CachedPrefixExporter._standard_family] *)
Definition standard_family (m : metric) : M (list ascii) :=
  lift_result (match standard m with Ok t => Ok (chars t) | Raise e => Raise (Raised e) end).

Definition family_or_standard (m : metric) : M (list ascii) :=
  try_catch (family_text m) (λ t, match t with UseStandard => standard_family m | Raised e => raise (Raised e) end).
(** [cached_exporter.py:132-146 CachedPrefixExporter.__call__] over the families of
    one collection; [latest] is [generate_latest] with another escaping. *)
Definition expose (escaping : string) (latest : result exn (list N)) (collected : list metric) : M (list N) :=
  if negb (bool_decide (escaping = "underscores"%string)) then lift_result (or_raised latest)
  else
    let* output := map_m family_or_standard collected in
    ret (concat (map utf8 (concat output))).
End exporter.

(** * What the exposition guarantees

    The exporter with its cache answers every scrape as one that keeps nothing, within
    its two limits; and the prefix of a line can be read back, so that different
    series never share one. *)

(** ** The cache *)

Definition cache_valid (x : exporter) : Prop := map_Forall (λ k p, make_prefix k = Ok p) (prefixes x).
Definition retained (m : gmap prefix_key (list ascii)) : Z := map_fold (λ k p n, entry_size k p + n) 0 m.
Definition within_limits (entries payload : Z) (x : exporter) : Prop :=
  max_entries x = entries ∧ max_payload_bytes x = payload ∧ Z.of_nat (size (prefixes x)) ≤ entries ∧
  payload_bytes x = retained (prefixes x) ∧ payload_bytes x ≤ payload.

(** [m] answers the same from any two valid caches, and keeps them valid. *)
Definition agrees {A} (m : SE exporter trouble A) : Prop :=
  ∀ x y, cache_valid x → cache_valid y → (m x).2 = (m y).2 ∧ cache_valid (m x).1 ∧ cache_valid (m y).1.

Lemma agrees_lift {A} (r : result trouble A) : agrees (lift_result r).
Proof. by intros x y. Qed.
Lemma agrees_ret {A} (a : A) : agrees (ret a).
Proof. by intros x y. Qed.
Lemma agrees_raise {A} (e : trouble) : agrees (@raise _ _ A e).
Proof. by intros x y. Qed.
Lemma agrees_bind {A B} (m : SE exporter trouble A) (k : A → SE exporter trouble B) :
  agrees m → (∀ a, agrees (k a)) → agrees (bind m k).
Proof.
  intros Hm Hk x y Hx Hy. destruct (Hm x y Hx Hy) as (Hr & Hx' & Hy'). unfold bind.
  destruct (m x) as [x' [a|e]], (m y) as [y' [b|e']]; simplify_eq/=; [by apply Hk|done].
Qed.
Lemma agrees_try {A} (m : SE exporter trouble A) (h : trouble → SE exporter trouble A) :
  agrees m → (∀ e, agrees (h e)) → agrees (try_catch m h).
Proof.
  intros Hm Hh x y Hx Hy. destruct (Hm x y Hx Hy) as (Hr & Hx' & Hy'). unfold try_catch.
  destruct (m x) as [x' [a|e]], (m y) as [y' [b|e']]; simplify_eq/=; [done|by apply Hh].
Qed.
Lemma agrees_map_m {A B} (f : A → SE exporter trouble B) l : (∀ a, agrees (f a)) → agrees (map_m f l).
Proof.
  intros Hf. induction l as [|a l IH]; [apply agrees_ret|].
  apply agrees_bind; [done|]. intros b. apply agrees_bind; [done|]. intros bs. apply agrees_ret.
Qed.
Create HintDb agrees.
#[export] Hint Resolve agrees_lift agrees_ret agrees_raise agrees_bind agrees_try agrees_map_m : agrees.

(** One exporter: the prefix is [make_prefix]'s, and the cache stays valid. *)
Lemma prefix_of_spec s x : cache_valid x →
  (prefix_of s x).2 = (let? key := sample_key s in make_prefix key) ∧ cache_valid (prefix_of s x).1.
Proof.
  intros Hx. unfold prefix_of, bind, lift_result, get_st. destruct (sample_key s) as [key|t]; simpl; [|done].
  destruct (prefixes x !! key) as [p|] eqn:E; [by rewrite (Hx _ _ E)|].
  destruct (make_prefix key) as [p|t] eqn:Ep; [|done].
  destruct (Z.of_nat (size (prefixes x)) <? max_entries x); [|done].
  destruct (payload_bytes x + entry_size key p <=? max_payload_bytes x); [|done].
  split; [done|]. by apply map_Forall_insert_2.
Qed.
Lemma agrees_prefix s : agrees (prefix_of s).
Proof.
  intros x y Hx Hy. destruct (prefix_of_spec s x Hx) as [-> ?], (prefix_of_spec s y Hy) as [-> ?]. done.
Qed.
#[export] Hint Resolve agrees_prefix : agrees.

Section expose.
Context (go : spec_float → result exn string) (standard : metric → result exn string).

Lemma agrees_line s : agrees (line_of go s).
Proof. unfold line_of. eauto 8 with agrees. Qed.
Lemma agrees_family m : agrees (family_text go m).
Proof.
  unfold family_text. case_match; [apply agrees_raise|]. apply agrees_bind; [|intros; apply agrees_ret].
  apply agrees_map_m, agrees_line.
Qed.
Lemma agrees_expose escaping latest collected : agrees (expose go standard escaping latest collected).
Proof.
  unfold expose. case_match; [apply agrees_lift|]. apply agrees_bind; [|intros; apply agrees_ret].
  apply agrees_map_m. intros m. apply agrees_try; [apply agrees_family|]. intros []; auto with agrees.
  apply agrees_lift.
Qed.

(** ** Its limits *)

Lemma within_prefix entries payload s : preserves (within_limits entries payload) (prefix_of s).
Proof.
  intros x (He & Hp & Hs & Hr & Hb). unfold prefix_of, bind, lift_result, get_st.
  destruct (sample_key s) as [key|t]; simpl; [|done].
  destruct (prefixes x !! key) as [p|] eqn:E; [done|].
  destruct (make_prefix key) as [p|t]; [|done].
  destruct (Z.of_nat (size (prefixes x)) <? max_entries x) eqn:E1; [|done].
  destruct (payload_bytes x + entry_size key p <=? max_payload_bytes x) eqn:E2; [|done].
  unfold within_limits. simpl. rewrite map_size_insert_None by done. split_and!; [done|done|lia| |lia].
  unfold retained. rewrite map_fold_insert_L; [unfold retained in Hr; lia| |done]. intros. lia.
Qed.
Lemma within_expose entries payload escaping latest collected :
  preserves (within_limits entries payload) (expose go standard escaping latest collected).
Proof.
  unfold expose. case_match; [apply preserves_lift|]. apply preserves_bind; [|intros; apply preserves_ret].
  apply preserves_map_m. intros m. apply preserves_try.
  - unfold family_text. case_match; [apply preserves_raise|]. apply preserves_bind; [|intros; apply preserves_ret].
    apply preserves_map_m. intros s. unfold line_of. apply preserves_bind; [apply within_prefix|]. intros p.
    repeat (apply preserves_bind; [apply preserves_lift|intros ?]). apply preserves_ret.
  - intros []; [apply preserves_lift|apply preserves_raise].
Qed.

(** The exporter after some scrapes. *)
Definition after_scrapes (escaping : string) (latest : result exn (list N)) (scrapes : list (list metric)) (x : exporter) : exporter :=
  foldl (λ x collected, (expose go standard escaping latest collected x).1) x scrapes.
Definition KEEPS_NOTHING : exporter := mkExporter 0 0 ∅ 0.

Lemma after_scrapes_inv entries payload escaping latest scrapes x :
  cache_valid x → within_limits entries payload x →
  cache_valid (after_scrapes escaping latest scrapes x) ∧ within_limits entries payload (after_scrapes escaping latest scrapes x).
Proof.
  revert x. induction scrapes as [|c cs IH]; intros x Hv Hw; [done|]. apply IH.
  - apply (agrees_expose escaping latest c x x Hv Hv).
  - by apply within_expose.
Qed.

(** The cache is invisible and bounded: after any scrapes, whatever was collected
    and whether they failed, a scrape yields, byte for byte or error for error, what an
    exporter that never keeps a prefix yields, and the prefixes kept are within the
    limits the exporter was made with. *)
Theorem exposition_cached (entries payload : Z) (x0 : exporter) escaping latest (scrapes : list (list metric)) (collected : list metric) :
  new_exporter entries payload = Ok x0 →
  let x := after_scrapes escaping latest scrapes x0 in
  (expose go standard escaping latest collected x).2 = (expose go standard escaping latest collected KEEPS_NOTHING).2 ∧
  Z.of_nat (size (prefixes x)) ≤ entries ∧ retained (prefixes x) ≤ payload.
Proof.
  intros Hx x. assert (cache_valid x0 ∧ within_limits entries payload x0) as [Hv0 Hw0].
  { unfold new_exporter in Hx. destruct ((entries <? 0) || (payload <? 0)) eqn:E; [done|]. injection Hx as <-.
    split; [apply map_Forall_empty|]. unfold within_limits; simpl. rewrite map_size_empty. split_and!; try done; lia. }
  destruct (after_scrapes_inv entries payload escaping latest scrapes x0 Hv0 Hw0) as [Hv (_ & _ & Hs & Hr & Hb)].
  split_and!; [|done|fold x in Hr, Hb; lia]. apply agrees_expose; [done|apply map_Forall_empty].
Qed.
End expose.

(** ** Reading a prefix back *)

(** A quoted value up to its closing quote, and the rest. *)
Fixpoint unescape (l : list ascii) : option (list ascii * list ascii) :=
  match l with
  | [] => None
  | c :: l' =>
      if bool_decide (c = QUOTE) then Some ([], l')
      else if bool_decide (c = BACKSLASH) then
        match l' with
        | [] => None
        | d :: l'' => '(v, r) ← unescape l''; Some ((if bool_decide (d = "n"%char) then NEWLINE else d) :: v, r)
        end
      else '(v, r) ← unescape l'; Some (c :: v, r)
  end.
(** The labels up to the closing brace, and the rest. *)
Fixpoint parse_labels (fuel : nat) (l : list ascii) : option (list (string * string) * list ascii) :=
  match fuel with
  | O => None
  | S fuel =>
      let (label, l) := span_chars label_char l in
      l ← eat ["="%char; QUOTE] l;
      '(v, l) ← unescape l;
      match l with
      | c :: l =>
          if bool_decide (c = ","%char) then '(rest, l) ← parse_labels fuel l; Some ((of_chars label, of_chars v) :: rest, l)
          else if bool_decide (c = "}"%char) then Some ([(of_chars label, of_chars v)], l) else None
      | [] => None
      end
  end.
Definition parse_prefix (l : list ascii) : option (prefix_key * list ascii) :=
  let (name, l) := span_chars metric_char l in
  '(labels, l) ← match l with
    | c :: l' => if bool_decide (c = "{"%char) then parse_labels (length l') l' else Some ([], l)
    | [] => Some ([], l) end;
  l ← eat [SPACE] l;
  Some ((of_chars name, labels), l).

Definition escape_char (c : ascii) : list ascii :=
  if bool_decide (c = BACKSLASH) then [BACKSLASH; BACKSLASH]
  else if bool_decide (c = NEWLINE) then [BACKSLASH; "n"%char]
  else if bool_decide (c = QUOTE) then [BACKSLASH; QUOTE] else [c].
Lemma escape_value_cons c l : escape_value (c :: l) = escape_char c ++ escape_value l.
Proof.
  unfold escape_value, escape_lines. change (c :: l) with ([c] ++ l). rewrite !replace_char_app. f_equal.
  unfold replace_char, escape_char. simpl. repeat (case_bool_decide; subst; simpl; try done).
Qed.

Lemma unescape_escape v r : unescape (escape_value v ++ QUOTE :: r) = Some (v, r).
Proof.
  induction v as [|c v IH]; [done|]. rewrite escape_value_cons. unfold escape_char.
  repeat (case_bool_decide; subst); cbn [app unescape]; rewrite ?IH; try done.
  by rewrite !bool_decide_eq_false_2 by done.
Qed.

Lemma full_match_all start more s :
  (∀ c, start c = true → more c = true) → full_match start more s = true → Forall (λ c, more c = true) (chars s).
Proof.
  unfold full_match. intros Hsm. destruct (chars s) as [|c cs]; [done|]. intros [Hc Hcs]%andb_true_iff.
  constructor; [by apply Hsm|]. apply Forall_forall. intros x Hx.
  rewrite forallb_forall in Hcs. apply Hcs. by apply list_elem_of_In.
Qed.
Lemma label_name_span l r : is_label_name l = true → span_chars label_char (chars l ++ "="%char :: r) = (chars l, "="%char :: r).
Proof.
  intros H. apply span_chars_app; [|done]. eapply full_match_all; [|exact H]. intros c Hc. unfold label_char. by rewrite Hc.
Qed.

Lemma escape_labels_cons kv ls es :
  escape_labels (kv :: ls) = Ok es → ∃ es', es = (chars kv.1 ++ "="%char :: QUOTE :: escape_value (chars kv.2) ++ [QUOTE]) :: es' ∧
    escape_labels ls = Ok es' ∧ is_label_name kv.1 = true.
Proof.
  destruct kv as [k v]. simpl. destruct (is_label_name k); [|done]. simpl.
  destruct (escape_labels ls) as [es'|]; [|done]. simpl. intros [= <-]. eauto.
Qed.

Lemma escape_labels_length ls : ∀ es, escape_labels ls = Ok es → length es = length ls.
Proof.
  induction ls as [|kv ls IH]; intros es Hes; [by injection Hes as <-|].
  apply escape_labels_cons in Hes as (es' & -> & Hes & _). simpl. by rewrite (IH es').
Qed.
Lemma join_length es : (length es ≤ S (length (join_chars [","%char] es)))%nat.
Proof.
  induction es as [|e [|e' es] IH]; [simpl; lia..|].
  change (join_chars [","%char] (e :: e' :: es)) with (e ++ ","%char :: join_chars [","%char] (e' :: es)).
  rewrite length_app. simpl in *. lia.
Qed.

Lemma parse_one fuel k v l :
  is_label_name k = true →
  parse_labels (S fuel) ((chars k ++ "="%char :: QUOTE :: escape_value (chars v) ++ [QUOTE]) ++ l) =
  match l with
  | c :: l =>
      if bool_decide (c = ","%char) then '(rest, l) ← parse_labels fuel l; Some ((k, v) :: rest, l)
      else if bool_decide (c = "}"%char) then Some ([(k, v)], l) else None
  | [] => None
  end.
Proof.
  intros Hk. rewrite <-app_assoc. cbn [app parse_labels]. rewrite label_name_span by done.
  match goal with |- context [eat ["="%char; QUOTE] ("="%char :: QUOTE :: ?x)] => assert (eat ["="%char; QUOTE] ("="%char :: QUOTE :: x) = Some x) as -> by (by apply eat_spec) end.
  cbn [mbind option_bind]. rewrite <-app_assoc. cbn [app]. rewrite unescape_escape. cbn [mbind option_bind].
  by rewrite !of_chars_chars.
Qed.

Lemma parse_escaped ls : ∀ es fuel r, ls ≠ [] → escape_labels ls = Ok es → (length ls ≤ fuel)%nat →
  parse_labels fuel (join_chars [","%char] es ++ "}"%char :: r) = Some (ls, r).
Proof.
  induction ls as [|[k v] ls IH]; intros es fuel r Hne Hes Hf; [done|].
  destruct fuel as [|fuel]; [simpl in Hf; lia|].
  apply escape_labels_cons in Hes as (es' & -> & Hes & Hk). simpl fst in *. simpl snd in *.
  destruct ls as [|kv ls].
  - simpl in Hes. injection Hes as <-. cbn [join_chars]. by rewrite parse_one.
  - destruct es' as [|e es']; [by apply escape_labels_cons in Hes as (?&?&?)|].
    change (join_chars [","%char] (?x :: e :: es')) with (x ++ ","%char :: join_chars [","%char] (e :: es')).
    rewrite <-app_assoc. cbn [app]. rewrite parse_one by done. rewrite bool_decide_eq_true_2 by done.
    rewrite (IH (e :: es') fuel r); [done|done|done|simpl in *; lia].
Qed.

(** A line's prefix says which series it is of: whatever the label values hold,
    quotes, backslashes and line ends included, a name and its labels can be read back
    from the prefix, so that two series never share one. *)
Theorem prefix_roundtrip (key : prefix_key) (prefix rest : list ascii) :
  make_prefix key = Ok prefix → parse_prefix (prefix ++ rest) = Some (key, rest).
Proof.
  unfold make_prefix. destruct key as [name labels]. simpl. destruct (is_metric_name name) eqn:Hn; [|done]. simpl.
  destruct (escape_labels labels) as [es|] eqn:Hes; [|done]. simpl. intros [= <-].
  unfold parse_prefix. rewrite <-app_assoc.
  assert (∀ r, match r with [] => True | c :: _ => metric_char c = false end →
    span_chars metric_char (chars name ++ r) = (chars name, r)) as Hspan.
  { intros r Hr. apply span_chars_app; [|done]. eapply full_match_all; [|exact Hn].
    intros c Hc. unfold metric_char. by rewrite Hc. }
  destruct labels as [|kv labels].
  - simpl in Hes. injection Hes as <-. rewrite bool_decide_eq_true_2 by done. cbn [app].
    rewrite Hspan by done. rewrite bool_decide_eq_false_2 by done. cbn [mbind option_bind].
    by rewrite of_chars_chars.
  - apply escape_labels_cons in Hes as Hcons. destruct Hcons as (es' & Heq & _).
    rewrite bool_decide_eq_false_2 by (by rewrite Heq). rewrite <-!app_assoc. cbn [app]. rewrite <-!app_assoc. cbn [app].
    rewrite Hspan by done. rewrite bool_decide_eq_true_2 by done.
    rewrite (parse_escaped (kv :: labels) es); [|done|done|].
    + cbn [mbind option_bind]. by rewrite of_chars_chars.
    + rewrite length_app, <-(escape_labels_length _ _ Hes). pose proof (join_length es). simpl. lia.
Qed.
