(* ===== verification/MetricsWitness.v ===== *)
(** * Metrics on concrete inputs

    A prometheus-client that keeps its log, and the theorems of [MetricsProps] and
    [Exposition] applied to small runs. *)

From S2P Require Import Prelude PyStr PyText Sha256 Domain PyNum Config Http Metrics MetricsProps Exposition.
Local Open Scope Z_scope.
Local Open Scope prog_scope.

(** ** A library that never fails *)

#[local] Instance toy_prometheus : Prometheus (list entry) series := {|
  labels f ls w := (w, Ok (f, ls));
  bare f := (f, []);
  act c a w := (w ++ [(c, a)], Ok tt) |}.
#[local] Instance toy_laws : PrometheusLaws (list entry) series.
Proof.
  refine {| log := λ w, w; child_of := λ c, c |}; try done.
  by intros f ls w c [= <-].
Defined.
#[local] Instance toy_faultless : Faultless (W:=list entry) (Child:=series).
Proof. split; [intros f ls w; by exists (f, ls)|done]. Defined.

(** ** And one that always fails *)

Definition broken_prometheus : Prometheus unit unit := {|
  labels _ _ w := (w, Raise ValueError); bare _ := tt; act _ _ w := (w, Raise ValueError) |}.

Definition FRESH : recorder series := mkRecorder true ∅ ∅ ∅ ∅ ∅ ∅ ∅ false false.
Definition STARTED : list entry :=
  [((build_info, ["3.4.1"; "abc"]%string), set_to (f64_of_Z 1)); ((recorder_healthy, []), set_to (f64_of_Z 1))].
Lemma starts : new_recorder (W:=list entry) (Child:=series) "3.4.1" "abc" [] = (STARTED, Ok FRESH).
Proof. vm_compute. reflexivity. Qed.
Definition CALLS : list call :=
  [CHttp "/api/v1/memory/7" "GET" 204 (f64_of_Z 2); CHttp "/wp-admin" "BREW" 999 (S754_nan); CMcp "memory_save" "ok" (f64_of_Z 1)].

Example calls_recorded : (perform_all CALLS (FRESH, [])).1.2 =
  [((http_requests, ["/api/v1/memory/{memory_id}"; "GET"; "2xx"]), inc);
   ((http_duration, ["/api/v1/memory/{memory_id}"; "GET"]), observe (f64_of_Z 2));
   ((http_requests, [UNKNOWN; UNKNOWN; "other"]), inc);
   ((http_duration, [UNKNOWN; UNKNOWN]), observe (S754_zero false));
   ((mcp_executions, ["memory_save"; "ok"]), inc); ((mcp_duration, ["memory_save"]), observe (f64_of_Z 1))]%string.
Proof. vm_compute. reflexivity. Qed.

Lemma series_bounded_witness :
  (∃ l, (perform_all CALLS (FRESH, STARTED)).1.2 = STARTED ++ l ∧ ∀ f, (length (series_of f l) ≤ series_limit f)%nat) ∧
  (size (http_request_children (perform_all CALLS (FRESH, STARTED)).1.1) ≤ 432)%nat.
Proof.
  destruct (series_bounded (W:=list entry) (Child:=series) "3.4.1" "abc" [] STARTED FRESH CALLS starts)
    as (H & _ & _ & _ & Hs & _).
  split; [exact H|exact Hs].
Defined.

Lemma caches_transparent_witness :
  ∃ s, perform_all CALLS (FRESH, STARTED) = (s, Ok tt) ∧ s.2 = STARTED ++ concat (map observations CALLS).
Proof. exact (caches_transparent (W:=list entry) (Child:=series) "3.4.1" "abc" [] STARTED FRESH CALLS starts). Defined.

(** An application that raises before it answers. *)
Definition raising_app (sc : scope) (s : (recorder series * list entry) * nat) :
    ((recorder series * list entry) * nat) * (list message * option raised) :=
  ((s.1, S s.2), ([], Some (ExceptionRaised ValueError))).
Definition GET_MEMORY : scope := mkScope "http" "/api/v1/memory" "GET".

Lemma exchange_measured_witness :
  let '(s', (sent, e)) := metrics_middleware (f64_of_Z 1) raising_app GET_MEMORY ((FRESH, STARTED), 0%nat) in
  ∃ inside, s'.1.2 = STARTED ++ [((inflight, ["rest"%string]), inc)] ++ inside ++ [((inflight, ["rest"%string]), dec)] ++
    observations (CHttp "/api/v1/memory" "GET" (seen_status sent) (f64_of_Z 1)).
Proof.
  refine (exchange_measured (f64_of_Z 1) raising_app GET_MEMORY ((FRESH, STARTED), 0%nat) _ _ eq_refl).
  - split; [|done]. unfold caches_ok; simpl; split_and!; apply map_Forall_empty.
  - intros s Hs. split; [exact Hs|]. exists []. by rewrite app_nil_r.
Defined.

Lemma metrics_never_interfere_witness :
  silent (perform (M:=recorder unit * unit) (MetricsRecorder0:=@PrometheusMetricsRecorder unit unit broken_prometheus) (CInc "rest")) ∧
  behaves (λ (_ : scope) (i : nat), (S i, ([], Some (ExceptionRaised ValueError)))) (metrics_middleware (f64_of_Z 1) raising_app) ∧
  tool_behaves (λ (_ : unit) (i : nat), (S i, Ok (JObj [("status", JArr [])]%string)))
    (wrap_handler (M:=recorder series * list entry) true (f64_of_Z 1)
      (λ _ s, ((s.1, S s.2), Ok (JObj [("status", JArr [])]%string))) "health").
Proof.
  destruct metrics_never_interfere as (H1 & H2 & H3 & _). split_and!.
  - apply H1.
  - apply H2. intros sc m i. by exists m.
  - apply H3; [reflexivity|]. intros u m i. by exists m.
Defined.

Definition scraping : scrapes (W:=list entry) (Child:=series) := mkScrapes (FRESH, STARTED) 0.
Definition scraped : scrapes (W:=list entry) (Child:=series) := mkScrapes (set_slot true FRESH, STARTED) 1.
Lemma one_scrape_witness :
  (workers scraped ≤ 1)%nat ∧ (scrape_slot (srecorder scraped).1 = true ↔ workers scraped = 1%nat) ∧
  ∀ gl, scrape_slot (render_owned gl (srecorder scraped)).1.1 = false.
Proof.
  refine (one_scrape scraping scraped eq_refl eq_refl _).
  apply rtc_once. exact (scrape_begins true (FRESH, STARTED) 0 (set_slot true FRESH, STARTED) (Ok tt) eq_refl).
Defined.

(** ** Expositions *)

Definition ODD : string := String QUOTE (String BACKSLASH (String NEWLINE "x")).
Definition SAMPLE : sample := mkSample (Str "oc_requests_inflight") (Some [(Str "surface", Str ODD)]) (f64_of_Z 1) None.
Definition INFLIGHT : metric := mkMetric "gauge" (Str "oc_requests_inflight") "Requests." [SAMPLE].
Definition ODD_TYPE : metric := mkMetric "summary" (Str "other") "" [].
Definition ONE (f : spec_float) : result exn string := Ok "1.0"%string.
Definition STANDARD (m : metric) : result exn string := Ok "standard"%string.

Lemma exposition_cached_witness :
  let x := after_scrapes ONE STANDARD "underscores" (Ok []) [[INFLIGHT]; [ODD_TYPE; INFLIGHT]] (mkExporter 1 1000 ∅ 0) in
  (expose ONE STANDARD "underscores" (Ok []) [INFLIGHT] x).2 = (expose ONE STANDARD "underscores" (Ok []) [INFLIGHT] KEEPS_NOTHING).2 ∧
  Z.of_nat (size (prefixes x)) ≤ 1 ∧ retained (prefixes x) ≤ 1000.
Proof. exact (exposition_cached ONE STANDARD 1 1000 (mkExporter 1 1000 ∅ 0) "underscores" (Ok []) _ [INFLIGHT] eq_refl). Defined.

Definition ODD_KEY : prefix_key := ("oc_jobs"%string, [("job", ODD); ("outcome", "ok")]%string).
Definition ODD_PREFIX : list ascii := match make_prefix ODD_KEY with Ok p => p | Raise _ => [] end.
Lemma prefix_roundtrip_witness : parse_prefix (ODD_PREFIX ++ ["1"%char]) = Some (ODD_KEY, ["1"%char]).
Proof. exact (prefix_roundtrip ODD_KEY ODD_PREFIX ["1"%char] ltac:(vm_compute; reflexivity)). Defined.
