(* ===== verification/RedactionProps.v ===== *)
(** * What redaction guarantees

    No text keeps the credentials of a URL after [redact_userinfo_in_text], and it
    loses nothing else: so for a line of the human format and for the strings of a
    JSON record, not for the lists and objects of its extras.  A URL loses its
    userinfo and nothing else. *)

From S2P Require Import Prelude PyStr PyText TextProps Sha256 Domain PyNum PyRepr Config Urls Redaction.
Local Open Scope Z_scope.

(** ** Matches *)

(** The text up to the first slash or white space. *)
Definition authority (l : list ascii) : list ascii := (span_chars in_authority l).1.
Abbreviation all p l := (Forall (λ c, p c = true) l).

Lemma scheme_colon : scheme_char ":"%char = false.
Proof. done. Qed.
Lemma scheme_no_at s : all scheme_char s → AT ∉ s.
Proof. intros Hs Hat. rewrite Forall_forall in Hs. by specialize (Hs _ Hat). Qed.
Lemma scheme_in_authority c : scheme_char c = true → in_authority c = true.
Proof. destruct c as [[] [] [] [] [] [] [] []]; by vm_compute. Qed.
Lemma scheme_alpha c : is_alpha_ascii c = true → scheme_char c = true.
Proof. unfold scheme_char. by intros ->. Qed.

(** After a scheme and its slashes, a match is an [@] in the authority. *)
Lemma match_scheme c s r :
  is_alpha_ascii c = true → all scheme_char s →
  match_userinfo (c :: s ++ COLON_SLASHES ++ r) =
  if has AT (authority r) then Some (c :: s ++ COLON_SLASHES, after_last AT (authority r) ++ (span_chars in_authority r).2) else None.
Proof.
  intros Hc Hs. cbn [match_userinfo]. rewrite Hc. rewrite span_chars_app by done.
  assert (eat COLON_SLASHES (COLON_SLASHES ++ r) = Some r) as -> by by apply eat_spec.
  cbn [mbind option_bind]. unfold authority. by destruct (span_chars in_authority r).
Qed.
Lemma match_inv l kept rest :
  match_userinfo l = Some (kept, rest) → ∃ c s r, l = c :: s ++ COLON_SLASHES ++ r ∧ is_alpha_ascii c = true ∧ all scheme_char s ∧
    AT ∈ authority r ∧ kept = c :: s ++ COLON_SLASHES ∧ rest = after_last AT (authority r) ++ (span_chars in_authority r).2.
Proof.
  destruct l as [|c l]; [done|]. simpl. destruct (is_alpha_ascii c) eqn:Hc; [|done].
  pose proof (span_chars_spec scheme_char l) as (Hl & Hs & _). destruct (span_chars scheme_char l) as [s r]. simpl in *.
  destruct (eat COLON_SLASHES r) as [r'|] eqn:He; [|done]. simpl. apply eat_spec in He as ->.
  destruct (span_chars in_authority r') as [run rest'] eqn:Er. destruct (has AT run) eqn:Hat; [|done]. intros [= <- <-].
  exists c, s, r'. unfold authority. rewrite Er, Hl. unfold has in Hat. apply bool_decide_eq_true in Hat. by split_and!.
Qed.

(** ** What is left of an authority *)

Lemma cut_notin c l : c ∉ l → cut c l = (l, None).
Proof.
  intros Hc. unfold cut. enough (partition_chars [c] l = None) as -> by done.
  induction l as [|d l IH]; [done|]. apply not_elem_of_cons in Hc as [Hcd Hc]. simpl.
  rewrite (bool_decide_eq_false_2 (c = d)) by done. simpl. by rewrite (IH Hc).
Qed.
Lemma cut_app c a b : c ∉ a → cut c (a ++ c :: b) = (a, Some b).
Proof.
  intros Hc. unfold cut. enough (partition_chars [c] (a ++ c :: b) = Some (a, b)) as -> by done.
  induction a as [|d a IH]; simpl; [by rewrite bool_decide_eq_true_2|].
  apply not_elem_of_cons in Hc as [Hcd Hc]. rewrite (bool_decide_eq_false_2 (c = d)) by done. simpl. by rewrite (IH Hc).
Qed.
Lemma after_last_app c a b : c ∉ b → after_last c (a ++ c :: b) = b.
Proof.
  intros Hb. unfold after_last, before. rewrite rev_app_distr. simpl. rewrite <-app_assoc. simpl.
  rewrite cut_app; [simpl; by rewrite rev_involutive|]. by rewrite elem_of_rev.
Qed.
Lemma last_split c l : c ∈ l → ∃ a b, l = a ++ c :: b ∧ c ∉ b ∧ after_last c l = b.
Proof.
  intros Hc. apply elem_of_rev in Hc. apply list_elem_of_split_l in Hc as (b & a & Hl & Hb).
  assert (l = rev a ++ c :: rev b) as -> by (by rewrite <-(rev_involutive l), Hl, rev_app_distr; simpl; rewrite <-app_assoc).
  exists (rev a), (rev b). split_and!; [done|by rewrite elem_of_rev|]. apply after_last_app. by rewrite elem_of_rev.
Qed.

Lemma authority_spec r : ∃ rest, r = authority r ++ rest ∧ all in_authority (authority r) ∧ rest = (span_chars in_authority r).2 ∧
  match rest with [] => True | c :: _ => in_authority c = false end.
Proof. destruct (span_chars_spec in_authority r) as (H1 & H2 & H3). by exists (span_chars in_authority r).2. Qed.
Lemma authority_app a l : all in_authority a → authority (a ++ l) = a ++ authority l.
Proof.
  intros Ha. unfold authority. induction Ha as [|c a Hc Ha IH]; simpl; [done|]. rewrite Hc.
  destruct (span_chars in_authority (a ++ l)) as [x y]. simpl in *. by rewrite IH.
Qed.
Lemma authority_scheme s r : all scheme_char s → authority (s ++ COLON_SLASHES ++ r) = s ++ [":"%char].
Proof.
  intros Hs. rewrite authority_app; [done|]. eapply Forall_impl; [exact Hs|]. intros c. apply scheme_in_authority.
Qed.
(** What follows a removed userinfo has no further one. *)
Lemma rest_authority r : AT ∈ authority r → AT ∉ authority (after_last AT (authority r) ++ (span_chars in_authority r).2).
Proof.
  intros Hat. destruct (authority_spec r) as (rest & Hr & Ha & -> & Hrest).
  destruct (last_split _ _ Hat) as (a & b & Hab & Hb & ->).
  rewrite authority_app; [|rewrite Hab in Ha; apply Forall_app in Ha as [_ Ha]; by inversion Ha].
  destruct (span_chars in_authority r).2 as [|c l]; unfold authority at 1; simpl; [by rewrite app_nil_r|].
  by rewrite Hrest, app_nil_r.
Qed.

(** ** Stripping *)

Lemma match_shorter l kept rest : match_userinfo l = Some (kept, rest) → (length rest < length l)%nat.
Proof.
  intros (c & s & r & -> & _ & _ & Hat & _ & ->)%match_inv. destruct (authority_spec r) as (rest & Hr & _ & <- & _).
  destruct (last_split _ _ Hat) as (a & b & Hab & _ & ->). rewrite Hr, Hab. simpl. rewrite !length_app. simpl.
  rewrite !length_app. simpl. lia.
Qed.
Lemma strip_eq n l : strip_userinfo (S n) l =
  match match_userinfo l with
  | Some (kept, rest) => kept ++ strip_userinfo n rest
  | None => match l with c :: l' => c :: strip_userinfo n l' | [] => [] end
  end.
Proof. done. Qed.
Lemma strip_nil n : strip_userinfo n [] = [].
Proof. by destruct n. Qed.

Lemma strip_authority n l : (length l ≤ n)%nat → authority (strip_userinfo n l) = authority l.
Proof.
  revert l. induction n as [|n IH]; intros l Hn; [done|]. rewrite strip_eq.
  destruct (match_userinfo l) as [[kept rest]|] eqn:E.
  - apply match_inv in E as (c & s & r & -> & Hc & Hs & _ & -> & _).
    rewrite !(app_comm_cons _ _ c), <-app_assoc. by rewrite !authority_scheme by (constructor; [by apply scheme_alpha|done]).
  - destruct l as [|c l]; [done|]. unfold authority. simpl. destruct (in_authority c); [|done].
    simpl in Hn. specialize (IH l ltac:(lia)). unfold authority in IH.
    destruct (span_chars in_authority (strip_userinfo n l)), (span_chars in_authority l). simpl in *. by rewrite IH.
Qed.

Lemma scheme_split s1 s2 y1 y2 :
  s1 ++ COLON_SLASHES ++ y1 = s2 ++ COLON_SLASHES ++ y2 → all scheme_char s1 → all scheme_char s2 → s1 = s2 ∧ y1 = y2.
Proof.
  intros Heq H1 H2. assert (s1 = s2) as <-.
  { pose proof (span_chars_app scheme_char s1 (COLON_SLASHES ++ y1) H1 eq_refl) as E1.
    rewrite Heq, (span_chars_app scheme_char s2 (COLON_SLASHES ++ y2) H2 eq_refl) in E1. congruence. }
  apply app_inv_head in Heq. by injection Heq.
Qed.
(** A character that starts no match comes from itself. *)
Lemma strip_plain n l c y :
  (length l ≤ n)%nat → is_alpha_ascii c = false → strip_userinfo n l = c :: y →
  ∃ l', l = c :: l' ∧ y = strip_userinfo (pred n) l'.
Proof.
  intros Hn Hc Hl. destruct n as [|n]; [destruct l; [done|simpl in Hn; lia]|]. rewrite strip_eq in Hl.
  destruct (match_userinfo l) as [[kept rest]|] eqn:E.
  - apply match_inv in E as (d & s & r & -> & Hd & _ & _ & -> & _). injection Hl as -> _. congruence.
  - destruct l as [|d l]; [done|]. injection Hl as -> <-. by exists l.
Qed.

(** A scheme in the result was one in the text, and its authority had an [@] if it has. *)
Lemma strip_scheme n : ∀ l s y, (length l ≤ n)%nat → all scheme_char s → strip_userinfo n l = s ++ COLON_SLASHES ++ y →
  ∃ y', l = s ++ COLON_SLASHES ++ y' ∧ (AT ∈ authority y → AT ∈ authority y').
Proof.
  induction n as [|n IH]; intros l s y Hn Hs Hl; [by eauto|]. rewrite strip_eq in Hl.
  destruct (match_userinfo l) as [[kept rest]|] eqn:E.
  - apply match_inv in E as (c & s' & r & -> & Hc & Hs' & Hat & -> & _).
    rewrite app_comm_cons, <-app_assoc in Hl.
    apply scheme_split in Hl as [<- <-]; [|by constructor; [apply scheme_alpha|]|done].
    exists r. by rewrite <-app_comm_cons.
  - destruct l as [|d l]; [by destruct s|]. simpl in Hn.
    destruct s as [|c s].
    + injection Hl as -> Hl. destruct (strip_plain n l "/" ("/"%char :: y)) as (l1 & -> & Hl1); [lia|done..|].
      destruct (strip_plain (pred n) l1 "/" y) as (l2 & -> & Hl2); [simpl in Hn; lia|done..|].
      exists l2. split; [done|]. subst y. rewrite strip_authority; [done|simpl in Hn; lia].
    + injection Hl as -> Hl. apply Forall_cons in Hs as [_ Hs]. destruct (IH l s y) as (y' & -> & ?); [lia|done..|]. by exists y'.
Qed.

(** No position of a text starts a match. *)
Definition clean (l : list ascii) : Prop := ∀ i, match_userinfo (drop i l) = None.
Lemma match_not_alpha c l : is_alpha_ascii c = false → match_userinfo (c :: l) = None.
Proof. simpl. by intros ->. Qed.
Lemma clean_cons c l : match_userinfo (c :: l) = None → clean l → clean (c :: l).
Proof. intros Hc Hl [|i]; [done|apply Hl]. Qed.
Lemma clean_scheme s r : all scheme_char s → AT ∉ authority r → clean r → clean (s ++ COLON_SLASHES ++ r).
Proof.
  intros Hs Hr Hcl. induction Hs as [|c s Hc Hs IH]; simpl.
  - repeat (apply clean_cons; [done|]). done.
  - apply clean_cons; [|done]. destruct (is_alpha_ascii c) eqn:Ha; [|by apply match_not_alpha].
    pose proof (match_scheme c s r Ha Hs) as Hm. unfold has in Hm. by rewrite bool_decide_eq_false_2 in Hm by done.
Qed.
Lemma strip_clean n l : (length l ≤ n)%nat → clean (strip_userinfo n l).
Proof.
  revert l. induction n as [|n IH]; intros l Hn.
  { destruct l; [|simpl in Hn; lia]. intros i. by destruct i. }
  rewrite strip_eq. destruct (match_userinfo l) as [[kept rest]|] eqn:E.
  - pose proof (match_shorter _ _ _ E) as Hlen. apply match_inv in E as (c & s & r & -> & Hc & Hs & Hat & -> & Hrest).
    assert (AT ∉ authority (strip_userinfo n rest)) as Hno by (rewrite strip_authority by lia; subst rest; by apply rest_authority).
    rewrite app_comm_cons, <-app_assoc. apply clean_scheme; [by constructor; [apply scheme_alpha|]|done|apply IH; lia].
  - destruct l as [|c l]; [by intros []|]. simpl in Hn. intros [|i]; [|apply IH; lia]. simpl.
    destruct (match_userinfo (c :: strip_userinfo n l)) as [[kept rest]|] eqn:E2; [|done].
    apply match_inv in E2 as (c' & s & y & [= <- Hl] & Hc & Hs & Hat & _).
    apply strip_scheme in Hl as (y' & -> & Hy); [|lia|done]. rewrite match_scheme in E by done.
    unfold has in E. by rewrite bool_decide_eq_true_2 in E by auto.
Qed.

Lemma redact_clean text : clean (chars (redact_userinfo_in_text text)).
Proof. unfold redact_userinfo_in_text. rewrite chars_of_chars. apply strip_clean. by rewrite <-length_chars. Qed.

(** ** Credentials *)

Definition LETTERS : list ascii := chars "abcdefghijklmnopqrstuvwxyzABCDEFGHIJKLMNOPQRSTUVWXYZ".
Definition SCHEME_CHARS : list ascii := LETTERS ++ chars "0123456789+.-".
(** A slash, and white space. *)
Definition STOPS : list ascii := "/"%char :: map chr [9; 10; 11; 12; 13; 28; 29; 30; 31; 32; 133; 160]%N.
(** A scheme, and a userinfo up to an [@]. *)
Definition scheme_text (s : list ascii) : Prop := ∃ c s', s = c :: s' ∧ c ∈ LETTERS ∧ Forall (.∈ SCHEME_CHARS) s'.
Definition userinfo_text (u : list ascii) : Prop := Forall (.∉ STOPS) u.
(** Somewhere in the text, [scheme://user:secret@]. *)
Definition holds_credentials (l : list ascii) : Prop :=
  ∃ pre s u post, l = pre ++ s ++ chars "://" ++ u ++ chars "@" ++ post ∧ scheme_text s ∧ userinfo_text u.
(** The second text is the first without the userinfo of some URLs. *)
Inductive loses_userinfo : list ascii → list ascii → Prop :=
| loses_nothing : loses_userinfo [] []
| loses_later c l l' : loses_userinfo l l' → loses_userinfo (c :: l) (c :: l')
| loses_here s u l l' : scheme_text s → userinfo_text u → loses_userinfo l l' →
    loses_userinfo (s ++ chars "://" ++ u ++ chars "@" ++ l) (s ++ chars "://" ++ l').

Lemma letters c : c ∈ LETTERS ↔ is_alpha_ascii c = true.
Proof. rewrite <-(bool_decide_eq_true (c ∈ LETTERS)). destruct c as [[] [] [] [] [] [] [] []]; by vm_compute; split. Qed.
Lemma scheme_chars c : c ∈ SCHEME_CHARS ↔ scheme_char c = true.
Proof. rewrite <-(bool_decide_eq_true (c ∈ SCHEME_CHARS)). destruct c as [[] [] [] [] [] [] [] []]; by vm_compute; split. Qed.
Lemma stops c : c ∉ STOPS ↔ in_authority c = true.
Proof. rewrite <-(bool_decide_eq_true (c ∉ STOPS)). destruct c as [[] [] [] [] [] [] [] []]; by vm_compute; split. Qed.
Lemma userinfo_authority u : userinfo_text u ↔ all in_authority u.
Proof. unfold userinfo_text. by setoid_rewrite stops. Qed.
Lemma schemes s : scheme_text s ↔ ∃ c s', s = c :: s' ∧ is_alpha_ascii c = true ∧ all scheme_char s'.
Proof. unfold scheme_text. setoid_rewrite letters. by setoid_rewrite scheme_chars. Qed.

(** What a match is. *)
Lemma match_credentials l kept rest : match_userinfo l = Some (kept, rest) → ∃ s u, l = s ++ chars "://" ++ u ++ chars "@" ++ rest ∧
  kept = s ++ chars "://" ∧ scheme_text s ∧ userinfo_text u.
Proof.
  intros (c & s & r & -> & Hc & Hs & Hat & -> & ->)%match_inv. destruct (authority_spec r) as (rest' & Hr & Ha & <- & _).
  destruct (last_split _ _ Hat) as (u & b & Hab & _ & ->). exists (c :: s), u. rewrite Hab in Ha. apply Forall_app in Ha as [Hu _].
  split_and!; [|done|apply schemes; eauto|by apply userinfo_authority].
  rewrite Hr, Hab. simpl. do 5 f_equal. by rewrite <-app_assoc.
Qed.
Lemma credentials_match s u post : scheme_text s → userinfo_text u → match_userinfo (s ++ chars "://" ++ u ++ chars "@" ++ post) ≠ None.
Proof.
  intros (c & s' & -> & Hc & Hs)%schemes Hu%userinfo_authority.
  change (match_userinfo (c :: s' ++ COLON_SLASHES ++ u ++ AT :: post) ≠ None). rewrite match_scheme by done. unfold has. rewrite bool_decide_eq_true_2; [done|]. rewrite authority_app by done. simpl.
  unfold authority. simpl. destruct (span_chars in_authority post). set_solver.
Qed.
Lemma clean_credentials l : clean l ↔ ¬ holds_credentials l.
Proof.
  split.
  - intros Hl (pre & s & u & post & -> & Hs & Hu). apply (credentials_match s u post Hs Hu). rewrite <-(Hl (length pre)).
    by rewrite drop_app_length.
  - intros Hno i. destruct (match_userinfo (drop i l)) as [[kept rest]|] eqn:E; [|done]. destruct Hno.
    apply match_credentials in E as (s & u & E & _ & Hs & Hu). exists (take i l), s, u, rest.
    split; [by rewrite <-E, take_drop|done].
Qed.
Lemma strip_loses n l : loses_userinfo l (strip_userinfo n l).
Proof.
  revert l. induction n as [|n IH]; intros l; [induction l; by constructor|]. rewrite strip_eq.
  destruct (match_userinfo l) as [[kept rest]|] eqn:E; [|destruct l; by constructor].
  apply match_credentials in E as (s & u & -> & -> & Hs & Hu). rewrite <-app_assoc. by apply loses_here.
Qed.
Lemma strip_clean_same n l : clean l → strip_userinfo n l = l.
Proof.
  revert l. induction n as [|n IH]; intros l Hl; [done|]. rewrite strip_eq. rewrite (Hl 0%nat : match_userinfo l = None).
  destruct l as [|c l]; [done|]. f_equal. apply IH. intros i. apply (Hl (S i)).
Qed.
Lemma redact_hides text : ¬ holds_credentials (chars (redact_userinfo_in_text text)).
Proof. by apply clean_credentials, redact_clean. Qed.

(** ** Log lines *)

(** A string value of a payload holds no credentials, but for the fields the record
    itself names. *)
Definition hides (own : list (string * string)) (kv : string * json) : Prop :=
  match kv.2 with JStr s => (kv.1, s) ∈ own ∨ ¬ holds_credentials (chars s) | _ => True end.
Lemma put_hides own k v l : hides own (k, v) → Forall (hides own) l → Forall (hides own) (put_key k v l).
Proof.
  intros Hk Hl. induction Hl as [|[k' v'] l Hk' Hl IH]; simpl; [by constructor|].
  case_bool_decide; by constructor.
Qed.
Lemma redact_value_hides own k a : hides own (k, redact_value a).
Proof. destruct a as [[]|]; simpl; try done; right; apply redact_hides. Qed.

(** C18. What the formatters render holds no URL credentials.  A line of the human
    format, traceback included, has no [scheme://user:secret@] anywhere, where the
    userinfo is anything without a slash or white space (quotes included); it is the
    rendered text with nothing but such userinfo and their [@] dropped, and a text
    without any is kept as it is.  In the payload of a JSON record every value that
    is a string (the message, the traceback, an extra) is without credentials, but
    for the record's own time, level and logger name.  A list or an object among the
    extras is not redacted (the finding). *)
Theorem logs_hide_credentials :
  (∀ rendered, let line := human_format rendered in
     ¬ holds_credentials (chars line) ∧ loses_userinfo (chars rendered) (chars line) ∧
     (¬ holds_credentials (chars rendered) → line = rendered)) ∧
  (∀ r k s, (k, JStr s) ∈ log_payload r →
     (k, s) ∈ [("ts", log_time r); ("level", levelname r); ("logger", logger_name r)]%string ∨ ¬ holds_credentials (chars s)).
Proof.
  split.
  - intros text line. split; [apply redact_hides|]. unfold line, human_format, redact_userinfo_in_text. rewrite chars_of_chars.
    split; [apply strip_loses|]. intros H%clean_credentials. by rewrite strip_clean_same, of_chars_chars.
  - intros r k s Hin. set (own := [("ts", log_time r); _; _]%string). assert (Forall (hides own) (log_payload r)) as Hall.
    { unfold log_payload. match goal with |- Forall _ (foldl _ ?p _) => assert (Forall (hides own) p) as Hp end.
      { match goal with |- Forall _ (match _ with Some _ => _ | None => ?b end) => assert (Forall (hides own) b) as Hb end.
        { repeat apply Forall_cons_2; [left; unfold own; simpl; set_solver..|right; apply redact_hides|constructor]. }
        destruct (exc_text r); [apply put_hides; [right; apply redact_hides|]|]; exact Hb. }
      revert Hp. generalize (filter (λ kv : string * attribute, is_extra kv.1 = true) (attributes r)) as l.
      match goal with |- ∀ l, Forall _ ?p → _ => generalize p end.
      intros p l. revert p. induction l as [|[k' a] l IH]; intros p Hp; simpl; [done|].
      apply IH, put_hides; [apply redact_value_hides|done]. }
    rewrite Forall_forall in Hall. exact (Hall _ Hin).
Qed.

(** A list in [extra] goes to the log as it is. *)
Example nested_extra_kept :
  log_payload (mkLogRecord "t" "INFO" "oc" "m" None [("urls", Plain (JArr [JStr "http://u:p@h"])); ("url", Plain (JStr "http://u:p@h"))])
  = [("ts", JStr "t"); ("level", JStr "INFO"); ("logger", JStr "oc"); ("message", JStr "m");
     ("urls", JArr [JStr "http://u:p@h"]); ("url", JStr "http://h")]%string.
Proof. vm_compute. reflexivity. Qed.

(** ** URLs of known parts *)

Definition net_char (c : ascii) : bool :=
  negb (ends_netloc c) && negb (bool_decide (c ∈ ["["; "]"]%char)) && negb (unsafe_byte c).
Definition path_char (c : ascii) : bool := negb (bool_decide (c ∈ ["?"; "#"]%char)) && negb (unsafe_byte c).
Definition is_scheme (s : list ascii) : Prop :=
  match s with c :: s' => is_alpha_ascii c = true ∧ all scheme_char s' | [] => False end.
Definition is_path (l : list ascii) : Prop := all path_char l ∧ match l with [] => True | c :: _ => c = "/"%char end.

Lemma all_notin (p : ascii → bool) c l : p c = false → all p l → c ∉ l.
Proof. intros Hc Hl Hin. rewrite Forall_forall in Hl. specialize (Hl _ Hin). cbv beta in Hl. congruence. Qed.
Lemma all_weaken (p q : ascii → bool) l : (∀ c, p c = true → q c = true) → all p l → all q l.
Proof. intros Hpq Hl. eapply Forall_impl; [exact Hl|done]. Qed.
Lemma net_not_end c : net_char c = true → negb (ends_netloc c) = true.
Proof. unfold net_char. by intros [[]%andb_true_iff _]%andb_true_iff. Qed.
Lemma net_safe c : net_char c = true → unsafe_byte c = false.
Proof. unfold net_char. by intros [_ ?%negb_true_iff]%andb_true_iff. Qed.
Lemma path_safe c : path_char c = true → unsafe_byte c = false.
Proof. unfold path_char. by intros [_ ?%negb_true_iff]%andb_true_iff. Qed.
Lemma scheme_safe c : scheme_char c = true → unsafe_byte c = false.
Proof. destruct c as [[] [] [] [] [] [] [] []]; by vm_compute. Qed.
Lemma filter_safe l : all (λ c, negb (unsafe_byte c)) l → filter (λ c, unsafe_byte c = false) l = l.
Proof.
  intros Hl. induction Hl as [|c l Hc Hl IH]; [done|]. rewrite filter_cons_True by (by apply negb_true_iff). by rewrite IH.
Qed.
Lemma alpha_not_control c : is_alpha_ascii c = true → is_control_or_space c = false.
Proof. destruct c as [[] [] [] [] [] [] [] []]; by vm_compute. Qed.

Lemma split_scheme_built c s r :
  is_alpha_ascii c = true → all scheme_char s → split_scheme ((c :: s) ++ ":"%char :: r) = (map py_lower (c :: s), r).
Proof.
  intros Hc Hs. assert (all scheme_char (c :: s)) as Hcs by (by constructor; [apply scheme_alpha|]).
  unfold split_scheme. rewrite (cut_app ":"%char (c :: s) r) by (by apply (all_notin scheme_char)).
  cbv iota beta. rewrite Hc. assert (forallb scheme_char (c :: s) = true) as ->; [|done].
  apply forallb_forall. intros x Hx. rewrite Forall_forall in Hcs. by apply Hcs, list_elem_of_In.
Qed.
Lemma lstrip_alpha c s r : is_alpha_ascii c = true → lstrip_chars is_control_or_space ((c :: s) ++ r) = (c :: s) ++ r.
Proof. intros Hc. cbn [app lstrip_chars]. by rewrite (alpha_not_control c Hc). Qed.
(** A network location with or without brackets. *)
Lemma urlsplit_parts s net p :
  is_scheme s → all (λ c, negb (ends_netloc c) && negb (unsafe_byte c)) net → brackets_ok net = true → is_path p →
  urlsplit (s ++ COLON_SLASHES ++ net ++ p) = Some (mkSplit (map py_lower s) net p [] []).
Proof.
  intros Hs Hnet Hbr [Hp Hp0]. destruct s as [|c s]; [done|]. destruct Hs as [Hc Hs].
  assert (all scheme_char (c :: s)) as Hcs by (by constructor; [apply scheme_alpha|]).
  assert (all (λ c, negb (unsafe_byte c)) ((c :: s) ++ COLON_SLASHES ++ net ++ p)) as Hsafe.
  { repeat apply Forall_app_2; [|by repeat constructor| |].
    - eapply all_weaken; [|exact Hcs]. intros d Hd. by rewrite (scheme_safe d).
    - eapply all_weaken; [|exact Hnet]. intros d Hd. by apply andb_true_iff in Hd as [_ ?].
    - eapply all_weaken; [|exact Hp]. intros d Hd. by rewrite (path_safe d). }
  unfold urlsplit. rewrite lstrip_alpha by done.
  rewrite filter_safe by done. change ((c :: s) ++ COLON_SLASHES ++ net ++ p) with ((c :: s) ++ ":"%char :: ["/"; "/"]%char ++ net ++ p).
  rewrite (split_scheme_built c s (["/"; "/"]%char ++ net ++ p)) by done.
  cbv iota. assert (eat ["/"; "/"]%char (["/"; "/"]%char ++ net ++ p) = Some (net ++ p)) as -> by by apply eat_spec.
  rewrite span_chars_app; [|eapply all_weaken; [|exact Hnet]; by intros d [? _]%andb_true_iff|by destruct p; subst].
  rewrite Hbr. simpl negb. cbv iota. unfold before, after.
  repeat (rewrite (cut_notin _ p) by (by apply (all_notin path_char)); cbn [fst snd]). done.
Qed.
Lemma urlsplit_built s net p :
  is_scheme s → all net_char net → is_path p →
  urlsplit (s ++ COLON_SLASHES ++ net ++ p) = Some (mkSplit (map py_lower s) net p [] []).
Proof.
  intros Hs Hnet Hp. apply urlsplit_parts; [done| | |done].
  - eapply all_weaken; [|exact Hnet]. intros c Hc. by rewrite (net_not_end c Hc), (net_safe c Hc).
  - unfold brackets_ok, has. rewrite !bool_decide_eq_false_2 by (by apply (all_notin net_char)). done.
Qed.

Lemma unsplit_built s net p :
  s ≠ [] → net ≠ [] → is_path p → urlunsplit (mkSplit s net p [] []) = s ++ COLON_SLASHES ++ net ++ p.
Proof.
  intros Hs Hnet [_ Hp]. unfold urlunsplit. cbn [netloc path scheme query fragment].
  rewrite (bool_decide_eq_false_2 (net = [])), (bool_decide_eq_false_2 (s = [])) by done.
  rewrite !(bool_decide_eq_true_2 ([] = [])) by done. cbn [negb].
  destruct p as [|c p]; [done|]. by rewrite bool_decide_eq_true_2 by done.
Qed.

(** A host and port as they stand in a URL. *)
Definition host_char (c : ascii) : bool := net_char c && negb (bool_decide (c = AT)).
Lemma has_app c a b : has c (a ++ c :: b) = true.
Proof. unfold has. apply bool_decide_eq_true. set_solver. Qed.
Lemma userinfo_last u h : all host_char h → after_last AT (u ++ AT :: h) = h.
Proof. intros Hh. apply after_last_app. by apply (all_notin host_char). Qed.
Lemma net_userinfo u h : all net_char u → all host_char h → all net_char (u ++ AT :: h).
Proof.
  intros Hu Hh. apply Forall_app_2; [done|]. constructor; [done|].
  eapply all_weaken; [|exact Hh]. intros c. unfold host_char. by intros [? _]%andb_true_iff.
Qed.
Lemma contains_scheme s r : contains "://" (of_chars (s ++ COLON_SLASHES ++ r)) = true.
Proof. apply contains_spec. exists (of_chars s), (of_chars r). apply chars_inj. rewrite !chars_app, !chars_of_chars. done. Qed.

(** Redacting a URL takes its credentials away and nothing else, whatever they
    hold, an [@] or a colon included: with a scheme, and without one as host settings
    have it. *)
Theorem url_credentials_removed (s u h p : list ascii) :
  is_scheme s → map py_lower s = s → all net_char u → all host_char h → h ≠ [] → is_path p →
  redact_url_userinfo (of_chars (s ++ COLON_SLASHES ++ u ++ AT :: h ++ p)) = of_chars (s ++ COLON_SLASHES ++ h ++ p) ∧
  (contains "://" (of_chars (u ++ AT :: h ++ p)) = false →
   redact_url_userinfo (of_chars (u ++ AT :: h ++ p)) = of_chars (h ++ p)).
Proof.
  intros Hs Hlow Hu Hh Hne Hp. unfold redact_url_userinfo.
  assert (∀ X, u ++ AT :: h ++ X = (u ++ AT :: h) ++ X) as Happ by (intros; by rewrite <-app_assoc).
  rewrite !Happ. split.
  - rewrite contains_scheme. cbn [negb]. rewrite chars_of_chars, urlsplit_built by (try done; by apply net_userinfo).
    cbn [netloc scheme path query fragment]. rewrite has_app. cbn [negb]. rewrite userinfo_last by done.
    rewrite Hlow, unsplit_built; [done| |done..]. by destruct s.
  - intros ->. cbn [negb].
    rewrite chars_app, chars_of_chars.
    change (chars "http://") with (chars "http" ++ COLON_SLASHES). rewrite <-app_assoc.
    rewrite urlsplit_built; [|by split; [|repeat constructor]|by apply net_userinfo|done].
    cbn [netloc scheme path query fragment]. rewrite has_app. cbn [negb]. rewrite userinfo_last by done.
    rewrite unsplit_built by done. unfold removeprefix, starts_with. rewrite chars_of_chars.
    change (map py_lower (chars "http") ++ COLON_SLASHES ++ h ++ p) with (chars "http://" ++ h ++ p).
    assert (is_prefix (chars "http://") (chars "http://" ++ h ++ p) = true) as -> by (apply is_prefix_spec; eauto).
    by rewrite drop_app_length'.
Qed.

Lemma url_credentials_removed_witness :
  redact_url_userinfo (of_chars (chars "http" ++ COLON_SLASHES ++ chars "u:p@ss" ++ AT :: chars "nas:11434" ++ chars "/api")) =
    of_chars (chars "http" ++ COLON_SLASHES ++ chars "nas:11434" ++ chars "/api").
Proof.
  apply (url_credentials_removed (chars "http") (chars "u:p@ss") (chars "nas:11434") (chars "/api"));
    vm_compute; repeat split; try discriminate; repeat (constructor; try reflexivity).
Defined.

(** A quote does not end a userinfo. *)
Lemma logs_hide_credentials_witness :
  let r := mkLogRecord "t" "INFO" "oc" "GET http://u:p'@h/x" None [] in
  ¬ holds_credentials (chars (human_format "GET http://u:p'@h/x")) ∧ ¬ holds_credentials (chars (redact_userinfo_in_text (log_message r))) ∧
  redact_userinfo_in_text (log_message r) = "GET http://h/x"%string.
Proof.
  intros r. destruct logs_hide_credentials as (H1 & H3). split_and!; [apply H1| |vm_compute; reflexivity].
  destruct (H3 r "message"%string (redact_userinfo_in_text (log_message r))) as [H|H]; [|exfalso; revert H; by apply (bool_decide_unpack _)|exact H].
  do 3 apply list_elem_of_further. apply list_elem_of_here.
Defined.

(** ** The root logger *)

Lemma attach_same environ abspath usable f lv hs :
  Forall (λ h, h = mkHandler (rotating_file h) f lv) hs →
  let hs' := attach_file_handler environ abspath usable f lv hs in
  Forall (λ h, h = mkHandler (rotating_file h) f lv) hs' ∧ attach_file_handler environ abspath usable f lv hs' = hs'.
Proof.
  intros Hall. unfold attach_file_handler. case_bool_decide; [done|]. cbv zeta.
  destruct (list_find _ hs) as [[i h]|] eqn:E.
  - apply list_find_Some in E as (Hi & Hh & Hfirst). rewrite Forall_lookup in Hall.
    assert (<[i := mkHandler (rotating_file h) f lv]> hs = hs) as ->.
    { apply list_insert_id. by rewrite Hi, <-(Hall _ _ Hi). }
    split; [by apply Forall_lookup|]. replace (list_find _ hs) with (Some (i, h)) by (symmetry; apply list_find_Some; eauto).
    apply list_insert_id. by rewrite Hi, <-(Hall _ _ Hi).
  - destruct (usable _) eqn:Hu; [|by rewrite E]. split; [apply Forall_app_2; [done|by constructor]|].
    rewrite list_find_app_r by done. simpl. rewrite decide_True by done. simpl.
    rewrite list_insert_id; [done|]. by apply list_lookup_middle.
Qed.

(** Configuring the root logger again changes nothing: no handler is doubled. *)
Theorem logging_idempotent (environ : environment) abspath usable default_level (root root' : root_logger) :
  configure_root_logger environ abspath usable default_level root = Ok root' →
  configure_root_logger environ abspath usable default_level root' = Ok root'.
Proof.
  unfold configure_root_logger. destruct (level_of _) as [lv|]; [|done]. intros [= <-]. cbn [handlers httpx_quiet].
  set (f := if bool_decide (_ = "json"%string) then Json else Human).
  set (hs := match handlers root with [] => _ | _ => _ end).
  assert (Forall (λ h, h = mkHandler (rotating_file h) f lv) hs ∧ hs ≠ []) as [Hall Hne].
  { subst hs. destruct (handlers root); split; try done; [by constructor|].
    constructor; [done|]. by apply Forall_map, Forall_true. }
  destruct (attach_same environ abspath usable f lv hs Hall) as [Hall' Hsame].
  set (hs' := attach_file_handler environ abspath usable f lv hs) in *.
  assert (hs' ≠ []) as Hne'.
  { subst hs'. unfold attach_file_handler. repeat case_match; try done; [|by destruct hs].
    intros Hnil. apply (f_equal length) in Hnil. rewrite length_insert in Hnil. by destruct hs. }
  assert (map (λ h, mkHandler (rotating_file h) f lv) hs' = hs') as Hmap.
  { transitivity (map (λ h, h) hs'); [|apply map_id].
    apply map_ext_Forall. eapply Forall_impl; [exact Hall'|]. cbv beta. by intros ? <-. }
  clearbody hs'. destruct hs' as [|h l]; [done|]. rewrite Hmap, Hsame. by destruct (10 <? lv).
Qed.
