(* ===== verification/Container.v ===== *)
(** * Construction

    [config_loader.py], [wiring/container.py] and the parts of [api/app.py] that
    decide what runs: reading core.json, the backup directory, the embedding adapter
    and whether its endpoint is on the LAN, the order in which the container opens
    things, and the lifespan of the application.  The file system and installed
    packages answer through arguments; [json.loads] is one of them.  Log lines are
    left out. *)

From S2P Require Import Prelude PyStr PyText Sha256 Domain PyNum Sql Embedding Maintenance PyRepr Config Vectors Adapters Metrics.
From S2P Require Import Urls.
Local Open Scope Z_scope.
Local Open Scope prog_scope.

(** ** core.json *)

(** What opening the file gave: [read_text] raises [OSError] or
    [UnicodeDecodeError] where it is not readable. *)
Inductive core_file := Missing | Unreadable | Content (text : string).
Inductive startup_error := ConfigLoadError | Startup (e : exn).
(** [config_loader.py:29-54 load_json_config] [loads]: [None] is a
    [JSONDecodeError]. *)
Definition load_json_config (loads : string → option json) (f : core_file) : result startup_error (list (string * json)) :=
  match f with
  | Missing => Ok []
  | Unreadable => Raise ConfigLoadError
  | Content text =>
      if blank text then Ok []
      else match loads text with Some (JObj l) => Ok l | _ => Raise ConfigLoadError end
  end.

(** ** The backup directory *)

Inductive lstat_outcome := NotFound | LstatError | SymbolicLink | DirectoryEntry | OtherEntry.
Inductive directory_problem := not_absolute | does_not_exist | cannot_be_checked | is_symlink | not_a_directory | not_writable.
(** [container.py:57-81 _backup_dir_problem] [writable]: a temporary file could be
    made in it. *)
Definition backup_dir_problem (path : string) (lstat : lstat_outcome) (writable : bool) : option directory_problem :=
  if negb (starts_with "/" path) then Some not_absolute
  else match lstat with
    | NotFound => Some does_not_exist
    | LstatError => Some cannot_be_checked
    | SymbolicLink => Some is_symlink
    | OtherEntry => Some not_a_directory
    | DirectoryEntry => if writable then None else Some not_writable
    end.

(** ** The endpoint *)

Definition LOCAL_NAMES : list string := ["localhost"; "host.docker.internal"]%string.
Definition LOCAL_SUFFIXES : list string := ["local"; "internal"; "lan"; "home"; "localhost"]%string.
Definition is_bracket (c : ascii) : bool := bool_decide (c ∈ ["["; "]"]%char).
(** [container.py:43-54 _looks_private_host] The tests on the host. *)
Definition private_name (host : list ascii) : bool :=
  if bool_decide (host = []) then false
  else if bool_decide (of_chars host ∈ LOCAL_NAMES) then true
  else match ip_address host with
    | Some a => is_private a || is_loopback a
    | None => negb (has "." host) || bool_decide (of_chars (after_last "." host) ∈ LOCAL_SUFFIXES)
    end.
(** [container.py:29-44 _looks_private_host] [urlsplit] may raise. *)
Definition looks_private_host (url : string) : result exn bool :=
  match urlsplit (chars url) with
  | None => Raise ValueError
  | Some parts => Ok (private_name (map py_lower (strip_chars is_bracket (hostname parts))))
  end.

(** [container.py:244-260 CoreContainer._embedding_endpoint] *)
Definition embedding_endpoint (environ : environment) (provider : string) : string :=
  if bool_decide (provider = "openai"%string) then default "https://api.openai.com/v1"%string (given (environ !! "OPENAI_BASE_URL"%string))
  else if bool_decide (provider = "ollama"%string)
  then default "http://localhost:11434"%string (or_else (environ !! "OLLAMA_HOST"%string) (environ !! "OLLAMA_BASE_URL"%string))
  else ""%string.
(** [container.py:262-269 CoreContainer.embedding_endpoint_is_remote] *)
Definition embedding_endpoint_is_remote (environ : environment) (provider : string) : result exn bool :=
  let endpoint := embedding_endpoint environ provider in
  if bool_decide (endpoint = ""%string) then Ok false
  else let? private := looks_private_host endpoint in Ok (negb private).

(** ** The adapter *)

Inductive adapter := Stub (dims : Z) | OpenAI (s : openai_settings) | Ollama_ (s : ollama_settings).
Definition or_model (model dflt : string) : string := if bool_decide (model = ""%string) then dflt else model.
(** [container.py:314-348 CoreContainer._create_embedding_adapter] [installed]: the
    [openai] package.  A request timeout is passed on as it is. *)
Definition create_embedding_adapter (environ : environment) (installed : bool) (s : EmbeddingSettings) : result exn adapter :=
  if bool_decide (provider s = "stub"%string) then Ok (Stub (default 384 (dimensions s)))
  else if bool_decide (provider s = "openai"%string) then
    let? cfg := new_openai_settings environ installed (or_model (model s) "text-embedding-3-small")
      (default 1536 (dimensions s)) (non_empty (api_key s)) None in Ok (OpenAI cfg)
  else if bool_decide (provider s = "ollama"%string) then
    Ok (Ollama_ (new_ollama_settings environ (or_model (model s) "nomic-embed-text") (dimensions s) None))
  else Raise (ConfigError CONFIG_ERROR).
(** [container.py:274-310 CoreContainer._build_embedding_port] *)
Definition build_embedding_port (environ : environment) (installed : bool) (s : EmbeddingSettings) : option adapter :=
  if bool_decide (provider s = "none"%string) then None
  else match create_embedding_adapter environ installed s with
    | Ok a => match embedding_endpoint_is_remote environ (provider s) with Ok _ => Some a | Raise _ => None end
    | Raise _ => None
    end.

(** ** The container *)

(** What the file system and the store answer while the container is built; an
    [option exn] is what a call raised. *)
Record surroundings := mkSurroundings {
  prometheus_installed : bool;
  openai_installed : bool;
  backup_lstat : lstat_outcome;
  backup_writable : bool;
  make_db_parent : option exn;
  config_dir_exists : bool;
  make_output_dir : option exn;
  core_json : core_file;
  open_store : option exn;
}.
Inductive store_state := Unopened | Opened | Closed.
Record container := mkContainer {
  metrics_enabled : bool;
  backup_dir : pypath;
  backup_dir_explicit : bool;
  container_backup_problem : option directory_problem;
  file_configs : list (string * json);
  embedding_settings : EmbeddingSettings;
  embedding_port : option adapter;
}.
Abbreviation Building := (SE store_state startup_error).
Definition or_startup {A} (r : result exn A) : Building A :=
  lift_result (match r with Ok a => Ok a | Raise e => Raise (Startup e) end).
Definition unless_raised (o : option exn) : Building unit :=
  match o with None => ret tt | Some e => raise (Startup e) end.
(** [container.py:94-171 CoreContainer.__init__] [db_parent]: the directory of the
    database; the store is closed when what comes after it fails. *)
Definition build_container (environ : environment) (loads : string → option json) (db_parent : string) (x : surroundings)
    : Building container :=
  let* enabled := or_startup (
    if negb (metrics_enabled_from_env environ) then Ok false
    else if prometheus_installed x then Ok true else Raise (ConfigError CONFIG_ERROR)) in
  let backup_dir_env := py_strip (default ""%string (environ !! "OC_BACKUP_DIR"%string)) in
  let explicit := negb (bool_decide (backup_dir_env = ""%string)) in
  let directory := if explicit then Path backup_dir_env else Below db_parent "backups" in
  let problem := if explicit then backup_dir_problem backup_dir_env (backup_lstat x) (backup_writable x) else None in
  unless_raised (make_db_parent x) ;;
  (if config_dir_exists x then ret tt else raise (Startup (ConfigError CONFIG_ERROR))) ;;
  unless_raised (make_output_dir x) ;;
  let* configs := lift_result (load_json_config loads (core_json x)) in
  unless_raised (open_store x) ;;
  put_st Opened ;;
  try_catch
    (let* settings := or_startup (load_embedding_settings environ (default JNull (jget "embedding" configs))) in
     ret (mkContainer enabled directory explicit problem configs settings
       (build_embedding_port environ (openai_installed x) settings)))
    (λ e, put_st Closed ;; raise e).

(** ** The application *)

(** [app.py:55-70 _backup_tools_enabled] *)
Definition backup_tools_enabled (environ : environment) (config : HTTPConfig) (c : container) : bool :=
  parse_bool_env (environ !! "OC_BACKUP_MCP_ENABLED"%string) false
  && (match http_api_key config with Some k => negb (bool_decide (k = ""%string)) | None => false end)
  && backup_dir_explicit c.

(** * The lifespan of the application

    What [create_app] of [api/app.py] builds and its lifespan starts and stops: the
    MCP sessions, the maintenance loop, the revision refresher, on an exit stack that
    undoes them in reverse. *)

(** [maintenance_loop.py:510-512 is_disabled] *)
Definition is_disabled (environ : environment) : bool := parse_bool_env (environ !! "OC_MAINTENANCE_DISABLED"%string) false.
(** [app.py:118-134 create_app] The jobs of the loop, where there is one, and whether
    the refresher may start backfills. *)
Definition plan_maintenance (environ : environment) (file_configs : list (string * json)) : result exn (option (list JobState) * bool) :=
  if is_disabled environ then Ok (None, false)
  else
    let? jobs := load_jobs file_configs in
    Ok (Some jobs, existsb (λ j, bool_decide (job_name j = "embedding_backfill"%string) && Maintenance.enabled j) jobs).

Inductive component := McpSessions | MaintenanceLoop | RevisionRefresher (auto_backfill : bool).
#[global] Instance component_eq_dec : EqDecision component.
Proof. solve_decision. Defined.
(** [declined]: nothing was started, so that nothing is pushed on the stack. *)
Inductive start_outcome := started | declined | failed (e : exn).
Inductive event := Start (c : component) | Stop (c : component) | Serve.

(** The stack holds what is running, the last started first. *)
Fixpoint enter (outcome : component → start_outcome) (cs : list component) (stack : list component) : list event * option exn :=
  match cs with
  | [] => (Serve :: map Stop stack, None)
  | c :: cs =>
      match outcome c with
      | started => let (es, r) := enter outcome cs (c :: stack) in (Start c :: es, r)
      | declined => enter outcome cs stack
      | failed e => (map Stop stack, Some e)
      end
  end.
(** [app.py:136-158 create_app lifespan] [mcp]: the server is mounted; [service]: there
    is an embedding service. *)
Definition lifespan (outcome : component → start_outcome) (mcp maintenance service reconcile : bool) : list event * option exn :=
  enter outcome ((if mcp then [McpSessions] else []) ++ (if maintenance then [MaintenanceLoop] else [])
    ++ (if service then [RevisionRefresher reconcile] else [])) [].
