(* ===== verification/ContainerProps.v ===== *)
(** * What construction guarantees

    Where an embedding endpoint counts as local, that an embedding provider never
    keeps the service from starting, that the store is closed when it does not start,
    and that the lifespan stops what it started. *)

From S2P Require Import Prelude PyStr PyText TextProps Sha256 Domain PyNum PyRepr Config Urls Redaction RedactionProps Sql Embedding Vectors Adapters Maintenance Metrics Container.
Local Open Scope Z_scope.
Local Open Scope prog_scope.

(** ** Egress *)

Definition plain_host_char (c : ascii) : bool := host_char c && negb (bool_decide (c ∈ [":"; "%"]%char)).
Definition port_text (port : option (list ascii)) : list ascii := match port with Some p => ":"%char :: p | None => [] end.

Lemma hostname_built s u h port p :
  is_scheme s → match u with Some u => all net_char u | None => True end → all plain_host_char h →
  match port with Some n => all host_char n | None => True end → is_path p →
  let net := match u with Some u => u ++ AT :: (h ++ port_text port) | None => h ++ port_text port end in
  ∃ parts, urlsplit (s ++ COLON_SLASHES ++ net ++ p) = Some parts ∧ hostname parts = map py_lower h.
Proof.
  intros Hs Hu Hh Hport Hp net.
  assert (all host_char h) as Hh' by (eapply all_weaken; [|exact Hh]; intros c; unfold plain_host_char; by intros [? _]%andb_true_iff).
  assert (all host_char (h ++ port_text port)) as Hhp.
  { apply Forall_app_2; [done|]. destruct port; simpl; [by constructor|constructor]. }
  assert (all net_char (h ++ port_text port)) as Hnet.
  { eapply all_weaken; [|exact Hhp]. intros c. unfold host_char. by intros [? _]%andb_true_iff. }
  assert (all net_char net) as Hn by (subst net; destruct u; [by apply net_userinfo|done]).
  eexists. split; [by apply urlsplit_built|].
  assert (after_last AT net = h ++ port_text port) as Hlast.
  { subst net. destruct u; [by apply userinfo_last|]. unfold after_last, before. rewrite cut_notin; [simpl; by rewrite rev_involutive|].
    rewrite elem_of_rev. by apply (all_notin host_char). }
  unfold hostname. cbn [netloc]. fold AT. rewrite Hlast. rewrite (cut_notin "["%char) by (by apply (all_notin net_char)).
  assert (before ":" (h ++ port_text port) = h) as ->.
  { unfold before. assert (":"%char ∉ h) by (by apply (all_notin plain_host_char)). destruct port; simpl.
    - by rewrite cut_app. - rewrite app_nil_r. by rewrite cut_notin. }
  rewrite cut_notin by (by apply (all_notin plain_host_char)). done.
Qed.

Lemma py_lower_idem c : py_lower (py_lower c) = py_lower c.
Proof. destruct c as [[] [] [] [] [] [] [] []]; by vm_compute. Qed.
Lemma lower_plain c : plain_host_char c = true → is_bracket (py_lower c) = false.
Proof. destruct c as [[] [] [] [] [] [] [] []]; by vm_compute. Qed.
Lemma lstrip_clean (p : ascii → bool) l : all (λ c, negb (p c)) l → lstrip_chars p l = l.
Proof. intros Hl. apply lstrip_none. destruct Hl as [|c l Hc Hl]; [done|]. exact (proj1 (negb_true_iff _) Hc). Qed.
Lemma strip_none (p : ascii → bool) l : all (λ c, negb (p c)) l → strip_chars p l = l.
Proof.
  intros Hl. unfold strip_chars. rewrite (lstrip_clean p l) by done. rewrite lstrip_clean; [by rewrite rev_involutive|].
  rewrite Forall_forall in *. intros c Hc. apply Hl. by apply elem_of_rev.
Qed.

(** The network location of a URL and the host it names. *)
Definition with_userinfo (u : option (list ascii)) (hp : list ascii) : list ascii :=
  match u with Some u => u ++ AT :: hp | None => hp end.
Definition v6_char (c : ascii) : bool := some_b (hex_value c) || bool_decide (c ∈ [":"; "."]%char).
(** A name or an IPv4 address, or an IPv6 address in brackets. *)
Inductive location : list ascii → list ascii → Prop :=
| host_location h : all plain_host_char h → location h (map py_lower h)
| v6_location h n : all v6_char h → ip_address h = Some (V6 n) → location ("["%char :: h ++ ["]"]%char) (map py_lower h).
(** [scheme://userinfo@host:port/path], the userinfo, the port and the path optional. *)
Inductive url_of_host : string → list ascii → Prop :=
| host_url s u loc port p host : is_scheme s → match u with Some u => all net_char u | None => True end → location loc host →
    match port with Some n => all host_char n | None => True end → is_path p →
    url_of_host (of_chars (s ++ COLON_SLASHES ++ with_userinfo u (loc ++ port_text port) ++ p)) host.

Lemma v6_plain c : v6_char c = true → negb (ends_netloc c) && negb (unsafe_byte c) = true ∧ c ∉ [AT; "["; "]"; "%"]%char ∧ c ≠ "v"%char.
Proof.
  intros Hc. cut (negb (negb (ends_netloc c) && negb (unsafe_byte c) && bool_decide (c ∉ [AT; "["; "]"; "%"]%char ∧ c ≠ "v"%char)) = true → False).
  { destruct (negb (ends_netloc c) && _); [|by intros []]. case_bool_decide as H; [|by intros []]. naive_solver. }
  revert Hc. destruct c as [[] [] [] [] [] [] [] []]; by vm_compute.
Qed.
Lemma v6_notin c h : c ∈ [AT; "["; "]"; "%"]%char → all v6_char h → c ∉ h.
Proof. intros Hc Hh Hin. rewrite Forall_forall in Hh. by destruct (v6_plain c (Hh _ Hin)) as (_ & ? & _). Qed.
Lemma hostname_v6 s u h n port p :
  is_scheme s → match u with Some u => all net_char u | None => True end → all v6_char h → ip_address h = Some (V6 n) →
  match port with Some n => all host_char n | None => True end → is_path p →
  ∃ parts, urlsplit (s ++ COLON_SLASHES ++ with_userinfo u (("["%char :: h ++ ["]"]%char) ++ port_text port) ++ p) = Some parts ∧
    hostname parts = map py_lower h.
Proof.
  intros Hs Hu Hh Hip Hport Hp. simpl app at 4. rewrite <-app_assoc. simpl app at 5.
  set (hp := "["%char :: h ++ "]"%char :: port_text port).
  assert (AT ∉ port_text port ∧ "["%char ∉ port_text port ∧ all (λ c, negb (ends_netloc c) && negb (unsafe_byte c)) (port_text port)) as (Hat & Hopen & Hsafe).
  { destruct port as [l|]; simpl; [|split_and!; [apply not_elem_of_nil..|constructor]]. rewrite !not_elem_of_cons. split_and!; [done|by apply (all_notin host_char)|done|by apply (all_notin host_char)|].
    constructor; [done|]. eapply all_weaken; [|exact Hport]. intros c [Hc _]%andb_true_iff. by rewrite (net_not_end c Hc), (net_safe c Hc). }
  assert (AT ∉ hp) as Hathp.
  { subst hp. rewrite not_elem_of_cons, elem_of_app, elem_of_cons. pose proof (v6_notin AT h ltac:(set_solver) Hh). naive_solver. }
  assert (after_last AT (with_userinfo u hp) = hp) as Hlast.
  { destruct u; cbn [with_userinfo]; [by apply after_last_app|]. unfold after_last, before. rewrite cut_notin; [apply rev_involutive|by rewrite elem_of_rev]. }
  assert (before "]" (h ++ "]"%char :: port_text port) = h ∧ after "]" (h ++ "]"%char :: port_text port) = port_text port) as [Hb Ha].
  { unfold before, after. rewrite cut_app by (apply v6_notin; [set_solver|done]). done. }
  assert (cut "[" hp = ([], Some (h ++ "]"%char :: port_text port))) as Hcut by exact (cut_app "["%char [] _ (not_elem_of_nil _)).
  assert (∀ c, c ∈ ["["; "]"]%char → has c (with_userinfo u hp) = true) as Hhas.
  { intros c Hc. unfold has. apply bool_decide_eq_true. assert (c ∈ hp) by (subst hp; set_solver). destruct u; simpl; set_solver. }
  eexists. split; [apply urlsplit_parts; [done| | |done]|].
  - assert (all (λ c, negb (ends_netloc c) && negb (unsafe_byte c)) hp) as Hall.
    { constructor; [done|]. apply Forall_app_2; [eapply all_weaken; [|exact Hh]; intros c Hc; by apply v6_plain|]. by constructor. }
    destruct u as [u|]; simpl; [|exact Hall]. apply Forall_app_2; [|by constructor].
    eapply all_weaken; [|exact Hu]. intros c Hc. by rewrite (net_not_end c Hc), (net_safe c Hc).
  - unfold brackets_ok. rewrite !Hhas by set_solver. fold AT. rewrite Hlast, Hcut, Hb, Ha. rewrite bool_decide_eq_true_2 by done.
    assert (match port_text port with [] => true | c :: _ => bool_decide (c = ":"%char) end = true) as -> by (by destruct port).
    simpl. unfold bracketed_host_ok. destruct h as [|c h]; [done|]. rewrite Hip. apply Forall_cons in Hh as [Hc _].
    rewrite bool_decide_eq_false_2; [done|]. by apply v6_plain.
  - unfold hostname. cbn [netloc]. fold AT. rewrite Hlast, Hcut, Hb. rewrite cut_notin; [done|]. apply v6_notin; [set_solver|done].
Qed.

(** A host that stays on the LAN: a local name, a private or loopback address, or a
    name (not an address) of one label or with a local last label. *)
Definition stays_local (host : list ascii) : Prop :=
  host ≠ [] ∧
  (of_chars host ∈ ["localhost"; "host.docker.internal"]%string ∨
   (∃ a, ip_address host = Some a ∧ (is_private a = true ∨ is_loopback a = true)) ∨
   (ip_address host = None ∧
     ("."%char ∉ host ∨ ∃ front label, host = front ++ "."%char :: label ∧ "."%char ∉ label ∧
        of_chars label ∈ ["local"; "internal"; "lan"; "home"; "localhost"]%string))).
Lemma last_label host (labels : list string) : "."%char ∈ host → of_chars (after_last "." host) ∈ labels ↔
  ∃ front label, host = front ++ "."%char :: label ∧ "."%char ∉ label ∧ of_chars label ∈ labels.
Proof.
  intros Hin. split.
  - destruct (last_split _ _ Hin) as (front & label & Hh & Hno & ->). eauto.
  - intros (front & label & -> & Hno & Hl). by rewrite after_last_app.
Qed.
(** No local name is an address. *)
Lemma local_names host : of_chars host ∈ LOCAL_NAMES → private_name host = true.
Proof.
  intros H. unfold private_name. destruct (decide (host = [])) as [->|Hne]; [exfalso; revert H; by apply (bool_decide_unpack _)|].
  rewrite bool_decide_eq_false_2 by done. by rewrite bool_decide_eq_true_2.
Qed.
Lemma private_name_spec host : private_name host = true ↔ stays_local host.
Proof.
  unfold stays_local. split.
  - unfold private_name. case_bool_decide as Hne; [done|]. intros H. split; [done|]. revert H. case_bool_decide as Hn; [by left|]. right.
    destruct (ip_address host) as [a|]; [left; exists a; split; [done|by apply orb_true_iff]|]. right. split; [done|].
    apply orb_true_iff in H as [H|H].
    + left. by apply negb_true_iff, bool_decide_eq_false in H.
    + destruct (decide ("."%char ∈ host)); [right|by left]. apply bool_decide_eq_true in H. by apply last_label.
  - intros [Hne [H|H]]; [by apply local_names|]. destruct (decide (of_chars host ∈ LOCAL_NAMES)); [by apply local_names|].
    unfold private_name. rewrite !bool_decide_eq_false_2 by done. destruct H as [(a&->&H)|[-> H]]; [by apply orb_true_iff|].
    apply orb_true_iff. unfold has. destruct (decide ("."%char ∈ host)) as [Hin|Hno].
    + right. apply bool_decide_eq_true. apply last_label; [done|]. by destruct H.
    + left. by rewrite bool_decide_eq_false_2.
Qed.

Lemma url_host url host : url_of_host url host → looks_private_host url = Ok (private_name host).
Proof.
  intros [s u loc port p host' Hs Hu Hloc Hport Hp]. unfold looks_private_host. rewrite chars_of_chars.
  assert (∃ h parts, urlsplit (s ++ COLON_SLASHES ++ with_userinfo u (loc ++ port_text port) ++ p) = Some parts ∧
    hostname parts = map py_lower h ∧ host' = map py_lower h ∧ all (λ c, negb (is_bracket (py_lower c))) h) as (h & parts & -> & -> & -> & Hh).
  { destruct Hloc as [h Hh|h n Hh Hip]; exists h.
    - destruct (hostname_built s u h port p Hs Hu Hh Hport Hp) as (parts & H1 & H2). exists parts. split_and!; [done..|].
      eapply all_weaken; [|exact Hh]. intros c Hc. by rewrite lower_plain.
    - destruct (hostname_v6 s u h n port p Hs Hu Hh Hip Hport Hp) as (parts & H1 & H2). exists parts. split_and!; [done..|].
      eapply all_weaken; [|exact Hh]. intros c. destruct c as [[] [] [] [] [] [] [] []]; by vm_compute. }
  rewrite strip_none by by apply Forall_map. rewrite map_map. do 2 f_equal. apply map_ext. intros; apply py_lower_idem.
Qed.
Lemma url_not_empty url host : url_of_host url host → url ≠ ""%string.
Proof. intros [s ? ? ? ? ? Hs]. by destruct s. Qed.

(** The endpoint a provider's variables give; empty is not set. *)
Definition not_set (environ : environment) (name : string) : Prop := environ !! name = None ∨ environ !! name = Some ""%string.
Inductive endpoint_of (environ : environment) : string → string → Prop :=
| openai_set url : environ !! "OPENAI_BASE_URL"%string = Some url → url ≠ ""%string → endpoint_of environ "openai" url
| openai_default : not_set environ "OPENAI_BASE_URL" → endpoint_of environ "openai" "https://api.openai.com/v1"
| ollama_host url : environ !! "OLLAMA_HOST"%string = Some url → url ≠ ""%string → endpoint_of environ "ollama" url
| ollama_base_url url : not_set environ "OLLAMA_HOST" → environ !! "OLLAMA_BASE_URL"%string = Some url → url ≠ ""%string →
    endpoint_of environ "ollama" url
| ollama_default : not_set environ "OLLAMA_HOST" → not_set environ "OLLAMA_BASE_URL" →
    endpoint_of environ "ollama" "http://localhost:11434".
Lemma given_set (environ : environment) name url : environ !! name = Some url → url ≠ ""%string → given (environ !! name) = Some url.
Proof. intros -> Hne. unfold given. simpl. by rewrite bool_decide_eq_false_2. Qed.
Lemma given_unset environ name : not_set environ name → given (environ !! name) = None.
Proof. by intros [-> | ->]. Qed.
Lemma endpoint_resolved environ provider url : endpoint_of environ provider url → embedding_endpoint environ provider = url.
Proof.
  unfold embedding_endpoint, or_else. intros []; simpl.
  - by erewrite given_set.
  - by rewrite given_unset.
  - by erewrite given_set.
  - rewrite given_unset by done. by erewrite given_set.
  - by rewrite !given_unset.
Qed.

(** C19. Whether the embedding endpoint counts as remote is decided by the provider and
    the host of its endpoint alone.  For [openai] and [ollama], whose endpoint is the variable
    that is set and not empty, else the default, and for any endpoint
    [scheme://userinfo@host:port/path]: it is local exactly if the host, in lower
    case, is [localhost] or [host.docker.internal], a private or loopback IPv4 or
    (bracketed) IPv6 address, or a name without a dot or ending in [.local],
    [.internal], [.lan], [.home] or [.localhost]; and it is remote otherwise, whatever
    the userinfo, port and path are.  Every other provider is local. *)
Theorem egress_by_host (environ : environment) :
  (∀ provider url host, endpoint_of environ provider url → url_of_host url host →
     (embedding_endpoint_is_remote environ provider = Ok false ↔ stays_local host) ∧
     (embedding_endpoint_is_remote environ provider = Ok true ↔ ¬ stays_local host)) ∧
  (not_set environ "OPENAI_BASE_URL" → embedding_endpoint_is_remote environ "openai" = Ok true) ∧
  (not_set environ "OLLAMA_HOST" → not_set environ "OLLAMA_BASE_URL" → embedding_endpoint_is_remote environ "ollama" = Ok false) ∧
  (∀ provider, provider ∉ ["openai"; "ollama"]%string → embedding_endpoint_is_remote environ provider = Ok false).
Proof.
  unfold embedding_endpoint_is_remote. split_and!.
  - intros provider url host ->%endpoint_resolved Hurl. cbv zeta. rewrite bool_decide_eq_false_2 by (by eapply url_not_empty).
    rewrite (url_host _ _ Hurl). cbn [result_bind]. rewrite <-private_name_spec. destruct (private_name host); naive_solver.
  - intros H. by rewrite (endpoint_resolved _ _ _ (openai_default _ H)).
  - intros H1 H2. by rewrite (endpoint_resolved _ _ _ (ollama_default _ H1 H2)).
  - intros provider Hp. unfold embedding_endpoint.
    rewrite (bool_decide_eq_false_2 (provider = "openai"%string)), (bool_decide_eq_false_2 (provider = "ollama"%string)) by set_solver. done.
Qed.

(** A host setting without a scheme has no host name for [urlsplit]. *)
Example bare_lan_host_is_remote :
  embedding_endpoint_is_remote {[ "OLLAMA_HOST"%string := "192.168.1.5:11434"%string ]} "ollama" = Ok true ∧
  embedding_endpoint_is_remote {[ "OLLAMA_HOST"%string := "http://192.168.1.5:11434"%string ]} "ollama" = Ok false.
Proof. vm_compute. split; reflexivity. Qed.

(** ** Starting *)

Definition metrics_available (environ : environment) (x : surroundings) : bool :=
  negb (metrics_enabled_from_env environ) || prometheus_installed x.
(** What the container needs to start; the embedding provider is not in it. *)
Definition can_start (environ : environment) (loads : string → option json) (x : surroundings) : Prop :=
  metrics_available environ x = true ∧ make_db_parent x = None ∧ config_dir_exists x = true ∧ make_output_dir x = None ∧
  open_store x = None ∧
  ∃ configs settings, load_json_config loads (core_json x) = Ok configs ∧
    load_embedding_settings environ (default JNull (jget "embedding" configs)) = Ok settings.

Ltac no_start := split; [split; [by intros [? ?]|intros (?&?&?&?&?&?&?&?&?); congruence]|done].

(** The container starts exactly when metrics, directories, core.json, the store
    and the embedding settings are usable, whatever becomes of the embedding adapter
    and of the backup directory; the store is open when it starts, and when it does
    not the store is not left open. *)
Theorem container_starts (environ : environment) (loads : string → option json) (db_parent : string) (x : surroundings) :
  let (st, r) := build_container environ loads db_parent x Unopened in
  ((∃ c, r = Ok c) ↔ can_start environ loads x) ∧
  match r with
  | Ok c => st = Opened ∧ embedding_port c = build_embedding_port environ (openai_installed x) (embedding_settings c)
  | Raise _ => st ≠ Opened
  end.
Proof.
  unfold build_container, can_start, metrics_available, or_startup, unless_raised, bind, lift_result, ret, raise, put_st, try_catch.
  destruct (metrics_enabled_from_env environ), (prometheus_installed x); simpl;
    destruct (make_db_parent x); simpl; try no_start;
    destruct (config_dir_exists x); simpl; try no_start;
    destruct (make_output_dir x); simpl; try no_start;
    destruct (load_json_config loads (core_json x)) as [configs|] eqn:?; simpl; try no_start;
    destruct (open_store x); simpl; try no_start;
    destruct (load_embedding_settings environ (default JNull (jget "embedding" configs))) as [settings|] eqn:?; simpl; try no_start;
    (split; [split; [intros _; split_and!; eauto|eauto]|done]).
Qed.

(** ** The lifespan *)

Fixpoint starts (es : list event) : list component :=
  match es with [] => [] | Start c :: es => c :: starts es | _ :: es => starts es end.
Fixpoint stops (es : list event) : list component :=
  match es with [] => [] | Stop c :: es => c :: stops es | _ :: es => stops es end.
Lemma only_stops stack : starts (map Stop stack) = [] ∧ stops (map Stop stack) = stack.
Proof. induction stack as [|c stack [IH1 IH2]]; simpl; [done|]. by rewrite IH1, IH2. Qed.
Lemma enter_stops outcome cs : ∀ stack, stops (enter outcome cs stack).1 = rev (starts (enter outcome cs stack).1) ++ stack.
Proof.
  induction cs as [|c cs IH]; intros stack; simpl.
  { destruct (only_stops stack) as [H1 H2]. by rewrite H1, H2. }
  destruct (outcome c); [|apply IH|simpl; by destruct (only_stops stack) as [-> ->]].
  specialize (IH (c :: stack)). destruct (enter outcome cs (c :: stack)) as [es r]. simpl in *. by rewrite IH, <-app_assoc.
Qed.
Lemma enter_serves outcome cs : ∀ stack, Serve ∈ (enter outcome cs stack).1 ↔ (enter outcome cs stack).2 = None.
Proof.
  assert (∀ stack, Serve ∉ map Stop stack) as Hstack by (intros stack; rewrite list_elem_of_fmap; naive_solver).
  induction cs as [|c cs IH]; intros stack; simpl; [set_solver|].
  destruct (outcome c); [|apply IH|simpl; split; [by intros ?%Hstack|done]].
  specialize (IH (c :: stack)). destruct (enter outcome cs (c :: stack)) as [es r]. simpl in *. set_solver.
Qed.

(** The lifespan stops what it started, the last first, whether it served or the
    start of a part failed; so the refresher is stopped before the maintenance loop,
    and that before the MCP sessions; and it serves exactly if no start failed. *)
Theorem lifespan_unwinds (outcome : component → start_outcome) (mcp maintenance service reconcile : bool) :
  let (es, r) := lifespan outcome mcp maintenance service reconcile in
  stops es = rev (starts es) ∧ (Serve ∈ es ↔ r = None) ∧
  starts es `sublist_of` [McpSessions; MaintenanceLoop; RevisionRefresher reconcile].
Proof.
  unfold lifespan. match goal with |- context [enter outcome ?cs []] => set (l := cs) end.
  pose proof (enter_stops outcome l []) as H1. pose proof (enter_serves outcome l []) as H2.
  assert (∀ cs stack, starts (enter outcome cs stack).1 `sublist_of` cs) as H3.
  { intros cs. induction cs as [|c cs IH]; intros stack; simpl.
    - by rewrite (proj1 (only_stops stack)).
    - destruct (outcome c); simpl.
      + specialize (IH (c :: stack)). destruct (enter outcome cs (c :: stack)). simpl in *. by constructor.
      + constructor. apply IH.
      + rewrite (proj1 (only_stops stack)). apply sublist_nil_l. }
  specialize (H3 l []). destruct (enter outcome l []) as [es r]. simpl in *. rewrite app_nil_r in H1. split_and!; [done|done|].
  etrans; [exact H3|]. subst l. destruct mcp, maintenance, service; repeat constructor.
Qed.

Ltac by_chars := vm_compute; repeat split; repeat (constructor; try reflexivity).
Definition PUBLIC_ENV : environment := {[ "OLLAMA_HOST"%string := "https://lan:x@Api.Example.COM:443/v1.local"%string ]}.
Definition LOCAL_V6_ENV : environment := {[ "OPENAI_BASE_URL"%string := "http://[FD00::1]:8080/v1"%string ]}.
Lemma egress_by_host_witness :
  embedding_endpoint_is_remote PUBLIC_ENV "ollama" = Ok true ∧ embedding_endpoint_is_remote LOCAL_V6_ENV "openai" = Ok false.
Proof.
  split.
  - refine (proj2 (proj2 (proj1 (egress_by_host PUBLIC_ENV) "ollama" "https://lan:x@Api.Example.COM:443/v1.local" (chars "api.example.com") _ _)) _)%string.
    + by apply ollama_host.
    + apply (host_url (chars "https") (Some (chars "lan:x")) (chars "Api.Example.COM") (Some (chars "443")) (chars "/v1.local") (chars "api.example.com")).
      * by_chars. * by_chars. * apply (host_location (chars "Api.Example.COM")). by_chars. * by_chars. * by_chars.
    + by intros H%private_name_spec.
  - refine (proj2 (proj1 (proj1 (egress_by_host LOCAL_V6_ENV) "openai" "http://[FD00::1]:8080/v1" (chars "fd00::1") _ _)) _)%string.
    + by apply openai_set.
    + apply (host_url (chars "http") None ("["%char :: chars "FD00::1" ++ ["]"]%char) (Some (chars "8080")) (chars "/v1") (chars "fd00::1")).
      * by_chars. * done. * eapply (v6_location (chars "FD00::1")); [by_chars|vm_compute; reflexivity]. * by_chars. * by_chars.
    + by apply private_name_spec.
Defined.
