(* ===== verification/Argparse.v ===== *)
(** * The parser of command lines

    Python's [argparse], as far as the parser of [cli/main.py] uses it: options with
    two dashes, their abbreviations and the [--option=value] form, flags, groups of
    which only one may be given, at most one positional argument, and sub-commands,
    each of which has a parser of its own and takes the rest of the line.  [-h] and
    [--help] are options of every parser; [-h] is the only one with one dash.  The
    second half is the parser of [oc]. *)

From S2P Require Import Prelude PyStr PyText Domain PyNum.
Local Open Scope Z_scope.

(** ** Declarations *)

Inductive arg_value := VNone | VStr (s : string) | VInt (z : Z) | VBool (b : bool).
#[global] Instance arg_value_eq_dec : EqDecision arg_value.
Proof. solve_decision. Defined.

(** What an option makes of its argument; no choices are any text. *)
Inductive conversion := to_str (choices : list string) | to_int.
Inductive arg_action := store (c : conversion) | store_const (b : bool).
Record option_spec := mkOption {
  flag : string;
  opt_dest : string;
  opt_action : arg_action;
  opt_default : arg_value;
  opt_required : bool;
}.
(** The flags of a mutually exclusive group. *)
Record exclusive := mkExclusive { members : list string; one_required : bool }.
Inductive positional (P : Type) :=
| no_positional
| one_argument (dest : string)
| subcommands (dest : string) (subs : list (string * P)).
Arguments no_positional {P}. Arguments one_argument {P}. Arguments subcommands {P}.
Inductive parser := Parser (opts : list option_spec) (groups : list exclusive) (pos : positional parser).

Abbreviation namespace := (gmap string arg_value).
(** How a parse ends: with a namespace and what was not recognised, with the usage
    on standard error (exit 2), or with the help (exit 0). *)
Inductive parsed := Parsed (ns : namespace) (extras : list string) | UsageError | HelpShown.

(** ** The arguments as options and others *)

(** A way to read an argument as an option: the help, with a single dash or not, or
    a declared option; [eq] where an [=] was read, and the text behind the name. *)
Inductive candidate :=
| Help_option (single eq : bool) (explicit : option (list ascii))
| Declared (o : option_spec) (explicit : option (list ascii)).
(** [Opt raw []] is an unknown option. *)
Inductive item := Opt (raw : string) (cs : list candidate) | Arg (raw : string) | DashDash.

Definition DASH : ascii := "-"%char.
Definition find_option (opts : list option_spec) (s : string) : option option_spec :=
  find (λ o, bool_decide (flag o = s)) opts.
Definition exact (opts : list option_spec) (s : string) (explicit : option (list ascii)) : option candidate :=
  if bool_decide (s = "-h"%string) then Some (Help_option true (some_b explicit) explicit)
  else if bool_decide (s = "--help"%string) then Some (Help_option false (some_b explicit) explicit)
  else (λ o, Declared o explicit) <$> find_option opts s.
(** [arg.partition("=")] *)
Definition cut_eq (l : list ascii) : list ascii * option (list ascii) :=
  match partition_chars ["="%char] l with Some (a, b) => (a, Some b) | None => (l, None) end.
(** [_get_option_tuples]: what an abbreviation may stand for, the help first. *)
Definition abbreviated (opts : list option_spec) (l : list ascii) : list candidate :=
  let (prefix, explicit) := cut_eq l in
  match l with
  | _ :: c :: rest =>
      if bool_decide (c = DASH) then
        (if is_prefix prefix (chars "--help") then [Help_option false (some_b explicit) explicit] else [])
        ++ map (λ o, Declared o explicit) (filter (λ o, is_prefix prefix (chars (flag o)) = true) opts)
      else if bool_decide (c = "h"%char) then [Help_option true false (Some rest)] else []
  | _ => []
  end.
(** [re.match(r"-\.?\d", arg)] *)
Definition looks_negative (l : list ascii) : bool :=
  match l with
  | d :: "."%char :: c :: _ => bool_decide (d = DASH) && is_digit c
  | d :: c :: _ => bool_decide (d = DASH) && is_digit c
  | _ => false
  end.
(** [_parse_optional] *)
Definition classify (opts : list option_spec) (s : string) : item :=
  let l := chars s in
  match l with
  | c :: _ :: _ =>
      if negb (bool_decide (c = DASH)) then Arg s
      else match exact opts s None with
        | Some o => Opt s [o]
        | None =>
            match (match cut_eq l with (a, Some b) => exact opts (of_chars a) (Some b) | _ => None end) with
            | Some o => Opt s [o]
            | None =>
                match abbreviated opts l with
                | [] => if looks_negative l || bool_decide (" "%char ∈ l) then Arg s else Opt s []
                | cs => Opt s cs
                end
            end
        end
  | _ => Arg s
  end.
(** After [--] nothing is an option. *)
Fixpoint items_of (opts : list option_spec) (args : list string) : list item :=
  match args with
  | [] => []
  | s :: args => if bool_decide (s = "--"%string) then DashDash :: map Arg args else classify opts s :: items_of opts args
  end.
Definition raw (i : item) : string := match i with Opt s _ => s | Arg s => s | DashDash => "--" end.

(** ** The parse *)

Definition convert (c : conversion) (s : string) : option arg_value :=
  match c with
  | to_str choices => if bool_decide (choices = []) || bool_decide (s ∈ choices) then Some (VStr s) else None
  | to_int => VInt <$> py_int s
  end.
(** The text behind [-h], read as further options with one dash. *)
Fixpoint cluster_ok (eq : bool) (l : list ascii) : bool :=
  match l with
  | [] => false
  | c :: rest =>
      if eq || bool_decide (c = DASH) then false
      else if negb (bool_decide (c = "h"%char)) then true
      else match rest with [] => true | d :: _ => if bool_decide (d = "="%char) then false else cluster_ok false rest end
  end.
Definition help (single eq : bool) (explicit : option (list ascii)) : parsed :=
  match explicit with
  | None => HelpShown
  | Some l => if single && negb (bool_decide (l = [])) && cluster_ok eq l then HelpShown else UsageError
  end.

Record pstate := mkState {
  st_ns : namespace;
  st_extras : list string;
  st_taken : list string;
  st_pending : positional parser;
}.
Definition add_extra (s : string) (st : pstate) : pstate :=
  mkState (st_ns st) (st_extras st ++ [s]) (st_taken st) (st_pending st).
Section walk.
Context (opts : list option_spec) (groups : list exclusive) (sub : string → list string → parsed).

(** [take_action] of an option with its value. *)
Definition excluded (o : option_spec) (taken : list string) : bool :=
  existsb (λ g, bool_decide (flag o ∈ members g)
    && existsb (λ m, negb (bool_decide (m = flag o)) && bool_decide (m ∈ taken)) (members g)) groups.
Definition take (o : option_spec) (v : arg_value) (st : pstate) : option pstate :=
  if excluded o (st_taken st) then None
  else Some (mkState (<[opt_dest o := v]> (st_ns st)) (st_extras st) (flag o :: st_taken st) (st_pending st)).
(** What is required must have been given. *)
Definition finish (st : pstate) : parsed :=
  let missing_option := existsb (λ o, opt_required o && negb (bool_decide (flag o ∈ st_taken st))) opts in
  let missing_argument := match st_pending st with one_argument _ => true | _ => false end in
  let empty_group := existsb (λ g, one_required g && negb (existsb (λ m, bool_decide (m ∈ st_taken st)) (members g))) groups in
  if missing_option || missing_argument || empty_group then UsageError else Parsed (st_ns st) (st_extras st).
Definition set_argument (d v : string) (st : pstate) : pstate :=
  mkState (<[d := VStr v]> (st_ns st)) (st_extras st) (st_taken st) no_positional.
(** The sub-command's namespace overrides, and nothing is left to read. *)
Definition subcommand (d : string) (words : list string) (st : pstate) : parsed :=
  match words with
  | [] => finish st
  | name :: rest =>
      match sub name rest with
      | Parsed ns extras =>
          finish (mkState (ns ∪ <[d := VStr name]> (st_ns st)) (st_extras st ++ extras) (st_taken st) no_positional)
      | other => other
      end
  end.

(** [_parse_known_args], one argument or option at a time. *)
Fixpoint walk (items : list item) (st : pstate) : parsed :=
  match items with
  | [] => finish st
  | Opt s [] :: rest => walk rest (add_extra s st)
  | Opt _ [Help_option single eq explicit] :: _ => help single eq explicit
  | Opt _ [Declared o explicit] :: rest =>
      match opt_action o, explicit, rest with
      | store_const b, None, _ =>
          match take o (VBool b) st with Some st => walk rest st | None => UsageError end
      | store c, Some e, _ =>
          match convert c (of_chars e) ≫= λ v, take o v st with Some st => walk rest st | None => UsageError end
      | store c, None, Arg s :: rest =>
          match convert c s ≫= λ v, take o v st with Some st => walk rest st | None => UsageError end
      | _, _, _ => UsageError
      end
  | Opt _ _ :: _ => UsageError
  | Arg s :: rest =>
      match st_pending st with
      | no_positional => walk rest (add_extra s st)
      | one_argument d =>
          match rest with
          | DashDash :: rest => walk rest (set_argument d s st)
          | _ => walk rest (set_argument d s st)
          end
      | subcommands d _ => subcommand d (s :: map raw rest) st
      end
  | DashDash :: rest =>
      match st_pending st, rest with
      | one_argument d, Arg s :: rest => walk rest (set_argument d s st)
      | subcommands d _, Arg s :: rest => subcommand d (s :: map raw rest) st
      | _, _ => walk rest (add_extra "--" st)
      end
  end.
End walk.

Definition defaults (opts : list option_spec) (pos : positional parser) : namespace :=
  foldr (λ o ns, <[opt_dest o := opt_default o]> ns)
    (match pos with no_positional => ∅ | one_argument d | subcommands d _ => {[d := VNone]} end) opts.
(** An unknown name is not a valid choice. *)
Fixpoint parse_known (p : parser) (args : list string) : parsed :=
  match p with
  | Parser opts groups pos =>
      walk opts groups
        (λ name rest,
          match pos with
          | subcommands _ subs =>
              (fix pick (subs : list (string * parser)) : parsed :=
                match subs with
                | [] => UsageError
                | (n, q) :: subs => if bool_decide (n = name) then parse_known q rest else pick subs
                end) subs
          | _ => UsageError
          end)
        (items_of opts args) (mkState (defaults opts pos) [] [] pos)
  end.
(** [parse_args]: what is not recognised is an error. *)
Definition parse_args (p : parser) (args : list string) : parsed :=
  match parse_known p args with
  | Parsed ns [] => Parsed ns []
  | Parsed _ _ => UsageError
  | other => other
  end.

(** ** The parser of oc *)

Definition option_ (f d : string) (c : conversion) (v : arg_value) : option_spec := mkOption f d (store c) v false.
Definition switch (f d : string) : option_spec := mkOption f d (store_const true) (VBool false) false.
Definition text : conversion := to_str [].
Definition leaf (opts : list option_spec) (pos : positional parser) : parser := Parser opts [] pos.
Definition JSON : option_spec := switch "--json" "json".
Definition CONFIRM : option_spec := switch "--confirm" "confirm".
Definition FORCE : option_spec := switch "--force" "force".

(** [cli/main.py:38-76 build_parser] *)
Definition project_parsers : list (string * parser) :=
  [("init-project", leaf [] (one_argument "name"));
   ("list-projects", leaf [option_ "--name-contains" "name_contains" text VNone] no_positional);
   ("show-project", leaf [JSON] (one_argument "project_id"));
   ("update-project", leaf [option_ "--name" "name" text VNone; option_ "--metadata" "metadata" text VNone; JSON]
      (one_argument "project_id"));
   ("delete-project", leaf [CONFIRM; JSON] (one_argument "project_id"))]%string.
(** [cli/main.py:78-178 build_parser] *)
Definition memory_parser : parser :=
  Parser [] [] (subcommands "memory_command"
   [("add", leaf [option_ "--tags" "tags" text (VStr ""); switch "--pin" "pin"; option_ "--source" "source" text (VStr "manual");
        option_ "--project-id" "project_id" text VNone] (one_argument "content"));
    ("list", leaf [option_ "--limit" "limit" to_int VNone; switch "--pinned-only" "pinned_only";
        option_ "--offset" "offset" to_int (VInt 0); option_ "--project-id" "project_id" text VNone] no_positional);
    ("show", leaf [] (one_argument "memory_id"));
    ("pin", Parser [switch "--on" "pin_on"; mkOption "--off" "pin_on" (store_const false) (VBool true) false]
        [mkExclusive ["--on"; "--off"] true] (one_argument "memory_id"));
    ("delete", leaf [CONFIRM; JSON] (one_argument "memory_id"));
    ("search", Parser [option_ "--top-k" "top_k" to_int (VInt 8); option_ "--project-id" "project_id" text VNone;
        option_ "--tags" "tags" text VNone;
        mkOption "--include-pinned" "include_pinned" (store_const true) (VBool true) false;
        mkOption "--no-include-pinned" "include_pinned" (store_const false) (VBool true) false;
        option_ "--offset" "offset" to_int (VInt 0); switch "--full" "full";
        option_ "--mode" "mode" (to_str ["hybrid"; "keyword"; "semantic"]) (VStr "hybrid"); switch "--phrase" "phrase";
        option_ "--pinned-limit" "pinned_limit" to_int (VInt 10)]
        [mkExclusive ["--include-pinned"; "--no-include-pinned"] false] (one_argument "query"));
    ("update", leaf [option_ "--content" "content" text VNone; option_ "--tags" "tags" text VNone] (one_argument "memory_id"));
    ("embed", leaf [FORCE; switch "--status" "status"; JSON] no_positional);
    ("export", leaf [option_ "--out" "out" text VNone; option_ "--project-id" "project_id" text VNone] no_positional);
    ("import", leaf [option_ "--mode" "mode" (to_str ["merge"; "replace"]) (VStr "merge")] (one_argument "in_path"))]%string).
(** [cli/main.py:180-194 build_parser] *)
Definition db_parser : parser :=
  Parser [] [] (subcommands "db_command"
   [("info", leaf [JSON] no_positional); ("vacuum", leaf [] no_positional);
    ("backup", leaf [FORCE] (one_argument "path")); ("stats", leaf [JSON] no_positional)]%string).
(** [cli/main.py:196-210 build_parser] *)
Definition onboard_parser : parser :=
  Parser [] [] (subcommands "onboard_command"
   [("git", leaf [mkOption "--project-id" "project_id" (store text) VNone true; option_ "--repo-path" "repo_path" text (VStr ".");
        option_ "--max-commits" "max_commits" to_int (VInt 500); option_ "--max-memories" "max_memories" to_int (VInt 15);
        FORCE; switch "--dry-run" "dry_run"] no_positional)]%string).
(** [cli/main.py:212-233 build_parser] *)
Definition system_parsers : list (string * parser) :=
  [("init", leaf [JSON] no_positional);
   ("config", Parser [] [] (subcommands "config_command" [("show", leaf [JSON] no_positional)]));
   ("version", leaf [JSON] no_positional);
   ("maintenance", Parser [] [] (subcommands "maintenance_command"
      [("list", leaf [JSON] no_positional); ("run-once", leaf [] (one_argument "job_name"))]));
   ("serve", leaf [option_ "--host" "host" text VNone; option_ "--port" "port" to_int VNone] no_positional)]%string.
(** [cli/main.py:31-37 build_parser] *)
Definition oc_parser : parser :=
  Parser [] [] (subcommands "command"
    (project_parsers ++ [("memory", memory_parser); ("db", db_parser); ("onboard", onboard_parser)]%string ++ system_parsers)).
