(* ===== verification/Cli.v ===== *)
(** * The command line

    [cli/commands] and [cli/main.py]: every command as a computation over the service,
    the disk and what was printed, which returns the exit code; an exception that a
    command lets through is a traceback.  The commands take the values the parser of
    [Argparse] read, each of its own type ([command]).  [print_json] prints a value as
    it is ([Pretty]); the text of an exception is an argument, as are the answers of
    SQLite's pragmas, the clock and [json.loads]. *)

From S2P Require Import Prelude PyStr PyText Sha256 Domain DateTime PyNum PyRepr Sql Store Transactions Port Embedding Search Envelope.
From S2P Require Import Config Http Serializers UseCases Surfaces Maintenance GitLog GitCluster GitOnboard FileSystem Backups Argparse.
From S2P Require Jobs Health Container.
Local Open Scope Z_scope.
Local Open Scope prog_scope.

(** ** Text *)

Definition TABS : string := of_chars [TAB].
Definition py_bool (b : bool) : string := if b then "True" else "False".
Definition spaces (n : nat) : string := of_chars (repeat " "%char n).
(** [f"{s:<n}"] and [f"{s:>n}"] *)
Definition ljust (n : nat) (s : string) : string := s +:+ spaces (n - String.length s).
Definition rjust (n : nat) (s : string) : string := spaces (n - String.length s) +:+ s.
(** [f"{n:,}"]: the digits, from the last, in threes. *)
Fixpoint in_threes (l : list ascii) : list ascii :=
  match l with
  | a :: b :: c :: rest => match rest with [] => l | _ => a :: b :: c :: ","%char :: in_threes rest end
  | _ => l
  end.
Definition commas (n : Z) : string :=
  of_chars ((if n <? 0 then ["-"%char] else []) ++ rev (in_threes (rev (digits_of_N (Z.abs_N n))))).
(** [f"{x:.2f}"] *)
Definition fixed2 (x : spec_float) : string :=
  let sign (s : bool) : string := if s then "-" else "" in
  match x with
  | S754_zero s => sign s +:+ "0.00"
  | S754_infinity s => sign s +:+ "inf"
  | S754_nan => "nan"
  | S754_finite s m e =>
      let n := if 0 <=? e then Z.pos m * 2 ^ e * 100 else div_half_even (Z.pos m * 100) (2 ^ (- e)) in
      sign s +:+ str_of_Z (n / 100) +:+ "." +:+ of_chars (two (n mod 100))
  end.
Example formats : commas (-1234567) = "-1,234,567"%string ∧ commas 999 = "999"%string ∧ commas 100000 = "100,000"%string ∧
  fixed2 (fratio 2 3) = "0.67"%string ∧ fixed2 (fratio (-1) 8) = "-0.12"%string ∧ rjust 4 "ab" = "  ab"%string.
Proof. vm_compute. repeat split; reflexivity. Qed.
(** The names of [error_codes.py] are the codes. *)
Definition code_text (c : error_code) : string :=
  match c with
  | INVALID_ARGUMENT => "INVALID_ARGUMENT" | INVALID_HOST => "INVALID_HOST" | NOT_FOUND => "NOT_FOUND"
  | PROJECT_NOT_FOUND => "PROJECT_NOT_FOUND" | MEMORY_NOT_FOUND => "MEMORY_NOT_FOUND" | FILE_NOT_FOUND => "FILE_NOT_FOUND"
  | INTERNAL_ERROR => "INTERNAL_ERROR" | CONFIG_ERROR => "CONFIG_ERROR" | PROVIDER_ERROR => "PROVIDER_ERROR"
  | MODEL_REVISION_CHANGED => "MODEL_REVISION_CHANGED" | MISSING_PACKAGE => "MISSING_PACKAGE" | TIMEOUT => "TIMEOUT"
  | CONNECTION_ERROR => "CONNECTION_ERROR" | CONTENT_TOO_LONG => "CONTENT_TOO_LONG"
  end.

(** ** Output *)

(** A line of text, or a value printed by [print_json]. *)
Inductive output := Line (s : string) | Pretty (j : json).
(** [_helpers.py:12-24 json_error_payload] *)
Definition json_error_payload (error_code : option string) (message : string) (hint : option string) : json :=
  JObj [("error_code", jopt jstr error_code); ("message", jstr message); ("hint", jopt jstr hint); ("details", JNull)]%string.
(** [_helpers.py:27-39 json_envelope] *)
Definition json_envelope (cmd : string) (ok : bool) (res err : json) : json :=
  JObj [("command", jstr cmd); ("ok", JBool ok); ("result", res); ("error", err)]%string.

(** [except (ValueError, NotFoundError, DomainValidationError)] *)
Definition is_value_error (e : exn) : bool := match e with ValueError | UnicodeError => true | _ => false end.
Definition is_not_found (e : exn) : bool := match e with NotFoundError _ => true | _ => false end.
Definition is_validation (e : exn) : bool := match e with ValidationError _ => true | _ => false end.
Definition is_runtime (e : exn) : bool := match e with RuntimeError _ => true | _ => false end.
Definition is_refusal (e : exn) : bool := is_value_error e || is_not_found e || is_validation e.

(** What a process works on: the service with its store, the disk, what it printed. *)
Record process (A : Type) := mkProcess { app : A; disk : world; printed : list output }.
Arguments mkProcess {A}. Arguments app {A}. Arguments disk {A}. Arguments printed {A}.

Section commands.
Context {S E : Type} `{HF : FTS5} `{!MemoryStorePort S} `{!EmbeddingPort E}.
Context `{HN : Numpy} `{HO : SetOrder}.
Context (utc_now : nat → Z) (configured : bool).
Notation P := (process (svc S E)).
Notation Cli A := (SE P exn A).

(** [str(exc)]; [json.loads]; how a path of the command line resolves; the dash, which
    is not Latin-1. *)
Context (text_of : exn → string) (loads : string → option json) (locate : string → path) (em_dash : string).

Definition print (o : output) : Cli unit := modify (λ p, mkProcess (app p) (disk p) (printed p ++ [o])).
Definition say (s : string) : Cli unit := print (Line s).
Definition serving {A} (m : SE (svc S E) exn A) : Cli A := λ p, let (a, r) := m (app p) in (mkProcess a (disk p) (printed p), r).
Definition storing {A} (m : SE S exn A) : Cli A := serving (on_store m).
Definition on_disk {A} (m : IO A) : Cli A := λ p, let (w, r) := m (disk p) in (mkProcess (app p) w (printed p), r).
Fixpoint each {A} (f : A → Cli unit) (l : list A) : Cli unit :=
  match l with [] => ret tt | a :: l => f a ;; each f l end.
(** [try: m  except <caught> as exc: h exc; return code  else: k] *)
Definition attempt {A} (caught : exn → bool) (m : Cli A) (h : exn → Cli Z) (k : A → Cli Z) : Cli Z :=
  let* r := try_catch (let* a := m in ret (inl a)) (λ e, if caught e then ret (inr e) else raise e) in
  match r with inl a => k a | inr e => h e end.
(** [print(str(exc)); return 1] *)
Definition refused (prefix : string) (e : exn) : Cli Z := say (prefix +:+ text_of e) ;; ret 1.

(** ** Memories *)

Definition joined (ts : list string) : string := py_join "," ts.
(** [cli/commands/memory.py:49-74 cmd_memory_add] [new_id] and [now]: the defaults of
    the new item. *)
Definition cmd_memory_add (new_id : string) (now : datetime) (text : string) (tag_text : string) (pin : bool) (src : string)
    (pid : option string) : Cli Z :=
  let ts := default [] (parse_csv_tags (Some tag_text)) in
  match pid with
  | None => say "--project-id is required when adding memory" ;; ret 1
  | Some _ =>
      attempt is_refusal (serving (execute_add_memory utc_now configured (mkMemoryItem new_id text ts now pin pid src None)))
        (refused "") (λ item, say (id item) ;; ret 0)
  end.
(** [cli/commands/memory.py:77-89 cmd_memory_list] *)
Definition cmd_memory_list (limit : option Z) (pinned_only : bool) (offset : Z) (pid : option string) : Cli Z :=
  let* items := storing (execute_list_memory limit pinned_only offset pid None None pinned_first) in
  each (λ item, say (py_join TABS [id item; py_bool (pinned item); isoformat (created_at item); joined (tags item);
    content_preview (Domain.content item)])) items ;;
  ret 0.
(** [cli/commands/memory.py:92-108 cmd_memory_show] *)
Definition cmd_memory_show (mid : string) : Cli Z :=
  attempt is_refusal (storing (show_memory mid)) (refused "") (λ item,
    say ("id: " +:+ id item) ;;
    say ("pinned: " +:+ py_bool (pinned item)) ;;
    say ("created_at: " +:+ isoformat (created_at item)) ;;
    say ("updated_at: " +:+ match updated_at item with Some t => isoformat t | None => "" end) ;;
    say ("tags: " +:+ joined (tags item)) ;;
    say ("source: " +:+ source item) ;;
    say ("project_id: " +:+ default ""%string (project_id item)) ;;
    say "content:" ;;
    say (Domain.content item) ;;
    ret 0).
(** [cli/commands/memory.py:111-121 cmd_memory_pin] *)
Definition cmd_memory_pin (mid : string) (pin_on : bool) : Cli Z :=
  attempt (λ e, is_not_found e || is_validation e) (storing (pin_memory mid pin_on)) (refused "") (λ _, ret 0).

Record search_args := mkSearchArgs {
  sa_query : string; sa_top_k : Z; sa_project_id : option string; sa_tags : option string; sa_include_pinned : bool;
  sa_offset : Z; sa_full : bool; sa_mode : string; sa_phrase : bool; sa_pinned_limit : Z;
}.
Definition channel_text (c : Channel) : string :=
  match c with ch_pinned => "pinned" | ch_keyword => "keyword" | ch_semantic => "semantic" | ch_hybrid => "hybrid" end.
Definition relevance (s : ScoredMemory) : string :=
  match sm_similarity s with
  | None => channel_text (sm_channel s)
  | Some x => channel_text (sm_channel s) +:+ " sim=" +:+ fixed2 x
  end.
Definition show_hit (full : bool) (s : ScoredMemory) : Cli unit :=
  let item := sm_item s in
  if full then
    say ("--- [" +:+ joined (tags item) +:+ "] (pinned=" +:+ py_bool (pinned item) +:+ ") [" +:+ relevance s +:+ "] ---") ;;
    say (Domain.content item) ;;
    say ""
  else
    say (py_join TABS [id item; py_bool (pinned item); isoformat (created_at item); "[" +:+ relevance s +:+ "]"; joined (tags item);
      content_preview (Domain.content item)])%string.
(** [cli/commands/memory.py:124-163 cmd_memory_search] *)
Definition cmd_memory_search (a : search_args) : Cli Z :=
  (if configured && negb (bool_decide (sa_mode a = "keyword"%string)) then serving (refresh_revision false) ;; ret tt else ret tt) ;;
  attempt is_validation
    (serving (execute_search utc_now configured (sa_query a) (sa_top_k a) (sa_project_id a) (sa_include_pinned a)
       (parse_csv_tags (sa_tags a)) (sa_offset a) (mode_of (sa_mode a)) (sa_phrase a) (sa_pinned_limit a)))
    (refused "")
    (λ scored, each (show_hit (sa_full a)) scored ;; ret 0).
(** [use_cases/delete_memory.py:48-60 execute] The payloads. *)
Definition delete_memory_json (r : DeleteMemoryResult) : json :=
  match r with
  | memory_preview m => JObj [("status", jstr "preview"); ("deleted", JBool false);
      ("next_step", jstr "Nothing was deleted. Call again with confirm=true to delete this memory.");
      ("memory_id", jstr (id m)); ("content", jstr (Domain.content m)); ("tags", JArr (map jstr (tags m)));
      ("project_id", jopt jstr (project_id m)); ("pinned", JBool (pinned m))]%string
  | memory_deleted k => JObj [("status", jstr "ok"); ("deleted", JBool true); ("memory_id", jstr k)]%string
  end.
Definition ellipsis80 (s : string) : string := if str_len s <=? 80 then s else str_take 80 s +:+ "...".
(** [cli/commands/memory.py:166-206 cmd_memory_delete] *)
Definition cmd_memory_delete (mid : string) (confirm as_json : bool) : Cli Z :=
  attempt is_refusal (storing (execute_delete_memory mid confirm))
    (λ _,
      let message := "Memory item not found: " +:+ mid in
      (if as_json then print (Pretty (json_envelope "memory.delete" false JNull (json_error_payload None message None)))
       else say message) ;;
      ret 1)
    (λ r,
      (if as_json then print (Pretty (json_envelope "memory.delete" true (delete_memory_json r) JNull))
       else match r with
         | memory_preview m =>
             say ("Would delete memory " +:+ id m +:+ ": " +:+ repr_str (ellipsis80 (Domain.content m))
               +:+ ". Re-run with --confirm to proceed.")
         | memory_deleted k => say ("Deleted memory item " +:+ k)
         end) ;;
      ret 0).
(** [cli/commands/memory.py:209-233 cmd_memory_update] The use case may return
    [None], whose [id] is an [AttributeError]. *)
Definition cmd_memory_update (mid : string) (text tag_text : option string) : Cli Z :=
  let ts := parse_csv_tags tag_text in
  match text, ts with
  | None, None => say "At least one of --content or --tags must be provided" ;; ret 1
  | _, _ =>
      attempt is_refusal (serving (execute_update_memory utc_now configured mid text ts)) (refused "")
        (λ updated, match updated with Some m => say (id m) ;; ret 0 | None => raise AttributeError end)
  end.

Definition status_json (st : EmbeddingStatus) (revision : RevisionSnapshot) : json :=
  JObj [("total_memories", JInt (es_total_memories st)); ("embedded", JInt (es_embedded st)); ("missing", JInt (es_missing st));
    ("unembeddable", JInt (es_unembeddable st)); ("space_mismatch", JInt (es_space_mismatch st));
    ("content_mismatch", JInt (es_content_mismatch st)); ("stale", JInt (es_stale st));
    ("model_revision", jopt jstr (value revision)); ("model_revision_state", jstr (snapshot_state revision))]%string.
Definition hint_of_unknown_revision (text : string) (hint : string) : string := "Backfill refused: " +:+ text +:+ ". " +:+ hint.
(** [cli/commands/memory.py:236-295 cmd_memory_embed] [elapsed_ms] is measured;
    [hint]: that of [RevisionUnknownError]. *)
Definition cmd_memory_embed (hint : string) (elapsed_ms : Z) (show_status force as_json : bool) : Cli Z :=
  if negb configured then
    say "Embedding service not configured. Set OC_EMBEDDING_PROVIDER (stub, openai, ollama)." ;; ret 1
  else if show_status then
    let* revision := serving (refresh_revision false) in
    let* st := serving embedding_status in
    (if as_json then say (json_dumps (status_json st revision))
     else
       say ("Total memories: " +:+ str_of_Z (es_total_memories st)) ;;
       say ("Embedded:       " +:+ str_of_Z (es_embedded st)) ;;
       say ("Missing:        " +:+ str_of_Z (es_missing st)) ;;
       say ("Stale:          " +:+ str_of_Z (es_stale st)) ;;
       say ("Unembeddable:   " +:+ str_of_Z (es_unembeddable st)) ;;
       say ("Model:          " +:+ ep_model_name) ;;
       say ("Revision:       " +:+ snapshot_state revision +:+
         match value revision with
         | Some v => if bool_decide (v = ""%string) then "" else " (" +:+ v +:+ ")"
         | None => ""
         end)) ;;
    ret 0
  else
    attempt (λ e, bool_decide (e = RevisionUnknownError)) (serving (generate_missing utc_now None force))
      (λ e, say (hint_of_unknown_revision (text_of e) hint) ;; ret 1)
      (λ r,
        (if as_json then
           say (json_dumps (JObj [("generated", JInt (generated r)); ("failed", JInt (failed r)); ("tombstoned", JInt (tombstoned r));
             ("elapsed_ms", JInt elapsed_ms); ("force", JBool force)]%string))
         else
           say ("Generated " +:+ str_of_Z (generated r) +:+ " embedding(s); " +:+ str_of_Z (tombstoned r)
             +:+ " tombstoned (unembeddable); " +:+ str_of_Z (failed r) +:+ " failed in " +:+ str_of_Z elapsed_ms +:+ "ms.")) ;;
        ret (if (0 <? failed r) && (generated r =? 0) then 1 else 0)).

Definition entries_of (key : string) (payload : json) : Z :=
  match payload with
  | JObj l => match jget key l with Some (JArr rows) => Z.of_nat (length rows) | _ => 0 end
  | _ => 0
  end.
(** [cli/commands/memory.py:324-333 cmd_memory_export] The temporary file is made beside
    the destination, so that the rename is atomic; [token]: what [mkstemp] put into its
    name. *)
Definition write_atomically (token : string) (dest : path) (payload : json) : IO unit :=
  mkdirs (parent dest) ;;
  let tmp := with_name dest (path_name dest +:+ "." +:+ token +:+ ".tmp") in
  open_new tmp ;;
  try_catch (put_file tmp (Doc payload) ;; replace_file tmp dest) (λ e, unlink true tmp ;; raise e).
(** [cli/commands/memory.py:298-340 cmd_memory_export] An empty [--out] is none. *)
Definition cmd_memory_export (token : string) (now : datetime) (pid out : option string) : Cli Z :=
  let* payload := storing (execute_export now pid) in
  match out ≫= non_empty with
  | Some out_path =>
      on_disk (write_atomically token (locate out_path) payload) ;;
      say ("Exported " +:+ str_of_Z (entries_of "projects" payload) +:+ " project(s), "
        +:+ str_of_Z (entries_of "memory_items" payload) +:+ " memory item(s) to " +:+ out_path) ;;
      ret 0
  | None => print (Pretty payload) ;; ret 0
  end.
Definition import_mode_of (s : string) : ImportMode :=
  if bool_decide (s = "merge"%string) then merge else if bool_decide (s = "replace"%string) then replace else other_import_mode s.
(** [cli/commands/memory.py:343-401 cmd_memory_import] [reading]: what [read_text] and
    [json.loads] make of a file, [ValueError] for a [JSONDecodeError]; [shown]: the
    path as it is printed. *)
Definition cmd_memory_import (reading : fs → path → result exn json) (now : datetime) (in_path shown mode : string) : Cli Z :=
  let src := locate in_path in
  let* f := on_disk (look (λ f, f)) in
  if negb (is_file f src) then say ("Error: input file not found: " +:+ shown) ;; ret 1
  else
    attempt (λ e, bool_decide (e = ValueError))
      (on_disk touch_nothing ;; lift_result (reading f src))
      (λ e, say ("Error: invalid JSON in " +:+ shown +:+ ": " +:+ text_of e) ;; ret 1)
      (λ payload,
        attempt is_validation (storing (execute_import now payload (import_mode_of mode))) (refused "Error: ")
          (λ c,
            say ("Imported " +:+ str_of_Z (projects_added c) +:+ " project(s), " +:+ str_of_Z (memory_added c)
              +:+ " memory item(s) (mode=" +:+ mode +:+ "; skipped " +:+ str_of_Z (projects_skipped c)
              +:+ " existing project(s), " +:+ str_of_Z (memory_skipped c) +:+ " existing memory item(s))") ;;
            (if 0 <? oversized_content c then
               say ("Note: " +:+ str_of_Z (oversized_content c) +:+ " imported item(s) exceed the content cap"
                 +:+ " (kept intact " +:+ em_dash +:+ " a restore must not fail on data the store already held)") else ret tt) ;;
            (if 0 <? watermark_dropped c then
               say ("Dropped " +:+ str_of_Z (watermark_dropped c) +:+ " git-onboard watermark(s) from the envelope"
                 +:+ " (device-local git resume state; re-run `oc onboard git` here to re-anchor)") else ret tt) ;;
            ret 0)).

(** ** Projects *)

(** [cli/commands/project.py:18-21 cmd_init_project] *)
Definition cmd_init_project (new_id : string) (now : datetime) (nm : string) : Cli Z :=
  let* project := storing (create_project new_id now nm None) in
  say (project_key project) ;;
  ret 0.
(** [cli/commands/project.py:24-28 cmd_list_projects] *)
Definition cmd_list_projects (name_contains : option string) : Cli Z :=
  let* projects := storing (execute_list_projects name_contains) in
  each (λ p, say (project_key p +:+ TABS +:+ name p)) projects ;;
  ret 0.
(** [cli/commands/project.py:31-57 cmd_show_project] *)
Definition cmd_show_project (k : string) (as_json : bool) : Cli Z :=
  let* project := storing (st_get_project k) in
  match project with
  | None => say ("Project not found: " +:+ k) ;; ret 1
  | Some p =>
      (if as_json then
         print (Pretty (json_envelope "show-project" true
           (JObj [("project_id", jstr (project_key p)); ("name", jstr (name p));
              ("created_at", jstr (isoformat (project_created_at p)))]%string) JNull))
       else
         say ("Project: " +:+ name p) ;;
         say ("ID: " +:+ project_key p) ;;
         say ("Created: " +:+ isoformat (project_created_at p))) ;;
      ret 0
  end.
Definition not_found_code (e : exn) : option string := match e with NotFoundError c => Some (code_text c) | _ => None end.
(** [except NotFoundError as exc] of the two commands below *)
Definition project_missing (cmd : string) (as_json : bool) (e : exn) : Cli Z :=
  (if as_json then
     print (Pretty (json_envelope cmd false JNull
       (json_error_payload (not_found_code e) (text_of e) (Some "Run `oc list-projects` to see valid project IDs."%string))))
   else say (text_of e)) ;;
  ret 1.
(** [--metadata]: [None] where it was refused. *)
Definition read_metadata (text : option string) : Cli (option (option (list (string * json)))) :=
  match text with
  | None => ret (Some None)
  | Some t =>
      match loads t with
      | None => say ("--metadata must be valid JSON: " +:+ text_of ValueError) ;; ret None
      | Some (JObj l) => ret (Some (Some l))
      | Some _ => say "--metadata must decode to a JSON object" ;; ret None
      end
  end.
(** [cli/commands/project.py:60-125 cmd_update_project] *)
Definition cmd_update_project (k : string) (nm metadata_text : option string) (as_json : bool) : Cli Z :=
  let* md := read_metadata metadata_text in
  match md with
  | None => ret 2
  | Some md =>
      match nm, md with
      | None, None => say "Provide at least one of --name or --metadata" ;; ret 2
      | _, _ =>
          attempt is_not_found (storing (execute_update_project k nm md)) (project_missing "update-project" as_json)
            (λ p,
              (if as_json then
                 print (Pretty (json_envelope "update-project" true
                   (JObj [("project_id", jstr (project_key p)); ("name", jstr (name p)); ("metadata", JObj (metadata p))]%string) JNull))
               else say ("Updated project " +:+ project_key p +:+ " (" +:+ name p +:+ ")")) ;;
              ret 0)
      end
  end.
(** [use_cases/delete_project.py:34-56 execute] The payloads. *)
Definition delete_project_json (r : DeleteProjectResult) : json :=
  match r with
  | project_preview k nm n => JObj [("status", jstr "preview"); ("deleted", JBool false);
      ("next_step", jstr "Nothing was deleted. Call again with confirm=true to delete this project and its memories.");
      ("project_id", jstr k); ("name", jstr nm); ("memory_count", JInt n)]%string
  | project_deleted k nm n => JObj [("status", jstr "ok"); ("deleted", JBool true); ("project_id", jstr k); ("name", jstr nm);
      ("deleted_memories", JInt n)]%string
  end.
(** [cli/commands/project.py:128-180 cmd_delete_project] *)
Definition cmd_delete_project (k : string) (confirm as_json : bool) : Cli Z :=
  attempt is_not_found (storing (execute_delete_project k confirm)) (project_missing "delete-project" as_json)
    (λ r,
      (if as_json then print (Pretty (json_envelope "delete-project" true (delete_project_json r) JNull))
       else match r with
         | project_preview k nm n =>
             say ("Would delete project " +:+ k +:+ " (" +:+ nm +:+ ") with " +:+ str_of_Z n +:+ " memories. Re-run with --confirm to proceed.")
         | project_deleted k nm n => say ("Deleted project " +:+ k +:+ " (" +:+ nm +:+ "); removed " +:+ str_of_Z n +:+ " memories.")
         end) ;;
      ret 0).

(** ** The database *)

(** [cli/commands/db.py:16-21 _TABLE_NAMES] *)
Definition TABLE_NAMES : list string := ["projects"; "memory_items"; "memory_embeddings"; "schema_version"]%string.
(** [SELECT COUNT( * )] of a table; [versions]: the rows of [schema_version]. *)
Definition row_count (versions : Z) (table : string) (s : S) : Z :=
  let d := st_view s in
  if bool_decide (table = "projects"%string) then Z.of_nat (size (Sql.projects d))
  else if bool_decide (table = "memory_items"%string) then Z.of_nat (size (Sql.memories d))
  else if bool_decide (table = "memory_embeddings"%string) then Z.of_nat (size (Sql.embeddings d))
  else versions.
Definition count_rows (versions : Z) (table : string) : Cli Z := storing (gets (row_count versions table)).
Definition PRAGMAS : list string := ["journal_mode"; "foreign_keys"; "busy_timeout"; "synchronous"]%string.
Definition labelled (w : nat) (label value : string) : string := "  " +:+ ljust w label +:+ " " +:+ value.
(** [cli/commands/db.py:38-90 cmd_db_info] [size_of]: [0] for no file; [pragma]: what
    SQLite answers, the integrity check too. *)
Definition cmd_db_info (db_file : string) (size_of : fs → string → Z) (versions : Z) (pragma : string → result exn string)
    (as_json : bool) : Cli Z :=
  let* f := on_disk (look (λ f, f)) in
  let db_size := size_of f db_file in
  let wal_size := size_of f (db_file +:+ "-wal") in
  let* counts := map_m (λ t, let* n := count_rows versions t in ret (t, n)) TABLE_NAMES in
  let* pragmas := map_m (λ t, let* v := lift_result (pragma t) in ret (t, v)) PRAGMAS in
  let* integrity := lift_result (pragma "integrity_check") in
  (if as_json then
     print (Pretty (json_envelope "db.info" true
       (JObj [("db_path", jstr db_file); ("db_size_bytes", JInt db_size); ("wal_size_bytes", JInt wal_size);
          ("row_counts", JObj (map (λ tn, (tn.1, JInt tn.2)) counts)); ("pragmas", JObj (map (λ tv, (tv.1, jstr tv.2)) pragmas));
          ("integrity", jstr integrity)]%string) JNull))
   else
     say ("Database: " +:+ db_file) ;;
     say ("Size: " +:+ commas db_size +:+ " bytes") ;;
     say ("WAL: " +:+ commas wal_size +:+ " bytes") ;;
     say "" ;;
     say "Row counts:" ;;
     each (λ tn, say (labelled 20 tn.1 (rjust 8 (commas tn.2)))) counts ;;
     say "" ;;
     say "Pragmas:" ;;
     each (λ tv, say (labelled 20 tv.1 tv.2)) pragmas ;;
     say "" ;;
     say ("Integrity: " +:+ integrity)) ;;
  ret 0.
(** [cli/commands/db.py:93-107 cmd_db_vacuum] The vacuum and the checkpoint, and what
    they leave on the disk, are SQLite's. *)
Definition cmd_db_vacuum (db_file : string) (size_of : fs → string → Z) (vacuum : IO unit) : Cli Z :=
  let* before := on_disk (look (λ f, size_of f db_file)) in
  on_disk vacuum ;;
  let* after := on_disk (look (λ f, size_of f db_file)) in
  say ("Before: " +:+ commas before +:+ " bytes") ;;
  say ("After:  " +:+ commas after +:+ " bytes") ;;
  say ("Saved:  " +:+ commas (before - after) +:+ " bytes") ;;
  ret 0.
(** [cli/commands/db.py:110-126 cmd_db_backup] [shown]: the path as it is printed. *)
Definition cmd_db_backup (open_db : string → option image) (size_of : fs → string → Z) (copied : result exn string)
    (dest shown : string) (force : bool) : Cli Z :=
  let p := locate dest in
  let* there := on_disk (look (λ f, exists_ f p)) in
  if (there : bool) && negb force then
    say ("Error: destination already exists: " +:+ shown) ;; say "Use --force to overwrite." ;; ret 1
  else
    on_disk (backup_from_connection open_db copied p) ;;
    on_disk touch_nothing ;;
    let* n := on_disk (look (λ f, size_of f dest)) in
    say ("Backup written: " +:+ shown +:+ " (" +:+ commas n +:+ " bytes)") ;;
    ret 0.
(** [cli/commands/db.py:129-161 cmd_db_stats] *)
Definition cmd_db_stats (as_json : bool) : Cli Z :=
  let* projects := count_rows 0 "projects" in
  let* items := count_rows 0 "memory_items" in
  let* pins := storing (gets (λ s, Z.of_nat (size (filter (λ kr, Sql.r_pinned kr.2 = true) (Sql.memories (st_view s)))))) in
  let* vectors := count_rows 0 "memory_embeddings" in
  (if as_json then
     print (Pretty (json_envelope "db.stats" true
       (JObj [("projects", JInt projects); ("memory_items", JInt items); ("pinned", JInt pins); ("embeddings", JInt vectors)]%string) JNull))
   else
     say ("Projects:      " +:+ rjust 8 (commas projects)) ;;
     say ("Memory items:  " +:+ rjust 8 (commas items)) ;;
     say ("  pinned:      " +:+ rjust 8 (commas pins)) ;;
     say ("Embeddings:    " +:+ rjust 8 (commas vectors))) ;;
  ret 0.

(** ** Onboarding *)

Section onboard.
Context (dash : string) (run : Git) (environ : env) (clock : nat → datetime) (new_id : nat → string) (now : datetime).

Definition say_history (h : ExtractedHistory) : Cli unit := say ("Branch " +:+ h_branch h +:+ " @ " +:+ str_take 12 (h_head h)).
Definition show_cluster (ic : nat * CommitCluster) : Cli unit :=
  match head (by_date (cl_commits ic.2)), last (by_date (cl_commits ic.2)) with
  | Some a, Some b =>
      say ("  [" +:+ str_of_Z (Z.of_nat ic.1) +:+ "] " +:+ label_text dash ic.2 +:+ " (" +:+ str_of_Z (Z.of_nat (length (cl_commits ic.2)))
        +:+ " commits, " +:+ iso_date (gc_date a) +:+ " to " +:+ iso_date (gc_date b) +:+ ")")
  | _, _ => raise IndexError
  end.
Definition numbered {A} (l : list A) : list (nat * A) := imap (λ i a, (Datatypes.S i, a)) l.
(** [git_onboard.py:845-863 materialize_clusters] With the callback that prints. *)
Fixpoint materialize_printing (total : nat) (pid : string) (clusters : list (nat * CommitCluster)) : Cli (list MemoryItem) :=
  match clusters with
  | [] => ret []
  | (i, c) :: cs =>
      say ("  Processing cluster " +:+ str_of_Z (Z.of_nat i) +:+ "/" +:+ str_of_Z (Z.of_nat total) +:+ ": " +:+ label_text dash c) ;;
      let* item := storing (materialize_clusters dash new_id i pid [c]) in
      let* items := materialize_printing total pid cs in
      ret (item ++ items)
  end.
(** [cli/commands/onboard.py:60-80 cmd_onboard_git] *)
Definition onboard_preview (repo_path : string) (max_commits max_memories : Z) : Cli Z :=
  attempt is_runtime (lift_result (extract_history_from_path run environ clock repo_path max_commits None)) (refused "Error: ")
    (λ history,
      say_history history ;;
      let filtered := filter_commits (h_commits history) in
      let clusters := cluster_commits TIME_WINDOW_HOURS max_memories filtered in
      say ("Filtered: " +:+ str_of_Z (Z.of_nat (length (h_commits history))) +:+ " -> " +:+ str_of_Z (Z.of_nat (length filtered)) +:+ " commits") ;;
      say ("Clusters: " +:+ str_of_Z (Z.of_nat (length clusters))) ;;
      each show_cluster (numbered clusters) ;;
      ret 0).
(** [cli/commands/onboard.py:32-129 cmd_onboard_git] *)
Definition cmd_onboard_git (pid repo_path : string) (max_commits max_memories : Z) (force dry_run : bool) : Cli Z :=
  let* project := storing (st_get_project pid) in
  match project with
  | None => say ("Error: project not found: " +:+ pid) ;; ret 1
  | Some _ =>
      if dry_run then onboard_preview repo_path max_commits max_memories
      else
        attempt is_runtime
          (storing (onboard_git_prepare (new_id 0) now pid
             (λ since, extract_history_from_path run environ clock repo_path max_commits since) max_memories force))
          (refused "Error: ")
          (λ prepared,
            match op_status prepared with
            | GitOnboard.exists_ =>
                say ("Error: " +:+ str_of_Z (existing_count prepared) +:+ " git-onboard memories already exist for this project.") ;;
                say "(They predate incremental onboarding, so there is no watermark to resume from.)" ;;
                say "Use --force to delete and re-run." ;;
                ret 1
            | up_to_date =>
                say_history (op_history prepared) ;; say ("Up to date " +:+ em_dash +:+ " no commits past the stored watermark.") ;; ret 0
            | empty_ => say_history (op_history prepared) ;; say "No commits found." ;; ret 0
            | on_ok =>
                let history := op_history prepared in
                say_history history ;;
                (if watermark_unreachable history then
                   say ("Note: the stored watermark was unreachable (history rewritten or force-pushed); ran a full walk " +:+ em_dash
                     +:+ " some memories may duplicate existing ones.") else ret tt) ;;
                say ("Walked " +:+ str_of_Z (Z.of_nat (length (h_commits history))) +:+ " commits ("
                  +:+ str_of_Z (Z.of_nat (length (op_filtered prepared))) +:+ " after filtering)") ;;
                let* memories := materialize_printing (length (op_clusters prepared)) pid (numbered (op_clusters prepared)) in
                say "" ;;
                say ("Created " +:+ str_of_Z (Z.of_nat (length memories)) +:+ " memories from git history.") ;;
                each (λ m, say ("  [" +:+ iso_date (created_at m) +:+ "] " +:+ str_take 80 (Domain.content m) +:+ "...")) memories ;;
                ret 0
            end)
  end.
End onboard.

(** ** The system *)

(** [version.py:35-40 package_version] [installed]: what the metadata says. *)
Definition package_version (installed : option string) : string := default "unknown"%string installed.
(** [version.py:43-50 build_revision] [text]: the file's text, unless reading it
    raised [OSError]. *)
Definition build_revision (text : option string) : string :=
  match text ≫= (λ t, non_empty (py_strip t)) with Some revision => revision | None => "unknown" end.
(** [cli/commands/system.py:17-40 cmd_version] *)
Definition cmd_version (installed revision_text : option string) (python_version : string) (as_json : bool) : Cli Z :=
  let pkg := package_version installed in
  let revision := build_revision revision_text in
  (if as_json then
     print (Pretty (json_envelope "version" true
       (JObj [("package_version", jstr pkg); ("build_revision", jstr revision); ("python_version", jstr python_version)]%string) JNull))
   else
     say ("openchronicle " +:+ pkg) ;;
     (if bool_decide (revision = "unknown"%string) then ret tt else say ("build " +:+ revision)) ;;
     say ("Python " +:+ python_version)) ;;
  ret 0.

(** [cli/commands/system.py:51-54 _mask_secret] *)
Definition mask_secret (v : string) : string :=
  if str_len v <=? 8 then "****"
  else str_take 4 v +:+ "****" +:+ of_chars (drop (String.length v - 4) (chars v)).
Definition SECRET_WORDS : list string := ["KEY"; "SECRET"; "TOKEN"; "PASSWORD"]%string.
Definition is_secret_name (key : string) : bool :=
  starts_with "OC_" key && existsb (λ w, contains w (str_upper key)) SECRET_WORDS.
(** [cli/commands/system.py:77-80 cmd_config_show] *)
Definition masked_env (environ : environment) : list (string * string) :=
  map (λ kv, (kv.1, mask_secret kv.2))
    (filter (λ kv, is_secret_name kv.1 = true) (sort_by (λ a b, str_leb a.1 b.1) (map_to_list environ))).
Definition str_dict (l : list (string * string)) : json := JObj (map (λ kv, (kv.1, jstr kv.2)) l).
(** [cli/commands/system.py:57-111 cmd_config_show] [core]: what core.json is;
    [existing]: the configuration directory is there. *)
Definition cmd_config_show (environ : environment) (existing : bool) (core : Container.core_file) (as_json : bool)
    : SE P Container.startup_error Z :=
  let '(db, config, output_dir) := resolve_paths environ None None None in
  let paths := [("db_path", Health.path_text db); ("config_dir", Health.path_text config); ("output_dir", Health.path_text output_dir)]%string in
  let* file_configs := lift_result (if existing then Container.load_json_config loads core else Ok []) in
  let core_loaded := match core with Container.Missing => false | _ => true end in
  let masked := masked_env environ in
  let run : Cli Z :=
    if as_json then
      print (Pretty (json_envelope "config.show" true
        (JObj [("paths", str_dict paths); ("core_config_loaded", JBool core_loaded); ("core_config", JObj file_configs);
           ("masked_secrets", str_dict masked)]%string) JNull)) ;; ret 0
    else
      say "Paths:" ;;
      each (λ kv, say (labelled 16 kv.1 kv.2)) paths ;;
      say "" ;;
      say (if core_loaded then "Config file: core.json (loaded)" else "Config file: core.json (not found, using defaults)") ;;
      (match masked with
       | [] => ret tt
       | _ => say "" ;; say "Masked Secrets:" ;; each (λ kv, say ("  " +:+ kv.1 +:+ ": " +:+ kv.2)) masked
       end) ;;
      ret 0 in
  λ p, match run p with (p, Ok z) => (p, Ok z) | (p, Raise e) => (p, Raise (Container.Startup e)) end.

(** [init_runtime.py:36-44 _ensure_parent] and [_ensure_dir]: whether it was there. *)
Definition ensure_dir (p : path) : Cli string :=
  let* there := on_disk (look (λ f, exists_ f p)) in
  on_disk (mkdirs p) ;;
  ret (if (there : bool) then "exists" else "created")%string.
(** The entries of the report: the path, the parent of the database, the status. *)
Definition init_entry : Type := string * string * option string * string.
(** [init_runtime.py:22-33 execute] [parent_of]: [str(path.parent)]. *)
Definition init_runtime (parent_of : string → string) (environ : environment) : Cli (list init_entry) :=
  let '(db, config, output_dir) := resolve_paths environ None None None in
  let db := Health.path_text db in
  let config := Health.path_text config in
  let output_dir := Health.path_text output_dir in
  let* s1 := ensure_dir (parent (locate db)) in
  let* s2 := ensure_dir (locate config) in
  let* s3 := ensure_dir (locate output_dir) in
  ret [("db_path", db, Some (parent_of db), s1); ("config_dir", config, None, s2); ("output_dir", output_dir, None, s3)]%string.
Definition init_json (e : init_entry) : string * json :=
  let '(k, p, par, st) := e in
  (k, JObj (("path"%string, jstr p) :: match par with Some q => [("parent"%string, jstr q)] | None => [] end ++ [("status"%string, jstr st)])).
Definition init_line (e : init_entry) : string :=
  let '(k, p, par, st) := e in
  match par with
  | Some q => if bool_decide (q = ""%string) then k +:+ ": " +:+ st +:+ " (" +:+ p +:+ ")"
              else k +:+ ": " +:+ st +:+ " (" +:+ p +:+ "; parent=" +:+ q +:+ ")"
  | None => k +:+ ": " +:+ st +:+ " (" +:+ p +:+ ")"
  end.
(** [cli/commands/system.py:114-134 cmd_init] *)
Definition cmd_init (parent_of : string → string) (environ : environment) (as_json : bool) : Cli Z :=
  let* entries := init_runtime parent_of environ in
  if as_json then print (Pretty (JObj [("status", jstr "ok"); ("paths", JObj (map init_json entries))]%string)) ;; ret 0
  else say "Runtime paths:" ;; each (λ e, say (init_line e)) entries ;; ret 0.

(** [cli/commands/system.py:155-165 cmd_serve] An empty host and port 0 are no
    override; the replaced configuration is checked again. *)
Definition serve_config (environ : environment) (file_configs : list (string * json)) (host : option string) (port : option Z)
    : result exn HTTPConfig :=
  let? c := http_config environ (entry "api" file_configs) in
  let host := default (http_host c) (host ≫= non_empty) in
  let port := match port with Some n => if n =? 0 then http_port c else n | None => http_port c end in
  if negb (valid_port port) then Raise ValueError else Ok (mkHTTP host port (http_api_key c) (http_allowed_hosts c)).
(** [cli/commands/system.py:137-196 cmd_serve] [server]: the application under uvicorn
    until it is told to exit. *)
Definition cmd_serve (server : HTTPConfig → Cli unit) (environ : environment) (file_configs : list (string * json))
    (host : option string) (port : option Z) : Cli Z :=
  let* config := lift_result (serve_config environ file_configs host port) in
  server config ;;
  ret 0.

(** [cli/commands/maintenance.py:32-64 cmd_maintenance_list] *)
Definition cmd_maintenance_list (environ : environment) (file_configs : list (string * json)) (as_json : bool) : Cli Z :=
  let* jobs := lift_result (load_jobs file_configs) in
  let off := Container.is_disabled environ in
  (if as_json then
     print (Pretty (json_envelope "maintenance.list" true
       (JObj [("loop_disabled", JBool off);
          ("jobs", JArr (map (λ j, JObj [("name", jstr (job_name j)); ("interval_seconds", JInt (interval_seconds j));
             ("enabled", JBool (enabled j))]%string) jobs))]%string) JNull))
   else
     say ("Maintenance loop: " +:+ if off then "DISABLED via env" else "enabled") ;;
     say "" ;;
     say (ljust 22 "Job" +:+ " " +:+ rjust 10 "Interval" +:+ " " +:+ rjust 10 "Status") ;;
     say (of_chars (repeat "-"%char 45)) ;;
     each (λ j, say (ljust 22 (job_name j) +:+ " " +:+ rjust 10 (str_of_Z (interval_seconds j)) +:+ "s "
       +:+ rjust 10 (if enabled j then "ON" else "off"))) jobs) ;;
  ret 0.

(** [jobs.py:439-446 HANDLERS] *)
Definition HANDLERS : list string :=
  ["db_backup"; "db_vacuum"; "db_integrity_check"; "embedding_backfill"; "git_onboard_resync"; "cloud_backup"]%string.
(** [cli/commands/maintenance.py:67-90 cmd_maintenance_run_once] [handler]: the entry of
    that name. *)
Definition cmd_maintenance_run_once (handler : string → Cli json) (job : string) : Cli Z :=
  if negb (bool_decide (job ∈ HANDLERS)) then
    say ("Unknown maintenance job: " +:+ job) ;;
    say ("Available: " +:+ py_join ", " (sort_by str_leb HANDLERS)) ;;
    ret 1
  else
    say ("Running maintenance job: " +:+ job) ;;
    attempt (λ _, true) (handler job)
      (λ e, say ("Error: job " +:+ job +:+ " failed: " +:+ text_of e) ;; ret 1)
      (λ r,
        if job_result_is_skipped r then
          let reason := match r with JObj l => jget "reason" l | _ => None end in
          say ("SKIPPED: " +:+ job +:+ " did nothing (" +:+ match reason with Some v => py_str v | None => "already running" end +:+ ")") ;;
          ret 0
        else say ("OK: " +:+ job +:+ " complete") ;; ret 0).

Section handlers.
Context (open_db : string → option image) (scan : fs → path → list string) (mtime : fs → path → result exn Z) (cat : catalog).
Context (child : list (list string) → list string → result exn (Z * list ascii)).
Context (snapshot : snapshot_env) (vacuum : result exn unit) (check : result exn string).
Context (environ : env) (euid : Z) (rclone_conf_present : bool) (now : Z) (temp_token : string).

(** A job run in a process of its own: the degraded flag is not yet set, and no
    child has run. *)
Definition in_process (m : SE (Jobs.container S E) exn json) : Cli json := λ p,
  let (c, r) := m (Jobs.mkContainer (if configured then Some (app p) else None) (disk p) false []) in
  (mkProcess (default (app p) (Jobs.c_service c)) (Jobs.c_world c) (printed p), r).
Definition handler (job : string) : Cli json :=
  in_process (
    if bool_decide (job = "db_backup"%string) then Jobs.db_backup open_db scan mtime cat snapshot
    else if bool_decide (job = "db_vacuum"%string) then Jobs.db_vacuum open_db scan mtime cat snapshot vacuum
    else if bool_decide (job = "db_integrity_check"%string) then Jobs.db_integrity_check open_db scan mtime cat snapshot check
    else if bool_decide (job = "embedding_backfill"%string) then Jobs.embedding_backfill utc_now
    else if bool_decide (job = "git_onboard_resync"%string) then Jobs.git_onboard_resync
    else Jobs.cloud_backup open_db scan mtime cat child environ euid rclone_conf_present now temp_token).
End handlers.
End commands.

(** ** Dispatch *)

(** A command with the values it reads from the namespace; [Usage] and, before there is
    a container, [Early_usage]: a group without a sub-command. *)
Inductive command :=
| Init_project (nm : string)
| List_projects (name_contains : option string)
| Show_project (k : string) (as_json : bool)
| Update_project (k : string) (nm md : option string) (as_json : bool)
| Delete_project (k : string) (confirm as_json : bool)
| Memory_add (text ts : string) (pin : bool) (src : string) (pid : option string)
| Memory_list (limit : option Z) (pinned_only : bool) (offset : Z) (pid : option string)
| Memory_show (k : string)
| Memory_pin (k : string) (pin_on : bool)
| Memory_search (a : search_args)
| Memory_delete (k : string) (confirm as_json : bool)
| Memory_update (k : string) (text ts : option string)
| Memory_embed (show_status force as_json : bool)
| Memory_export (pid out : option string)
| Memory_import (in_path mode : string)
| Db_info (as_json : bool)
| Db_vacuum
| Db_backup (dest : string) (force : bool)
| Db_stats (as_json : bool)
| Onboard_git (pid repo_path : string) (max_commits max_memories : Z) (force dry_run : bool)
| Maintenance_list (as_json : bool)
| Maintenance_run_once (job : string)
| Serve_ (host : option string) (port : option Z)
| Init (as_json : bool)
| Version (as_json : bool)
| Config_show (as_json : bool)
| Usage (text : string) (failing : bool)
| Early_usage (text : string)
| No_command.

Section reading.
Context (ns : namespace).
(** [args.k], of the type its command wants. *)
Definition arg_str (k : string) : option string := match ns !! k with Some (VStr s) => Some s | _ => None end.
Definition arg_opt_str (k : string) : option (option string) :=
  match ns !! k with Some (VStr s) => Some (Some s) | Some VNone => Some None | _ => None end.
Definition arg_int (k : string) : option Z := match ns !! k with Some (VInt z) => Some z | _ => None end.
Definition arg_opt_int (k : string) : option (option Z) :=
  match ns !! k with Some (VInt z) => Some (Some z) | Some VNone => Some None | _ => None end.
Definition arg_bool (k : string) : option bool := match ns !! k with Some (VBool b) => Some b | _ => None end.

Abbreviation table := (list (string * option command)).
(** [<table>.get(name)]; [None] is no command, a name outside the table too. *)
Definition chosen (t : table) (fallback : command) (name : option string) : option command :=
  match name with
  | None => Some fallback
  | Some n => match find (λ e, bool_decide (e.1 = n)) t with Some e => e.2 | None => Some fallback end
  end.
(** [cli/commands/memory.py:26-46 cmd_memory] *)
Definition memory_command : option command :=
  let k := arg_str "memory_id" in
  arg_opt_str "memory_command" ≫= chosen
   [("add", t ← arg_str "content"; g ← arg_str "tags"; p ← arg_bool "pin"; s ← arg_str "source"; j ← arg_opt_str "project_id";
       Some (Memory_add t g p s j));
    ("list", l ← arg_opt_int "limit"; p ← arg_bool "pinned_only"; o ← arg_int "offset"; j ← arg_opt_str "project_id";
       Some (Memory_list l p o j));
    ("show", Memory_show <$> k);
    ("pin", k ← k; b ← arg_bool "pin_on"; Some (Memory_pin k b));
    ("search", q ← arg_str "query"; n ← arg_int "top_k"; j ← arg_opt_str "project_id"; g ← arg_opt_str "tags";
       i ← arg_bool "include_pinned"; o ← arg_int "offset"; f ← arg_bool "full"; m ← arg_str "mode"; p ← arg_bool "phrase";
       l ← arg_int "pinned_limit"; Some (Memory_search (mkSearchArgs q n j g i o f m p l)));
    ("delete", k ← k; c ← arg_bool "confirm"; j ← arg_bool "json"; Some (Memory_delete k c j));
    ("update", k ← k; t ← arg_opt_str "content"; g ← arg_opt_str "tags"; Some (Memory_update k t g));
    ("embed", s ← arg_bool "status"; f ← arg_bool "force"; j ← arg_bool "json"; Some (Memory_embed s f j));
    ("export", j ← arg_opt_str "project_id"; o ← arg_opt_str "out"; Some (Memory_export j o));
    ("import", p ← arg_str "in_path"; m ← arg_str "mode"; Some (Memory_import p m))]%string
   (Usage "Usage: oc memory <subcommand>" true).
(** [cli/commands/db.py:24-35 cmd_db] *)
Definition db_command : option command :=
  arg_opt_str "db_command" ≫= chosen
   [("info", Db_info <$> arg_bool "json"); ("vacuum", Some Db_vacuum);
    ("backup", p ← arg_str "path"; f ← arg_bool "force"; Some (Db_backup p f)); ("stats", Db_stats <$> arg_bool "json")]%string
   (Usage "Usage: oc db {info|vacuum|backup|stats}" true).
(** [cli/commands/onboard.py:18-29 cmd_onboard] *)
Definition onboard_command : option command :=
  arg_opt_str "onboard_command" ≫= chosen
   [("git", j ← arg_str "project_id"; r ← arg_str "repo_path"; c ← arg_int "max_commits"; m ← arg_int "max_memories";
       f ← arg_bool "force"; d ← arg_bool "dry_run"; Some (Onboard_git j r c m f d))]%string
   (Usage "Usage: oc onboard <subcommand>" true).
(** [cli/commands/maintenance.py:22-29 cmd_maintenance] *)
Definition maintenance_command : option command :=
  arg_opt_str "maintenance_command" ≫= chosen
   [("list", Maintenance_list <$> arg_bool "json"); ("run-once", Maintenance_run_once <$> arg_str "job_name")]%string
   (Usage "Usage: oc maintenance {list | run-once <job_name>}" false).
(** [cli/commands/system.py:43-48 cmd_config] *)
Definition config_command : option command :=
  arg_opt_str "config_command" ≫= chosen [("show", Config_show <$> arg_bool "json")]%string (Early_usage "Usage: oc config {show}").
(** [cli/commands/__init__.py:32-49 COMMANDS] With [PRE_CONTAINER_COMMANDS]. *)
Definition command_of : option command :=
  let k := arg_str "project_id" in
  arg_opt_str "command" ≫= chosen
   [("init", Init <$> arg_bool "json"); ("version", Version <$> arg_bool "json"); ("config", config_command);
    ("init-project", Init_project <$> arg_str "name");
    ("list-projects", List_projects <$> arg_opt_str "name_contains");
    ("show-project", k ← k; j ← arg_bool "json"; Some (Show_project k j));
    ("update-project", k ← k; n ← arg_opt_str "name"; m ← arg_opt_str "metadata"; j ← arg_bool "json"; Some (Update_project k n m j));
    ("delete-project", k ← k; c ← arg_bool "confirm"; j ← arg_bool "json"; Some (Delete_project k c j));
    ("memory", memory_command); ("db", db_command); ("onboard", onboard_command); ("maintenance", maintenance_command);
    ("serve", h ← arg_opt_str "host"; p ← arg_opt_int "port"; Some (Serve_ h p))]%string
   No_command.
End reading.

(** ** The program *)

(** What one run of [oc] is told by everything around it. *)
Record surroundings := mkSurroundings {
  text_of_ : exn → string;
  startup_text : Container.startup_error → string;
  loads_ : string → option json;
  locate_ : string → path;
  em_dash_ : string;
  reading_ : fs → path → result exn json;
  size_of_ : fs → string → Z;
  moment : datetime;
  fresh_id : nat → string;
  temp_name : string;
  revision_hint : string;
  elapsed : Z;
  schema_rows : Z;
  pragma_ : string → result exn string;
  vacuum_ : IO unit;
  open_db_ : string → option image;
  copied_ : result exn string;
  label_dash : string;
  git_ : Git;
  git_clock : nat → datetime;
  environ_ : environment;
  installed_version : option string;
  revision_file : option string;
  python_version_ : string;
  parent_of_ : string → string;
  db_file_ : string;
  building : Container.surroundings;
}.
Inductive ending := Exited (code : Z) | Traceback (e : exn).
Record finished (A : Type) := mkFinished { left : process A; store_left : Container.store_state; stderr : list string; ended : ending }.
Arguments mkFinished {A}. Arguments left {A}. Arguments store_left {A}. Arguments stderr {A}. Arguments ended {A}.

Section program.
Context {S E : Type} `{HF : FTS5} `{!MemoryStorePort S} `{!EmbeddingPort E}.
Context `{HN : Numpy} `{HO : SetOrder}.
Context (utc_now : nat → Z) (w : surroundings).
Context (server : HTTPConfig → SE (process (svc S E)) exn unit) (handler : bool → string → SE (process (svc S E)) exn json).
Notation P := (process (svc S E)).

(** The commands that need the container, with its configuration; [configured]: it
    has an embedding service. *)
Definition run_command (configured : bool) (file_configs : list (string * json)) (c : command) : SE P exn Z :=
  let text_of := text_of_ w in let locate := locate_ w in let db := db_file_ w in
  match c with
  | Init_project nm => cmd_init_project (fresh_id w 0) (moment w) nm
  | List_projects n => cmd_list_projects n
  | Show_project k j => cmd_show_project k j
  | Update_project k n m j => cmd_update_project text_of (loads_ w) k n m j
  | Delete_project k c j => cmd_delete_project text_of k c j
  | Memory_add t g p s j => cmd_memory_add utc_now configured text_of (fresh_id w 0) (moment w) t g p s j
  | Memory_list l p o j => cmd_memory_list l p o j
  | Memory_show k => cmd_memory_show text_of k
  | Memory_pin k b => cmd_memory_pin text_of k b
  | Memory_search a => cmd_memory_search utc_now configured text_of a
  | Memory_delete k c j => cmd_memory_delete k c j
  | Memory_update k t g => cmd_memory_update utc_now configured text_of k t g
  | Memory_embed s f j => cmd_memory_embed utc_now configured text_of (revision_hint w) (elapsed w) s f j
  | Memory_export j o => cmd_memory_export locate (temp_name w) (moment w) j o
  | Memory_import p m => cmd_memory_import text_of locate (em_dash_ w) (reading_ w) (moment w) p p m
  | Db_info j => cmd_db_info db (size_of_ w) (schema_rows w) (pragma_ w) j
  | Db_vacuum => cmd_db_vacuum db (size_of_ w) (vacuum_ w)
  | Db_backup d f => cmd_db_backup locate (open_db_ w) (size_of_ w) (copied_ w) d d f
  | Db_stats j => cmd_db_stats j
  | Onboard_git j r c m f d =>
      cmd_onboard_git text_of (em_dash_ w) (label_dash w) (git_ w) (environ_ w) (git_clock w) (fresh_id w) (moment w) j r c m f d
  | Maintenance_list j => cmd_maintenance_list (environ_ w) file_configs j
  | Maintenance_run_once job => cmd_maintenance_run_once text_of (handler configured) job
  | Serve_ h p => cmd_serve server (environ_ w) file_configs h p
  | Usage text failing => say text ;; ret (if failing then 1 else 0)
  | _ => ret 0
  end.
(** The commands before any container; [None] for the others. *)
Definition run_early (c : command) : option (SE P Container.startup_error Z) :=
  let early (m : SE P exn Z) : SE P Container.startup_error Z :=
    λ p, match m p with (p, Ok z) => (p, Ok z) | (p, Raise e) => (p, Raise (Container.Startup e)) end in
  match c with
  | Init j => Some (early (cmd_init (locate_ w) (parent_of_ w) (environ_ w) j))
  | Version j => Some (early (cmd_version (installed_version w) (revision_file w) (python_version_ w) j))
  | Config_show j =>
      Some (cmd_config_show (loads_ w) (environ_ w) (Container.config_dir_exists (building w)) (Container.core_json (building w)) j)
  | Early_usage text => Some (early (say text ;; ret 0))
  | _ => None
  end.
Definition is_serve (c : command) : bool := match c with Serve_ _ _ => true | _ => false end.
(** [cli/main.py:13-28 _build_container] The error goes to the log of [serve], or to
    standard error; no option sets the configuration directory. *)
Definition start_container (c : command) : Container.store_state * (Container.container + list string) :=
  match Container.build_container (environ_ w) (loads_ w) (parent_of_ w (db_file_ w)) (building w) Container.Unopened with
  | (st, Ok k) => (st, inl k)
  | (st, Raise e) => (st, inr (if is_serve c then [] else [startup_text w e]))
  end.
(** [cli/main.py:238-281 main] The help and the usage are argparse's; leaving
    [with container] closes the store, whatever happened. *)
Definition main (argv : list string) (p : P) : finished (svc S E) :=
  match parse_args oc_parser argv with
  | UsageError => mkFinished p Container.Unopened [] (Exited 2)
  | HelpShown => mkFinished p Container.Unopened [] (Exited 0)
  | Parsed ns _ =>
      match command_of ns with
      | None => mkFinished p Container.Unopened [] (Traceback AttributeError)
      | Some No_command => mkFinished p Container.Unopened [] (Exited 0)
      | Some c =>
          match run_early c with
          | Some m =>
              match m p with
              | (p, Ok z) => mkFinished p Container.Unopened [] (Exited z)
              | (p, Raise e) =>
                  mkFinished (mkProcess (app p) (disk p) (printed p ++ [Line (startup_text w e)])) Container.Unopened [] (Exited 1)
              end
          | None =>
              match start_container c with
              | (st, inr errors) => mkFinished p st errors (Exited 1)
              | (_, inl k) =>
                  match run_command (some_b (Container.embedding_port k)) (Container.file_configs k) c p with
                  | (p, Ok z) => mkFinished p Container.Closed [] (Exited z)
                  | (p, Raise e) => mkFinished p Container.Closed [] (Traceback e)
                  end
              end
          end
      end
  end.
End program.
