(* ===== verification/CliProps.v ===== *)
(** * What the command line guarantees

    Whatever is typed, a namespace the parser lets through has every value its command
    reads, of the type it reads it at; an export leaves the old file or the whole new
    one; what only shows or previews changes nothing; and the store is closed on every
    way out. *)

From S2P Require Import Prelude PyStr PyText Sha256 Domain DateTime PyNum PyRepr Sql Store Transactions Port StoreProps SearchProps.
From S2P Require Import Embedding EmbeddingProps Search Envelope Config Http Serializers UseCases Surfaces GitLog GitCluster GitOnboard FileSystem Backups.
From S2P Require Import Argparse Cli.
From S2P Require Container ContainerProps.
From S2P Require Import Backfill SearchWitness.
Local Open Scope Z_scope.
Local Open Scope prog_scope.

(** ** The parser *)

Lemma parser_induction (Q : parser → Prop) :
  (∀ opts groups pos, (∀ d subs, pos = subcommands d subs → Forall (λ nq, Q nq.2) subs) → Q (Parser opts groups pos)) →
  ∀ p, Q p.
Proof.
  intros H. fix IH 1. intros [opts groups pos]. apply H. destruct pos as [|d|d subs]; [done|done|].
  assert (Forall (λ nq, Q nq.2) subs) as HF.
  { induction subs as [|[n q] subs IHs]; constructor; [exact (IH q)|exact IHs]. }
  intros d' subs' E. injection E as _ <-. exact HF.
Qed.

#[local] Instance conversion_eq_dec : EqDecision conversion.
Proof. solve_decision. Defined.
#[local] Instance arg_action_eq_dec : EqDecision arg_action.
Proof. solve_decision. Defined.
#[local] Instance option_spec_eq_dec : EqDecision option_spec.
Proof. solve_decision. Defined.

(** The values an option may have: what its action makes, or its default. *)
Definition kind_ok (o : option_spec) (v : arg_value) : bool :=
  match opt_action o, v with
  | store (to_str choices), VStr s =>
      bool_decide (choices = []) || bool_decide (s ∈ choices) || bool_decide (opt_default o = VStr s)
  | store to_int, VInt _ | store_const _, VBool _ => true
  | _, VNone => bool_decide (opt_default o = VNone)
  | _, _ => false
  end.
Definition is_const (o : option_spec) : bool := match opt_action o, opt_default o with store_const _, VBool _ => true | _, _ => false end.
Definition pos_dest (pos : positional parser) : list string :=
  match pos with no_positional => [] | one_argument d | subcommands d _ => [d] end.
Fixpoint dests (p : parser) : list string :=
  match p with
  | Parser opts _ pos =>
      map opt_dest opts ++ pos_dest pos ++
      match pos with
      | subcommands _ subs =>
          (fix all (subs : list (string * parser)) : list string :=
             match subs with [] => [] | (_, q) :: subs => dests q ++ all subs end) subs
      | _ => []
      end
  end.
(** Declarations that do not get in each other's way: defaults have the type of their
    option, two options share a destination only if they are flags, and a parser with
    sub-commands has no options and a destination of its own. *)
Fixpoint coherent (p : parser) : bool :=
  match p with
  | Parser opts _ pos =>
      forallb (λ o, kind_ok o (opt_default o)
        && forallb (λ o', bool_decide (opt_dest o ≠ opt_dest o') || bool_decide (o = o') || is_const o && is_const o') opts
        && forallb (λ o', bool_decide (flag o ≠ flag o') || bool_decide (opt_dest o = opt_dest o')) opts
        && negb (bool_decide (opt_dest o ∈ pos_dest pos))) opts
      && match pos with
         | subcommands d subs =>
             bool_decide (opts = []) &&
             (fix all (subs : list (string * parser)) : bool :=
                match subs with [] => true | (_, q) :: subs => coherent q && negb (bool_decide (d ∈ dests q)) && all subs end) subs
         | _ => true
         end
  end.
(** Every option has a value of its kind, and so on down the sub-command that was given. *)
Fixpoint well_typed (p : parser) (ns : namespace) : Prop :=
  match p with
  | Parser opts _ pos =>
      Forall (λ o, ∃ v, ns !! opt_dest o = Some v ∧ kind_ok o v = true ∧ (opt_required o = true → v ≠ VNone)) opts ∧
      match pos with
      | no_positional => True
      | one_argument d => ∃ s, ns !! d = Some (VStr s)
      | subcommands d subs =>
          ns !! d = Some VNone ∨
          (fix any (subs : list (string * parser)) : Prop :=
             match subs with [] => False | (n, q) :: subs => (ns !! d = Some (VStr n) ∧ well_typed q ns) ∨ any subs end) subs
      end
  end.

Lemma well_typed_mono p ns ns' : ns ⊆ ns' → well_typed p ns → well_typed p ns'.
Proof.
  intros Hs. assert (∀ k v, ns !! k = Some v → ns' !! k = Some v) as Hl by (intros; by eapply lookup_weaken).
  revert p. apply (parser_induction (λ p, well_typed p ns → well_typed p ns')). intros opts groups pos IH [Ho Hp].
  split; [eapply Forall_impl; [exact Ho|]; naive_solver|].
  destruct pos as [|d|d subs]; [done|naive_solver|]. destruct Hp as [Hp|Hp]; [left; auto|right].
  specialize (IH d subs eq_refl). induction IH as [|[n q] subs Hq _ IHs]; [done|].
  destruct Hp as [[Hd Hw]|Hp]; [left; auto|right; exact (IHs Hp)].
Qed.

(** *** One level *)

Section level.
Context (opts : list option_spec) (groups : list exclusive) (pos : positional parser).
Context (sub : string → list string → parsed) (D : gset string) (Q : string → namespace → Prop).
Hypothesis opts_ok : ∀ o, o ∈ opts →
  kind_ok o (opt_default o) = true ∧ opt_dest o ∉ pos_dest pos ∧ opt_dest o ∈ D ∧
  (∀ o', o' ∈ opts → opt_dest o = opt_dest o' → o = o' ∨ is_const o = true ∧ is_const o' = true) ∧
  (∀ o', o' ∈ opts → flag o = flag o' → opt_dest o = opt_dest o').
Hypothesis pos_in : ∀ d, d ∈ pos_dest pos → d ∈ D.
Hypothesis no_options : ∀ d subs, pos = subcommands d subs → opts = [].
Hypothesis sub_ok : ∀ d subs name rest ns ex, pos = subcommands d subs → sub name rest = Parsed ns ex →
  Q name ns ∧ dom ns ⊆ D ∧ d ∉ dom ns.
Hypothesis Q_mono : ∀ name ns ns', ns ⊆ ns' → Q name ns → Q name ns'.

Definition options_typed (ns : namespace) : Prop := ∀ o, o ∈ opts → ∃ v, ns !! opt_dest o = Some v ∧ kind_ok o v = true.
Definition positional_typed (ns : namespace) : Prop :=
  match pos with
  | no_positional => True
  | one_argument d => ∃ s, ns !! d = Some (VStr s)
  | subcommands d _ => ns !! d = Some VNone ∨ ∃ name, ns !! d = Some (VStr name) ∧ Q name ns
  end.
Definition required_given (ns : namespace) : Prop := ∀ o, o ∈ opts → opt_required o = true → ns !! opt_dest o ≠ Some VNone.
Definition typed (ns : namespace) : Prop := options_typed ns ∧ required_given ns ∧ positional_typed ns ∧ dom ns ⊆ D.
Definition given (st : pstate) : Prop := ∀ o, o ∈ opts → flag o ∈ st_taken st → st_ns st !! opt_dest o ≠ Some VNone.
Definition good (st : pstate) : Prop :=
  options_typed (st_ns st) ∧ given st ∧ dom (st_ns st) ⊆ D ∧
  (st_pending st = pos ∧ (∀ d subs, pos = subcommands d subs → st_ns st !! d = Some VNone)
   ∨ st_pending st = no_positional ∧ positional_typed (st_ns st)).
Definition item_ok (i : item) : Prop :=
  match i with Opt _ cs => ∀ o e, Declared o e ∈ cs → o ∈ opts | _ => True end.

Lemma kind_ok_const o b b' : opt_action o = store_const b' → kind_ok o (VBool b) = true.
Proof. unfold kind_ok. by intros ->. Qed.
Lemma kind_ok_bool o b : is_const o = true → kind_ok o (VBool b) = true.
Proof. unfold is_const, kind_ok. by destruct (opt_action o). Qed.

Lemma options_typed_insert ns o v :
  o ∈ opts → (is_const o = true → ∃ b, v = VBool b) → kind_ok o v = true → options_typed ns → options_typed (<[opt_dest o := v]> ns).
Proof.
  intros Ho Hb Hv Ht o' Ho'. destruct (decide (opt_dest o = opt_dest o')) as [E|E].
  - exists v. rewrite E, lookup_insert_eq. split; [done|].
    destruct (opts_ok o Ho) as (_&_&_&H&_). destruct (H o' Ho' E) as [<-|[H1 H2]]; [done|].
    destruct (Hb H1) as [b ->]. by apply kind_ok_bool.
  - rewrite lookup_insert_ne by done. by apply Ht.
Qed.
Lemma options_typed_frame ns d v : d ∈ pos_dest pos → options_typed ns → options_typed (<[d := v]> ns).
Proof.
  intros Hd Ht o Ho. destruct (opts_ok o Ho) as (_&H&_). rewrite lookup_insert_ne by (intros ->; done). by apply Ht.
Qed.

Lemma take_good o v st st' : o ∈ opts → (is_const o = true → ∃ b, v = VBool b) → kind_ok o v = true → v ≠ VNone →
  good st → take groups o v st = Some st' → good st'.
Proof.
  intros Ho Hb Hv Hnone (Ht&Hgv&Hd&Hp) H. unfold take in H. destruct (excluded _ _ _); [done|]. injection H as <-. unfold good; simpl.
  destruct (opts_ok o Ho) as (_&Hn&HD&_&Hflag).
  assert (∀ d subs, pos ≠ subcommands d subs) as Hno.
  { intros d subs E. rewrite (no_options d subs E) in Ho. by apply not_elem_of_nil in Ho. }
  split; [by apply options_typed_insert|]. split.
  { intros o' Ho' Ht'. simpl in *. destruct (decide (opt_dest o = opt_dest o')) as [E|E]; [rewrite E, lookup_insert_eq; congruence|].
    rewrite lookup_insert_ne by done. apply Hgv; [done|]. apply elem_of_cons in Ht' as [Hf|Hf]; [|done].
    destruct E. by apply Hflag. }
  split; [set_solver|]. destruct Hp as [[-> Hs]|[-> Hs]].
  - left. split; [done|]. intros d subs E. by destruct (Hno d subs).
  - right. split; [done|]. unfold positional_typed in *. destruct pos as [|d|d subs]; [done| |by destruct (Hno d subs)].
    rewrite lookup_insert_ne; [done|]. intros E. simpl in Hn. apply Hn. rewrite E. by left.
Qed.
Lemma convert_kind c s v o : opt_action o = store c → convert c s = Some v → kind_ok o v = true ∧ is_const o = false ∧ v ≠ VNone.
Proof.
  intros E. unfold convert, kind_ok, is_const. rewrite E. destruct c as [choices|].
  - destruct (_ || _) eqn:Ec; [|done]. intros [= <-]. by rewrite Ec.
  - destruct (py_int s); [|done]. by intros [= <-].
Qed.
Lemma stored_good o c s st st' : o ∈ opts → opt_action o = store c → good st →
  convert c s ≫= (λ v, take groups o v st) = Some st' → good st'.
Proof.
  intros Ho Ha Hg H. destruct (convert c s) as [v|] eqn:Ec; [|done]. destruct (convert_kind c s v o Ha Ec) as (Hk&Hc&Hn).
  eapply take_good; [exact Ho| |exact Hk|exact Hn|exact Hg|exact H]. by rewrite Hc.
Qed.
Lemma argument_good d s st : pos = one_argument d → good st → good (set_argument d s st).
Proof.
  intros E (Ht&Hgv&Hd&_). unfold good; simpl.
  assert (d ∈ pos_dest pos) as Hin by (rewrite E; simpl; set_solver).
  split; [by apply options_typed_frame|].
  split. { intros o Ho Hf. simpl. destruct (opts_ok o Ho) as (_&Hn&_). rewrite lookup_insert_ne by (intros ->; done). by apply Hgv. }
  split; [specialize (pos_in d Hin); set_solver|]. right. split; [done|].
  unfold positional_typed. rewrite E. exists s. apply lookup_insert_eq.
Qed.
Lemma finish_typed st ns ex : good st → finish opts groups st = Parsed ns ex → typed ns.
Proof.
  intros (Ht&Hgv&Hd&Hp) H. unfold finish in H. destruct (_ || _) eqn:E in H; [done|]. injection H as <- <-.
  apply orb_false_iff in E as [E _]. apply orb_false_iff in E as [Er E].
  split; [done|]. split.
  { intros o Ho Hr. apply Hgv; [done|]. destruct (decide (flag o ∈ st_taken st)) as [|Hf]; [done|exfalso].
    apply not_true_iff_false in Er. apply Er, existsb_exists. exists o. split; [by apply list_elem_of_In|].
    rewrite Hr. by rewrite bool_decide_eq_false_2. }
  split; [|done]. destruct Hp as [[Hpos Hs]|[_ Hs]]; [|done].
  rewrite Hpos in E. unfold positional_typed. destruct pos as [|d|d subs] eqn:E'; [done|done|left; by eapply Hs].
Qed.
Lemma subcommand_typed d subs words st ns ex : pos = subcommands d subs → good st →
  subcommand opts groups sub d words st = Parsed ns ex → typed ns.
Proof.
  intros E Hg H. destruct words as [|name rest]; simpl in H; [by eapply finish_typed|].
  destruct (sub name rest) as [ns' ex'| |] eqn:Es; [|done..]. destruct (sub_ok d subs name rest ns' ex' E Es) as (HQ&Hd'&Hnd).
  destruct Hg as (Ht&Hgv&Hd&_). eapply finish_typed; [|exact H]. unfold good; simpl.
  assert (∀ o, o ∉ opts) as Hno by (intros o; rewrite (no_options d subs E); set_solver).
  split; [intros o Ho; by destruct (Hno o)|]. split; [intros o Ho; by destruct (Hno o)|].
  split; [rewrite dom_union_L, dom_insert_L; assert (d ∈ D) by (apply pos_in; rewrite E; simpl; set_solver); set_solver|].
  right. split; [done|]. unfold positional_typed. rewrite E. right. exists name. split.
  - rewrite lookup_union_r by (by apply not_elem_of_dom). apply lookup_insert_eq.
  - eapply Q_mono; [|exact HQ]. apply map_union_subseteq_l.
Qed.
Lemma extra_good s st : good st → good (add_extra s st).
Proof. done. Qed.

Lemma walk_typed items st ns ex :
  Forall item_ok items → good st → walk opts groups sub items st = Parsed ns ex → typed ns.
Proof.
  remember (length items) as n eqn:Hn. revert items Hn st. induction (lt_wf n) as [n _ IH]. intros items -> st Hi Hg H.
  assert (∀ items' st', (length items' < length items)%nat → Forall item_ok items' → good st' →
    walk opts groups sub items' st' = Parsed ns ex → typed ns) as IH' by (intros; by eapply IH). clear IH.
  destruct items as [|i items]; [by eapply finish_typed|]. inversion Hi as [|i' l' Hio Hrest]; subst i' l'.
  destruct i as [s cs|s|].
  - destruct cs as [|c [|c' cs]]; simpl in H; [by eapply IH'; [| | |exact H]; simpl; auto| |by destruct c].
    destruct c as [single eq explicit|o explicit].
    { destruct explicit as [l|]; simpl in H; [|done]. by case_match. }
    assert (o ∈ opts) as Ho by (apply (Hio o explicit); by left).
    destruct (opt_action o) as [c|b] eqn:Ea.
    + destruct explicit as [e|].
      * destruct (convert _ _ ≫= _) as [st'|] eqn:Et; [|done].
        eapply IH'; [| | |exact H]; simpl; auto. by eapply stored_good.
      * destruct items as [|[| |] items]; [done|done| |done].
        destruct (convert _ _ ≫= _) as [st'|] eqn:Et; [|done]. inversion Hrest; subst.
        eapply IH'; [| | |exact H]; simpl; auto. by eapply stored_good.
    + destruct explicit as [e|]; [done|].
      destruct (take _ _ _ _) as [st'|] eqn:Et; [|done].
      eapply IH'; [| | |exact H]; simpl; auto.
      eapply take_good; [exact Ho| |by eapply kind_ok_const|done|exact Hg|exact Et]. intros _. by eexists.
  - simpl in H. destruct (st_pending st) as [|d|d subs] eqn:Ep.
    + by eapply IH'; [| | |exact H]; simpl; auto.
    + assert (pos = one_argument d) as E by (destruct Hg as (_&_&_&[[E _]|[E _]]); congruence).
      assert (∃ items', (length items' <= length items)%nat ∧ Forall item_ok items' ∧
        walk opts groups sub items' (set_argument d s st) = Parsed ns ex) as (items'&Hl&Hok&Hw).
      { destruct items as [|[r cs|r|] items]; [by exists []|by eexists (_ :: _)|by eexists (_ :: _)|].
        exists items. inversion Hrest. split; [simpl; lia|done]. }
      eapply (IH' items'); [simpl; lia|done|by apply argument_good|done].
    + assert (pos = subcommands d subs) as E by (destruct Hg as (_&_&_&[[E _]|[E _]]); congruence).
      exact (subcommand_typed d subs (s :: map raw items) st ns ex E Hg H).
  - simpl in H. destruct (st_pending st) as [|d|d subs] eqn:Ep.
    + by eapply IH'; [| | |exact H]; simpl; auto.
    + assert (pos = one_argument d) as E by (destruct Hg as (_&_&_&[[E _]|[E _]]); congruence).
      destruct items as [|[r cs|r|] items]; try (by eapply (IH' _ (add_extra "--" st)); [| | |exact H]; simpl; auto).
      inversion Hrest; subst. eapply (IH' items (set_argument d r st)); [simpl; lia|done|by apply argument_good|done].
    + assert (pos = subcommands d subs) as E by (destruct Hg as (_&_&_&[[E _]|[E _]]); congruence).
      destruct items as [|[r cs|r|] items]; try (by eapply (IH' _ (add_extra "--" st)); [| | |exact H]; simpl; auto).
      exact (subcommand_typed d subs (r :: map raw items) st ns ex E Hg H).
Qed.
End level.

(** *** The whole parser *)

Lemma exact_declared opts s e' o e : exact opts s e' = Some (Declared o e) → o ∈ opts.
Proof.
  unfold exact. repeat (case_bool_decide; [discriminate|]).
  unfold find_option. destruct (find _ _) as [o'|] eqn:Ef; [|done]. intros [= <- _].
  apply List.find_some in Ef as [Hin _]. by apply list_elem_of_In.
Qed.
Lemma abbreviated_declared opts l o e : Declared o e ∈ abbreviated opts l → o ∈ opts.
Proof.
  unfold abbreviated. destruct (cut_eq l) as [prefix explicit]. destruct l as [|c [|c' l]]; [set_solver..|].
  case_bool_decide.
  - rewrite elem_of_app. intros [H'|H'].
    + destruct (is_prefix _ _); [|set_solver]. apply list_elem_of_singleton in H'. discriminate.
    + apply list_elem_of_fmap in H' as (o'&[= <- _]&Ho). by apply list_elem_of_filter in Ho as [_ Ho].
  - case_bool_decide; [|set_solver]. intros H'. apply list_elem_of_singleton in H'. discriminate.
Qed.
Lemma classify_ok opts s : item_ok opts (classify opts s).
Proof.
  unfold classify. destruct (chars s) as [|c [|c' l]]; [done|done|]. destruct (negb _); [done|].
  destruct (exact opts s None) as [k|] eqn:E1.
  { intros o e H. apply list_elem_of_singleton in H as <-. by eapply exact_declared. }
  destruct (cut_eq _) as [a [b|]] eqn:Ec; [destruct (exact opts (of_chars a) (Some b)) as [k|] eqn:E2|].
  { intros o e H. apply list_elem_of_singleton in H as <-. by eapply exact_declared. }
  all: destruct (abbreviated _ _) as [|k ks] eqn:Ea; [destruct (_ || _); [done|intros o e H; set_solver]|].
  all: intros o e H; rewrite <-Ea in H; by eapply abbreviated_declared.
Qed.
Lemma items_ok opts args : Forall (item_ok opts) (items_of opts args).
Proof.
  induction args as [|s args IH]; simpl; [constructor|]. case_bool_decide.
  - constructor; [done|]. apply Forall_forall. intros i Hi. apply list_elem_of_fmap in Hi as (?&->&_). done.
  - constructor; [apply classify_ok|done].
Qed.
Lemma defaults_lookup opts (ns : namespace) o : o ∈ opts → ∃ o', o' ∈ opts ∧ opt_dest o' = opt_dest o ∧
  foldr (λ o ns, <[opt_dest o := opt_default o]> ns) ns opts !! opt_dest o = Some (opt_default o').
Proof.
  induction opts as [|o1 opts IH]; [set_solver|]. intros Ho. simpl.
  destruct (decide (opt_dest o1 = opt_dest o)) as [E|E].
  - exists o1. rewrite E, lookup_insert_eq. split_and!; [by left|done|done].
  - rewrite lookup_insert_ne by done. apply elem_of_cons in Ho as [->|Ho]; [done|].
    destruct (IH Ho) as (o'&?&?&?). exists o'. split_and!; [by right|done|done].
Qed.
Lemma defaults_other opts (ns : namespace) k : (∀ o, o ∈ opts → opt_dest o ≠ k) →
  foldr (λ o ns, <[opt_dest o := opt_default o]> ns) ns opts !! k = ns !! k.
Proof.
  induction opts as [|o opts IH]; intros H; simpl; [done|]. rewrite lookup_insert_ne by set_solver. apply IH. set_solver.
Qed.
Lemma defaults_dom opts (ns : namespace) :
  dom (foldr (λ o ns, <[opt_dest o := opt_default o]> ns) ns opts) = list_to_set (map opt_dest opts) ∪ dom ns.
Proof. induction opts as [|o opts IH]; simpl; [set_solver|]. rewrite dom_insert_L, IH. set_solver. Qed.

(** The inner functions of [parse_known], [dests], [coherent] and [well_typed], by the
    sub-command they meet. *)
Lemma dests_sub d (subs : list (string * parser)) n q : (n, q) ∈ subs → ∀ k, k ∈ dests q → k ∈ dests (Parser [] [] (subcommands d subs)).
Proof.
  intros Hin k Hk. simpl. right. induction subs as [|[n' q'] subs IH]; [set_solver|].
  apply elem_of_app. apply elem_of_cons in Hin as [[= -> ->]|Hin]; [by left|right; auto].
Qed.
Lemma coherent_sub groups d subs n q : coherent (Parser [] groups (subcommands d subs)) = true → (n, q) ∈ subs →
  coherent q = true ∧ d ∉ dests q.
Proof.
  simpl. intros H Hin. induction subs as [|[n' q'] subs IH]; [set_solver|].
  apply andb_true_iff in H as [H Hs]. apply andb_true_iff in H as [Hq Hd].
  apply elem_of_cons in Hin as [[= -> ->]|Hin]; [|auto]. split; [done|].
  by apply negb_true_iff, bool_decide_eq_false in Hd.
Qed.
Lemma well_typed_sub groups d subs n q ns : (n, q) ∈ subs → ns !! d = Some (VStr n) → well_typed q ns →
  well_typed (Parser [] groups (subcommands d subs)) ns.
Proof.
  intros Hin Hd Hw. simpl. split; [constructor|]. right. induction subs as [|[n' q'] subs IH]; [set_solver|].
  apply elem_of_cons in Hin as [[= -> ->]|Hin]; [by left|right; exact (IH Hin)].
Qed.
Lemma picked (subs : list (string * parser)) name rest ns ex :
  (fix pick (subs : list (string * parser)) : parsed :=
     match subs with
     | [] => UsageError
     | (n, q) :: subs => if bool_decide (n = name) then parse_known q rest else pick subs
     end) subs = Parsed ns ex → ∃ q, (name, q) ∈ subs ∧ parse_known q rest = Parsed ns ex.
Proof.
  induction subs as [|[n q] subs IH]; [done|]. case_bool_decide as E.
  - subst n. intros H. exists q. split; [by left|done].
  - intros H. destruct (IH H) as (q'&?&?). exists q'. split; [by right|done].
Qed.

Lemma coherent_options opts groups pos : coherent (Parser opts groups pos) = true → ∀ o, o ∈ opts →
  kind_ok o (opt_default o) = true ∧ opt_dest o ∉ pos_dest pos ∧
  (∀ o', o' ∈ opts → opt_dest o = opt_dest o' → o = o' ∨ is_const o = true ∧ is_const o' = true) ∧
  (∀ o', o' ∈ opts → flag o = flag o' → opt_dest o = opt_dest o').
Proof.
  simpl. intros H o Ho. apply andb_true_iff in H as [H _]. rewrite forallb_forall in H.
  specialize (H o ltac:(by apply list_elem_of_In)). apply andb_true_iff in H as [H Hp]. apply andb_true_iff in H as [H Hf].
  apply andb_true_iff in H as [Hk Hs]. rewrite forallb_forall in Hs, Hf.
  split_and!; [done|by apply negb_true_iff, bool_decide_eq_false in Hp| |]; intros o' Ho' E.
  2: { specialize (Hf o' ltac:(by apply list_elem_of_In)). apply orb_true_iff in Hf as [Hf|Hf]; by apply bool_decide_eq_true in Hf. }
  specialize (Hs o' ltac:(by apply list_elem_of_In)).
  apply orb_true_iff in Hs as [Hs|Hs]; [apply orb_true_iff in Hs as [Hs|Hs]|].
  - by apply bool_decide_eq_true in Hs.
  - left. by apply bool_decide_eq_true in Hs.
  - right. by apply andb_true_iff in Hs.
Qed.
Lemma coherent_no_options opts groups d subs : coherent (Parser opts groups (subcommands d subs)) = true → opts = [].
Proof. simpl. intros H. apply andb_true_iff in H as [_ H]. apply andb_true_iff in H as [H _]. by apply bool_decide_eq_true in H. Qed.

Lemma start_good opts groups pos (D : gset string) Q : coherent (Parser opts groups pos) = true →
  (∀ k, k ∈ map opt_dest opts ++ pos_dest pos → k ∈ D) → good opts pos D Q (mkState (defaults opts pos) [] [] pos).
Proof.
  intros Hc HD. pose proof (coherent_options _ _ _ Hc) as Ho. unfold good, defaults; simpl.
  split; [|split; [intros o _ Hf; by apply not_elem_of_nil in Hf|split; [|left; split; [done|]]]].
  - intros o Hin. destruct (defaults_lookup opts (match pos with no_positional => ∅ | one_argument d | subcommands d _ => {[d := VNone]} end) o Hin)
      as (o'&Hin'&E&->). eexists. split; [done|]. destruct (Ho o' Hin') as (Hk&_&Hs&_).
    destruct (Hs o Hin E) as [->|[H1 H2]]; [done|]. unfold is_const in H1.
    destruct (opt_action o'), (opt_default o') eqn:Ed; try done. by apply kind_ok_bool.
  - rewrite defaults_dom. intros k Hk. apply HD. destruct pos; simpl in *; set_solver.
  - intros d subs ->. rewrite defaults_other; [apply lookup_singleton_eq|].
    intros o Hin E. destruct (Ho o Hin) as (_&Hn&_). apply Hn. simpl. rewrite E. by left.
Qed.

Definition sub_typed (pos : positional parser) (name : string) (ns : namespace) : Prop :=
  match pos with subcommands _ subs => ∃ q, (name, q) ∈ subs ∧ well_typed q ns | _ => False end.

Lemma parse_known_typed p : coherent p = true → ∀ args ns ex,
  parse_known p args = Parsed ns ex → well_typed p ns ∧ dom ns ⊆ list_to_set (dests p).
Proof.
  revert p. apply (parser_induction (λ p, coherent p = true → ∀ args ns ex,
    parse_known p args = Parsed ns ex → well_typed p ns ∧ dom ns ⊆ list_to_set (dests p))).
  intros opts groups pos IH Hc args ns ex H.
  set (D := list_to_set (dests (Parser opts groups pos)) : gset string).
  assert (∀ k, k ∈ map opt_dest opts ++ pos_dest pos → k ∈ D) as HD.
  { intros k Hk. apply elem_of_list_to_set. simpl. rewrite app_assoc. apply elem_of_app. by left. }
  pose proof (coherent_options _ _ _ Hc) as Ho.
  assert (typed opts pos D (sub_typed pos) ns) as (Ht&Hr&Hp&Hd).
  { simpl in H. eapply (walk_typed opts groups pos _ D (sub_typed pos)); [..|exact H].
    - intros o Hin. destruct (Ho o Hin) as (?&?&?&?). split_and!; try done. apply HD, elem_of_app. left. by apply list_elem_of_fmap_2.
    - intros d Hin. apply HD, elem_of_app. by right.
    - intros d subs E. rewrite E in Hc. by eapply coherent_no_options.
    - intros d subs name rest ns' ex' E Hs. rewrite E in Hs. apply picked in Hs as (q&Hq&Hk).
      specialize (IH d subs E). rewrite Forall_forall in IH. rewrite E in Hc. pose proof (coherent_no_options _ _ _ _ Hc) as Hn. subst opts.
      destruct (coherent_sub _ _ _ _ _ Hc Hq) as [Hcq Hdq].
      destruct (IH (name, q) Hq Hcq rest ns' ex' Hk) as [Hw Hdom]. split_and!.
      + unfold sub_typed. rewrite E. by exists q.
      + unfold D. rewrite E. intros k Hin. apply elem_of_list_to_set. eapply (dests_sub d subs name q Hq).
        apply Hdom in Hin. by apply elem_of_list_to_set in Hin.
      + intros Hin. apply Hdom, elem_of_list_to_set in Hin. done.
    - intros name ns1 ns2 Hs. unfold sub_typed. destruct pos; try done. intros (q&?&?). exists q. split; [done|]. by eapply well_typed_mono.
    - apply items_ok.
    - by eapply (start_good _ groups). }
  split; [|exact Hd]. unfold positional_typed in Hp.
  assert (Forall (λ o, ∃ v, ns !! opt_dest o = Some v ∧ kind_ok o v = true ∧ (opt_required o = true → v ≠ VNone)) opts) as Hall.
  { apply Forall_forall. intros o Hin. destruct (Ht o Hin) as (v&Hv&Hk). exists v. split_and!; try done.
    intros Hq ->. by apply (Hr o Hin Hq). }
  destruct pos as [|d|d subs]; [done|done|].
  rewrite (coherent_no_options _ _ _ _ Hc). destruct Hp as [Hp|(name&Hp&q&Hq&Hw)].
  - split; [constructor|by left].
  - by eapply well_typed_sub.
Qed.

(** ** Commands *)

Lemma oc_parser_coherent : coherent oc_parser = true.
Proof. vm_compute. reflexivity. Qed.

Lemma chosen_some t fallback n e : find (λ e : string * option command, bool_decide (e.1 = n)) t = Some e →
  is_Some e.2 → is_Some (chosen t fallback (Some n)).
Proof. unfold chosen. by intros ->. Qed.
(** What a typed option lets a command read. *)
Ltac read_as r k :=
  let x := fresh "x" in
  assert (∃ x, r k = Some x) as [x ?] by
    (match goal with
     | H : _ !! k = Some ?v, Hk : kind_ok _ ?v = true ∧ _ |- _ =>
         unfold arg_str, arg_opt_str, arg_int, arg_opt_int, arg_bool; rewrite H; destruct v; first
           [ by eexists | by destruct (proj2 Hk eq_refl) | by (exfalso; clear -Hk; vm_compute in Hk; destruct Hk) ]
     end).
Ltac read_options ns :=
  repeat match goal with
  | H : ns !! ?k = Some ?v, Hk : kind_ok _ ?v = true ∧ _ |- _ =>
      first [read_as (arg_str ns) k | read_as (arg_bool ns) k | read_as (arg_int ns) k
        | read_as (arg_opt_str ns) k | read_as (arg_opt_int ns) k]; clear H Hk v
  end.
Ltac open_typed :=
  repeat match goal with
  | H : _ ∨ _ |- _ => destruct H
  | H : Forall _ (_ :: _) |- _ => inversion H; clear H; subst
  | H : Forall _ [] |- _ => clear H
  | H : False |- _ => destruct H
  | H : ∃ v, _ !! _ = Some v ∧ _ |- _ => destruct H as (?&?&?)
  | H : ∃ s, _ !! _ = Some (VStr s) |- _ => destruct H as [? ?]
  | H : Forall _ _ ∧ _ |- _ => destruct H
  | H : _ !! _ = Some _ ∧ _ |- _ => destruct H
  end.
Lemma arg_str_lookup ns k s : ns !! k = Some (VStr s) → arg_str ns k = Some s.
Proof. unfold arg_str. by intros ->. Qed.
Lemma arg_opt_str_some ns k s : ns !! k = Some (VStr s) → arg_opt_str ns k = Some (Some s).
Proof. unfold arg_opt_str. by intros ->. Qed.
Lemma arg_opt_str_none ns k : ns !! k = Some VNone → arg_opt_str ns k = Some None.
Proof. unfold arg_opt_str. by intros ->. Qed.

Ltac read_strings ns :=
  repeat match goal with
  | H : ns !! _ = Some VNone |- _ => apply arg_opt_str_none in H
  | H : ns !! ?k = Some (VStr _) |- _ => pose proof (arg_str_lookup _ _ _ H); apply arg_opt_str_some in H
  end.
(** The entry of a table, and what it reads. *)
Ltac choose_entry :=
  match goal with
  | |- is_Some (chosen ?t ?f (Some ?n)) =>
      eapply chosen_some; [cbn; reflexivity|cbn [snd]]
  | |- is_Some (chosen _ _ None) => by eexists
  end.
Ltac read_command ns :=
  unfold command_of;
  repeat first
   [ match goal with H : ?r ns ?k = Some _ |- context [?r ns ?k] => rewrite H; cbn [mbind option_bind fmap option_fmap option_map] end
   | choose_entry
   | progress unfold memory_command, db_command, onboard_command, maintenance_command, config_command
   | by eexists ].

(** Whatever is typed, a namespace the parser lets through has every value its command
    reads, of the type it reads it at. *)
Lemma parser_fits_handlers argv :
  match parse_args oc_parser argv with
  | Parsed ns extras => extras = [] ∧ is_Some (command_of ns)
  | _ => True
  end.
Proof.
  unfold parse_args. destruct (parse_known oc_parser argv) as [ns [|x extras]| |] eqn:E; try done. split; [done|].
  apply parse_known_typed in E as [Hw _]; [|exact oc_parser_coherent].
  unfold oc_parser in Hw. simpl in Hw. open_typed.
  all: unfold JSON, CONFIRM, FORCE, switch, option_ in *; cbn [opt_dest] in *.
  all: read_options ns; read_strings ns.
  all: read_command ns.
Qed.

(** ** What only reads *)

Section reading.
Context {S E : Type} `{HF : FTS5} `{!MemoryStorePort S} `{!EmbeddingPort E}.
Context `{HN : Numpy} `{HO : SetOrder}.
Context (utc_now : nat → Z).

(** A store that shows [d], a service alone with such a store, and a process with such
    a service and the files [F]. *)
Definition store_at (d : db) (t : S) : Prop := st_ok t ∧ st_view t = d.
Definition service_at (d : db) (s : svc S E) : Prop := store_at d (sv_store s) ∧ sv_others s = [].
Definition process_at (d : db) (F : fs) (p : process (svc S E)) : Prop := service_at d (app p) ∧ files (disk p) = F.

Lemma store_reads {A} d (m : SE S exn A) f : st_runs m f → (∀ b d, (f b d).1 = d) → preserves (store_at d) m.
Proof.
  intros Hm Hf t [Hok Hv]. destruct (run_op m f _ Hm Hok) as (t'&Hrun&Hok'&_&Hv'). rewrite Hrun. split; [done|]. simpl.
  by rewrite Hv', Hf.
Qed.
Lemma service_store {A} d (m : SE S exn A) : preserves (store_at d) m → preserves (service_at d) (on_store m).
Proof. intros Hm s [Hs Ho]. unfold on_store, interfere. simpl. rewrite Ho. by split; [apply Hm|]. Qed.
Lemma service_port {A} d (m : SE E exn A) : preserves (service_at d) (on_port m).
Proof. intros s [Hs Ho]. unfold on_port, interfere. simpl. rewrite Ho. done. Qed.
Lemma service_refresh d b : preserves (service_at d) (refresh_revision b).
Proof. intros s [Hs Ho]. unfold refresh_revision, interfere. simpl. rewrite Ho. done. Qed.
Lemma service_snapshot d : preserves (service_at d) revision_snapshot.
Proof. intros s Hs. exact Hs. Qed.
Lemma service_clock d : preserves (service_at d) (read_clock utc_now).
Proof. intros s Hs. exact Hs. Qed.
Lemma service_modify d (f : svc S E → svc S E) : (∀ s, sv_store (f s) = sv_store s ∧ sv_others (f s) = sv_others s) →
  preserves (service_at d) (@modify _ exn f).
Proof. intros Hf. apply preserves_modify. intros s. unfold service_at. destruct (Hf s) as [-> ->]. done. Qed.

Lemma process_print d F o : preserves (process_at d F) (@print S E o).
Proof. by apply preserves_modify. Qed.
Lemma process_serving {A} d F (m : SE (svc S E) exn A) : preserves (service_at d) m → preserves (process_at d F) (serving m).
Proof. intros Hm p [Hp HF']. unfold serving. pose proof (Hm _ Hp) as H. destruct (m (app p)). done. Qed.
Lemma process_look {A} d F (g : fs → A) : preserves (process_at d F) (@on_disk S E A (look g)).
Proof. by intros p Hp. Qed.
Lemma process_each {A} d F (f : A → SE (process (svc S E)) exn unit) l :
  (∀ a, preserves (process_at d F) (f a)) → preserves (process_at d F) (each f l).
Proof. intros Hf. induction l as [|a l IH]; [apply preserves_ret|]. by apply preserves_bind. Qed.
Lemma process_attempt {A} d F caught (m : SE (process (svc S E)) exn A) h k :
  preserves (process_at d F) m → (∀ e, preserves (process_at d F) (h e)) → (∀ a, preserves (process_at d F) (k a)) →
  preserves (process_at d F) (attempt caught m h k).
Proof.
  intros Hm Hh Hk. apply preserves_bind.
  - apply preserves_try; [apply preserves_bind; [done|intros; apply preserves_ret]|].
    intros e. destruct (caught e); [apply preserves_ret|apply preserves_raise].
  - by intros [a|e].
Qed.
End reading.

(** A store call that reads, by its law; then one step towards [preserves _ m], by the
    form of [m]. *)
Ltac store_read :=
  eapply store_reads; [first [ apply law_list_projects | apply law_get_project | apply law_get_memory | apply law_list_memory
    | apply law_count_memory | apply law_list_memory_by_source | apply law_list_embeddings | apply law_count_embeddings
    | apply law_count_unembeddable | apply law_stale_counts | apply law_get_identity | apply law_search_pinned
    | apply law_eligible | apply law_search_memory ] | intros; cbv delta [Spec.list_projects Spec.get_project Spec.get_memory
    Spec.list_memory Spec.count_memory Spec.list_memory_by_source Spec.list_embeddings Spec.count_embeddings
    Spec.count_unembeddable_embeddings Spec.stale_embedding_counts Spec.get_embedding_identity Spec.search_pinned
    Spec.eligible_memory_ids Spec.search_memory]; cbv beta; repeat case_match; reflexivity ].
Ltac reads_step :=
  match goal with
  | |- preserves _ (ret _) => apply preserves_ret
  | |- preserves _ (raise _) => apply preserves_raise
  | |- preserves _ (lift_result _) => apply preserves_lift
  | |- preserves _ (bind _ _) => apply preserves_bind; [|intros ?]
  | |- preserves _ (try_catch _ _) => apply preserves_try; [|intros ?]
  | |- preserves _ (on_store _) => apply service_store
  | |- preserves _ (on_port _) => apply service_port
  | |- preserves _ (refresh_revision _) => apply service_refresh
  | |- preserves _ revision_snapshot => apply service_snapshot
  | |- preserves _ (read_clock _) => apply service_clock
  | |- preserves (service_at _) (modify _) => apply service_modify; intros ?; try case_match; done
  | |- preserves _ (gets _) => apply preserves_gets
  | |- preserves _ (print _) => apply process_print
  | |- preserves _ (say _) => apply process_print
  | |- preserves _ (serving _) => apply process_serving
  | |- preserves _ (storing _) => apply process_serving
  | |- preserves _ (on_disk (look _)) => apply process_look
  | |- preserves _ (each _ _) => apply process_each; intros ?
  | |- preserves _ (map_m _ _) => apply preserves_map_m; intros ?
  | |- preserves _ (attempt _ _ _ _) => apply process_attempt; [|intros ?|intros ?]
  | |- preserves _ (match ?x with _ => _ end) => destruct x eqn:?
  end.
Ltac reads := repeat first [reads_step | store_read].

Section read_only.
Context {S E : Type} `{HF : FTS5} `{!MemoryStorePort S} `{!EmbeddingPort E}.
Context `{HN : Numpy} `{HO : SetOrder}.
Context (utc_now : nat → Z) (d : db).
Notation Reads m := (preserves (service_at (S:=S) (E:=E) d) m).

Lemma reads_status : Reads embedding_status.
Proof. unfold embedding_status. reads. Qed.
Lemma reads_record_failure op : Reads (record_failure utc_now op).
Proof. unfold record_failure. reads. Qed.
Lemma reads_float q ip lim pid ts ph : Reads (float_pins q ip lim pid ts ph).
Proof. unfold float_pins. reads. Qed.
Lemma reads_embed n o sn q : Reads (embed_stable n o sn q).
Proof. revert sn. induction n as [|n IH]; intros sn; simpl; unfold embed_single; reads; apply IH. Qed.
Lemma reads_semantic q pid ts ex lim : Reads (semantic_search q pid ts ex lim).
Proof. unfold semantic_search, score_candidates. apply preserves_bind; [apply service_snapshot|]. intros o. apply preserves_bind; [apply reads_embed|]. intros [v sn]. reads. Qed.
Lemma reads_fetch ids m : Reads (fetch_items ids m).
Proof. revert m. induction ids as [|k ids IH]; intros m; simpl; reads; apply IH. Qed.
Lemma reads_items r ip pid ts : Reads (semantic_items r ip pid ts).
Proof. induction r as [|[k x] r IH]; simpl; [reads|]. apply preserves_bind; [reads|]. intros o. apply preserves_bind; [done|]. intros l. reads. Qed.
Lemma reads_search configured q k pid ip ts o mode ph lim : Reads (execute_search utc_now configured q k pid ip ts o mode ph lim).
Proof.
  unfold execute_search, search_hybrid, search_semantic, search_keyword, record_success.
  repeat first [apply reads_float|apply reads_semantic|apply reads_fetch|apply reads_items|apply reads_record_failure|reads_step|store_read].
Qed.
End read_only.

(** The commands that show, list, search or preview. *)
Definition read_only (c : command) : bool :=
  match c with
  | List_projects _ | Show_project _ _ | Memory_list _ _ _ _ | Memory_show _ | Memory_search _ | Db_info _ | Db_stats _
  | Maintenance_list _ | Usage _ _ => true
  | Delete_project _ confirm _ | Memory_delete _ confirm _ => negb confirm
  | Memory_embed show_status _ _ => show_status
  | Memory_export _ out => negb (some_b (out ≫= non_empty))
  | Onboard_git _ _ _ _ _ dry_run => dry_run
  | _ => false
  end.

Section program.
Context {S E : Type} `{HF : FTS5} `{!MemoryStorePort S} `{!EmbeddingPort E}.
Context `{HN : Numpy} `{HO : SetOrder}.
Context (utc_now : nat → Z) (w : surroundings).
Context (server : HTTPConfig → SE (process (svc S E)) exn unit) (handler : bool → string → SE (process (svc S E)) exn json).
Notation run := (run_command utc_now w server handler).

(** C22. What only shows, lists, searches, previews or counts changes nothing: run with
    the arguments of a read-only command ([project delete] and [memory delete] without
    [--confirm], [onboard git --dry-run], [memory embed --status], [memory export] to
    the terminal and the listing and searching commands), and whatever the store, the
    provider, git and the disk answer, the database and the files are what they were. *)
Theorem previews_change_nothing configured file_configs c (p : process (svc S E)) :
  read_only c = true → alone (app p) →
  let p' := (run configured file_configs c p).1 in
  st_view (sv_store (app p')) = st_view (sv_store (app p)) ∧ files (disk p') = files (disk p).
Proof.
  intros Hc Ha. cbv zeta. set (d := st_view (sv_store (app p))). set (F := files (disk p)).
  assert (preserves (process_at d F) (run configured file_configs c)) as H.
  2: { destruct (H p) as [[[_ Hv] _] Hf]; [|done]. split; [|done]. split; [|apply Ha]. split; [apply Ha|done]. }
  clearbody d F. destruct c; try discriminate Hc; simpl in Hc.
  all: unfold run_command, cmd_list_projects, cmd_show_project, cmd_memory_list, cmd_memory_show, cmd_memory_search, cmd_db_info,
    cmd_db_stats, cmd_maintenance_list, cmd_delete_project, cmd_memory_delete, cmd_memory_embed, cmd_memory_export, cmd_onboard_git,
    onboard_preview, show_hit, show_cluster, say_history, count_rows, project_missing, refused, execute_list_projects,
    execute_list_memory, show_memory, execute_delete_project, execute_delete_memory, execute_export in *.
  all: try (apply negb_true_iff in Hc; rewrite Hc). all: try rewrite Hc.
  all: repeat first [apply reads_status|apply reads_search|reads_step|store_read]; try discriminate.
Qed.
End program.

(** ** The export *)

Section export.
Context (dest : path) (token : string) (payload : json) (old : option node).
Hypothesis dest_named : dest ≠ [].
Definition temporary : path := with_name dest (path_name dest +:+ "." +:+ token +:+ ".tmp").
Definition kept (f : fs) : Prop := f !! dest = old.
Definition exported (f : fs) : Prop := f !! dest = Some (File (Doc payload)).
Definition either (f : fs) : Prop := kept f ∨ exported f.

Lemma temporary_ne : temporary ≠ dest.
Proof.
  unfold temporary, with_name, path_name, parent. intros E.
  destruct (exists_last dest_named) as (front&n&Hd). rewrite Hd, removelast_last, last_snoc in E. simpl in E.
  apply app_inj_tail in E as [_ E]. apply (f_equal (λ s, length (chars s))) in E.
  rewrite !chars_app, !length_app in E. simpl in E. lia.
Qed.
Lemma kept_at (p : path) (g : fs → fs * result exn unit) : p ≠ dest → (∀ f, (g f).1 = f ∨ (∃ n, (g f).1 = <[p := n]> f) ∨ (g f).1 = delete p f) →
  keeps either kept (io g).
Proof.
  intros Hp Hg. apply keeps_io. intros f Hf. assert (kept (g f).1) as H; [|split; [by left|done]].
  unfold kept in *. destruct (Hg f) as [->|[[n ->]| ->]]; [done|by rewrite lookup_insert_ne|by rewrite lookup_delete_ne].
Qed.
Lemma kept_mkdirs above below : (length (above ++ below) < length dest)%nat → keeps either kept (mkdirs_from above below).
Proof.
  revert above. induction below as [|n below IH]; intros above Hl; simpl; [apply keeps_ret|].
  apply keeps_bind.
  - apply (kept_at (above ++ [n])).
    + intros E. apply (f_equal length) in E. rewrite !length_app in *. simpl in *. lia.
    + intros f. unfold mkdir_one. destruct (f !! _) as [[| |[[]|]]|]; simpl; eauto.
  - intros _. apply IH. rewrite <- app_assoc. exact Hl.
Qed.

Lemma write_atomic : triple either kept (write_atomically token dest payload)
  (λ _ f, exported f ∧ f !! temporary = None) (λ _, kept).
Proof.
  pose proof temporary_ne as Hne. unfold write_atomically. fold temporary.
  eapply triple_bind; [apply kept_mkdirs|intros []; simpl].
  { destruct (exists_last dest_named) as (front&n&Hd). unfold parent. rewrite Hd, removelast_last, !length_app. simpl. lia. }
  eapply triple_bind; [apply (kept_at temporary); [exact Hne|]|intros []; simpl].
  { intros f. destruct (f !! temporary); simpl; eauto. }
  eapply (triple_catch _ _ _ _ _ _ (λ _, kept)).
  - eapply (triple_bind _ _ _ _ (λ _ f, kept f ∧ f !! temporary = Some (File (Doc payload)))); [|intros []; simpl].
    + apply triple_io; [done|]. intros f f' r Hf [= <- <-]. unfold either, kept in *.
      rewrite lookup_insert_ne, lookup_insert_eq by done. auto.
    + apply triple_io; [by intros f [Hf _]|]. intros f f' r [Hf Ht] H. rewrite Ht in H.
      assert (either f) by (by left). destruct (f !! dest) as [[| |]|] eqn:Ed; injection H as <- <-; try (split; [done|exact Hf]).
      all: unfold either, exported; rewrite lookup_insert_eq, lookup_insert_ne, lookup_delete_eq by done; auto.
  - intros e. eapply triple_bind; [apply (kept_at temporary); [exact Hne|]|intros []; apply triple_raise; auto].
    intros f. destruct (f !! temporary) as [[| |]|]; simpl; eauto.
Qed.
End export.

Section export_command.
Context {S E : Type} `{HF : FTS5} `{!MemoryStorePort S} `{!EmbeddingPort E}.

(** C16. Whatever fails and wherever the run is cut, an export to a file leaves the old
    file or the whole new one: at every moment the destination holds what it held or the
    complete envelope; the command returns 0 only with the envelope in place and its
    temporary file gone, and an error leaves the old file. *)
Theorem export_keeps_old_or_new (locate : string → path) token now pid out_path (p : process (svc S E)) payload :
  let dest := locate out_path in
  let old := files (disk p) !! dest in
  out_path ≠ ""%string → dest ≠ [] → (on_store (execute_export now pid) (app p)).2 = Ok payload →
  let '(p', r) := cmd_memory_export locate token now pid (Some out_path) p in
  (∃ passed, seen (disk p') = passed ++ seen (disk p) ∧
     Forall (λ f, f !! dest = old ∨ f !! dest = Some (File (Doc payload))) passed) ∧
  match r with
  | Ok code => code = 0 ∧ files (disk p') !! dest = Some (File (Doc payload)) ∧ files (disk p') !! temporary dest token = None
  | Raise _ => files (disk p') !! dest = old
  end.
Proof.
  intros dest old Hout Hdest Hx. unfold cmd_memory_export, storing, serving, on_disk. unfold bind at 1.
  destruct (on_store (execute_export now pid) (app p)) as [s' r'] eqn:Es. simpl in Hx. subst r'. simpl.
  unfold non_empty. rewrite bool_decide_eq_false_2 by done. simpl.
  destruct (write_atomic dest token payload old Hdest (disk p) eq_refl) as (w'&r&Hw&_&Hseen&Hr).
  unfold bind at 1. simpl. fold dest. rewrite Hw. destruct r as [[]|e]; simpl; split; try exact Hseen; [|exact Hr].
  split; [done|exact Hr].
Qed.
End export_command.

(** ** How a run ends *)

Section ending.
Context {S E : Type} `{HF : FTS5} `{!MemoryStorePort S} `{!EmbeddingPort E}.
Context `{HN : Numpy} `{HO : SetOrder}.
Notation P := (process (svc S E)).

Definition CODES : list Z := [0; 1; 2].
(** A return of [m] is an exit code. *)
Definition exits {X} (m : SE P X Z) : Prop := ∀ p p' z, m p = (p', Ok z) → z ∈ CODES.

Lemma exits_ret {X} z : z ∈ CODES → exits (@ret P X Z z).
Proof. by intros H p p' z' [= _ <-]. Qed.
Lemma exits_raise {X} (e : X) : exits (raise e).
Proof. by intros p p' z. Qed.
Lemma exits_bind {X A} (m : SE P X A) k : (∀ a, exits (k a)) → exits (bind m k).
Proof. intros Hk p p' z (a&p1&_&H)%bind_ok. by eapply Hk. Qed.
Lemma exits_attempt {A} caught (m : SE P exn A) h k : (∀ e, exits (h e)) → (∀ a, exits (k a)) → exits (attempt caught m h k).
Proof. intros Hh Hk. apply exits_bind. by intros [a|e]. Qed.
Lemma exits_refused text_of prefix e : exits (@refused S E text_of prefix e).
Proof. apply exits_bind. intros _. apply exits_ret. set_solver. Qed.

Lemma config_show_exits loads environ existing core j : exits (X:=Container.startup_error) (@cmd_config_show S E loads environ existing core j).
Proof.
  unfold cmd_config_show. destruct (resolve_paths _ _ _ _) as [[db config] out]. apply exits_bind. intros configs p p' z H.
  match type of H with (match ?m p with _ => _ end) = _ => destruct (m p) as [p1 [z1|e1]] eqn:Em; [|done]; injection H as <- <- end.
  revert Em. match goal with |- ?m p = _ → _ => enough (exits m) as Hm by apply Hm end.
  destruct j; repeat (apply exits_bind; intros _); apply exits_ret; set_solver.
Qed.
End ending.

(** The commands, by what they end with. *)
Ltac ends := repeat match goal with
  | |- exits (ret _) => apply exits_ret; unfold CODES; repeat case_match; set_solver
  | |- exits (raise _) => apply exits_raise
  | |- exits (refused _ _ _) => apply exits_refused
  | |- exits (attempt _ _ _ _) => apply exits_attempt; intros ?
  | |- exits (bind _ _) => apply exits_bind; intros ?
  | |- exits (match ?x with _ => _ end) => destruct x
  end.

Section every_line.
Context {S E : Type} `{HF : FTS5} `{!MemoryStorePort S} `{!EmbeddingPort E}.
Context `{HN : Numpy} `{HO : SetOrder}.
Context (utc_now : nat → Z) (w : surroundings).
Context (server : HTTPConfig → SE (process (svc S E)) exn unit) (handler : bool → string → SE (process (svc S E)) exn json).

Lemma command_exits configured file_configs c : exits (run_command utc_now w server handler configured file_configs c).
Proof.
  destruct c; unfold run_command, cmd_init_project, cmd_list_projects, cmd_show_project, cmd_update_project, cmd_delete_project,
    cmd_memory_add, cmd_memory_list, cmd_memory_show, cmd_memory_pin, cmd_memory_search, cmd_memory_delete, cmd_memory_update,
    cmd_memory_embed, cmd_memory_export, cmd_memory_import, cmd_db_info, cmd_db_vacuum, cmd_db_backup, cmd_db_stats,
    cmd_onboard_git, onboard_preview, cmd_maintenance_list, cmd_maintenance_run_once, cmd_serve, project_missing; ends.
Qed.

Lemma exits_early (m : SE (process (svc S E)) exn Z) : exits m →
  exits (λ p, match m p with (p, Ok z) => (p, Ok z) | (p, Raise e) => (p, Raise (Container.Startup e)) end).
Proof. intros Hm p p' z H. cbv beta in H. destruct (m p) as [p1 [z1|e1]] eqn:Em; [|done]. injection H as <- <-. by eapply Hm. Qed.
Lemma early_exits c (m : SE (process (svc S E)) Container.startup_error Z) : run_early w c = Some m → exits m.
Proof.
  clear utc_now server handler. destruct c; try discriminate; intros [= <-]; try apply config_show_exits;
    first [by intros p p' z [= _ <-]; unfold CODES; set_solver | apply exits_early; unfold cmd_init, cmd_version; ends].
Qed.
End every_line.

(** C21. Every line typed ends in one of the ways documented: it is refused by the
    parser with status 2, it asks for help and ends with 0, or its namespace has every
    value its command reads, at the type it reads it, and the command returns 0, 1 or 2
    or raises out of [main]; nothing runs before the parser is done, and however the run
    ends the store is not left open. *)
Theorem every_line_ends {S E : Type} `{HF : FTS5} `{!MemoryStorePort S} `{!EmbeddingPort E} `{HN : Numpy} `{HO : SetOrder}
    (utc_now : nat → Z) (w : surroundings) (server : HTTPConfig → SE (process (svc S E)) exn unit)
    (handler : bool → string → SE (process (svc S E)) exn json) (argv : list string) (p : process (svc S E)) :
  let f := main utc_now w server handler argv p in
  match parse_args oc_parser argv with
  | UsageError => f = mkFinished p Container.Unopened [] (Exited 2)
  | HelpShown => f = mkFinished p Container.Unopened [] (Exited 0)
  | Parsed ns _ =>
      is_Some (command_of ns) ∧ store_left f ≠ Container.Opened ∧
      match ended f with Exited z => z ∈ CODES | Traceback _ => store_left f = Container.Closed end
  end.
Proof.
  cbv zeta. pose proof (parser_fits_handlers argv) as Hp. unfold main. destruct (parse_args oc_parser argv) as [ns extras| |]; [|done..].
  destruct Hp as [_ [c Hc]]. split; [by exists c|]. rewrite Hc.
  destruct (run_early w c) as [m|] eqn:Ee.
  - pose proof (early_exits w c m Ee) as Hm. assert (c ≠ No_command) as Hn by (intros ->; discriminate).
    destruct (m p) as [p1 [z|e]] eqn:Em; destruct c; try done; simpl; (split; [done|]); first [apply (Hm p p1 z Em) | unfold CODES; set_solver].
  - unfold start_container.
    match goal with |- context [Container.build_container ?e ?l ?d ?x Container.Unopened] => pose proof (ContainerProps.container_starts e l d x) as Hk end.
    destruct (Container.build_container _ _ _ _ _) as [st [k|e]]; destruct Hk as [_ Hk].
    + pose proof (command_exits utc_now w server handler (some_b (Container.embedding_port k)) (Container.file_configs k) c) as Hz.
      destruct (run_command _ _ _ _ _ _ c p) as [p1 [z|e]] eqn:Em; destruct c; try done; simpl; (split; [done|]); first [done | apply (Hz p p1 z Em) | unfold CODES; set_solver].
    + destruct c; simpl; (split; [done|]); unfold CODES; set_solver.
Qed.

(** ** A line typed on the sample store *)

#[local] Existing Instance toy_port.
#[local] Existing Instance substring_fts.
#[local] Existing Instance toy_numpy.
#[local] Existing Instance element_order.

Definition tidy_disk : world := mkWorld {[["out"]%string := Dir; ["out"; "memories.json"]%string := File (Doc JNull)]} [] [] false.
Definition sample_process : process (svc Store.store nat) := mkProcess lone_service tidy_disk [].
Definition sample_building : Container.surroundings :=
  Container.mkSurroundings false false Container.NotFound false None true None Container.Missing None.
Definition sample_surroundings : surroundings := mkSurroundings
  (λ _, "error"%string) (λ _, "cannot start"%string) (λ _, None) (λ s, ["out"; s]%string) "-"%string (λ _ _, Raise ValueError) (λ _ _, 0)
  (utc 50) (λ _, "new-id"%string) "t0k3n"%string ""%string 0 7 (λ _, Ok "wal"%string) (ret tt) (λ _, None) (Ok ""%string) "-"%string
  (λ _ _, git_missing) (λ _, utc 50) ∅ (Some "3.0.0"%string) None "3.14.0"%string (λ s, s) "/data/oc.db"%string sample_building.
Definition no_server (_ : HTTPConfig) : SE (process (svc Store.store nat)) exn unit := ret tt.
Definition no_handler (_ : bool) (_ : string) : SE (process (svc Store.store nat)) exn json := ret JNull.
Definition ended_line (argv : list string) : finished (svc Store.store nat) :=
  main clock sample_surroundings no_server no_handler argv sample_process.

(** Lines typed, and how they end. *)
Example misspelt : ended (ended_line ["memory"; "lst"]%string) = Exited 2.
Proof. vm_compute. reflexivity. Qed.
Example delete_previewed : ended (ended_line ["memory"; "delete"; "m1"]%string) = Exited 0
  ∧ printed (left (ended_line ["memory"; "delete"; "m1"]%string)) ≠ [].
Proof. split; [vm_compute; reflexivity|]. vm_compute. discriminate. Qed.
Example deleted_when_confirmed : memories (st_view (sv_store (app (left (ended_line ["memory"; "delete"; "m1"; "--confirm"]%string))))) !! "m1"%string = None.
Proof. vm_compute. reflexivity. Qed.
(** Without git the command ends in a traceback; the store is closed. *)
Example git_missing_uncaught :
  let f := ended_line ["onboard"; "git"; "--project-id"; "p"; "--repo-path"; "."]%string in
  ended f = Traceback FileNotFoundError ∧ store_left f = Container.Closed.
Proof. split; vm_compute; reflexivity. Qed.
(** Of a secret of nine characters all but one are shown. *)
Example nine_character_secret : mask_secret "abcdefghi" = "abcd****fghi"%string.
Proof. vm_compute. reflexivity. Qed.

(** The key of [core.json] is printed as it is. *)
Definition keyed (_ : string) : option json :=
  Some (JObj [("embedding", JObj [("api_key", jstr "sk-0123456789")])]%string).
Definition at_key (k : string) (o : option json) : option json := match o with Some (JObj d) => jget k d | _ => None end.
Example core_json_unmasked :
  let p' := (@cmd_config_show Store.store nat keyed ∅ true (Container.Content "core") true sample_process).1 in
  match printed p' with
  | [Pretty j] => foldl (λ o k, at_key k o) (Some j) ["result"; "core_config"; "embedding"; "api_key"]%string
  | _ => None
  end = Some (jstr "sk-0123456789").
Proof. vm_compute. reflexivity. Qed.

Lemma alone_sample : alone (app sample_process).
Proof. exact alone_lone. Qed.

Lemma previews_change_nothing_witness :
  let p' := (run_command clock sample_surroundings no_server no_handler true [] (Memory_delete "m1" false false) sample_process).1 in
  st_view (sv_store (app p')) = st_view (sv_store lone_service) ∧ files (disk p') = files tidy_disk.
Proof.
  exact (previews_change_nothing clock sample_surroundings no_server no_handler true [] (Memory_delete "m1" false false)
    sample_process eq_refl alone_sample).
Defined.

Definition sample_export : json :=
  match (on_store (execute_export (utc 50) None) lone_service).2 with Ok j => j | Raise _ => JNull end.
Lemma export_keeps_old_or_new_witness :
  let '(p', r) := cmd_memory_export (λ s, ["out"; s]%string) "t0k3n" (utc 50) None (Some "memories.json"%string) sample_process in
  r = Ok 0 ∧ files (disk p') !! ["out"; "memories.json"]%string = Some (File (Doc sample_export)).
Proof.
  pose proof (export_keeps_old_or_new (λ s, ["out"; s]%string) "t0k3n" (utc 50) None "memories.json"%string sample_process sample_export
    ltac:(discriminate) ltac:(discriminate) ltac:(vm_compute; reflexivity)) as H.
  assert (Hr : (cmd_memory_export (λ s, ["out"; s]%string) "t0k3n" (utc 50) None (Some "memories.json"%string) sample_process).2 = Ok 0)
    by (vm_compute; reflexivity).
  destruct (cmd_memory_export _ _ _ _ _ _) as [p' r]. cbn [snd] in Hr. subst r. split; [reflexivity|]. exact (proj1 (proj2 (proj2 H))).
Defined.
