(* ===== verification/Locking.v ===== *)
(** * The lock of the store

    [sqlite_store.py:159-241]: the re-entrant lock every method and every
    transaction of the store runs under, the per-thread depth that decides which
    acquisition is reported to the metrics, and threads that use the store at once.
    The other files take a method call, and a transaction with all it calls, as one
    uninterrupted computation; here a thread may be interrupted between any two
    statements, and that reading is proved. *)

From S2P Require Import Prelude Domain PyNum Sql Store StoreProps.
Local Open Scope Z_scope.

(** ** Which lock a method takes *)

(** [sqlite_store.py:162-174 _WRITE_LOCK_METHODS] *)
Definition WRITE_LOCK_METHODS : list string :=
  ["add_project"; "delete_project"; "update_project"; "add_memory"; "set_pinned"; "update_memory"; "delete_memory";
   "save_embedding"; "delete_embedding"]%string.
(** [sqlite_store.py:175-175 _MAINTENANCE_LOCK_METHODS] *)
Definition MAINTENANCE_LOCK_METHODS : list string := ["init_schema"; "vacuum"; "integrity_check"; "backup_to"]%string.
(** [sqlite_store.py:178-183 _lock_kind] *)
Definition lock_kind (method_name : string) : string :=
  if bool_decide (method_name ∈ MAINTENANCE_LOCK_METHODS) then "maintenance"
  else if bool_decide (method_name ∈ WRITE_LOCK_METHODS) then "write" else "read".

(** ** Threads *)

Section threads.
(** The connection with the fields of the store, and what a call returns. *)
Context {D V : Type}.
Abbreviation outcome := (result exn V).

(** What a thread does: [Touch] is a statement on the connection, [Within] a
    [with _observed_lock(self, kind=kind)] block and what follows it.  An exception of
    the block is an outcome like any other: the code that follows sees it. *)
Inductive code :=
| Return (r : outcome)
| Touch (op : D → D * outcome) (rest : outcome → code)
| Within (kind : string) (body : code) (rest : outcome → code).

(** [sqlite_store.py:221-241 _locked] A method under the lock. *)
Definition locked (method_name : string) (body : code) (rest : outcome → code) : code :=
  Within (lock_kind method_name) body rest.

(** A report to the recorder: the kind, the wait, the hold. *)
Record report := mkReport { reported_kind : string; wait_time : Z; hold_time : Z }.
(** A block the thread is in: what follows it, and the local variables of
    [_observed_lock]. *)
Record frame := mkFrame {
  block_kind : string; block_rest : outcome → code; outermost : bool; waited_from : Z; acquired_at : Z
}.
(** Where a thread is: about to go on with its code, waiting for the lock, or about to
    report after it released it. *)
Inductive phase :=
| Running (c : code)
| Acquiring (kind : string) (body : code) (rest : outcome → code) (first : bool) (since : Z)
| Reporting (o : report) (c : code).
(** [depth_here]: the entry of this lock in the thread's [_LOCK_STATE.depths]. *)
Record thread := mkThread { at_ : phase; frames : list frame; depth_here : nat }.
(** [owner]: the thread that holds the lock and how many times; [reports] are in the
    order they reached the recorder, [lost] are those it raised on. *)
Record state := mkState {
  connection : D; owner : option (nat * nat); threads : list thread; reports : list report; lost : list report
}.

(** [sqlite_store.py:199-199 _observed_lock] [threading.RLock]: [None] while another
    thread holds it. *)
Definition acquired (t : nat) (o : option (nat * nat)) : option (option (nat * nat)) :=
  match o with
  | None => Some (Some (t, 1%nat))
  | Some (u, n) => if bool_decide (u = t) then Some (Some (t, S n)) else None
  end.
(** [sqlite_store.py:209-209 _observed_lock] *)
Definition released (o : option (nat * nat)) : option (nat * nat) :=
  match o with Some (t, S (S n)) => Some (t, S n) | _ => None end.

(** [metrics]: the store has an enabled recorder. *)
Context (metrics : bool).
(** [sqlite_store.py:186-218 _observed_lock] One move of the thread [t] at the time
    [now]; [recorder_ok]: whether the recorder takes a report without raising.  [None]:
    the thread is done, or waits for the lock. *)
Definition move (now : Z) (recorder_ok : bool) (t : nat) (s : state) : option state :=
  th ← threads s !! t;
  let go (c : D) (o : option (nat * nat)) (th : thread) := mkState c o (<[t := th]> (threads s)) (reports s) (lost s) in
  match at_ th with
  | Running (Touch op rest) =>
      let (c, r) := op (connection s) in Some (go c (owner s) (mkThread (Running (rest r)) (frames th) (depth_here th)))
  | Running (Within kind body rest) =>
      let first := metrics && (depth_here th =? 0)%nat in
      Some (go (connection s) (owner s) (mkThread (Acquiring kind body rest first now) (frames th) (depth_here th)))
  | Acquiring kind body rest first since =>
      o ← acquired t (owner s);
      let depth := if metrics then S (depth_here th) else depth_here th in
      Some (go (connection s) o (mkThread (Running body) (mkFrame kind rest first since now :: frames th) depth))
  | Running (Return r) =>
      match frames th with
      | [] => None
      | f :: fs =>
          let depth := if metrics then pred (depth_here th) else depth_here th in
          let o := mkReport (block_kind f) (acquired_at f - waited_from f) (now - acquired_at f) in
          let next := if outermost f then Reporting o (block_rest f r) else Running (block_rest f r) in
          Some (go (connection s) (released (owner s)) (mkThread next fs depth))
      end
  | Reporting o c =>
      let th := mkThread (Running c) (frames th) (depth_here th) in
      Some (mkState (connection s) (owner s) (<[t := th]> (threads s))
        (if recorder_ok then reports s ++ [o] else reports s) (if recorder_ok then lost s else lost s ++ [o]))
  end.

(** A schedule: who moves, when, and what the recorder does; a move that is not
    possible is skipped. *)
Definition move_of : Type := nat * Z * bool.
Definition follow (s : state) (m : move_of) : state := default s (move m.1.2 m.2 m.1.1 s).
Definition run_schedule (s : state) (ms : list move_of) : state := foldl follow s ms.
Definition new_thread (c : code) : thread := mkThread (Running c) [] 0.
Definition start (d : D) (cs : list code) : state := mkState d None (map new_thread cs) [] [].

(** ** The specification: a block is one step *)

(** A block run alone, from the outermost acquisition to its release. *)
Fixpoint alone_run (c : code) (d : D) : D * outcome :=
  match c with
  | Return r => (d, r)
  | Touch op rest => let (d, r) := op d in alone_run (rest r) d
  | Within _ body rest => let (d, r) := alone_run body d in alone_run (rest r) d
  end.
Inductive atomic_run : D * list code → list string → D * list code → Prop :=
| atomic_done x : atomic_run x [] x
| atomic_step x kinds d cs t kind body rest d' r :
    atomic_run x kinds (d, cs) → cs !! t = Some (Within kind body rest) → alone_run body d = (d', r) →
    atomic_run x (kinds ++ [kind]) (d', <[t := rest r]> cs).
(** The connection is only touched under the lock. *)
Fixpoint guarded (c : code) : Prop :=
  match c with Return _ => True | Touch _ _ => False | Within _ _ rest => ∀ r, guarded (rest r) end.
(** A thread has nothing left to do. *)
Definition finished (th : thread) : Prop := frames th = [] ∧ ∃ r, at_ th = Running (Return r).
End threads.
Arguments code : clear implicits. Arguments state : clear implicits. Arguments thread : clear implicits.
Arguments frame : clear implicits. Arguments phase : clear implicits.

(** ** Blocks are atomic *)

Section atomicity.
Context {D V : Type} (metrics : bool).
Abbreviation code := (code D V).
Abbreviation thread := (thread D V).
Abbreviation state := (state D V).
Abbreviation frame := (frame D V).

(** The code a thread has before it, seen from its innermost block. *)
Definition inner (th : thread) : code :=
  match at_ th with Running c => c | Acquiring kind body rest _ _ => Within kind body rest | Reporting _ c => c end.
Definition pending (th : thread) : list report := match at_ th with Reporting o _ => [o] | _ => [] end.
(** The rest of the outermost block, run alone. *)
Fixpoint unwind (fs : list frame) (c : code) (d : D) : D * result exn V :=
  match fs with
  | f :: (_ :: _) as fs' => let (d, r) := alone_run c d in unwind fs' (block_rest f r) d
  | _ => alone_run c d
  end.
Lemma unwind_touch fs op rest d : unwind fs (Touch op rest) d = unwind fs (rest (op d).2) (op d).1.
Proof. destruct fs as [|f [|g fs]]; simpl; by destruct (op d). Qed.
Lemma unwind_within f fs body d : fs ≠ [] → unwind (f :: fs) body d = unwind fs (Within (block_kind f) body (block_rest f)) d.
Proof. destruct fs as [|g [|h fs]]; [done|..]; intros _; simpl; by destruct (alone_run body d). Qed.
Lemma unwind_return f fs r d : fs ≠ [] → unwind (f :: fs) (Return r) d = unwind fs (block_rest f r) d.
Proof. by destruct fs. Qed.

(** Only the outermost block of a thread is reported, and only to a recorder. *)
Fixpoint flags_ok (fs : list frame) : Prop :=
  match fs with [] => True | [f] => outermost f = metrics | f :: fs => outermost f = false ∧ flags_ok fs end.
Definition thread_ok (th : thread) : Prop :=
  depth_here th = (if metrics then length (frames th) else 0%nat) ∧ flags_ok (frames th) ∧
  match at_ th with
  | Acquiring _ _ _ first _ => first = metrics && bool_decide (frames th = [])
  | Reporting _ _ => frames th = [] ∧ metrics = true
  | Running _ => True
  end.
(** The thread [t] against the code [c] that it has in the specification; [d]: the
    data there. *)
Definition follows (t : nat) (th : thread) (c : code) (o : option (nat * nat)) (m d : D) : Prop :=
  thread_ok th ∧ guarded c ∧
  match last (frames th) with
  | None => inner th = c ∧ ∀ n, o ≠ Some (t, n)
  | Some f =>
      o = Some (t, length (frames th)) ∧
      ∃ body, c = Within (block_kind f) body (block_rest f) ∧ unwind (frames th) (inner th) m = alone_run body d
  end.
Definition related (s : state) (d : D) (cs : list code) : Prop :=
  length cs = length (threads s) ∧
  (∀ t th c, threads s !! t = Some th → cs !! t = Some c → follows t th c (owner s) (connection s) d) ∧
  (owner s = None → connection s = d) ∧ (∀ t n, owner s = Some (t, n) → is_Some (threads s !! t)).

Lemma related_start d cs : Forall guarded cs → related (start d cs) d cs.
Proof.
  intros Hg. split_and!; [simpl; by rewrite length_map| |done|done]. intros t th c Ht Hc. simpl in *.
  rewrite list_lookup_fmap, Hc in Ht. injection Ht as <-. split_and!; try done.
  - split_and!; by destruct metrics.
  - by eapply Forall_lookup_1.
Qed.

(** A move of [t] leaves the others where they are. *)
Lemma related_move s d cs t th c o' m' d' th' c' :
  related s d cs → threads s !! t = Some th → cs !! t = Some c →
  (o' = owner s ∧ m' = connection s ∧ d' = d ∨ ∀ u n, u ≠ t → owner s ≠ Some (u, n) ∧ o' ≠ Some (u, n)) →
  (∀ u n, o' = Some (u, n) → is_Some (threads s !! u)) → (o' = None → m' = d') →
  follows t th' c' o' m' d' →
  ∀ rs ls, related (mkState m' o' (<[t := th']> (threads s)) rs ls) d' (<[t := c']> cs).
Proof.
  intros (Hl&Hf&_&_) Ht Hc Ho Hin Hfree Hloc rs ls. split_and!; simpl; [by rewrite !length_insert| |done|].
  - intros u thu cu Hu Hcu. destruct (decide (u = t)) as [->|Hne].
    + rewrite list_lookup_insert_eq in Hu by by eapply lookup_lt_Some. rewrite list_lookup_insert_eq in Hcu by by eapply lookup_lt_Some.
      by simplify_eq.
    + rewrite list_lookup_insert_ne in Hu by done. rewrite list_lookup_insert_ne in Hcu by done. specialize (Hf _ _ _ Hu Hcu) as (Hok&Hg&Hm).
      destruct Ho as [(->&->&->)|Ho]; [done|]. split_and!; [done..|].
      destruct (last (frames thu)); [destruct Hm as [Hm _]; by destruct (Ho u (length (frames thu)) Hne)|].
      split; [apply Hm|]. intros n. by apply Ho.
  - intros u n Hu. destruct (Hin _ _ Hu) as [x Hx]. apply lookup_lt_is_Some. rewrite length_insert. by eapply lookup_lt_Some.
Qed.

(** What the recorder has or will be told, by kind. *)
Definition told (s : state) : list string :=
  map reported_kind (reports s ++ lost s ++ concat (map pending (threads s))).
Lemma told_insert s t th th' m o : threads s !! t = Some th →
  map reported_kind (pending th) ++ told (mkState m o (<[t := th']> (threads s)) (reports s) (lost s)) ≡ₚ
  map reported_kind (pending th') ++ told s.
Proof.
  intros Ht. unfold told. simpl. rewrite <- (take_drop_middle (threads s) t th Ht) at 2.
  rewrite insert_take_drop by by eapply lookup_lt_Some.
  rewrite !map_app, !concat_app, !map_app. simpl. rewrite !map_app. solve_Permutation.
Qed.

Definition explained (x : D * list code) (s : state) : Prop :=
  ∃ kinds d cs, atomic_run x kinds (d, cs) ∧ related s d cs ∧ told s ≡ₚ (if metrics then kinds else []).

(** The moves that leave the specification where it is. *)
Lemma explained_silent x s kinds d cs t th c o' m' th' rs ls :
  atomic_run x kinds (d, cs) → related s d cs → told s ≡ₚ (if metrics then kinds else []) →
  threads s !! t = Some th → cs !! t = Some c →
  (o' = owner s ∧ m' = connection s ∨ (∀ u n, u ≠ t → owner s ≠ Some (u, n) ∧ o' ≠ Some (u, n)) ∧ ∃ n, o' = Some (t, n)) →
  follows t th' c o' m' d →
  told (mkState m' o' (<[t := th']> (threads s)) rs ls) ≡ₚ told s →
  explained x (mkState m' o' (<[t := th']> (threads s)) rs ls).
Proof.
  intros Hx Hr Hk Ht Hc Ho Hf Htold. exists kinds, d, cs. split_and!; [done| |by rewrite Htold].
  rewrite <- (list_insert_id cs t c Hc). pose proof Hr as (_&_&Hfree&Hin). eapply related_move; try done.
  - destruct Ho as [[-> ->]|[Ho _]]; auto.
  - intros u n Hu. destruct Ho as [[-> _]|[_ [n' ->]]]; [by eapply Hin|]. injection Hu as <- <-. by rewrite Ht.
  - intros ->. destruct Ho as [[Ho ->]|[_ [n' Ho]]]; [by apply Hfree|done].
Qed.

Lemma last_cons_ne (f : frame) fs : fs ≠ [] → last (f :: fs) = last fs.
Proof. by destruct fs. Qed.
Lemma flags_push (f : frame) fs : flags_ok fs → outermost f = metrics && bool_decide (fs = []) → flags_ok (f :: fs).
Proof. destruct fs; simpl; [by rewrite andb_true_r|rewrite andb_false_r; auto]. Qed.
Lemma flags_pop (f : frame) fs : flags_ok (f :: fs) → flags_ok fs ∧ outermost f = metrics && bool_decide (fs = []).
Proof. destruct fs; simpl; [by rewrite andb_true_r|rewrite andb_false_r; tauto]. Qed.

(** Who gets the lock is alone with it. *)
Lemma acquired_alone s d cs t th c o' : related s d cs → threads s !! t = Some th → cs !! t = Some c → acquired t (owner s) = Some o' →
  o' = Some (t, S (length (frames th))) ∧ (∀ u n, u ≠ t → owner s ≠ Some (u, n)) ∧ (frames th = [] → connection s = d).
Proof.
  intros (_&Hf&Hfree&_) Ht Hc Ha. destruct (Hf _ _ _ Ht Hc) as (_&_&Hin). destruct (owner s) as [[u n]|]; simpl in Ha.
  - case_bool_decide; [|done]. subst u. injection Ha as <-. destruct (last (frames th)) eqn:El; [|by destruct Hin as [_ []%(λ H, H n)]].
    destruct Hin as [[= ->] _]. split_and!; [done|congruence|]. intros E. by rewrite E in El.
  - injection Ha as <-. destruct (last (frames th)) eqn:El; [by destruct Hin|]. apply last_None in El as ->. auto.
Qed.

(** Leaving the outermost block is the step of the specification. *)
Lemma leave_outermost x s kinds d cs t f r dep c o : atomic_run x kinds (d, cs) → related s d cs → told s ≡ₚ (if metrics then kinds else []) →
  threads s !! t = Some (mkThread (Running (Return r)) [f] dep) → cs !! t = Some c → reported_kind o = block_kind f →
  explained x (mkState (connection s) (released (owner s))
    (<[t := mkThread (if outermost f then Reporting o (block_rest f r) else Running (block_rest f r)) [] (if metrics then pred dep else dep)]>
       (threads s)) (reports s) (lost s)).
Proof.
  intros Hx Hr Hk Ht Hc Ho. pose proof Hr as (_&Hf&_&_). destruct (Hf _ _ _ Ht Hc) as ((Hd&Hfl&_)&Hg&How&body&->&Hu). simpl in *.
  exists (kinds ++ [block_kind f]), (connection s), (<[t := block_rest f r]> cs). split_and!; [by eapply atomic_step| |].
  - eapply (related_move s d cs t); try done.
    + right. intros u n Hne. rewrite How. simpl. split; congruence.
    + rewrite How. done.
    + unfold follows, thread_ok. rewrite How, Hfl, Hd. simpl. by destruct metrics; split_and!.
  - pose proof (told_insert s t _ (mkThread (if outermost f then Reporting o (block_rest f r) else Running (block_rest f r)) []
      (if metrics then pred dep else dep)) (connection s) (released (owner s)) Ht) as Htold.
    simpl in Htold. rewrite Htold, Hk, Hfl. unfold pending. destruct metrics; simpl; [|done].
    rewrite Ho. apply Permutation_cons_append.
Qed.

(** Leaving an inner block is not seen. *)
Lemma leave_inner x s kinds d cs t f g fs r dep c : atomic_run x kinds (d, cs) → related s d cs → told s ≡ₚ (if metrics then kinds else []) →
  threads s !! t = Some (mkThread (Running (Return r)) (f :: g :: fs) dep) → cs !! t = Some c →
  explained x (mkState (connection s) (released (owner s))
    (<[t := mkThread (Running (block_rest f r)) (g :: fs) (if metrics then pred dep else dep)]> (threads s)) (reports s) (lost s)).
Proof.
  intros Hx Hr Hk Ht Hc. pose proof Hr as (_&Hf&_&_). destruct (Hf _ _ _ Ht Hc) as ((Hd&[_ Hfl]&_)&Hg&Hin). cbn [frames] in Hin.
  rewrite last_cons_ne in Hin by done. destruct (last (g :: fs)) as [b|] eqn:El; [|by apply last_None in El].
  destruct Hin as [How (body&->&Hu)]. unfold inner in Hu. cbn [at_] in Hu. rewrite unwind_return in Hu by done.
  eapply (explained_silent _ _ kinds d cs); [done..| | |exact (told_insert s t _ _ _ _ Ht)].
  - right. rewrite How. split; [split; simpl; congruence|by eexists].
  - unfold follows, thread_ok. cbn [at_ frames depth_here]. rewrite El, How. cbn [depth_here frames] in Hd. rewrite Hd.
    split_and!; try done; [by destruct metrics|]. by exists body.
Qed.

Lemma told_report m o ths rs ls (ok : bool) a :
  told (mkState m o ths (if ok then rs ++ [a] else rs) (if ok then ls else ls ++ [a])) ≡ₚ reported_kind a :: told (mkState m o ths rs ls).
Proof. unfold told. simpl. destruct ok; rewrite !map_app; simpl; solve_Permutation. Qed.

Lemma move_explained x s s' now ok t : explained x s → move metrics now ok t s = Some s' → explained x s'.
Proof.
  intros (kinds&d&cs&Hx&Hr&Hk) Hm. unfold move in Hm. destruct (threads s !! t) as [th|] eqn:Ht; [|done]. simpl in Hm.
  pose proof Hr as (Hl&Hf&Hfree&Hin).
  destruct (lookup_lt_is_Some_2 cs t) as [c Hc]; [rewrite Hl; by eapply lookup_lt_Some|].
  pose proof (Hf _ _ _ Ht Hc) as ((Hd&Hfl&Hph)&Hg&Hin'). pose proof (told_insert s t th) as Htold.
  destruct th as [ph fs dep]. simpl in *. destruct ph as [[r|op rest|kind body rest]|kind body rest first since|o c0].
  - destruct fs as [|f [|g fs]]; [done|..]; injection Hm as <-.
    + by eapply (leave_outermost x s kinds d cs).
    + destruct Hfl as [-> _]. by eapply (leave_inner x s kinds d cs).
  - destruct (op (connection s)) as [m' r] eqn:Eop. injection Hm as <-. eapply (explained_silent _ _ kinds d cs); try done.
    + right. destruct (last fs) as [f|] eqn:El; [|by destruct Hin' as [<- _]]. destruct Hin' as [Ho _]. split; [|by eexists].
      intros u n Hne. rewrite Ho. split; congruence.
    + split_and!; try done. simpl. destruct (last fs) as [f|]; [|by destruct Hin' as [<- _]].
      destruct Hin' as [Ho (body&Hcb&Hu)]. split; [done|]. exists body. split; [done|]. unfold inner in Hu. cbn [at_] in Hu. by rewrite unwind_touch, Eop in Hu.
    + exact (Htold _ _ _ Ht).
  - injection Hm as <-. eapply (explained_silent _ _ kinds d cs); [done..|by left| |].
    + unfold follows, thread_ok. simpl. split_and!; try done. rewrite Hd. by destruct metrics, fs.
    + exact (Htold _ _ _ Ht).
  - destruct (acquired t (owner s)) as [o'|] eqn:Ea; [|done]. injection Hm as <-. subst first.
    assert (o' = Some (t, S (length fs)) ∧ (∀ u n, u ≠ t → owner s ≠ Some (u, n)) ∧ (fs = [] → connection s = d)) as (->&Hu&Hd0).
    { exact (acquired_alone _ _ _ _ _ _ _ Hr Ht Hc Ea). }
    eapply (explained_silent _ _ kinds d cs); try done.
    + right. split; [|by eexists]. intros u n Hne. split; [by apply Hu|congruence].
    + unfold follows, thread_ok. simpl. split_and!; try done.
      * rewrite Hd. by destruct metrics.
      * by apply (flags_push (mkFrame kind rest _ since now)).
      * destruct fs as [|f fs].
        -- simpl. destruct Hin' as [<- _]. split; [done|]. exists body. split; [done|]. by rewrite Hd0.
        -- rewrite last_cons_ne by done. destruct (last (f :: fs)) as [g|] eqn:El; [|by apply last_None in El].
           destruct Hin' as [_ (body0&Hcb&Hu0)]. split; [done|]. exists body0. split; [done|].
           change (unwind (mkFrame kind rest (metrics && false) since now :: f :: fs) body (connection s) = alone_run body0 d).
           rewrite unwind_within by done. exact Hu0.
    + exact (Htold _ _ _ Ht).
  - injection Hm as <-. destruct Hph as [-> Hmet]. eapply (explained_silent _ _ kinds d cs); [done..|by left| |].
    + unfold follows, thread_ok. simpl. split_and!; try done; by destruct Hin'.
    + rewrite told_report. exact (Htold _ _ _ Ht).
Qed.

Lemma schedule_explained x s ms : explained x s → explained x (run_schedule metrics s ms).
Proof.
  revert s. induction ms as [|[[t now] ok] ms IH]; intros s Hs; [done|]. apply IH. unfold follow. cbn [fst snd].
  destruct (move metrics now ok t s) as [s'|] eqn:Em; [|done]. by eapply move_explained.
Qed.
Lemma start_explained d cs : Forall guarded cs → explained (d, cs) (start d cs).
Proof.
  intros Hg. exists [], d, cs. split_and!; [constructor|by apply related_start|]. unfold told. simpl.
  assert (concat (map pending (map new_thread cs)) = []) as -> by (clear Hg; induction cs; [done|]; simpl; done).
  by destruct metrics.
Qed.

(** ** Every schedule ends *)

(** One move of a thread, whatever the others, the clock and the data do. *)
Inductive advances : thread → thread → Prop :=
| adv_touch op rest r fs n : advances (mkThread (Running (rest r)) fs n) (mkThread (Running (Touch op rest)) fs n)
| adv_within kind body rest first since fs n :
    advances (mkThread (Acquiring kind body rest first since) fs n) (mkThread (Running (Within kind body rest)) fs n)
| adv_acquire kind body rest first since f fs n n' : block_rest f = rest →
    advances (mkThread (Running body) (f :: fs) n') (mkThread (Acquiring kind body rest first since) fs n)
| adv_leave r f fs n n' : advances (mkThread (Running (block_rest f r)) fs n') (mkThread (Running (Return r)) (f :: fs) n)
| adv_leave_outermost r f fs n n' o :
    advances (mkThread (Reporting o (block_rest f r)) fs n') (mkThread (Running (Return r)) (f :: fs) n)
| adv_report o c fs n : advances (mkThread (Running c) fs n) (mkThread (Reporting o c) fs n).

Lemma running_ends c fs : (∀ r n, Acc advances (mkThread (Running (Return r)) fs n)) → ∀ n, Acc advances (mkThread (Running c) fs n).
Proof.
  revert fs. induction c as [r|op rest IH|kind body IHb rest IHr]; intros fs H n; [apply H|..]; constructor; intros th Ha; inversion Ha; subst; clear Ha.
  - by apply IH.
  - constructor. intros th Ha. inversion Ha; subst; clear Ha. apply IHb. intros r m. constructor. intros th Ha.
    inversion Ha; subst; clear Ha; [by apply IHr|]. constructor. intros th Ha. inversion Ha; subst. by apply IHr.
Qed.
Lemma frames_end fs : ∀ r n, Acc advances (mkThread (Running (Return r)) fs n).
Proof.
  induction fs as [|f fs IH]; intros r n; constructor; intros th Ha; inversion Ha; subst; clear Ha; [by apply running_ends|].
  constructor. intros th Ha. inversion Ha; subst. by apply running_ends.
Qed.
Lemma thread_ends (th : thread) : Acc advances th.
Proof.
  constructor. intros th' Ha.
  inversion Ha; subst; try (by apply running_ends, frames_end); constructor; intros th Hb; inversion Hb; subst; apply running_ends, frames_end.
Qed.

Definition one_advances (after before : list thread) : Prop :=
  ∃ t th th', before !! t = Some th ∧ advances th' th ∧ after = <[t := th']> before.
Lemma threads_end (ths : list thread) : Acc one_advances ths.
Proof.
  induction ths as [|th ths IH]; [constructor; intros y (t&th&th'&Ht&_); done|].
  pose proof (thread_ends th) as Hth. revert ths IH. induction Hth as [th _ IHth]. intros ths Hths. induction Hths as [ths Hs IHths].
  constructor. intros y ([|t]&x&x'&Hx&Ha&->); simpl in *.
  - injection Hx as ->. apply IHth; [done|]. by constructor.
  - apply IHths. by exists t, x, x'.
Qed.

Definition moves (s' s : state) : Prop := ∃ now ok t, move metrics now ok t s = Some s'.
Lemma move_advances s s' : moves s' s → one_advances (threads s') (threads s).
Proof.
  intros (now&ok&t&Hm). unfold move in Hm. destruct (threads s !! t) as [[ph fs n]|] eqn:Ht; [|done]. simpl in Hm.
  destruct ph as [[r|op rest|kind body rest]|kind body rest first since|o c].
  - destruct fs as [|f fs]; [done|]. injection Hm as <-. eexists t, _, _. split_and!; [done| |done].
    destruct (outermost f); constructor.
  - destruct (op (connection s)). injection Hm as <-. eexists t, _, _. split_and!; [done|constructor|done].
  - injection Hm as <-. eexists t, _, _. split_and!; [done|constructor|done].
  - destruct (acquired t (owner s)); [|done]. injection Hm as <-. eexists t, _, _. split_and!; [done| |done]. by apply adv_acquire.
  - injection Hm as <-. eexists t, _, _. split_and!; [done|constructor|done].
Qed.
Lemma moves_end s : Acc moves s.
Proof.
  remember (threads s) as ths eqn:E. revert s E. induction (threads_end ths) as [ths _ IH]. intros s ->.
  constructor. intros s' Hm. by eapply IH; [apply move_advances|].
Qed.

#[local] Instance finished_dec (th : thread) : Decision (finished th).
Proof.
  destruct th as [[[r|op rest|kind body rest]|kind body rest first since|o c] [|f fs] n];
    first [left; split; [done|by exists r]|right; by intros [? [? ?]]].
Defined.
(** A thread that is not done moves, unless another holds the lock. *)
Lemma can_move (s : state) t th : threads s !! t = Some th → ¬ finished th → acquired t (owner s) ≠ None →
  ∀ now ok, is_Some (move metrics now ok t s).
Proof.
  intros Ht Hn Ha now ok. unfold move. rewrite Ht. simpl.
  destruct th as [[[r|op rest|kind body rest]|kind body rest first since|o c] fs n]; simpl; try by eexists.
  - destruct fs; [|by eexists]. exfalso. apply Hn. by split; [|exists r].
  - destruct (op (connection s)). by eexists.
  - destruct (acquired t (owner s)); [by eexists|done].
Qed.
Lemma someone_moves x s : explained x s → Forall finished (threads s) ∨ ∃ t, ∀ now ok, is_Some (move metrics now ok t s).
Proof.
  intros (kinds&d&cs&_&(Hl&Hf&_&Hin)&_). destruct (owner s) as [[t n]|] eqn:Ho.
  - right. exists t. destruct (Hin t n eq_refl) as [th Ht]. eapply can_move; [done| |by rewrite Ho; simpl; rewrite bool_decide_eq_true_2].
    destruct (lookup_lt_is_Some_2 cs t) as [c Hc]; [rewrite Hl; by eapply lookup_lt_Some|].
    destruct (Hf _ _ _ Ht Hc) as (_&_&Hlast). intros [E _]. rewrite E in Hlast. simpl in Hlast. by destruct Hlast as [_ []%(λ H, H n)].
  - destruct (decide (Forall finished (threads s))) as [|Hn]; [by left|right].
    apply not_Forall_Exists, Exists_exists in Hn as (th&[t Ht]%list_elem_of_lookup&Hn); [|apply _].
    exists t. eapply can_move; [done..|]. by rewrite Ho.
Qed.
End atomicity.

(** C4. A method call, and a transaction with everything it calls, is one step: however
    the threads' statements are interleaved, at most one thread is inside the lock, and
    the data and the code the threads have left are those of a run in which each
    outermost block runs alone, without interruption; and the metrics get one report for
    each such block, of its kind, whatever is nested in it and whatever raises. *)
Theorem calls_are_atomic {D V : Type} (metrics : bool) (d : D) (cs : list (code D V)) (ms : list move_of) :
  Forall guarded cs →
  let s := run_schedule metrics (start d cs) ms in
  (∀ t th, threads s !! t = Some th → frames th ≠ [] → owner s = Some (t, length (frames th))) ∧
  ∃ kinds d' cs', atomic_run (d, cs) kinds (d', cs') ∧
    (∀ t th, threads s !! t = Some th → frames th = [] → cs' !! t = Some (inner th)) ∧
    (owner s = None → connection s = d' ∧ map inner (threads s) = cs') ∧
    told s ≡ₚ (if metrics then kinds else []).
Proof.
  intros Hg s. destruct (schedule_explained metrics (d, cs) (start d cs) ms (start_explained metrics d cs Hg))
    as (kinds&d'&cs'&Hx&(Hl&Hf&Hfree&_)&Htold). fold s in Hl, Hf, Hfree, Htold.
  assert (∀ t th, threads s !! t = Some th → frames th ≠ [] → owner s = Some (t, length (frames th))) as Hown.
  { intros t th Ht Hne. destruct (lookup_lt_is_Some_2 cs' t) as [c Hc]; [rewrite Hl; by eapply lookup_lt_Some|].
    destruct (Hf _ _ _ Ht Hc) as (_&_&Hin). destruct (last (frames th)) eqn:El; [by destruct Hin|by apply last_None in El]. }
  assert (∀ t th, threads s !! t = Some th → frames th = [] → cs' !! t = Some (inner th)) as Hout.
  { intros t th Ht He. destruct (lookup_lt_is_Some_2 cs' t) as [c Hc]; [rewrite Hl; by eapply lookup_lt_Some|].
    destruct (Hf _ _ _ Ht Hc) as (_&_&Hin). rewrite He in Hin. simpl in Hin. by destruct Hin as [-> _]. }
  split; [done|]. exists kinds, d', cs'. split_and!; [done..| |done]. intros Ho. split; [by apply Hfree|].
  apply list_eq. intros t. rewrite list_lookup_fmap. destruct (threads s !! t) as [th|] eqn:Ht; simpl.
  - destruct (frames th) eqn:Ef; [by rewrite (Hout t th Ht Ef)|]. specialize (Hown t th Ht ltac:(by rewrite Ef)). congruence.
  - symmetry. apply lookup_ge_None. rewrite Hl. by apply lookup_ge_None.
Qed.

(** C5. Threads that use the store neither deadlock nor run for ever: whatever was
    scheduled so far, no sequence of moves is infinite, and unless every thread is done
    some thread can move at once, whatever the time and the recorder. *)
Theorem every_schedule_ends {D V : Type} (metrics : bool) (d : D) (cs : list (code D V)) (ms : list move_of) :
  Forall guarded cs →
  let s := run_schedule metrics (start d cs) ms in
  Acc (moves metrics) s ∧ (Forall finished (threads s) ∨ ∃ t, ∀ now ok, is_Some (move metrics now ok t s)).
Proof.
  intros Hg s. split; [apply moves_end|]. eapply someone_moves, schedule_explained, start_explained, Hg.
Qed.

(** ** Two threads on the sample store *)

Definition statement (m : SE store exn unit) (rest : result exn unit → code store unit) : code store unit := Touch m rest.
Definition return_ : result exn unit → code store unit := Return.
(** A transaction that calls one method twice, the second time with an exception that it
    swallows, and a thread that calls another. *)
Definition writer : code store unit :=
  Within "write" (locked "add_project" (statement (add_project sample_project) return_)
    (λ _, locked "add_project" (statement (add_project sample_project) return_) (λ _, Return (Ok tt)))) return_.
Definition reader : code store unit := locked "list_projects" (statement (λ s, (s, Ok tt)) return_) return_.
Definition interleaved : list move_of :=
  map (λ x, (x.1, Z.of_nat x.2, true))
    (zip [0; 1; 0; 1; 0; 0; 1; 0; 0; 1; 0; 0; 0; 0; 0; 1; 1; 0; 1; 1]%nat (seq 0 20)).
Lemma guarded_sample : Forall guarded [writer; reader].
Proof. repeat constructor. Qed.

Lemma calls_are_atomic_witness :
  let s := run_schedule true (start fresh_store [writer; reader]) interleaved in
  owner s = None ∧ told s = ["write"; "read"]%string ∧
  ∃ kinds, kinds ≡ₚ ["write"; "read"]%string ∧ atomic_run (fresh_store, [writer; reader]) kinds (connection s, map inner (threads s)).
Proof.
  pose proof (calls_are_atomic true fresh_store [writer; reader] interleaved guarded_sample) as H. cbv zeta in H |- *.
  assert (Ho : owner (run_schedule true (start fresh_store [writer; reader]) interleaved) = None) by (vm_compute; reflexivity).
  assert (Ht : told (run_schedule true (start fresh_store [writer; reader]) interleaved) = ["write"; "read"]%string) by (vm_compute; reflexivity).
  split; [exact Ho|]. split; [exact Ht|]. destruct H as [_ (kinds&d'&cs'&Hrun&_&Hfree&Htold)].
  destruct (Hfree Ho) as [Hd Hcs]. exists kinds. split; [rewrite <- Htold; rewrite Ht; reflexivity|]. rewrite Hd, Hcs. exact Hrun.
Defined.

Lemma every_schedule_ends_witness :
  let s := run_schedule true (start fresh_store [writer; reader]) (take 9 interleaved) in
  Acc (moves true) s ∧ ∃ t, ∀ now ok, is_Some (move true now ok t s).
Proof.
  destruct (every_schedule_ends true fresh_store [writer; reader] (take 9 interleaved) guarded_sample) as [Ha [Hf|Hm]].
  - exfalso. apply Forall_lookup_1 with (i := 0%nat) (x := default (new_thread reader)
      (threads (run_schedule true (start fresh_store [writer; reader]) (take 9 interleaved)) !! 0%nat)) in Hf; [|vm_compute; reflexivity].
    destruct Hf as [Hf _]. vm_compute in Hf. discriminate Hf.
  - split; [exact Ha|exact Hm].
Defined.
